(* ===== verification/_CoqProject ===== *)
-Q . S2P
Prelude.v
SeriesKey.v
Routes.v
Float64.v
LogTokens.v
Varint.v
Dict.v
Dims.v
Registrar.v
Identity.v
Gc.v
TemplateMiner.v
MinerInvariant.v
MinerLines.v
GcRace.v
Sketch.v
SketchQuantile.v
SketchCodec.v
Histogram.v
Delta.v
Limiter.v
Baseline.v
Edges.v
Engine.v
TopoIdentity.v
Reducer.v
ReducerFacts.v
ReducerNames.v
Topology.v
TopologyFacts.v
TopologyBounds.v
TopologySnapshot.v
EngineTotals.v
EngineReads.v
Writer.v
WriterCommit.v
StoreRows.v
StoreTables.v
StoreFacts.v
StoreErrors.v
Recovery.v
RecoveryFacts.v
RecoveryTotals.v
StoreReads.v
Query.v
QueryFacts.v
SumFacts.v
Rollup.v
RollupFacts.v
ServiceSummary.v
RollupReads.v
RollupSums.v
SummarySums.v
SummaryBuild.v
SummaryFacts.v
SummarySystem.v
StoreContract.v
