(* ===== verification/Prelude.v ===== *)
(** * The OtelContext aggregate core

    OtelContext receives OpenTelemetry traces, logs and metrics and keeps them
    as aggregates: for every series and five-minute window a delta of counts,
    sums and a quantile sketch.  The aggregates live in memory while their
    window may still change and are committed in groups to SQLite.  This
    library models that core, [src/internal/aggregate/], in Go, as executable
    definitions, and proves what the code relies on.

    ** The parts and how they interact

    An OTLP span, log or metric point enters the reducer ([Reducer.v],
    [reducer.go]), one per export, which names it and folds it into a delta.
    Its operation is normalized ([Routes.v], [routes.go]); the body of a log
    becomes a template ([LogTokens.v], [TemplateMiner.v],
    [template_miner.go]); a metric's configured attributes become a dimension
    tuple ([Dims.v], [dims_config.go]); tenant, service, operation and
    attribute values become 32-bit identities in a cache ([Dict.v],
    [dict.go]) in front of a registrar that mints identities and stages their
    rows ([Registrar.v], [registrar.go]; [Identity.v] puts it beside the
    dictionary table of [store_sqlite.go] and restarts it).  Identities and
    the signal make a series key ([SeriesKey.v], [key.go]).  Cumulative
    counters become differences against a baseline ([Baseline.v],
    [temporality.go]); a client span and its server span meet in the edge
    resolver ([Edges.v], [edges.go]); the histogram of a point is folded into
    a sketch ([Histogram.v], [histogram.go]).  The point ends in an aggregate
    delta ([Delta.v], [delta.go]) with its quantile sketch ([Sketch.v],
    [SketchQuantile.v], [sketch.go]; bytes in [SketchCodec.v] and [Varint.v],
    [sketch_codec.go]; float64 in [Float64.v]).

    The deltas of an export go to the group-commit writer ([Writer.v],
    [writer.go]), which bounds what waits, merges what waits together, plans
    the admission with the engine, where the cardinality limiter may redirect
    a key to an overflow series ([Limiter.v], [cardinality.go]), commits to
    the store, and then tells the engine.  The engine ([Engine.v],
    [engine.go]) keeps the windows in shards and hands a window over to the
    store once it is final.  [EngineTotals.v] and [EngineReads.v] follow what
    is stored and who may be asked for it; [WriterCommit.v] is the composition
    of writer, engine and store.  What was committed is also folded into the
    bounded service graph ([TopoIdentity.v], [identity_coverage.go];
    [Topology.v], [topology.go]).

    The store is the SQLite file ([store_sqlite.go], [store.go]): [StoreRows.v]
    has the rows and what a column gives back, [StoreTables.v] the tables and
    the transactions over them.  After a crash, recovery ([Recovery.v],
    [recovery.go]) finalizes what expired, replays the log into the engine
    and restores baselines and service graph.  The identity collector
    ([Gc.v], [gc.go]) deletes what nothing refers to; [GcRace.v] interleaves
    it with ingest.

    What was finalized is read back and condensed.  [StoreReads.v] has the
    selector reads of [store_sqlite.go]; [Query.v] the planner and the folds
    of [query.go] over store pages and memory windows.  The hourly rollup
    ([Rollup.v], [rollup.go]) turns the windows of a complete hour into one
    row per series and marks the hour; the service summaries
    ([ServiceSummary.v] and [SummaryBuild.v], [service_summary.go]) condense
    hours and windows into one row per service, which the dashboard query
    reads instead of the series.  [SummarySystem.v] is the transition system
    in which commits, finalizations, rollups, summary builds, purges and
    cleanups interleave.  [StoreContract.v] is the other half of the
    interface: the store of [StoreTables.v] and a chunked reference store meet
    the laws the readers are proved against, and the concrete runs are there.

    The theorems of a part that has many are in files beside it:
    [MinerInvariant.v] and [MinerLines.v]; [ReducerFacts.v] and
    [ReducerNames.v]; [TopologyFacts.v], [TopologyBounds.v] and
    [TopologySnapshot.v] (which also has the rendering); [StoreFacts.v] and
    [StoreErrors.v]; [RecoveryFacts.v] and [RecoveryTotals.v]; [QueryFacts.v]
    and [SumFacts.v] (the query); [RollupFacts.v], [RollupReads.v] and
    [RollupSums.v] (the rollup); [SummarySums.v] and [SummaryFacts.v] (the
    summaries).

    A Go method on a mutable object is a function from the old state to the
    new one and the results; a method that holds a mutex throughout is one
    step, and code that lets the mutex go is several ([GcRace.v],
    [WriterCommit.v]).  Where the code shares a pointer and the sharing is
    visible ([Writer.v], the deltas of a batch) the model has a heap.  Names
    are the source's; a comment line above a definition names the file, the
    lines and the symbol it translates.  Record fields carry the source's
    field name, with a short prefix where two records share one.

    ** What the theorems show

    - Identities: two names never share an identity, through any sequence of
      cache operations ([Dict.identities_never_merge], against an interface of
      registrar laws that both registrars meet); every staged registration is
      accepted by the store and survives a restart, with failures and
      collections in between ([Identity.registrations_commit]); the caps hold
      and the counters they are checked against are exact
      ([Identity.registrar_capacity]).
    - The collector: a sweep keeps everything a surviving series, a root or a
      fresh registration refers to ([Gc.sweep_keeps_references]), a failed
      pass changes nothing, the alias closure terminates with the least closed
      set, and no interleaving with ingest strands an identity unless a
      registration falls between two critical sections
      ([GcRace.gc_never_strands]); [GcRace.gc_race] is the trace of that case.
    - The engine and the writer: exactly one owner per window, occupancy and
      caps exact, shards refining a flat map, totals conserved, commits atomic
      and counted once, admission bounds exact, rollover bounded, memory and
      store never asked for the same window, finalization in order and safe
      under failing stores.
    - The query: the traffic chart sums exactly memory's cells and the store's
      cells below the oldest asked window of memory's
      ([QueryFacts.QueryBuckets_exact]), and every error of the store comes through
      ([QueryFacts.sumStoreFrom_answers]).
    - The rollup and the summaries: an hour that is marked holds exactly what
      its windows held ([RollupFacts.complete_hours_exact]); in every state
      the system reaches, a summed query answers what the finalized series
      rows say, from whichever of summary, hour or series it is read
      ([SummarySystem.system_sums_exact]).
    - Sketches: for indexes in [[-2^30, 2^30)] and totals within 32 bits,
      adding refines a plain histogram, independent of the order, and merging
      refines addition (at the ends of the int32 range both can panic, a
      finding); every quantile is a bin value between minimum and maximum; a
      well-formed sketch with a finite sum survives encoding, and decoding
      accepts no ill-formed sketch.
    - Limits and baselines: the caps are never exceeded, a failed commit loses
      no increase of a counter.
    - The reducer: every point of an export is in exactly one delta or counted
      under exactly one reason it was refused, and the keys of different
      tenants never meet, nor those of different services and names unless
      their identity is the overflow or the unresolved one.
    - Log templates: the templates of a bucket never become equal, every line
      is counted under one template or the overflow, and what the prefix tree
      holds is what was registered.
    - The service graph: a fold adds the committed counts, its maps stay within
      their bounds, pruning forgets only what is outside the horizon, and a
      snapshot shows the windows that are inside it.
    - The store: a row reads back as the delta that was written, a commit is
      atomic and adds every delta of its batch once, in each of a delta's ten
      counters, a finalization moves a window from the log to the buckets
      without a change of a counter or of another table, and a row that does not decode blocks its window for good.
    - Recovery: the startup finalization ends, whatever the number of windows;
      an engine that starts empty has, after a recovery without error, exactly
      the durable counts of the open windows; no aligned window is neither
      finalized nor replayed.
    - Routes and edges: normalization yields canonical names and is
      idempotent; the edge resolver answers only what was observed, holds at
      most the spans asked for (or one per shard, a finding), and always answers for a recent parent.
    - The manifest also lists behaviours that do not match the code's own
      comments; each is a theorem with a concrete run.

    ** Numbers, bounds and fuel

    [u8] to [u64], [i32] and [i64] wrap a [Z] as Go's conversions and
    arithmetic do; a counter that can wrap does so in the model.  float64 is
    Stdlib's [SpecFloat] at precision 53 ([Float64.v]), so that additions and
    comparisons are those of IEEE 754; [math.Log], [math.Exp2] and the like
    are parameters.  Loops that are not structural carry fuel computed from
    their input: the bytes left for the decoders, the number of template rows
    for the alias closure, the remaining parts for the route walker, the
    expired windows for the passes of the startup finalization (one more than
    their number, as every pass but the last finalizes at least one), the IDs
    for the chunks of a read, the rows for the pages of a scan, the length of
    a time range for its hours, windows and slices, the rows still to be
    deleted or built for the batch loops of the summaries.  Each has a lemma or a theorem that this is
    enough.  The iteration order of a Go map
    is an argument, or the theorem is stated for the result that does not
    depend on it.

    ** Not modelled

    Goroutines, timers and channels appear as the steps they take, clocks as
    arguments.  SQL is represented by the contract of the statements the core
    relies on (unique indexes, transactions, row limits, order), not by its
    text; which rows a limited DELETE takes is left open, and a build token is
    one that was not used before; what the driver makes of a float64 is the class [Sqlite], with the
    instance [SqliteFile] for the behaviour of the file format.  Of the store,
    opening, pragmas and schema migration are left out, as are
    the log summary ([query_logs.go]) and the goroutines of the query's
    fan-out, whose results are taken in order.  The metrics recorder, the
    inspection output and the disk-full probe are reports on modelled state.
    Protobuf decoding, HTTP, gRPC, configuration, the relational store, the
    read models (GraphRAG, topology service), and the user interface are
    outside the library. *)
From stdpp Require Export base list strings gmap numbers pretty.
From Stdlib Require Export ZArith Lia.

#[global] Open Scope Z_scope.

(** ** Fallible Go functions

    A Go function returning [(T, error)] is a function into [result E T].
    A computation that may panic (index out of range) returns [option]. *)

Inductive result (E A : Type) : Type :=
| Ok (a : A)
| Err (e : E).
Arguments Ok {E A} a.
Arguments Err {E A} e.

Definition rbind {E A B} (m : result E A) (k : A -> result E B) : result E B :=
  match m with
  | Ok a => k a
  | Err e => Err e
  end.

Declare Scope go_scope.
Delimit Scope go_scope with go.
Notation "'let?' x := m 'in' k" := (rbind m (fun x => k))
  (at level 10, x pattern, m at level 100, k at level 200) : go_scope.
#[global] Open Scope go_scope.

Definition is_Ok {E A} (m : result E A) : bool :=
  match m with Ok _ => true | Err _ => false end.

Lemma rbind_Ok {E A B} (m : result E A) (k : A -> result E B) b :
  rbind m k = Ok b <-> exists a, m = Ok a /\ k a = Ok b.
Proof. destruct m; simpl; split; intros; destruct_and?; simplify_eq; eauto; naive_solver. Qed.

(** An early-return guard: [Some e] stops with the error [e]. *)
Definition guard_none {E A} (m : option E) (k : result E A) : result E A :=
  match m with
  | Some e => Err e
  | None => k
  end.

Lemma guard_none_Ok {E A} (m : option E) (k : result E A) a :
  guard_none m k = Ok a <-> m = None /\ k = Ok a.
Proof. destruct m; simpl; split; intros; destruct_and?; by simplify_eq. Qed.

(** ** Machine integers: values of [Z] with their wrap-around written out *)

Definition wrapu (w z : Z) : Z := z mod 2 ^ w.
Definition wraps (w z : Z) : Z := (z + 2 ^ (w - 1)) mod 2 ^ w - 2 ^ (w - 1).

Abbreviation u8 := (wrapu 8).
Abbreviation u32 := (wrapu 32).
Abbreviation u64 := (wrapu 64).
Abbreviation i32 := (wraps 32).
Abbreviation i64 := (wraps 64).

Definition MaxUint32 : Z := 4294967295.
Definition MaxInt32 : Z := 2147483647.
Definition MinInt32 : Z := -2147483648.

Definition in_u (w z : Z) : Prop := 0 <= z < 2 ^ w.
Definition in_s (w z : Z) : Prop := - 2 ^ (w - 1) <= z < 2 ^ (w - 1).

#[global] Instance in_u_dec w z : Decision (in_u w z).
Proof. unfold in_u. apply _. Defined.
#[global] Instance in_s_dec w z : Decision (in_s w z).
Proof. unfold in_s. apply _. Defined.

Lemma wrapu_small w z : in_u w z -> wrapu w z = z.
Proof. intros H. apply Z.mod_small, H. Qed.

Lemma wrapu_range w z : 0 <= w -> in_u w (wrapu w z).
Proof. intros H. apply Z.mod_pos_bound. lia. Qed.

Lemma wrapu_add_l w a b : wrapu w (wrapu w a + b) = wrapu w (a + b).
Proof. apply Zplus_mod_idemp_l. Qed.

Lemma wrapu_add_r w a b : wrapu w (a + wrapu w b) = wrapu w (a + b).
Proof. apply Zplus_mod_idemp_r. Qed.

Lemma wrapu_add_assoc w a b c :
  wrapu w (wrapu w (a + b) + c) = wrapu w (a + wrapu w (b + c)).
Proof. rewrite wrapu_add_l, wrapu_add_r. f_equal. lia. Qed.

Lemma wraps_small w z : 0 < w -> in_s w z -> wraps w z = z.
Proof.
  unfold in_s, wraps. intros Hw H.
  assert (2 ^ w = 2 * 2 ^ (w - 1)) as E by (rewrite <- Z.pow_succ_r by lia; f_equal; lia).
  rewrite Z.mod_small by lia. lia.
Qed.

Lemma i32_small z : -2147483648 <= z < 2147483648 -> i32 z = z.
Proof. intros H. apply wraps_small; [lia|]. unfold in_s. simpl. lia. Qed.

Lemma u64_small z : 0 <= z < 18446744073709551616 -> u64 z = z.
Proof. intros H. apply wrapu_small. unfold in_u. simpl. lia. Qed.

Lemma u32_small z : 0 <= z < 4294967296 -> u32 z = z.
Proof. intros H. apply wrapu_small. unfold in_u. simpl. lia. Qed.

Lemma u8_small z : 0 <= z < 256 -> u8 z = z.
Proof. intros H. apply wrapu_small. unfold in_u. simpl. lia. Qed.

(** ** Little-endian byte strings; a byte is a [Z] in [0, 256) *)

Abbreviation bytes := (list Z).

Definition is_byte (b : Z) : Prop := 0 <= b < 256.

#[global] Instance is_byte_dec b : Decision (is_byte b).
Proof. unfold is_byte. apply _. Defined.

Fixpoint le_put (n : nat) (z : Z) : bytes :=
  match n with
  | O => []
  | S n' => z mod 256 :: le_put n' (z / 256)
  end.

Fixpoint le_get (b : bytes) : Z :=
  match b with
  | [] => 0
  | x :: b' => x + 256 * le_get b'
  end.

Lemma le_put_length n z : length (le_put n z) = n.
Proof. revert z. induction n; intros; simpl; auto. Qed.

Lemma le_put_bytes n z : Forall is_byte (le_put n z).
Proof.
  revert z. induction n; intros; simpl; constructor; auto.
  apply Z.mod_pos_bound. lia.
Qed.

Lemma le_get_put n z : le_get (le_put n z) = z mod 256 ^ Z.of_nat n.
Proof.
  revert z. induction n; intros z.
  - simpl. by rewrite Z.mod_1_r.
  - cbn [le_put le_get]. rewrite IHn, Nat2Z.inj_succ, Z.pow_succ_r by lia.
    rewrite Z.rem_mul_r by lia. lia.
Qed.

Lemma le_put_get b : Forall is_byte b -> le_put (length b) (le_get b) = b.
Proof.
  induction 1 as [|x b Hx Hb IH]; [done|]. cbn [le_put le_get length].
  unfold is_byte in Hx.
  replace (x + 256 * le_get b) with (x + le_get b * 256) by lia.
  rewrite Z.mod_add, Z.div_add by lia.
  rewrite Z.mod_small, Z.div_small, Z.add_0_l, IH by lia. done.
Qed.

Lemma le_get_range b : Forall is_byte b -> 0 <= le_get b < 256 ^ Z.of_nat (length b).
Proof.
  induction 1 as [|x b Hx Hb IH]; [simpl; lia|].
  cbn [le_get length]. rewrite Nat2Z.inj_succ, Z.pow_succ_r by lia.
  unfold is_byte in Hx. lia.
Qed.

(** ** Go times: nanoseconds since the zero [time.Time]

    Tenant, service and dimension strings are [string]; a timestamp is a [Z]
    with [0] for the zero time.  [Sub] saturates as [time.Duration] does. *)

Abbreviation time := Z (only parsing).

Definition t_IsZero (t : time) : bool := t =? 0.
Definition t_Before (a b : time) : bool := a <? b.
Definition t_After (a b : time) : bool := b <? a.
Definition MaxDuration : Z := 9223372036854775807.
Definition MinDuration : Z := -9223372036854775808.
Definition t_Sub (a b : time) : Z := Z.max MinDuration (Z.min MaxDuration (a - b)).
Definition Second : Z := 1000000000.
Definition Minute : Z := 60 * Second.

(** [Unix]: the zero [time.Time] is January 1, year 1; the epoch is
    62135596800 seconds later.  Seconds are floored, as Go floors them. *)
Definition unixToInternal : Z := 62135596800.
Definition t_Unix (t : time) : Z := t / Second - unixToInternal.
Definition t_of_unix (sec : Z) : time := (sec + unixToInternal) * Second.

Lemma t_Unix_of_unix sec : t_Unix (t_of_unix sec) = sec.
Proof. unfold t_Unix, t_of_unix, Second. rewrite Z.div_mul by lia. lia. Qed.

Lemma t_Unix_mono a b : a <= b -> t_Unix a <= t_Unix b.
Proof. intros. unfold t_Unix, Second. pose proof (Z.div_le_mono a b 1000000000). lia. Qed.

(** ** Counters kept in maps

    Go reads a missing key of a [map[K]int] as zero. *)

Definition mget {K} `{Countable K} (m : gmap K Z) (k : K) : Z := default 0 (m !! k).

Lemma mget_insert {K} `{Countable K} (m : gmap K Z) k k' v :
  mget (<[k := v]> m) k' = if decide (k = k') then v else mget m k'.
Proof. unfold mget. rewrite lookup_insert. by case_decide. Qed.

Lemma mget_delete {K} `{Countable K} (m : gmap K Z) k k' :
  mget (delete k m) k' = if decide (k = k') then 0 else mget m k'.
Proof. unfold mget. rewrite lookup_delete. by case_decide. Qed.

Lemma mget_empty {K} `{Countable K} (k : K) : mget (∅ : gmap K Z) k = 0.
Proof. reflexivity. Qed.

(** ** Sums over lists *)

Definition list_sum {A} (h : A -> Z) (l : list A) : Z := foldr (fun x acc => h x + acc) 0 l.

Lemma list_sum_perm {A} (h : A -> Z) l l' : l ≡ₚ l' -> list_sum h l = list_sum h l'.
Proof. unfold list_sum. induction 1; cbn [foldr]; lia. Qed.

Lemma list_sum_cons {A} (h : A -> Z) x l : list_sum h (x :: l) = h x + list_sum h l.
Proof. done. Qed.

Lemma list_sum_app {A} (h : A -> Z) l1 l2 : list_sum h (l1 ++ l2) = list_sum h l1 + list_sum h l2.
Proof. induction l1 as [|x l1 IH]; [done|]. rewrite <- app_comm_cons, !list_sum_cons, IH. lia. Qed.

Lemma list_sum_ext {A} (h h' : A -> Z) l : (forall x, x ∈ l -> h x = h' x) -> list_sum h l = list_sum h' l.
Proof. induction l as [|x l IH]; intros E; [done|]. rewrite !list_sum_cons, IH by (intros y Hy; apply E; by right). by rewrite E by left. Qed.

Lemma list_sum_zero {A} (h : A -> Z) l : (forall x, x ∈ l -> h x = 0) -> list_sum h l = 0.
Proof. induction l as [|x l IH]; intros E; [done|]. rewrite list_sum_cons, IH by (intros y Hy; apply E; by right). by rewrite E by left. Qed.

Lemma list_sum_nonneg {A} (h : A -> Z) l : (forall x, x ∈ l -> 0 <= h x) -> 0 <= list_sum h l.
Proof.
  induction l as [|x l IH]; intros E; [done|]. rewrite list_sum_cons. pose proof (E x ltac:(by left)).
  enough (0 <= list_sum h l) by lia. apply IH. intros y Hy. apply E. by right.
Qed.

(** A part of a sum of counts is at most the whole. *)
Lemma list_sum_part {A} (h h' : A -> Z) l : (forall x, x ∈ l -> 0 <= h x <= h' x) -> 0 <= list_sum h l <= list_sum h' l.
Proof.
  induction l as [|x l IH]; intros E; [done|]. rewrite !list_sum_cons. pose proof (E x ltac:(by left)).
  enough (0 <= list_sum h l <= list_sum h' l) by lia. apply IH. intros y Hy. apply E. by right.
Qed.

Lemma list_sum_fmap {A B} (g : A -> B) (h : B -> Z) l : list_sum h (g <$> l) = list_sum (fun x => h (g x)) l.
Proof. induction l as [|x l IH]; [done|]. rewrite fmap_cons, !list_sum_cons. by rewrite IH. Qed.

Lemma list_sum_plus {A} (h h' : A -> Z) l : list_sum (fun x => h x + h' x) l = list_sum h l + list_sum h' l.
Proof. induction l as [|x l IH]; [done|]. rewrite !list_sum_cons, IH. lia. Qed.

Lemma list_sum_filter {A} (P : A -> Prop) `{!forall x, Decision (P x)} (h : A -> Z) l :
  list_sum h (filter P l) = list_sum (fun x => if decide (P x) then h x else 0) l.
Proof. unfold list_sum. induction l as [|x l IH]; [done|]. rewrite filter_cons. cbn [foldr]. destruct (decide (P x)); cbn [foldr]; lia. Qed.

Lemma list_sum_insert {A} (h : A -> Z) l i x y : l !! i = Some x -> list_sum h (<[i := y]> l) = list_sum h l - h x + h y.
Proof.
  intros Hi. pose proof (lookup_lt_Some _ _ _ Hi). rewrite insert_take_drop by done. rewrite <- (take_drop_middle l i x Hi) at 3.
  rewrite !list_sum_app, !list_sum_cons. lia.
Qed.

Lemma list_sum_elem {A} (h : A -> Z) l x : x ∈ l -> (forall y, y ∈ l -> 0 <= h y) -> h x <= list_sum h l.
Proof.
  induction l as [|y l IH]; [by intros ?%elem_of_nil|]. intros [->|Hx]%elem_of_cons Hn; rewrite list_sum_cons.
  - pose proof (list_sum_nonneg h l ltac:(intros z Hz; apply Hn; by right)). lia.
  - pose proof (Hn y ltac:(by left)). enough (h x <= list_sum h l) by lia. apply IH; [done|]. intros z Hz. apply Hn. by right.
Qed.

Lemma list_sum_le {A} (f g : A -> Z) l : (forall x, x ∈ l -> f x <= g x) -> list_sum f l <= list_sum g l.
Proof.
  induction l as [|x l IH]; intros Hle; [cbn; lia|]. rewrite !list_sum_cons. pose proof (Hle x ltac:(by left)).
  specialize (IH ltac:(intros y Hy; apply Hle; by right)). lia.
Qed.

(** ** Sums over maps *)

Definition map_sum {K} `{Countable K} {A} (f : K -> A -> Z) (m : gmap K A) : Z :=
  map_fold (fun k x acc => f k x + acc) 0 m.

Lemma map_sum_empty {K} `{Countable K} {A} (f : K -> A -> Z) : map_sum f ∅ = 0.
Proof. reflexivity. Qed.

Lemma map_sum_insert {K} `{Countable K} {A} (f : K -> A -> Z) m k x :
  m !! k = None -> map_sum f (<[k := x]> m) = f k x + map_sum f m.
Proof. intros Hn. unfold map_sum. rewrite map_fold_insert_L; [done| |done]. intros. lia. Qed.

Lemma map_sum_delete {K} `{Countable K} {A} (f : K -> A -> Z) m k :
  map_sum f (delete k m) = map_sum f m - from_option (f k) 0 (m !! k).
Proof.
  destruct (m !! k) as [x|] eqn:E; cbn [from_option].
  - rewrite <- (insert_delete_id m k x) at 2 by done. rewrite map_sum_insert by apply lookup_delete_eq. lia.
  - rewrite delete_id by done. lia.
Qed.

Lemma map_sum_set {K} `{Countable K} {A} (f : K -> A -> Z) m k x :
  map_sum f (<[k := x]> m) = map_sum f m - from_option (f k) 0 (m !! k) + f k x.
Proof.
  rewrite <- insert_delete_eq, map_sum_insert by apply lookup_delete_eq. rewrite map_sum_delete. lia.
Qed.

Lemma map_sum_zero {K} `{Countable K} {A} (phi : K -> A -> Z) (m : gmap K A) :
  (forall k, from_option (phi k) 0 (m !! k) = 0) -> map_sum phi m = 0.
Proof.
  induction m as [|k x m Hn IH] using map_ind; intros Hz; [done|]. rewrite map_sum_insert by done. pose proof (Hz k) as Hk. rewrite lookup_insert_eq in Hk.
  rewrite IH; [cbn in Hk; lia|]. intros k'. destruct (decide (k = k')) as [<-|Hne]; [by rewrite Hn|].
  pose proof (Hz k') as Hk'. by rewrite lookup_insert_ne in Hk'.
Qed.

(** Two tables that give every key the same weight have the same sum. *)
Lemma map_sum_agree {K} `{Countable K} {A} (phi psi : K -> A -> Z) (m1 : gmap K A) : forall m2,
  (forall k, from_option (phi k) 0 (m1 !! k) = from_option (psi k) 0 (m2 !! k)) -> map_sum phi m1 = map_sum psi m2.
Proof.
  induction m1 as [|k x m Hn IH] using map_ind; intros m2 He.
  - rewrite map_sum_empty. symmetry. apply map_sum_zero. intros k. by rewrite <- He, lookup_empty.
  - rewrite map_sum_insert by done. rewrite (IH (delete k m2)).
    + rewrite map_sum_delete, <- He, lookup_insert_eq. cbn. lia.
    + intros k'. rewrite lookup_delete. case_decide; [subst; by rewrite Hn|]. rewrite <- He. by rewrite lookup_insert_ne.
Qed.

Lemma map_sum_list {K} `{Countable K} {A} (f : K -> A -> Z) (m : gmap K A) : map_sum f m = list_sum (fun p => f p.1 p.2) (map_to_list m).
Proof.
  unfold map_sum. rewrite map_fold_foldr. unfold list_sum. induction (map_to_list m) as [|[k x] l IH]; [done|]. cbn [foldr uncurry fst snd]. by rewrite IH.
Qed.

Lemma map_sum_le {K A} `{Countable K} (f g : K -> A -> Z) (m : gmap K A) :
  (forall k a, m !! k = Some a -> f k a <= g k a) -> map_sum f m <= map_sum g m.
Proof.
  induction m as [|k a m Hk IH] using map_ind; intros Hle; [by rewrite !map_sum_empty|]. rewrite !map_sum_insert by done.
  pose proof (Hle k a ltac:(by rewrite lookup_insert_eq)). assert (map_sum f m <= map_sum g m); [|lia].
  apply IH. intros k' a' Hm. apply Hle. rewrite lookup_insert_ne; [done|]. congruence.
Qed.

Lemma map_sum_pos {K A} `{Countable K} (f : K -> A -> Z) (m : gmap K A) : (forall k a, m !! k = Some a -> 0 <= f k a) -> 0 <= map_sum f m.
Proof. intros Hf. rewrite <- (map_sum_zero (fun _ _ => 0) m) by (intros k; by destruct (m !! k)). by apply map_sum_le. Qed.

(** ** Equality of 64-bit counters: congruence modulo 2^64 *)

Definition eq64 (a b : Z) : Prop := u64 a = u64 b.

#[global] Instance eq64_equiv : Equivalence eq64.
Proof. unfold eq64. split; [by intros x|by intros x y ->|by intros x y z -> ->]. Qed.

#[global] Instance eq64_add : Proper (eq64 ==> eq64 ==> eq64) Z.add.
Proof.
  unfold eq64, u64, wrapu. intros a a' Ha b b' Hb.
  rewrite (Zplus_mod a), (Zplus_mod a'), Ha, Hb. done.
Qed.

#[global] Instance eq64_sub : Proper (eq64 ==> eq64 ==> eq64) Z.sub.
Proof.
  unfold eq64, u64, wrapu. intros a a' Ha b b' Hb.
  rewrite (Zminus_mod a), (Zminus_mod a'), Ha, Hb. done.
Qed.

Lemma u64_eq64 a : eq64 (u64 a) a.
Proof. unfold eq64, u64, wrapu. apply Z.mod_mod. lia. Qed.

Lemma eq64_eq a b : a = b -> eq64 a b.
Proof. by intros ->. Qed.

Lemma list_sum_eq64 {A} (h h' : A -> Z) l : (forall x, x ∈ l -> eq64 (h x) (h' x)) -> eq64 (list_sum h l) (list_sum h' l).
Proof.
  induction l as [|x l IH]; intros E; [done|]. rewrite !list_sum_cons, (E x) by left. rewrite IH; [done|]. intros y Hy. apply E. by right.
Qed.

(** ** Sequencing a fallible function over a list *)

Fixpoint opt_map {A B} (f : A -> option B) (l : list A) : option (list B) :=
  match l with
  | [] => Some []
  | x :: l => y ← f x; ys ← opt_map f l; Some (y :: ys)
  end.

Fixpoint opt_foldl {A B} (f : A -> B -> option A) (a : A) (l : list B) : option A :=
  match l with
  | [] => Some a
  | x :: l => a' ← f a x; opt_foldl f a' l
  end.

(** An option known to hold a value, without computing the value. *)
Definition holds_value {A} (o : option A) : bool := match o with Some _ => true | None => false end.

Lemma default_holds {A} (o : option A) d : holds_value o = true -> o = Some (default d o).
Proof. by destruct o. Qed.

Lemma opt_foldl_cons {A B} (f : A -> B -> option A) a x l b :
  opt_foldl f a (x :: l) = Some b <-> exists a', f a x = Some a' /\ opt_foldl f a' l = Some b.
Proof. cbn [opt_foldl]. destruct (f a x); cbn; naive_solver. Qed.

Lemma opt_map_Forall2 {A B} (f : A -> option B) l l' :
  opt_map f l = Some l' <-> Forall2 (fun x y => f x = Some y) l l'.
Proof.
  revert l'. induction l as [|x l IH]; intros l'; cbn [opt_map].
  - split; [by intros [= <-]|by inversion 1].
  - split.
    + destruct (f x) as [y|] eqn:E; [|done]. cbn [mbind option_bind].
      destruct (opt_map f l) as [ys|] eqn:E2; [|done]. intros [= <-]. constructor; [done|by apply IH].
    + inversion 1 as [|? y ? ys H1 H2]; subst. rewrite H1. cbn [mbind option_bind].
      apply IH in H2. by rewrite H2.
Qed.

(** ** Automation *)

Create HintDb otel.
#[export] Hint Resolve le_put_bytes le_put_length : otel.
#[export] Hint Rewrite @mget_insert @mget_delete @mget_empty @map_sum_empty @map_sum_set @map_sum_delete : otel.
#[export] Hint Resolve u64_eq64 : otel.

(** Split the conditionals of a goal or of the hypotheses, turn the boolean
    tests into propositions, and close what arithmetic closes. *)
Ltac z_bool :=
  repeat match goal with
  | H : (_ =? _) = true |- _ => apply Z.eqb_eq in H
  | H : (_ =? _) = false |- _ => apply Z.eqb_neq in H
  | H : (_ <? _) = true |- _ => apply Z.ltb_lt in H
  | H : (_ <? _) = false |- _ => apply Z.ltb_ge in H
  | H : (_ <=? _) = true |- _ => apply Z.leb_le in H
  | H : (_ <=? _) = false |- _ => apply Z.leb_gt in H
  | H : (_ && _) = true |- _ => apply andb_true_iff in H; destruct H
  | H : (_ || _) = false |- _ => apply orb_false_iff in H; destruct H
  | H : negb _ = true |- _ => apply negb_true_iff in H
  | H : negb _ = false |- _ => apply negb_false_iff in H
  | H : (_ && _) = false |- _ => apply andb_false_iff in H
  | H : (_ || _) = true |- _ => apply orb_true_iff in H
  | H : (_ =? _) = true \/ _ |- _ => rewrite Z.eqb_eq in H
  | H : _ \/ (_ =? _) = true |- _ => rewrite Z.eqb_eq in H
  | H : (_ <=? _) = true \/ _ |- _ => rewrite Z.leb_le in H
  | H : _ \/ (_ <=? _) = true |- _ => rewrite Z.leb_le in H
  | H : (_ <=? _) = false \/ _ |- _ => rewrite Z.leb_gt in H
  | H : _ \/ (_ <=? _) = false |- _ => rewrite Z.leb_gt in H
  | H : (_ <? _) = true \/ _ |- _ => rewrite Z.ltb_lt in H
  | H : _ \/ (_ <? _) = true |- _ => rewrite Z.ltb_lt in H
  | H : (_ <? _) = false \/ _ |- _ => rewrite Z.ltb_ge in H
  | H : _ \/ (_ <? _) = false |- _ => rewrite Z.ltb_ge in H
  end.

(** Linear arithmetic with division and remainder by constants. *)
Ltac zlia := Z.to_euclidean_division_equations; lia.

Ltac split_ifs :=
  repeat match goal with
  | |- context [if ?b then _ else _] => destruct b eqn:?
  | H : context [if ?b then _ else _] |- _ => destruct b eqn:?
  end.

Ltac go_cases := split_ifs; z_bool; simplify_eq/=; try lia.
