(* ===== verification/SeriesKey.v ===== *)
(** * SeriesKey: series identity ([internal/aggregate/key.go])

    The nine-field [SeriesKey], its bounded enums, the signal-specific
    validation and the fixed 22-byte little-endian encoding.  A Go enum of
    underlying type [uint8] is a [Z]; [wf_key] says that every field fits its
    width, which Go's types guarantee. *)
From S2P Require Import Prelude.

(** ** Enums *)

(* internal/aggregate/key.go:29-44 Signal *)
Definition SignalUnspecified : Z := 0.
Definition SignalTraceOp : Z := 1.
Definition SignalServiceEdge : Z := 2.
Definition SignalLog : Z := 3.
Definition SignalMetric : Z := 4.
Definition signalMax : Z := SignalMetric.

(* internal/aggregate/dict.go:21-33 Kind *)
Definition KindTenant : Z := 1.
Definition KindService : Z := 2.
Definition KindOperation : Z := 3.
Definition KindMetricName : Z := 4.
Definition KindDimKey : Z := 5.
Definition KindDimValue : Z := 6.
Definition KindDimTuple : Z := 7.
Definition KindLogTemplate : Z := 8.

(* internal/aggregate/key.go:48-63 Signal.String *)
Definition Signal_String (s : Z) : string :=
  if s =? SignalTraceOp then "trace_op"
  else if s =? SignalServiceEdge then "service_edge"
  else if s =? SignalLog then "log"
  else if s =? SignalMetric then "metric"
  else if s =? SignalUnspecified then "unspecified"
  else "signal(" +:+ pretty s +:+ ")".

(* internal/aggregate/key.go:66-66 Signal.Valid *)
Definition Signal_Valid (s : Z) : bool := (SignalTraceOp <=? s) && (s <=? signalMax).

(* internal/aggregate/key.go:77-83 StatusClass *)
Definition StatusUnset : Z := 0.
Definition StatusOK : Z := 1.
Definition StatusError : Z := 2.
Definition statusMax : Z := StatusError.

(* internal/aggregate/key.go:87-97 StatusClass *)
Definition SeverityTierUnspecified : Z := 0.
Definition SeverityTierTrace : Z := 1.
Definition SeverityTierDebug : Z := 2.
Definition SeverityTierInfo : Z := 3.
Definition SeverityTierWarn : Z := 4.
Definition SeverityTierError : Z := 5.
Definition SeverityTierFatal : Z := 6.
Definition severityTierMax : Z := SeverityTierFatal.

(* internal/aggregate/key.go:101-110 TraceStatusFromCode *)
Definition TraceStatusFromCode (code : Z) : Z :=
  if code =? 1 then StatusOK
  else if code =? 2 then StatusError
  else StatusUnset.

(* internal/aggregate/key.go:114-119 SeverityTierFromNumber *)
Definition SeverityTierFromNumber (sev : Z) : Z :=
  if (sev <? 1) || (24 <? sev) then SeverityTierUnspecified
  else u8 (Z.quot (sev - 1) 4 + 1).

(* internal/aggregate/key.go:127-136 HTTPClass *)
Definition HTTPClassNone : Z := 0.
Definition HTTPClass5xx : Z := 5.
Definition httpClassMax : Z := HTTPClass5xx.

(* internal/aggregate/key.go:139-156 HTTPClass.String *)
Definition HTTPClass_String (h : Z) : string :=
  if h =? 0 then "none"
  else if h =? 1 then "1xx"
  else if h =? 2 then "2xx"
  else if h =? 3 then "3xx"
  else if h =? 4 then "4xx"
  else if h =? 5 then "5xx"
  else "httpclass(" +:+ pretty h +:+ ")".

(* internal/aggregate/key.go:160-165 HTTPClassFromStatus *)
Definition HTTPClassFromStatus (code : Z) : Z :=
  if (code <? 100) || (599 <? code) then HTTPClassNone
  else u8 (Z.quot code 100).

(* internal/aggregate/key.go:173-187 Method *)
Definition MethodNone : Z := 0.
Definition MethodGet : Z := 1.
Definition MethodOther : Z := 10.
Definition methodMax : Z := MethodOther.

(* internal/aggregate/key.go:190-202 methodNames *)
Definition methodNames : list string :=
  [""; "GET"; "POST"; "PUT"; "DELETE"; "PATCH"; "HEAD"; "OPTIONS"; "TRACE"; "CONNECT"; "_OTHER"].

(* internal/aggregate/key.go:206-211 Method.String *)
Definition Method_String (m : Z) : string :=
  if m <? Z.of_nat (length methodNames)
  then default "" (methodNames !! Z.to_nat m)
  else "method(" +:+ pretty m +:+ ")".

(** *** [strings.EqualFold] against an ASCII pattern

    Under Unicode simple folding an ASCII letter matches its two cases; the
    only non-ASCII runes that fold to ASCII letters are U+017F (bytes C5 BF,
    folds to [s]) and U+212A (bytes E2 84 AA, folds to [k]). *)

Definition ascii_lower (c : Ascii.ascii) : N :=
  let n := Ascii.N_of_ascii c in
  if (65 <=? n)%N && (n <=? 90)%N then (n + 32)%N else n.

Fixpoint EqualFold (pat s : string) : bool :=
  match pat with
  | EmptyString => match s with EmptyString => true | _ => false end
  | String p pat' =>
      match s with
      | EmptyString => false
      | String c s' =>
          if (ascii_lower p =? ascii_lower c)%N then EqualFold pat' s'
          else if (ascii_lower p =? 115)%N && (Ascii.N_of_ascii c =? 197)%N then
            match s' with
            | String d s'' => (Ascii.N_of_ascii d =? 191)%N && EqualFold pat' s''
            | EmptyString => false
            end
          else if (ascii_lower p =? 107)%N && (Ascii.N_of_ascii c =? 226)%N then
            match s' with
            | String d (String e s'') =>
                (Ascii.N_of_ascii d =? 132)%N && (Ascii.N_of_ascii e =? 170)%N && EqualFold pat' s''
            | _ => false
            end
          else false
      end
  end.

(** The two [for m := MethodGet; m < MethodOther; m++] scans: the first
    method whose name passes the test. *)
Definition knownMethods : list Z := [1; 2; 3; 4; 5; 6; 7; 8; 9].

Definition scanMethods (test : string -> bool) : option Z :=
  List.find (fun m => test (default "" (methodNames !! Z.to_nat m))) knownMethods.

(* internal/aggregate/key.go:218-234 LookupMethod *)
Definition LookupMethod (s : string) : Z * bool :=
  match scanMethods (fun name => String.eqb name s) with
  | Some m => (m, true)
  | None =>
      if String.eqb s "" then (MethodNone, false)
      else
        match scanMethods (fun name => EqualFold name s) with
        | Some m => (m, true)
        | None => (MethodOther, false)
        end
  end.

(* internal/aggregate/key.go:238-246 ParseMethod *)
Definition ParseMethod (s : string) : Z :=
  if String.eqb s "" then MethodNone
  else
    let '(m, ok) := LookupMethod s in
    if ok then m else MethodOther.

(* internal/aggregate/key.go:253-262 Variant *)
Definition SpanKindUnspecified : Z := 0.
Definition SpanKindServer : Z := 2.
Definition SpanKindConsumer : Z := 5.
Definition spanKindMax : Z := SpanKindConsumer.

(* internal/aggregate/key.go:266-271 VariantFromSpanKind *)
Definition VariantFromSpanKind (kind : Z) : Z :=
  if (kind <? 0) || (spanKindMax <? kind) then SpanKindUnspecified
  else u8 kind.

(** ** The key *)

(* internal/aggregate/key.go:279-289 SeriesKey *)
Record SeriesKey := mkSeriesKey {
  TenantID : Z;
  ServiceID : Z;
  NameID : Z;
  DimsID : Z;
  KSignal : Z;
  KStatusClass : Z;
  KHTTPClass : Z;
  KMethod : Z;
  KVariant : Z;
}.

#[global] Instance SeriesKey_eq_dec : EqDecision SeriesKey.
Proof. solve_decision. Defined.

#[global] Instance SeriesKey_countable : Countable SeriesKey.
Proof.
  refine (inj_countable'
    (fun k => (TenantID k, ServiceID k, NameID k, DimsID k, KSignal k,
               KStatusClass k, KHTTPClass k, KMethod k, KVariant k))
    (fun '(a, b, c, d, e, f, g, h, i) => mkSeriesKey a b c d e f g h i) _).
  by intros [].
Defined.

(** Every field fits the width of its Go type. *)
Definition wf_key (k : SeriesKey) : Prop :=
  in_u 32 (TenantID k) /\ in_u 32 (ServiceID k) /\ in_u 32 (NameID k) /\ in_u 32 (DimsID k) /\
  is_byte (KSignal k) /\ is_byte (KStatusClass k) /\ is_byte (KHTTPClass k) /\
  is_byte (KMethod k) /\ is_byte (KVariant k).

#[global] Instance wf_key_dec k : Decision (wf_key k).
Proof. unfold wf_key. apply _. Defined.

(* internal/aggregate/key.go:294-298 SeriesKeyVersion *)
Definition SeriesKeyVersion : Z := 1.
Definition EncodedSeriesKeyLen : Z := 22.

(* internal/aggregate/key.go:301-329 VersionError *)
Inductive key_error :=
| ErrKeyTruncated
| ErrKeyTrailingBytes
| VersionError (Got Want : Z)
| FieldError (Field : string) (Value : Z) (Sig : Z).

(* internal/aggregate/key.go:333-344 NameKind *)
Definition NameKind (s : Z) : Z * bool :=
  if (s =? SignalTraceOp) || (s =? SignalServiceEdge) then (KindOperation, true)
  else if s =? SignalLog then (KindLogTemplate, true)
  else if s =? SignalMetric then (KindMetricName, true)
  else (0, false).

(* internal/aggregate/key.go:393-401 SeriesKey.requireNoHTTPIdentity *)
Definition requireNoHTTPIdentity (k : SeriesKey) : option key_error :=
  if negb (KHTTPClass k =? HTTPClassNone) then Some (FieldError "HTTPClass" (KHTTPClass k) (KSignal k))
  else if negb (KMethod k =? MethodNone) then Some (FieldError "Method" (KMethod k) (KSignal k))
  else None.

(* internal/aggregate/key.go:349-389 SeriesKey.Validate *)
Definition Validate (k : SeriesKey) : option key_error :=
  if negb (Signal_Valid (KSignal k)) then Some (FieldError "Signal" (KSignal k) (KSignal k))
  else if httpClassMax <? KHTTPClass k then Some (FieldError "HTTPClass" (KHTTPClass k) (KSignal k))
  else if methodMax <? KMethod k then Some (FieldError "Method" (KMethod k) (KSignal k))
  else if (KSignal k =? SignalTraceOp) || (KSignal k =? SignalServiceEdge) then
    if statusMax <? KStatusClass k then Some (FieldError "StatusClass" (KStatusClass k) (KSignal k))
    else if spanKindMax <? KVariant k then Some (FieldError "Variant" (KVariant k) (KSignal k))
    else None
  else if KSignal k =? SignalLog then
    if severityTierMax <? KStatusClass k then Some (FieldError "StatusClass" (KStatusClass k) (KSignal k))
    else match requireNoHTTPIdentity k with
    | Some err => Some err
    | None =>
        if negb (KVariant k =? SpanKindUnspecified) then Some (FieldError "Variant" (KVariant k) (KSignal k))
        else None
    end
  else if KSignal k =? SignalMetric then
    if negb (KStatusClass k =? 0) then Some (FieldError "StatusClass" (KStatusClass k) (KSignal k))
    else match requireNoHTTPIdentity k with
    | Some err => Some err
    | None =>
        if negb (KVariant k =? SpanKindUnspecified) then Some (FieldError "Variant" (KVariant k) (KSignal k))
        else None
    end
  else None.

(* internal/aggregate/key.go:406-420 SeriesKey.AppendBinary *)
Definition AppendBinary (k : SeriesKey) (dst : bytes) : bytes :=
  dst ++ [SeriesKeyVersion] ++
  le_put 4 (TenantID k) ++ le_put 4 (ServiceID k) ++ le_put 4 (NameID k) ++ le_put 4 (DimsID k) ++
  [KSignal k; KStatusClass k; KHTTPClass k; KMethod k; KVariant k].

(* internal/aggregate/key.go:425-427 SeriesKey.MarshalBinary *)
Definition MarshalBinary (k : SeriesKey) : bytes := AppendBinary k [].

(** [binary.LittleEndian.Uint32(b[i:i+4])] and [b[i]], on a buffer whose
    length has been checked. *)
Definition slice4 (b : bytes) (i : nat) : Z := le_get (take 4 (drop i b)).
Definition byte_at (b : bytes) (i : nat) : Z := default 0 (b !! i).

(* internal/aggregate/key.go:443-468 DecodeSeriesKey *)
Definition DecodeSeriesKey (b : bytes) : result key_error SeriesKey :=
  if Z.of_nat (length b) <? EncodedSeriesKeyLen then Err ErrKeyTruncated
  else if EncodedSeriesKeyLen <? Z.of_nat (length b) then Err ErrKeyTrailingBytes
  else if negb (byte_at b 0 =? SeriesKeyVersion) then
    Err (VersionError (byte_at b 0) SeriesKeyVersion)
  else
    let k := {|
      TenantID := slice4 b 1;
      ServiceID := slice4 b 5;
      NameID := slice4 b 9;
      DimsID := slice4 b 13;
      KSignal := byte_at b 17;
      KStatusClass := byte_at b 18;
      KHTTPClass := byte_at b 19;
      KMethod := byte_at b 20;
      KVariant := byte_at b 21 |} in
    guard_none (Validate k) (Ok k).

(* internal/aggregate/key.go:431-438 SeriesKey.UnmarshalBinary *)
Definition UnmarshalBinary (k : SeriesKey) (b : bytes) : SeriesKey * option key_error :=
  match DecodeSeriesKey b with
  | Err err => (k, Some err)
  | Ok decoded => (decoded, None)
  end.

#[export] Hint Unfold SignalUnspecified : enums.

(** The declarative reading of [Validate]: the signal-specific constraints on
    the enums, one clause per signal. *)
Definition ValidKey (k : SeriesKey) : Prop :=
  KHTTPClass k <= 5 /\ KMethod k <= 10 /\
  ((KSignal k = SignalTraceOp \/ KSignal k = SignalServiceEdge) /\
     KStatusClass k <= 2 /\ KVariant k <= 5
   \/ KSignal k = SignalLog /\ KStatusClass k <= 6 /\
      KHTTPClass k = 0 /\ KMethod k = 0 /\ KVariant k = 0
   \/ KSignal k = SignalMetric /\ KStatusClass k = 0 /\
      KHTTPClass k = 0 /\ KMethod k = 0 /\ KVariant k = 0).

(** ** Validation *)

Lemma Signal_Valid_spec s :
  Signal_Valid s = true <->
  s = SignalTraceOp \/ s = SignalServiceEdge \/ s = SignalLog \/ s = SignalMetric.
Proof.
  unfold Signal_Valid, signalMax, SignalTraceOp, SignalServiceEdge, SignalLog, SignalMetric.
  rewrite andb_true_iff, !Z.leb_le. lia.
Qed.

#[export] Hint Unfold SignalTraceOp SignalServiceEdge SignalLog SignalMetric signalMax
  httpClassMax HTTPClass5xx HTTPClassNone methodMax MethodOther MethodNone statusMax StatusError
  spanKindMax SpanKindConsumer SpanKindUnspecified severityTierMax SeverityTierFatal : enums.

(** [SeriesKey.Validate] accepts a key exactly when the declarative
    constraints hold: a known signal, every enum in range, span status and kind
    only on traces and edges, a severity tier and no HTTP identity on logs, and
    no status, HTTP identity or variant on metrics. *)
Theorem Validate_spec (k : SeriesKey) : wf_key k -> (Validate k = None <-> ValidKey k).
Proof.
  intros Hwf. unfold wf_key, is_byte in Hwf.
  unfold Validate, requireNoHTTPIdentity, ValidKey, Signal_Valid. autounfold with enums.
  split_ifs; simpl; z_bool; split; intros; (done || lia).
Qed.

Lemma Validate_spec_witness :
  wf_key (mkSeriesKey 1 2 3 0 SignalLog 5 0 0 0) /\
  (Validate (mkSeriesKey 1 2 3 0 SignalLog 5 0 0 0) = None <->
   ValidKey (mkSeriesKey 1 2 3 0 SignalLog 5 0 0 0)).
Proof.
  assert (wf_key (mkSeriesKey 1 2 3 0 SignalLog 5 0 0 0)) as H by (by vm_compute).
  split; [exact H | exact (Validate_spec _ H)].
Defined.

(** A rejected key is rejected for a field it really has: the error carries
    that field's value and the key's signal. *)
Lemma Validate_error_fields k e :
  Validate k = Some e ->
  e = FieldError "Signal" (KSignal k) (KSignal k) \/
  e = FieldError "HTTPClass" (KHTTPClass k) (KSignal k) \/
  e = FieldError "Method" (KMethod k) (KSignal k) \/
  e = FieldError "StatusClass" (KStatusClass k) (KSignal k) \/
  e = FieldError "Variant" (KVariant k) (KSignal k).
Proof. unfold Validate, requireNoHTTPIdentity. split_ifs; intros [= <-]; auto 6. Qed.

(** ** The codec *)

Lemma MarshalBinary_length k : length (MarshalBinary k) = 22%nat.
Proof. reflexivity. Qed.

Lemma AppendBinary_app k dst : AppendBinary k dst = dst ++ MarshalBinary k.
Proof. reflexivity. Qed.

Lemma MarshalBinary_bytes k : wf_key k -> Forall is_byte (MarshalBinary k).
Proof.
  intros (_ & _ & _ & _ & H). destruct_and! H.
  unfold MarshalBinary, AppendBinary. simpl.
  repeat (constructor; [first [done | apply Z.mod_pos_bound; lia]|]). constructor.
Qed.

Lemma le_get_put4 z : in_u 32 z -> le_get (le_put 4 z) = z.
Proof. intros H. rewrite le_get_put. by apply Z.mod_small. Qed.

(** C40: decoding what [MarshalBinary] wrote gives the key back when it is valid,
    and otherwise fails with exactly the error [Validate] reports for it: the
    encoder never validates, the decoder always does. *)
Theorem decode_marshal (k : SeriesKey) :
  wf_key k -> DecodeSeriesKey (MarshalBinary k) = guard_none (Validate k) (Ok k).
Proof.
  intros (H1 & H2 & H3 & H4 & _).
  unfold DecodeSeriesKey, EncodedSeriesKeyLen. rewrite MarshalBinary_length. simpl.
  change (slice4 (MarshalBinary k) 1) with (le_get (le_put 4 (TenantID k))).
  change (slice4 (MarshalBinary k) 5) with (le_get (le_put 4 (ServiceID k))).
  change (slice4 (MarshalBinary k) 9) with (le_get (le_put 4 (NameID k))).
  change (slice4 (MarshalBinary k) 13) with (le_get (le_put 4 (DimsID k))).
  rewrite !le_get_put4 by done. by destruct k.
Qed.

Lemma decode_marshal_witness :
  wf_key (mkSeriesKey 7 4294967295 3 0 SignalTraceOp 2 5 1 2) /\
  DecodeSeriesKey (MarshalBinary (mkSeriesKey 7 4294967295 3 0 SignalTraceOp 2 5 1 2)) =
  Ok (mkSeriesKey 7 4294967295 3 0 SignalTraceOp 2 5 1 2).
Proof.
  assert (wf_key (mkSeriesKey 7 4294967295 3 0 SignalTraceOp 2 5 1 2)) as H by (by vm_compute).
  split; [exact H | exact (decode_marshal _ H)].
Defined.

(** A list of known length is its elements. *)
Lemma list_22 (b : bytes) :
  length b = 22%nat ->
  exists v a0 a1 a2 a3 b0 b1 b2 b3 c0 c1 c2 c3 d0 d1 d2 d3 s st h m va,
    b = [v; a0; a1; a2; a3; b0; b1; b2; b3; c0; c1; c2; c3; d0; d1; d2; d3; s; st; h; m; va].
Proof.
  intros H. do 22 (destruct b as [|? b]; [discriminate|]).
  destruct b; [|discriminate]. repeat eexists.
Qed.

Lemma le_put_get4 a b c d :
  is_byte a -> is_byte b -> is_byte c -> is_byte d -> le_put 4 (le_get [a; b; c; d]) = [a; b; c; d].
Proof. intros. apply (le_put_get [a; b; c; d]). eauto 10 using Forall_nil_2, Forall_cons_2. Qed.

Lemma le_get4_range a b c d :
  is_byte a -> is_byte b -> is_byte c -> is_byte d -> in_u 32 (le_get [a; b; c; d]).
Proof. intros. apply (le_get_range [a; b; c; d]). eauto 10 using Forall_nil_2, Forall_cons_2. Qed.

(** A buffer [DecodeSeriesKey] accepts is the canonical encoding of the key
    it returns, and that key is valid: the wire format has no second spelling of
    a key, so two different accepted buffers are two different series. *)
Theorem decode_canonical (b : bytes) (k : SeriesKey) :
  Forall is_byte b -> DecodeSeriesKey b = Ok k ->
  MarshalBinary k = b /\ wf_key k /\ Validate k = None.
Proof.
  unfold DecodeSeriesKey, EncodedSeriesKeyLen. intros Hb H.
  destruct (_ <? 22) eqn:E1; [done|]. destruct (22 <? _) eqn:E2; [done|].
  destruct (negb _) eqn:E3; [done|]. z_bool. apply guard_none_Ok in H as [HV H].
  destruct (list_22 b) as (v & a0 & a1 & a2 & a3 & b0 & b1 & b2 & b3 & c0 & c1 & c2 & c3 &
    d0 & d1 & d2 & d3 & s & st & h & m & va & ->); [lia|].
  repeat match goal with H : Forall _ (_ :: _) |- _ => apply Forall_cons in H as [? H] end.
  injection H as <-. unfold byte_at in E3. cbn in E3. subst v. split_and!; [..|exact HV].
  - unfold MarshalBinary, AppendBinary. cbn [TenantID ServiceID NameID DimsID KSignal KStatusClass
      KHTTPClass KMethod KVariant].
    unfold slice4. cbn [take drop]. by rewrite !le_put_get4.
  - unfold wf_key, slice4, byte_at. cbn -[le_get in_u]. split_and!; auto using le_get4_range.
Qed.

Lemma decode_canonical_witness :
  let k := mkSeriesKey 1 2 3 0 SignalMetric 0 0 0 0 in
  Forall is_byte (MarshalBinary k) /\ DecodeSeriesKey (MarshalBinary k) = Ok k /\
  MarshalBinary k = MarshalBinary k /\ wf_key k /\ Validate k = None.
Proof.
  intros k. assert (Forall is_byte (MarshalBinary k)) as H1
    by (apply (bool_decide_unpack _); by vm_compute).
  assert (DecodeSeriesKey (MarshalBinary k) = Ok k) as H2 by reflexivity.
  split; [exact H1|]. split; [exact H2|]. exact (decode_canonical _ _ H1 H2).
Defined.

(** [UnmarshalBinary] leaves its receiver unchanged on error. *)
Lemma UnmarshalBinary_error k b e :
  snd (UnmarshalBinary k b) = Some e -> fst (UnmarshalBinary k b) = k.
Proof. unfold UnmarshalBinary. by destruct (DecodeSeriesKey b). Qed.

(** ** Classifiers land in the enums *)

Lemma TraceStatusFromCode_range code : 0 <= TraceStatusFromCode code <= 2.
Proof. unfold TraceStatusFromCode, StatusOK, StatusError, StatusUnset. go_cases. Qed.

Lemma SeverityTierFromNumber_range sev : 0 <= SeverityTierFromNumber sev <= 6.
Proof.
  unfold SeverityTierFromNumber. autounfold with enums. unfold SeverityTierUnspecified.
  go_cases. rewrite u8_small; zlia.
Qed.

Lemma HTTPClassFromStatus_range code : 0 <= HTTPClassFromStatus code <= 5.
Proof.
  unfold HTTPClassFromStatus. autounfold with enums.
  go_cases. rewrite u8_small; zlia.
Qed.

Lemma scanMethods_range test m : scanMethods test = Some m -> 1 <= m <= 9.
Proof.
  unfold scanMethods. intros H. apply List.find_some in H as [H _].
  unfold knownMethods in H. simpl in H. intuition lia.
Qed.

Lemma LookupMethod_range s : 0 <= fst (LookupMethod s) <= 10.
Proof.
  unfold LookupMethod. destruct (scanMethods _) eqn:E.
  - apply scanMethods_range in E. simpl. lia.
  - destruct (String.eqb s ""); [simpl; unfold MethodNone; lia|].
    destruct (scanMethods (fun name => EqualFold name s)) eqn:E2.
    + apply scanMethods_range in E2. simpl. lia.
    + simpl. unfold MethodOther. lia.
Qed.

Lemma ParseMethod_range s : 0 <= ParseMethod s <= 10.
Proof.
  unfold ParseMethod. destruct (String.eqb s ""); [unfold MethodNone; lia|].
  pose proof (LookupMethod_range s). destruct (LookupMethod s) as [m []]; simpl in *; [lia|].
  unfold MethodOther. lia.
Qed.

Lemma VariantFromSpanKind_range kind : 0 <= VariantFromSpanKind kind <= 5.
Proof.
  unfold VariantFromSpanKind. autounfold with enums. go_cases. rewrite u8_small; lia.
Qed.

#[export] Hint Resolve TraceStatusFromCode_range SeverityTierFromNumber_range
  HTTPClassFromStatus_range ParseMethod_range VariantFromSpanKind_range : otel.

(** Also: whatever a client sends, a trace key built through the classifiers
    (status code, HTTP status, method string, span kind) is valid, so it
    survives the encode/decode round trip: no input mints an out-of-enum
    identity. *)
Theorem classified_trace_key_valid (t s n d status code kind : Z) (method : string) :
  in_u 32 t -> in_u 32 s -> in_u 32 n -> in_u 32 d ->
  let k := mkSeriesKey t s n d SignalTraceOp (TraceStatusFromCode status)
             (HTTPClassFromStatus code) (ParseMethod method) (VariantFromSpanKind kind) in
  Validate k = None /\ DecodeSeriesKey (MarshalBinary k) = Ok k.
Proof.
  intros Ht Hs Hn Hd k.
  pose proof (TraceStatusFromCode_range status). pose proof (HTTPClassFromStatus_range code).
  pose proof (ParseMethod_range method). pose proof (VariantFromSpanKind_range kind).
  assert (wf_key k) as Hwf.
  { unfold wf_key, is_byte, k. simpl. autounfold with enums. split_and!; done || lia. }
  assert (Validate k = None) as HV.
  { apply Validate_spec; [done|]. unfold ValidKey, k. simpl. autounfold with enums. lia. }
  split; [done|]. by rewrite decode_marshal, HV.
Qed.

Lemma classified_trace_key_valid_witness :
  in_u 32 1 /\
  let k := mkSeriesKey 1 1 1 1 SignalTraceOp (TraceStatusFromCode 77)
             (HTTPClassFromStatus 503) (ParseMethod "propfind") (VariantFromSpanKind 9) in
  Validate k = None /\ DecodeSeriesKey (MarshalBinary k) = Ok k.
Proof.
  assert (in_u 32 1) as H by (by vm_compute).
  split; [exact H | exact (classified_trace_key_valid 1 1 1 1 77 503 9 "propfind" H H H H)].
Defined.

(** The canonical spelling of a known method parses to it, in either case. *)
Example ParseMethod_known :
  map ParseMethod ["GET"; "get"; "Post"; "CONNECT"; "_OTHER"; ""; "PROPFIND"] =
  [1; 1; 2; 9; 10; 0; 10].
Proof. vm_compute. reflexivity. Qed.
