(* ===== verification/Routes.v ===== *)
(** * Routes: operation names ([internal/aggregate/routes.go])

    The normalization of URL paths and span names: query and fragment are cut,
    and every path segment the byte-scan rules classify as variable becomes
    [{id}].  A Go string is the list of its bytes, [bstr].  The builder loop of
    [normalizeSegments] is proved equal to splitting the path at its slashes
    and replacing the variable segments one by one. *)
From S2P Require Import Prelude SeriesKey.
From Stdlib Require Import Ascii.

(** ** Byte strings *)

Abbreviation bstr := (list Ascii.ascii).

Definition lit (s : string) : bstr := String.list_ascii_of_string s.

Definition ord (c : Ascii.ascii) : N := Ascii.N_of_ascii c.

Definition between (lo hi : N) (c : Ascii.ascii) : bool := (lo <=? ord c)%N && (ord c <=? hi)%N.

Definition is_char (n : N) (c : Ascii.ascii) : bool := (ord c =? n)%N.

Definition slash : Ascii.ascii := "/"%char.
Definition space : Ascii.ascii := " "%char.

(** The Go slice expression [s[a:b]]. *)
Definition slice (s : bstr) (a b : nat) : bstr := take (b - a) (drop a s).

(** [strings.IndexByte] and [strings.IndexAny]: the first byte passing a test. *)
Fixpoint index_of (test : Ascii.ascii -> bool) (s : bstr) : option nat :=
  match s with
  | [] => None
  | c :: s' => if test c then Some O else S <$> index_of test s'
  end.

(** [utf8.ValidString]: the ranges of the bytes of a well-formed sequence. *)
Definition cont (c : Ascii.ascii) : bool := between 128 191 c.

Definition second3 (c c2 : Ascii.ascii) : bool :=
  between (if is_char 224 c then 160 else 128)%N (if is_char 237 c then 159 else 191)%N c2.

Definition second4 (c c2 : Ascii.ascii) : bool :=
  between (if is_char 240 c then 144 else 128)%N (if is_char 244 c then 143 else 191)%N c2.

Fixpoint ValidString (s : bstr) : bool :=
  match s with
  | [] => true
  | c :: s1 =>
      if between 0 127 c then ValidString s1
      else if between 194 223 c then
        match s1 with c2 :: s2 => cont c2 && ValidString s2 | _ => false end
      else if between 224 239 c then
        match s1 with
        | c2 :: c3 :: s3 => second3 c c2 && cont c3 && ValidString s3
        | _ => false
        end
      else if between 240 244 c then
        match s1 with
        | c2 :: c3 :: c4 :: s4 => second4 c c2 && cont c3 && cont c4 && ValidString s4
        | _ => false
        end
      else false
  end.

(** ** Segment rules *)

(* internal/aggregate/routes.go:9-9 IDPlaceholder *)
Definition IDPlaceholder : bstr := lit "{id}".

(* internal/aggregate/routes.go:12-21 minHexSegment *)
Definition minHexSegment : nat := 8.
Definition minBase64Segment : nat := 16.
Definition uuidLen : nat := 36.

(* internal/aggregate/routes.go:161-168 isAllDigits *)
Definition isAllDigits (s : bstr) : bool := forallb (between 48 57) s.

(* internal/aggregate/routes.go:170-172 isHexDigit *)
Definition isHexDigit (c : Ascii.ascii) : bool :=
  between 48 57 c || between 97 102 c || between 65 70 c.

(* internal/aggregate/routes.go:174-181 isAllHex *)
Definition isAllHex (s : bstr) : bool := forallb isHexDigit s.

(* internal/aggregate/routes.go:185-202 isDashedUUID *)
Definition isDashedUUID (s : bstr) : bool :=
  if negb (Nat.eqb (length s) uuidLen) then false
  else
    forallb (fun i =>
      from_option (fun c =>
        if existsb (Nat.eqb i) [8; 13; 18; 23]%nat then is_char 45 c else isHexDigit c)
        false (s !! i))
      (seq 0 uuidLen).

(* internal/aggregate/routes.go:213-231 isBase64Like *)
Fixpoint isBase64Like (hasDigit hasUpper hasLower : bool) (s : bstr) : bool :=
  match s with
  | [] => hasDigit && hasUpper && hasLower
  | c :: s' =>
      if between 48 57 c then isBase64Like true hasUpper hasLower s'
      else if between 65 90 c then isBase64Like hasDigit true hasLower s'
      else if between 97 122 c then isBase64Like hasDigit hasUpper true s'
      else if existsb (fun n => is_char n c) [43; 47; 61; 45; 95]%N then
        isBase64Like hasDigit hasUpper hasLower s'
      else false
  end.

(* internal/aggregate/routes.go:145-159 isVariableSegment *)
Definition isVariableSegment (s : bstr) : bool :=
  match s with
  | [] => false
  | _ =>
      if isAllDigits s then true
      else if isDashedUUID s then true
      else if Nat.leb minHexSegment (length s) && isAllHex s then true
      else Nat.leb minBase64Segment (length s) && isBase64Like false false false s
  end.

(** ** The builder loop

    The three loop variables are the builder's contents, whether it is in use,
    and how much of [p] it has consumed; [pos] grows by at least one each
    turn, so one more turn than bytes is enough fuel. *)
Fixpoint segLoop (fuel : nat) (prefix p b : bstr) (building : bool) (written pos : nat) : bstr * bool * nat :=
  match fuel with
  | O => (b, building, written)
  | S fuel =>
      if Nat.leb pos (length p) then
        let end_ := match index_of (is_char 47) (drop pos p) with
                    | Some j => (pos + j)%nat
                    | None => length p
                    end in
        let '(b', building', written') :=
          if isVariableSegment (slice p pos end_) then
            ((if building then b else b ++ prefix) ++ slice p written pos ++ IDPlaceholder, true, end_)
          else (b, building, written) in
        segLoop fuel prefix p b' building' written' (S end_)
      else (b, building, written)
  end.

(* internal/aggregate/routes.go:114-141 normalizeSegments *)
Definition normalizeSegments (prefix p : bstr) : bstr * bool :=
  let '(b, building, written) := segLoop (S (length p)) prefix p [] false 0 1 in
  if negb building then ([], false)
  else (b ++ drop written p, true).

(* internal/aggregate/routes.go:103-108 stripQueryFragment *)
Definition stripQueryFragment (s : bstr) : bstr :=
  match index_of (fun c => is_char 63 c || is_char 35 c) s with
  | Some i => take i s
  | None => s
  end.

(** [strings.HasPrefix(s, "/")]. *)
Definition has_slash (s : bstr) : bool :=
  match s with c :: _ => is_char 47 c | [] => false end.

(* internal/aggregate/routes.go:50-65 NormalizePath *)
Definition NormalizePath (path : bstr) : bstr :=
  match path with
  | [] => path
  | _ =>
      if negb (ValidString path) then path
      else
        let stripped := stripQueryFragment path in
        if negb (has_slash stripped) then path
        else
          let '(out, ok) := normalizeSegments [] stripped in
          if (ok : bool) then out else stripped
  end.

(* internal/aggregate/routes.go:72-100 NormalizeSpanName *)
Definition NormalizeSpanName (name : bstr) : bstr :=
  match name with
  | [] => name
  | _ =>
      if negb (ValidString name) then name
      else
        match index_of (is_char 32) name with
        | None | Some O => name
        | Some sp =>
            if negb (snd (LookupMethod (String.string_of_list_ascii (take sp name)))) then name
            else
              let path := drop (S sp) name in
              let stripped := stripQueryFragment path in
              if negb (has_slash stripped) then name
              else
                let '(out, ok) := normalizeSegments (take (S sp) name) stripped in
                if (ok : bool) then out
                else if negb (Nat.eqb (length stripped) (length path)) then take (S sp) name ++ stripped
                else name
        end
  end.

(* internal/aggregate/routes.go:32-40 NormalizeOperation *)
Definition NormalizeOperation (httpRoute urlPath spanName : bstr) : bstr :=
  match httpRoute with
  | _ :: _ => httpRoute
  | [] =>
      match urlPath with
      | _ :: _ => NormalizePath urlPath
      | [] => NormalizeSpanName spanName
      end
  end.

(** ** The reference definition: segment by segment *)

Fixpoint split_on (c : Ascii.ascii) (s : bstr) : list bstr :=
  match s with
  | [] => [[]]
  | x :: s' =>
      if Ascii.eqb x c then [] :: split_on c s'
      else match split_on c s' with
           | [] => [[x]]
           | seg :: rest => (x :: seg) :: rest
           end
  end.

Fixpoint join (c : Ascii.ascii) (segs : list bstr) : bstr :=
  match segs with
  | [] => []
  | [s] => s
  | s :: rest => s ++ c :: join c rest
  end.

(** What one segment becomes. *)
Definition normSegment (s : bstr) : bstr := if isVariableSegment s then IDPlaceholder else s.

(** The segments of a path that starts with a slash. *)
Definition segments (p : bstr) : list bstr := split_on slash (drop 1 p).

(** The whole path, its variable segments replaced. *)
Definition normalized (p : bstr) : bstr := slash :: join slash (map normSegment (segments p)).

Definition free_of (c : Ascii.ascii) (s : bstr) : Prop := Forall (fun x => x <> c) s.

(** *** Splitting and joining *)

Lemma split_on_nonempty c s : split_on c s <> [].
Proof. destruct s as [|x s]; simpl; [done|]. destruct (Ascii.eqb x c); [done|]. by destruct (split_on c s). Qed.

Lemma join_cons c s segs : segs <> [] -> join c (s :: segs) = s ++ c :: join c segs.
Proof. by destruct segs. Qed.

Lemma join_split c s : join c (split_on c s) = s.
Proof.
  induction s as [|x s IH]; [done|]. cbn [split_on].
  destruct (Ascii.eqb_spec x c) as [->|Hx].
  - rewrite join_cons by apply split_on_nonempty. by rewrite IH.
  - pose proof (split_on_nonempty c s). destruct (split_on c s) as [|seg rest] eqn:E; [done|].
    destruct rest; cbn [join app] in IH |- *; by rewrite IH.
Qed.

Lemma split_on_free c s : Forall (free_of c) (split_on c s).
Proof.
  induction s as [|x s IH]; cbn [split_on]; [repeat constructor|].
  destruct (Ascii.eqb_spec x c) as [->|Hx]; [by constructor; [constructor|]|].
  destruct (split_on c s) as [|seg rest]; [by repeat constructor|].
  inversion IH; subst. constructor; [by constructor|done].
Qed.

Lemma split_join c segs : segs <> [] -> Forall (free_of c) segs -> split_on c (join c segs) = segs.
Proof.
  intros Hne H. assert (forall s t, free_of c s -> split_on c (s ++ c :: t) = s :: split_on c t) as Hcut.
  { intros s t. induction 1 as [|x s Hx Hs IH]; cbn [app split_on].
    - by rewrite Ascii.eqb_refl.
    - destruct (Ascii.eqb_spec x c); [done|]. by rewrite IH. }
  assert (forall s, free_of c s -> split_on c s = [s]) as Hone.
  { intros s. induction 1 as [|x s Hx Hs IH]; cbn [split_on]; [done|].
    destruct (Ascii.eqb_spec x c); [done|]. by rewrite IH. }
  induction H as [|s segs Hs Hsegs IH]; [done|]. destruct segs as [|s' segs]; [by apply Hone|].
  rewrite join_cons, Hcut by done. by rewrite IH.
Qed.

Lemma index_of_free c s t :
  free_of c s -> index_of (fun x => Ascii.eqb x c) (s ++ c :: t) = Some (length s).
Proof.
  induction 1 as [|x s Hx Hs IH]; simpl.
  - by rewrite Ascii.eqb_refl.
  - destruct (Ascii.eqb_spec x c); [done|]. by rewrite IH.
Qed.

Lemma index_of_none c s : free_of c s -> index_of (fun x => Ascii.eqb x c) s = None.
Proof. induction 1 as [|x s Hx Hs IH]; simpl; [done|]. destruct (Ascii.eqb_spec x c); [done|]. by rewrite IH. Qed.

Lemma index_of_ext f g s : (forall x, f x = g x) -> index_of f s = index_of g s.
Proof. intros H. induction s as [|x s IH]; simpl; [done|]. by rewrite H, IH. Qed.

Lemma is_char_slash x : is_char 47 x = Ascii.eqb x slash.
Proof.
  unfold is_char, ord. destruct (Ascii.eqb_spec x slash) as [->|Hx]; [done|].
  apply N.eqb_neq. intros H. apply Hx. by rewrite <- (ascii_N_embedding x), H.
Qed.

Lemma normSegment_id s : isVariableSegment s = false -> normSegment s = s.
Proof. unfold normSegment. by intros ->. Qed.

Lemma map_normSegment_id segs :
  existsb isVariableSegment segs = false -> map normSegment segs = segs.
Proof.
  induction segs as [|s segs IH]; [done|]. cbn [existsb map]. intros [H1 H2]%orb_false_iff.
  by rewrite normSegment_id, IH.
Qed.

(** *** The loop computes the reference *)

(** The text built so far, up to [pos]. *)
Definition built (prefix p b : bstr) (building : bool) (written pos : nat) : bstr :=
  (if building then b else b ++ prefix) ++ slice p written pos.

Lemma slice_app p a m n : (a <= m <= n)%nat -> slice p a m ++ slice p m n = slice p a n.
Proof.
  intros H. unfold slice. replace (n - a)%nat with ((m - a) + (n - m))%nat by lia.
  rewrite <- (take_take_drop (drop a p) (m - a) (n - m)), drop_drop. do 3 f_equal. lia.
Qed.

Lemma slice_end p a : slice p a (length p) = drop a p.
Proof. unfold slice. apply take_ge. rewrite length_drop. lia. Qed.

Lemma slice_head p pos s t : drop pos p = s ++ t -> slice p pos (pos + length s) = s.
Proof. intros H. unfold slice. rewrite H. replace (pos + length s - pos)%nat with (length s) by lia. apply take_app_length. Qed.

Lemma length_drop_app (p s t : bstr) pos : (pos <= length p)%nat -> drop pos p = s ++ t -> length p = (pos + length s + length t)%nat.
Proof. intros Hp H. apply (f_equal length) in H. rewrite length_drop, length_app in H. lia. Qed.

Lemma segLoop_spec prefix p segs : forall fuel b building written pos b' building' written',
  segs <> [] -> Forall (free_of slash) segs -> drop pos p = join slash segs ->
  (written <= pos <= length p)%nat -> (length p - pos < fuel)%nat ->
  (building = false -> b = [] /\ written = O) ->
  segLoop fuel prefix p b building written pos = (b', building', written') ->
  building' = building || existsb isVariableSegment segs /\
  (building' = true ->
   b' ++ drop written' p = built prefix p b building written pos ++ join slash (map normSegment segs)).
Proof.
  induction segs as [|s segs IH]; [done|]. intros fuel b building written pos b' building' written' _ Hfree Hdrop Hpos Hfuel Hb.
  destruct fuel as [|fuel]; [lia|]. inversion Hfree as [|? ? Hs Hsegs]; subst.
  cbn [segLoop]. rewrite (index_of_ext _ _ _ is_char_slash).
  destruct (Nat.leb_spec pos (length p)); [|lia].
  destruct segs as [|s' segs].
  - cbn [join map existsb] in *. rewrite Hdrop, index_of_none by done.
    pose proof (length_drop_app p s [] pos ltac:(lia) ltac:(by rewrite app_nil_r)) as Hlen. cbn [length] in Hlen.
    pose proof (slice_head p pos s [] ltac:(by rewrite app_nil_r)) as Hseg.
    replace (pos + length s)%nat with (length p) in Hseg by lia. rewrite Hseg.
    assert (forall f x y z, segLoop f prefix p x y z (S (length p)) = (x, y, z)) as Hstop.
    { intros [|f] x y z; [done|]. cbn [segLoop]. by destruct (Nat.leb_spec (S (length p)) (length p)); [lia|]. }
    destruct (isVariableSegment s) eqn:Ev; rewrite Hstop; intros [= <- <- <-]; rewrite ?orb_false_r, ?orb_true_r.
    + split; [done|]. intros _. unfold built, normSegment. rewrite Ev, drop_all, app_nil_r.
      by rewrite !app_assoc.
    + split; [done|]. intros ->. unfold built. rewrite (normSegment_id s Ev), <- app_assoc. f_equal.
      rewrite <- Hseg, slice_app, slice_end by lia. done.
  - rewrite join_cons in Hdrop by done. set (segs' := s' :: segs) in *.
    rewrite Hdrop, index_of_free by done.
    pose proof (length_drop_app p s (slash :: join slash segs') pos ltac:(lia) Hdrop) as Hlen. cbn [length] in Hlen.
    pose proof (slice_head _ _ _ _ Hdrop) as Hseg. rewrite Hseg.
    assert (slice p (pos + length s) (S (pos + length s)) = [slash]) as Hsl.
    { unfold slice. rewrite <- drop_drop, Hdrop, drop_app_length. replace (S _ - _)%nat with 1%nat by lia. done. }
    assert (drop (S (pos + length s)) p = join slash segs') as Hd'.
    { replace (S (pos + length s)) with (pos + (length s + 1))%nat by lia.
      rewrite <- drop_drop, Hdrop, <- drop_drop, drop_app_length. done. }
    cbn [map existsb]. rewrite (join_cons slash (normSegment s)) by done.
    destruct (isVariableSegment s) eqn:Ev; intros Hrun.
    + apply IH in Hrun as [-> Hout]; [|done..|lia|lia|done]. rewrite orb_true_r. split; [done|].
      intros _. rewrite Hout by done. unfold built. rewrite Hsl.
      assert (normSegment s = IDPlaceholder) as -> by (unfold normSegment; by rewrite Ev).
      by rewrite <- !app_assoc.
    + apply IH in Hrun as [-> Hout]; [|done..|lia|lia|done]. split; [done|].
      intros Ht. rewrite Hout by done. unfold built. rewrite (normSegment_id s Ev), <- !app_assoc. f_equal.
      rewrite <- (slice_app p written pos (S (pos + length s))) by lia.
      rewrite <- (slice_app p pos (pos + length s) (S (pos + length s))) by lia.
      rewrite Hseg, Hsl, <- !app_assoc. done.
Qed.

Lemma normalizeSegments_spec prefix p :
  has_slash p = true ->
  normalizeSegments prefix p =
    if existsb isVariableSegment (segments p) then (prefix ++ normalized p, true) else ([], false).
Proof.
  intros Hp. destruct p as [|c p]; [done|]. cbn [has_slash] in Hp. rewrite is_char_slash in Hp.
  apply Ascii.eqb_eq in Hp as ->. unfold normalizeSegments.
  destruct (segLoop _ _ _ _ _ _ _) as [[b building] written] eqn:E.
  apply (segLoop_spec prefix (slash :: p) (split_on slash p)) in E as [-> Hout];
    [|apply split_on_nonempty|apply split_on_free|cbn [drop]; by rewrite join_split|cbn [length]; lia|cbn [length]; lia|done].
  cbn [orb] in *. unfold segments. cbn [drop].
  destruct (existsb _ _); cbn [negb]; [|done]. rewrite Hout by done. unfold built, normalized, segments. cbn [app drop slice].
  by rewrite <- app_assoc.
Qed.

(** ** UTF-8 validity and ASCII cuts *)

Lemma cont_ascii c : (ord c < 128)%N -> cont c = false.
Proof. intros. unfold cont, between. apply andb_false_iff. left. apply N.leb_gt. done. Qed.

Lemma second3_ascii c c2 : (ord c2 < 128)%N -> second3 c c2 = false.
Proof.
  intros. unfold second3, between. apply andb_false_iff. left. apply N.leb_gt. destruct (is_char 224 c); lia.
Qed.

Lemma second4_ascii c c2 : (ord c2 < 128)%N -> second4 c c2 = false.
Proof.
  intros. unfold second4, between. apply andb_false_iff. left. apply N.leb_gt. destruct (is_char 240 c); lia.
Qed.

Lemma ValidString_ascii c s : (ord c < 128)%N -> ValidString (c :: s) = ValidString s.
Proof.
  intros H. cbn [ValidString]. assert (between 0 127 c = true) as ->; [|done].
  unfold between. apply andb_true_iff. split; apply N.leb_le; lia.
Qed.

Ltac utf8_cut :=
  repeat match goal with
  | H : (ord ?c < 128)%N |- context [cont ?c] => rewrite (cont_ascii c H)
  | H : (ord ?c < 128)%N |- context [second3 _ ?c] => rewrite (second3_ascii _ c H)
  | H : (ord ?c < 128)%N |- context [second4 _ ?c] => rewrite (second4_ascii _ c H)
  end; rewrite ?andb_false_r, ?andb_false_l.

(** An ASCII byte is never inside a longer sequence: validity is decided on
    the two sides of it. *)
Lemma ValidString_cut c : (ord c < 128)%N ->
  forall a b, ValidString (a ++ c :: b) = ValidString a && ValidString b.
Proof.
  intros Hc a. remember (length a) as n eqn:Hn. revert a Hn.
  induction n as [n IH] using (well_founded_induction lt_wf). intros a -> b.
  assert (forall a', (length a' < length a)%nat -> ValidString (a' ++ c :: b) = ValidString a' && ValidString b) as IH'.
  { intros a' H. by apply (IH (length a')). }
  destruct a as [|x a]; [by apply ValidString_ascii|]. cbn [app ValidString].
  destruct (between 0 127 x); [apply IH'; cbn; lia|].
  destruct (between 194 223 x).
  { destruct a as [|x2 a]; cbn [app]; [by utf8_cut|]. rewrite IH' by (cbn; lia). by rewrite andb_assoc. }
  destruct (between 224 239 x).
  { destruct a as [|x2 [|x3 a]]; cbn [app].
    - destruct b; [done|]. by utf8_cut.
    - by utf8_cut.
    - rewrite IH' by (cbn; lia). by rewrite !andb_assoc. }
  destruct (between 240 244 x); [|done].
  destruct a as [|x2 [|x3 [|x4 a]]]; cbn [app].
  - destruct b as [|? [|? ?]]; [done..|]. by utf8_cut.
  - destruct b; [done|]. by utf8_cut.
  - by utf8_cut.
  - rewrite IH' by (cbn; lia). by rewrite !andb_assoc.
Qed.

Lemma ValidString_join segs : segs <> [] -> ValidString (join slash segs) = forallb ValidString segs.
Proof.
  intros Hne. induction segs as [|s segs IH]; [done|]. destruct segs as [|s' segs]; [by cbn; rewrite andb_true_r|].
  rewrite join_cons, ValidString_cut by done. cbn [forallb]. f_equal. by apply IH.
Qed.

Lemma forallb_map_norm (f : bstr -> bool) segs :
  f IDPlaceholder = true -> forallb f segs = true -> forallb f (map normSegment segs) = true.
Proof.
  intros Hid. induction segs as [|s segs IH]; [done|]. cbn [forallb map]. intros [H1 H2]%andb_true_iff.
  apply andb_true_iff. split; [|by apply IH]. unfold normSegment. by destruct (isVariableSegment s).
Qed.

(** ** Cutting the query and the fragment *)

Definition is_cut (c : Ascii.ascii) : bool := is_char 63 c || is_char 35 c.

Lemma index_of_some f s i :
  index_of f s = Some i -> exists c t, s = take i s ++ c :: t /\ f c = true /\ existsb f (take i s) = false.
Proof.
  revert i. induction s as [|x s IH]; intros i; [done|]. cbn [index_of]. destruct (f x) eqn:Ef.
  - intros [= <-]. by exists x, s.
  - destruct (index_of f s) as [j|]; [|done]. intros [= <-]. destruct (IH j eq_refl) as (c & t & E & Hc & Ht).
    exists c, t. cbn [take app existsb]. rewrite Ef. split_and!; [by f_equal|done|done].
Qed.

Lemma index_of_None f s : index_of f s = None <-> existsb f s = false.
Proof.
  induction s as [|x s IH]; [done|]. cbn [index_of existsb]. destruct (f x); [done|]. cbn [orb]. rewrite <- IH.
  by destruct (index_of f s).
Qed.

Lemma stripQueryFragment_clean s : existsb is_cut (stripQueryFragment s) = false.
Proof.
  unfold stripQueryFragment. fold is_cut. destruct (index_of _ s) as [i|] eqn:E.
  - by apply index_of_some in E as (c & t & _ & _ & H).
  - by apply index_of_None.
Qed.

Lemma stripQueryFragment_id s : existsb is_cut s = false -> stripQueryFragment s = s.
Proof. intros H. unfold stripQueryFragment. apply index_of_None in H. unfold is_cut in H. by rewrite H. Qed.

Lemma stripQueryFragment_valid s : ValidString s = true -> ValidString (stripQueryFragment s) = true.
Proof.
  unfold stripQueryFragment. destruct (index_of _ s) as [i|] eqn:E; [|done].
  apply index_of_some in E as (c & t & E & Hc & _). rewrite E at 1.
  rewrite ValidString_cut; [by intros [? _]%andb_true_iff|].
  unfold is_char in Hc. apply orb_true_iff in Hc as [Hc|Hc]; apply N.eqb_eq in Hc; lia.
Qed.

Lemma existsb_join (f : Ascii.ascii -> bool) segs :
  segs <> [] -> f slash = false -> existsb f (join slash segs) = existsb (existsb f) segs.
Proof.
  intros Hne Hf. induction segs as [|s segs IH]; [done|]. destruct segs as [|s' segs]; [by cbn; rewrite orb_false_r|].
  rewrite join_cons, existsb_app by done. cbn [existsb] in *. rewrite Hf, orb_false_l. f_equal. by apply IH.
Qed.

(** ** What normalization returns *)

Lemma normSegment_not_variable s : isVariableSegment (normSegment s) = false.
Proof. unfold normSegment. destruct (isVariableSegment s) eqn:E; [by vm_compute|done]. Qed.

Lemma segments_nonempty p : segments p <> [].
Proof. apply split_on_nonempty. Qed.

Lemma map_nonempty {A B} (f : A -> B) l : l <> [] -> map f l <> [].
Proof. by destruct l. Qed.

Lemma normSegment_free s : free_of slash s -> free_of slash (normSegment s).
Proof. unfold normSegment. destruct (isVariableSegment s); [|done]. intros _. by repeat constructor. Qed.

Lemma segments_normalized p : segments (normalized p) = map normSegment (segments p).
Proof.
  unfold normalized, segments at 1. cbn [drop]. apply split_join.
  - apply map_nonempty, segments_nonempty.
  - apply Forall_map. eapply Forall_impl; [apply split_on_free|]. apply normSegment_free.
Qed.

Lemma normalized_id p : has_slash p = true -> existsb isVariableSegment (segments p) = false -> normalized p = p.
Proof.
  intros Hp Hv. unfold normalized. rewrite map_normSegment_id by done. destruct p as [|c p]; [done|].
  cbn [has_slash] in Hp. rewrite is_char_slash in Hp. apply Ascii.eqb_eq in Hp as ->.
  unfold segments. cbn [drop]. by rewrite join_split.
Qed.

(** The path branch: the input is valid text and its part before the query
    starts with a slash. *)
Definition is_path (p : bstr) : bool := ValidString p && has_slash (stripQueryFragment p).

Lemma normalizeSegments_path prefix p :
  has_slash p = true ->
  (let '(out, ok) := normalizeSegments prefix p in if (ok : bool) then out else prefix ++ p) = prefix ++ normalized p.
Proof.
  intros Hp. rewrite normalizeSegments_spec by done. destruct (existsb _ _) eqn:Ev; [done|].
  by rewrite normalized_id.
Qed.

Lemma NormalizePath_spec p :
  NormalizePath p = if is_path p then normalized (stripQueryFragment p) else p.
Proof.
  unfold NormalizePath, is_path. destruct p as [|c p]; [done|]. set (q := c :: p).
  destruct (ValidString q); [|done]. cbn [negb andb].
  destruct (has_slash (stripQueryFragment q)) eqn:Hs; cbn [negb]; [|done].
  apply (normalizeSegments_path []) in Hs. cbn [app] in Hs. done.
Qed.

(** The span-name branch: a known HTTP method, one space, and a path. *)
Definition span_path (name : bstr) : option nat :=
  sp ← index_of (is_char 32) name;
  if ValidString name && negb (Nat.eqb sp 0) &&
     snd (LookupMethod (String.string_of_list_ascii (take sp name))) &&
     has_slash (stripQueryFragment (drop (S sp) name))
  then Some (S sp) else None.

Lemma NormalizeSpanName_spec name :
  NormalizeSpanName name =
    match span_path name with
    | Some n => take n name ++ normalized (stripQueryFragment (drop n name))
    | None => name
    end.
Proof.
  unfold NormalizeSpanName, span_path. destruct name as [|c name]; [done|]. set (q := c :: name).
  destruct (index_of (is_char 32) q) as [[|sp]|]; cbn [mbind option_bind];
    rewrite ?andb_false_r; destruct (ValidString q); cbn [negb andb Nat.eqb]; try done.
  destruct (snd _); cbn [negb andb]; [|done].
  destruct (has_slash _) eqn:Hs; cbn [negb]; [|done]. set (pre := take (S (S sp)) q).
  pose proof (normalizeSegments_path pre _ Hs) as Hn. destruct (normalizeSegments pre _) as [out ok].
  destruct ok; [done|]. rewrite <- Hn. destruct (Nat.eqb_spec (length (stripQueryFragment (drop (S (S sp)) q))) (length (drop (S (S sp)) q))); cbn [negb]; [|done].
  assert (stripQueryFragment (drop (S (S sp)) q) = drop (S (S sp)) q) as ->; [|unfold pre; by rewrite take_drop].
  unfold stripQueryFragment in *. destruct (index_of _ _) as [i|] eqn:E; [|done].
  apply index_of_some in E as (x & t & E & _). apply take_ge. rewrite length_take in *. lia.
Qed.

Lemma existsb_map_norm (f : Ascii.ascii -> bool) segs :
  existsb f IDPlaceholder = false -> existsb (existsb f) segs = false ->
  existsb (existsb f) (map normSegment segs) = false.
Proof.
  intros Hid. induction segs as [|s segs IH]; [done|]. cbn [existsb map]. intros [H1 H2]%orb_false_iff.
  apply orb_false_iff. split; [|by apply IH]. unfold normSegment. by destruct (isVariableSegment s).
Qed.

Lemma has_slash_eq p : has_slash p = true -> p = slash :: join slash (segments p).
Proof.
  destruct p as [|c p]; [done|]. cbn [has_slash]. rewrite is_char_slash. intros ->%Ascii.eqb_eq.
  unfold segments. cbn [drop]. by rewrite join_split.
Qed.

Lemma normalized_valid p : has_slash p = true -> ValidString p = true -> ValidString (normalized p) = true.
Proof.
  intros Hs. rewrite (has_slash_eq p Hs) at 1. unfold normalized.
  rewrite !ValidString_ascii by done.
  rewrite !ValidString_join by (try apply map_nonempty; apply segments_nonempty).
  by apply forallb_map_norm.
Qed.

Lemma normalized_clean p : has_slash p = true -> existsb is_cut p = false -> existsb is_cut (normalized p) = false.
Proof.
  intros Hs. rewrite (has_slash_eq p Hs) at 1. unfold normalized. cbn [existsb].
  rewrite !existsb_join by (try apply map_nonempty; try apply segments_nonempty; done).
  intros [_ H]%orb_false_iff. apply orb_false_iff. split; [done|]. by apply existsb_map_norm.
Qed.

Lemma normalized_idempotent p : normalized (normalized p) = normalized p.
Proof.
  unfold normalized at 1. rewrite segments_normalized. unfold normalized. f_equal. f_equal.
  rewrite map_map. apply map_ext. intros s. apply normSegment_id, normSegment_not_variable.
Qed.

Lemma NormalizePath_idempotent p : NormalizePath (NormalizePath p) = NormalizePath p.
Proof.
  rewrite (NormalizePath_spec p). destruct (is_path p) eqn:E; [|rewrite NormalizePath_spec, E; done].
  unfold is_path in E. apply andb_true_iff in E as [Hv Hs]. set (q := stripQueryFragment p) in *.
  pose proof (normalized_clean q Hs (stripQueryFragment_clean p)) as Hc.
  rewrite NormalizePath_spec. unfold is_path. rewrite stripQueryFragment_id by done.
  rewrite normalized_valid; [|done|by apply stripQueryFragment_valid].
  cbn [normalized has_slash andb is_char]. apply normalized_idempotent.
Qed.

Lemma ValidString_prefix n s i : index_of (is_char 32) s = Some i -> n = S i -> ValidString s = true ->
  ValidString (take n s) = true /\ ValidString (drop n s) = true.
Proof.
  intros H -> Hv. apply index_of_some in H as (c & t & E & Hc & _).
  assert (ord c < 128)%N as Ha by (unfold is_char in Hc; apply N.eqb_eq in Hc; lia).
  assert (length (take i s) = i) as Hl.
  { apply (f_equal length) in E. rewrite length_app in E. cbn [length] in E. rewrite length_take in *. lia. }
  revert Hv. rewrite E at 1. rewrite ValidString_cut by done. intros [H1 H2]%andb_true_iff.
  rewrite E, take_app_ge, drop_app_ge, Hl by lia. replace (S i - i)%nat with 1%nat by lia. cbn [take drop].
  split; [|done]. rewrite ValidString_cut by done. by rewrite H1.
Qed.

Lemma index_of_app f s t i : index_of f s = Some i -> index_of f (s ++ t) = Some i.
Proof.
  revert i. induction s as [|x s IH]; intros i; [done|]. cbn [app index_of]. destruct (f x); [done|].
  destruct (index_of f s) as [j|]; [|done]. intros [= <-]. by rewrite (IH j).
Qed.

Lemma index_of_take f s i : index_of f s = Some i -> index_of f (take (S i) s) = Some i.
Proof.
  revert i. induction s as [|x s IH]; intros i; [done|]. cbn [take index_of]. destruct (f x) eqn:Ef.
  - by intros [= <-].
  - destruct (index_of f s) as [j|] eqn:E; [|done]. intros [= <-]. by rewrite (IH j).
Qed.

Lemma ValidString_app_space a b i : index_of (is_char 32) a = Some i -> length a = S i ->
  ValidString (a ++ b) = ValidString a && ValidString b.
Proof.
  intros H Hl. apply index_of_some in H as (c & t & E & Hc & _).
  assert (ord c < 128)%N as Ha by (unfold is_char in Hc; apply N.eqb_eq in Hc; lia).
  assert (t = []) as ->.
  { apply (f_equal length) in E. rewrite length_app, length_take in E. cbn [length] in E. apply length_zero_iff_nil. lia. }
  rewrite E, <- app_assoc. cbn [app]. rewrite !ValidString_cut by done. by rewrite andb_true_r.
Qed.

Lemma index_of_lt f s i : index_of f s = Some i -> (i < length s)%nat.
Proof.
  intros (c & t & E & _)%index_of_some. apply (f_equal length) in E. rewrite length_app, length_take in E. cbn [length] in E. lia.
Qed.

Lemma NormalizeSpanName_idempotent name : NormalizeSpanName (NormalizeSpanName name) = NormalizeSpanName name.
Proof.
  rewrite (NormalizeSpanName_spec name). destruct (span_path name) as [n|] eqn:E; [|by rewrite NormalizeSpanName_spec, E].
  unfold span_path in E. destruct (index_of _ name) as [sp|] eqn:Ei; [|done]. cbn [mbind option_bind] in E.
  destruct (_ && _) eqn:Eb in E; [|done]. injection E as <-.
  apply andb_true_iff in Eb as [[[Hv Hsp]%andb_true_iff Hm]%andb_true_iff Hs].
  pose proof (ValidString_prefix _ _ _ Ei eq_refl Hv) as [Hv1 Hv2].
  set (q := stripQueryFragment (drop (S sp) name)) in *. set (pre := take (S sp) name) in *.
  assert (length pre = S sp) as Hl by (unfold pre; rewrite length_take; apply index_of_lt in Ei; lia).
  assert (index_of (is_char 32) pre = Some sp) as Hip by by apply index_of_take.
  assert (take sp (pre ++ normalized q) = take sp name) as Ht.
  { rewrite take_app_le by lia. unfold pre. rewrite take_take. f_equal. lia. }
  assert (drop (S sp) (pre ++ normalized q) = normalized q) as Hd by (rewrite <- Hl; apply drop_app_length).
  pose proof (normalized_clean q Hs (stripQueryFragment_clean _)) as Hc.
  rewrite NormalizeSpanName_spec. unfold span_path. rewrite (index_of_app _ _ _ _ Hip). cbn [mbind option_bind].
  rewrite Ht, Hd, (stripQueryFragment_id _ Hc), Hm, (ValidString_app_space _ _ _ Hip Hl), Hv1, Hsp.
  rewrite normalized_valid; [|done|by apply stripQueryFragment_valid]. cbn [normalized has_slash andb is_char].
  change (is_char 47 slash) with true. cbv match. rewrite Hd, (stripQueryFragment_id _ Hc), normalized_idempotent.
  rewrite <- Hl at 1. by rewrite take_app_length.
Qed.

(** C31: operation names are canonical.  A URL path of valid text is returned
    without query or fragment, with the segments of the original one by one,
    exactly the variable ones replaced, so that no variable segment is left;
    a path value of any other shape is returned verbatim; normalizing a
    normalized path or span name changes nothing, and a span name "METHOD
    /path" keeps its method while its path is treated the same way. *)
Theorem operation_canonical p :
  (is_path p = true ->
     segments (NormalizePath p) = map normSegment (segments (stripQueryFragment p)) /\
     existsb isVariableSegment (segments (NormalizePath p)) = false /\
     existsb is_cut (NormalizePath p) = false) /\
  (is_path p = false -> NormalizePath p = p) /\
  NormalizePath (NormalizePath p) = NormalizePath p /\
  NormalizeSpanName (NormalizeSpanName p) = NormalizeSpanName p /\
  (forall n, span_path p = Some n ->
     NormalizeSpanName p = take n p ++ NormalizePath (drop n p)).
Proof.
  split_and!.
  - intros H. rewrite NormalizePath_spec, H. unfold is_path in H. apply andb_true_iff in H as [_ Hs].
    rewrite segments_normalized. split_and!; [done| |by apply normalized_clean, stripQueryFragment_clean].
    induction (segments _) as [|s segs IH]; [done|]. cbn [map existsb]. by rewrite normSegment_not_variable.
  - intros H. by rewrite NormalizePath_spec, H.
  - apply NormalizePath_idempotent.
  - apply NormalizeSpanName_idempotent.
  - intros n Hn. rewrite NormalizeSpanName_spec, Hn, NormalizePath_spec. unfold span_path in Hn.
    destruct (index_of _ p) as [sp|] eqn:Ei; [|done]. cbn [mbind option_bind] in Hn.
    destruct (_ && _) eqn:Eb in Hn; [|done]. injection Hn as <-.
    apply andb_true_iff in Eb as [[[Hv _]%andb_true_iff _]%andb_true_iff Hs].
    destruct (ValidString_prefix _ _ _ Ei eq_refl Hv) as [_ Hv2]. unfold is_path. by rewrite Hv2, Hs.
Qed.

Lemma operation_canonical_witness :
  is_path (lit "/users/12345/x?q=1") = true /\
  span_path (lit "GET /a/deadbeef01#t") = Some 4%nat /\
  NormalizePath (lit "/users/12345/x?q=1") = lit "/users/{id}/x" /\
  NormalizeSpanName (lit "GET /a/deadbeef01#t") = lit "GET /a/{id}" /\
  segments (NormalizePath (lit "/users/12345/x?q=1")) = [lit "users"; IDPlaceholder; lit "x"].
Proof.
  split; [by vm_compute|]. split; [by vm_compute|]. split; [by vm_compute|]. split; [by vm_compute|].
  destruct (operation_canonical (lit "/users/12345/x?q=1")) as [H _].
  destruct (H ltac:(by vm_compute)) as [H1 _]. exact H1.
Defined.
