(* ===== verification/Float64.v ===== *)
(** * Float64: Go's [float64] as IEEE 754 binary64

    Values are [SpecFloat]'s [spec_float] at precision 53 and maximal exponent
    1024, so every operation is the executable IEEE operation with rounding to
    nearest even.  NaN carries no payload.  [math.Log] and [math.Exp2] are not
    correctly rounded by Go's library and stay parameters ([GoMath]). *)
From S2P Require Import Prelude.
From Stdlib Require Export SpecFloat.

Abbreviation f64 := spec_float.

Definition f_prec : Z := 53.
Definition f_emax : Z := 1024.

Definition fadd : f64 -> f64 -> f64 := SFadd f_prec f_emax.
Definition fsub : f64 -> f64 -> f64 := SFsub f_prec f_emax.
Definition fmul : f64 -> f64 -> f64 := SFmul f_prec f_emax.
Definition fdiv : f64 -> f64 -> f64 := SFdiv f_prec f_emax.
Definition fsqrt : f64 -> f64 := SFsqrt f_prec f_emax.

(** Go's comparison operators: false on NaN, and [0 == -0]. *)
Definition flt : f64 -> f64 -> bool := SFltb.
Definition fle : f64 -> f64 -> bool := SFleb.
Definition feq : f64 -> f64 -> bool := SFeqb.
Definition fgt (a b : f64) : bool := flt b a.
Definition fge (a b : f64) : bool := fle b a.

Definition f_is_nan (x : f64) : bool := match x with S754_nan => true | _ => false end.
Definition f_is_inf (x : f64) : bool := match x with S754_infinity _ => true | _ => false end.
Definition f_finite (x : f64) : bool := negb (f_is_nan x) && negb (f_is_inf x).

Definition f_valid (x : f64) : bool := valid_binary f_prec f_emax x.

(** Conversion of an integer, rounded to nearest even. *)
Definition f_of_Z (z : Z) : f64 := binary_normalize f_prec f_emax z 0 false.

Definition f_zero : f64 := S754_zero false.
Definition f_one : f64 := f_of_Z 1.
Definition f_two : f64 := f_of_Z 2.
Definition f_inf (neg : bool) : f64 := S754_infinity neg.

(** [math.Frexp], [math.Ldexp] are exact. *)
Definition math_Frexp (x : f64) : f64 * Z := SFfrexp f_prec f_emax x.
Definition math_Ldexp (x : f64) (e : Z) : f64 := SFldexp f_prec f_emax x e.
Definition f_half : f64 := math_Ldexp f_one (-1).

(** [math.Ceil] keeps the sign of a result that is zero. *)
Definition math_Ceil (x : f64) : f64 :=
  match x with
  | S754_finite s m e =>
      if 0 <=? e then x
      else
        let d := 2 ^ (- e) in
        let z := if s then - (Z.pos m / d) else - (- Z.pos m / d) in
        if z =? 0 then S754_zero s else f_of_Z z
  | _ => x
  end.

(** [int32(x)] for an [x] whose truncation is representable; Go leaves the
    other values implementation-specific, here they wrap. *)
Definition f_trunc (x : f64) : Z :=
  match x with
  | S754_finite s m e =>
      let z := if 0 <=? e then Z.pos m * 2 ^ e else Z.pos m / 2 ^ (- e) in
      if s then - z else z
  | _ => 0
  end.
Definition f_to_i32 (x : f64) : Z := i32 (f_trunc x).

(** [math.Float64bits] and [math.Float64frombits]. *)
Definition Float64bits (x : f64) : Z :=
  match x with
  | S754_zero s => if s then 2 ^ 63 else 0
  | S754_infinity s => (if s then 2 ^ 63 else 0) + 2047 * 2 ^ 52
  | S754_nan => 9221120237041090561
  | S754_finite s m e =>
      (if s then 2 ^ 63 else 0) +
      (if Z.pos m <? 2 ^ 52 then Z.pos m else (e + 1075) * 2 ^ 52 + (Z.pos m - 2 ^ 52))
  end.

Definition Float64frombits (b : Z) : f64 :=
  let s := 2 ^ 63 <=? b in
  let r := b mod 2 ^ 63 in
  let be := r / 2 ^ 52 in
  let frac := r mod 2 ^ 52 in
  if be =? 0 then
    match frac with
    | Z.pos p => S754_finite s p (-1074)
    | _ => S754_zero s
    end
  else if be =? 2047 then
    if frac =? 0 then S754_infinity s else S754_nan
  else
    match frac + 2 ^ 52 with
    | Z.pos p => S754_finite s p (be - 1075)
    | _ => S754_nan
    end.

(** The transcendental functions of Go's [math] the program calls. *)
Class GoMath := {
  math_Log : f64 -> f64;
  math_Exp2 : f64 -> f64;
}.

#[global] Instance f64_eq_dec : EqDecision f64.
Proof. solve_decision. Defined.

(** ** Facts *)

Lemma flt_irrefl x : flt x x = false.
Proof.
  unfold flt, SFltb. destruct x as [|[]| |[] m e]; try done; simpl.
  all: by rewrite Z.compare_refl, Pos.compare_cont_refl.
Qed.

Lemma fadd_comm x y : fadd x y = fadd y x.
Proof.
  unfold fadd. destruct x as [[]|[]| |sx mx ex], y as [[]|[]| |sy my ey]; try reflexivity.
  cbn -[binary_normalize shl_align]. rewrite (Z.min_comm ex ey). f_equal. lia.
Qed.

Lemma f_is_finite x : f_finite x = true <-> f_is_nan x = false /\ f_is_inf x = false.
Proof. destruct x; simpl; naive_solver. Qed.

(** Addition of floats is not associative: 2^53 + (1 + 1) against
    (2^53 + 1) + 1. *)
Lemma fadd_not_assoc :
  exists x y z, fadd (fadd x y) z <> fadd x (fadd y z).
Proof. exists (f_of_Z (2 ^ 53)), f_one, f_one. by vm_compute. Qed.

(** *** Bit patterns *)

Lemma digits2_pos_bounds m :
  2 ^ (Z.pos (digits2_pos m) - 1) <= Z.pos m < 2 ^ Z.pos (digits2_pos m).
Proof.
  induction m as [m IH|m IH|]; cbn [digits2_pos]; [idtac|idtac|cbn; lia].
  all: rewrite Pos2Z.inj_succ; replace (Z.succ (Z.pos (digits2_pos m)) - 1)
    with (Z.succ (Z.pos (digits2_pos m) - 1)) by lia;
    rewrite !Z.pow_succ_r by lia; lia.
Qed.

(** A canonical finite float has either a full 53-bit mantissa or the minimal
    exponent. *)
Lemma bounded_cases m e :
  bounded f_prec f_emax m e = true ->
  e <= 971 /\ (e = -1074 /\ Z.pos m < 2 ^ 53 \/ -1074 <= e /\ 2 ^ 52 <= Z.pos m < 2 ^ 53).
Proof.
  unfold bounded, canonical_mantissa, fexp, emin, f_prec, f_emax. intros H. z_bool.
  pose proof (digits2_pos_bounds m) as HB.
  split; [lia|].
  destruct (Z.eq_dec (Z.pos (digits2_pos m)) 53) as [E|E].
  - right. rewrite E in HB. simpl in *. lia.
  - left. assert (Z.pos (digits2_pos m) < 53) by lia. split; [lia|].
    assert (2 ^ Z.pos (digits2_pos m) <= 2 ^ 53) by (apply Z.pow_le_mono_r; lia). lia.
Qed.

Lemma Float64bits_range x : f_valid x = true -> 0 <= Float64bits x < 2 ^ 64.
Proof.
  destruct x as [[]|[]| |s m e]; cbn; try lia.
  intros H%bounded_cases. change (Z.pow_pos 2 52) with (2 ^ 52). change (2 ^ 52) with 4503599627370496.
  simpl in H. destruct s, (Z.pos m <? 4503599627370496) eqn:E; z_bool; lia.
Qed.

Lemma Float64frombits_bits x :
  f_valid x = true -> f_is_nan x = false -> Float64frombits (Float64bits x) = x.
Proof.
  destruct x as [[]|[]| |s m e]; try reflexivity.
  cbn [f_valid valid_binary]. intros H%bounded_cases _. unfold Float64frombits, Float64bits.
  change (2 ^ 63) with 9223372036854775808 in *. change (2 ^ 53) with 9007199254740992 in *.
  change (2 ^ 52) with 4503599627370496 in *.
  destruct (Z.pos m <? 4503599627370496) eqn:E; z_bool.
  - assert (e = -1074) as -> by lia.
    assert (((if s then 9223372036854775808 else 0) + Z.pos m) mod 9223372036854775808 = Z.pos m) as ->
      by (destruct s; zlia).
    rewrite Z.div_small, Z.mod_small by lia. simpl. f_equal. destruct s; lia.
  - set (q := (e + 1075) * 4503599627370496 + (Z.pos m - 4503599627370496)).
    assert (0 <= q < 9223372036854775808 - 4503599627370496) by lia.
    assert (((if s then 9223372036854775808 else 0) + q) mod 9223372036854775808 = q) as ->
      by (destruct s; zlia).
    assert (q / 4503599627370496 = e + 1075) as -> by (unfold q; zlia).
    assert (q mod 4503599627370496 = Z.pos m - 4503599627370496) as -> by (unfold q; zlia).
    destruct (e + 1075 =? 0) eqn:E1; [z_bool; lia|].
    destruct (e + 1075 =? 2047) eqn:E2; [z_bool; lia|].
    replace (Z.pos m - 4503599627370496 + 4503599627370496) with (Z.pos m) by lia.
    f_equal; [|lia]. destruct s; lia.
Qed.

Lemma Float64bits_frombits b :
  0 <= b < 2 ^ 64 -> f_is_nan (Float64frombits b) = false -> Float64bits (Float64frombits b) = b.
Proof.
  unfold Float64frombits, Float64bits. change (2 ^ 64) with 18446744073709551616.
  change (2 ^ 63) with 9223372036854775808. change (2 ^ 52) with 4503599627370496.
  intros Hb. set (r := b mod 9223372036854775808).
  assert (b = (if 9223372036854775808 <=? b then 9223372036854775808 else 0) + r) as Hr.
  { destruct (9223372036854775808 <=? b) eqn:E; z_bool; unfold r; zlia. }
  assert (0 <= r < 9223372036854775808) by (unfold r; zlia).
  assert (r = 4503599627370496 * (r / 4503599627370496) + r mod 4503599627370496) as Hd by zlia.
  assert (0 <= r mod 4503599627370496 < 4503599627370496) by zlia.
  set (be := r / 4503599627370496) in *. set (frac := r mod 4503599627370496) in *.
  assert (0 <= be) by lia.
  destruct (be =? 0) eqn:E1; z_bool.
  - destruct frac as [|p|p] eqn:Ef; [simpl; lia| |lia].
    destruct (Z.pos p <? 4503599627370496) eqn:E; z_bool; lia.
  - destruct (be =? 2047) eqn:E2; z_bool.
    + destruct (frac =? 0) eqn:E3; [z_bool; lia | done].
    + destruct (frac + 4503599627370496) as [|p|p] eqn:Ep; [lia| |lia].
      destruct (Z.pos p <? 4503599627370496) eqn:E; z_bool; lia.
Qed.
(** The order of non-NaN values is a strict weak order: [flt] is transitive and
    its negation is too. *)
Ltac fcmp_cases :=
  repeat match goal with
  | H : context [(?a ?= ?b)%Z] |- _ => destruct (Z.compare_spec a b); subst; simpl in *
  | |- context [(?a ?= ?b)%Z] => destruct (Z.compare_spec a b); subst; simpl in *
  | H : context [Pos.compare_cont Eq ?a ?b] |- _ => change (Pos.compare_cont Eq a b) with (Pos.compare a b) in H
  | |- context [Pos.compare_cont Eq ?a ?b] => change (Pos.compare_cont Eq a b) with (Pos.compare a b)
  | H : context [(?a ?= ?b)%positive] |- _ => destruct (Pos.compare_spec a b); subst; simpl in *
  | |- context [(?a ?= ?b)%positive] => destruct (Pos.compare_spec a b); subst; simpl in *
  end; try done; try lia.

Lemma flt_trans x y z : flt x y = true -> flt y z = true -> flt x z = true.
Proof.
  unfold flt, SFltb. destruct x as [[]|[]| |[] mx ex], y as [[]|[]| |[] my ey], z as [[]|[]| |[] mz ez];
    simpl; try done; intros H1 H2; fcmp_cases.
Qed.

Lemma flt_negtrans x y z : f_is_nan y = false -> flt x y = false -> flt x z = true -> flt y z = true.
Proof.
  unfold flt, SFltb. destruct x as [[]|[]| |[] mx ex], y as [[]|[]| |[] my ey], z as [[]|[]| |[] mz ez];
    simpl; try done; intros _ H1 H2; fcmp_cases.
Qed.

Lemma fle_not_flt x y : f_is_nan x = false -> f_is_nan y = false -> flt y x = false -> fle x y = true.
Proof.
  unfold flt, fle, SFltb, SFleb. destruct x as [[]|[]| |[] mx ex], y as [[]|[]| |[] my ey];
    simpl; try done; intros _ _ H; fcmp_cases.
Qed.
