(* ===== verification/LogTokens.v ===== *)
(** * LogTokens: from a log body to tokens ([internal/aggregate/template_miner.go])

    The miner splits a body at ASCII whitespace, replaces what looks variable
    by a placeholder, and stops after a fixed number of tokens.  A Go string
    is the list of its bytes, as in [Routes]. *)
From S2P Require Import Prelude Routes.
From Stdlib Require Import Ascii.
#[local] Open Scope Z_scope.

(* internal/aggregate/template_miner.go:42-67 TemplateWildcard *)
Definition TemplateWildcard : bstr := lit "<*>".
Definition TemplateOther : bstr := lit "__other__".
Definition defaultTemplateDepth : Z := 4.
Definition defaultTemplateMaxChildren : Z := 100.
Definition defaultTemplateMaxTokens : Z := 128.
Definition tmMaskNum : bstr := lit "<NUM>".
Definition tmMaskUUID : bstr := lit "<UUID>".
Definition tmMaskIP : bstr := lit "<IP>".
Definition tmMaskHex : bstr := lit "<HEX>".
Definition tmMaskTS : bstr := lit "<TS>".
Definition tmMaskEmail : bstr := lit "<EMAIL>".
Definition tmMaskTrunc : bstr := lit "<TRUNC>".
Definition tmMaxAliasHops : nat := 8.

Definition len (s : bstr) : Z := Z.of_nat (length s).

Definition is_digit (c : ascii) : bool := between 48 57 c.

(* internal/aggregate/template_miner.go:788-795 tmHasDigit *)
Definition tmHasDigit (s : bstr) : bool := existsb is_digit s.

(* internal/aggregate/template_miner.go:797-799 tmIsHexDigit *)
Definition tmIsHexDigit (c : ascii) : bool := between 48 57 c || between 97 102 c || between 65 70 c.

(* internal/aggregate/template_miner.go:801-818 tmIsUUID *)
Definition tmIsUUID (s : bstr) : bool :=
  if negb (len s =? 36) then false
  else forallb (fun '(i, c) => if bool_decide (i ∈ [8; 13; 18; 23]%nat) then is_char 45 c else tmIsHexDigit c) (imap pair s).

(* internal/aggregate/template_miner.go:822-840 tmIsHex *)
Definition tmIsHex (s : bstr) : bool :=
  match s with
  | c0 :: c1 :: _ :: _ =>
      if is_char 48 c0 && (is_char 120 c1 || is_char 88 c1) then forallb tmIsHexDigit (drop 2 s)
      else if len s <? 16 then false
      else forallb tmIsHexDigit s
  | _ => false
  end.

(* internal/aggregate/template_miner.go:892-902 tmIsDigits *)
Definition tmIsDigits (s : bstr) : bool :=
  match s with [] => false | _ => forallb is_digit s end.

(** The loop over the dotted groups; each turn cuts one off. *)
Fixpoint groupLoop (fuel : nat) (s : bstr) (groups : Z) : bool :=
  match fuel with
  | O => false
  | S fuel =>
      let i := index_of (is_char 46) s in
      let part := match i with None => s | Some i => take i s end in
      if (len part =? 0) || (3 <? len part) || negb (tmIsDigits part) then false
      else
        match i with
        | None => groups + 1 =? 4
        | Some i => groupLoop fuel (drop (S i) s) (groups + 1)
        end
  end.

(* internal/aggregate/template_miner.go:842-871 tmIsIPv4 *)
Definition tmIsIPv4 (s : bstr) : bool :=
  if len s <? 7 then false
  else
    match index_of (is_char 58) s with
    | Some i =>
        if negb (tmIsDigits (drop (S i) s)) then false
        else groupLoop (S (length s)) (take i s) 0
    | None => groupLoop (S (length s)) s 0
    end.

(* internal/aggregate/template_miner.go:874-882 tmIsTimestamp *)
Definition tmIsTimestamp (s : bstr) : bool :=
  if len s <? 10 then false
  else
    let at_ i := default zero (s !! i) in
    if negb (is_char 45 (at_ 4%nat)) || negb (is_char 45 (at_ 7%nat)) then false
    else tmIsDigits (slice s 0 4) && tmIsDigits (slice s 5 7) && tmIsDigits (slice s 8 10).

(* internal/aggregate/template_miner.go:884-890 tmIsEmail *)
Definition tmIsEmail (s : bstr) : bool :=
  let idx := from_option Z.of_nat (-1) in
  let at_ := idx (index_of (is_char 64) s) in
  if (at_ <=? 0) || (len s - 3 <=? at_) then false
  else 0 <? idx (index_of (is_char 46) (drop (S (Z.to_nat at_)) s)).

(** The scan of [tmIsNumber]. *)
Fixpoint numberLoop (dot : bool) (digits : Z) (s : bstr) : bool :=
  match s with
  | [] => 0 <? digits
  | c :: s =>
      if is_digit c then numberLoop dot (digits + 1) s
      else if is_char 46 c && negb dot then numberLoop true digits s
      else false
  end.

(* internal/aggregate/template_miner.go:905-926 tmIsNumber *)
Definition tmIsNumber (s : bstr) : bool :=
  match s with
  | [] => false
  | c :: t => numberLoop false 0 (if is_char 45 c || is_char 43 c then t else s)
  end.

(** [inRun] says that the byte before was a digit. *)
Fixpoint maskRuns (inRun : bool) (tok : bstr) : bstr :=
  match tok with
  | [] => []
  | c :: tok =>
      if is_digit c then (if inRun then [] else tmMaskNum) ++ maskRuns true tok
      else c :: maskRuns false tok
  end.

(* internal/aggregate/template_miner.go:930-947 tmMaskDigitRuns *)
Definition tmMaskDigitRuns (tok : bstr) : bstr := maskRuns false tok.

(* internal/aggregate/template_miner.go:767-786 tmMaskToken *)
Definition tmMaskToken (tok : bstr) : bstr :=
  if tmIsUUID tok then tmMaskUUID
  else if tmIsHex tok then tmMaskHex
  else if tmIsIPv4 tok then tmMaskIP
  else if tmIsTimestamp tok then tmMaskTS
  else if tmIsEmail tok then tmMaskEmail
  else if tmIsNumber tok then tmMaskNum
  else if negb (tmHasDigit tok) then tok
  else tmMaskDigitRuns tok.

Definition is_space (c : ascii) : bool := is_char 32 c || between 9 13 c.

(** The scan: [out] is what has been emitted, [cur] the bytes since [start]. *)
Fixpoint splitLoop (max : Z) (out : list bstr) (cur : option bstr) (s : bstr) : list bstr :=
  match s with
  | [] => match cur with Some t => out ++ [tmMaskToken t] | None => out end
  | c :: s =>
      if is_space c then
        match cur with
        | Some t =>
            let out := out ++ [tmMaskToken t] in
            if max <=? Z.of_nat (length out) then out ++ [tmMaskTrunc] else splitLoop max out None s
        | None => splitLoop max out None s
        end
      else splitLoop max out (Some (default [] cur ++ [c])) s
  end.

(* internal/aggregate/template_miner.go:736-762 tmSplitTokens *)
Definition tmSplitTokens (body : bstr) (max : Z) : list bstr := splitLoop max [] None body.

(* internal/aggregate/template_miner.go:949-949 tmJoin *)
Definition tmJoin (tokens : list bstr) : bstr := join space tokens.

(* internal/aggregate/template_miner.go:951-961 tmTokensEqual *)
Definition tmTokensEqual (a b : list bstr) : bool := bool_decide (a = b).

Definition nul : ascii := zero.

(* internal/aggregate/template_miner.go:992-992 tmEncodeTokens *)
Definition tmEncodeTokens (tokens : list bstr) : bstr := join nul tokens.

(* internal/aggregate/template_miner.go:996-1001 tmDecodeTokens *)
Definition tmDecodeTokens (s : bstr) : list bstr :=
  match s with [] => [] | _ => split_on nul s end.

(** ** The reference: the words of a body, masked *)

Fixpoint split_with (p : ascii -> bool) (s : bstr) : list bstr :=
  match s with
  | [] => [[]]
  | c :: s =>
      if p c then [] :: split_with p s
      else match split_with p s with [] => [[c]] | w :: rest => (c :: w) :: rest end
  end.

Definition words (s : bstr) : list bstr := filter (fun w => w <> []) (split_with is_space s).

Definition ends_in_space (s : bstr) : bool := match last s with Some c => is_space c | None => false end.

(** All the words, or the first [max] and a mark.  A body of exactly [max]
    words is marked when a space follows the last one. *)
Definition masked_words (body : bstr) (max : Z) : list bstr :=
  let ws := words body in
  let n := Z.of_nat (length ws) in
  if (max <? n) || ((n =? max) && ends_in_space body) then map tmMaskToken (take (Z.to_nat max) ws) ++ [tmMaskTrunc]
  else map tmMaskToken ws.

Definition solid (w : bstr) : Prop := w <> [] /\ Forall (fun c => is_space c = false) w.

Lemma split_with_cut p w c s : Forall (fun c => p c = false) w -> p c = true -> split_with p (w ++ c :: s) = w :: split_with p s.
Proof.
  intros Hw Hc. induction Hw as [|x w Hx Hw IH]; cbn [app split_with]; [by rewrite Hc|]. by rewrite Hx, IH.
Qed.

Lemma split_with_one p w : Forall (fun c => p c = false) w -> split_with p w = [w].
Proof. induction 1 as [|x w Hx Hw IH]; cbn [split_with]; [done|]. by rewrite Hx, IH. Qed.

Lemma split_with_words p s : Forall (fun w => Forall (fun c => p c = false) w) (split_with p s).
Proof.
  induction s as [|c s IH]; cbn [split_with]; [by repeat constructor|]. destruct (p c) eqn:E; [by constructor|].
  destruct (split_with p s); [by repeat constructor|]. apply Forall_cons in IH as [? ?]. by repeat constructor.
Qed.

Lemma words_cut w c s : solid w -> is_space c = true -> words (w ++ c :: s) = w :: words s.
Proof. intros [Hne Hw] Hc. unfold words. rewrite split_with_cut by done. by rewrite filter_cons_True. Qed.

Lemma words_one w : solid w -> words w = [w].
Proof. intros [Hne Hw]. unfold words. rewrite split_with_one by done. by rewrite filter_cons_True. Qed.

Lemma words_space c s : is_space c = true -> words (c :: s) = words s.
Proof. intros Hc. unfold words. cbn [split_with]. rewrite Hc. by rewrite filter_cons_False by (intros H; by apply H). Qed.

Lemma words_solid s : Forall solid (words s).
Proof.
  unfold words. apply Forall_forall. intros w [Hne Hw]%list_elem_of_filter. split; [done|].
  pose proof (split_with_words is_space s) as H. rewrite Forall_forall in H. by apply H.
Qed.

Lemma words_nil_space s : words s = [] -> Forall (fun c => is_space c = true) s.
Proof.
  induction s as [|c s IH]; [done|]. destruct (is_space c) eqn:E; [rewrite words_space by done; by constructor; auto|].
  unfold words. cbn [split_with]. rewrite E. destruct (split_with is_space s); by rewrite filter_cons_True.
Qed.

Lemma ends_cons c s : s <> [] -> ends_in_space (c :: s) = ends_in_space s.
Proof. by destruct s. Qed.

Lemma ends_app w s : s <> [] -> ends_in_space (w ++ s) = ends_in_space s.
Proof. intros Hs. unfold ends_in_space. destruct s; [done|]. by rewrite last_app_cons. Qed.

Lemma ends_all c s : Forall (fun c => is_space c = true) (c :: s) -> ends_in_space (c :: s) = true.
Proof.
  intros H. unfold ends_in_space. destruct (last (c :: s)) as [x|] eqn:E; [|by apply last_None in E].
  rewrite Forall_forall in H. by apply H, last_Some_elem_of.
Qed.

Lemma words_nonempty s : words s <> [] -> s <> [].
Proof. by intros H ->. Qed.

Definition cur_ok (cur : option bstr) : Prop := from_option solid True cur.

Lemma masked_words_step max w c s : solid w -> is_space c = true -> 1 < max ->
  masked_words (w ++ c :: s) max = tmMaskToken w :: masked_words s (max - 1).
Proof.
  intros Hw Hc Hmax. unfold masked_words. rewrite words_cut by done. cbn [length].
  assert (Z.of_nat (S (length (words s))) =? max = (Z.of_nat (length (words s)) =? max - 1)) as ->
    by (apply eq_true_iff_eq; rewrite !Z.eqb_eq; lia).
  assert (max <? Z.of_nat (S (length (words s))) = (max - 1 <? Z.of_nat (length (words s)))) as ->
    by (apply eq_true_iff_eq; rewrite !Z.ltb_lt; lia).
  assert ((Z.of_nat (length (words s)) =? max - 1) && ends_in_space (w ++ c :: s) =
          (Z.of_nat (length (words s)) =? max - 1) && ends_in_space s) as ->.
  { destruct (Z.eqb_spec (Z.of_nat (length (words s))) (max - 1)) as [E|]; [|done].
    rewrite ends_app by done. rewrite ends_cons; [done|]. apply words_nonempty. intros H. rewrite H in E. cbn in E. lia. }
  destruct (_ || _); [|done]. replace (Z.to_nat max) with (S (Z.to_nat (max - 1))) by lia. done.
Qed.

Lemma masked_words_last max w c s : solid w -> is_space c = true -> max = 1 ->
  masked_words (w ++ c :: s) max = [tmMaskToken w; tmMaskTrunc].
Proof.
  intros Hw Hc ->. unfold masked_words. rewrite words_cut by done.
  destruct (words s) as [|w2 ws] eqn:E; cbn [length].
  - rewrite ends_app, ends_all by (done || (constructor; [done|by apply words_nil_space])). done.
  - destruct (Z.ltb_spec 1 (Z.of_nat (S (S (length ws))))); [done|lia].
Qed.

Lemma masked_words_space max c s : is_space c = true -> 0 < max -> masked_words (c :: s) max = masked_words s max.
Proof.
  intros Hc Hmax. unfold masked_words. rewrite words_space by done.
  destruct (Z.eqb_spec (Z.of_nat (length (words s))) max) as [E|]; [|done]. rewrite ends_cons; [done|].
  apply words_nonempty. intros H. rewrite H in E. cbn in E. lia.
Qed.

Lemma splitLoop_spec max s : forall out cur,
  Z.of_nat (length out) < max -> cur_ok cur ->
  splitLoop max out cur s = out ++ masked_words (default [] cur ++ s) (max - Z.of_nat (length out)).
Proof.
  induction s as [|c s IH]; intros out cur Hmax Hcur; cbn [splitLoop].
  - rewrite app_nil_r. unfold masked_words. destruct cur as [t|]; cbn [from_option id].
    + cbn in Hcur. rewrite words_one by done. cbn [length map]. unfold ends_in_space.
      destruct (Z.ltb_spec (max - Z.of_nat (length out)) (Z.of_nat 1)); [lia|]. cbn [orb].
      destruct (last t) as [x|] eqn:E; [|by rewrite andb_false_r].
      destruct Hcur as [_ Hs]. rewrite Forall_forall in Hs. rewrite (Hs x) by (by apply last_Some_elem_of). by rewrite andb_false_r.
    + change (words []) with (@nil bstr). cbn [length map]. unfold ends_in_space. cbn [last].
      rewrite andb_false_r, orb_false_r. destruct (Z.ltb_spec (max - Z.of_nat (length out)) (Z.of_nat 0)); [lia|].
      by rewrite app_nil_r.
  - destruct (is_space c) eqn:Ec.
    + destruct cur as [t|]; cbn [from_option id app].
      * cbn in Hcur. rewrite length_app. cbn [length]. destruct (Z.leb_spec max (Z.of_nat (length out + 1))).
        -- rewrite masked_words_last by (done || lia). by rewrite <- app_assoc.
        -- rewrite IH by (done || (rewrite length_app; cbn [length]; lia)). rewrite length_app. cbn [length from_option id app].
           rewrite (masked_words_step _ t c s) by (done || lia). rewrite <- app_assoc. cbn [app]. do 3 f_equal. lia.
      * rewrite IH by done. cbn [from_option id app]. by rewrite masked_words_space by (done || lia).
    + rewrite IH; [cbn [from_option id]; by rewrite <- app_assoc|done|]. destruct cur as [t|]; cbn [cur_ok from_option default] in *.
      * destruct Hcur as [Hne Ht]. split; [by destruct t|]. apply Forall_app. by repeat constructor.
      * by repeat constructor.
Qed.

(** *** What a masked token can hold *)

Definition mask_letters : bstr := lit "<NUMIDHEXPTSAL>".

Lemma maskRuns_chars c tok : forall inRun, c ∈ maskRuns inRun tok -> (c ∈ tok /\ is_digit c = false) \/ c ∈ tmMaskNum.
Proof.
  induction tok as [|x tok IH]; intros inRun; cbn [maskRuns]; [by intros ?%elem_of_nil|].
  destruct (is_digit x) eqn:Ed.
  - intros [Hc|Hc]%elem_of_app; [destruct inRun; [by apply elem_of_nil in Hc|by right]|].
    destruct (IH true Hc) as [[? ?]|?]; [left; split; [by right|done]|by right].
  - intros [->|Hc]%elem_of_cons; [left; split; [by left|done]|].
    destruct (IH false Hc) as [[? ?]|?]; [left; split; [by right|done]|by right].
Qed.

Lemma mask_chars c tok : c ∈ tmMaskToken tok -> (c ∈ tok /\ is_digit c = false) \/ c ∈ mask_letters.
Proof.
  assert (forall m : bstr, bool_decide (Forall (.∈ mask_letters) m) = true -> c ∈ m -> (c ∈ tok /\ is_digit c = false) \/ c ∈ mask_letters) as Hm.
  { intros m H%bool_decide_eq_true Hc. right. rewrite Forall_forall in H. by apply H. }
  unfold tmMaskToken. do 6 (destruct (_ tok); [by apply Hm|]). destruct (tmHasDigit tok) eqn:Ed; cbn [negb].
  - intros [?|Hc]%maskRuns_chars; [by left|]. by apply (Hm tmMaskNum).
  - intros Hc. left. split; [done|]. unfold tmHasDigit in Ed. destruct (is_digit c) eqn:E; [|done].
    assert (existsb is_digit tok = true) by (apply existsb_exists; exists c; split; [by apply list_elem_of_In|done]). congruence.
Qed.

Lemma mask_nonempty tok : tok <> [] -> tmMaskToken tok <> [].
Proof.
  intros Hne. unfold tmMaskToken. do 6 (destruct (_ tok); [done|]). destruct (tmHasDigit tok); cbn [negb]; [|done].
  destruct tok as [|c tok]; [done|]. unfold tmMaskDigitRuns. cbn [maskRuns]. by destruct (is_digit c).
Qed.

Definition token_ok (t : bstr) : Prop := t <> [] /\ Forall (fun c => is_space c = false /\ is_digit c = false) t.

Lemma mask_letters_ok : Forall (fun c => is_space c = false /\ is_digit c = false) mask_letters.
Proof. apply (bool_decide_unpack _). by vm_compute. Qed.

Lemma mask_ok w : solid w -> token_ok (tmMaskToken w).
Proof.
  intros [Hne Hw]. split; [by apply mask_nonempty|]. apply Forall_forall. intros c [[Hc ?]|Hc]%mask_chars.
  - rewrite Forall_forall in Hw. split; [by apply Hw|done].
  - pose proof mask_letters_ok as H. rewrite Forall_forall in H. by apply H.
Qed.

Lemma masked_words_ok body max : 0 < max ->
  Forall token_ok (masked_words body max) /\ Z.of_nat (length (masked_words body max)) <= max + 1.
Proof.
  intros Hmax. assert (Forall token_ok (map tmMaskToken (words body))) as Hall.
  { apply Forall_fmap. eapply Forall_impl; [apply words_solid|]. intros w. apply mask_ok. }
  unfold masked_words. destruct (Z.ltb_spec max (Z.of_nat (length (words body)))) as [Hl|Hl]; cbn [orb].
  2: destruct (_ && _).
  3: by split; [done|rewrite length_map; lia].
  all: rewrite <- firstn_map; split; [apply Forall_app; split; [by apply Forall_take|]; constructor; [apply (bool_decide_unpack _); by vm_compute|done]|].
  all: rewrite length_app, length_take, length_map; cbn [length]; lia.
Qed.

(** The tokenizer.  For any body and any positive bound the byte scan
    gives the words of the body, split at ASCII whitespace and masked; beyond
    the bound the first [max] of them and one mark.  Every token is non-empty
    and free of whitespace and of decimal digits, and there are at most
    [max + 1] of them: what varies as a number never reaches a pattern. *)
Theorem tokens_spec body max : 0 < max ->
  tmSplitTokens body max = masked_words body max /\
  Forall token_ok (tmSplitTokens body max) /\ Z.of_nat (length (tmSplitTokens body max)) <= max + 1.
Proof.
  intros Hmax. assert (tmSplitTokens body max = masked_words body max) as ->.
  { unfold tmSplitTokens. rewrite splitLoop_spec by done. cbn [length from_option id app]. by rewrite Z.sub_0_r. }
  split; [done|]. by apply masked_words_ok.
Qed.

Lemma tokens_spec_witness :
  tmJoin (tmSplitTokens (lit "GET /users/42 from 10.0.0.1 by a@b.io ok") 6) = lit "GET /users/<NUM> from <IP> by <EMAIL> <TRUNC>" /\
  Forall token_ok (tmSplitTokens (lit "id=7f ") 1) /\ tmSplitTokens (lit "id=7f ") 1 = masked_words (lit "id=7f ") 1.
Proof. split; [by vm_compute|]. destruct (tokens_spec (lit "id=7f ") 1) as (H1 & H2 & _); [done|]. done. Defined.
