(* ===== verification/Varint.v ===== *)
(** * Varint: Go's [encoding/binary] variable-length integers

    [AppendUvarint], [AppendVarint], [Uvarint] and [Varint] as the standard
    library defines them, which the sketch codec and the dimension tuples are
    written in.  [Uvarint] returns the value and the number of bytes read: zero
    when the buffer ends inside the value, negative when it overflows 64 bits.
    It accepts over-long encodings such as [80 00]. *)
From S2P Require Import Prelude.

(** [for x >= 0x80 { append(byte(x)|0x80); x >>= 7 }; append(byte(x))].
    Nine continuation bytes are enough for 64 bits. *)
Fixpoint put_uvarint (fuel : nat) (x : Z) : bytes :=
  match fuel with
  | O => [x mod 256]
  | S f =>
      if 128 <=? x then Z.lor (x mod 256) 128 :: put_uvarint f (Z.shiftr x 7)
      else [x mod 256]
  end.

Definition AppendUvarint (dst : bytes) (x : Z) : bytes := dst ++ put_uvarint 9 x.

(** [for i, b := range buf]: [i] counts the bytes, [x] accumulates, [s] is the
    shift. *)
Fixpoint get_uvarint (buf : bytes) (i x s : Z) : Z * Z :=
  match buf with
  | [] => (0, 0)
  | b :: buf' =>
      if i =? 10 then (0, - (i + 1))
      else if b <? 128 then
        if (i =? 9) && (1 <? b) then (0, - (i + 1))
        else (Z.lor x (u64 (Z.shiftl b s)), i + 1)
      else get_uvarint buf' (i + 1) (Z.lor x (u64 (Z.shiftl (Z.land b 127) s))) (s + 7)
  end.

Definition Uvarint (buf : bytes) : Z * Z := get_uvarint buf 0 0 0.

(** Zig-zag: [ux := uint64(x) << 1; if x < 0 { ux = ^ux }]. *)
Definition zigzag (x : Z) : Z :=
  let ux := u64 (Z.shiftl (u64 x) 1) in
  if x <? 0 then 2 ^ 64 - 1 - ux else ux.

Definition AppendVarint (dst : bytes) (x : Z) : bytes := AppendUvarint dst (zigzag x).

Definition unzigzag (ux : Z) : Z :=
  let x := i64 (Z.shiftr ux 1) in
  if negb (Z.land ux 1 =? 0) then - x - 1 else x.

Definition Varint (buf : bytes) : Z * Z :=
  let '(ux, n) := Uvarint buf in (unzigzag ux, n).

(** ** Facts *)

Lemma lor_128 x : Z.lor (x mod 256) 128 = 128 + x mod 128.
Proof.
  assert (forall b, 0 <= b < 256 -> Z.lor b 128 = 128 + b mod 128) as H.
  { intros b Hb.
    assert (forallb (fun n => Z.lor (Z.of_nat n) 128 =? 128 + Z.of_nat n mod 128) (seq 0 256) = true)
      as HF by (by vm_compute).
    rewrite forallb_forall in HF. specialize (HF (Z.to_nat b)).
    rewrite Z2Nat.id in HF by lia. apply Z.eqb_eq, HF, in_seq. lia. }
  rewrite H by zlia. zlia.
Qed.

Lemma land_127 b : Z.land b 127 = b mod 128.
Proof. apply (Z.land_ones b 7). lia. Qed.

Lemma lor_disjoint x b s : 0 <= s -> 0 <= x < 2 ^ s -> 0 <= b -> Z.lor x (Z.shiftl b s) = x + b * 2 ^ s.
Proof.
  intros Hs Hx Hb. rewrite Z.shiftl_mul_pow2 by done.
  symmetry. rewrite <- Z.lxor_lor; [apply Z.add_nocarry_lxor|].
  all: apply Z.bits_inj'; intros k Hk; rewrite Z.land_spec, Z.bits_0, <- Z.shiftl_mul_pow2 by done.
  all: destruct (decide (k < s)).
  all: try (rewrite Z.shiftl_spec_low by lia; apply andb_false_r).
  all: rewrite <- (Z.mod_small x (2 ^ s)) by done; by rewrite Z.mod_pow2_bits_high by lia.
Qed.

Lemma lor_step x b s :
  0 <= s -> 0 <= x < 2 ^ s -> 0 <= b -> b * 2 ^ s < 18446744073709551616 ->
  Z.lor x (u64 (Z.shiftl b s)) = x + b * 2 ^ s.
Proof.
  intros Hs Hx Hb Hr. assert (0 < 2 ^ s) by (by apply Z.pow_pos_nonneg).
  rewrite u64_small by (rewrite Z.shiftl_mul_pow2 by done; nia). by apply lor_disjoint.
Qed.

Lemma put_uvarint_nonempty f x : put_uvarint f x <> [].
Proof. destruct f; simpl; [done|]. by case_match. Qed.

(** The decoder, started in the middle of a value, reads back what the encoder
    wrote, provided the remaining bits fit in the remaining bytes. *)
Lemma get_put_uvarint f x i acc rest :
  0 <= i -> i + Z.of_nat f = 9 -> 0 <= x < 2 ^ (64 - 7 * i) -> 0 <= acc < 2 ^ (7 * i) ->
  get_uvarint (put_uvarint f x ++ rest) i acc (7 * i) =
  (acc + x * 2 ^ (7 * i), i + Z.of_nat (length (put_uvarint f x))).
Proof.
  revert x i acc. induction f as [|f IH]; intros x i acc Hi Hf Hx Hacc.
  - assert (i = 9) as -> by lia. change (2 ^ (64 - 7 * 9)) with 2 in Hx.
    assert (x = 0 \/ x = 1) as [-> | ->] by lia; cbn [put_uvarint app get_uvarint].
    all: change (0 mod 256) with 0; change (1 mod 256) with 1; cbn [Z.eqb Z.ltb Z.compare].
    all: cbn -[Z.lor Z.shiftl Z.add Z.mul Z.pow wrapu]; f_equal.
    all: by rewrite lor_step.
  - assert (2 ^ (64 - 7 * i) * 2 ^ (7 * i) = 2 ^ 64) as HP
      by (rewrite <- Z.pow_add_r by lia; f_equal; lia).
    change (2 ^ 64) with 18446744073709551616 in HP.
    assert (0 < 2 ^ (7 * i)) by (apply Z.pow_pos_nonneg; lia).
    cbn [put_uvarint]. destruct (128 <=? x) eqn:E; z_bool.
    + cbn [app get_uvarint length]. rewrite lor_128, land_127.
      destruct (Z.eqb_spec i 10); [lia|].
      destruct (128 + x mod 128 <? 128) eqn:E2; [z_bool; zlia|].
      replace ((128 + x mod 128) mod 128) with (x mod 128) by zlia.
      assert (0 <= x mod 128 < 128) by zlia.
      assert (x mod 128 <= x) by zlia.
      assert (x mod 128 * 2 ^ (7 * i) < 18446744073709551616).
      { rewrite <- HP. apply Z.mul_lt_mono_pos_r; lia. }
      rewrite lor_step by (done || lia).
      replace (7 * i + 7) with (7 * (i + 1)) by lia. rewrite Z.shiftr_div_pow2 by lia.
      change (2 ^ 7) with 128.
      assert (2 ^ (7 * (i + 1)) = 128 * 2 ^ (7 * i)) as HS.
      { replace (7 * (i + 1)) with (7 + 7 * i) by lia. by rewrite Z.pow_add_r by lia. }
      rewrite IH; [|lia|lia|split; [zlia|]|rewrite HS; nia].
      * f_equal; [|lia]. rewrite HS.
        assert (x = 128 * (x / 128) + x mod 128) by zlia. nia.
      * apply Z.div_lt_upper_bound; [lia|]. change 128 with (2 ^ 7).
        rewrite <- Z.pow_add_r by lia. replace (7 + (64 - 7 * (i + 1))) with (64 - 7 * i) by lia. lia.
    + cbn [app get_uvarint length]. rewrite Z.mod_small by lia.
      destruct (Z.eqb_spec i 10); [lia|].
      destruct (x <? 128) eqn:E2; [|z_bool; lia].
      destruct (Z.eqb_spec i 9); [lia|]. simpl andb. cbv iota.
      rewrite lor_step; [f_equal; lia|lia..|].
      rewrite <- HP. apply Z.mul_lt_mono_pos_r; lia.
Qed.

Lemma Uvarint_AppendUvarint x rest :
  0 <= x < 2 ^ 64 ->
  Uvarint (AppendUvarint [] x ++ rest) = (x, Z.of_nat (length (AppendUvarint [] x))).
Proof.
  intros Hx. unfold Uvarint, AppendUvarint. rewrite app_nil_l.
  pose proof (get_put_uvarint 9 x 0 0 rest) as H. change (7 * 0) with 0 in H.
  rewrite H by (done || lia). f_equal. lia.
Qed.

Lemma put_uvarint_bytes f x : Forall is_byte (put_uvarint f x).
Proof.
  revert x. induction f as [|f IH]; intros x; simpl.
  - constructor; [unfold is_byte; zlia|constructor].
  - destruct (128 <=? x); constructor; auto; [rewrite lor_128|]; unfold is_byte; zlia.
Qed.

Lemma unzigzag_zigzag x : - 2 ^ 63 <= x < 2 ^ 63 -> unzigzag (zigzag x) = x.
Proof.
  intros Hx. unfold unzigzag, zigzag. change (2 ^ 63) with 9223372036854775808 in Hx.
  rewrite Z.shiftl_mul_pow2, (Z.land_ones _ 1), Z.shiftr_div_pow2 by lia.
  unfold wrapu, wraps. change (2 ^ 64) with 18446744073709551616.
  change (2 ^ (64 - 1)) with 9223372036854775808. change (2 ^ 1) with 2.
  destruct (x <? 0) eqn:E; z_bool.
  - destruct (negb _) eqn:E2; z_bool; zlia.
  - destruct (negb _) eqn:E2; z_bool; zlia.
Qed.

Lemma zigzag_range x : - 2 ^ 63 <= x < 2 ^ 63 -> 0 <= zigzag x < 2 ^ 64.
Proof.
  intros Hx. unfold zigzag. change (2 ^ 63) with 9223372036854775808 in Hx.
  rewrite Z.shiftl_mul_pow2 by lia. unfold wrapu.
  change (2 ^ 64) with 18446744073709551616. change (2 ^ 1) with 2.
  destruct (x <? 0) eqn:E; z_bool; zlia.
Qed.

Lemma Varint_AppendVarint x rest :
  - 2 ^ 63 <= x < 2 ^ 63 ->
  Varint (AppendVarint [] x ++ rest) = (x, Z.of_nat (length (AppendVarint [] x))).
Proof.
  intros Hx. unfold Varint, AppendVarint.
  rewrite Uvarint_AppendUvarint by (by apply zigzag_range). by rewrite unzigzag_zigzag.
Qed.

(** What the decoder reports is in range: at most ten bytes, at most the
    buffer, and a 64-bit value. *)
Lemma get_uvarint_range buf i x s v n :
  Forall is_byte buf -> 0 <= i <= 10 -> in_u 64 x ->
  get_uvarint buf i x s = (v, n) -> 0 < n -> in_u 64 v /\ i < n <= i + Z.of_nat (length buf) /\ n <= 10.
Proof.
  assert (forall a b, in_u 64 a -> in_u 64 b -> in_u 64 (Z.lor a b)) as Hlor.
  { unfold in_u. intros a b Ha Hb. split; [apply Z.lor_nonneg; lia|].
    destruct (Z.eq_dec (Z.lor a b) 0) as [->|]; [lia|].
    assert (0 <= Z.lor a b) by (apply Z.lor_nonneg; lia).
    apply Z.log2_lt_pow2; [lia|]. rewrite Z.log2_lor by lia.
    apply Z.max_lub_lt; (destruct (Z.eq_dec a 0), (Z.eq_dec b 0); subst; simpl Z.log2;
      try lia; apply Z.log2_lt_pow2; lia). }
  revert i x s. induction buf as [|b buf IH]; intros i x s Hb Hi Hx H Hn; simpl in H.
  { injection H as <- <-. lia. }
  apply Forall_cons in Hb as [Hb0 Hb].
  destruct (i =? 10) eqn:E0; z_bool; [injection H as <- <-; lia|].
  destruct (b <? 128) eqn:E1.
  - destruct (_ && _) eqn:E2; [injection H as <- <-; lia|]. injection H as <- <-.
    split; [|simpl; lia]. apply Hlor; [done|]. by apply wrapu_range.
  - apply IH in H; [|done|lia| |done]; [destruct H; split; [done|simpl; lia]|]. apply Hlor; [done|]. by apply wrapu_range.
Qed.

Lemma Uvarint_range buf v n :
  Forall is_byte buf -> Uvarint buf = (v, n) -> 0 < n ->
  in_u 64 v /\ n <= Z.of_nat (length buf) /\ n <= 10.
Proof.
  intros Hb H Hn. apply get_uvarint_range in H; [|done|lia|by unfold in_u|done].
  destruct H. split; [done|lia].
Qed.

Lemma unzigzag_range u : 0 <= u < 2 ^ 64 -> - 2 ^ 63 <= unzigzag u < 2 ^ 63.
Proof.
  intros Hu. unfold unzigzag. rewrite (Z.land_ones _ 1), Z.shiftr_div_pow2 by lia.
  unfold wraps. change (2 ^ (64 - 1)) with 9223372036854775808 in *.
  change (2 ^ 64) with 18446744073709551616 in *. change (2 ^ 63) with 9223372036854775808.
  change (2 ^ 1) with 2. destruct (negb _) eqn:E; zlia.
Qed.

(** The encoding is not canonical on the reading side. *)
Example Uvarint_overlong : Uvarint [128; 0] = (0, 2).
Proof. reflexivity. Qed.
