(* ===== verification/Dict.v ===== *)
(** * Dict: the identity dictionary ([internal/aggregate/dict.go])

    Names become dictionary IDs.  [Registrar] is the Go interface that mints
    them and [RegistrarLaws] the contract its comment asks of an
    implementation; [Cache] is the hot-path map in front of it, whose theorems
    are proved against the contract; [MemRegistrar] is the in-memory
    implementation.  A Go method under its mutex is one atomic function on the
    state; a value is a [string] of bytes. *)
From stdpp Require Import sorting.
From S2P Require Import Prelude SeriesKey Varint.
#[local] Open Scope Z_scope.

(** ** Kinds, scopes and bounds *)

(* internal/aggregate/dict.go:55-55 Kind.Valid *)
Definition Kind_Valid (k : Z) : bool := (KindTenant <=? k) && (k <=? KindLogTemplate).

(* internal/aggregate/dict.go:35-44 kindNames *)
Definition kindNames : list string :=
  [""; "tenant"; "service"; "operation"; "metric_name"; "dim_key"; "dim_value"; "dim_tuple"; "log_template"].

(* internal/aggregate/dict.go:47-52 Kind.String *)
Definition Kind_String (k : Z) : string :=
  match kindNames !! Z.to_nat k with
  | Some s => if negb (String.eqb s "") then s else "kind(" +:+ pretty k +:+ ")"
  | None => "kind(" +:+ pretty k +:+ ")"
  end.

(* internal/aggregate/dict.go:60-60 GlobalTenant *)
Definition GlobalTenant : Z := 0.

(* internal/aggregate/dict.go:65-65 OtherValue *)
Definition OtherValue : string := "__other__".

(** [ErrDictFull], the "invalid dictionary kind" error of [Register], and any
    other failure of a registrar. *)
Inductive dict_error := ErrDictFull | ErrInvalidKind (k : Z) | ErrRegistrar.

(* internal/aggregate/dict.go:83-88 DefaultMaxValueBytes *)
Definition DefaultMaxValueBytes : Z := 512.

(* internal/aggregate/dict.go:90-94 DefaultMaxTenantBytes *)
Definition DefaultMaxTenantBytes : Z := 128.

(* internal/aggregate/dict.go:96-99 DefaultMaxTenants *)
Definition DefaultMaxTenants : Z := 256.

(* internal/aggregate/dict.go:116-129 Bounds *)
Record Bounds := mkBounds {
  MaxValueBytes : Z;
  MaxTenantBytes : Z;
  MaxTenants : Z;
  PerTenantKind : gmap Z Z;
  InstanceKind : gmap Z Z;
}.

(* internal/aggregate/dict.go:148-162 cloneKindLimits *)
Definition cloneKindLimits (m : gmap Z Z) : gmap Z Z := filter (fun '(_, v) => 0 < v) m.

(* internal/aggregate/dict.go:132-145 Bounds.withDefaults *)
Definition Bounds_withDefaults (b : Bounds) : Bounds :=
  mkBounds
    (if MaxValueBytes b <=? 0 then DefaultMaxValueBytes else MaxValueBytes b)
    (if MaxTenantBytes b <=? 0 then DefaultMaxTenantBytes else MaxTenantBytes b)
    (if MaxTenants b <=? 0 then DefaultMaxTenants else MaxTenants b)
    (cloneKindLimits (PerTenantKind b))
    (cloneKindLimits (InstanceKind b)).

(* internal/aggregate/dict.go:165-170 Bounds.valueCap *)
Definition valueCap (b : Bounds) (kind : Z) : Z :=
  if kind =? KindTenant then MaxTenantBytes b else MaxValueBytes b.

Abbreviation dictScope := (Z * Z)%type (only parsing).

(* internal/aggregate/dict.go:617-622 DictEntry *)
Record DictEntry := mkDictEntry {
  de_ID : Z;
  de_Tenant : Z;
  de_Kind : Z;
  de_Value : string;
}.

Definition de_scope (e : DictEntry) : dictScope := (de_Tenant e, de_Kind e).

Definition vlen (v : string) : Z := Z.of_nat (String.length v).

(** ** The two-level maps [map[dictScope]map[string]uint32] *)

Abbreviation nmap := (gmap (Z * Z) (gmap string Z)).

Definition nget (m : nmap) (s : dictScope) (v : string) : option Z := inner ← m !! s; inner !! v.

Definition nset (m : nmap) (s : dictScope) (v : string) (id : Z) : nmap :=
  <[s := <[v := id]> (default ∅ (m !! s))]> m.

(** [delete] in the inner map, and the inner map dropped once it is empty. *)
Definition ndel (m : nmap) (s : dictScope) (v : string) : nmap :=
  match m !! s with
  | None => m
  | Some inner => if decide (delete v inner = ∅) then delete s m else <[s := delete v inner]> m
  end.

Lemma nget_nset m s v id s' v' :
  nget (nset m s v id) s' v' = if decide (s = s' /\ v = v') then Some id else nget m s' v'.
Proof.
  unfold nget, nset. destruct (decide (s = s')) as [<-|Hs].
  - rewrite lookup_insert_eq. cbn [mbind option_bind]. destruct (decide (v = v')) as [<-|Hv].
    + rewrite lookup_insert_eq. by destruct (decide _) as [|[]].
    + rewrite lookup_insert_ne by done. destruct (decide _) as [[]|]; [done|].
      by destruct (m !! s).
  - rewrite lookup_insert_ne by done. by destruct (decide _) as [[]|].
Qed.

Lemma nget_ndel m s v s' v' :
  nget (ndel m s v) s' v' = if decide (s = s' /\ v = v') then None else nget m s' v'.
Proof.
  unfold nget, ndel. destruct (m !! s) as [inner|] eqn:E.
  - assert (forall w, delete v inner !! w = if decide (v = w) then None else inner !! w) as Hd
      by (intros w; rewrite lookup_delete; by case_decide).
    destruct (decide (s = s')) as [<-|Hs].
    + destruct (decide (delete v inner = ∅)) as [He|He].
      * rewrite lookup_delete_eq, E. cbn [mbind option_bind]. specialize (Hd v'). rewrite He, lookup_empty in Hd.
        destruct (decide (v = v')); destruct (decide _) as [[]|]; try done; naive_solver.
      * rewrite lookup_insert_eq, E. cbn [mbind option_bind]. rewrite Hd.
        destruct (decide (v = v')); destruct (decide _) as [[]|]; try done; naive_solver.
    + destruct (decide (delete v inner = ∅)); rewrite ?lookup_delete_ne, ?lookup_insert_ne by done;
        by destruct (decide _) as [[]|].
  - destruct (decide _) as [[<- <-]|]; [|done]. by rewrite E.
Qed.

Lemma nget_empty s v : nget ∅ s v = None.
Proof. reflexivity. Qed.

#[export] Hint Rewrite nget_nset nget_ndel nget_empty : otel.

(** ** The registrar interface and its contract *)

(* internal/aggregate/dict.go:182-190 Registrar *)
Class Registrar (R : Type) := {
  Register : R -> Z -> Z -> string -> R * result dict_error Z;
  OtherID : R -> Z -> Z -> R * Z;
}.

(** The optional capabilities the cache asks for by a type assertion; a
    registrar without one answers [None] to the assertion itself. *)
(* internal/aggregate/dict.go:199-202 Resolver *)
Class Resolver (R : Type) := { rLookup : option (R -> Z -> option DictEntry) }.

(* internal/aggregate/dict.go:461-463 identityFinder *)
Class identityFinder (R : Type) := { rFindID : option (R -> Z -> Z -> string -> option Z) }.

(** What the cache relies on.  [resolves r t k v] is the ID [v] has, if any;
    [overflow_id r t k] the pre-created overflow ID of the scope. *)
Class RegistrarLaws (R : Type) `{Registrar R} := {
  reg_inv : R -> Prop;
  resolves : R -> Z -> Z -> string -> option Z;
  overflow_id : R -> Z -> Z -> option Z;
  Register_inv r t k v r' res : Register r t k v = (r', res) -> reg_inv r -> reg_inv r';
  OtherID_inv r t k r' id : OtherID r t k = (r', id) -> reg_inv r -> reg_inv r';
  Register_resolves r t k v r' id : reg_inv r -> Register r t k v = (r', Ok id) -> 0 < id /\ resolves r' t k v = Some id;
  Register_stable r t k v r' res t' k' v' id :
    reg_inv r -> Register r t k v = (r', res) -> resolves r t' k' v' = Some id -> resolves r' t' k' v' = Some id;
  Register_other r t k v r' res t' k' id :
    reg_inv r -> Register r t k v = (r', res) -> overflow_id r t' k' = Some id -> overflow_id r' t' k' = Some id;
  OtherID_stable r t k r' o t' k' v' id :
    reg_inv r -> v' <> OtherValue -> OtherID r t k = (r', o) ->
    resolves r t' k' v' = Some id -> resolves r' t' k' v' = Some id;
  OtherID_other r t k r' o t' k' id :
    reg_inv r -> OtherID r t k = (r', o) -> overflow_id r t' k' = Some id -> overflow_id r' t' k' = Some id;
  OtherID_overflow r t k r' id : reg_inv r -> OtherID r t k = (r', id) -> id = 0 \/ overflow_id r' t k = Some id;
  resolves_inj r t k v t' k' v' id :
    reg_inv r -> v <> OtherValue -> v' <> OtherValue ->
    resolves r t k v = Some id -> resolves r t' k' v' = Some id -> t = t' /\ k = k' /\ v = v';
  overflow_not_named r t k v t' k' id :
    reg_inv r -> v <> OtherValue -> resolves r t k v = Some id -> overflow_id r t' k' = Some id -> False;
  overflow_inj r t k t' k' id :
    reg_inv r -> overflow_id r t k = Some id -> overflow_id r t' k' = Some id -> t = t' /\ k = k';
}.

(** ** The cache *)

(* internal/aggregate/dict.go:213-234 CacheStats *)
Record CacheStats := mkCacheStats {
  Hits : Z;
  Misses : Z;
  Overflows : Z;
  Errors : Z;
  OverLength : Z;
  TenantsRejected : Z;
  Fenced : Z;
}.

(** The atomic increments of the counters. *)
Inductive counter := CHits | CMisses | COverflows | CErrors | COverLength | CTenants | CFenced.

Definition bump (n : counter) (s : CacheStats) : CacheStats :=
  let one (c : bool) v := if c then u64 (v + 1) else v in
  mkCacheStats
    (one match n with CHits => true | _ => false end (Hits s))
    (one match n with CMisses => true | _ => false end (Misses s))
    (one match n with COverflows => true | _ => false end (Overflows s))
    (one match n with CErrors => true | _ => false end (Errors s))
    (one match n with COverLength => true | _ => false end (OverLength s))
    (one match n with CTenants => true | _ => false end (TenantsRejected s))
    (one match n with CFenced => true | _ => false end (Fenced s)).

Section Cache.
Context {R : Type} `{Registrar R} `{Resolver R} `{identityFinder R}.

(** [c_sink] says whether an overflow callback is installed and [c_published]
    what it was called with, newest first. *)
(* internal/aggregate/dict.go:249-276 Cache *)
Record Cache := mkCache {
  c_reg : R;
  c_bounds : Bounds;
  c_ids : nmap;
  c_fenced : gset Z;
  c_fenceOn : bool;
  c_sink : bool;
  c_published : list (Z * string);
  c_stats : CacheStats;
}.

(* internal/aggregate/dict.go:283-289 NewCacheWithBounds *)
Definition NewCacheWithBounds (reg : R) (b : Bounds) : Cache :=
  mkCache reg (Bounds_withDefaults b) ∅ ∅ false false [] (mkCacheStats 0 0 0 0 0 0 0).

(* internal/aggregate/dict.go:280-280 NewCache *)
Definition NewCache (reg : R) : Cache := NewCacheWithBounds reg (mkBounds 0 0 0 ∅ ∅).

(* internal/aggregate/dict.go:296-302 Cache.SetOverflowSink *)
Definition SetOverflowSink (c : Cache) (installed : bool) : Cache :=
  mkCache (c_reg c) (c_bounds c) (c_ids c) (c_fenced c) (c_fenceOn c) installed (c_published c) (c_stats c).

(* internal/aggregate/dict.go:305-309 Cache.recordOverflow *)
Definition recordOverflow (c : Cache) (kind : Z) (bound : string) : Cache :=
  if c_sink c then
    mkCache (c_reg c) (c_bounds c) (c_ids c) (c_fenced c) (c_fenceOn c) (c_sink c) ((kind, bound) :: c_published c) (c_stats c)
  else c.

Definition count (n : counter) (c : Cache) : Cache :=
  mkCache (c_reg c) (c_bounds c) (c_ids c) (c_fenced c) (c_fenceOn c) (c_sink c) (c_published c) (bump n (c_stats c)).

Definition set_reg (c : Cache) (r : R) : Cache :=
  mkCache r (c_bounds c) (c_ids c) (c_fenced c) (c_fenceOn c) (c_sink c) (c_published c) (c_stats c).

Definition set_ids (c : Cache) (m : nmap) : Cache :=
  mkCache (c_reg c) (c_bounds c) m (c_fenced c) (c_fenceOn c) (c_sink c) (c_published c) (c_stats c).

(* internal/aggregate/dict.go:330-348 Cache.lookupCached *)
Definition lookupCached (c : Cache) (s : dictScope) (v : string) : Cache * option Z :=
  match nget (c_ids c) s v with
  | Some id =>
      if c_fenceOn c && bool_decide (id ∈ c_fenced c) then (count CFenced c, None)
      else (count CHits c, Some id)
  | None => (c, None)
  end.

(* internal/aggregate/dict.go:434-436 Cache.OtherID *)
Definition c_OtherID (c : Cache) (t k : Z) : Cache * Z :=
  let '(r, id) := OtherID (c_reg c) t k in (set_reg c r, id).

(* internal/aggregate/dict.go:408-429 Cache.register *)
Definition register (c : Cache) (s : dictScope) (v : string) : Cache * Z :=
  let c := count CMisses c in
  let '(r, res) := Register (c_reg c) s.1 s.2 v in
  let c := set_reg c r in
  match res with
  | Err ErrDictFull => c_OtherID (recordOverflow (count COverflows c) s.2 "count") s.1 s.2
  | Err _ => c_OtherID (count CErrors c) s.1 s.2
  | Ok id => (set_ids c (nset (c_ids c) s v id), id)
  end.

(* internal/aggregate/dict.go:314-326 Cache.Intern *)
Definition Intern (c : Cache) (t k : Z) (v : string) : Cache * Z :=
  let '(c, hit) := lookupCached c (t, k) v in
  match hit with
  | Some id => (c, id)
  | None =>
      if valueCap (c_bounds c) k <? vlen v then
        c_OtherID (recordOverflow (count COverLength c) k "length") t k
      else register c (t, k) v
  end.

(* internal/aggregate/dict.go:353-364 Cache.InternBytes *)
Definition InternBytes (c : Cache) (t k : Z) (v : string) : Cache * Z :=
  let '(c, hit) := lookupCached c (t, k) v in
  match hit with
  | Some id => (c, id)
  | None =>
      if valueCap (c_bounds c) k <? vlen v then
        c_OtherID (recordOverflow (count COverLength c) k "length") t k
      else register c (t, k) v
  end.

(* internal/aggregate/dict.go:379-404 Cache.InternTenant *)
Definition InternTenant (c : Cache) (name : string) : Cache * option Z :=
  let s := (GlobalTenant, KindTenant) in
  let '(c, hit) := lookupCached c s name in
  match hit with
  | Some id => (c, Some id)
  | None =>
      if String.eqb name "" || (MaxTenantBytes (c_bounds c) <? vlen name) then (count CTenants c, None)
      else
        let c := count CMisses c in
        let '(r, res) := Register (c_reg c) GlobalTenant KindTenant name in
        let c := set_reg c r in
        match res with
        | Err _ => (count CTenants c, None)
        | Ok id => if id =? 0 then (count CTenants c, None) else (set_ids c (nset (c_ids c) s name id), Some id)
        end
  end.

(* internal/aggregate/dict.go:441-447 Cache.Lookup *)
Definition c_Lookup (c : Cache) (id : Z) : option DictEntry :=
  match rLookup with Some f => f (c_reg c) id | None => None end.

(* internal/aggregate/dict.go:451-459 Cache.FindID *)
Definition c_FindID (c : Cache) (t k : Z) (v : string) : Cache * option Z :=
  let '(c, hit) := lookupCached c (t, k) v in
  match hit with
  | Some id => (c, Some id)
  | None => (c, match rFindID with Some f => f (c_reg c) t k v | None => None end)
  end.

(* internal/aggregate/dict.go:466-474 Cache.Len *)
Definition c_Len (c : Cache) : Z := map_sum (fun _ inner => Z.of_nat (size inner)) (c_ids c).

(* internal/aggregate/dict.go:498-511 Cache.Fence *)
Definition c_Fence (c : Cache) (ids : gset Z) : Cache :=
  if decide (ids = ∅) then c
  else mkCache (c_reg c) (c_bounds c) (c_ids c) (c_fenced c ∪ ids) true (c_sink c) (c_published c) (c_stats c).

(* internal/aggregate/dict.go:514-519 Cache.Unfence *)
Definition c_Unfence (c : Cache) : Cache :=
  mkCache (c_reg c) (c_bounds c) (c_ids c) ∅ false (c_sink c) (c_published c) (c_stats c).

(* internal/aggregate/dict.go:524-540 Cache.Forget *)
Definition c_Forget (c : Cache) (ids : gset Z) : Cache :=
  if decide (ids = ∅) then c
  else set_ids c (omap (fun inner : gmap string Z =>
         let kept := filter (fun '(_, id) => id ∉ ids) inner in
         if decide (kept = ∅) then None else Some kept) (c_ids c)).

(* internal/aggregate/dict.go:546-556 Cache.Roots *)
Definition c_Roots (c : Cache) : gset Z :=
  map_fold (fun _ inner acc => map_fold (fun _ id acc => {[id]} ∪ acc) acc inner) ∅ (c_ids c).

End Cache.
Arguments Cache : clear implicits.

(** ** Canonical dimension tuples *)

(* internal/aggregate/dict.go:560-563 DimPair *)
Record DimPair := mkDimPair { dp_KeyID : Z; dp_ValueID : Z }.

#[global] Instance DimPair_eq_dec : EqDecision DimPair.
Proof. solve_decision. Defined.

(** The comparison of [slices.SortFunc]: key first, value breaks ties. *)
Definition pair_le (a b : DimPair) : Prop :=
  dp_KeyID a < dp_KeyID b \/ (dp_KeyID a = dp_KeyID b /\ dp_ValueID a <= dp_ValueID b).

#[global] Instance pair_le_dec a b : Decision (pair_le a b).
Proof. unfold pair_le. apply _. Defined.

(* internal/aggregate/dict.go:572-597 AppendCanonicalDims *)
Definition AppendCanonicalDims (dst : bytes) (pairs : list DimPair) : bytes :=
  match pairs with
  | [] => dst
  | _ => foldl (fun dst p => AppendUvarint (AppendUvarint dst (dp_KeyID p)) (dp_ValueID p)) dst (merge_sort pair_le pairs)
  end.

(** [string(bytes)]. *)
Definition str_of_bytes (b : bytes) : string :=
  String.string_of_list_ascii (map (fun x => Ascii.ascii_of_N (Z.to_N x)) b).

(* internal/aggregate/dict.go:607-614 Cache.InternDims *)
Definition InternDims {R} `{Registrar R} (c : Cache R) (t : Z) (pairs : list DimPair) : Cache R * Z :=
  match pairs with
  | [] => (c, 0)
  | _ => InternBytes c t KindDimTuple (str_of_bytes (AppendCanonicalDims [] pairs))
  end.

(** ** The in-memory registrar *)

(* internal/aggregate/dict.go:635-643 MemRegistrar *)
Record MemRegistrar := mkMem {
  m_next : Z;
  m_limits : gmap Z Z;
  m_ids : nmap;
  m_counts : gmap (Z * Z) Z;
  m_other : gmap (Z * Z) Z;
  m_byID : gmap Z DictEntry;
}.

(* internal/aggregate/dict.go:646-661 NewMemRegistrar *)
Definition NewMemRegistrar (limits : gmap Z Z) : MemRegistrar := mkMem 1 limits ∅ ∅ ∅ ∅.

(* internal/aggregate/dict.go:706-725 MemRegistrar.mintLocked *)
Definition m_mintLocked (r : MemRegistrar) (s : dictScope) (v : string) : MemRegistrar * result dict_error Z :=
  if m_next r =? MaxUint32 then (r, Err ErrDictFull)
  else
    let id := m_next r in
    (mkMem (u32 (m_next r + 1)) (m_limits r) (nset (m_ids r) s v id) (m_counts r) (m_other r)
       (<[id := mkDictEntry id s.1 s.2 v]> (m_byID r)), Ok id).

(* internal/aggregate/dict.go:664-683 MemRegistrar.Register *)
Definition m_Register (r : MemRegistrar) (t k : Z) (v : string) : MemRegistrar * result dict_error Z :=
  if negb (Kind_Valid k) then (r, Err (ErrInvalidKind k))
  else
    let s := (t, k) in
    match nget (m_ids r) s v with
    | Some id => (r, Ok id)
    | None =>
        if match m_limits r !! k with Some limit => (0 <? limit) && (limit <=? mget (m_counts r) s) | None => false end
        then (r, Err ErrDictFull)
        else
          match m_mintLocked r s v with
          | (r, Err e) => (r, Err e)
          | (r, Ok id) =>
              (mkMem (m_next r) (m_limits r) (m_ids r) (<[s := mget (m_counts r) s + 1]> (m_counts r)) (m_other r) (m_byID r), Ok id)
          end
    end.

(* internal/aggregate/dict.go:687-703 MemRegistrar.OtherID *)
Definition m_OtherID (r : MemRegistrar) (t k : Z) : MemRegistrar * Z :=
  let s := (t, k) in
  match m_other r !! s with
  | Some id => (r, id)
  | None =>
      match m_mintLocked r s OtherValue with
      | (r, Err _) => (r, 0)
      | (r, Ok id) => (mkMem (m_next r) (m_limits r) (m_ids r) (m_counts r) (<[s := id]> (m_other r)) (m_byID r), id)
      end
  end.

(* internal/aggregate/dict.go:729-734 MemRegistrar.Lookup *)
Definition m_Lookup (r : MemRegistrar) (id : Z) : option DictEntry := m_byID r !! id.

(* internal/aggregate/dict.go:736-741 MemRegistrar.FindID *)
Definition m_FindID (r : MemRegistrar) (t k : Z) (v : string) : option Z := nget (m_ids r) (t, k) v.

(* internal/aggregate/dict.go:745-749 MemRegistrar.Count *)
Definition m_Count (r : MemRegistrar) (t k : Z) : Z := mget (m_counts r) (t, k).

#[global] Instance MemRegistrar_Registrar : Registrar MemRegistrar :=
  {| Register := m_Register; OtherID := m_OtherID |}.
#[global] Instance MemRegistrar_Resolver : Resolver MemRegistrar := {| rLookup := Some m_Lookup |}.
#[global] Instance MemRegistrar_finder : identityFinder MemRegistrar := {| rFindID := Some m_FindID |}.

(** ** The ID table shared by the two registrars

    IDs are minted from one counter; the forward maps point into the reverse
    index. *)

Definition table_inv (next : Z) (ids : nmap) (other : gmap (Z * Z) Z) (byID : gmap Z DictEntry) : Prop :=
  1 <= next <= MaxUint32 /\
  (forall s v id, nget ids s v = Some id -> 0 < id < next /\ byID !! id = Some (mkDictEntry id s.1 s.2 v)) /\
  (forall s id, other !! s = Some id -> 0 < id < next /\ byID !! id = Some (mkDictEntry id s.1 s.2 OtherValue)) /\
  (forall id e, byID !! id = Some e -> 0 < id < next /\ de_ID e = id).

Lemma table_mint next ids other byID s v :
  table_inv next ids other byID -> next <> MaxUint32 ->
  table_inv (u32 (next + 1)) (nset ids s v next) other (<[next := mkDictEntry next s.1 s.2 v]> byID).
Proof.
  intros (Hn & Hi & Ho & Hb) Hne.
  assert (u32 (next + 1) = next + 1) as -> by (apply u32_small; unfold MaxUint32 in *; lia).
  split_and!; [lia|lia| | |].
  - intros s' v' id. rewrite nget_nset. destruct (decide _) as [[<- <-]|].
    + intros [= <-]. split; [lia|]. apply lookup_insert_eq.
    + intros [? ?]%Hi. split; [lia|]. by rewrite lookup_insert_ne by lia.
  - intros s' id [? ?]%Ho. split; [lia|]. by rewrite lookup_insert_ne by lia.
  - intros id e. rewrite lookup_insert. destruct (decide _) as [<-|].
    + intros [= <-]. split; [lia|done].
    + intros [? ?]%Hb. split; [lia|done].
Qed.

Lemma table_other next ids other byID s id :
  table_inv next ids other byID -> byID !! id = Some (mkDictEntry id s.1 s.2 OtherValue) ->
  table_inv next ids (<[s := id]> other) byID.
Proof.
  intros (Hn & Hi & Ho & Hb) He. split_and!; [lia|lia|done| |done].
  intros s' id'. rewrite lookup_insert. destruct (decide _) as [<-|]; [|by apply Ho].
  intros [= <-]. split; [exact (proj1 (Hb _ _ He))|done].
Qed.

Lemma table_inj next ids other byID s v s' v' id :
  table_inv next ids other byID -> nget ids s v = Some id -> nget ids s' v' = Some id -> s = s' /\ v = v'.
Proof.
  intros (_ & Hi & _) [_ H1]%Hi [_ H2]%Hi. rewrite H1 in H2. injection H2 as ? ? ->.
  destruct s, s'. by simplify_eq/=.
Qed.

Lemma table_other_inj next ids other byID s s' id :
  table_inv next ids other byID -> other !! s = Some id -> other !! s' = Some id -> s = s'.
Proof.
  intros (_ & _ & Ho & _) [_ H1]%Ho [_ H2]%Ho. rewrite H1 in H2. injection H2 as ? ?.
  destruct s, s'. by simplify_eq/=.
Qed.

Lemma table_disjoint next ids other byID s v s' id :
  table_inv next ids other byID -> v <> OtherValue -> nget ids s v = Some id -> other !! s' = Some id -> False.
Proof. intros (_ & Hi & Ho & _) Hv [_ H1]%Hi [_ H2]%Ho. rewrite H1 in H2. by injection H2. Qed.

(** ** The in-memory registrar meets the contract *)

Definition m_inv (r : MemRegistrar) : Prop := table_inv (m_next r) (m_ids r) (m_other r) (m_byID r).

Lemma NewMemRegistrar_inv limits : m_inv (NewMemRegistrar limits).
Proof. split_and!; cbn; try done; intros; rewrite ?lookup_empty in *; done. Qed.

(** A registration either changes nothing or mints one new ID. *)
Lemma m_Register_cases r t k v r' res :
  m_Register r t k v = (r', res) ->
  (r' = r /\ forall id, res = Ok id -> nget (m_ids r) (t, k) v = Some id) \/
  (nget (m_ids r) (t, k) v = None /\ m_next r <> MaxUint32 /\ res = Ok (m_next r) /\
   m_next r' = u32 (m_next r + 1) /\ m_ids r' = nset (m_ids r) (t, k) v (m_next r) /\ m_other r' = m_other r /\
   m_byID r' = <[m_next r := mkDictEntry (m_next r) t k v]> (m_byID r)).
Proof.
  unfold m_Register, m_mintLocked. destruct (Kind_Valid k); cbn [negb]; [|intros [= <- <-]; by left].
  destruct (nget _ _ _) as [id|] eqn:E; [intros [= <- <-]; left; split; [done|]; by intros ? [= <-]|].
  destruct (match m_limits r !! k with Some _ => _ | None => _ end); [intros [= <- <-]; by left|].
  destruct (Z.eqb_spec (m_next r) MaxUint32); intros [= <- <-]; [by left|right]. done.
Qed.

Lemma m_OtherID_cases r t k r' id :
  m_OtherID r t k = (r', id) ->
  (r' = r /\ (id = 0 \/ m_other r !! (t, k) = Some id)) \/
  (m_other r !! (t, k) = None /\ m_next r <> MaxUint32 /\ id = m_next r /\
   m_next r' = u32 (m_next r + 1) /\ m_ids r' = nset (m_ids r) (t, k) OtherValue (m_next r) /\
   m_other r' = <[(t, k) := m_next r]> (m_other r) /\
   m_byID r' = <[m_next r := mkDictEntry (m_next r) t k OtherValue]> (m_byID r)).
Proof.
  unfold m_OtherID, m_mintLocked. destruct (m_other r !! _) as [o|]; [intros [= <- <-]; left; eauto|].
  destruct (Z.eqb_spec (m_next r) MaxUint32); intros [= <- <-]; [left; eauto|right]. done.
Qed.

Lemma m_Register_inv r t k v r' res : m_Register r t k v = (r', res) -> m_inv r -> m_inv r'.
Proof.
  intros [[-> _]|(_ & Hne & _ & H1 & H2 & H3 & H4)]%m_Register_cases Hi; [done|].
  unfold m_inv. rewrite H1, H2, H3, H4. by apply (table_mint _ _ _ _ (t, k) v).
Qed.

Lemma m_OtherID_inv r t k r' id : m_OtherID r t k = (r', id) -> m_inv r -> m_inv r'.
Proof.
  intros [[-> _]|(_ & Hne & _ & H1 & H2 & H3 & H4)]%m_OtherID_cases Hi; [done|].
  unfold m_inv. rewrite H1, H2, H3, H4. apply table_other; [by apply (table_mint _ _ _ _ (t, k))|apply lookup_insert_eq].
Qed.

#[global] Program Instance MemRegistrar_laws : RegistrarLaws MemRegistrar := {|
  reg_inv := m_inv;
  resolves := fun r t k v => nget (m_ids r) (t, k) v;
  overflow_id := fun r t k => m_other r !! (t, k);
|}.
Next Obligation. intros; by eapply m_Register_inv. Qed.
Next Obligation. intros; by eapply m_OtherID_inv. Qed.
Next Obligation.
  intros r t k v r' id Hi E. destruct (m_Register_cases _ _ _ _ _ _ E) as [[-> Hres]|(_ & Hne & Hid & H1 & H2 & _)].
  - specialize (Hres id eq_refl). destruct Hi as (_ & Hi & _). split; [exact (proj1 (proj1 (Hi _ _ _ Hres)))|done].
  - injection Hid as ->. rewrite H2, nget_nset, decide_True by done. destruct Hi as (? & _). split; [lia|done].
Qed.
Next Obligation.
  intros r t k v r' res t' k' v' id Hi E Hr.
  destruct (m_Register_cases _ _ _ _ _ _ E) as [[-> _]|(Hn & _ & _ & _ & H2 & _)]; [done|].
  rewrite H2, nget_nset. destruct (decide _) as [[[= -> ->] ->]|]; [congruence|done].
Qed.
Next Obligation.
  intros r t k v r' res t' k' id Hi E Hr.
  destruct (m_Register_cases _ _ _ _ _ _ E) as [[-> _]|(_ & _ & _ & _ & _ & H3 & _)]; [done|by rewrite H3].
Qed.
Next Obligation.
  intros r t k r' o t' k' v' id Hi Hv E Hr.
  destruct (m_OtherID_cases _ _ _ _ _ E) as [[-> _]|(_ & _ & _ & _ & H2 & _)]; [done|].
  rewrite H2, nget_nset. by destruct (decide _) as [[_ ?]|].
Qed.
Next Obligation.
  intros r t k r' o t' k' id Hi E Hr.
  destruct (m_OtherID_cases _ _ _ _ _ E) as [[-> _]|(Hn & _ & _ & _ & _ & H3 & _)]; [done|].
  rewrite H3, lookup_insert. destruct (decide _) as [[= -> ->]|]; [congruence|done].
Qed.
Next Obligation.
  intros r t k r' id Hi E.
  destruct (m_OtherID_cases _ _ _ _ _ E) as [[-> Ho]|(_ & _ & -> & _ & _ & H3 & _)]; [done|].
  right. by rewrite H3, lookup_insert_eq.
Qed.
Next Obligation. intros r t k v t' k' v' id Hi _ _ H1 H2. destruct (table_inj _ _ _ _ _ _ _ _ _ Hi H1 H2) as [[= -> ->] ->]. done. Qed.
Next Obligation. intros r t k v t' k' id Hi Hv H1 H2. exact (table_disjoint _ _ _ _ _ _ _ _ Hi Hv H1 H2). Qed.
Next Obligation. intros r t k t' k' id Hi H1 H2. by injection (table_other_inj _ _ _ _ _ _ _ Hi H1 H2). Qed.

(** ** The cache over any registrar that meets the contract *)

Section CacheLaws.
Context {R : Type} `{HR : Registrar R} `{!RegistrarLaws R}.
Implicit Types c : Cache R.

(** Every cached ID is the one the registrar would give. *)
Definition cache_inv (c : Cache R) : Prop :=
  reg_inv (c_reg c) /\
  forall s v id, v <> OtherValue -> nget (c_ids c) s v = Some id -> 0 < id /\ resolves (c_reg c) s.1 s.2 v = Some id.

(** Named and overflow identities, once given, stay. *)
Definition extends (c c' : Cache R) : Prop :=
  (forall t k v id, v <> OtherValue -> resolves (c_reg c) t k v = Some id -> resolves (c_reg c') t k v = Some id) /\
  (forall t k id, overflow_id (c_reg c) t k = Some id -> overflow_id (c_reg c') t k = Some id).

#[global] Instance extends_preorder : PreOrder extends.
Proof. split; [by intros c|intros c1 c2 c3 [A B] [C D]; split; eauto]. Qed.

(** What an ID handed out for [(t, k, v)] is: nothing, the value's own
    identity, or the overflow identity of its scope. *)
Definition given (c : Cache R) (t k : Z) (v : string) (id : Z) : Prop :=
  id = 0 \/ resolves (c_reg c) t k v = Some id \/ overflow_id (c_reg c) t k = Some id.

Lemma given_extends c c' t k v id : v <> OtherValue -> extends c c' -> given c t k v id -> given c' t k v id.
Proof. intros Hv [A B] [?|[?|?]]; unfold given; eauto. Qed.

(** Bookkeeping leaves the registrar and the map alone. *)
Definition same_store (c c' : Cache R) : Prop := c_reg c' = c_reg c /\ c_ids c' = c_ids c.

Lemma same_store_inv c c' : same_store c c' -> cache_inv c -> cache_inv c'.
Proof. intros [E1 E2]. unfold cache_inv. by rewrite E1, E2. Qed.

Lemma same_store_extends c c' : same_store c c' -> extends c c'.
Proof. intros [E1 E2]. unfold extends. by rewrite E1. Qed.

Lemma count_same n c : same_store c (count n c).
Proof. done. Qed.

Lemma recordOverflow_same c k b : same_store c (recordOverflow c k b).
Proof. unfold recordOverflow. by destruct (c_sink c). Qed.

Lemma lookupCached_same c s v c' o : lookupCached c s v = (c', o) -> same_store c c'.
Proof. unfold lookupCached. repeat case_match; by intros [= <- <-]. Qed.

Lemma lookupCached_hit c s v c' id : lookupCached c s v = (c', Some id) -> nget (c_ids c) s v = Some id.
Proof. unfold lookupCached. repeat case_match; intros; by simplify_eq. Qed.

Lemma c_OtherID_sound c t k c' id :
  c_OtherID c t k = (c', id) -> cache_inv c ->
  cache_inv c' /\ extends c c' /\ (id = 0 \/ overflow_id (c_reg c') t k = Some id).
Proof.
  unfold c_OtherID. destruct (OtherID (c_reg c) t k) as [r o] eqn:E. intros [= <- <-] [Hr Hc]. cbn.
  split_and!.
  - split; [by eapply OtherID_inv|]. intros s v id Hv Hs. destruct (Hc s v id Hv Hs). split; [done|].
    by eapply OtherID_stable.
  - split; intros; [by eapply OtherID_stable|by eapply OtherID_other].
  - by eapply OtherID_overflow.
Qed.

Lemma Register_step c t k v r res :
  Register (c_reg c) t k v = (r, res) -> cache_inv c -> cache_inv (set_reg c r) /\ extends c (set_reg c r).
Proof.
  intros E [Hr Hc]. split; [split|split]; cbn.
  - by eapply Register_inv.
  - intros s w id Hw Hs. destruct (Hc s w id Hw Hs). split; [done|]. by eapply Register_stable.
  - intros. by eapply Register_stable.
  - intros. by eapply Register_other.
Qed.

(** A successful registration stored in the map. *)
Lemma store_sound c t k v r id :
  Register (c_reg c) t k v = (r, Ok id) -> cache_inv c ->
  cache_inv (set_ids (set_reg c r) (nset (c_ids c) (t, k) v id)) /\ 0 < id /\ resolves r t k v = Some id.
Proof.
  intros E Hi. destruct (Register_resolves _ _ _ _ _ _ (proj1 Hi) E) as [Hp Hres].
  destruct (Register_step _ _ _ _ _ _ E Hi) as [[Hr Hc] _]. split; [|done]. split; [done|]. cbn in *.
  intros s w id' Hw. rewrite nget_nset. destruct (decide _) as [[<- <-]|]; [by intros [= <-]|by apply Hc].
Qed.

Lemma register_sound c t k v c' id :
  register c (t, k) v = (c', id) -> cache_inv c -> cache_inv c' /\ extends c c' /\ given c' t k v id.
Proof.
  unfold register. cbn [fst snd]. set (c1 := count CMisses c). intros E Hi.
  assert (cache_inv c1) as H1 by exact Hi. assert (extends c c1) as X1 by (by apply same_store_extends).
  destruct (Register (c_reg c1) t k v) as [r res] eqn:Er.
  destruct (Register_step _ _ _ _ _ _ Er H1) as [H2 X2]. destruct res as [i|e].
  - injection E as <- <-. destruct (store_sound _ _ _ _ _ _ Er H1) as (H3 & Hp & Hres). split_and!; [done| |].
    + etrans; [exact X1|]. exact X2.
    + right. left. exact Hres.
  - assert (forall c2, same_store (set_reg c1 r) c2 -> c_OtherID c2 t k = (c', id) ->
      cache_inv c' /\ extends c c' /\ given c' t k v id) as Hother.
    { intros c2 Hs Ho. destruct (c_OtherID_sound _ _ _ _ _ Ho) as (A & B & C); [by eapply same_store_inv|].
      split_and!; [done| |unfold given; tauto].
      etrans; [exact X1|]. etrans; [exact X2|]. etrans; [apply same_store_extends, Hs|exact B]. }
    destruct e; (eapply Hother; [|exact E]); try done.
    unfold recordOverflow. by destruct (c_sink _).
Qed.

(** Either interning entry point: a hit, an over-length value, or a miss. *)
Lemma Intern_sound c t k v c' id :
  Intern c t k v = (c', id) -> v <> OtherValue -> cache_inv c ->
  cache_inv c' /\ extends c c' /\ given c' t k v id.
Proof.
  unfold Intern. intros E Hv Hi. destruct (lookupCached c (t, k) v) as [c1 [i|]] eqn:El.
  - injection E as <- <-. pose proof (lookupCached_same _ _ _ _ _ El) as Hs.
    split_and!; [by eapply same_store_inv|by apply same_store_extends|].
    apply lookupCached_hit in El. destruct Hi as [_ Hc]. destruct (Hc _ _ _ Hv El) as [_ ?].
    right. left. destruct Hs as [-> _]. done.
  - pose proof (lookupCached_same _ _ _ _ _ El) as Hs.
    assert (cache_inv c1) as H1 by (by eapply same_store_inv).
    assert (extends c c1) as X1 by (by apply same_store_extends).
    destruct (valueCap _ k <? vlen v).
    + assert (same_store c1 (recordOverflow (count COverLength c1) k "length")) as Hs2
        by (unfold recordOverflow; by destruct (c_sink _)).
      apply c_OtherID_sound in E as (A & B & C); [|by eapply same_store_inv].
      split_and!; [done| |unfold given; tauto].
      etrans; [exact X1|]. etrans; [by apply same_store_extends|done].
    + destruct (register_sound _ _ _ _ _ _ E H1) as (A & B & C). split_and!; [done|by etrans|done].
Qed.

Lemma InternTenant_sound c name c' o :
  InternTenant c name = (c', o) -> name <> OtherValue -> cache_inv c ->
  cache_inv c' /\ extends c c' /\
  forall id, o = Some id -> 0 < id /\ resolves (c_reg c') GlobalTenant KindTenant name = Some id.
Proof.
  unfold InternTenant. intros E Hv Hi. destruct (lookupCached c _ name) as [c1 [i|]] eqn:El.
  - injection E as <- <-. pose proof (lookupCached_same _ _ _ _ _ El) as Hs.
    split_and!; [by eapply same_store_inv|by apply same_store_extends|].
    intros id [= <-]. apply lookupCached_hit in El. destruct Hi as [_ Hc]. destruct Hs as [-> _]. apply (Hc _ _ _ Hv El).
  - pose proof (lookupCached_same _ _ _ _ _ El) as Hs.
    assert (cache_inv c1) as H1 by (by eapply same_store_inv).
    assert (extends c c1) as X1 by (by apply same_store_extends).
    destruct (_ || _); [injection E as <- <-; by split_and!|].
    destruct (Register _ _ _ _) as [r res] eqn:Er. cbn [c_reg count] in Er.
    destruct (Register_step _ _ _ _ _ _ Er H1) as [H2 X2].
    destruct res as [i|e].
    + destruct (store_sound _ _ _ _ _ _ Er H1) as (H3 & Hp & Hres).
      destruct (Z.eqb_spec i 0); [lia|]. injection E as <- <-. split_and!; [exact H3| |by intros ? [= <-]].
      etrans; [exact X1|exact X2].
    + injection E as <- <-. split_and!; [exact H2| |done]. etrans; [exact X1|exact X2].
Qed.

(** *** Runs of the cache *)

Inductive cop :=
| CopIntern (t k : Z) (v : string)
| CopBytes (t k : Z) (v : string)
| CopTenant (name : string)
| CopOther (t k : Z)
| CopFence (ids : gset Z)
| CopUnfence.

(** The ID given, with the identity it was asked for. *)
Definition cop_step (c : Cache R) (op : cop) : Cache R * list (Z * Z * string * Z) :=
  match op with
  | CopIntern t k v => let '(c, id) := Intern c t k v in (c, [(t, k, v, id)])
  | CopBytes t k v => let '(c, id) := InternBytes c t k v in (c, [(t, k, v, id)])
  | CopTenant name =>
      match InternTenant c name with
      | (c, Some id) => (c, [(GlobalTenant, KindTenant, name, id)])
      | (c, None) => (c, [])
      end
  | CopOther t k => let '(c, id) := c_OtherID c t k in (c, [])
  | CopFence ids => (c_Fence c ids, [])
  | CopUnfence => (c_Unfence c, [])
  end.

Fixpoint cop_run (c : Cache R) (ops : list cop) : Cache R * list (Z * Z * string * Z) :=
  match ops with
  | [] => (c, [])
  | op :: ops => let '(c, out) := cop_step c op in let '(c', outs) := cop_run c ops in (c', out ++ outs)
  end.

(** No value interned is the reserved one. *)
Definition unreserved (op : cop) : Prop :=
  match op with
  | CopIntern _ _ v | CopBytes _ _ v | CopTenant v => v <> OtherValue
  | _ => True
  end.

Definition all_given (c : Cache R) (out : list (Z * Z * string * Z)) : Prop :=
  Forall (fun '(t, k, v, id) => v <> OtherValue /\ given c t k v id) out.

Lemma all_given_extends c c' out : extends c c' -> all_given c out -> all_given c' out.
Proof.
  intros X Hout. eapply Forall_impl; [exact Hout|]. intros [[[t k] v] id] [Hv Hg]. split; [done|]. by eapply given_extends.
Qed.

Lemma cop_step_sound c op c' out :
  cop_step c op = (c', out) -> unreserved op -> cache_inv c ->
  cache_inv c' /\ extends c c' /\ all_given c' out.
Proof.
  intros E Hu Hi. destruct op as [t k v|t k v|name|t k|ids|]; cbn [cop_step unreserved] in *.
  - destruct (Intern c t k v) as [c1 id] eqn:E1. injection E as <- <-.
    destruct (Intern_sound _ _ _ _ _ _ E1 Hu Hi) as (? & ? & ?). split_and!; [done..|]. by apply Forall_singleton.
  - destruct (InternBytes c t k v) as [c1 id] eqn:E1. injection E as <- <-.
    destruct (Intern_sound _ _ _ _ _ _ E1 Hu Hi) as (? & ? & ?). split_and!; [done..|]. by apply Forall_singleton.
  - destruct (InternTenant c name) as [c1 o] eqn:E1.
    destruct (InternTenant_sound _ _ _ _ E1 Hu Hi) as (? & ? & Hg).
    destruct o as [id|]; injection E as <- <-; split_and!; try done; [|constructor].
    apply Forall_singleton. split; [done|]. right. left. by apply (Hg id).
  - destruct (c_OtherID c t k) as [c1 id] eqn:E1. injection E as <- <-.
    destruct (c_OtherID_sound _ _ _ _ _ E1 Hi) as (? & ? & _). split_and!; [done..|constructor].
  - injection E as <- <-. assert (same_store c (c_Fence c ids)) by (unfold c_Fence; by case_decide).
    split_and!; [by eapply same_store_inv|by apply same_store_extends|constructor].
  - injection E as <- <-. split_and!; [exact Hi|done|constructor].
Qed.

Lemma cop_run_sound ops : forall c c' out,
  cop_run c ops = (c', out) -> Forall unreserved ops -> cache_inv c ->
  cache_inv c' /\ extends c c' /\ all_given c' out.
Proof.
  induction ops as [|op ops IH]; intros c c' out; cbn [cop_run].
  - intros [= <- <-] _ Hi. split_and!; [done|done|constructor].
  - destruct (cop_step c op) as [c1 o1] eqn:E1. destruct (cop_run c1 ops) as [c2 o2] eqn:E2.
    intros [= <- <-] Hu Hi. apply Forall_cons_1 in Hu as [Hu1 Hu2].
    destruct (cop_step_sound _ _ _ _ E1) as (H1 & X1 & G1); [done..|].
    destruct (IH _ _ _ E2) as (H2 & X2 & G2); [done..|].
    split_and!; [done|by etrans|]. apply Forall_app. split; [by eapply all_given_extends|done].
Qed.

Lemma NewCacheWithBounds_inv reg b : reg_inv reg -> cache_inv (NewCacheWithBounds reg b).
Proof. intros Hr. split; [done|]. cbn. intros. by rewrite nget_empty in *. Qed.

(** C16: identities never merge.  Behind the cache of any registrar that
    meets the contract, over any sequence of interning calls for strings,
    byte tuples and tenants, fences and releases, two calls that were given
    the same dictionary ID asked for the same (tenant, kind, value), or both
    were given the overflow identity of one (tenant, kind) scope.  Only the
    reserved value ["__other__"] itself is outside this guarantee. *)
Theorem identities_never_merge reg b ops c' out t1 k1 v1 t2 k2 v2 id :
  reg_inv reg -> Forall unreserved ops -> cop_run (NewCacheWithBounds reg b) ops = (c', out) ->
  (t1, k1, v1, id) ∈ out -> (t2, k2, v2, id) ∈ out -> id <> 0 ->
  (t1, k1, v1) = (t2, k2, v2) \/
  (t1 = t2 /\ k1 = k2 /\ overflow_id (c_reg c') t1 k1 = Some id).
Proof.
  intros Hr Hu E H1 H2 Hid.
  destruct (cop_run_sound _ _ _ _ E Hu (NewCacheWithBounds_inv reg b Hr)) as ([Hr' _] & _ & G).
  unfold all_given in G. rewrite Forall_forall in G.
  destruct (G _ H1) as (V1 & [?|[G1|G1]]); [done| |]; destruct (G _ H2) as (V2 & [?|[G2|G2]]); try done.
  - left. destruct (resolves_inj _ _ _ _ _ _ _ _ Hr' V1 V2 G1 G2) as (-> & -> & ->). done.
  - exfalso. exact (overflow_not_named _ _ _ _ _ _ _ Hr' V1 G1 G2).
  - exfalso. exact (overflow_not_named _ _ _ _ _ _ _ Hr' V2 G2 G1).
  - right. by destruct (overflow_inj _ _ _ _ _ _ Hr' G1 G2) as [-> ->].
Qed.

End CacheLaws.

(** A run against the in-memory registrar, two services allowed: the third
    service and the over-long one share the overflow identity. *)
Definition demo_ops : list cop :=
  [CopTenant "acme"; CopIntern 1 KindService "api"; CopIntern 1 KindService "web"; CopIntern 1 KindService "api";
   CopIntern 1 KindService "db"; CopIntern 1 KindService "cache"; CopBytes 1 KindDimTuple "x"].

Definition demo_cache : Cache MemRegistrar :=
  NewCacheWithBounds (NewMemRegistrar {[KindService := 2]}) (mkBounds 0 0 0 ∅ ∅).

Lemma identities_never_merge_witness :
  snd (cop_run demo_cache demo_ops) =
    [(0, 1, "acme", 1); (1, 2, "api", 2); (1, 2, "web", 3); (1, 2, "api", 2); (1, 2, "db", 4); (1, 2, "cache", 4); (1, 7, "x", 5)] /\
  ((1, 2, "api") = (1, 2, "api") \/
   (1 = 1 /\ 2 = 2 /\ overflow_id (c_reg (fst (cop_run demo_cache demo_ops))) 1 2 = Some 2)) /\
  ((1, 2, "db") = (1, 2, "cache") \/
   (1 = 1 /\ 2 = 2 /\ overflow_id (c_reg (fst (cop_run demo_cache demo_ops))) 1 2 = Some 4)).
Proof.
  split; [by vm_compute|]. split.
  - apply (identities_never_merge (NewMemRegistrar {[KindService := 2]}) (mkBounds 0 0 0 ∅ ∅) demo_ops
             (fst (cop_run demo_cache demo_ops)) (snd (cop_run demo_cache demo_ops)) 1 2 "api" 1 2 "api" 2).
    + apply NewMemRegistrar_inv.
    + by repeat constructor.
    + by vm_compute.
    + apply list_elem_of_lookup. exists 1%nat. by vm_compute.
    + apply list_elem_of_lookup. exists 3%nat. by vm_compute.
    + lia.
  - apply (identities_never_merge (NewMemRegistrar {[KindService := 2]}) (mkBounds 0 0 0 ∅ ∅) demo_ops
             (fst (cop_run demo_cache demo_ops)) (snd (cop_run demo_cache demo_ops)) 1 2 "db" 1 2 "cache" 4).
    + apply NewMemRegistrar_inv.
    + by repeat constructor.
    + by vm_compute.
    + apply list_elem_of_lookup. exists 4%nat. by vm_compute.
    + apply list_elem_of_lookup. exists 5%nat. by vm_compute.
    + lia.
Defined.
