(* ===== verification/Dims.v ===== *)
(** * Dims: configured metric dimensions ([internal/aggregate/dims_config.go])

    A metric may be configured with a tuple of attribute keys that enter its
    series identity.  The tuple of a point is read from the point's attributes
    and, for a key the point lacks, from the resource's.  An attribute is a
    protobuf [KeyValue]; what the code reads of one is modelled, with a nil
    pointer as [None].  [strconv.AppendFloat] with the shortest format stays a
    parameter ([FloatText]). *)
From S2P Require Import Prelude Float64 SeriesKey Dict.
#[local] Open Scope Z_scope.

(** The [oneof] of an OTLP [AnyValue]; [Composite] is an array, a key-value
    list or bytes, [Unset] a value with no alternative set. *)
Inductive AnyValue :=
| StringValue (s : string)
| IntValue (i : Z)
| BoolValue (b : bool)
| DoubleValue (f : f64)
| Unset
| Composite.

Record KeyValue := mkKeyValue { kv_Key : string; kv_Value : option AnyValue }.

Abbreviation attributes := (list (option KeyValue)) (only parsing).

Class FloatText := { AppendFloat : f64 -> string }.

(* internal/aggregate/dims_config.go:13-13 DimsConfig *)
Definition DimsConfig : Type := gmap string (list string).

(* internal/aggregate/dims_config.go:17-19 DimsConfig.Get *)
Definition Get (d : DimsConfig) (metricName : string) : list string := default [] (d !! metricName).

(** The map of the attributes with a non-empty string value, later ones
    replacing earlier ones. *)
Definition attrMap (attrs : attributes) : gmap string string :=
  foldl (fun m kv =>
    match kv with
    | Some (mkKeyValue key (Some (StringValue sv))) => if String.eqb sv "" then m else <[key := sv]> m
    | _ => m
    end) ∅ attrs.

(* internal/aggregate/dims_config.go:25-54 DimsConfig.ExtractDimensionValues *)
Definition ExtractDimensionValues (d : DimsConfig) (metricName : string) (attrs : attributes) : option (list string) :=
  match d !! metricName with
  | None => None
  | Some keys => mapM (fun key => attrMap attrs !! key) keys
  end.

Section Interning.
Context {R : Type} `{Registrar R}.

Definition intern_pairs (c : Cache R) (tenantID : Z) (kvs : list (string * string)) : Cache R * list DimPair :=
  foldl (fun acc kv =>
    let '(c, keyID) := Intern acc.1 tenantID KindDimKey kv.1 in
    let '(c, valueID) := Intern c tenantID KindDimValue kv.2 in
    (c, acc.2 ++ [mkDimPair keyID valueID])) (c, []) kvs.

(* internal/aggregate/dims_config.go:63-75 InternDimValues *)
Definition InternDimValues (c : Cache R) (tenantID : Z) (keys values : list string) : Cache R * Z :=
  if (Z.of_nat (length keys) =? 0) || negb (Z.of_nat (length keys) =? Z.of_nat (length values)) then (c, 0)
  else
    let '(c, pairs) := intern_pairs c tenantID (zip keys values) in
    InternDims c tenantID pairs.
End Interning.

(* internal/aggregate/dims_config.go:88-88 MaxDimensionKeys *)
Definition MaxDimensionKeys : Z := 16.
Definition DimsRejectUnsupportedValue : string := "unsupported_value_type".

Section Scanning.
Context `{FloatText}.

(* internal/aggregate/dims_config.go:184-206 dimScratch.scalarValue *)
Definition scalarValue (v : AnyValue) : string * bool :=
  match v with
  | StringValue s => (s, true)
  | IntValue i => (pretty i, true)
  | BoolValue b => (if b then "true" else "false", true)
  | DoubleValue f => (AppendFloat f, true)
  | Unset => ("", true)
  | Composite => ("", false)
  end.

(** The scratch: [vals] and [found] of the first [n] slots. *)
Abbreviation dimScratch := (list (option string)).

(** The first slot that is still empty and has this key. *)
Fixpoint slot_of (keys : list string) (s : dimScratch) (key : string) : option nat :=
  match keys, s with
  | k :: keys, o :: s =>
      if match o with None => String.eqb k key | Some _ => false end then Some O
      else S <$> slot_of keys s key
  | _, _ => None
  end.

(* internal/aggregate/dims_config.go:147-178 dimScratch.scan *)
Fixpoint scan (keys : list string) (attrs : attributes) (s : dimScratch) (remaining : Z) : dimScratch * Z * bool :=
  match attrs with
  | [] => (s, remaining, false)
  | kv :: attrs =>
      match kv with
      | Some (mkKeyValue key (Some v)) =>
          if remaining =? 0 then scan keys attrs s remaining
          else
            match slot_of keys s key with
            | None => scan keys attrs s remaining
            | Some idx =>
                let '(text, scalar) := scalarValue v in
                if negb scalar then (s, remaining, true)
                else if String.eqb text "" then scan keys attrs s remaining
                else scan keys attrs (<[idx := Some text]> s) (remaining - 1)
            end
      | _ => scan keys attrs s remaining
      end
  end.

(** The results of [resolveWith]: the values, [rejected] and [ok]. *)
(* internal/aggregate/dims_config.go:120-142 dimScratch.resolveWith *)
Definition resolveWith (keys : list string) (attrs resourceAttrs : attributes) : option (list string) * bool * bool :=
  let n := Z.of_nat (length keys) in
  if (n =? 0) || (MaxDimensionKeys <? n) then (None, false, false)
  else
    let '(s, remaining, rejected) := scan keys attrs (replicate (length keys) None) n in
    if rejected then (None, true, false)
    else
      let '(s, remaining, rejected) :=
        if negb (remaining =? 0) && (0 <? Z.of_nat (length resourceAttrs)) then scan keys resourceAttrs s remaining
        else (s, remaining, false) in
      if rejected then (None, true, false)
      else if negb (remaining =? 0) then (None, false, false)
      else (Some (default "" <$> s), false, true).

(* internal/aggregate/dims_config.go:105-107 dimScratch.resolve *)
Definition resolve (keys : list string) (attrs : attributes) : option (list string) * bool * bool := resolveWith keys attrs [].

(** ** What a key is bound to

    The first attribute under the key that carries something: a scalar text,
    or a value without one ([None]). *)
Fixpoint bound (key : string) (attrs : attributes) : option (option string) :=
  match attrs with
  | [] => None
  | Some (mkKeyValue k (Some v)) :: attrs =>
      if String.eqb k key then
        let '(text, scalar) := scalarValue v in
        if negb scalar then Some None else if String.eqb text "" then bound key attrs else Some (Some text)
      else bound key attrs
  | _ :: attrs => bound key attrs
  end.

(** Point first, resource second. *)
Definition binding (attrs resourceAttrs : attributes) (key : string) : option (option string) :=
  match bound key attrs with Some x => Some x | None => bound key resourceAttrs end.

(** The reference: all keys or nothing, and a rejection as soon as one key is
    bound to something without a scalar text. *)
Definition resolved (keys : list string) (attrs resourceAttrs : attributes) : option (list string) * bool * bool :=
  if bool_decide (Exists (fun key => binding attrs resourceAttrs key = Some None) keys) then (None, true, false)
  else match mapM (fun key => mjoin (binding attrs resourceAttrs key)) keys with
  | Some vals => (Some vals, false, true)
  | None => (None, false, false)
  end.

(** ** The scan fills every slot its attributes bind *)

Definition empties (s : list (option string)) : Z := Z.of_nat (length (filter (.= None) s)).

Definition fill (attrs : attributes) (key : string) (o : option string) : option string :=
  match o with Some v => Some v | None => mjoin (bound key attrs) end.

Lemma slot_of_some keys : forall s key i, slot_of keys s key = Some i -> keys !! i = Some key /\ s !! i = Some None.
Proof.
  induction keys as [|k keys IH]; intros [|o s] key i; cbn [slot_of]; try done.
  destruct o as [v|]; [|destruct (String.eqb_spec k key) as [->|_]]; [| by intros [= <-] |].
  all: destruct (slot_of keys s key) as [j|] eqn:E; cbn; intros [= <-]; exact (IH _ _ _ E).
Qed.

Lemma slot_of_none keys : forall s key i k, slot_of keys s key = None -> keys !! i = Some k -> s !! i = Some None -> k <> key.
Proof.
  induction keys as [|k0 keys IH]; intros [|o s] key [|i] k; cbn [slot_of]; try done.
  - intros Hn [= ->] [= ->]. by destruct (String.eqb_spec k key).
  - intros Hn Hk Hs. destruct (match o with None => _ | _ => _ end); [done|].
    destruct (slot_of keys s key) eqn:E; [done|]. by eapply IH.
Qed.

Lemma empties_insert s i v : s !! i = Some None -> empties (<[i := Some v]> s) = empties s - 1.
Proof.
  unfold empties. revert i. induction s as [|o s IH]; intros [|i] Hi; [done|done| |].
  - injection Hi as ->. change (<[0%nat := Some v]> (None :: s)) with (Some v :: s).
    rewrite filter_cons_False, filter_cons_True by done. cbn [length]. lia.
  - change (<[S i := Some v]> (o :: s)) with (o :: <[i := Some v]> s). specialize (IH i Hi).
    rewrite !filter_cons. destruct (decide _); cbn [length]; lia.
Qed.

Lemma empties_zero s i : empties s = 0 -> s !! i <> Some None.
Proof.
  unfold empties. intros He Hi. assert (None ∈ filter (.= None) s) as Hin.
  { apply list_elem_of_filter. split; [done|]. by apply list_elem_of_lookup_2 in Hi. }
  destruct (filter (.= None) s); [by apply elem_of_nil in Hin|cbn in He; lia].
Qed.

Lemma scan_full keys attrs s : scan keys attrs s 0 = (s, 0, false).
Proof. induction attrs as [|[[key [v|]]|] attrs IH]; cbn [scan]; done. Qed.

(** One more attribute in front matters only to its own key. *)
Lemma bound_other k v key attrs : k <> key -> bound key (Some (mkKeyValue k v) :: attrs) = bound key attrs.
Proof. intros Hne. destruct v; cbn [bound]; [|done]. by destruct (String.eqb_spec k key). Qed.

Lemma scan_spec keys attrs : NoDup keys -> forall s, length s = length keys ->
  let '(s', remaining, rejected) := scan keys attrs s (empties s) in
  (rejected = true <-> exists i key, keys !! i = Some key /\ s !! i = Some None /\ bound key attrs = Some None) /\
  (rejected = false -> remaining = empties s' /\ length s' = length keys /\
     forall i key o, keys !! i = Some key -> s !! i = Some o -> s' !! i = Some (fill attrs key o)).
Proof.
  intros Hnd. induction attrs as [|kv attrs IH]; intros s Hlen.
  - cbn [scan]. split; [split; [done|]; intros (? & ? & _ & _ & ?); done|]. intros _. split_and!; try done.
    by intros i key [v|] _ ->.
  - destruct (decide (empties s = 0)) as [He|He].
    { rewrite He, scan_full. split; [split; [done|]; intros (i & ? & _ & ? & _); by destruct (empties_zero s i)|].
      intros _. split_and!; [done|done|]. intros i key [v|] _ Hs; [done|by destruct (empties_zero s i)]. }
    destruct kv as [[key [v|]]|]; [|exact (IH s Hlen)|exact (IH s Hlen)].
    cbn [scan]. destruct (Z.eqb_spec (empties s) 0); [done|].
    destruct (slot_of keys s key) as [idx|] eqn:Es.
    + apply slot_of_some in Es as [Hk Hs].
      assert (forall i, keys !! i = Some key -> i = idx) as Huniq by (intros i Hi; by eapply NoDup_lookup).
      destruct (scalarValue v) as [text scalar] eqn:Ev. destruct scalar; cbn [negb].
      2: { split; [|done]. split; [intros _|done]. exists idx, key. split_and!; [done|done|]. cbn [bound].
           by rewrite String.eqb_refl, Ev. }
      destruct (String.eqb_spec text "") as [Ht|Ht].
      * assert (forall k, bound k (Some (mkKeyValue key (Some v)) :: attrs) = bound k attrs) as Hb.
        { intros k. cbn [bound]. rewrite Ev. destruct (String.eqb_spec key k); [|done]. cbn. by rewrite Ht. }
        specialize (IH s Hlen). destruct (scan keys attrs s (empties s)) as [[s' rem] rej]. destruct IH as [IH1 IH2].
        split; [by setoid_rewrite Hb|]. intros Hrej. destruct (IH2 Hrej) as (Hrem & Hl & Hv). split_and!; [done|done|].
        intros i k o Hi Hsi. rewrite (Hv i k o Hi Hsi). unfold fill. by rewrite Hb.
      * specialize (IH (<[idx := Some text]> s) ltac:(by rewrite length_insert)). rewrite empties_insert in IH by done.
        destruct (scan keys attrs _ _) as [[s' rem] rej]. destruct IH as [IH1 IH2].
        assert (bound key (Some (mkKeyValue key (Some v)) :: attrs) = Some (Some text)) as Hown.
        { cbn [bound]. rewrite String.eqb_refl, Ev. cbn. by destruct (String.eqb_spec text ""). }
        split.
        -- rewrite IH1. split; intros (i & k & Hi & Hsi & Hb); exists i, k.
           ++ destruct (decide (i = idx)) as [->|Hne]; [by rewrite list_lookup_insert_eq in Hsi by (by apply lookup_lt_Some in Hs)|].
              rewrite list_lookup_insert_ne in Hsi by done. split_and!; [done|done|]. rewrite bound_other; [done|].
              intros ->. by apply Hne, Huniq.
           ++ assert (i <> idx) as Hne by (intros ->; rewrite Hk in Hi; injection Hi as <-; congruence).
              rewrite list_lookup_insert_ne by done. split_and!; [done|done|]. rewrite bound_other in Hb; [done|].
              intros ->. by apply Hne, Huniq.
        -- intros Hrej. destruct (IH2 Hrej) as (Hrem & Hl & Hv). split_and!; [done|done|]. intros i k o Hi Hsi.
           destruct (decide (i = idx)) as [->|Hne].
           ++ assert (k = key) as -> by congruence. assert (o = None) as -> by congruence.
              rewrite (Hv idx key (Some text) Hk) by (apply list_lookup_insert_eq; by apply lookup_lt_Some in Hs).
              unfold fill. by rewrite Hown.
           ++ rewrite (Hv i k o Hi) by (by rewrite list_lookup_insert_ne). unfold fill. destruct o; [done|].
              rewrite bound_other; [done|]. intros ->. by apply Hne, Huniq.
    + specialize (IH s Hlen). destruct (scan keys attrs s (empties s)) as [[s' rem] rej]. destruct IH as [IH1 IH2].
      assert (forall i k, keys !! i = Some k -> s !! i = Some None -> bound k (Some (mkKeyValue key (Some v)) :: attrs) = bound k attrs) as Hb.
      { intros i k Hi Hsi. apply bound_other. intros ->. by apply (slot_of_none _ _ _ _ _ Es Hi Hsi). }
      split.
      * rewrite IH1. split; intros (i & k & Hi & Hsi & Hbk); exists i, k; split_and!; try done; specialize (Hb i k Hi Hsi); congruence.
      * intros Hrej. destruct (IH2 Hrej) as (Hrem & Hl & Hv). split_and!; [done|done|]. intros i k [w|] Hi Hsi.
        -- by rewrite (Hv i k (Some w) Hi Hsi).
        -- rewrite (Hv i k None Hi Hsi). unfold fill. by rewrite (Hb i k Hi Hsi).
Qed.

Lemma mapM_empties {A} (f : A -> option string) l :
  mapM f l = if empties (f <$> l) =? 0 then Some (default "" <$> (f <$> l)) else None.
Proof.
  induction l as [|x l IH]; [done|]. cbn [mapM fmap list_fmap]. rewrite IH. unfold empties. rewrite filter_cons.
  destruct (f x) as [v|] eqn:Ef; cbn [mbind option_bind].
  - rewrite decide_False by done. by destruct (_ =? 0).
  - rewrite decide_True by done. cbn [length]. by destruct (Z.eqb_spec (Z.of_nat (S (length (filter (.= None) (f <$> l))))) 0); [lia|].
Qed.

(** Reading the configured dimensions of a point.  For a tuple of 1 to 16
    distinct keys the two scans over a fixed scratch give what the definition
    by keys gives: each key is bound to the first attribute of the point, or
    else of the resource, that carries something; the tuple is refused as
    soon as one key is bound to a value without a scalar text, absent unless
    every key is bound, and otherwise the texts in key order. *)
Theorem resolve_spec keys attrs resourceAttrs :
  NoDup keys -> 0 < Z.of_nat (length keys) <= MaxDimensionKeys ->
  resolveWith keys attrs resourceAttrs = resolved keys attrs resourceAttrs.
Proof.
  intros Hnd Hn. unfold resolveWith. cbv zeta.
  destruct (Z.eqb_spec (Z.of_nat (length keys)) 0); [lia|]. destruct (Z.ltb_spec MaxDimensionKeys (Z.of_nat (length keys))); [lia|]. cbn [orb].
  assert (empties (replicate (length keys) None) = Z.of_nat (length keys)) as Hall.
  { generalize (length keys) as m. clear. unfold empties. intros m. induction m as [|m IH]; [done|]. cbn [replicate].
    rewrite filter_cons_True by done. cbn [length]. lia. }
  pose proof (scan_spec keys attrs Hnd (replicate (length keys) None) ltac:(apply length_replicate)) as S1. rewrite Hall in S1.
  destruct (scan keys attrs _ _) as [[s1 rem1] rej1]. destruct S1 as [R1 V1]. unfold resolved.
  destruct rej1.
  { destruct (proj1 R1 eq_refl) as (i & key & Hk & _ & Hb). rewrite bool_decide_true; [done|].
    apply Exists_exists. exists key. split; [by apply list_elem_of_lookup_2 in Hk|]. unfold binding. by rewrite Hb. }
  destruct (V1 eq_refl) as (-> & L1 & W1).
  assert (forall i key, keys !! i = Some key -> bound key attrs <> Some None) as Hnot.
  { intros i key Hk Hb. assert (false = true); [|done]. apply R1. exists i, key. split_and!; [done| |done].
    apply lookup_replicate. split; [done|]. by apply lookup_lt_Some in Hk. }
  assert (forall i key, keys !! i = Some key -> s1 !! i = Some (mjoin (bound key attrs))) as W.
  { intros i key Hk. apply (W1 i key None Hk). apply lookup_replicate. split; [done|]. by apply lookup_lt_Some in Hk. }
  assert ((if negb (empties s1 =? 0) && (0 <? Z.of_nat (length resourceAttrs)) then scan keys resourceAttrs s1 (empties s1)
           else (s1, empties s1, false)) = scan keys resourceAttrs s1 (empties s1)) as ->.
  { destruct (Z.eqb_spec (empties s1) 0) as [->|_]; [by rewrite scan_full|]. by destruct resourceAttrs. }
  pose proof (scan_spec keys resourceAttrs Hnd s1 L1) as S2.
  destruct (scan keys resourceAttrs s1 _) as [[s2 rem2] rej2]. destruct S2 as [R2 V2].
  assert (rej2 = bool_decide (Exists (fun key => binding attrs resourceAttrs key = Some None) keys)) as ->.
  { apply eq_true_iff_eq. rewrite R2, bool_decide_eq_true, Exists_exists. split.
    - intros (i & key & Hk & Hs & Hb). exists key. split; [by apply list_elem_of_lookup_2 in Hk|]. unfold binding.
      rewrite (W i key Hk) in Hs. pose proof (Hnot i key Hk). by destruct (bound key attrs) as [[]|].
    - intros (key & [i Hk]%list_elem_of_lookup & Hb). exists i, key. pose proof (Hnot i key Hk). unfold binding in Hb.
      rewrite (W i key Hk). by destruct (bound key attrs) as [[]|]. }
  case_bool_decide; [done|]. destruct (V2 eq_refl) as (-> & L2 & W2).
  assert (s2 = (fun key => mjoin (binding attrs resourceAttrs key)) <$> keys) as ->.
  { apply list_eq_same_length with (length keys); [by rewrite length_fmap|done|]. intros i x y _ Hx Hy.
    rewrite list_lookup_fmap in Hy. destruct (keys !! i) as [key|] eqn:Hk; [|done]. injection Hy as <-.
    rewrite (W2 i key _ Hk (W i key Hk)) in Hx. injection Hx as <-. pose proof (Hnot i key Hk). unfold fill, binding.
    by destruct (bound key attrs) as [[]|]. }
  rewrite mapM_empties. by destruct (_ =? 0).
Qed.

End Scanning.

(** A point with [host.name] on the resource, and an array under a configured
    key. *)
Definition demo_text : FloatText := {| AppendFloat := fun _ => "1.5" |}.

Lemma resolve_spec_witness :
  let attrs := [Some (mkKeyValue "zone" (Some (StringValue ""))); None; Some (mkKeyValue "zone" (Some (IntValue (-7))))] in
  let resource := [Some (mkKeyValue "host" (Some (BoolValue true))); Some (mkKeyValue "zone" (Some Composite))] in
  @resolveWith demo_text ["host"; "zone"] attrs resource = (Some ["true"; "-7"], false, true) /\
  @resolveWith demo_text ["host"; "zone"] attrs resource = @resolved demo_text ["host"; "zone"] attrs resource /\
  @resolveWith demo_text ["host"; "zone"] [] resource = (None, true, false).
Proof.
  split; [by vm_compute|]. split; [|by vm_compute]. apply (@resolve_spec demo_text); [|by vm_compute].
  apply (bool_decide_unpack _). by vm_compute.
Defined.
