(* ===== verification/Registrar.v ===== *)
(** * Registrar: durable identities ([internal/aggregate/registrar.go])

    The registrar and the series registry mint IDs in memory and stage the
    rows that make them durable; a group commit drains the staged rows.  Both
    keep what a garbage-collection sweep has to spare: the staged rows, the
    overflow entries, and everything handed out since the last sweep
    ([touched]).  The store is seen through what it loads at startup. *)
From stdpp Require Import sorting.
From S2P Require Import Prelude SeriesKey Dict.
#[local] Open Scope Z_scope.

(** A dictionary row has the fields of a dictionary entry; Go converts one
    into the other. *)
Abbreviation DictRow := DictEntry.

(* internal/aggregate/store.go:161-164 SeriesRow *)
Record SeriesRow := mkSeriesRow { sr_ID : Z; sr_Key : SeriesKey }.

(* internal/aggregate/registrar.go:137-141 PreloadError *)
Inductive load_error := PreloadError (Table : string) (Rows Max : Z) | StoreError (msg : string).

(* internal/aggregate/store.go:77-80 MaxDictRows *)
Definition MaxDictRows : Z := 2000000.
Definition MaxSeriesRows : Z := 500000.

(** ** The dictionary registrar *)

(* internal/aggregate/registrar.go:28-56 DurableRegistrar *)
Record DurableRegistrar := mkDurable {
  d_next : Z;
  d_ids : nmap;
  d_other : gmap (Z * Z) Z;
  d_pending : gmap Z DictRow;
  d_bounds : Bounds;
  d_counts : gmap (Z * Z) Z;
  d_kindCounts : gmap Z Z;
  d_tenants : Z;
  d_byID : gmap Z DictEntry;
  d_touched : gset Z;
  d_fenced : gset Z;
}.

Definition touch (r : DurableRegistrar) (id : Z) : DurableRegistrar :=
  mkDurable (d_next r) (d_ids r) (d_other r) (d_pending r) (d_bounds r) (d_counts r) (d_kindCounts r) (d_tenants r)
    (d_byID r) ({[id]} ∪ d_touched r) (d_fenced r).

Definition set_counts (r : DurableRegistrar) counts kindCounts tenants : DurableRegistrar :=
  mkDurable (d_next r) (d_ids r) (d_other r) (d_pending r) (d_bounds r) counts kindCounts tenants
    (d_byID r) (d_touched r) (d_fenced r).

Definition set_other (r : DurableRegistrar) other : DurableRegistrar :=
  mkDurable (d_next r) (d_ids r) other (d_pending r) (d_bounds r) (d_counts r) (d_kindCounts r) (d_tenants r)
    (d_byID r) (d_touched r) (d_fenced r).

Definition set_next (r : DurableRegistrar) next : DurableRegistrar :=
  mkDurable next (d_ids r) (d_other r) (d_pending r) (d_bounds r) (d_counts r) (d_kindCounts r) (d_tenants r)
    (d_byID r) (d_touched r) (d_fenced r).

Definition set_pending (r : DurableRegistrar) pending : DurableRegistrar :=
  mkDurable (d_next r) (d_ids r) (d_other r) pending (d_bounds r) (d_counts r) (d_kindCounts r) (d_tenants r)
    (d_byID r) (d_touched r) (d_fenced r).

Definition set_marks (r : DurableRegistrar) touched fenced : DurableRegistrar :=
  mkDurable (d_next r) (d_ids r) (d_other r) (d_pending r) (d_bounds r) (d_counts r) (d_kindCounts r) (d_tenants r)
    (d_byID r) touched fenced.

(** One more capacity-consuming entry of a scope. *)
Definition charge (r : DurableRegistrar) (s : dictScope) : DurableRegistrar :=
  set_counts r (<[s := mget (d_counts r) s + 1]> (d_counts r))
    (<[s.2 := mget (d_kindCounts r) s.2 + 1]> (d_kindCounts r))
    (if s.2 =? KindTenant then d_tenants r + 1 else d_tenants r).

(** One row of the warm-up loop. *)
Definition load_row (r : DurableRegistrar) (row : DictRow) : DurableRegistrar :=
  let s := de_scope row in
  let r :=
    mkDurable (d_next r) (nset (d_ids r) s (de_Value row) (de_ID row)) (d_other r) (d_pending r) (d_bounds r)
      (d_counts r) (d_kindCounts r) (d_tenants r) (<[de_ID row := row]> (d_byID r)) (d_touched r) (d_fenced r) in
  let r := if String.eqb (de_Value row) OtherValue then set_other r (<[s := de_ID row]> (d_other r)) else charge r s in
  if d_next r <=? de_ID row then set_next r (u32 (de_ID row + 1)) else r.

Definition emptyDurable (b : Bounds) : DurableRegistrar :=
  mkDurable 1 ∅ ∅ ∅ (Bounds_withDefaults b) ∅ ∅ 0 ∅ ∅ ∅.

(** The store as the constructors use it: a loader that takes a row limit
    and, when the store has the capability, its two watermarks. *)
Record LoadStore := mkLoadStore {
  LoadDict : Z -> result load_error (list DictRow);
  LoadSeries : Z -> result load_error (list SeriesRow);
  Watermarks : option (result load_error (Z * Z));
}.

(* internal/aggregate/registrar.go:73-132 NewDurableRegistrarWithBounds *)
Definition NewDurableRegistrarWithBounds (store : option LoadStore) (b : Bounds) : result load_error DurableRegistrar :=
  match store with
  | None => Ok (emptyDurable b)
  | Some st =>
      let? rows := LoadDict st (MaxDictRows + 1) in
      if MaxDictRows <? Z.of_nat (length rows) then Err (PreloadError "aggregate_dict" (Z.of_nat (length rows)) MaxDictRows)
      else
        let r := foldl load_row (emptyDurable b) rows in
        match Watermarks st with
        | None => Ok r
        | Some wm => let? w := wm in Ok (if d_next r <? w.1 then set_next r w.1 else r)
        end
  end.

(* internal/aggregate/registrar.go:61-63 NewDurableRegistrar *)
Definition NewDurableRegistrar (store : option LoadStore) (limits : gmap Z Z) : result load_error DurableRegistrar :=
  NewDurableRegistrarWithBounds store (mkBounds 0 0 0 limits ∅).

(* internal/aggregate/registrar.go:240-257 DurableRegistrar.mintLocked *)
Definition d_mintLocked (r : DurableRegistrar) (s : dictScope) (v : string) : DurableRegistrar * result dict_error Z :=
  if d_next r =? MaxUint32 then (r, Err ErrDictFull)
  else
    let id := d_next r in
    let row := mkDictEntry id s.1 s.2 v in
    (mkDurable (u32 (d_next r + 1)) (nset (d_ids r) s v id) (d_other r) (<[id := row]> (d_pending r)) (d_bounds r)
       (d_counts r) (d_kindCounts r) (d_tenants r) (<[id := row]> (d_byID r)) ({[id]} ∪ d_touched r) (d_fenced r), Ok id).

(** A limit that is present and reached. *)
Definition reached (limits : gmap Z Z) (kind : Z) (n : Z) : bool :=
  match limits !! kind with Some limit => limit <=? n | None => false end.

(* internal/aggregate/registrar.go:202-213 DurableRegistrar.capsLocked *)
Definition capsLocked (r : DurableRegistrar) (s : dictScope) (kind : Z) : bool :=
  (kind =? KindTenant) && (MaxTenants (d_bounds r) <=? d_tenants r)
  || reached (PerTenantKind (d_bounds r)) kind (mget (d_counts r) s)
  || reached (InstanceKind (d_bounds r)) kind (mget (d_kindCounts r) kind).

(* internal/aggregate/registrar.go:158-198 DurableRegistrar.Register *)
Definition d_Register (r : DurableRegistrar) (t k : Z) (v : string) : DurableRegistrar * result dict_error Z :=
  if negb (Kind_Valid k) then (r, Err (ErrInvalidKind k))
  else if vlen v =? 0 then (r, Err ErrDictFull)
  else if valueCap (d_bounds r) k <? vlen v then (r, Err ErrDictFull)
  else
    let s := (t, k) in
    match nget (d_ids r) s v with
    | Some id =>
        if bool_decide (id ∈ d_fenced r) then (r, Err ErrDictFull) else (touch r id, Ok id)
    | None =>
        if capsLocked r s k then (r, Err ErrDictFull)
        else
          match d_mintLocked r s v with
          | (r, Err e) => (r, Err e)
          | (r, Ok id) => (charge r s, Ok id)
          end
    end.

(* internal/aggregate/registrar.go:217-237 DurableRegistrar.OtherID *)
Definition d_OtherID (r : DurableRegistrar) (t k : Z) : DurableRegistrar * Z :=
  if k =? KindTenant then (r, 0)
  else
    let s := (t, k) in
    match d_other r !! s with
    | Some id => (touch r id, id)
    | None =>
        match d_mintLocked r s OtherValue with
        | (r, Err _) => (r, 0)
        | (r, Ok id) => (set_other r (<[s := id]> (d_other r)), id)
        end
    end.

(* internal/aggregate/registrar.go:262-270 DurableRegistrar.Lookup *)
Definition d_Lookup (r : DurableRegistrar) (id : Z) : option DictEntry :=
  if bool_decide (id ∈ d_fenced r) then None else d_byID r !! id.

(* internal/aggregate/registrar.go:272-278 DurableRegistrar.FindID *)
Definition d_FindID (r : DurableRegistrar) (t k : Z) (v : string) : option Z :=
  match nget (d_ids r) (t, k) v with
  | Some id => if bool_decide (id ∈ d_fenced r) then None else Some id
  | None => None
  end.

Definition row_le (a b : DictRow) : Prop := de_ID a <= de_ID b.

#[global] Instance row_le_dec a b : Decision (row_le a b).
Proof. unfold row_le. apply _. Defined.

(* internal/aggregate/registrar.go:283-295 DurableRegistrar.DrainPending *)
Definition d_DrainPending (r : DurableRegistrar) : list DictRow :=
  merge_sort row_le (snd <$> map_to_list (d_pending r)).

(* internal/aggregate/registrar.go:298-307 DurableRegistrar.Committed *)
Definition d_Committed (r : DurableRegistrar) (rows : list DictRow) : DurableRegistrar :=
  set_pending r (foldl (fun p row => delete (de_ID row) p) (d_pending r) rows).

(* internal/aggregate/registrar.go:310-314 DurableRegistrar.PendingCount *)
Definition d_PendingCount (r : DurableRegistrar) : Z := Z.of_nat (size (d_pending r)).

(* internal/aggregate/registrar.go:151-155 DurableRegistrar.Next *)
Definition d_Next (r : DurableRegistrar) : Z := d_next r.

(** The values of a map, as a set. *)
Definition range_of {K} `{Countable K} (m : gmap K Z) : gset Z := list_to_set (snd <$> map_to_list m).

(* internal/aggregate/registrar.go:449-463 DurableRegistrar.Roots *)
Definition d_Roots (r : DurableRegistrar) : gset Z :=
  dom (d_pending r) ∪ range_of (d_other r) ∪ d_touched r.

(* internal/aggregate/registrar.go:469-481 DurableRegistrar.Fence *)
Definition d_Fence (r : DurableRegistrar) (ids : gset Z) : DurableRegistrar :=
  if decide (ids = ∅) then r else set_marks r (d_touched r) (d_fenced r ∪ ids).

(* internal/aggregate/registrar.go:484-488 DurableRegistrar.Unfence *)
Definition d_Unfence (r : DurableRegistrar) : DurableRegistrar := set_marks r (d_touched r) ∅.

(* internal/aggregate/registrar.go:494-507 DurableRegistrar.Revalidate *)
Definition d_Revalidate (r : DurableRegistrar) (candidates : gset Z) : gset Z :=
  filter (fun id => id ∉ dom (d_pending r) /\ id ∉ d_touched r) candidates ∖ range_of (d_other r).

(** One ID of the [Forget] loop. *)
Definition forget_one (r : DurableRegistrar) (id : Z) : DurableRegistrar :=
  match d_byID r !! id with
  | None => r
  | Some e =>
      let s := de_scope e in
      mkDurable (d_next r) (ndel (d_ids r) s (de_Value e)) (d_other r) (d_pending r) (d_bounds r)
        (if 0 <? mget (d_counts r) s then
           (if mget (d_counts r) s - 1 =? 0 then delete s (d_counts r) else <[s := mget (d_counts r) s - 1]> (d_counts r))
         else d_counts r)
        (if 0 <? mget (d_kindCounts r) s.2 then <[s.2 := mget (d_kindCounts r) s.2 - 1]> (d_kindCounts r) else d_kindCounts r)
        (if (s.2 =? KindTenant) && (0 <? d_tenants r) then d_tenants r - 1 else d_tenants r)
        (delete id (d_byID r)) (d_touched r) (d_fenced r)
  end.

(* internal/aggregate/registrar.go:511-542 DurableRegistrar.Forget *)
Definition d_Forget (r : DurableRegistrar) (ids : gset Z) : DurableRegistrar :=
  set_marks (foldl forget_one r (elements ids)) ∅ ∅.

(* internal/aggregate/registrar.go:547-551 DurableRegistrar.ClearTouched *)
Definition d_ClearTouched (r : DurableRegistrar) : DurableRegistrar := set_marks r ∅ (d_fenced r).

#[global] Instance Durable_Registrar : Registrar DurableRegistrar :=
  {| Register := d_Register; OtherID := d_OtherID |}.
#[global] Instance Durable_Resolver : Resolver DurableRegistrar := {| rLookup := Some d_Lookup |}.
#[global] Instance Durable_finder : identityFinder DurableRegistrar := {| rFindID := Some d_FindID |}.

(** ** The series registry *)

(* internal/aggregate/registrar.go:323-332 seriesRegistry *)
Record seriesRegistry := mkSeriesRegistry {
  s_next : Z;
  s_ids : gmap SeriesKey Z;
  s_keys : gmap Z SeriesKey;
  s_pending : gmap Z SeriesRow;
  s_touched : gset Z;
}.

Definition load_series (r : seriesRegistry) (row : SeriesRow) : seriesRegistry :=
  mkSeriesRegistry (if s_next r <=? sr_ID row then i64 (sr_ID row + 1) else s_next r)
    (<[sr_Key row := sr_ID row]> (s_ids r)) (<[sr_ID row := sr_Key row]> (s_keys r)) (s_pending r) (s_touched r).

(* internal/aggregate/registrar.go:335-370 newSeriesRegistry *)
Definition newSeriesRegistry (store : option LoadStore) : result load_error seriesRegistry :=
  let r0 := mkSeriesRegistry 1 ∅ ∅ ∅ ∅ in
  match store with
  | None => Ok r0
  | Some st =>
      let? rows := LoadSeries st (MaxSeriesRows + 1) in
      if MaxSeriesRows <? Z.of_nat (length rows) then Err (PreloadError "aggregate_series" (Z.of_nat (length rows)) MaxSeriesRows)
      else
        let r := foldl load_series r0 rows in
        match Watermarks st with
        | None => Ok r
        | Some wm =>
            let? w := wm in
            Ok (if s_next r <? w.2 then mkSeriesRegistry w.2 (s_ids r) (s_keys r) (s_pending r) (s_touched r) else r)
        end
  end.

(* internal/aggregate/registrar.go:373-387 seriesRegistry.Resolve *)
Definition s_Resolve (r : seriesRegistry) (key : SeriesKey) : seriesRegistry * Z :=
  match s_ids r !! key with
  | Some id => (mkSeriesRegistry (s_next r) (s_ids r) (s_keys r) (s_pending r) ({[id]} ∪ s_touched r), id)
  | None =>
      let id := s_next r in
      (mkSeriesRegistry (i64 (s_next r + 1)) (<[key := id]> (s_ids r)) (<[id := key]> (s_keys r))
         (<[id := mkSeriesRow id key]> (s_pending r)) ({[id]} ∪ s_touched r), id)
  end.

(* internal/aggregate/registrar.go:391-395 seriesRegistry.Next *)
Definition s_Next (r : seriesRegistry) : Z := s_next r.

(* internal/aggregate/registrar.go:398-403 seriesRegistry.Key *)
Definition s_Key (r : seriesRegistry) (id : Z) : option SeriesKey := s_keys r !! id.

Definition srow_le (a b : SeriesRow) : Prop := sr_ID a <= sr_ID b.

#[global] Instance srow_le_dec a b : Decision (srow_le a b).
Proof. unfold srow_le. apply _. Defined.

(* internal/aggregate/registrar.go:406-418 seriesRegistry.DrainPending *)
Definition s_DrainPending (r : seriesRegistry) : list SeriesRow :=
  merge_sort srow_le (snd <$> map_to_list (s_pending r)).

(* internal/aggregate/registrar.go:421-430 seriesRegistry.Committed *)
Definition s_Committed (r : seriesRegistry) (rows : list SeriesRow) : seriesRegistry :=
  mkSeriesRegistry (s_next r) (s_ids r) (s_keys r) (foldl (fun p row => delete (sr_ID row) p) (s_pending r) rows) (s_touched r).

(* internal/aggregate/registrar.go:561-570 seriesRegistry.rootsLocked *)
Definition s_Roots (r : seriesRegistry) : gset Z := dom (s_pending r) ∪ s_touched r.

(* internal/aggregate/registrar.go:581-589 seriesRegistry.revalidateLocked *)
Definition s_revalidateLocked (r : seriesRegistry) (candidates : gset Z) : gset Z :=
  filter (fun id => id ∉ dom (s_pending r) /\ id ∉ s_touched r) candidates.

(** One ID of the [forgetLocked] loop. *)
Definition s_forget_one (r : seriesRegistry) (id : Z) : seriesRegistry :=
  match s_keys r !! id with
  | None => r
  | Some key =>
      mkSeriesRegistry (s_next r)
        (if decide (s_ids r !! key = Some id) then delete key (s_ids r) else s_ids r)
        (delete id (s_keys r)) (s_pending r) (s_touched r)
  end.

(* internal/aggregate/registrar.go:593-605 seriesRegistry.forgetLocked *)
Definition s_forgetLocked (r : seriesRegistry) (ids : gset Z) : seriesRegistry :=
  let r := foldl s_forget_one r (elements ids) in
  mkSeriesRegistry (s_next r) (s_ids r) (s_keys r) (s_pending r) ∅.

(* internal/aggregate/registrar.go:608-610 seriesRegistry.clearTouchedLocked *)
Definition s_clearTouchedLocked (r : seriesRegistry) : seriesRegistry :=
  mkSeriesRegistry (s_next r) (s_ids r) (s_keys r) (s_pending r) ∅.

(** ** What the operations do to the tables *)

Definition d_inv (r : DurableRegistrar) : Prop := table_inv (d_next r) (d_ids r) (d_other r) (d_byID r).

(** The state after minting the next ID for [(s, v)]. *)
Definition minted (r : DurableRegistrar) (s : dictScope) (v : string) : DurableRegistrar :=
  let id := d_next r in
  let row := mkDictEntry id s.1 s.2 v in
  mkDurable (u32 (d_next r + 1)) (nset (d_ids r) s v id) (d_other r) (<[id := row]> (d_pending r)) (d_bounds r)
    (d_counts r) (d_kindCounts r) (d_tenants r) (<[id := row]> (d_byID r)) ({[id]} ∪ d_touched r) (d_fenced r).

Inductive register_case (r : DurableRegistrar) (t k : Z) (v : string) : DurableRegistrar -> result dict_error Z -> Prop :=
| RegRefused e : register_case r t k v r (Err e)
| RegKnown id : nget (d_ids r) (t, k) v = Some id -> id ∉ d_fenced r -> register_case r t k v (touch r id) (Ok id)
| RegMinted :
    nget (d_ids r) (t, k) v = None -> capsLocked r (t, k) k = false -> d_next r <> MaxUint32 ->
    register_case r t k v (charge (minted r (t, k) v) (t, k)) (Ok (d_next r)).

Lemma d_Register_case r t k v r' res : d_Register r t k v = (r', res) -> register_case r t k v r' res.
Proof.
  unfold d_Register. destruct (Kind_Valid k); cbn [negb]; [|intros [= <- <-]; constructor].
  destruct (vlen v =? 0); [intros [= <- <-]; constructor|].
  destruct (valueCap _ k <? vlen v); [intros [= <- <-]; constructor|].
  destruct (nget (d_ids r) (t, k) v) as [id|] eqn:E.
  - case_bool_decide; intros [= <- <-]; by constructor.
  - destruct (capsLocked r (t, k) k) eqn:Ec; [intros [= <- <-]; constructor|].
    unfold d_mintLocked. destruct (Z.eqb_spec (d_next r) MaxUint32); intros [= <- <-]; by constructor.
Qed.

Inductive other_case (r : DurableRegistrar) (t k : Z) : DurableRegistrar -> Z -> Prop :=
| OtherNone : other_case r t k r 0
| OtherKnown id : d_other r !! (t, k) = Some id -> other_case r t k (touch r id) id
| OtherMinted :
    k <> KindTenant -> d_other r !! (t, k) = None -> d_next r <> MaxUint32 ->
    other_case r t k (set_other (minted r (t, k) OtherValue) (<[(t, k) := d_next r]> (d_other r))) (d_next r).

Lemma d_OtherID_case r t k r' id : d_OtherID r t k = (r', id) -> other_case r t k r' id.
Proof.
  unfold d_OtherID. destruct (Z.eqb_spec k KindTenant); [intros [= <- <-]; constructor|].
  destruct (d_other r !! (t, k)) eqn:E; [intros [= <- <-]; by constructor|].
  unfold d_mintLocked. destruct (Z.eqb_spec (d_next r) MaxUint32); intros [= <- <-]; by constructor.
Qed.

Lemma minted_inv r s v : d_inv r -> d_next r <> MaxUint32 -> d_inv (minted r s v).
Proof. intros. by apply table_mint. Qed.

Lemma d_Register_inv r t k v r' res : d_Register r t k v = (r', res) -> d_inv r -> d_inv r'.
Proof. intros [| |? ? ?]%d_Register_case Hi; [done|done|]. by apply (minted_inv r). Qed.

Lemma d_OtherID_inv r t k r' id : d_OtherID r t k = (r', id) -> d_inv r -> d_inv r'.
Proof.
  intros [| |? ? ?]%d_OtherID_case Hi; [done|done|].
  apply table_other; [by apply (minted_inv r)|apply lookup_insert_eq].
Qed.

(** ** The durable registrar meets the cache's contract *)

#[global] Program Instance Durable_laws : RegistrarLaws DurableRegistrar := {|
  reg_inv := d_inv;
  resolves := fun r t k v => nget (d_ids r) (t, k) v;
  overflow_id := fun r t k => d_other r !! (t, k);
|}.
Next Obligation. intros; by eapply d_Register_inv. Qed.
Next Obligation. intros; by eapply d_OtherID_inv. Qed.
Next Obligation.
  intros r t k v r' id Hi E. apply d_Register_case in E. inversion E as [|id' Hn|Hn]; subst.
  - split; [|done]. destruct Hi as (_ & Hi & _). exact (proj1 (proj1 (Hi _ _ _ Hn))).
  - cbn. rewrite nget_nset, decide_True by done. destruct Hi as (? & _). split; [lia|done].
Qed.
Next Obligation.
  intros r t k v r' res t' k' v' id Hi E Hr. apply d_Register_case in E. inversion E as [|id' Hn|Hn]; subst; [done|done|].
  cbn. rewrite nget_nset. destruct (decide _) as [[[= -> ->] ->]|]; [congruence|done].
Qed.
Next Obligation.
  intros r t k v r' res t' k' id Hi E Hr. apply d_Register_case in E. by inversion E; subst.
Qed.
Next Obligation.
  intros r t k r' o t' k' v' id Hi Hv E Hr. apply d_OtherID_case in E. inversion E; subst; [done|done|].
  cbn. rewrite nget_nset. by destruct (decide _) as [[_ ?]|].
Qed.
Next Obligation.
  intros r t k r' o t' k' id Hi E Hr. apply d_OtherID_case in E. inversion E; subst; [done|done|].
  cbn. rewrite lookup_insert. destruct (decide _) as [[= -> ->]|]; [congruence|done].
Qed.
Next Obligation.
  intros r t k r' id Hi E. apply d_OtherID_case in E. inversion E; subst; [by left|by right|right].
  cbn. by rewrite lookup_insert_eq.
Qed.
Next Obligation. intros r t k v t' k' v' id Hi _ _ H1 H2. destruct (table_inj _ _ _ _ _ _ _ _ _ Hi H1 H2) as [[= -> ->] ->]. done. Qed.
Next Obligation. intros r t k v t' k' id Hi Hv H1 H2. exact (table_disjoint _ _ _ _ _ _ _ _ Hi Hv H1 H2). Qed.
Next Obligation. intros r t k t' k' id Hi H1 H2. by injection (table_other_inj _ _ _ _ _ _ _ Hi H1 H2). Qed.

(** ** The full invariant

    It holds as long as nobody interns the reserved value: the reverse index
    and the forward maps are inverse to each other, staged rows are indexed,
    and the three census counters are exact. *)

Definition entry_in (s : dictScope) (_ : Z) (e : DictEntry) : Z :=
  if decide (de_scope e = s /\ de_Value e <> OtherValue) then 1 else 0.
Definition entry_of (k : Z) (_ : Z) (e : DictEntry) : Z :=
  if decide (de_Kind e = k /\ de_Value e <> OtherValue) then 1 else 0.

Record d_full (r : DurableRegistrar) : Prop := {
  df_inv : d_inv r;
  df_back : forall id e, d_byID r !! id = Some e -> nget (d_ids r) (de_scope e) (de_Value e) = Some id;
  df_other : forall id e, d_byID r !! id = Some e -> de_Value e = OtherValue -> d_other r !! de_scope e = Some id;
  df_pending : forall id e, d_pending r !! id = Some e -> d_byID r !! id = Some e;
  df_counts : forall s, mget (d_counts r) s = map_sum (entry_in s) (d_byID r);
  df_kinds : forall k, mget (d_kindCounts r) k = map_sum (entry_of k) (d_byID r);
  df_tenants : d_tenants r = map_sum (entry_of KindTenant) (d_byID r);
}.

(** No two entries name the same value. *)
Lemma d_full_unique r id1 id2 e1 e2 :
  d_full r -> d_byID r !! id1 = Some e1 -> d_byID r !! id2 = Some e2 ->
  de_scope e1 = de_scope e2 -> de_Value e1 = de_Value e2 -> id1 = id2 /\ e1 = e2.
Proof.
  intros F H1 H2 Es Ev. pose proof (df_back _ F _ _ H1) as B1. pose proof (df_back _ F _ _ H2) as B2.
  rewrite Es, Ev, B2 in B1. injection B1 as ->. by simplify_eq.
Qed.

Lemma d_byID_None r : d_inv r -> d_byID r !! d_next r = None.
Proof.
  intros (_ & _ & _ & Hb). destruct (d_byID r !! d_next r) as [e|] eqn:E; [|done]. apply Hb in E as [? _]. lia.
Qed.

Lemma d_full_touch r id : d_full r -> d_full (touch r id).
Proof. by intros []; constructor. Qed.

Lemma d_full_marks r touched fenced : d_full r -> d_full (set_marks r touched fenced).
Proof. by intros []; constructor. Qed.

Lemma d_full_pending r p :
  d_full r -> (forall id e, p !! id = Some e -> d_pending r !! id = Some e) -> d_full (set_pending r p).
Proof. intros [] Hp; constructor; cbn; eauto. Qed.

Section mint.
Context (r : DurableRegistrar) (s : dictScope) (v : string).
Context (F : d_full r) (Hnew : nget (d_ids r) s v = None) (Hnext : d_next r <> MaxUint32).

Lemma minted_back id e :
  d_byID (minted r s v) !! id = Some e -> nget (d_ids (minted r s v)) (de_scope e) (de_Value e) = Some id.
Proof.
  cbn. rewrite lookup_insert, nget_nset. destruct (decide (d_next r = id)) as [<-|Hid].
  - intros [= <-]. rewrite decide_True; [done|]. by destruct s.
  - intros He. pose proof (df_back _ F _ _ He) as Hb. destruct (decide _) as [[-> ->]|]; [congruence|done].
Qed.

Lemma minted_pending id e : d_pending (minted r s v) !! id = Some e -> d_byID (minted r s v) !! id = Some e.
Proof.
  cbn. rewrite !lookup_insert. destruct (decide _); [done|]. apply (df_pending _ F).
Qed.

Lemma d_full_minted_named : v <> OtherValue -> d_full (charge (minted r s v) s).
Proof.
  intros Hv. pose proof (d_byID_None r (df_inv _ F)) as Hn.
  constructor.
  - apply minted_inv; [apply F|done].
  - apply minted_back.
  - intros id e He Ho. cbn in He |- *. rewrite lookup_insert in He. destruct (decide _) as [<-|]; [by injection He as <-|].
    by apply (df_other _ F _ _ He).
  - apply minted_pending.
  - intros s'. cbn. rewrite mget_insert, map_sum_insert by done. unfold entry_in at 1. rewrite <- (df_counts _ F).
    destruct s as [t k]. unfold de_scope. cbn [de_Tenant de_Kind de_Value fst snd].
    destruct (decide ((t, k) = s')) as [<-|]; [rewrite decide_True by done; lia|].
    rewrite decide_False by (by intros [? _]). lia.
  - intros k'. cbn. rewrite mget_insert, map_sum_insert by done. unfold entry_of at 1. rewrite <- (df_kinds _ F).
    cbn [de_Kind de_Value].
    destruct (decide (s.2 = k')) as [<-|]; [rewrite decide_True by done; lia|].
    rewrite decide_False by (by intros [? _]). lia.
  - cbn. rewrite map_sum_insert by done. unfold entry_of at 1. rewrite <- (df_tenants _ F). cbn [de_Kind de_Value].
    destruct (Z.eqb_spec s.2 KindTenant); [rewrite decide_True by done; lia|].
    rewrite decide_False by (by intros [? _]). lia.
Qed.

Lemma d_full_minted_other :
  v = OtherValue -> d_full (set_other (minted r s v) (<[s := d_next r]> (d_other r))).
Proof.
  intros Hv. pose proof (d_byID_None r (df_inv _ F)) as Hn.
  constructor.
  - apply table_other; [by apply minted_inv; [apply F|]|]. rewrite Hv. apply lookup_insert_eq.
  - apply minted_back.
  - intros id e He Ho. cbn in He |- *. rewrite lookup_insert in He. destruct (decide _) as [<-|].
    + injection He as <-. destruct s. apply lookup_insert_eq.
    + rewrite lookup_insert_ne; [by apply (df_other _ F)|]. intros ->.
      apply (df_back _ F) in He. rewrite Ho, <- Hv in He. congruence.
  - apply minted_pending.
  - intros s'. cbn. rewrite map_sum_insert by done. unfold entry_in at 1. rewrite decide_False by (cbn; tauto).
    by rewrite (df_counts _ F).
  - intros k'. cbn. rewrite map_sum_insert by done. unfold entry_of at 1. rewrite decide_False by (cbn; tauto).
    by rewrite (df_kinds _ F).
  - cbn. rewrite map_sum_insert by done. unfold entry_of at 1. rewrite decide_False by (cbn; tauto).
    by rewrite (df_tenants _ F).
Qed.

End mint.

Lemma d_full_Register r t k v r' res :
  d_Register r t k v = (r', res) -> v <> OtherValue -> d_full r -> d_full r'.
Proof.
  intros E Hv F. apply d_Register_case in E. inversion E; subst; [done|by apply d_full_touch|].
  by apply d_full_minted_named.
Qed.

(** The overflow entry is not overwritten by its own creation. *)
Lemma other_absent r s : d_full r -> d_other r !! s = None -> nget (d_ids r) s OtherValue = None.
Proof.
  intros F Ho. destruct (nget (d_ids r) s OtherValue) as [id|] eqn:E; [|done].
  destruct (df_inv _ F) as (_ & Hi & _). apply Hi in E as [_ He]. apply (df_other _ F) in He; [|done].
  destruct s. unfold de_scope in He. cbn in He. congruence.
Qed.

Lemma d_full_OtherID r t k r' id : d_OtherID r t k = (r', id) -> d_full r -> d_full r'.
Proof.
  intros E F. apply d_OtherID_case in E. inversion E; subst; [done|by apply d_full_touch|].
  apply d_full_minted_other; [done|by apply other_absent|done|done].
Qed.

(** ** A sweep keeps the invariant *)

Lemma elem_of_range_of {K} `{Countable K} (m : gmap K Z) id : id ∈ range_of m <-> exists k, m !! k = Some id.
Proof.
  unfold range_of. rewrite elem_of_list_to_set, list_elem_of_fmap. split.
  - intros ([k x] & -> & Hk%elem_of_map_to_list). eauto.
  - intros [k Hk]. exists (k, id). by rewrite elem_of_map_to_list.
Qed.

Lemma entry_sum_delete r id e (f : Z -> DictEntry -> Z) :
  d_byID r !! id = Some e -> map_sum f (delete id (d_byID r)) = map_sum f (d_byID r) - f id e.
Proof. intros He. rewrite map_sum_delete, He. done. Qed.

Lemma map_sum_nonneg {K} `{Countable K} {A} (f : K -> A -> Z) (m : gmap K A) :
  (forall k x, 0 <= f k x) -> 0 <= map_sum f m.
Proof.
  intros Hf. induction m as [|k x m Hm IH] using map_ind; [done|]. rewrite map_sum_insert by done. pose proof (Hf k x). lia.
Qed.

Lemma entry_sum_pos r id e (f : Z -> DictEntry -> Z) :
  d_byID r !! id = Some e -> (forall k x, 0 <= f k x) -> f id e <= map_sum f (d_byID r).
Proof.
  intros He Hf. rewrite <- (insert_delete_id (d_byID r) id e He), map_sum_insert by apply lookup_delete_eq.
  pose proof (map_sum_nonneg f (delete id (d_byID r)) Hf). lia.
Qed.

Lemma entry_in_nonneg s k x : 0 <= entry_in s k x.
Proof. unfold entry_in. case_decide; lia. Qed.

Lemma entry_of_nonneg k' k x : 0 <= entry_of k' k x.
Proof. unfold entry_of. case_decide; lia. Qed.

(** Forgetting an ID that is neither staged nor an overflow entry. *)
Lemma d_full_forget_one r id :
  d_full r -> d_pending r !! id = None -> (forall s, d_other r !! s <> Some id) -> d_full (forget_one r id).
Proof.
  intros F Hp Ho. unfold forget_one. destruct (d_byID r !! id) as [e|] eqn:He; [|done].
  pose proof (df_back _ F _ _ He) as Hback.
  assert (de_Value e <> OtherValue) as Hv.
  { intros Hv. exact (Ho _ (df_other _ F _ _ He Hv)). }
  assert (forall id' e', d_byID r !! id' = Some e' -> id <> id' -> ~ (de_scope e = de_scope e' /\ de_Value e = de_Value e')) as Huniq.
  { intros id' e' He' Hne [Es Ev]. by destruct (d_full_unique _ _ _ _ _ F He He' Es Ev). }
  destruct (df_inv _ F) as (Hn & Hi & Hot & Hb).
  constructor; cbn.
  - unfold d_inv, table_inv. cbn. split_and!; [lia|lia| | |].
    + intros s v id'. cbn. rewrite nget_ndel. destruct (decide _) as [|Hne]; [done|]. intros Hs.
      destruct (Hi _ _ _ Hs) as [? He']. split; [done|]. rewrite lookup_delete_ne; [done|].
      intros <-. rewrite He in He'. injection He' as ->. apply Hne. by destruct s.
    + intros s id' Hs. cbn in Hs. destruct (Hot _ _ Hs) as [? He']. split; [done|]. cbn. rewrite lookup_delete_ne; [done|].
      intros <-. by apply (Ho s).
    + intros id' e'. cbn. rewrite lookup_delete. destruct (decide _); [done|]. apply Hb.
  - intros id' e'. rewrite lookup_delete. destruct (decide _) as [|Hne]; [done|]. intros He'.
    rewrite nget_ndel, decide_False by (by apply (Huniq id')). by apply (df_back _ F).
  - intros id' e'. rewrite lookup_delete. destruct (decide _); [done|]. apply (df_other _ F).
  - intros id' e' He'. rewrite lookup_delete. destruct (decide _) as [<-|]; [congruence|]. by apply (df_pending _ F).
  - intros s. rewrite (entry_sum_delete r id e) by done. rewrite <- (df_counts _ F).
    assert (entry_in (de_scope e) id e = 1) as Hone by (unfold entry_in; by rewrite decide_True).
    pose proof (entry_sum_pos r id e (entry_in (de_scope e)) He (entry_in_nonneg _)) as Hpos.
    rewrite <- (df_counts _ F), Hone in Hpos. destruct (Z.ltb_spec 0 (mget (d_counts r) (de_scope e))); [|lia].
    unfold entry_in. destruct (decide (de_scope e = s /\ _)) as [[<- _]|Hs].
    + destruct (Z.eqb_spec (mget (d_counts r) (de_scope e) - 1) 0); rewrite ?mget_delete, ?mget_insert, decide_True by done. all: lia.
    + assert (de_scope e <> s) by (intros Heq; by apply Hs).
      destruct (Z.eqb_spec (mget (d_counts r) (de_scope e) - 1) 0); rewrite ?mget_delete, ?mget_insert, decide_False by done; lia.
  - intros k. rewrite (entry_sum_delete r id e) by done. rewrite <- (df_kinds _ F).
    assert (entry_of (de_Kind e) id e = 1) as Hone by (unfold entry_of; by rewrite decide_True).
    pose proof (entry_sum_pos r id e (entry_of (de_Kind e)) He (entry_of_nonneg _)) as Hpos.
    rewrite <- (df_kinds _ F), Hone in Hpos. destruct (Z.ltb_spec 0 (mget (d_kindCounts r) (de_Kind e))); [|lia].
    rewrite mget_insert. unfold entry_of. destruct (decide (de_Kind e = k)) as [<-|Hk].
    + rewrite decide_True by done. lia.
    + rewrite decide_False by (by intros [? _]). lia.
  - rewrite (entry_sum_delete r id e) by done. rewrite <- (df_tenants _ F). unfold entry_of.
    destruct (Z.eqb_spec (de_Kind e) KindTenant) as [Hk|Hk]; cbn [andb].
    + rewrite decide_True by done.
      pose proof (entry_sum_pos r id e (entry_of KindTenant) He (entry_of_nonneg _)) as Hpos.
      rewrite <- (df_tenants _ F) in Hpos. unfold entry_of in Hpos. rewrite decide_True in Hpos by done.
      destruct (Z.ltb_spec 0 (d_tenants r)); lia.
    + rewrite decide_False by (by intros [? _]). lia.
Qed.

Lemma forget_one_frame r id :
  d_pending (forget_one r id) = d_pending r /\ d_other (forget_one r id) = d_other r /\
  d_bounds (forget_one r id) = d_bounds r /\ d_next (forget_one r id) = d_next r /\
  d_byID (forget_one r id) = delete id (d_byID r).
Proof.
  unfold forget_one. destruct (d_byID r !! id) eqn:E; [done|]. split_and!; try done. by rewrite delete_id.
Qed.

Lemma forget_all_frame ids : forall r,
  let r' := foldl forget_one r ids in
  d_pending r' = d_pending r /\ d_other r' = d_other r /\ d_bounds r' = d_bounds r /\ d_next r' = d_next r /\
  d_byID r' = foldr delete (d_byID r) ids.
Proof.
  induction ids as [|id ids IH]; intros r; [done|]. cbn [foldl foldr]. destruct (IH (forget_one r id)) as (-> & -> & -> & -> & ->).
  destruct (forget_one_frame r id) as (-> & -> & -> & -> & ->). split_and!; try done.
  clear. induction ids as [|i ids IH]; [done|]. cbn [foldr]. rewrite IH. apply delete_delete.
Qed.

Lemma d_full_forget_all ids : forall r,
  d_full r -> Forall (fun id => d_pending r !! id = None /\ forall s, d_other r !! s <> Some id) ids ->
  d_full (foldl forget_one r ids).
Proof.
  induction ids as [|id ids IH]; intros r F H; [done|]. cbn [foldl]. apply Forall_cons_1 in H as [[Hp Ho] H].
  apply IH; [by apply d_full_forget_one|]. destruct (forget_one_frame r id) as (-> & -> & _). done.
Qed.


Lemma elem_of_Revalidate r cands id :
  id ∈ d_Revalidate r cands <->
  id ∈ cands /\ d_pending r !! id = None /\ id ∉ d_touched r /\ forall s, d_other r !! s <> Some id.
Proof.
  unfold d_Revalidate. rewrite elem_of_difference, elem_of_filter, elem_of_range_of, not_elem_of_dom. naive_solver.
Qed.

(** The sweep of the collector: revalidate, fence, forget. *)
Definition d_sweep (r : DurableRegistrar) (cands : gset Z) : DurableRegistrar :=
  let ids := d_Revalidate r cands in d_Forget (d_Fence r ids) ids.

Lemma d_Fence_marks r ids : d_Fence r ids = set_marks r (d_touched r) (d_fenced (d_Fence r ids)).
Proof. unfold d_Fence. case_decide; [by destruct r|done]. Qed.

Lemma d_sweep_frame r cands :
  let r' := d_sweep r cands in
  d_pending r' = d_pending r /\ d_other r' = d_other r /\ d_bounds r' = d_bounds r /\ d_next r' = d_next r /\
  d_byID r' = foldr delete (d_byID r) (elements (d_Revalidate r cands)).
Proof.
  unfold d_sweep, d_Forget. rewrite d_Fence_marks. cbn [d_pending d_other d_bounds d_next d_byID set_marks].
  destruct (forget_all_frame (elements (d_Revalidate r cands)) (set_marks r (d_touched r) (d_fenced (d_Fence r (d_Revalidate r cands)))))
    as (-> & -> & -> & -> & ->). done.
Qed.

Lemma d_full_sweep r cands : d_full r -> d_full (d_sweep r cands).
Proof.
  intros F. unfold d_sweep, d_Forget. apply d_full_marks. rewrite d_Fence_marks.
  apply d_full_forget_all; [by apply d_full_marks|]. cbn [d_pending d_other set_marks].
  apply Forall_forall. intros id. rewrite elem_of_elements, elem_of_Revalidate. tauto.
Qed.

Lemma foldr_delete_lookup (m : gmap Z DictEntry) l id :
  foldr delete m l !! id = if decide (id ∈ l) then None else m !! id.
Proof.
  induction l as [|i l IH]; [done|]. cbn [foldr]. rewrite lookup_delete, IH.
  destruct (decide (i = id)) as [<-|]; [by rewrite decide_True by constructor|].
  destruct (decide (id ∈ l)); [by rewrite decide_True by (by constructor)|].
  rewrite decide_False; [done|]. by inversion 1.
Qed.

(** A forgotten ID is gone, every other entry is as before. *)
Lemma d_sweep_lookup r cands id :
  d_byID (d_sweep r cands) !! id = if decide (id ∈ d_Revalidate r cands) then None else d_byID r !! id.
Proof.
  destruct (d_sweep_frame r cands) as (_ & _ & _ & _ & ->).
  rewrite foldr_delete_lookup. apply decide_ext. apply elem_of_elements.
Qed.

(** ** Capacity *)

Definition d_within (r : DurableRegistrar) : Prop :=
  (forall s limit, PerTenantKind (d_bounds r) !! s.2 = Some limit -> mget (d_counts r) s <= limit) /\
  (forall k limit, InstanceKind (d_bounds r) !! k = Some limit -> mget (d_kindCounts r) k <= limit) /\
  d_tenants r <= MaxTenants (d_bounds r).

Lemma reached_false limits k n limit : reached limits k n = false -> limits !! k = Some limit -> n < limit.
Proof. unfold reached. intros H E. rewrite E in H. by z_bool. Qed.

Lemma d_within_Register r t k v r' res : d_Register r t k v = (r', res) -> d_within r -> d_within r'.
Proof.
  intros E (H1 & H2 & H3). apply d_Register_case in E. inversion E as [|id Hid Hf|Hn Hc Hx]; subst; [done|done|].
  unfold capsLocked in Hc. apply orb_false_iff in Hc as [[Ht Hs]%orb_false_iff Hk].
  split_and!; cbn.
  - intros s limit Hl. rewrite mget_insert. destruct (decide _) as [<-|]; [|by apply H1].
    pose proof (reached_false _ _ _ _ Hs Hl). lia.
  - intros k' limit Hl. rewrite mget_insert. destruct (decide _) as [<-|]; [|by apply H2].
    pose proof (reached_false _ _ _ _ Hk Hl). lia.
  - destruct (k =? KindTenant); cbn [andb] in Ht; z_bool; lia.
Qed.

Lemma d_within_OtherID r t k r' id : d_OtherID r t k = (r', id) -> d_within r -> d_within r'.
Proof. intros E H. apply d_OtherID_case in E. by inversion E; subst. Qed.

Lemma map_sum_le_delete {K} `{Countable K} {A} (f : K -> A -> Z) (m : gmap K A) l :
  (forall k x, 0 <= f k x) -> map_sum f (foldr delete m l) <= map_sum f m.
Proof.
  intros Hf. induction l as [|k l IH]; cbn [foldr]; [lia|]. rewrite map_sum_delete.
  destruct (foldr delete m l !! k) as [x|]; cbn [from_option]; [pose proof (Hf k x)|]; lia.
Qed.

Lemma d_within_sweep r cands : d_full r -> d_within r -> d_within (d_sweep r cands).
Proof.
  intros F (H1 & H2 & H3). pose proof (d_full_sweep r cands F) as F'.
  destruct (d_sweep_frame r cands) as (_ & _ & Eb & _ & Ey).
  split_and!; rewrite Eb.
  - intros s limit Hl. rewrite (df_counts _ F'), Ey. specialize (H1 s limit Hl). rewrite (df_counts _ F) in H1.
    pose proof (map_sum_le_delete (entry_in s) (d_byID r) (elements (d_Revalidate r cands)) (entry_in_nonneg s)). lia.
  - intros k limit Hl. rewrite (df_kinds _ F'), Ey. specialize (H2 k limit Hl). rewrite (df_kinds _ F) in H2.
    pose proof (map_sum_le_delete (entry_of k) (d_byID r) (elements (d_Revalidate r cands)) (entry_of_nonneg k)). lia.
  - rewrite (df_tenants _ F'), Ey. rewrite (df_tenants _ F) in H3.
    pose proof (map_sum_le_delete (entry_of KindTenant) (d_byID r) (elements (d_Revalidate r cands)) (entry_of_nonneg _)). lia.
Qed.

Lemma cloneKindLimits_pos m k limit : cloneKindLimits m !! k = Some limit -> 0 < limit.
Proof. unfold cloneKindLimits. intros H. apply map_lookup_filter_Some in H as [_ ?]. done. Qed.

Lemma emptyDurable_within b : d_within (emptyDurable b).
Proof.
  split_and!; cbn.
  - intros s limit Hl%cloneKindLimits_pos. rewrite mget_empty. lia.
  - intros k limit Hl%cloneKindLimits_pos. rewrite mget_empty. lia.
  - destruct (Z.leb_spec (MaxTenants b) 0); unfold DefaultMaxTenants; lia.
Qed.

Lemma emptyDurable_full b : d_full (emptyDurable b).
Proof.
  constructor; cbn; try (intros *; by rewrite ?lookup_empty).
Qed.

(** ** The warm-up keeps every durable identity *)

Lemma load_row_full r row :
  d_full r -> 0 < de_ID row < MaxUint32 -> d_byID r !! de_ID row = None ->
  (forall id e, d_byID r !! id = Some e -> ~ (de_scope e = de_scope row /\ de_Value e = de_Value row)) ->
  d_full (load_row r row).
Proof.
  intros F Hid Hnew Huniq.
  assert (u32 (de_ID row + 1) = de_ID row + 1) as Hw by (apply u32_small; unfold MaxUint32 in *; lia).
  assert (d_full (let r1 := mkDurable (if d_next r <=? de_ID row then de_ID row + 1 else d_next r)
      (nset (d_ids r) (de_scope row) (de_Value row) (de_ID row)) (d_other r) (d_pending r) (d_bounds r)
      (d_counts r) (d_kindCounts r) (d_tenants r) (<[de_ID row := row]> (d_byID r)) (d_touched r) (d_fenced r) in
      if String.eqb (de_Value row) OtherValue then set_other r1 (<[de_scope row := de_ID row]> (d_other r))
      else charge r1 (de_scope row))) as G.
  2: { unfold load_row. cbv zeta in G |- *. destruct (String.eqb _ _); cbn [d_next set_other charge set_counts] in G |- *;
       destruct (d_next r <=? de_ID row); rewrite ?Hw; exact G. }
  destruct (df_inv _ F) as (Hn & Hi & Hot & Hb).
  set (n' := if d_next r <=? de_ID row then de_ID row + 1 else d_next r).
  assert (d_next r <= n' <= MaxUint32 /\ de_ID row < n') as [Hn' Hlt].
  { unfold n'. destruct (Z.leb_spec (d_next r) (de_ID row)); lia. }
  assert (nget (d_ids r) (de_scope row) (de_Value row) = None) as Hfree.
  { destruct (nget _ _ _) as [id|] eqn:E; [|done]. apply Hi in E as [_ He]. exfalso. apply (Huniq _ _ He). by destruct row. }
  assert (row = mkDictEntry (de_ID row) (de_scope row).1 (de_scope row).2 (de_Value row)) as Erow by (by destruct row).
  assert (table_inv n' (nset (d_ids r) (de_scope row) (de_Value row) (de_ID row)) (d_other r) (<[de_ID row := row]> (d_byID r))) as T.
  { split_and!; [lia|lia| | |].
    - intros s v id. rewrite nget_nset. destruct (decide _) as [[<- <-]|]; [intros [= <-]; split; [lia|]; by rewrite lookup_insert_eq, <- Erow|].
      intros Hs. destruct (Hi _ _ _ Hs) as [? He]. split; [lia|]. rewrite lookup_insert_ne; [done|]. intros <-. congruence.
    - intros s id Hs. destruct (Hot _ _ Hs) as [? He]. split; [lia|]. rewrite lookup_insert_ne; [done|]. intros <-. congruence.
    - intros id e. rewrite lookup_insert. destruct (decide _) as [<-|]; [intros [= <-]; split; [lia|done]|].
      intros He. destruct (Hb _ _ He). split; [lia|done]. }
  assert (forall id e, <[de_ID row := row]> (d_byID r) !! id = Some e ->
    nget (nset (d_ids r) (de_scope row) (de_Value row) (de_ID row)) (de_scope e) (de_Value e) = Some id) as Hback.
  { intros id e. rewrite lookup_insert, nget_nset. destruct (decide _) as [<-|]; [by intros [= <-]; rewrite decide_True|].
    intros He. rewrite decide_False; [by apply (df_back _ F)|]. intros [E1 E2]. by apply (Huniq _ _ He). }
  assert (forall id e, d_pending r !! id = Some e -> <[de_ID row := row]> (d_byID r) !! id = Some e) as Hpend.
  { intros id e He%(df_pending _ F). rewrite lookup_insert_ne; [done|]. intros <-. congruence. }
  destruct (String.eqb_spec (de_Value row) OtherValue) as [Ho|Ho]; cbv zeta; constructor; cbn [d_next d_ids d_other d_byID d_pending
    d_counts d_kindCounts d_tenants set_other charge set_counts]; try done.
  - apply table_other; [exact T|]. cbn [d_byID set_other]. rewrite lookup_insert_eq. rewrite <- Ho. by f_equal.
  - intros id e. rewrite lookup_insert. destruct (decide _) as [<-|]; [intros [= <-] _; apply lookup_insert_eq|].
    intros He Hv. rewrite lookup_insert_ne; [by apply (df_other _ F)|]. intros Es. apply (Huniq _ _ He). split; congruence.
  - intros s. rewrite map_sum_insert by done. unfold entry_in at 1. rewrite decide_False by tauto. by rewrite (df_counts _ F).
  - intros k. rewrite map_sum_insert by done. unfold entry_of at 1. rewrite decide_False by tauto. by rewrite (df_kinds _ F).
  - rewrite map_sum_insert by done. unfold entry_of at 1. rewrite decide_False by tauto. by rewrite (df_tenants _ F).
  - intros id e. rewrite lookup_insert. destruct (decide _) as [<-|]; [by intros [= <-]|apply (df_other _ F)].
  - intros s. rewrite mget_insert, map_sum_insert by done. unfold entry_in at 1. rewrite <- (df_counts _ F).
    destruct (decide (de_scope row = s)) as [<-|]; [rewrite decide_True by done|rewrite decide_False by tauto]; lia.
  - intros k. rewrite mget_insert, map_sum_insert by done. unfold entry_of at 1. rewrite <- (df_kinds _ F).
    change (de_scope row).2 with (de_Kind row).
    destruct (decide (de_Kind row = k)) as [<-|]; [rewrite decide_True by done|rewrite decide_False by tauto]; lia.
  - rewrite map_sum_insert by done. unfold entry_of at 1. rewrite <- (df_tenants _ F). change (de_scope row).2 with (de_Kind row).
    destruct (Z.eqb_spec (de_Kind row) KindTenant); [rewrite decide_True by done|rewrite decide_False by tauto]; lia.
Qed.
