(* ===== verification/Identity.v ===== *)
(** * Identity: dictionary IDs across commits, sweeps and restarts

    The registrar of [registrar.go] together with the durable dictionary
    table: registrations are staged in memory, a group commit inserts them
    ([insertDicts]), a sweep deletes what nothing references, a restart warms
    a new registrar from the table and the ID watermark.  SQLite's [INSERT]
    is modelled by the constraints the schema declares: the primary key,
    UNIQUE(tenant_id, kind, value) and CHECK(length(value) > 0). *)
From stdpp Require Import sorting.
From S2P Require Import Prelude SeriesKey Dict Registrar.
#[local] Open Scope Z_scope.

(** ** The dictionary table *)

Abbreviation dict_table := (gmap Z DictEntry).

Definition same_name (a b : DictRow) : bool :=
  (de_Tenant a =? de_Tenant b) && (de_Kind a =? de_Kind b) && String.eqb (de_Value a) (de_Value b).

(** A row the schema refuses: its value is empty, or its ID or its name is
    already there. *)
(* internal/aggregate/store_sqlite.go:392-399 schemaDDL *)
Definition conflicts (db : dict_table) (row : DictRow) : bool :=
  (vlen (de_Value row) =? 0) || bool_decide (is_Some (db !! de_ID row)) || existsb (fun p => same_name row p.2) (map_to_list db).

(** The inserts of one transaction; [None] is the constraint error that rolls
    it back. *)
(* internal/aggregate/store_sqlite.go:767-782 insertDicts *)
Fixpoint insertDicts (db : dict_table) (rows : list DictRow) : option dict_table :=
  match rows with
  | [] => Some db
  | row :: rows => if conflicts db row then None else insertDicts (<[de_ID row := row]> db) rows
  end.

(** The dictionary half of [bumpWatermarks]: one past the highest ID of the
    batch, and never downwards. *)
(* internal/aggregate/store_sqlite.go:2386-2418 bumpWatermarks *)
Definition bumpDictWatermark (wm : Z) (rows : list DictRow) : Z :=
  let dictWM := foldl (fun acc r => if acc <? de_ID r + 1 then de_ID r + 1 else acc) 0 rows in
  if dictWM <=? 0 then wm else if wm <? dictWM then dictWM else wm.

(** [LoadDict]: the rows in ID order. *)
(* internal/aggregate/store_sqlite.go:2088-2113 scanDictRows *)
Definition loadRows (db : dict_table) (limit : Z) : list DictRow :=
  take (Z.to_nat limit) (merge_sort row_le (snd <$> map_to_list db)).

Definition storeOf (db : dict_table) (wm : Z) : LoadStore :=
  mkLoadStore (fun limit => Ok (loadRows db limit)) (fun _ => Ok []) (Some (Ok (wm, 0))).

(** ** The system *)

(** [y_log] is a ghost: every row ever inserted, in order. *)
Record Sys := mkSys {
  y_reg : DurableRegistrar;
  y_db : dict_table;
  y_wm : Z;
  y_log : list DictRow;
}.

Inductive iop :=
| IRegister (t k : Z) (v : string)
| IOther (t k : Z)
| ICommit
| ICommitFails
| ISweep (cands : gset Z)
| ISweepFails (cands : gset Z)
| IRestart.

Inductive outcome := Running (y : Sys) | CommitRefused | StartupFailed (e : load_error).

Definition i_step (b : Bounds) (y : Sys) (op : iop) : outcome :=
  let r := y_reg y in
  match op with
  | IRegister t k v => Running (mkSys (d_Register r t k v).1 (y_db y) (y_wm y) (y_log y))
  | IOther t k => Running (mkSys (d_OtherID r t k).1 (y_db y) (y_wm y) (y_log y))
  | ICommit =>
      let rows := d_DrainPending r in
      match insertDicts (y_db y) rows with
      | None => CommitRefused
      | Some db => Running (mkSys (d_Committed r rows) db (bumpDictWatermark (y_wm y) rows) (y_log y ++ rows))
      end
  | ICommitFails => Running y
  | ISweep cands =>
      let ids := d_Revalidate r cands in
      Running (mkSys (d_sweep r cands) (filter (fun '(id, _) => id ∉ ids) (y_db y)) (y_wm y) (y_log y))
  | ISweepFails cands =>
      Running (mkSys (d_Unfence (d_Fence r (d_Revalidate r cands))) (y_db y) (y_wm y) (y_log y))
  | IRestart =>
      match NewDurableRegistrarWithBounds (Some (storeOf (y_db y) (y_wm y))) b with
      | Ok r => Running (mkSys r (y_db y) (y_wm y) (y_log y))
      | Err e => StartupFailed e
      end
  end.

Fixpoint i_run (b : Bounds) (y : Sys) (ops : list iop) : outcome :=
  match ops with
  | [] => Running y
  | op :: ops =>
      match i_step b y op with
      | Running y => i_run b y ops
      | stopped => stopped
      end
  end.

Definition i_init (b : Bounds) : Sys := mkSys (emptyDurable b) ∅ 0 [].

Definition i_unreserved (op : iop) : Prop :=
  match op with IRegister _ _ v => v <> OtherValue | _ => True end.

(** ** The invariant *)

Record i_inv (b : Bounds) (y : Sys) : Prop := {
  ii_full : d_full (y_reg y);
  ii_named : forall id e, d_byID (y_reg y) !! id = Some e -> vlen (de_Value e) <> 0;
  ii_start : 0 <= y_wm y;
  ii_bounds : d_bounds (y_reg y) = Bounds_withDefaults b;
  ii_within : d_within (y_reg y);
  ii_db : forall id e, y_db y !! id = Some e -> d_byID (y_reg y) !! id = Some e /\ e ∈ y_log y;
  ii_all : forall id e, d_byID (y_reg y) !! id = Some e -> y_db y !! id = Some e \/ d_pending (y_reg y) !! id = Some e;
  ii_wm : y_wm y <= d_next (y_reg y);
  ii_log : forall e, e ∈ y_log y -> de_ID e < y_wm y;
  ii_fresh : forall id e, d_pending (y_reg y) !! id = Some e -> id ∉ (de_ID <$> y_log y);
  ii_nodup : NoDup (de_ID <$> y_log y);
}.

Lemma i_init_inv b : i_inv b (i_init b).
Proof.
  constructor; [apply emptyDurable_full|cbn; intros *; by rewrite lookup_empty|done|done|apply emptyDurable_within|..]; cbn; try (intros *; by rewrite lookup_empty); try done.
  - intros e He. by apply elem_of_nil in He.
  - constructor.
Qed.

Lemma byID_id r id e : d_full r -> d_byID r !! id = Some e -> de_ID e = id.
Proof. intros F He. destruct (df_inv _ F) as (_ & _ & _ & Hb). by apply Hb. Qed.

Lemma elem_of_drain r e : e ∈ d_DrainPending r <-> exists id, d_pending r !! id = Some e.
Proof.
  unfold d_DrainPending. rewrite merge_sort_Permutation, list_elem_of_fmap. split.
  - intros ([id x] & -> & H%elem_of_map_to_list). eauto.
  - intros [id H]. exists (id, e). by rewrite elem_of_map_to_list.
Qed.

Lemma values_ids (m : dict_table) :
  (forall id e, m !! id = Some e -> de_ID e = id) -> NoDup (de_ID <$> (snd <$> map_to_list m)).
Proof.
  intros H. rewrite <- list_fmap_compose.
  rewrite (list_fmap_ext _ fst (map_to_list m)).
  - apply NoDup_fst_map_to_list.
  - intros i [id e] Hi. cbn. apply H, elem_of_map_to_list, list_elem_of_lookup. eauto.
Qed.

Lemma drain_ids r : d_full r -> NoDup (de_ID <$> d_DrainPending r).
Proof.
  intros F. unfold d_DrainPending. rewrite merge_sort_Permutation. apply values_ids.
  intros id e He%(df_pending _ F). by eapply byID_id.
Qed.

(** ** Commits *)

(** Rows of one uniquely named table are never refused. *)
Lemma insertDicts_ok (all : dict_table) rows : forall db,
  (forall id e, db !! id = Some e -> all !! id = Some e) ->
  (forall e, e ∈ rows -> all !! de_ID e = Some e /\ db !! de_ID e = None) ->
  NoDup (de_ID <$> rows) ->
  (forall id1 id2 e1 e2, all !! id1 = Some e1 -> all !! id2 = Some e2 -> same_name e1 e2 = true -> id1 = id2) ->
  (forall id e, all !! id = Some e -> vlen (de_Value e) <> 0) ->
  exists db', insertDicts db rows = Some db' /\
    forall id e, db' !! id = Some e <-> db !! id = Some e \/ (e ∈ rows /\ de_ID e = id).
Proof.
  induction rows as [|row rows IH]; intros db Hdb Hrows Hnd Huniq Hlen; cbn [insertDicts].
  - exists db. split; [done|]. intros id e. rewrite elem_of_nil. naive_solver.
  - destruct (Hrows row) as [Hall Hnone]; [by constructor|].
    assert (conflicts db row = false) as ->.
    { unfold conflicts. destruct (Z.eqb_spec (vlen (de_Value row)) 0); [by destruct (Hlen _ _ Hall)|]. cbn [orb].
      apply orb_false_iff. split; [apply bool_decide_eq_false; rewrite Hnone; by intros [? ?]|].
      apply not_true_iff_false. intros (p & Hp & Hs)%existsb_exists. destruct p as [id e].
      apply list_elem_of_In, elem_of_map_to_list in Hp. cbn in Hs.
      rewrite (Huniq _ _ _ _ Hall (Hdb _ _ Hp) Hs) in Hnone. congruence. }
    cbn [fmap list_fmap] in Hnd. apply NoDup_cons in Hnd as [Hnin Hnd].
    destruct (IH (<[de_ID row := row]> db)) as (db' & E & Hdb'); [| |done|done|done|].
    + intros id e. rewrite lookup_insert. destruct (decide _) as [<-|]; [by intros [= <-]|apply Hdb].
    + intros e He. destruct (Hrows e) as [? ?]; [by constructor|]. split; [done|]. rewrite lookup_insert_ne; [done|].
      intros Hid. apply Hnin. rewrite Hid. by apply list_elem_of_fmap_2.
    + exists db'. split; [done|]. intros id e. rewrite Hdb', lookup_insert, elem_of_cons.
      destruct (decide (de_ID row = id)) as [<-|Hne].
      * split; [intros [[= <-]|[? ?]]; eauto|]. intros [He|[[->|He] Hid]]; [congruence|by left|by right].
      * split; [naive_solver|]. intros [He|[[->|He] Hid]]; [by left|done|by right].
Qed.

Lemma same_name_eq a b : same_name a b = true <-> de_scope a = de_scope b /\ de_Value a = de_Value b.
Proof.
  unfold same_name, de_scope. rewrite !andb_true_iff, !Z.eqb_eq, String.eqb_eq. split; [intros [[-> ->] ->]|intros [[= -> ->] ->]]; done.
Qed.

Lemma full_names_unique r id1 id2 e1 e2 :
  d_full r -> d_byID r !! id1 = Some e1 -> d_byID r !! id2 = Some e2 -> same_name e1 e2 = true -> id1 = id2.
Proof. intros F H1 H2 [Es Ev]%same_name_eq. by destruct (d_full_unique _ _ _ _ _ F H1 H2 Es Ev). Qed.

Lemma commit_accepted b y : i_inv b y ->
  exists db, insertDicts (y_db y) (d_DrainPending (y_reg y)) = Some db /\
    forall id e, db !! id = Some e <-> y_db y !! id = Some e \/ d_pending (y_reg y) !! id = Some e.
Proof.
  intros I. pose proof (ii_full _ _ I) as F.
  destruct (insertDicts_ok (d_byID (y_reg y)) (d_DrainPending (y_reg y)) (y_db y)) as (db & E & Hdb).
  - intros id e He. by apply (ii_db _ _ I).
  - intros e [id He]%elem_of_drain. pose proof (df_pending _ F _ _ He) as Hb. rewrite (byID_id _ _ _ F Hb).
    split; [done|]. destruct (y_db y !! id) as [e'|] eqn:Ed; [|done]. destruct (ii_db _ _ I _ _ Ed) as [Hb' Hl].
    exfalso. apply (ii_fresh _ _ I _ _ He). rewrite <- (byID_id _ _ _ F Hb'). by apply list_elem_of_fmap_2.
  - by apply drain_ids.
  - intros id1 id2 e1 e2. by apply full_names_unique.
  - apply I.
  - exists db. split; [done|]. intros id e. rewrite Hdb, elem_of_drain. split.
    + intros [?|[[id' He] Hid]]; [by left|]. right.
      pose proof (byID_id _ _ _ F (df_pending _ F _ _ He)). congruence.
    + intros [?|He]; [by left|]. right. split; [eauto|]. exact (byID_id _ _ _ F (df_pending _ F _ _ He)).
Qed.

Lemma committed_pending r rows id e :
  foldl (fun p (row : DictRow) => delete (de_ID row) p) (d_pending r) rows !! id = Some e ->
  d_pending r !! id = Some e /\ id ∉ (de_ID <$> rows).
Proof.
  generalize (d_pending r) as p. induction rows as [|row rows IH]; intros p; cbn [foldl].
  - intros He. split; [done|]. apply not_elem_of_nil.
  - intros [He Hn]%IH. rewrite lookup_delete in He. destruct (decide _) as [|Hne]; [done|]. split; [done|].
    cbn [fmap list_fmap]. apply not_elem_of_cons. split; [congruence|done].
Qed.

Lemma Committed_none r id : d_full r -> d_pending (d_Committed r (d_DrainPending r)) !! id = None.
Proof.
  intros F. destruct (_ !! id) as [e|] eqn:E; [|done]. cbn in E. apply committed_pending in E as [He Hn].
  exfalso. apply Hn. rewrite <- (byID_id _ _ _ F (df_pending _ F _ _ He)). apply list_elem_of_fmap_2, elem_of_drain. eauto.
Qed.

Lemma bump_ge wm rows : wm <= bumpDictWatermark wm rows.
Proof. unfold bumpDictWatermark. cbv zeta. destruct (_ <=? 0); [lia|].
  match goal with |- context [wm <? ?x] => destruct (Z.ltb_spec wm x) end; lia. Qed.

Lemma bump_gt wm rows e : 0 <= wm -> e ∈ rows -> 0 < de_ID e -> de_ID e < bumpDictWatermark wm rows.
Proof.
  intros Hwm He Hp. unfold bumpDictWatermark.
  set (f := fun acc (r : DictRow) => if acc <? de_ID r + 1 then de_ID r + 1 else acc).
  assert (forall l acc, acc <= foldl f acc l /\ forall e, e ∈ l -> de_ID e < foldl f acc l) as H.
  { induction l as [|x l IH]; intros acc; cbn [foldl]; [split; [lia|]; by intros ? ?%elem_of_nil|].
    destruct (IH (f acc x)) as [A B]. assert (acc <= f acc x /\ de_ID x < f acc x) by (unfold f; destruct (Z.ltb_spec acc (de_ID x + 1)); lia).
    split; [lia|]. intros y [->|Hy]%elem_of_cons; [lia|by apply B]. }
  destruct (H rows 0) as [_ B]. specialize (B e He). destruct (Z.leb_spec (foldl f 0 rows) 0); [lia|].
  destruct (Z.ltb_spec wm (foldl f 0 rows)); lia.
Qed.

Lemma bump_le wm rows n : wm <= n -> (forall e, e ∈ rows -> de_ID e < n) -> bumpDictWatermark wm rows <= n.
Proof.
  intros Hwm Hr. unfold bumpDictWatermark.
  set (f := fun acc (r : DictRow) => if acc <? de_ID r + 1 then de_ID r + 1 else acc).
  assert (forall l acc, acc <= Z.max 0 n -> (forall e, e ∈ l -> de_ID e < n) -> foldl f acc l <= Z.max 0 n) as H.
  { induction l as [|x l IH]; intros acc Ha Hl; cbn [foldl]; [done|]. apply IH; [|intros; apply Hl; by constructor].
    assert (de_ID x < n) by (apply Hl; by constructor). unfold f. destruct (Z.ltb_spec acc (de_ID x + 1)); lia. }
  specialize (H rows 0 ltac:(lia) Hr). destruct (Z.leb_spec (foldl f 0 rows) 0); [done|].
  destruct (Z.ltb_spec wm (foldl f 0 rows)); lia.
Qed.

(** ** Each step keeps the invariant *)

Lemma step_commit b y : i_inv b y -> exists y', i_step b y ICommit = Running y' /\ i_inv b y'.
Proof.
  intros I. pose proof (ii_full _ _ I) as F. destruct (commit_accepted b y I) as (db & E & Hdb).
  cbn [i_step]. rewrite E. eexists. split; [done|].
  set (r := y_reg y) in *. set (rows := d_DrainPending r) in *.
  assert (forall id, d_pending (d_Committed r rows) !! id = None) as Hnone by (intros; by apply Committed_none).
  assert (forall e, e ∈ rows -> d_byID r !! de_ID e = Some e) as Hrows.
  { intros e [id He]%elem_of_drain. pose proof (df_pending _ F _ _ He) as Hb. by rewrite (byID_id _ _ _ F Hb). }
  destruct (df_inv _ F) as (_ & _ & _ & Hby).
  constructor; cbn [y_reg y_db y_wm y_log].
  - unfold d_Committed. apply d_full_pending; [done|]. by intros id e [? _]%committed_pending.
  - apply I.
  - pose proof (bump_ge (y_wm y) rows). pose proof (ii_start _ _ I). lia.
  - apply I.
  - apply I.
  - intros id e [He|He]%Hdb.
    + destruct (ii_db _ _ I _ _ He). split; [done|]. apply elem_of_app. by left.
    + split; [exact (df_pending _ F _ _ He)|]. apply elem_of_app. right. apply elem_of_drain. eauto.
  - intros id e He. left. apply Hdb. by apply (ii_all _ _ I).
  - apply bump_le; [apply I|]. intros e He. destruct (Hby _ _ (Hrows _ He)) as [[_ Hlt] _]. exact Hlt.
  - intros e [He|He]%elem_of_app.
    + pose proof (ii_log _ _ I _ He). pose proof (bump_ge (y_wm y) rows). lia.
    + apply bump_gt; [apply I|done|]. destruct (Hby _ _ (Hrows _ He)). lia.
  - intros id e. by rewrite Hnone.
  - rewrite fmap_app. apply NoDup_app. split_and!; [apply I| |by apply drain_ids].
    intros i Hi (e & -> & [id He]%elem_of_drain)%list_elem_of_fmap. pose proof (df_pending _ F _ _ He) as Hb.
    apply (ii_fresh _ _ I _ _ He). by rewrite <- (byID_id _ _ _ F Hb).
Qed.

(** Memory-only steps: the table, the watermark and the log stay; every new
    entry is staged under an ID past the watermark. *)
Lemma step_memory b y r' :
  i_inv b y -> d_full r' -> d_within r' -> d_bounds r' = d_bounds (y_reg y) -> d_next (y_reg y) <= d_next r' ->
  (forall id e, d_byID (y_reg y) !! id = Some e -> d_byID r' !! id = Some e) ->
  (forall id e, d_pending (y_reg y) !! id = Some e -> d_pending r' !! id = Some e) ->
  (forall id e, d_byID r' !! id = Some e ->
     d_byID (y_reg y) !! id = Some e \/ (d_pending r' !! id = Some e /\ vlen (de_Value e) <> 0)) ->
  (forall id e, d_pending r' !! id = Some e -> d_pending (y_reg y) !! id = Some e \/ d_next (y_reg y) <= id) ->
  i_inv b (mkSys r' (y_db y) (y_wm y) (y_log y)).
Proof.
  intros I F W Eb Hn Hby Hpe Hnew Hpend. constructor; cbn [y_reg y_db y_wm y_log]; try done; try apply I.
  - intros id e [He|[_ ?]]%Hnew; [by apply (ii_named _ _ I _ _ He)|done].
  - rewrite Eb. apply I.
  - intros id e He. destruct (ii_db _ _ I _ _ He). eauto.
  - intros id e [He|[? _]]%Hnew; [|by right]. destruct (ii_all _ _ I _ _ He); [by left|right; eauto].
  - pose proof (ii_wm _ _ I). lia.
  - intros id e [He|He]%Hpend; [by apply (ii_fresh _ _ I _ _ He)|].
    intros (x & -> & Hx)%list_elem_of_fmap. pose proof (ii_log _ _ I _ Hx). pose proof (ii_wm _ _ I). lia.
Qed.

Lemma next_minted r : d_inv r -> d_next r <> MaxUint32 -> u32 (d_next r + 1) = d_next r + 1.
Proof. intros (? & _) ?. apply u32_small. unfold MaxUint32 in *. lia. Qed.

Lemma step_minted b y r' s v :
  i_inv b y -> d_full r' -> d_within r' -> d_next (y_reg y) <> MaxUint32 -> vlen v <> 0 ->
  d_bounds r' = d_bounds (y_reg y) -> d_next r' = u32 (d_next (y_reg y) + 1) ->
  d_byID r' = d_byID (minted (y_reg y) s v) -> d_pending r' = d_pending (minted (y_reg y) s v) ->
  i_inv b (mkSys r' (y_db y) (y_wm y) (y_log y)).
Proof.
  intros I F W Hne Hv Eb En Ey Ep. pose proof (ii_full _ _ I) as F0. pose proof (d_byID_None _ (df_inv _ F0)) as Hnone.
  apply step_memory; try done.
  - rewrite En, (next_minted _ (df_inv _ F0)) by done. lia.
  - intros id e He. rewrite Ey. cbn. rewrite lookup_insert_ne; [done|]. intros <-. congruence.
  - intros id e He. rewrite Ep. cbn. rewrite lookup_insert_ne; [done|]. intros <-. apply (df_pending _ F0) in He. congruence.
  - intros id e. rewrite Ey, Ep. cbn. rewrite !lookup_insert. destruct (decide _) as [<-|]; [|by left].
    intros [= <-]. by right.
  - intros id e. rewrite Ep. cbn. rewrite lookup_insert. destruct (decide _) as [<-|]; [right; lia|by left].
Qed.

Lemma step_same b y r' :
  i_inv b y -> d_full r' -> d_within r' -> d_bounds r' = d_bounds (y_reg y) -> d_next r' = d_next (y_reg y) ->
  d_byID r' = d_byID (y_reg y) -> d_pending r' = d_pending (y_reg y) ->
  i_inv b (mkSys r' (y_db y) (y_wm y) (y_log y)).
Proof.
  intros I F W Eb En Ey Ep. apply step_memory; try done; rewrite ?Ey, ?Ep, ?En; auto; lia.
Qed.

Lemma step_register b y t k v : i_inv b y -> v <> OtherValue ->
  i_inv b (mkSys (d_Register (y_reg y) t k v).1 (y_db y) (y_wm y) (y_log y)).
Proof.
  intros I Hv. destruct (d_Register (y_reg y) t k v) as [r' res] eqn:E. cbn [fst].
  assert (vlen v <> 0 \/ r' = y_reg y) as Hlen.
  { unfold d_Register in E. destruct (Kind_Valid k); cbn [negb] in E; [|right; by injection E].
    destruct (Z.eqb_spec (vlen v) 0); [right; by injection E|by left]. }
  pose proof (d_full_Register _ _ _ _ _ _ E Hv (ii_full _ _ I)) as F.
  pose proof (d_within_Register _ _ _ _ _ _ E (ii_within _ _ I)) as W.
  apply d_Register_case in E. inversion E; subst; [by destruct y|by apply step_same|].
  apply (step_minted _ _ _ (t, k) v); try done. destruct Hlen as [?|Hr]; [done|].
  exfalso. apply (f_equal d_next) in Hr. cbn in Hr. rewrite (next_minted _ (df_inv _ (ii_full _ _ I))) in Hr by done. lia.
Qed.

Lemma step_other b y t k : i_inv b y ->
  i_inv b (mkSys (d_OtherID (y_reg y) t k).1 (y_db y) (y_wm y) (y_log y)).
Proof.
  intros I. destruct (d_OtherID (y_reg y) t k) as [r' id] eqn:E. cbn [fst].
  pose proof (d_full_OtherID _ _ _ _ _ E (ii_full _ _ I)) as F.
  pose proof (d_within_OtherID _ _ _ _ _ E (ii_within _ _ I)) as W.
  apply d_OtherID_case in E. inversion E; subst; [by destruct y|by apply step_same|].
  by apply (step_minted _ _ _ (t, k) OtherValue).
Qed.

Lemma step_sweep b y cands : i_inv b y -> exists y', i_step b y (ISweep cands) = Running y' /\ i_inv b y'.
Proof.
  intros I. cbn [i_step]. eexists. split; [done|]. pose proof (ii_full _ _ I) as F.
  destruct (d_sweep_frame (y_reg y) cands) as (Ep & _ & Eb & En & _).
  constructor; cbn [y_reg y_db y_wm y_log]; try apply I.
  - by apply d_full_sweep.
  - intros id e. rewrite d_sweep_lookup. destruct (decide _); [done|]. apply (ii_named _ _ I).
  - rewrite Eb. apply I.
  - apply d_within_sweep; [done|apply I].
  - intros id e [He Hid]%map_lookup_filter_Some. rewrite d_sweep_lookup, decide_False by done. by apply (ii_db _ _ I).
  - intros id e. rewrite d_sweep_lookup. destruct (decide _) as [|Hid]; [done|]. intros He. rewrite Ep.
    destruct (ii_all _ _ I _ _ He); [left|by right]. by apply map_lookup_filter_Some.
  - rewrite En. apply I.
  - intros id e. rewrite Ep. apply (ii_fresh _ _ I).
Qed.

Lemma step_sweep_fails b y cands :
  i_inv b y -> exists y', i_step b y (ISweepFails cands) = Running y' /\ i_inv b y'.
Proof.
  intros I. cbn [i_step]. eexists. split; [done|]. pose proof (ii_full _ _ I) as F.
  rewrite d_Fence_marks. apply step_same; try done; [|apply I]. by apply d_full_marks, d_full_marks.
Qed.

(** *** Restart *)

Lemma load_rows_spec (db : dict_table) rows : forall r,
  d_full r -> NoDup (de_ID <$> rows) ->
  (forall e, e ∈ rows -> db !! de_ID e = Some e /\ 0 < de_ID e < MaxUint32 /\ d_byID r !! de_ID e = None) ->
  (forall id e, d_byID r !! id = Some e -> db !! id = Some e) ->
  (forall id1 id2 e1 e2, db !! id1 = Some e1 -> db !! id2 = Some e2 -> same_name e1 e2 = true -> id1 = id2) ->
  let r' := foldl load_row r rows in
  d_full r' /\ d_bounds r' = d_bounds r /\ d_pending r' = d_pending r /\
  (forall id e, d_byID r' !! id = Some e <-> d_byID r !! id = Some e \/ (e ∈ rows /\ de_ID e = id)).
Proof.
  induction rows as [|row rows IH]; intros r F Hnd Hrows Hdb Huniq; cbn [foldl].
  - split_and!; try done. intros id e. rewrite elem_of_nil. naive_solver.
  - cbn [fmap list_fmap] in Hnd. apply NoDup_cons in Hnd as [Hnin Hnd].
    destruct (Hrows row) as (Hin & Hrange & Hnone); [by constructor|].
    assert (d_full (load_row r row)) as F'.
    { apply load_row_full; [done..|]. intros id e He [Es Ev].
      assert (id = de_ID row) as -> by (apply (Huniq _ _ e row); [by apply Hdb|done|by apply same_name_eq]). congruence. }
    assert (d_byID (load_row r row) = <[de_ID row := row]> (d_byID r) /\ d_bounds (load_row r row) = d_bounds r /\
            d_pending (load_row r row) = d_pending r) as (Ey & Eb & Ep).
    { unfold load_row. cbv zeta. destruct (String.eqb _ _); cbn [d_next set_other charge set_counts];
        destruct (d_next r <=? de_ID row); done. }
    destruct (IH (load_row r row)) as (F2 & Eb2 & Ep2 & Hy); [done|done| | |done|].
    + intros e He. destruct (Hrows e) as (? & ? & ?); [by constructor|]. split_and!; [done|lia|lia|].
      rewrite Ey, lookup_insert_ne; [done|]. intros Hid. apply Hnin. rewrite Hid. by apply list_elem_of_fmap_2.
    + intros id e. rewrite Ey, lookup_insert. destruct (decide _) as [<-|]; [by intros [= <-]|apply Hdb].
    + split_and!; [done|congruence|congruence|]. intros id e. rewrite Hy, Ey, lookup_insert, elem_of_cons.
      destruct (decide (de_ID row = id)) as [<-|Hne].
      * split; [intros [[= <-]|[? ?]]; eauto|]. intros [He|[[->|He] Hid]]; [congruence|by left|by right].
      * split; [naive_solver|]. intros [He|[[->|He] Hid]]; [by left|done|by right].
Qed.

Lemma elem_of_loadRows (db : dict_table) e :
  e ∈ merge_sort row_le (snd <$> map_to_list db) <-> exists id, db !! id = Some e.
Proof.
  rewrite merge_sort_Permutation, list_elem_of_fmap. split.
  - intros ([id x] & -> & H%elem_of_map_to_list). eauto.
  - intros [id H]. exists (id, e). by rewrite elem_of_map_to_list.
Qed.

Lemma map_sum_mono {K} `{Countable K} {A} (f : K -> A -> Z) (m1 m2 : gmap K A) :
  (forall k x, 0 <= f k x) -> m1 ⊆ m2 -> map_sum f m1 <= map_sum f m2.
Proof.
  intros Hf. revert m2. induction m1 as [|k x m1 Hk IH] using map_ind; intros m2 Hs.
  - rewrite map_sum_empty. by apply map_sum_nonneg.
  - rewrite map_sum_insert by done.
    assert (m2 !! k = Some x) as Hx by (eapply lookup_weaken; [apply lookup_insert_eq|done]).
    assert (m1 ⊆ delete k m2) as Hd.
    { apply map_subseteq_spec. intros j y Hj. rewrite lookup_delete_ne; [|intros <-; congruence].
      eapply lookup_weaken; [|done]. rewrite lookup_insert_ne; [done|]. intros <-. congruence. }
    specialize (IH _ Hd). rewrite map_sum_delete, Hx in IH. cbn [from_option] in IH. lia.
Qed.

Lemma d_within_subset b r r' :
  d_full r -> d_within r -> d_bounds r = Bounds_withDefaults b -> d_full r' -> d_bounds r' = Bounds_withDefaults b ->
  d_byID r' ⊆ d_byID r -> d_within r'.
Proof.
  intros F (H1 & H2 & H3) Eb F' Eb' Hs. rewrite Eb in *. split_and!; rewrite Eb'.
  - intros s limit Hl. specialize (H1 s limit Hl). rewrite (df_counts _ F) in H1. rewrite (df_counts _ F').
    pose proof (map_sum_mono (entry_in s) _ _ (entry_in_nonneg s) Hs). lia.
  - intros k limit Hl. specialize (H2 k limit Hl). rewrite (df_kinds _ F) in H2. rewrite (df_kinds _ F').
    pose proof (map_sum_mono (entry_of k) _ _ (entry_of_nonneg k) Hs). lia.
  - rewrite (df_tenants _ F) in H3. rewrite (df_tenants _ F').
    pose proof (map_sum_mono (entry_of KindTenant) _ _ (entry_of_nonneg _) Hs). lia.
Qed.

Lemma set_next_full r n : d_full r -> d_next r <= n <= MaxUint32 -> d_full (set_next r n).
Proof.
  intros F Hn. destruct (df_inv _ F) as (H0 & Hi & Ho & Hb). constructor; cbn; try apply F.
  unfold d_inv, table_inv. cbn. split_and!; [lia|lia| | |].
  - intros s v id Hs. destruct (Hi _ _ _ Hs). split; [lia|done].
  - intros s id Hs. destruct (Ho _ _ Hs). split; [lia|done].
  - intros id e He. destruct (Hb _ _ He). split; [lia|done].
Qed.

Lemma step_restart b y : i_inv b y ->
  match i_step b y IRestart with
  | Running y' => i_inv b y' /\ d_byID (y_reg y') = y_db y
  | CommitRefused => False
  | StartupFailed _ => MaxDictRows < Z.of_nat (size (y_db y))
  end.
Proof.
  intros I. pose proof (ii_full _ _ I) as F. destruct (df_inv _ F) as (Hn & _ & _ & Hby).
  cbn [i_step NewDurableRegistrarWithBounds storeOf LoadDict Watermarks rbind fst].
  set (L := merge_sort row_le (snd <$> map_to_list (y_db y))).
  assert (length L = size (y_db y)) as HL.
  { unfold L. rewrite merge_sort_Permutation, length_fmap. apply length_map_to_list. }
  destruct (Z.ltb_spec MaxDictRows (Z.of_nat (length (loadRows (y_db y) (MaxDictRows + 1))))) as [Hlong|Hshort].
  { cbn. unfold loadRows in Hlong. fold L in Hlong. rewrite length_take in Hlong. lia. }
  assert (loadRows (y_db y) (MaxDictRows + 1) = L) as EL.
  { unfold loadRows in *. fold L in Hshort |- *. apply take_ge. rewrite length_take in Hshort. unfold MaxDictRows in *. lia. }
  rewrite EL. cbn [rbind fst].
  assert (forall id e, y_db y !! id = Some e -> de_ID e = id /\ 0 < id < d_next (y_reg y)) as Hdb.
  { intros id e He. destruct (ii_db _ _ I _ _ He) as [Hb _]. destruct (Hby _ _ Hb). split; [done|lia]. }
  destruct (load_rows_spec (y_db y) L (emptyDurable b)) as (F' & Eb & Ep & Hy).
  - apply emptyDurable_full.
  - unfold L. rewrite merge_sort_Permutation. apply values_ids. intros id e He. by apply Hdb.
  - intros e [id He]%elem_of_loadRows. destruct (Hdb _ _ He) as [-> ?]. split_and!; [done|lia|lia|done].
  - intros id e. cbn. by rewrite lookup_empty.
  - intros id1 id2 e1 e2 H1 H2. apply (full_names_unique (y_reg y)); [done|by apply (ii_db _ _ I)|by apply (ii_db _ _ I)].
  - set (r1 := foldl load_row (emptyDurable b) L) in *. cbn [d_pending emptyDurable d_bounds] in Eb, Ep.
    assert (d_byID r1 = y_db y) as Ey.
    { apply map_eq. intros id. apply option_eq. intros e. rewrite Hy. unfold L. rewrite elem_of_loadRows. cbn [emptyDurable d_byID].
      rewrite lookup_empty. split; [|intros He; right; split; [eauto|by apply Hdb]].
      intros [?|[[id' He] Hid]]; [done|]. destruct (Hdb _ _ He). congruence. }
    set (r2 := if d_next r1 <? y_wm y then set_next r1 (y_wm y) else r1).
    pose proof (ii_wm _ _ I) as Hwm.
    assert (d_full r2 /\ d_byID r2 = y_db y /\ d_bounds r2 = Bounds_withDefaults b /\ d_pending r2 = ∅ /\ y_wm y <= d_next r2)
      as (F2 & E2 & B2 & P2 & W2).
    { unfold r2. destruct (Z.ltb_spec (d_next r1) (y_wm y)); cbn [set_next d_byID d_bounds d_pending d_next]; split_and!; try done; try lia.
      apply set_next_full; [done|lia]. }
    split; [|exact E2]. constructor; cbn [y_reg y_db y_wm y_log]; try apply I; try done.
    + intros id e. rewrite E2. intros He. destruct (ii_db _ _ I _ _ He). by apply (ii_named _ _ I id).
    + apply (d_within_subset b (y_reg y)); try done; [apply I|apply I|]. rewrite E2. apply map_subseteq_spec.
      intros id e He. by apply (ii_db _ _ I).
    + intros id e He. rewrite E2. split; [done|]. by apply (ii_db _ _ I id).
    + intros id e. rewrite E2. by left.
    + intros id e. by rewrite P2, lookup_empty.
Qed.

Lemma i_step_inv b y op : i_inv b y -> i_unreserved op ->
  match i_step b y op with
  | Running y' => i_inv b y'
  | CommitRefused => False
  | StartupFailed _ => True
  end.
Proof.
  intros I Hu. destruct op as [t k v|t k| | |cands|cands|].
  - by apply step_register.
  - by apply step_other.
  - by destruct (step_commit b y I) as (y' & -> & ?).
  - done.
  - by destruct (step_sweep b y cands I) as (y' & -> & ?).
  - by destruct (step_sweep_fails b y cands I) as (y' & -> & ?).
  - pose proof (step_restart b y I) as H. by destruct (i_step b y IRestart); [destruct H| |].
Qed.

Lemma i_run_inv b ops : forall y, i_inv b y -> Forall i_unreserved ops ->
  match i_run b y ops with
  | Running y' => i_inv b y'
  | CommitRefused => False
  | StartupFailed _ => True
  end.
Proof.
  induction ops as [|op ops IH]; intros y I Hu; cbn [i_run]; [done|].
  apply Forall_cons_1 in Hu as [Hu Hus]. pose proof (i_step_inv b y op I Hu) as H.
  destruct (i_step b y op); [by apply IH|done|done].
Qed.

(** ** What the durable registrar promises *)

(** C17: staged registrations always become durable, and an ID means one name
    for ever.  From an empty store, over any sequence of registrations,
    overflow lookups, group commits (successful or rolled back for another
    reason), garbage-collection sweeps (committed or failed) and restarts, a
    commit is never refused by a constraint of the dictionary table; of all
    the rows ever committed, swept ones included, no two share an ID; every
    entry in memory is committed or staged; and a restart gives every
    committed name the ID it had.  The reserved value ["__other__"] must not
    be registered as an ordinary name. *)
Theorem registrations_commit b ops : Forall i_unreserved ops ->
  match i_run b (i_init b) ops with
  | Running y =>
      NoDup (de_ID <$> y_log y) /\
      (forall id e, y_db y !! id = Some e -> e ∈ y_log y) /\
      (forall id e, d_byID (y_reg y) !! id = Some e -> y_db y !! id = Some e \/ d_pending (y_reg y) !! id = Some e) /\
      match i_step b y IRestart with
      | Running y' => forall id e, y_db y !! id = Some e -> nget (d_ids (y_reg y')) (de_scope e) (de_Value e) = Some id
      | CommitRefused => False
      | StartupFailed _ => MaxDictRows < Z.of_nat (size (y_db y))
      end
  | CommitRefused => False
  | StartupFailed _ => True
  end.
Proof.
  intros Hu. pose proof (i_run_inv b ops (i_init b) (i_init_inv b) Hu) as H.
  destruct (i_run b (i_init b) ops) as [y| |]; [|done|done].
  split_and!; [apply H|intros id e He; by apply (ii_db _ _ H id)|apply H|].
  pose proof (step_restart b y H) as Hr. destruct (i_step b y IRestart) as [y'| |]; [|done|done].
  destruct Hr as [I' Ey]. intros id e He. apply (df_back _ (ii_full _ _ I')). by rewrite Ey.
Qed.

Definition demo_bounds : Bounds := mkBounds 0 0 2 {[KindService := 2]} {[KindOperation := 3]}.

Definition demo_iops : list iop :=
  [IRegister 0 1 "acme"; IRegister 1 2 "api"; ICommit; IRegister 1 2 "web"; IRegister 1 2 "db"; IOther 1 2;
   ICommitFails; ICommit; ISweep {[2; 3]}; IRegister 1 3 "GET /"; IRestart; ISweep {[2; 3]}; IRegister 1 2 "cache"; ICommit].

(** What the witness looks at: the live rows and every ID ever committed. *)
Definition run_rows (o : outcome) : option (list (Z * string) * list Z) :=
  match o with
  | Running y => Some (map (fun p => (p.1, de_Value p.2)) (map_to_list (y_db y)), de_ID <$> y_log y)
  | _ => None
  end.

Definition run_log (o : outcome) : list DictRow := match o with Running y => y_log y | _ => [] end.

Lemma registrations_commit_witness :
  Forall i_unreserved demo_iops /\
  run_rows (i_run demo_bounds (i_init demo_bounds) demo_iops) =
    Some ([(5, "cache"); (4, "__other__"); (1, "acme")], [1; 2; 3; 4; 5]) /\
  NoDup (de_ID <$> run_log (i_run demo_bounds (i_init demo_bounds) demo_iops)).
Proof.
  assert (Forall i_unreserved demo_iops) as Hu by (by repeat constructor).
  split; [exact Hu|]. split; [by vm_compute|].
  pose proof (registrations_commit demo_bounds demo_iops Hu) as H. unfold run_log.
  destruct (i_run demo_bounds (i_init demo_bounds) demo_iops); [exact (proj1 H)|constructor|constructor].
Defined.

(** C21: the dictionary is bounded.  In the same runs the entries of every
    (tenant, kind) never outnumber its limit, the entries of a kind across
    all tenants never outnumber the instance limit, and the tenants never
    outnumber the tenant cap, restarts and sweeps included; the three counters
    the caps are checked against, per tenant and kind, per kind and of tenants,
    are exactly the entries, overflow ones left out, so a collected entry makes
    room again. *)
Theorem registrar_capacity b ops y : Forall i_unreserved ops -> i_run b (i_init b) ops = Running y ->
  let r := y_reg y in
  let lim := Bounds_withDefaults b in
  (forall s, mget (d_counts r) s = map_sum (entry_in s) (d_byID r)) /\
  (forall k, mget (d_kindCounts r) k = map_sum (entry_of k) (d_byID r)) /\
  d_tenants r = map_sum (entry_of KindTenant) (d_byID r) /\
  (forall s n, PerTenantKind lim !! s.2 = Some n -> map_sum (entry_in s) (d_byID r) <= n) /\
  (forall k n, InstanceKind lim !! k = Some n -> map_sum (entry_of k) (d_byID r) <= n) /\
  map_sum (entry_of KindTenant) (d_byID r) <= MaxTenants lim.
Proof.
  intros Hu E. pose proof (i_run_inv b ops (i_init b) (i_init_inv b) Hu) as I. rewrite E in I. cbv zeta.
  pose proof (ii_full _ _ I) as F. destruct (ii_within _ _ I) as (H1 & H2 & H3). rewrite (ii_bounds _ _ I) in *.
  split_and!.
  - apply F.
  - apply F.
  - apply F.
  - intros s n Hs. rewrite <- (df_counts _ F). by apply H1.
  - intros k n Hk. rewrite <- (df_kinds _ F). by apply H2.
  - by rewrite <- (df_tenants _ F).
Qed.

Lemma registrar_capacity_witness :
  PerTenantKind (Bounds_withDefaults demo_bounds) !! KindService = Some 2 /\
  match i_run demo_bounds (i_init demo_bounds) (take 5 demo_iops) with
  | Running y => mget (d_counts (y_reg y)) (1, KindService) = 2 /\ map_sum (entry_in (1, KindService)) (d_byID (y_reg y)) <= 2
  | _ => False
  end.
Proof.
  split; [by vm_compute|].
  destruct (i_run demo_bounds (i_init demo_bounds) (take 5 demo_iops)) as [y| |e] eqn:E; [|vm_compute in E; discriminate E..].
  assert (Forall i_unreserved (take 5 demo_iops)) as Hu by (by repeat constructor).
  split; [|].
  - destruct (registrar_capacity demo_bounds (take 5 demo_iops) y Hu E) as (-> & _).
    vm_compute in E. injection E as <-. by vm_compute.
  - apply (proj1 (proj2 (proj2 (proj2 (registrar_capacity demo_bounds (take 5 demo_iops) y Hu E)))) (1, KindService)). by vm_compute.
Defined.

(** Finding: a client may name a service ["__other__"].  If its scope
    overflows later, the registrar mints the overflow entry as a second row
    of the same name, the unique index refuses the commit that carries it,
    and every later commit carries it again. *)
Theorem reserved_name_blocks_commits :
  let ops := [IRegister 0 1 "acme"; IRegister 1 2 "__other__"; IOther 1 2] in
  i_run demo_bounds (i_init demo_bounds) (ops ++ [ICommit]) = CommitRefused /\
  i_run demo_bounds (i_init demo_bounds) (ops ++ [ICommitFails; IRegister 1 2 "api"; ICommit]) = CommitRefused /\
  match i_run demo_bounds (i_init demo_bounds) ops with
  | Running y => (fun e => (de_ID e, de_Value e)) <$> d_DrainPending (y_reg y) = [(1, "acme"); (2, "__other__"); (3, "__other__")]
  | _ => False
  end.
Proof. by vm_compute. Qed.
