(* ===== verification/Gc.v ===== *)
(** * Gc: the identity garbage collector ([internal/aggregate/gc.go])

    Mark and sweep over the dictionary, the series table and the template
    table.  The mark phase takes a snapshot of the tables and the roots the
    in-memory components report; the sweep revalidates, fences, deletes in one
    transaction and only then forgets.  A Go [range] over a map that grows
    while it is read visits every entry present at the start and possibly some
    added later: the visited additions are the [extra] arguments, which no
    theorem restricts. *)
From stdpp Require Import sorting.
From S2P Require Import Prelude SeriesKey Varint Dict Registrar Identity.
#[local] Open Scope Z_scope.

(** ** Tables and snapshot *)

(* internal/aggregate/store.go:230-258 TemplateRow *)
Record TemplateRow := mkTemplateRow {
  tr_ID : Z;
  tr_Tenant : string;
  tr_Service : string;
  tr_PatternVersion : Z;
  tr_Tokens : string;
  tr_Seq : Z;
  tr_IsOther : bool;
  tr_AliasOf : Z;
  tr_Count : Z;
  tr_FirstSeen : Z;
  tr_LastSeen : Z;
}.

(* internal/aggregate/store.go:295-303 GCSnapshot *)
Record GCSnapshot := mkGCSnapshot {
  gs_Referenced : gset Z;
  gs_Series : list SeriesRow;
  gs_Dict : list DictRow;
  gs_Templates : list TemplateRow;
}.

(** The counts of [GCStats]; the durations are wall-clock readings. *)
(* internal/aggregate/gc.go:55-73 GCStats *)
Record GCStats := mkGCStats {
  SeriesScanned : Z; DictScanned : Z; TemplatesScanned : Z;
  SeriesSwept : Z; DictSwept : Z; TemplatesSwept : Z;
  SeriesRetained : Z; DictRetained : Z;
  Revalidated : Z;
}.

(* internal/aggregate/gc.go:146-162 markSet *)
Record markSet := mkMarkSet {
  seriesCandidates : gset Z;
  dictCandidates : gset Z;
  templateRows : gset Z;
  candidateKeys : gmap Z SeriesKey;
  dimTuples : gmap Z string;
}.

(** ** Marking *)

(* internal/aggregate/gc.go:269-275 markSeriesDict *)
Definition markSeriesDict (k : SeriesKey) (live : gset Z) : gset Z :=
  foldl (fun live id => if negb (id =? 0) then {[id]} ∪ live else live) live [TenantID k; ServiceID k; NameID k; DimsID k].

(** [enc] as bytes. *)
Definition bytes_of_str (s : string) : bytes := (fun c => Z.of_N (Ascii.N_of_ascii c)) <$> String.list_ascii_of_string s.

(** A marked component: positive and within [uint32]. *)
Definition markComponent (id : Z) (live : gset Z) : gset Z :=
  if (0 <? id) && (id <=? MaxUint32) then {[id]} ∪ live else live.

(** The decoding loop; each turn consumes at least two bytes. *)
Fixpoint dimLoop (fuel : nat) (enc : bytes) (live : gset Z) : gset Z :=
  match fuel, enc with
  | O, _ | _, [] => live
  | S fuel, _ =>
      let '(keyID, n) := Uvarint enc in
      if n <=? 0 then live
      else
        let enc := drop (Z.to_nat n) enc in
        let '(valueID, n) := Uvarint enc in
        if n <=? 0 then live
        else dimLoop fuel (drop (Z.to_nat n) enc) (markComponent valueID (markComponent keyID live))
  end.

(* internal/aggregate/gc.go:281-300 markDimComponents *)
Definition markDimComponents (enc : string) (live : gset Z) : gset Z :=
  dimLoop (length (bytes_of_str enc)) (bytes_of_str enc) live.

(** [for id := range live { live = f(id, live) }]. *)
Definition range_grow (f : Z -> gset Z -> gset Z) (extra : list Z) (live : gset Z) : gset Z :=
  foldl (fun acc id => if decide (id ∈ acc) then f id acc else acc)
    (foldl (fun acc id => f id acc) live (elements live)) extra.

(** The two maps of [markAliasClosure]. *)
Definition aliasOf (rows : list TemplateRow) : gmap Z Z :=
  foldl (fun m row => if negb (tr_AliasOf row =? 0) then <[tr_ID row := tr_AliasOf row]> m else m) ∅ rows.

Definition aliasFrom (rows : list TemplateRow) : gmap Z (list Z) :=
  foldl (fun m row =>
    if negb (tr_AliasOf row =? 0)
    then <[tr_AliasOf row := default [] (m !! tr_AliasOf row) ++ [tr_ID row]]> m else m) ∅ rows.

(** Mark one neighbour, and queue it when it is new. *)
Definition reach (acc : gset Z * list Z) (id : Z) : gset Z * list Z :=
  if decide (id ∈ acc.1) then acc else ({[id]} ∪ acc.1, id :: acc.2).

(** The neighbours of a template: what it forwards to and what forwards to it. *)
Definition neighbours (rows : list TemplateRow) (id : Z) : list Z :=
  match aliasOf rows !! id with Some to => [to] | None => [] end ++ default [] (aliasFrom rows !! id).

(** The worklist, last pushed first. *)
Fixpoint aliasLoop (fuel : nat) (rows : list TemplateRow) (live : gset Z) (queue : list Z) : gset Z :=
  match fuel, queue with
  | O, _ | _, [] => live
  | S fuel, id :: queue =>
      let '(live, queue) := foldl reach (live, queue) (neighbours rows id) in
      aliasLoop fuel rows live queue
  end.

(** One turn per ID that can ever be queued: the ones live at the start, and
    the two of every row. *)
(* internal/aggregate/gc.go:305-337 markAliasClosure *)
Definition markAliasClosure (rows : list TemplateRow) (live : gset Z) : gset Z :=
  aliasLoop (size live + 2 * length rows) rows live (elements live).

(** One row of the series loop: the row is retained, or becomes a candidate. *)
Definition mark_series (liveSeries : gset Z) (activeKeys : gset SeriesKey)
    (acc : Z * gset Z * gmap Z SeriesKey * gset Z) (row : SeriesRow) : Z * gset Z * gmap Z SeriesKey * gset Z :=
  let '(retained, candidates, keys, live) := acc in
  if bool_decide (sr_ID row ∈ liveSeries) || bool_decide (sr_Key row ∈ activeKeys)
  then (retained + 1, candidates, keys, markSeriesDict (sr_Key row) live)
  else (retained, {[sr_ID row]} ∪ candidates, <[sr_ID row := sr_Key row]> keys, live).

Definition tuples_of (rows : list DictRow) : gmap Z string :=
  foldl (fun m row => if de_Kind row =? KindDimTuple then <[de_ID row := de_Value row]> m else m) ∅ rows.

Definition dict_by_id (rows : list DictRow) : gmap Z DictRow := foldl (fun m row => <[de_ID row := row]> m) ∅ rows.

(** Mark the components of the tuple [id], if it is one. *)
Definition mark_tuple (tuples : gmap Z string) (id : Z) (live : gset Z) : gset Z :=
  match tuples !! id with Some enc => markDimComponents enc live | None => live end.

(** Mark the tenant that scopes the entry [id]. *)
Definition mark_tenant (rows : gmap Z DictRow) (id : Z) (live : gset Z) : gset Z :=
  match rows !! id with
  | Some row => if negb (de_Tenant row =? GlobalTenant) then {[de_Tenant row]} ∪ live else live
  | None => live
  end.

(** What the other components report as roots when the mark phase asks. *)
Record GCRoots := mkGCRoots {
  rt_series : gset Z;
  rt_active : gset SeriesKey;
  rt_miner : option (gset Z);
  rt_registrar : gset Z;
  rt_cache : option (gset Z);
}.

(* internal/aggregate/gc.go:165-266 markPhase *)
Definition markPhase (extra1 extra2 : list Z) (snap : GCSnapshot) (roots : GCRoots) (stats : GCStats) : markSet * GCStats :=
  let liveSeries := gs_Referenced snap ∪ rt_series roots in
  let tuples := tuples_of (gs_Dict snap) in
  let '(retained, candidates, keys, live) :=
    foldl (mark_series liveSeries (rt_active roots)) (SeriesRetained stats, ∅, ∅, ∅) (gs_Series snap) in
  let live := range_grow (mark_tuple tuples) extra1 live in
  let live := default ∅ (rt_miner roots) ∪ live in
  let live := markAliasClosure (gs_Templates snap) live in
  let live := rt_registrar roots ∪ live in
  let live := default ∅ (rt_cache roots) ∪ live in
  let live := range_grow (mark_tenant (dict_by_id (gs_Dict snap))) extra2 live in
  let dead := filter (fun row => de_ID row ∉ live) (gs_Dict snap) in
  (mkMarkSet candidates (list_to_set (de_ID <$> dead)) (list_to_set (tr_ID <$> gs_Templates snap)) keys tuples,
   mkGCStats (Z.of_nat (length (gs_Series snap))) (Z.of_nat (length (gs_Dict snap))) (Z.of_nat (length (gs_Templates snap)))
     (SeriesSwept stats) (DictSwept stats) (TemplatesSwept stats) retained
     (DictRetained stats + (Z.of_nat (length (gs_Dict snap)) - Z.of_nat (length dead))) (Revalidated stats)).

(** ** Sweeping *)

(** The three identity tables. *)
Record Tables := mkTables {
  t_series : gmap Z SeriesKey;
  t_dict : gmap Z DictRow;
  t_templates : gmap Z TemplateRow;
}.

(** [DELETE ... WHERE id IN ids]: the table and the rows affected. *)
Definition deleteByID {A} (m : gmap Z A) (ids : list Z) : gmap Z A * Z :=
  let m' := foldl (fun m id => delete id m) m ids in
  (m', Z.of_nat (size m) - Z.of_nat (size m')).

(** One transaction; [fail] is the error SQLite answers, if it does. *)
(* internal/aggregate/store_sqlite.go:2601-2655 SQLiteStore.SweepIdentities *)
Definition SweepIdentities (fail : option string) (t : Tables) (series dict templates : list Z)
    : result string (Tables * (Z * Z * Z)) :=
  match series, dict, templates with
  | [], [], [] => Ok (t, (0, 0, 0))
  | _, _, _ =>
      match fail with
      | Some e => Err e
      | None =>
          let '(s, n1) := deleteByID (t_series t) series in
          let '(d, n2) := deleteByID (t_dict t) dict in
          let '(m, n3) := deleteByID (t_templates t) templates in
          Ok (mkTables s d m, (n1, n2, n3))
      end
  end.

(** The memory the sweep works on; the cache holds the registrar it fronts. *)
Record GCMemory := mkGCMemory {
  gm_cache : Cache DurableRegistrar;
  gm_hasCache : bool;
  gm_series : seriesRegistry;
}.

Definition gm_reg (m : GCMemory) : DurableRegistrar := c_reg (gm_cache m).

Definition on_reg (f : DurableRegistrar -> DurableRegistrar) (m : GCMemory) : GCMemory :=
  mkGCMemory (set_reg (gm_cache m) (f (gm_reg m))) (gm_hasCache m) (gm_series m).

Definition on_cache (f : Cache DurableRegistrar -> Cache DurableRegistrar) (m : GCMemory) : GCMemory :=
  if gm_hasCache m then mkGCMemory (f (gm_cache m)) (gm_hasCache m) (gm_series m) else m.

Definition on_series (f : seriesRegistry -> seriesRegistry) (m : GCMemory) : GCMemory :=
  mkGCMemory (gm_cache m) (gm_hasCache m) (f (gm_series m)).

(* internal/aggregate/gc.go:430-437 sortedSeriesIDs *)
Definition sortedSeriesIDs (ids : gset Z) : list Z := merge_sort Z.le (elements ids).

(* internal/aggregate/gc.go:440-447 sortedDictIDs *)
Definition sortedDictIDs (ids : gset Z) : list Z := merge_sort Z.le (elements ids).

(** The identities of the candidates the barrier rescued. *)
Definition rescued_keys (ms : markSet) (survivors : gset Z) : list SeriesKey :=
  (fun p => p.2) <$> filter (fun p => p.1 ∈ seriesCandidates ms /\ p.1 ∉ survivors) (map_to_list (candidateKeys ms)).

(** What a rescued series keeps alive. *)
Definition remark (extra : list Z) (ms : markSet) (survivors : gset Z) : gset Z :=
  range_grow (mark_tuple (dimTuples ms)) extra (foldl (fun acc k => markSeriesDict k acc) ∅ (rescued_keys ms survivors)).

(* internal/aggregate/gc.go:340-426 sweepPhase *)
Definition sweepPhase (extra : list Z) (fail : option string) (m : GCMemory) (t : Tables) (ms : markSet) (stats : GCStats)
    : GCMemory * Tables * GCStats * option string :=
  let before := Z.of_nat (size (seriesCandidates ms)) + Z.of_nat (size (dictCandidates ms)) in
  let rescued := length (filter (fun p => p.1 ∈ seriesCandidates ms) (map_to_list (candidateKeys ms))) in
  let series := s_revalidateLocked (gm_series m) (seriesCandidates ms) in
  let dict := d_Revalidate (gm_reg m) (dictCandidates ms) ∖ remark extra ms series in
  let stats := mkGCStats (SeriesScanned stats) (DictScanned stats) (TemplatesScanned stats)
                 (SeriesSwept stats) (DictSwept stats) (TemplatesSwept stats)
                 (SeriesRetained stats + Z.of_nat rescued - Z.of_nat (size series)) (DictRetained stats)
                 (before - (Z.of_nat (size series) + Z.of_nat (size dict))) in
  if bool_decide (series = ∅) && bool_decide (dict = ∅) then
    (on_series s_clearTouchedLocked (on_reg d_ClearTouched m), t, stats, None)
  else
    let m := on_cache (fun c => c_Fence c dict) (on_reg (fun r => d_Fence r dict) m) in
    let seriesIDs := sortedSeriesIDs series in
    let dictIDs := sortedDictIDs dict in
    let templateIDs := filter (fun id => id ∈ templateRows ms) dictIDs in
    match SweepIdentities fail t seriesIDs dictIDs templateIDs with
    | Err e => (on_cache c_Unfence (on_reg d_Unfence m), t, stats, Some e)
    | Ok (t, (n1, n2, n3)) =>
        let stats := mkGCStats (SeriesScanned stats) (DictScanned stats) (TemplatesScanned stats) n1 n2 n3
                       (SeriesRetained stats) (DictRetained stats) (Revalidated stats) in
        let m := on_series (fun s => s_forgetLocked s series) m in
        let m := on_cache (fun c => c_Unfence (c_Forget c dict)) m in
        (on_reg (fun r => d_Forget r dict) m, t, stats, None)
    end.

(** The whole pass.  [snap] is what the snapshot read returned, [barrier] the
    error the barrier answers when the writer is closed; the sweep runs on the
    memory and the tables as they are when the barrier runs it. *)
(* internal/aggregate/gc.go:110-143 Collect *)
Definition Collect (extra1 extra2 extra3 : list Z) (configured : bool) (snap : result string GCSnapshot) (roots : GCRoots)
    (barrier : option string) (fail : option string) (m : GCMemory) (t : Tables)
    : GCMemory * Tables * GCStats * option string :=
  let stats := mkGCStats 0 0 0 0 0 0 0 0 0 in
  if negb configured then (m, t, stats, None)
  else
    match snap with
    | Err e => (m, t, stats, Some e)
    | Ok snap =>
        let '(ms, stats) := markPhase extra1 extra2 snap roots stats in
        match barrier with
        | Some e => (m, t, stats, Some e)
        | None => sweepPhase extra3 fail m t ms stats
        end
    end.

(** ** What marking adds *)

(** The dictionary IDs a series key names. *)
Definition key_ids (k : SeriesKey) : gset Z :=
  list_to_set (filter (fun id => id <> 0) [TenantID k; ServiceID k; NameID k; DimsID k]).

Lemma elem_of_markSeriesDict k live id : id ∈ markSeriesDict k live <-> id ∈ live \/ id ∈ key_ids k.
Proof.
  unfold markSeriesDict, key_ids. generalize [TenantID k; ServiceID k; NameID k; DimsID k] as l. intros l. revert live.
  induction l as [|x l IH]; intros live; cbn [foldl]; [set_solver|]. rewrite IH, filter_cons.
  destruct (Z.eqb_spec x 0) as [->|Hx]; cbn [negb]; [rewrite decide_False by tauto; done|].
  rewrite decide_True by done. set_solver.
Qed.

Lemma markComponent_union id live : markComponent id live = markComponent id ∅ ∪ live.
Proof. unfold markComponent. destruct (_ && _); set_solver. Qed.

Lemma dimLoop_union fuel : forall enc live, dimLoop fuel enc live = dimLoop fuel enc ∅ ∪ live.
Proof.
  induction fuel as [|fuel IH]; intros enc live; cbn [dimLoop]; [set_solver|].
  destruct enc as [|b enc]; [set_solver|]. destruct (Uvarint _) as [k n]. destruct (n <=? 0); [set_solver|].
  destruct (Uvarint _) as [v n2]. destruct (n2 <=? 0); [set_solver|]. rewrite IH. symmetry. rewrite IH.
  rewrite (markComponent_union v (markComponent k live)), (markComponent_union k live).
  rewrite (markComponent_union v (markComponent k ∅)), (markComponent_union k ∅). set_solver.
Qed.

(** The components of a tuple's encoding. *)
Definition dims_of (enc : string) : gset Z := markDimComponents enc ∅.

Lemma elem_of_markDimComponents enc live id : id ∈ markDimComponents enc live <-> id ∈ live \/ id ∈ dims_of enc.
Proof. unfold dims_of, markDimComponents. rewrite dimLoop_union. set_solver. Qed.

(** The decoder of the collector and the encoder of the dictionary agree: the
    components of a canonical tuple are exactly the IDs of its pairs. *)
Definition pair_ids (p : DimPair) : gset Z := filter (fun id => 0 < id) {[dp_KeyID p; dp_ValueID p]}.

Definition pair_ok (p : DimPair) : Prop := 0 <= dp_KeyID p <= MaxUint32 /\ 0 <= dp_ValueID p <= MaxUint32.

Definition encode_pairs (l : list DimPair) : bytes :=
  l ≫= fun p => AppendUvarint [] (dp_KeyID p) ++ AppendUvarint [] (dp_ValueID p).

Lemma AppendUvarint_app dst x : AppendUvarint dst x = dst ++ AppendUvarint [] x.
Proof. done. Qed.

Lemma encode_foldl l : forall dst,
  foldl (fun dst p => AppendUvarint (AppendUvarint dst (dp_KeyID p)) (dp_ValueID p)) dst l = dst ++ encode_pairs l.
Proof.
  induction l as [|p l IH]; intros dst; cbn [foldl]; [by rewrite app_nil_r|]. rewrite IH.
  rewrite (AppendUvarint_app (AppendUvarint dst _)), (AppendUvarint_app dst). unfold encode_pairs. rewrite bind_cons.
  by rewrite <- !app_assoc.
Qed.

Lemma AppendUvarint_pos x : (0 < length (AppendUvarint [] x))%nat.
Proof.
  unfold AppendUvarint. cbn [app]. pose proof (put_uvarint_nonempty 9 x). destruct (put_uvarint 9 x); [done|cbn; lia].
Qed.

Lemma markComponent_id id : 0 <= id <= MaxUint32 -> markComponent id ∅ = filter (fun id => 0 < id) {[id]}.
Proof.
  intros H. unfold markComponent. apply set_eq. intros x. rewrite elem_of_filter, elem_of_singleton.
  destruct (Z.ltb_spec 0 id); cbn [andb].
  - destruct (Z.leb_spec id MaxUint32); [|lia]. rewrite elem_of_union, elem_of_singleton, elem_of_empty. naive_solver.
  - rewrite elem_of_empty. split; [done|]. intros [? ->]. lia.
Qed.

Lemma dimLoop_encode l : Forall pair_ok l -> forall fuel, (length (encode_pairs l) <= fuel)%nat ->
  dimLoop fuel (encode_pairs l) ∅ = ⋃ (pair_ids <$> l).
Proof.
  induction 1 as [|p l [Hk Hv] _ IH]; intros fuel Hfuel; [destruct fuel; done|].
  unfold encode_pairs in *. rewrite bind_cons in *. fold (encode_pairs l) in *. rewrite <- app_assoc in *.
  pose proof (AppendUvarint_pos (dp_KeyID p)) as P1. pose proof (AppendUvarint_pos (dp_ValueID p)) as P2.
  rewrite !length_app in Hfuel. destruct fuel as [|fuel]; [lia|]. cbn [dimLoop].
  destruct (AppendUvarint [] (dp_KeyID p) ++ _) as [|b enc] eqn:E.
  { apply (f_equal length) in E. rewrite length_app in E. cbn [length] in E. lia. }
  rewrite <- E. rewrite Uvarint_AppendUvarint by (unfold MaxUint32 in *; lia).
  destruct (Z.leb_spec (Z.of_nat (length (AppendUvarint [] (dp_KeyID p)))) 0); [lia|].
  rewrite Nat2Z.id, drop_app_length, Uvarint_AppendUvarint by (unfold MaxUint32 in *; lia).
  destruct (Z.leb_spec (Z.of_nat (length (AppendUvarint [] (dp_ValueID p)))) 0); [lia|].
  rewrite Nat2Z.id, drop_app_length, dimLoop_union, IH by lia.
  rewrite (markComponent_union (dp_ValueID p)), !markComponent_id by done.
  cbn [fmap list_fmap union_list]. unfold pair_ids. set_solver.
Qed.

Lemma bytes_of_str_of_bytes b : Forall is_byte b -> bytes_of_str (str_of_bytes b) = b.
Proof.
  intros H. unfold bytes_of_str, str_of_bytes. rewrite String.list_ascii_of_string_of_list_ascii.
  induction H as [|x b Hx _ IH]; [done|]. cbn [map fmap list_fmap]. rewrite IH. f_equal.
  unfold is_byte in Hx. rewrite Ascii.N_ascii_embedding by lia. lia.
Qed.

Lemma encode_pairs_bytes l : Forall is_byte (encode_pairs l).
Proof.
  induction l as [|p l IH]; [constructor|]. unfold encode_pairs. rewrite bind_cons. repeat apply Forall_app_2; auto; apply put_uvarint_bytes.
Qed.

Lemma AppendCanonicalDims_encode pairs : AppendCanonicalDims [] pairs = encode_pairs (merge_sort pair_le pairs).
Proof.
  destruct pairs as [|p pairs]; [done|]. unfold AppendCanonicalDims. by rewrite encode_foldl.
Qed.

Lemma dims_of_canonical pairs : Forall pair_ok pairs ->
  dims_of (str_of_bytes (AppendCanonicalDims [] pairs)) = ⋃ (pair_ids <$> pairs).
Proof.
  intros Hok. rewrite AppendCanonicalDims_encode. pose proof (merge_sort_Permutation pair_le pairs) as P.
  unfold dims_of, markDimComponents. rewrite bytes_of_str_of_bytes by apply encode_pairs_bytes.
  rewrite dimLoop_encode; [by rewrite P|by rewrite P|done].
Qed.

(** *** A growing range *)

Section range_grow.
Context (f : Z -> gset Z -> gset Z) (adds : Z -> gset Z).
Context (Hf : forall id acc x, x ∈ f id acc <-> x ∈ acc \/ x ∈ adds id).

Lemma range_visits l : forall acc x,
  x ∈ foldl (fun acc id => f id acc) acc l <-> x ∈ acc \/ exists id, id ∈ l /\ x ∈ adds id.
Proof.
  induction l as [|id l IH]; intros acc x; cbn [foldl].
  - split; [by left|]. intros [?|(? & []%elem_of_nil & _)]. done.
  - rewrite IH, Hf. split.
    + intros [[?|?]|(i & ? & ?)]; [by left|right; exists id; split; [by left|done]|right; exists i; split; [by right|done]].
    + intros [?|(i & [->|?]%elem_of_cons & ?)]; [by left; left|by left; right|right; eauto].
Qed.

Lemma range_extra extra : forall acc, acc ⊆ foldl (fun acc id => if decide (id ∈ acc) then f id acc else acc) acc extra.
Proof.
  induction extra as [|id extra IH]; intros acc; cbn [foldl]; [done|]. etrans; [|apply IH].
  case_decide; [|done]. intros x Hx. apply Hf. by left.
Qed.

Lemma range_grow_spec extra live :
  live ⊆ range_grow f extra live /\ forall id, id ∈ live -> adds id ⊆ range_grow f extra live.
Proof.
  unfold range_grow. split.
  - etrans; [|apply range_extra]. intros x Hx. apply range_visits. by left.
  - intros id Hid x Hx. apply range_extra, range_visits. right. exists id. split; [by apply elem_of_elements|done].
Qed.
End range_grow.

Definition tuple_adds (tuples : gmap Z string) (id : Z) : gset Z := from_option dims_of ∅ (tuples !! id).

Lemma mark_tuple_adds tuples id acc x : x ∈ mark_tuple tuples id acc <-> x ∈ acc \/ x ∈ tuple_adds tuples id.
Proof.
  unfold mark_tuple, tuple_adds. destruct (tuples !! id); [apply elem_of_markDimComponents|]. cbn. set_solver.
Qed.

Definition tenant_adds (rows : gmap Z DictRow) (id : Z) : gset Z :=
  from_option (fun row => if negb (de_Tenant row =? GlobalTenant) then {[de_Tenant row]} else ∅) ∅ (rows !! id).

Lemma mark_tenant_adds rows id acc x : x ∈ mark_tenant rows id acc <-> x ∈ acc \/ x ∈ tenant_adds rows id.
Proof.
  unfold mark_tenant, tenant_adds. destruct (rows !! id) as [row|]; cbn [from_option]; [|set_solver].
  destruct (negb _); set_solver.
Qed.

(** *** Alias chains *)

Lemma reach_fold l : forall live queue,
  let '(live', queue') := foldl reach (live, queue) l in
  (forall x, x ∈ live' <-> x ∈ live \/ x ∈ l) /\
  (forall x, x ∈ queue' <-> x ∈ queue \/ (x ∈ l /\ x ∉ live)) /\
  (length queue' + size live = length queue + size live')%nat.
Proof.
  induction l as [|id l IH]; intros live queue; cbn [foldl].
  - split_and!; [set_solver|set_solver|done].
  - unfold reach at 2. cbn [fst snd]. destruct (decide (id ∈ live)) as [Hin|Hin].
    + specialize (IH live queue). destruct (foldl reach (live, queue) l) as [live' queue']. destruct IH as (A & B & C).
      split_and!; [set_solver| |done]. intros x. rewrite B, elem_of_cons. set_solver.
    + specialize (IH ({[id]} ∪ live) (id :: queue)). destruct (foldl reach _ l) as [live' queue']. destruct IH as (A & B & C).
      split_and!; [set_solver| |].
      * intros x. rewrite B, !elem_of_cons. destruct (decide (x = id)); set_solver.
      * rewrite size_union in C by set_solver. rewrite size_singleton in C. cbn [length] in C. lia.
Qed.

(** The IDs a row can bring in. *)
Definition row_ids (rows : list TemplateRow) : gset Z := list_to_set (rows ≫= fun row => [tr_ID row; tr_AliasOf row]).

Lemma row_ids_size rows : (size (row_ids rows) <= 2 * length rows)%nat.
Proof.
  unfold row_ids. induction rows as [|row rows IH]; [done|]. rewrite bind_cons. cbn [app list_to_set length].
  etrans; [apply subseteq_size with (Y := {[tr_ID row]} ∪ ({[tr_AliasOf row]} ∪ list_to_set (rows ≫= fun row => [tr_ID row; tr_AliasOf row]))); set_solver|].
  pose proof (size_union_alt ({[tr_ID row]} : gset Z) ({[tr_AliasOf row]} ∪ list_to_set (rows ≫= fun row => [tr_ID row; tr_AliasOf row]))) as H1.
  pose proof (size_union_alt ({[tr_AliasOf row]} : gset Z) (list_to_set (rows ≫= fun row => [tr_ID row; tr_AliasOf row]))) as H2.
  rewrite size_singleton in H1, H2.
  assert (forall (a b : gset Z), size (a ∖ b) <= size a)%nat as Hd by (intros; apply subseteq_size; set_solver).
  pose proof (Hd ({[tr_AliasOf row]} ∪ list_to_set (rows ≫= fun row => [tr_ID row; tr_AliasOf row])) {[tr_ID row]}).
  pose proof (Hd (list_to_set (rows ≫= fun row => [tr_ID row; tr_AliasOf row])) {[tr_AliasOf row]}). lia.
Qed.

Lemma aliasOf_some rows id to : aliasOf rows !! id = Some to ->
  exists row, row ∈ rows /\ tr_ID row = id /\ tr_AliasOf row = to /\ to <> 0.
Proof.
  unfold aliasOf. assert (forall m : gmap Z Z,
    foldl (fun m row => if negb (tr_AliasOf row =? 0) then <[tr_ID row := tr_AliasOf row]> m else m) m rows !! id = Some to ->
    m !! id = Some to \/ exists row, row ∈ rows /\ tr_ID row = id /\ tr_AliasOf row = to /\ to <> 0) as H.
  { induction rows as [|row rows IH]; intros m; cbn [foldl]; [by left|]. intros [H|(r & ? & ?)]%IH; [|right; exists r; split; [by right|done]].
    destruct (Z.eqb_spec (tr_AliasOf row) 0); cbn [negb] in H; [by left|]. rewrite lookup_insert in H.
    destruct (decide _) as [<-|]; [|by left]. injection H as <-. right. exists row. split_and!; [by left|done..]. }
  intros [?|?]%H; [by rewrite lookup_empty in *|done].
Qed.

Lemma aliasOf_row rows row : NoDup (tr_ID <$> rows) -> row ∈ rows -> tr_AliasOf row <> 0 -> aliasOf rows !! tr_ID row = Some (tr_AliasOf row).
Proof.
  unfold aliasOf. generalize (∅ : gmap Z Z) as m.
  assert (forall rows (m : gmap Z Z) id, id ∉ (tr_ID <$> rows) ->
    foldl (fun m row => if negb (tr_AliasOf row =? 0) then <[tr_ID row := tr_AliasOf row]> m else m) m rows !! id = m !! id) as Hkeep.
  { clear. induction rows as [|r rows IH]; intros m id; cbn [foldl fmap list_fmap]; [done|]. intros [Hn Hr]%not_elem_of_cons.
    rewrite IH by done. destruct (negb _); [|done]. by rewrite lookup_insert_ne by congruence. }
  induction rows as [|r rows IH]; intros m Hnd Hin Ha; [by apply elem_of_nil in Hin|].
  cbn [fmap list_fmap] in Hnd. apply NoDup_cons in Hnd as [Hn Hnd]. cbn [foldl].
  apply elem_of_cons in Hin as [->|Hin]; [|by apply IH].
  rewrite Hkeep by done. destruct (Z.eqb_spec (tr_AliasOf r) 0); [done|]. apply lookup_insert_eq.
Qed.

Lemma aliasFrom_elem rows to id : id ∈ default [] (aliasFrom rows !! to) <-> exists row, row ∈ rows /\ tr_ID row = id /\ tr_AliasOf row = to /\ to <> 0.
Proof.
  unfold aliasFrom. assert (forall m : gmap Z (list Z),
    id ∈ default [] (foldl (fun m row => if negb (tr_AliasOf row =? 0)
      then <[tr_AliasOf row := default [] (m !! tr_AliasOf row) ++ [tr_ID row]]> m else m) m rows !! to) <->
    id ∈ default [] (m !! to) \/ exists row, row ∈ rows /\ tr_ID row = id /\ tr_AliasOf row = to /\ to <> 0) as H.
  { induction rows as [|row rows IH]; intros m; cbn [foldl].
    - split; [by left|]. intros [?|(? & []%elem_of_nil & _)]. done.
    - rewrite IH. clear IH. destruct (Z.eqb_spec (tr_AliasOf row) 0) as [E|E]; cbn [negb].
      + split; [intros [?|(r & ? & ?)]; [by left|right; exists r; split; [by right|done]]|].
        intros [?|(r & [->|?]%elem_of_cons & ? & ? & ?)]; [by left|congruence|right; exists r; done].
      + rewrite lookup_insert. destruct (decide (tr_AliasOf row = to)) as [<-|Hne].
        * cbn. rewrite elem_of_app, list_elem_of_singleton. split.
          -- intros [[?| ->]|(r & ? & ?)]; [by left|right; exists row; split; [by left|done]|right; exists r; split; [by right|done]].
          -- intros [?|(r & [->|?]%elem_of_cons & <- & ? & ?)]; [by left; left|by left; right|right; exists r; done].
        * split; [intros [?|(r & ? & ?)]; [by left|right; exists r; split; [by right|done]]|].
          intros [?|(r & [->|?]%elem_of_cons & ? & ? & ?)]; [by left|congruence|right; exists r; done]. }
  rewrite H, lookup_empty. cbn. rewrite elem_of_nil. naive_solver.
Qed.

Lemma neighbours_rows rows id x : x ∈ neighbours rows id -> x ∈ row_ids rows.
Proof.
  unfold neighbours, row_ids. rewrite elem_of_app, elem_of_list_to_set, list_elem_of_bind. intros [Hx|Hx].
  - destruct (aliasOf rows !! id) as [to|] eqn:E; [|by apply elem_of_nil in Hx]. apply list_elem_of_singleton in Hx as ->.
    apply aliasOf_some in E as (row & ? & ? & <- & _). exists row. split; [right; by left|done].
  - apply aliasFrom_elem in Hx as (row & ? & <- & _). exists row. split; [by left|done].
Qed.

(** The worklist reaches a set closed under the neighbour relation. *)
Lemma aliasLoop_closed rows fuel : forall live queue,
  (forall id, id ∈ live -> id ∈ queue \/ forall x, x ∈ neighbours rows id -> x ∈ live) ->
  (forall id, id ∈ queue -> id ∈ live) ->
  (length queue + size (row_ids rows ∖ live) <= fuel)%nat ->
  live ⊆ aliasLoop fuel rows live queue /\
  (forall id x, id ∈ aliasLoop fuel rows live queue -> x ∈ neighbours rows id -> x ∈ aliasLoop fuel rows live queue) /\
  (forall S : gset Z, live ⊆ S -> (forall id x, id ∈ S -> x ∈ neighbours rows id -> x ∈ S) -> aliasLoop fuel rows live queue ⊆ S).
Proof.
  induction fuel as [|fuel IH]; intros live queue Hinv Hq Hfuel.
  - destruct queue as [|]; [|cbn in Hfuel; lia]. cbn [aliasLoop]. split_and!; [done| |done].
    intros id x Hid. destruct (Hinv id Hid) as [[]%elem_of_nil|]. auto.
  - destruct queue as [|id queue]; cbn [aliasLoop].
    { split_and!; [done| |done]. intros i x Hi. destruct (Hinv i Hi) as [[]%elem_of_nil|]. auto. }
    pose proof (reach_fold (neighbours rows id) live queue) as R.
    destruct (foldl reach (live, queue) (neighbours rows id)) as [live' queue']. destruct R as (A & B & C).
    assert (live ⊆ live') as Hsub by (intros x; rewrite A; by left).
    assert (size (row_ids rows ∖ live) + size live = size (row_ids rows ∖ live') + size live')%nat as Hsz.
    { rewrite <- !size_union by set_solver. f_equal. apply set_eq. intros x. rewrite !elem_of_union, !elem_of_difference, A.
      destruct (decide (x ∈ neighbours rows id)) as [Hn|Hn]; [pose proof (neighbours_rows _ _ _ Hn)|];
        destruct (decide (x ∈ live)); destruct (decide (x ∈ row_ids rows)); tauto. }
    destruct (IH live' queue') as (D & E & F).
    + intros i Hi. rewrite A in Hi. destruct (decide (i ∈ live)) as [Hl|Hl].
      * destruct (Hinv i Hl) as [[->|Hiq]%elem_of_cons|Hn]; [right|left|right].
        -- intros x Hx. apply A. by right.
        -- apply B. by left.
        -- intros x Hx. apply A. left. auto.
      * left. apply B. right. tauto.
    + intros i. rewrite B, A. intros [Hi|[Hi _]]; [left; apply Hq; by right|by right].
    + cbn [length] in Hfuel. lia.
    + split_and!; [by etrans|done|]. intros S HS Hcl. apply F; [|done]. intros x. rewrite A. intros [?|?]; [by apply HS|].
      apply (Hcl id); [apply HS, Hq; by left|done].
Qed.

Lemma markAliasClosure_closed rows live :
  live ⊆ markAliasClosure rows live /\
  (forall id x, id ∈ markAliasClosure rows live -> x ∈ neighbours rows id -> x ∈ markAliasClosure rows live) /\
  (forall S : gset Z, live ⊆ S -> (forall id x, id ∈ S -> x ∈ neighbours rows id -> x ∈ S) -> markAliasClosure rows live ⊆ S).
Proof.
  apply aliasLoop_closed.
  - intros id Hid. left. by apply elem_of_elements.
  - intros id. by rewrite elem_of_elements.
  - pose proof (row_ids_size rows). assert (length (elements live) = size live) as -> by done.
    assert (size (row_ids rows ∖ live) <= size (row_ids rows))%nat by (apply subseteq_size; set_solver). lia.
Qed.

(** C20: alias chains are followed to the end.  Whatever is live at the start,
    the worklist stops within its fuel at the least set that contains it and
    that no alias edge of the template table leaves, in either direction:
    with distinct template IDs, an alias and the template it forwards to are
    both marked or both unmarked. *)
Theorem markAliasClosure_least rows live : NoDup (tr_ID <$> rows) ->
  live ⊆ markAliasClosure rows live /\
  (forall row, row ∈ rows -> tr_AliasOf row <> 0 ->
     tr_ID row ∈ markAliasClosure rows live <-> tr_AliasOf row ∈ markAliasClosure rows live) /\
  (forall S : gset Z, live ⊆ S ->
     (forall row, row ∈ rows -> tr_AliasOf row <> 0 -> tr_ID row ∈ S <-> tr_AliasOf row ∈ S) ->
     markAliasClosure rows live ⊆ S).
Proof.
  intros Hnd. destruct (markAliasClosure_closed rows live) as (A & B & C). split_and!; [done| |].
  - intros row Hr Ha. split; intros H; apply (B _ _ H); unfold neighbours; apply elem_of_app.
    + left. rewrite aliasOf_row by done. by left.
    + right. apply aliasFrom_elem. by exists row.
  - intros S HS Hcl. apply C; [done|]. intros id x Hid Hx. unfold neighbours in Hx. apply elem_of_app in Hx as [Hx|Hx].
    + destruct (aliasOf rows !! id) as [to|] eqn:E; [|by apply elem_of_nil in Hx]. apply list_elem_of_singleton in Hx as ->.
      apply aliasOf_some in E as (row & Hr & <- & <- & Hz). by apply Hcl.
    + apply aliasFrom_elem in Hx as (row & Hr & <- & <- & Hz). by apply Hcl.
Qed.

Definition demo_template (id alias : Z) : TemplateRow := mkTemplateRow id "acme" "api" 1 "" 0 false alias 0 0 0.

Definition demo_templates : list TemplateRow :=
  [demo_template 10 11; demo_template 11 12; demo_template 12 0; demo_template 13 12; demo_template 20 21; demo_template 21 0].

Lemma markAliasClosure_least_witness :
  NoDup (tr_ID <$> demo_templates) /\
  elements (markAliasClosure demo_templates {[11]}) ≡ₚ [10; 11; 12; 13] /\
  (tr_ID (demo_template 13 12) ∈ markAliasClosure demo_templates {[11]} <->
   tr_AliasOf (demo_template 13 12) ∈ markAliasClosure demo_templates {[11]}).
Proof.
  assert (NoDup (tr_ID <$> demo_templates)) as Hnd by (apply (bool_decide_unpack _); by vm_compute).
  split; [exact Hnd|]. split; [apply (bool_decide_unpack _); by vm_compute|].
  apply (proj1 (proj2 (markAliasClosure_least demo_templates {[11]} Hnd))); [|done].
  apply list_elem_of_lookup. by exists 3%nat.
Defined.

(** ** What the mark phase guarantees *)

(** Everything a series key needs to stay readable: the four IDs, and the
    components of its dimension tuple. *)
Definition key_refs (tuples : gmap Z string) (k : SeriesKey) : gset Z :=
  key_ids k ∪ ⋃ (tuple_adds tuples <$> elements (key_ids k)).

Lemma elem_of_key_refs tuples k x :
  x ∈ key_refs tuples k <-> x ∈ key_ids k \/ exists id, id ∈ key_ids k /\ x ∈ tuple_adds tuples id.
Proof.
  unfold key_refs. rewrite elem_of_union, elem_of_union_list. apply or_iff_compat_l. split.
  - intros (s & (id & -> & Hid%elem_of_elements)%list_elem_of_fmap & Hx). eauto.
  - intros (id & Hid & Hx). exists (tuple_adds tuples id). split; [|done]. apply list_elem_of_fmap_2. by apply elem_of_elements.
Qed.

Lemma mark_series_fold liveSeries active rows : forall n cands keys live,
  let '(_, cands', keys', live') := foldl (mark_series liveSeries active) (n, cands, keys, live) rows in
  cands ⊆ cands' /\ live ⊆ live' /\
  (forall row, row ∈ rows -> sr_ID row ∈ cands' \/ key_ids (sr_Key row) ⊆ live') /\
  (forall id key, keys' !! id = Some key -> keys !! id = Some key \/ exists row, row ∈ rows /\ sr_ID row = id /\ sr_Key row = key) /\
  (forall id, id ∈ cands' -> id ∈ cands \/ is_Some (keys' !! id)) /\
  (forall id, is_Some (keys !! id) -> is_Some (keys' !! id)).
Proof.
  induction rows as [|row rows IH]; intros n cands keys live; cbn [foldl].
  - split_and!; try done; [by intros ? []%elem_of_nil|by left|by left].
  - cbn [mark_series]. destruct (_ || _).
    + specialize (IH (n + 1) cands keys (markSeriesDict (sr_Key row) live)).
      destruct (foldl _ _ rows) as [[[n' cands'] keys'] live']. destruct IH as (A & B & C & D & E & F).
      split_and!; try done.
      * etrans; [|exact B]. intros x Hx. apply elem_of_markSeriesDict. by left.
      * intros r [->|Hr]%elem_of_cons; [|by apply C]. right. etrans; [|exact B]. intros x Hx. apply elem_of_markSeriesDict. by right.
      * intros id key [?|(r & ? & ?)]%D; [by left|right; exists r; split; [by right|done]].
    + specialize (IH n ({[sr_ID row]} ∪ cands) (<[sr_ID row := sr_Key row]> keys) live).
      destruct (foldl _ _ rows) as [[[n' cands'] keys'] live']. destruct IH as (A & B & C & D & E & F).
      split_and!; try done.
      * set_solver.
      * intros r [->|Hr]%elem_of_cons; [|by apply C]. left. set_solver.
      * intros id key [H|(r & ? & ?)]%D; [|right; exists r; split; [by right|done]].
        rewrite lookup_insert in H. destruct (decide _) as [<-|]; [|by left]. injection H as <-.
        right. exists row. split; [by left|done].
      * intros id [Hid|?]%E; [|by right]. apply elem_of_union in Hid as [->%elem_of_singleton|?]; [|by left]. right. apply F.
        rewrite lookup_insert_eq. eauto.
      * intros id Hid. apply F. rewrite lookup_insert. destruct (decide _); [eauto|done].
Qed.

Lemma series_row_unique (rows : list SeriesRow) r1 r2 :
  NoDup (sr_ID <$> rows) -> r1 ∈ rows -> r2 ∈ rows -> sr_ID r1 = sr_ID r2 -> r1 = r2.
Proof.
  intros Hnd [i Hi]%list_elem_of_lookup [j Hj]%list_elem_of_lookup E.
  assert (i = j) as <-; [|congruence].
  eapply (NoDup_lookup (sr_ID <$> rows)); [done|by rewrite list_lookup_fmap, Hi|rewrite list_lookup_fmap, Hj; cbn; congruence].
Qed.

Lemma dict_by_id_row rows row : NoDup (de_ID <$> rows) -> row ∈ rows -> dict_by_id rows !! de_ID row = Some row.
Proof.
  unfold dict_by_id. generalize (∅ : gmap Z DictRow) as m.
  assert (forall rows (m : gmap Z DictRow) id, id ∉ (de_ID <$> rows) ->
    foldl (fun m (row : DictRow) => <[de_ID row := row]> m) m rows !! id = m !! id) as Hkeep.
  { clear. induction rows as [|r rows IH]; intros m id; cbn [foldl fmap list_fmap]; [done|]. intros [Hn Hr]%not_elem_of_cons.
    rewrite IH by done. by rewrite lookup_insert_ne by congruence. }
  induction rows as [|r rows IH]; intros m Hnd Hin; [by apply elem_of_nil in Hin|].
  cbn [fmap list_fmap] in Hnd. apply NoDup_cons in Hnd as [Hn Hnd]. cbn [foldl].
  apply elem_of_cons in Hin as [->|Hin]; [|by apply IH]. rewrite Hkeep by done. apply lookup_insert_eq.
Qed.

Lemma dict_by_id_in rows id row : dict_by_id rows !! id = Some row -> row ∈ rows /\ de_ID row = id.
Proof.
  unfold dict_by_id. assert (forall m : gmap Z DictRow,
    foldl (fun m (row : DictRow) => <[de_ID row := row]> m) m rows !! id = Some row ->
    m !! id = Some row \/ (row ∈ rows /\ de_ID row = id)) as H.
  { induction rows as [|r rows IH]; intros m; cbn [foldl]; [by left|]. intros [H|[? ?]]%IH; [|right; split; [by right|done]].
    rewrite lookup_insert in H. destruct (decide _) as [<-|]; [|by left]. injection H as ->. right. split; [by left|done]. }
  intros [?|?]%H; [by rewrite lookup_empty in *|done].
Qed.

Definition root_ids (roots : GCRoots) : gset Z :=
  default ∅ (rt_miner roots) ∪ rt_registrar roots ∪ default ∅ (rt_cache roots).

Record marked (snap : GCSnapshot) (roots : GCRoots) (ms : markSet) : Prop := {
  mk_series : forall row, row ∈ gs_Series snap ->
    (sr_ID row ∈ seriesCandidates ms /\
     (NoDup (sr_ID <$> gs_Series snap) -> candidateKeys ms !! sr_ID row = Some (sr_Key row))) \/
    (forall id, id ∈ key_refs (tuples_of (gs_Dict snap)) (sr_Key row) -> id ∉ dictCandidates ms);
  mk_roots : forall id, id ∈ root_ids roots -> id ∉ dictCandidates ms;
  mk_known : forall id, id ∈ dictCandidates ms -> id ∈ (de_ID <$> gs_Dict snap);
  mk_tenants : NoDup (de_ID <$> gs_Dict snap) ->
    (forall r1 r2, r1 ∈ gs_Dict snap -> r2 ∈ gs_Dict snap -> de_Tenant r1 = de_ID r2 -> de_Tenant r2 = GlobalTenant) ->
    forall row, row ∈ gs_Dict snap -> de_ID row ∉ dictCandidates ms -> de_Tenant row <> GlobalTenant ->
      de_Tenant row ∉ dictCandidates ms;
  mk_tuples : dimTuples ms = tuples_of (gs_Dict snap);
}.

Lemma range_extra_from (f : Z -> gset Z -> gset Z) (adds : Z -> gset Z) :
  (forall id acc x, x ∈ f id acc <-> x ∈ acc \/ x ∈ adds id) ->
  forall extra live x, x ∈ range_grow f extra live -> x ∈ live \/ exists id, x ∈ adds id.
Proof.
  intros Hf extra live x. unfold range_grow.
  assert (forall acc, x ∈ foldl (fun acc id => if decide (id ∈ acc) then f id acc else acc) acc extra ->
    x ∈ acc \/ exists id, x ∈ adds id) as H.
  { induction extra as [|id extra IH]; intros acc; cbn [foldl]; [by left|]. intros [H|?]%IH; [|by right].
    case_decide; [|by left]. apply Hf in H as [?|?]; [by left|right; eauto]. }
  intros [Hx|?]%H; [|by right]. apply (range_visits f adds Hf) in Hx as [?|(id & _ & ?)]; [by left|right; eauto].
Qed.

Lemma markPhase_marked extra1 extra2 snap roots stats ms st :
  markPhase extra1 extra2 snap roots stats = (ms, st) -> marked snap roots ms.
Proof.
  unfold markPhase. set (tuples := tuples_of (gs_Dict snap)). set (liveSeries := _ ∪ rt_series roots).
  pose proof (mark_series_fold liveSeries (rt_active roots) (gs_Series snap) (SeriesRetained stats) ∅ ∅ ∅) as S.
  destruct (foldl _ _ (gs_Series snap)) as [[[n cands] keys] live1]. destruct S as (_ & _ & Srow & Skey & Scand & _).
  set (live2 := range_grow (mark_tuple tuples) extra1 live1). set (live3 := default ∅ (rt_miner roots) ∪ live2).
  set (live4 := markAliasClosure (gs_Templates snap) live3). set (live5 := default ∅ (rt_cache roots) ∪ (rt_registrar roots ∪ live4)).
  set (live := range_grow (mark_tenant (dict_by_id (gs_Dict snap))) extra2 live5). intros [= <- <-].
  destruct (range_grow_spec (mark_tuple tuples) (tuple_adds tuples) (mark_tuple_adds tuples) extra1 live1) as [R1 R2].
  fold live2 in R1, R2.
  destruct (range_grow_spec (mark_tenant (dict_by_id (gs_Dict snap))) (tenant_adds _) (mark_tenant_adds _) extra2 live5) as [T1 T2].
  fold live in T1, T2. pose proof (proj1 (markAliasClosure_closed (gs_Templates snap) live3)) as A1. fold live4 in A1.
  assert (live2 ⊆ live) as L2 by (intros x Hx; apply T1; unfold live5; do 2 (apply elem_of_union; right); apply A1; unfold live3; set_solver).
  assert (forall id, id ∈ live -> id ∉ (list_to_set (de_ID <$> filter (fun row : DictRow => de_ID row ∉ live) (gs_Dict snap)) : gset Z)) as Hlive.
  { intros id Hid. rewrite elem_of_list_to_set. intros (row & -> & [Hn _]%list_elem_of_filter)%list_elem_of_fmap. done. }
  constructor; cbn [seriesCandidates dictCandidates candidateKeys dimTuples].
  - intros row Hrow. destruct (decide (sr_ID row ∈ cands)) as [Hc|Hc]; [left|right].
    + split; [done|]. intros Hnd. destruct (Scand _ Hc) as [?|[key Hkey]]; [set_solver|]. rewrite Hkey.
      destruct (Skey _ _ Hkey) as [?|(r & Hr & Er & <-)]; [by rewrite lookup_empty in *|].
      by rewrite (series_row_unique _ _ _ Hnd Hr Hrow Er).
    + intros id Hid. apply Hlive, L2. destruct (Srow row Hrow) as [?|Hk]; [done|].
      apply elem_of_key_refs in Hid as [Hid|(i & Hi & Hx)]; [by apply R1, Hk|]. by apply (R2 i); [apply Hk|].
  - intros id Hid. apply Hlive, T1. unfold live5. unfold root_ids in Hid. rewrite !elem_of_union in Hid |- *.
    destruct Hid as [[Hid|Hid]|Hid]; [right; right; apply A1; unfold live3; set_solver|right; by left|by left].
  - intros id. rewrite elem_of_list_to_set. intros (row & -> & [_ Hr]%list_elem_of_filter)%list_elem_of_fmap. by apply list_elem_of_fmap_2.
  - intros Hnd Hglobal row Hrow Hin Hten. apply Hlive.
    assert (de_ID row ∈ live) as Hid.
    { destruct (decide (de_ID row ∈ live)) as [|Hn]; [done|]. exfalso. apply Hin. rewrite elem_of_list_to_set.
      apply list_elem_of_fmap. exists row. split; [done|]. by apply list_elem_of_filter. }
    assert (forall row', row' ∈ gs_Dict snap -> tenant_adds (dict_by_id (gs_Dict snap)) (de_ID row') =
      if negb (de_Tenant row' =? GlobalTenant) then {[de_Tenant row']} else ∅) as Hadds.
    { intros row' Hr'. unfold tenant_adds. by rewrite dict_by_id_row. }
    destruct (range_extra_from _ _ (mark_tenant_adds _) extra2 live5 _ Hid) as [H5|[i Hi]].
    + apply (T2 _ H5). rewrite Hadds by done. destruct (Z.eqb_spec (de_Tenant row) GlobalTenant); [done|]. cbn. set_solver.
    + exfalso. unfold tenant_adds in Hi. destruct (dict_by_id (gs_Dict snap) !! i) as [r0|] eqn:E; cbn [from_option] in Hi; [|set_solver].
      apply dict_by_id_in in E as [Hr0 _]. destruct (negb _); [|set_solver]. apply elem_of_singleton in Hi.
      apply Hten. by apply (Hglobal r0 row).
  - done.
Qed.

(** ** What the sweep deletes *)

Definition swept_series (m : GCMemory) (ms : markSet) : gset Z := s_revalidateLocked (gm_series m) (seriesCandidates ms).

Definition swept_dict (extra : list Z) (m : GCMemory) (ms : markSet) : gset Z :=
  d_Revalidate (gm_reg m) (dictCandidates ms) ∖ remark extra ms (swept_series m ms).

Lemma deleteByID_lookup {A} (m : gmap Z A) ids id :
  (deleteByID m ids).1 !! id = if decide (id ∈ ids) then None else m !! id.
Proof.
  unfold deleteByID. cbn [fst]. revert m. induction ids as [|i ids IH]; intros m; cbn [foldl]; [done|].
  rewrite IH, lookup_delete. destruct (decide (id ∈ ids)) as [Hin|Hin].
  - by rewrite decide_True by (by right).
  - destruct (decide (i = id)) as [->|Hne]; [by rewrite decide_True by (by left)|].
    rewrite decide_False; [done|]. intros [->|?]%elem_of_cons; done.
Qed.

Lemma elem_of_sorted (s : gset Z) id : id ∈ merge_sort Z.le (elements s) <-> id ∈ s.
Proof. rewrite merge_sort_Permutation. apply elem_of_elements. Qed.

Lemma SweepIdentities_lookup t s d tm t' n :
  SweepIdentities None t s d tm = Ok (t', n) ->
  (forall id, t_series t' !! id = if decide (id ∈ s) then None else t_series t !! id) /\
  (forall id, t_dict t' !! id = if decide (id ∈ d) then None else t_dict t !! id).
Proof.
  assert (forall A (m : gmap Z A) id, m !! id = if decide (id ∈ []) then None else m !! id) as Hnil.
  { intros A m id. rewrite decide_False; [done|]. apply not_elem_of_nil. }
  unfold SweepIdentities. pose proof (deleteByID_lookup (t_series t) s) as H1. pose proof (deleteByID_lookup (t_dict t) d) as H2.
  destruct (deleteByID (t_series t) s) as [s' n1], (deleteByID (t_dict t) d) as [d' n2], (deleteByID (t_templates t) tm) as [tm' n3].
  cbn [fst] in H1, H2.
  destruct s as [|i s]; [destruct d as [|i d]; [destruct tm as [|i tm]|]|]; intros [= <- <-]; cbn [t_series t_dict]; auto.
Qed.

Lemma sweepPhase_tables extra m t ms st m' t' st' o :
  sweepPhase extra None m t ms st = (m', t', st', o) ->
  (forall id, t_series t' !! id = if decide (id ∈ swept_series m ms) then None else t_series t !! id) /\
  (forall id, t_dict t' !! id = if decide (id ∈ swept_dict extra m ms) then None else t_dict t !! id).
Proof.
  unfold sweepPhase. cbv zeta. fold (swept_series m ms). fold (swept_dict extra m ms).
  destruct (bool_decide (swept_series m ms = ∅) && bool_decide (swept_dict extra m ms = ∅)) eqn:Eb.
  - apply andb_true_iff in Eb as [E1%bool_decide_eq_true E2%bool_decide_eq_true]. intros [= <- <- <- <-].
    split; intros id; rewrite decide_False; try done; [rewrite E1|rewrite E2]; set_solver.
  - destruct (SweepIdentities None t _ _ _) as [[t1 [[n1 n2] n3]]|e] eqn:E.
    + intros [= <- <- <- <-]. apply SweepIdentities_lookup in E as [H1 H2].
      split; intros id; rewrite ?H1, ?H2; apply decide_ext; apply elem_of_sorted.
    + exfalso. unfold SweepIdentities in E. repeat case_match; done.
Qed.

Lemma elem_of_rescued ms survivors k :
  k ∈ rescued_keys ms survivors <-> exists id, candidateKeys ms !! id = Some k /\ id ∈ seriesCandidates ms /\ id ∉ survivors.
Proof.
  unfold rescued_keys. rewrite list_elem_of_fmap. split.
  - intros ([id k'] & -> & [[H1 H2] H%elem_of_map_to_list]%list_elem_of_filter). eauto.
  - intros (id & H & H1 & H2). exists (id, k). split; [done|]. apply list_elem_of_filter. split; [done|]. by apply elem_of_map_to_list.
Qed.

Lemma elem_of_rescue_marks l x : forall acc,
  x ∈ foldl (fun acc k => markSeriesDict k acc) acc l <-> x ∈ acc \/ exists k, k ∈ l /\ x ∈ key_ids k.
Proof.
  induction l as [|k l IH]; intros acc; cbn [foldl].
  - split; [by left|]. intros [?|(? & []%elem_of_nil & _)]. done.
  - rewrite IH, elem_of_markSeriesDict. split.
    + intros [[?|?]|(k' & ? & ?)]; [by left|right; exists k; split; [by left|done]|right; exists k'; split; [by right|done]].
    + intros [?|(k' & [->|?]%elem_of_cons & ?)]; [by left; left|by left; right|right; eauto].
Qed.

Lemma remark_refs extra ms survivors k :
  k ∈ rescued_keys ms survivors -> key_refs (dimTuples ms) k ⊆ remark extra ms survivors.
Proof.
  intros Hk x Hx. unfold remark.
  destruct (range_grow_spec (mark_tuple (dimTuples ms)) (tuple_adds (dimTuples ms)) (mark_tuple_adds _) extra
              (foldl (fun acc k => markSeriesDict k acc) ∅ (rescued_keys ms survivors))) as [R1 R2].
  apply elem_of_key_refs in Hx as [Hx|(id & Hid & Hx)].
  - apply R1, elem_of_rescue_marks. right. eauto.
  - apply (R2 id); [|done]. apply elem_of_rescue_marks. right. eauto.
Qed.

(** C18: a sweep never takes the name of something it keeps.  The snapshot may
    be older than the sweep: whatever happened in between is in the registrar
    and the series registry the sweep revalidates against.  After a
    successful sweep every series row of the snapshot that still exists keeps
    its tenant, service, name and dimension-tuple rows and every component of
    the tuple; every root the components reported, and everything the
    registrar has staged, handed out or pre-created since, is untouched; and
    an entry the mark phase retained keeps the tenant that scopes it. *)
Theorem sweep_keeps_references extra1 extra2 extra3 snap roots stats m t ms st m' t' st' o :
  NoDup (sr_ID <$> gs_Series snap) ->
  markPhase extra1 extra2 snap roots stats = (ms, st) ->
  sweepPhase extra3 None m t ms st = (m', t', st', o) ->
  (forall row, row ∈ gs_Series snap -> is_Some (t_series t' !! sr_ID row) ->
     forall id, id ∈ key_refs (tuples_of (gs_Dict snap)) (sr_Key row) -> t_dict t' !! id = t_dict t !! id) /\
  (forall id, id ∈ root_ids roots \/ id ∈ d_Roots (gm_reg m) -> t_dict t' !! id = t_dict t !! id) /\
  (NoDup (de_ID <$> gs_Dict snap) ->
   (forall r1 r2, r1 ∈ gs_Dict snap -> r2 ∈ gs_Dict snap -> de_Tenant r1 = de_ID r2 -> de_Tenant r2 = GlobalTenant) ->
   forall row, row ∈ gs_Dict snap -> de_ID row ∉ dictCandidates ms -> de_Tenant row <> GlobalTenant ->
     t_dict t' !! de_Tenant row = t_dict t !! de_Tenant row).
Proof.
  intros Hnd Hm Hs. apply markPhase_marked in Hm. apply sweepPhase_tables in Hs as [Hser Hdict].
  assert (forall id, id ∉ dictCandidates ms -> t_dict t' !! id = t_dict t !! id) as Hkeep.
  { intros id Hid. rewrite Hdict, decide_False; [done|]. unfold swept_dict. rewrite elem_of_difference, elem_of_Revalidate. tauto. }
  split_and!.
  - intros row Hrow Hlive id Hid. destruct (mk_series _ _ _ Hm row Hrow) as [[Hc Hkey]|Hk]; [|by apply Hkeep, Hk].
    rewrite Hdict, decide_False; [done|]. unfold swept_dict. rewrite elem_of_difference. intros [_ Hn]. apply Hn.
    apply (remark_refs _ _ _ (sr_Key row)); [|by rewrite (mk_tuples _ _ _ Hm)]. apply elem_of_rescued. exists (sr_ID row).
    split_and!; [by apply Hkey|done|]. intros Hsw. rewrite Hser, decide_True in Hlive by done. by destruct Hlive.
  - intros id [Hid|Hid]; [by apply Hkeep, (mk_roots _ _ _ Hm)|].
    rewrite Hdict, decide_False; [done|]. unfold swept_dict. rewrite elem_of_difference, elem_of_Revalidate.
    unfold d_Roots in Hid. rewrite !elem_of_union, elem_of_dom, elem_of_range_of in Hid.
    intros [(_ & Hp & Ht & Ho) _]. destruct Hid as [[[? ?]|[s Hs]]|?]; [congruence|by apply (Ho s)|done].
  - intros H1 H2 row Hrow Hc Ht. by apply Hkeep, (mk_tenants _ _ _ Hm H1 H2 row).
Qed.

(** A pass that fails changes nothing.  With no fence up, a collection
    that returns an error, from the snapshot, the closed writer or the delete
    transaction, leaves the tables, the registrar, the cache and the series
    registry exactly as they were. *)
Theorem failed_pass_changes_nothing extra1 extra2 extra3 configured snap roots barrier fail m t m' t' st e :
  d_fenced (gm_reg m) = ∅ -> c_fenced (gm_cache m) = ∅ -> c_fenceOn (gm_cache m) = false ->
  Collect extra1 extra2 extra3 configured snap roots barrier fail m t = (m', t', st, Some e) ->
  m' = m /\ t' = t.
Proof.
  intros Hr Hc Ho. unfold Collect. destruct configured; cbn [negb]; [|done].
  destruct snap as [snap|e']; [|intros [= <- <- <- <-]; done].
  destruct (markPhase extra1 extra2 snap roots _) as [ms st0]. destruct barrier as [e'|]; [intros [= <- <- <- <-]; done|].
  unfold sweepPhase. cbv zeta. destruct (_ && _); [done|].
  destruct (SweepIdentities _ _ _ _ _) as [[t1 [[n1 n2] n3]]|e'']; [done|]. intros [= <- <- <- <-]. split; [|done].
  destruct m as [c has s]. unfold gm_reg in *. cbn [gm_cache] in *. destruct c as [r b ids f on sink pub stats].
  cbn [c_reg c_fenced c_fenceOn] in *. subst f on. unfold on_reg, on_cache, gm_reg. cbn [gm_cache gm_hasCache gm_series c_reg].
  assert (forall dict, d_Unfence (d_Fence r dict) = r) as Hreg.
  { intros dict. unfold d_Unfence, d_Fence. destruct (decide _); destruct r; cbn in *; by subst. }
  destruct has; cbn [gm_hasCache gm_cache gm_series c_reg set_reg].
  - unfold c_Unfence, c_Fence, set_reg. destruct (decide _); cbn; by rewrite Hreg.
  - unfold set_reg. cbn. by rewrite Hreg.
Qed.

(** *** A pass on concrete tables

    A registrar warmed from eight rows; series 7 is referenced, series 8 is
    not, but was resolved again after the snapshot; the operation 10 belongs
    to nobody. *)
Definition demo_key (name dims : Z) : SeriesKey := mkSeriesKey 1 2 name dims SignalTraceOp 0 0 0 0.

Definition demo_tuple : string := str_of_bytes (AppendCanonicalDims [] [mkDimPair 6 9]).

Definition demo_rows : list DictRow :=
  [mkDictEntry 1 0 1 "acme"; mkDictEntry 2 1 2 "api"; mkDictEntry 3 1 3 "GET /"; mkDictEntry 4 1 3 "POST /";
   mkDictEntry 5 1 7 demo_tuple; mkDictEntry 6 1 5 "host"; mkDictEntry 9 1 6 "h1"; mkDictEntry 10 1 3 "old"].

Definition demo_series : list SeriesRow := [mkSeriesRow 7 (demo_key 3 0); mkSeriesRow 8 (demo_key 4 5)].

Definition demo_snap : GCSnapshot := mkGCSnapshot {[7]} demo_series demo_rows [].

Definition demo_memory : GCMemory :=
  mkGCMemory (NewCacheWithBounds (foldl load_row (emptyDurable demo_bounds) demo_rows) demo_bounds) true
    (s_Resolve (foldl load_series (mkSeriesRegistry 1 ∅ ∅ ∅ ∅) demo_series) (demo_key 4 5)).1.

Definition demo_tables : Tables :=
  mkTables {[7 := demo_key 3 0; 8 := demo_key 4 5]} (dict_by_id demo_rows) ∅.

Definition demo_roots : GCRoots := mkGCRoots ∅ ∅ None (d_Roots (gm_reg demo_memory)) (Some (c_Roots (gm_cache demo_memory))).

Definition demo_mark := markPhase [] [] demo_snap demo_roots (mkGCStats 0 0 0 0 0 0 0 0 0).

Definition demo_sweep := sweepPhase [] None demo_memory demo_tables demo_mark.1 demo_mark.2.

Lemma sweep_keeps_references_witness :
  elements (dictCandidates demo_mark.1) ≡ₚ [4; 5; 6; 9; 10] /\
  elements (dom (t_dict demo_sweep.1.1.2)) ≡ₚ [1; 2; 3; 4; 5; 6; 9] /\
  t_dict demo_sweep.1.1.2 !! 9 = t_dict demo_tables !! 9.
Proof.
  split; [apply (bool_decide_unpack _); by vm_compute|]. split; [apply (bool_decide_unpack _); by vm_compute|].
  destruct demo_mark as [ms st] eqn:Em. destruct demo_sweep as [[[m' t'] st'] o] eqn:Es. cbn [fst snd].
  assert (NoDup (sr_ID <$> gs_Series demo_snap)) as Hnd by (apply (bool_decide_unpack _); by vm_compute).
  assert (sweepPhase [] None demo_memory demo_tables ms st = (m', t', st', o)) as Es'.
  { unfold demo_sweep in Es. rewrite Em in Es. exact Es. }
  destruct (sweep_keeps_references [] [] [] demo_snap demo_roots (mkGCStats 0 0 0 0 0 0 0 0 0) demo_memory demo_tables ms st m' t' st' o Hnd Em Es') as [H _].
  apply (H (mkSeriesRow 8 (demo_key 4 5))).
  - apply list_elem_of_lookup. by exists 1%nat.
  - assert (t' = demo_sweep.1.1.2) as -> by (by rewrite Es). apply (bool_decide_unpack _). by vm_compute.
  - apply (bool_decide_unpack _). by vm_compute.
Defined.

Lemma failed_pass_changes_nothing_witness :
  d_fenced (gm_reg demo_memory) = ∅ /\
  let '(m', t', _, err) := Collect [] [] [] true (Ok demo_snap) demo_roots None (Some "disk I/O error") demo_memory demo_tables in
  err = Some "disk I/O error" /\ m' = demo_memory /\ t' = demo_tables.
Proof.
  split; [by vm_compute|].
  destruct (Collect _ _ _ _ _ _ _ _ _ _) as [[[m' t'] st'] err] eqn:E.
  assert (err = Some "disk I/O error") as ->.
  { change err with ((m', t', st', err).2). rewrite <- E. by vm_compute. }
  split; [done|]. refine (failed_pass_changes_nothing _ _ _ _ _ _ _ _ _ _ _ _ _ _ _ _ _ E); by vm_compute.
Defined.
