(* ===== verification/TemplateMiner.v ===== *)
(** * TemplateMiner: log templates ([internal/aggregate/template_miner.go])

    Drain-style clustering of log lines, one partition per (tenant, service).
    A template object lives in the heap of its partition and is named by its
    address, the partition and an index, since the leaf groups, the table of
    live templates and the alias pointers share it.  A tree node is named by
    its path below the length layer; a node without children and without
    groups is the same as an absent one.  Every operation runs under the
    partition's mutex and is one function; the registrar that mints template
    IDs is an interface over a state [S] that is passed along.  The order in
    which Go visits a map matters nowhere except where noted. *)
From stdpp Require Import sorting.
From S2P Require Import Prelude Float64 SeriesKey Routes Dict Gc LogTokens.
From Stdlib Require Import Ascii.
#[local] Open Scope Z_scope.

(** ** The registrar *)

(* internal/aggregate/template_miner.go:76-81 TemplateRegistration *)
Record TemplateRegistration := mkRegistration {
  g_Tenant : string;
  g_Service : string;
  g_Template : bstr;
  g_IsOther : bool;
}.

(** An error is [None]. *)
(* internal/aggregate/template_miner.go:92-94 TemplateRegistrar *)
Class TemplateRegistrar (S : Type) := RegisterTemplate : S -> TemplateRegistration -> S * option Z.

(** The process-local allocator: the last ID handed out. *)
(* internal/aggregate/template_miner.go:112-114 inMemoryTemplateRegistrar.RegisterTemplate *)
Definition inMemory_RegisterTemplate (next : Z) (r : TemplateRegistration) : Z * option Z :=
  let next := u32 (next + 1) in (next, Some next).

Definition inMemoryTemplateRegistrar : TemplateRegistrar Z := inMemory_RegisterTemplate.

(** The engine's: template identities are dictionary identities. *)
(* internal/aggregate/engine.go:580-597 Engine.registerTemplate *)
Definition registerTemplate {R} `{Registrar R} (c : Cache R) (r : TemplateRegistration) : Cache R * option Z :=
  let '(c, tenant) := InternTenant c (g_Tenant r) in
  match tenant with
  | None => (c, None)
  | Some tenantID =>
      if g_IsOther r then let '(c, id) := c_OtherID c tenantID KindLogTemplate in (c, Some id)
      else
        let '(c, id) := Intern c tenantID KindLogTemplate
          (g_Service r +:+ String zero (String.string_of_list_ascii (g_Template r))) in
        (c, Some id)
  end.

#[global] Instance engine_TemplateRegistrar {R} `{Registrar R} : TemplateRegistrar (Cache R) := registerTemplate.

(** ** The state *)

Abbreviation tmPartKey := (string * string)%type (only parsing).

Abbreviation addr := (tmPartKey * nat)%type (only parsing).
Abbreviation tmNode := (nat * list bstr)%type (only parsing).

(* internal/aggregate/template_miner.go:419-437 tmTemplate *)
Record tmTemplate := mkTemplate {
  t_id : Z;
  t_seq : Z;
  t_tokens : list bstr;
  t_version : Z;
  t_count : Z;
  t_firstSeen : time;
  t_lastSeen : time;
  t_sample : bstr;
  t_leaf : option tmNode;
  t_aliasOf : option addr;
}.

(** [byLen] and the nodes below it: the children of a node and its groups. *)
(* internal/aggregate/template_miner.go:364-377 tmPartition *)
Record tmPartition := mkPartition {
  p_children : gmap tmNode (gset bstr);
  p_groups : gmap tmNode (list nat);
  p_heap : list tmTemplate;
  p_templates : gmap Z nat;
  p_nextSeq : Z;
  p_otherID : Z;
  p_overflow : Z;
  p_converged : Z;
  p_registrarFailures : Z;
}.

(* internal/aggregate/store.go:263-267 TemplateStatRow *)
Record TemplateStatRow := mkStatRow { st_ID : Z; st_Count : Z; st_FirstSeen : Z; st_LastSeen : Z }.

(* internal/aggregate/template_miner.go:120-128 TemplateFact *)
Record TemplateFact := mkFact {
  f_Tenant : string;
  f_Service : string;
  f_Severity : string;
  f_TemplateID : Z;
  f_Template : bstr;
  f_Timestamp : time;
  f_IsOther : bool;
}.

(** [m_sink] says whether a fact sink is installed, [m_facts] what it was
    called with, newest first. *)
(* internal/aggregate/template_miner.go:166-205 TemplateMiner *)
Record TemplateMiner := mkMiner {
  m_maxTemplates : Z;
  m_depth : Z;
  m_similarity : f64;
  m_maxChildren : Z;
  m_maxTokens : Z;
  m_sink : bool;
  m_facts : list TemplateFact;
  m_parts : gmap tmPartKey tmPartition;
  m_text : gmap Z bstr;
  m_alias : gmap Z Z;
  m_pending : gmap Z TemplateRow;
  m_dirty : gmap Z TemplateStatRow;
}.

Definition emptyPartition : tmPartition := mkPartition ∅ ∅ [] ∅ 0 0 0 0 0.

Definition set_parts (m : TemplateMiner) parts : TemplateMiner :=
  mkMiner (m_maxTemplates m) (m_depth m) (m_similarity m) (m_maxChildren m) (m_maxTokens m) (m_sink m) (m_facts m)
    parts (m_text m) (m_alias m) (m_pending m) (m_dirty m).
Definition set_index (m : TemplateMiner) text alias : TemplateMiner :=
  mkMiner (m_maxTemplates m) (m_depth m) (m_similarity m) (m_maxChildren m) (m_maxTokens m) (m_sink m) (m_facts m)
    (m_parts m) text alias (m_pending m) (m_dirty m).
Definition set_staged (m : TemplateMiner) pending dirty : TemplateMiner :=
  mkMiner (m_maxTemplates m) (m_depth m) (m_similarity m) (m_maxChildren m) (m_maxTokens m) (m_sink m) (m_facts m)
    (m_parts m) (m_text m) (m_alias m) pending dirty.
Definition set_facts (m : TemplateMiner) sink facts : TemplateMiner :=
  mkMiner (m_maxTemplates m) (m_depth m) (m_similarity m) (m_maxChildren m) (m_maxTokens m) sink facts
    (m_parts m) (m_text m) (m_alias m) (m_pending m) (m_dirty m).

(** The partition of a key; every operation runs after [partition] has
    created it. *)
Definition part (m : TemplateMiner) (k : tmPartKey) : tmPartition := default emptyPartition (m_parts m !! k).
Definition set_part (m : TemplateMiner) (k : tmPartKey) (p : tmPartition) : TemplateMiner := set_parts m (<[k := p]> (m_parts m)).

Definition set_tree (p : tmPartition) children groups : tmPartition :=
  mkPartition children groups (p_heap p) (p_templates p) (p_nextSeq p) (p_otherID p)
    (p_overflow p) (p_converged p) (p_registrarFailures p).
Definition set_store (p : tmPartition) heap templates nextSeq : tmPartition :=
  mkPartition (p_children p) (p_groups p) heap templates nextSeq (p_otherID p)
    (p_overflow p) (p_converged p) (p_registrarFailures p).
Definition set_other (p : tmPartition) other : tmPartition :=
  mkPartition (p_children p) (p_groups p) (p_heap p) (p_templates p) (p_nextSeq p) other
    (p_overflow p) (p_converged p) (p_registrarFailures p).
Definition set_tallies (p : tmPartition) overflow converged failures : tmPartition :=
  mkPartition (p_children p) (p_groups p) (p_heap p) (p_templates p) (p_nextSeq p) (p_otherID p) overflow converged failures.

Definition overflowed (p : tmPartition) : tmPartition :=
  set_tallies p (u64 (p_overflow p + 1)) (p_converged p) (p_registrarFailures p).
Definition registrar_failed (p : tmPartition) : tmPartition :=
  set_tallies p (p_overflow p) (p_converged p) (u64 (p_registrarFailures p + 1)).

(** Dereferencing an address, and writing through one. *)
Definition tget (m : TemplateMiner) (a : addr) : option tmTemplate := p_heap (part m a.1) !! a.2.
Definition tset (m : TemplateMiner) (a : addr) (t : tmTemplate) : TemplateMiner :=
  let p := part m a.1 in set_part m a.1 (set_store p (<[a.2 := t]> (p_heap p)) (p_templates p) (p_nextSeq p)).

Definition with_tokens (t : tmTemplate) tokens version : tmTemplate :=
  mkTemplate (t_id t) (t_seq t) tokens version (t_count t) (t_firstSeen t) (t_lastSeen t) (t_sample t) (t_leaf t) (t_aliasOf t).
Definition with_stats (t : tmTemplate) count first last : tmTemplate :=
  mkTemplate (t_id t) (t_seq t) (t_tokens t) (t_version t) count first last (t_sample t) (t_leaf t) (t_aliasOf t).
Definition with_alias (t : tmTemplate) alias : tmTemplate :=
  mkTemplate (t_id t) (t_seq t) (t_tokens t) (t_version t) (t_count t) (t_firstSeen t) (t_lastSeen t) (t_sample t) (t_leaf t) alias.

(* internal/aggregate/template_miner.go:133-160 TemplateMinerConfig *)
Record TemplateMinerConfig := mkMinerConfig {
  c_MaxTemplatesPerService : Z;
  c_Depth : Z;
  c_SimilarityThreshold : f64;
  c_MaxChildren : Z;
  c_MaxTokens : Z;
  c_OnFact : bool;
}.

(** [0.4], rounded to the nearest float64. *)
Definition defaultTemplateSimilarity : f64 := fdiv (f_of_Z 4) (f_of_Z 10).
Definition DefaultMaxLogTemplatesPerService : Z := 10.

(* internal/aggregate/template_miner.go:246-252 TemplateMiner.SetFactSink *)
Definition SetFactSink (m : TemplateMiner) (installed : bool) : TemplateMiner := set_facts m installed (m_facts m).

(* internal/aggregate/template_miner.go:208-242 NewTemplateMiner *)
Definition NewTemplateMiner (cfg : TemplateMinerConfig) : TemplateMiner :=
  SetFactSink
    (mkMiner
      (if c_MaxTemplatesPerService cfg <=? 0 then DefaultMaxLogTemplatesPerService else c_MaxTemplatesPerService cfg)
      (if c_Depth cfg <=? 0 then defaultTemplateDepth else c_Depth cfg)
      (if fle (c_SimilarityThreshold cfg) f_zero || fgt (c_SimilarityThreshold cfg) f_one
       then defaultTemplateSimilarity else c_SimilarityThreshold cfg)
      (if c_MaxChildren cfg <=? 0 then defaultTemplateMaxChildren else c_MaxChildren cfg)
      (if c_MaxTokens cfg <=? 0 then defaultTemplateMaxTokens else c_MaxTokens cfg)
      false [] ∅ ∅ ∅ ∅ ∅)
    (c_OnFact cfg).

(** ** Durable state *)

Definition str_of (b : bstr) : string := String.string_of_list_ascii b.

(* internal/aggregate/template_miner.go:1004-1009 tmUnixNano *)
Definition tmUnixNano (t : time) : Z := if t_IsZero t then 0 else i64 (t - unixToInternal * Second).

(* internal/aggregate/template_miner.go:1012-1017 tmTimeFromNano *)
Definition tmTimeFromNano (n : Z) : time := if n =? 0 then 0 else n + unixToInternal * Second.

(* internal/aggregate/template_miner.go:1042-1051 TemplateMiner.stageRow *)
Definition stageRow (m : TemplateMiner) (row : TemplateRow) : TemplateMiner :=
  if tr_ID row =? 0 then m
  else
    match m_pending m !! tr_ID row with
    | Some prev =>
        if tr_PatternVersion prev <=? tr_PatternVersion row then set_staged m (<[tr_ID row := row]> (m_pending m)) (m_dirty m) else m
    | None => set_staged m (<[tr_ID row := row]> (m_pending m)) (m_dirty m)
    end.

(** The row of a template of partition [k]. *)
Definition row_of (k : tmPartKey) (t : tmTemplate) (aliasOf : Z) : TemplateRow :=
  mkTemplateRow (t_id t) k.1 k.2 (t_version t) (str_of (tmEncodeTokens (t_tokens t))) (t_seq t) false aliasOf
    (t_count t) (tmUnixNano (t_firstSeen t)) (tmUnixNano (t_lastSeen t)).

(* internal/aggregate/template_miner.go:1021-1038 TemplateMiner.stage *)
Definition stage (m : TemplateMiner) (k : tmPartKey) (t : tmTemplate) : TemplateMiner :=
  stageRow m (row_of k t (match t_aliasOf t with Some a => from_option t_id 0 (tget m a) | None => 0 end)).

(* internal/aggregate/template_miner.go:1054-1066 TemplateMiner.markDirty *)
Definition markDirty (m : TemplateMiner) (t : tmTemplate) : TemplateMiner :=
  if t_id t =? 0 then m
  else set_staged m (m_pending m)
    (<[t_id t := mkStatRow (t_id t) (t_count t) (tmUnixNano (t_firstSeen t)) (tmUnixNano (t_lastSeen t))]> (m_dirty m)).

(** ** The presentation index *)

(* internal/aggregate/template_miner.go:707-714 TemplateMiner.setText *)
Definition setText (m : TemplateMiner) (id : Z) (text : bstr) : TemplateMiner :=
  if id =? 0 then m else set_index m (<[id := text]> (m_text m)) (m_alias m).

(* internal/aggregate/template_miner.go:717-730 TemplateMiner.aliasID *)
Definition aliasID (m : TemplateMiner) (from to : Z) : TemplateMiner :=
  if (from =? 0) || (to =? 0) || (from =? to) then m
  else set_index m (delete from (m_text m)) ((fun v => if v =? from then to else v) <$> <[from := to]> (m_alias m)).

(** The walk along aliases, [tmMaxAliasHops] steps at most. *)
Fixpoint textLoop (hops : nat) (m : TemplateMiner) (id : Z) : option bstr :=
  match hops with
  | O => None
  | S hops =>
      match m_text m !! id with
      | Some t => Some t
      | None =>
          match m_alias m !! id with
          | Some next => if next =? id then None else textLoop hops m next
          | None => None
          end
      end
  end.

(* internal/aggregate/template_miner.go:296-310 TemplateMiner.TemplateText *)
Definition TemplateText (m : TemplateMiner) (id : Z) : option bstr := textLoop tmMaxAliasHops m id.

(** ** The prefix tree *)

Definition kids (children : gmap tmNode (gset bstr)) (cur : tmNode) : gset bstr := default ∅ (children !! cur).

(** The child a token leads to: its own if there is one; the wildcard's for
    a wildcard, or when the node is full; else a new one. *)
Definition choose (maxChildren : Z) (ks : gset bstr) (tok : bstr) : bstr :=
  if bool_decide (tok ∈ ks) then tok
  else if bool_decide (tok = TemplateWildcard) || (maxChildren <=? Z.of_nat (size ks)) then TemplateWildcard
  else tok.

(* internal/aggregate/template_miner.go:477-484 tmChild *)
Definition tmChild (children : gmap tmNode (gset bstr)) (cur : tmNode) (key : bstr) : gmap tmNode (gset bstr) * tmNode :=
  (<[cur := {[key]} ∪ kids children cur]> children, (cur.1, cur.2 ++ [key])).

Fixpoint walk (maxChildren : Z) (children : gmap tmNode (gset bstr)) (cur : tmNode) (tokens : list bstr)
    : gmap tmNode (gset bstr) * tmNode :=
  match tokens with
  | [] => (children, cur)
  | tok :: tokens =>
      let '(children, cur) := tmChild children cur (choose maxChildren (kids children cur) tok) in
      walk maxChildren children cur tokens
  end.

(* internal/aggregate/template_miner.go:448-475 tmPartition.descend *)
Definition descend (p : tmPartition) (tokens : list bstr) (depth maxChildren : Z) : tmPartition * tmNode :=
  let '(children, leaf) := walk maxChildren (p_children p) (length tokens, []) (take (Z.to_nat depth) tokens) in
  (set_tree p children (p_groups p), leaf).

(** ** Matching *)

Definition matching (template tokens : list bstr) : Z :=
  Z.of_nat (length (filter (fun '(t, tok) => t = TemplateWildcard \/ t = tok) (zip template tokens))).

(* internal/aggregate/template_miner.go:624-635 tmSimilarity *)
Definition tmSimilarity (template tokens : list bstr) : f64 :=
  if negb (Z.of_nat (length template) =? Z.of_nat (length tokens)) || (Z.of_nat (length tokens) =? 0) then f_zero
  else fdiv (f_of_Z (matching template tokens)) (f_of_Z (Z.of_nat (length tokens))).

Definition better (tokens : list bstr) (heap : list tmTemplate) (acc : option nat * f64) (i : nat) : option nat * f64 :=
  match heap !! i with
  | Some g =>
      if negb (Z.of_nat (length (t_tokens g)) =? Z.of_nat (length tokens)) then acc
      else
        let sim := tmSimilarity (t_tokens g) tokens in
        if fgt sim acc.2 then (Some i, sim) else acc
  | None => acc
  end.

(* internal/aggregate/template_miner.go:607-620 tmBestMatch *)
Definition tmBestMatch (heap : list tmTemplate) (groups : list nat) (tokens : list bstr) : option nat * f64 :=
  foldl (better tokens heap) (None, f_of_Z (-1)) groups.

Fixpoint resolveLoop (hops : nat) (m : TemplateMiner) (a : addr) : addr :=
  match hops with
  | O => a
  | S hops =>
      match t ← tget m a; t_aliasOf t with
      | Some next => resolveLoop hops m next
      | None => a
      end
  end.

(* internal/aggregate/template_miner.go:637-642 tmResolveAlias *)
Definition tmResolveAlias (m : TemplateMiner) (a : addr) : addr := resolveLoop tmMaxAliasHops m a.

(** The pattern with a wildcard where it differs from the line, over the
    positions both have. *)
Fixpoint generalize (pattern tokens : list bstr) : list bstr :=
  match pattern, tokens with
  | p :: pattern, t :: tokens =>
      (if bool_decide (p = TemplateWildcard) then p else if bool_decide (p = t) then p else TemplateWildcard)
      :: generalize pattern tokens
  | _, _ => pattern
  end.

(* internal/aggregate/template_miner.go:647-657 tmPartition.findTwinLocked *)
Definition findTwinLocked (k : tmPartKey) (p : tmPartition) (a : addr) (t : tmTemplate) : option nat :=
  List.find (fun j =>
    match p_heap p !! j with
    | Some other =>
        negb (bool_decide ((k, j) = a)) && negb (match t_aliasOf other with Some _ => true | None => false end)
        && tmTokensEqual (t_tokens other) (t_tokens t)
    | None => false
    end) (snd <$> map_to_list (p_templates p)).

(** ** Mining *)

Definition nowhere : tmTemplate := mkTemplate 0 0 [] 0 0 0 0 [] None None.

Definition deref (m : TemplateMiner) (a : addr) : tmTemplate := default nowhere (tget m a).

(* internal/aggregate/template_miner.go:664-703 TemplateMiner.convergeLocked *)
Definition convergeLocked (m : TemplateMiner) (k : tmPartKey) (a b : addr) : TemplateMiner * addr :=
  let '(survivor, retired) := if t_seq (deref m b) <? t_seq (deref m a) then (b, a) else (a, b) in
  let ts := deref m survivor in
  let tr := deref m retired in
  let ts := with_stats ts (u64 (t_count ts + t_count tr))
    (if negb (t_IsZero (t_firstSeen tr)) && t_Before (t_firstSeen tr) (t_firstSeen ts) then t_firstSeen tr else t_firstSeen ts)
    (if t_After (t_lastSeen tr) (t_lastSeen ts) then t_lastSeen tr else t_lastSeen ts) in
  let m := tset m survivor ts in
  let tr := with_alias (with_stats tr 0 (t_firstSeen tr) (t_lastSeen tr)) (Some survivor) in
  let p := part m k in
  let m := set_part m k (set_store p (p_heap p) (delete (t_id tr) (p_templates p)) (p_nextSeq p)) in
  let p := part m k in
  let m := set_part m k (set_tallies p (p_overflow p) (u64 (p_converged p + 1)) (p_registrarFailures p)) in
  let m := aliasID m (t_id tr) (t_id ts) in
  let tr := with_tokens tr (t_tokens tr) (u32 (t_version tr + 1)) in
  let m := tset m retired tr in
  let m := stageRow m (row_of k tr (t_id ts)) in
  (stage m k ts, survivor).

Section Mining.
Context {S : Type} `{TemplateRegistrar S}.

(* internal/aggregate/template_miner.go:580-603 TemplateMiner.ensureOtherLocked *)
Definition ensureOtherLocked (m : TemplateMiner) (s : S) (k : tmPartKey) : TemplateMiner * S :=
  let p := part m k in
  if negb (p_otherID p =? 0) then (m, s)
  else
    let '(s, res) := RegisterTemplate s (mkRegistration k.1 k.2 TemplateOther true) in
    let id := default 0 res in
    if id =? 0 then (set_part m k (registrar_failed p), s)
    else
      let m := setText (set_part m k (set_other p id)) id TemplateOther in
      (stageRow m (mkTemplateRow id k.1 k.2 0 (str_of TemplateOther) 0 true 0 0 0 0), s).

(** The line goes to the partition's overflow template. *)
Definition route_other (m : TemplateMiner) (s : S) (k : tmPartKey) (p : tmPartition) : TemplateMiner * S * (Z * bool * bstr) :=
  (set_part m k (overflowed p), s, (p_otherID p, true, TemplateOther)).

(** A line that matched the template at [a]. *)
Definition absorb (m : TemplateMiner) (k : tmPartKey) (a : addr) (tokens : list bstr) (at_ : time) : TemplateMiner * addr :=
  let best := deref m a in
  let pattern := generalize (t_tokens best) tokens in
  let '(m, a) :=
    if tmTokensEqual pattern (t_tokens best) then (m, a)
    else
      let best := with_tokens best pattern (u32 (t_version best + 1)) in
      let m := tset m a best in
      let m := setText m (t_id best) (tmJoin (t_tokens best)) in
      let m := stage m k best in
      match findTwinLocked k (part m k) a best with
      | Some twin => convergeLocked m k a (k, twin)
      | None => (m, a)
      end in
  let best := deref m a in
  let best := with_stats best (u64 (t_count best + 1)) (t_firstSeen best) at_ in
  let m := tset m a best in
  (markDirty m best, a).

(** A line that matched none. *)
Definition register_pattern (m : TemplateMiner) (s : S) (k : tmPartKey) (leaf : tmNode) (tokens : list bstr) (raw : bstr) (at_ : time)
    : TemplateMiner * S * (Z * bool * bstr) :=
  let p := part m k in
  if m_maxTemplates m <=? Z.of_nat (size (p_templates p)) then route_other m s k p
  else
    let text := tmJoin tokens in
    let '(s, res) := RegisterTemplate s (mkRegistration k.1 k.2 text false) in
    let id := default 0 res in
    if id =? 0 then route_other m s k (registrar_failed p)
    else if bool_decide (is_Some (p_templates p !! id)) || (id =? p_otherID p) then route_other m s k (registrar_failed p)
    else
      let t := mkTemplate id (p_nextSeq p) tokens 0 1 at_ at_ raw (Some leaf) None in
      let i := length (p_heap p) in
      let p := set_store p (p_heap p ++ [t]) (<[id := i]> (p_templates p)) (u64 (p_nextSeq p + 1)) in
      let p := set_tree p (p_children p) (<[leaf := default [] (p_groups p !! leaf) ++ [i]]> (p_groups p)) in
      let m := set_part m k p in
      let m := setText m id text in
      (stage m k t, s, (id, false, text)).

(* internal/aggregate/template_miner.go:487-575 TemplateMiner.mine *)
Definition mine (m : TemplateMiner) (s : S) (k : tmPartKey) (tokens : list bstr) (raw : bstr) (at_ : time) (wantText : bool)
    : TemplateMiner * S * (Z * bool * bstr) :=
  let '(m, s) := ensureOtherLocked m s k in
  if Z.of_nat (length tokens) =? 0 then route_other m s k (part m k)
  else
    let '(p, leaf) := descend (part m k) tokens (m_depth m) (m_maxChildren m) in
    let m := set_part m k p in
    match tmBestMatch (p_heap p) (default [] (p_groups p !! leaf)) tokens with
    | (Some i, sim) =>
        if fge sim (m_similarity m) then
          let '(m, a) := absorb m k (tmResolveAlias m (k, i)) tokens at_ in
          let best := deref m a in
          (m, s, (t_id best, false, if wantText then tmJoin (t_tokens best) else []))
        else register_pattern m s k leaf tokens raw at_
    | (None, _) => register_pattern m s k leaf tokens raw at_
    end.

(** [partition]: the partition, created empty on first use. *)
(* internal/aggregate/template_miner.go:393-415 TemplateMiner.partition *)
Definition partition (m : TemplateMiner) (k : tmPartKey) : TemplateMiner :=
  match m_parts m !! k with Some _ => m | None => set_part m k emptyPartition end.

(* internal/aggregate/template_miner.go:272-291 TemplateMiner.MineAt *)
Definition MineAt (m : TemplateMiner) (s : S) (tenant service severity : string) (body : bstr) (at_ : time)
    : TemplateMiner * S * (Z * bool) :=
  let k := (tenant, service) in
  let m := partition m k in
  let tokens := tmSplitTokens body (m_maxTokens m) in
  let '(m, s, (id, isOther, text)) := mine m s k tokens body at_ (m_sink m) in
  let m := if m_sink m then set_facts m true (mkFact tenant service severity id text at_ isOther :: m_facts m) else m in
  (m, s, (id, isOther)).

End Mining.

(** ** Statistics, draining and roots *)

(* internal/aggregate/template_miner.go:314-322 TemplatePartitionStats *)
Record TemplatePartitionStats := mkPartitionStats {
  ps_Tenant : string;
  ps_Service : string;
  ps_Templates : Z;
  ps_OtherID : Z;
  ps_Overflow : Z;
  ps_Converged : Z;
  ps_RegistrarFailures : Z;
}.

(* internal/aggregate/template_miner.go:379-391 tmPartition.stats *)
Definition p_stats (k : tmPartKey) (p : tmPartition) : TemplatePartitionStats :=
  mkPartitionStats k.1 k.2 (Z.of_nat (size (p_templates p))) (p_otherID p) (p_overflow p) (p_converged p) (p_registrarFailures p).

(* internal/aggregate/template_miner.go:347-355 TemplateMiner.PartitionStats *)
Definition PartitionStats (m : TemplateMiner) (tenant service : string) : option TemplatePartitionStats :=
  p_stats (tenant, service) <$> m_parts m !! (tenant, service).

Definition trow_le (a b : TemplateRow) : Prop := tr_ID a <= tr_ID b.

#[global] Instance trow_le_dec a b : Decision (trow_le a b).
Proof. unfold trow_le. apply _. Defined.

(* internal/aggregate/template_miner.go:1072-1084 TemplateMiner.DrainPending *)
Definition t_DrainPending (m : TemplateMiner) : list TemplateRow := merge_sort trow_le (snd <$> map_to_list (m_pending m)).

(** One confirmed row. *)
Definition confirm (pending : gmap Z TemplateRow) (row : TemplateRow) : gmap Z TemplateRow :=
  match pending !! tr_ID row with
  | Some cur => if tr_PatternVersion cur <=? tr_PatternVersion row then delete (tr_ID row) pending else pending
  | None => pending
  end.

(* internal/aggregate/template_miner.go:1088-1099 TemplateMiner.Committed *)
Definition t_Committed (m : TemplateMiner) (rows : list TemplateRow) : TemplateMiner :=
  set_staged m (foldl confirm (m_pending m) rows) (m_dirty m).

(* internal/aggregate/template_miner.go:1102-1106 TemplateMiner.PendingCount *)
Definition t_PendingCount (m : TemplateMiner) : Z := Z.of_nat (size (m_pending m)).

Definition strow_le (a b : TemplateStatRow) : Prop := st_ID a <= st_ID b.

#[global] Instance strow_le_dec a b : Decision (strow_le a b).
Proof. unfold strow_le. apply _. Defined.

(* internal/aggregate/template_miner.go:1111-1124 TemplateMiner.DrainDirtyStats *)
Definition DrainDirtyStats (m : TemplateMiner) : TemplateMiner * list TemplateStatRow :=
  (set_staged m (m_pending m) ∅, merge_sort strow_le (snd <$> map_to_list (m_dirty m))).

(* internal/aggregate/template_miner.go:1134-1173 TemplateMiner.Roots *)
Definition t_Roots (m : TemplateMiner) : gset Z :=
  list_to_set
    ((map_to_list (m_parts m) ≫= fun kp =>
        (if negb (p_otherID kp.2 =? 0) then [p_otherID kp.2] else []) ++ (fst <$> map_to_list (p_templates kp.2))) ++
     (fst <$> map_to_list (m_text m)) ++
     (map_to_list (m_alias m) ≫= fun ft => [ft.1; ft.2]) ++
     (map_to_list (m_pending m) ≫= fun ir => ir.1 :: if negb (tr_AliasOf ir.2 =? 0) then [tr_AliasOf ir.2] else [])).

(** ** Restoring *)

(** The order of the rows: tenant, service, ordinal, ID. *)
Definition row_before (a b : TemplateRow) : Prop :=
  if negb (String.eqb (tr_Tenant a) (tr_Tenant b)) then String.ltb (tr_Tenant a) (tr_Tenant b) = true
  else if negb (String.eqb (tr_Service a) (tr_Service b)) then String.ltb (tr_Service a) (tr_Service b) = true
  else if negb (tr_Seq a =? tr_Seq b) then tr_Seq a < tr_Seq b
  else tr_ID a <= tr_ID b.

#[global] Instance row_before_dec a b : Decision (row_before a b).
Proof. unfold row_before. repeat case_match; apply _. Defined.

Record restoring := mkRestoring {
  rs_miner : TemplateMiner;
  rs_byID : gmap Z addr;
  rs_aliasTargets : gmap Z Z;
}.

(** One row of the first pass. *)
Definition restore_row (acc : restoring) (row : TemplateRow) : restoring :=
  let k := (tr_Tenant row, tr_Service row) in
  let m := partition (rs_miner acc) k in
  let p := part m k in
  if tr_IsOther row then
    mkRestoring (setText (set_part m k (set_other p (tr_ID row))) (tr_ID row) TemplateOther) (rs_byID acc) (rs_aliasTargets acc)
  else
    let tokens := tmDecodeTokens (String.list_ascii_of_string (tr_Tokens row)) in
    let i := length (p_heap p) in
    let p := set_store p (p_heap p) (p_templates p) (if p_nextSeq p <=? tr_Seq row then u64 (tr_Seq row + 1) else p_nextSeq p) in
    let '(p, leaf) :=
      if 0 <? Z.of_nat (length tokens) then
        let '(p, leaf) := descend p tokens (m_depth m) (m_maxChildren m) in
        (set_tree p (p_children p) (<[leaf := default [] (p_groups p !! leaf) ++ [i]]> (p_groups p)), Some leaf)
      else (p, None) in
    let t := mkTemplate (tr_ID row) (tr_Seq row) tokens (tr_PatternVersion row) (tr_Count row)
      (tmTimeFromNano (tr_FirstSeen row)) (tmTimeFromNano (tr_LastSeen row)) [] leaf None in
    let retired := negb (tr_AliasOf row =? 0) in
    let p := set_store p (p_heap p ++ [t]) (if retired then p_templates p else <[tr_ID row := i]> (p_templates p)) (p_nextSeq p) in
    let m := set_part m k p in
    let m := if retired then m else setText m (tr_ID row) (tmJoin tokens) in
    mkRestoring m (<[tr_ID row := (k, i)]> (rs_byID acc))
      (if retired then <[tr_ID row := tr_AliasOf row]> (rs_aliasTargets acc) else rs_aliasTargets acc).

(** One alias edge of the second pass. *)
Definition restore_alias (byID : gmap Z addr) (m : TemplateMiner) (edge : Z * Z) : TemplateMiner :=
  let m := set_index m (delete edge.1 (m_text m)) (<[edge.1 := edge.2]> (m_alias m)) in
  match byID !! edge.1 with
  | Some src => tset m src (with_alias (deref m src) (byID !! edge.2))
  | None => m
  end.

(* internal/aggregate/template_miner.go:1181-1257 TemplateMiner.Restore *)
Definition Restore (m : TemplateMiner) (rows : list TemplateRow) : TemplateMiner :=
  let acc := foldl restore_row (mkRestoring m ∅ ∅) (merge_sort row_before rows) in
  foldl (restore_alias (rs_byID acc)) (rs_miner acc) (map_to_list (rs_aliasTargets acc)).
