(* ===== verification/MinerInvariant.v ===== *)
(** * MinerInvariant: what mining keeps true

    The tree leads every template, by its present pattern, to the leaf it was
    filed under; hence two templates of a partition never have one pattern,
    and the convergence of twins the miner is prepared for does not happen.
    Every line stays under a template that covers it and is counted once. *)
From S2P Require Import Prelude Float64 SeriesKey Routes Dict Gc LogTokens TemplateMiner.
From Stdlib Require Import Ascii.
#[local] Open Scope Z_scope.

(** ** Routing through the tree *)

Section Tree.
Context (maxChildren : Z).
Implicit Types (ks : gset bstr) (ch : gmap (nat * list bstr) (gset bstr)) (cur leaf : nat * list bstr).

(** [toks] leads from [cur] to [leaf] without a new node. *)
Fixpoint route ch cur (toks : list bstr) leaf : Prop :=
  match toks with
  | [] => cur = leaf
  | tok :: toks =>
      choose maxChildren (kids ch cur) tok ∈ kids ch cur /\
      route ch (cur.1, cur.2 ++ [choose maxChildren (kids ch cur) tok]) toks leaf
  end.

Lemma choose_in ks tok : tok ∈ ks -> choose maxChildren ks tok = tok.
Proof. intros H. unfold choose. by rewrite bool_decide_true. Qed.

Lemma choose_wild ks : choose maxChildren ks TemplateWildcard = TemplateWildcard.
Proof. unfold choose. by destruct (bool_decide _); [|rewrite bool_decide_true]. Qed.

Lemma choose_two ks tok : choose maxChildren ks tok = tok \/ choose maxChildren ks tok = TemplateWildcard.
Proof. unfold choose. repeat case_match; auto. Qed.

Lemma size_add ks x : (size ks <= size ({[x]} ∪ ks))%nat.
Proof. apply subseteq_size. set_solver. Qed.

Lemma choose_out ks tok : tok ∉ ks -> tok <> TemplateWildcard ->
  choose maxChildren ks tok = if maxChildren <=? Z.of_nat (size ks) then TemplateWildcard else tok.
Proof. intros H1 H2. unfold choose. by rewrite !bool_decide_false. Qed.

(** A full node gains at most the wildcard. *)
Lemma choose_full ks tok : maxChildren <= Z.of_nat (size ks) ->
  choose maxChildren ks tok ∈ ks \/ choose maxChildren ks tok = TemplateWildcard.
Proof.
  intros Hf. destruct (decide (tok ∈ ks)) as [Hk|Hk]; [left; by rewrite choose_in|right].
  destruct (decide (tok = TemplateWildcard)) as [->|Hw]; [apply choose_wild|]. rewrite choose_out by done.
  by destruct (Z.leb_spec maxChildren (Z.of_nat (size ks))); [|lia].
Qed.

Lemma choose_out_more ks tok x : tok ∉ {[x]} ∪ ks -> tok <> TemplateWildcard -> maxChildren <= Z.of_nat (size ks) ->
  choose maxChildren ({[x]} ∪ ks) tok = TemplateWildcard.
Proof.
  intros H1 H2 Hf. rewrite choose_out by done. pose proof (size_add ks x).
  by destruct (Z.leb_spec maxChildren (Z.of_nat (size ({[x]} ∪ ks)))); [|lia].
Qed.

(** A node that gains a child by the rule keeps sending tokens where they go. *)
Lemma choose_keeps ks tok tok2 :
  choose maxChildren ks tok ∈ ks -> choose maxChildren ({[choose maxChildren ks tok2]} ∪ ks) tok = choose maxChildren ks tok.
Proof.
  intros Hin. destruct (decide (tok ∈ ks)) as [Hk|Hk]; [rewrite !choose_in by set_solver; done|].
  destruct (decide (tok = TemplateWildcard)) as [->|Hw]; [by rewrite !choose_wild|].
  rewrite (choose_out ks tok) in Hin |- * by done. destruct (Z.leb_spec maxChildren (Z.of_nat (size ks))) as [Hf|]; [|done].
  apply choose_out_more; [|done|done]. destruct (choose_full ks tok2 Hf) as [?| ->]; set_solver.
Qed.

Lemma choose_new ks tok :
  choose maxChildren ({[choose maxChildren ks tok]} ∪ ks) tok = choose maxChildren ks tok.
Proof.
  destruct (decide (choose maxChildren ks tok ∈ ks)) as [H|H]; [by apply choose_keeps|].
  destruct (decide (tok ∈ ks)) as [Hk|Hk]; [by rewrite choose_in in H|].
  destruct (decide (tok = TemplateWildcard)) as [->|Hw]; [by rewrite !choose_wild|].
  rewrite (choose_out ks) by done. destruct (Z.leb_spec maxChildren (Z.of_nat (size ks))) as [Hf|].
  - apply choose_out_more; [set_solver|done|done].
  - apply choose_in. set_solver.
Qed.

Definition grows ch ch' : Prop := forall cur,
  kids ch cur ⊆ kids ch' cur /\
  forall tok, choose maxChildren (kids ch cur) tok ∈ kids ch cur ->
    choose maxChildren (kids ch' cur) tok = choose maxChildren (kids ch cur) tok.

Lemma tree_grows_refl ch : grows ch ch.
Proof. by intros cur. Qed.

Lemma tree_grows_trans ch1 ch2 ch3 : grows ch1 ch2 -> grows ch2 ch3 -> grows ch1 ch3.
Proof.
  intros H1 H2 cur. destruct (H1 cur) as [S1 C1], (H2 cur) as [S2 C2]. split; [set_solver|].
  intros tok Htok. rewrite <- (C1 tok Htok). apply C2. rewrite (C1 tok Htok). set_solver.
Qed.

Lemma kids_child ch cur key cur' :
  kids (tmChild ch cur key).1 cur' = if decide (cur = cur') then {[key]} ∪ kids ch cur else kids ch cur'.
Proof. unfold kids, tmChild. cbn [fst]. rewrite lookup_insert. by destruct (decide _). Qed.

Lemma grows_child ch cur tok : grows ch (tmChild ch cur (choose maxChildren (kids ch cur) tok)).1.
Proof.
  intros cur'. rewrite kids_child. destruct (decide (cur = cur')) as [<-|]; [|done].
  split; [set_solver|]. intros tok'. apply choose_keeps.
Qed.

Lemma walk_grows toks : forall ch cur ch' leaf, walk maxChildren ch cur toks = (ch', leaf) -> grows ch ch'.
Proof.
  induction toks as [|tok toks IH]; intros ch cur ch' leaf; cbn [walk]; [intros [= <- <-]; apply tree_grows_refl|].
  intros H%IH. eapply tree_grows_trans; [apply (grows_child ch cur tok)|exact H].
Qed.

Lemma route_grows toks : forall ch ch' cur leaf, grows ch ch' -> route ch cur toks leaf -> route ch' cur toks leaf.
Proof.
  induction toks as [|tok toks IH]; intros ch ch' cur leaf G; cbn [route]; [done|].
  intros [Hin Hr]. destruct (G cur) as [Hs Hc]. rewrite (Hc tok Hin). split; [set_solver|]. by apply (IH ch).
Qed.

Lemma walk_route toks : forall ch cur ch' leaf, walk maxChildren ch cur toks = (ch', leaf) -> route ch' cur toks leaf.
Proof.
  induction toks as [|tok toks IH]; intros ch cur ch' leaf; cbn [walk]; [by intros [= <- <-]|].
  set (key := choose maxChildren (kids ch cur) tok). intros H.
  change (walk maxChildren (tmChild ch cur key).1 (cur.1, cur.2 ++ [key]) toks = (ch', leaf)) in H.
  cbn [route]. pose proof (walk_grows _ _ _ _ _ H) as G. destruct (G cur) as [Hs Hc].
  rewrite kids_child, decide_True in Hs, Hc by done.
  assert (choose maxChildren (kids ch' cur) tok = key) as E.
  { rewrite Hc; [apply choose_new|]. unfold key. rewrite choose_new. set_solver. }
  rewrite E. split; [set_solver|]. exact (IH _ _ _ _ H).
Qed.

Lemma route_det toks : forall ch cur leaf leaf', route ch cur toks leaf -> route ch cur toks leaf' -> leaf = leaf'.
Proof. induction toks as [|tok toks IH]; intros ch cur leaf leaf'; cbn [route]; [congruence|]. intros [_ H] [_ H']. by eapply IH. Qed.

Lemma route_len toks : forall ch cur leaf, route ch cur toks leaf -> leaf.1 = cur.1.
Proof. induction toks as [|tok toks IH]; intros ch cur leaf; cbn [route]; [by intros <-|]. intros [_ H%IH]. done. Qed.

Lemma route_prefix toks : forall ch cur leaf, route ch cur toks leaf -> exists rest, leaf.2 = cur.2 ++ rest.
Proof.
  induction toks as [|tok toks IH]; intros ch cur leaf; cbn [route]; [intros <-; exists []; by rewrite app_nil_r|].
  intros [_ [rest E]%IH]. cbn [snd] in E. rewrite <- app_assoc in E. eauto.
Qed.

(** A pattern generalized by a line of its leaf stays in its leaf. *)
Lemma route_generalize pat : forall toks ch cur leaf, length pat = length toks ->
  route ch cur pat leaf -> route ch cur toks leaf -> route ch cur (generalize pat toks) leaf.
Proof.
  induction pat as [|p pat IH]; intros [|t toks] ch cur leaf Hlen; cbn [route generalize]; try done.
  intros [Hp Rp] [Ht Rt]. cbn in Hlen.
  assert (choose maxChildren (kids ch cur) t = choose maxChildren (kids ch cur) p) as E.
  { destruct (route_prefix _ _ _ _ Rp) as [rp Ep], (route_prefix _ _ _ _ Rt) as [rt Et].
    cbn [snd] in Ep, Et. rewrite <- !app_assoc in Ep, Et. rewrite Ep in Et. apply app_inv_head in Et. cbn in Et. congruence. }
  assert (choose maxChildren (kids ch cur)
    (if bool_decide (p = TemplateWildcard) then p else if bool_decide (p = t) then p else TemplateWildcard) =
    choose maxChildren (kids ch cur) p) as ->.
  { case_bool_decide as H1; [done|]. case_bool_decide as H2; [done|]. rewrite choose_wild.
    destruct (choose_two (kids ch cur) p) as [E1|E1]; [|done]. destruct (choose_two (kids ch cur) t) as [E2|E2]; congruence. }
  split; [done|]. apply IH; [lia|done|]. by rewrite <- E.
Qed.

End Tree.

(** ** Patterns and lines *)

Definition covers (pat toks : list bstr) : Prop := Forall2 (fun p t => p = TemplateWildcard \/ p = t) pat toks.

#[global] Instance covers_dec pat toks : Decision (covers pat toks).
Proof. unfold covers. apply _. Defined.

Lemma covers_refl toks : covers toks toks.
Proof. induction toks; constructor; auto. Qed.

Lemma generalize_length pat : forall toks, length (generalize pat toks) = length pat.
Proof. induction pat as [|p pat IH]; intros [|t toks]; cbn [generalize length]; auto. Qed.

Lemma generalize_covers pat : forall toks, length pat = length toks -> covers (generalize pat toks) toks.
Proof.
  induction pat as [|p pat IH]; intros [|t toks] Hlen; cbn [generalize]; try done; [constructor|].
  constructor; [repeat case_bool_decide; auto|]. apply IH. cbn in Hlen. lia.
Qed.

(** What a pattern covers, its generalizations cover. *)
Lemma generalize_keeps pat line : forall toks, covers pat toks -> covers (generalize pat line) toks.
Proof.
  intros toks H. revert line. induction H as [|p t pat toks Hp Hall IH]; intros [|l line]; cbn [generalize]; [constructor|constructor|by constructor|].
  constructor; [|apply IH]. repeat case_bool_decide; auto.
Qed.

Lemma generalize_id pat toks : covers pat toks -> generalize pat toks = pat.
Proof.
  induction 1 as [|p t pat toks Hp Hall IH]; cbn [generalize]; [done|]. rewrite IH. repeat case_bool_decide; naive_solver.
Qed.

Lemma generalize_take n pat : forall toks, length pat = length toks -> take n (generalize pat toks) = generalize (take n pat) (take n toks).
Proof.
  revert n. induction pat as [|p pat IH]; intros [|n] [|t toks] Hlen; cbn [take generalize]; try done. f_equal. apply IH. cbn in Hlen. lia.
Qed.

Lemma covers_take n pat toks : covers pat toks -> covers (take n pat) (take n toks).
Proof. apply Forall2_take. Qed.

Lemma matching_le pat toks : length pat = length toks -> 0 <= matching pat toks <= Z.of_nat (length toks).
Proof.
  intros Hlen. unfold matching.
  pose proof (length_filter (fun '(t, tok) => t = TemplateWildcard \/ t = tok) (zip pat toks)) as H.
  rewrite length_zip_with_l_eq in H by done. lia.
Qed.

Lemma matching_full pat : forall toks, length pat = length toks -> matching pat toks = Z.of_nat (length toks) <-> covers pat toks.
Proof.
  induction pat as [|p pat IH]; intros [|t toks] Hlen; try done; [split; [constructor|done]|].
  cbn in Hlen. specialize (IH toks ltac:(lia)). pose proof (matching_le pat toks ltac:(lia)) as Hle.
  unfold matching in *. cbn [zip zip_with]. rewrite filter_cons. cbn [length] in *. split.
  - intros H. destruct (decide _) as [Hp|]; cbn [length] in H; [|lia]. constructor; [done|]. apply IH. lia.
  - intros H. apply Forall2_cons in H as [Hp H]. rewrite decide_True by done. cbn [length]. apply IH in H. lia.
Qed.

(** ** Similarities as float64

    Lines have at most 129 tokens with the default token limit; the order of
    the quotients the matching compares is evaluated for all of them. *)
Definition maxLine : nat := 129.

Definition quotient (a n : nat) : f64 := fdiv (f_of_Z (Z.of_nat a)) (f_of_Z (Z.of_nat n)).

Definition ordered_below (n a : nat) : bool :=
  bool_decide (quotient n n = f_one) && flt (quotient a n) f_one && negb (flt f_one (quotient a n)) && flt (f_of_Z (-1)) (quotient a n).

Definition all_ordered (bound : nat) : bool := forallb (fun n => forallb (ordered_below n) (seq 0 n)) (seq 1 bound).

Lemma all_ordered_below bound n a : all_ordered bound = true -> (1 <= n <= bound)%nat -> (a < n)%nat -> ordered_below n a = true.
Proof.
  intros H Hn Ha. unfold all_ordered in H. rewrite forallb_forall in H. specialize (H n ltac:(apply in_seq; lia)).
  rewrite forallb_forall in H. apply H, in_seq. lia.
Qed.

Lemma all_ordered_maxLine : all_ordered maxLine = true.
Proof. vm_compute. reflexivity. Qed.

Lemma quotient_facts n a : (1 <= n <= maxLine)%nat -> (a < n)%nat ->
  quotient n n = f_one /\ flt (quotient a n) f_one = true /\ flt f_one (quotient a n) = false /\ flt (f_of_Z (-1)) (quotient a n) = true.
Proof.
  intros Hn Ha. pose proof (all_ordered_below _ n a all_ordered_maxLine Hn Ha) as H. unfold ordered_below in H.
  apply andb_true_iff in H as [[[H1%bool_decide_eq_true H2]%andb_true_iff H3%negb_true_iff]%andb_true_iff H4]. done.
Qed.

(** ** The best match

    Among templates of the line's length, one that covers the line is chosen
    whenever there is one. *)
Lemma similarity_quotient pat toks : length pat = length toks -> toks <> [] ->
  tmSimilarity pat toks = quotient (Z.to_nat (matching pat toks)) (length toks).
Proof.
  intros Hlen Hne. unfold tmSimilarity, quotient. rewrite Hlen, Z.eqb_refl. cbn [negb orb].
  destruct (Z.eqb_spec (Z.of_nat (length toks)) 0) as [E|]; [by destruct toks; [|cbn in E; lia]|].
  pose proof (matching_le pat toks Hlen). by rewrite Z2Nat.id by lia.
Qed.

Lemma similarity_facts pat toks : length pat = length toks -> (1 <= length toks <= maxLine)%nat ->
  (covers pat toks -> tmSimilarity pat toks = f_one) /\
  (~ covers pat toks -> flt (tmSimilarity pat toks) f_one = true) /\
  flt f_one (tmSimilarity pat toks) = false /\ flt (f_of_Z (-1)) (tmSimilarity pat toks) = true.
Proof.
  intros Hlen Hn. rewrite similarity_quotient by (done || by intros ->; cbn in Hn; lia).
  pose proof (matching_le pat toks Hlen) as Hle. pose proof (matching_full pat toks Hlen) as Hfull.
  destruct (quotient_facts (length toks) 0 Hn ltac:(lia)) as (Hone & _).
  destruct (decide (matching pat toks = Z.of_nat (length toks))) as [E|E].
  - rewrite E, Nat2Z.id, Hone. split_and!; [done|by intros []; apply Hfull|by vm_compute|by vm_compute].
  - destruct (quotient_facts (length toks) (Z.to_nat (matching pat toks)) Hn ltac:(lia)) as (_ & H2 & H3 & H4).
    split_and!; [by intros ?%Hfull|done|done|done].
Qed.

Section Best.
Context (heap : list tmTemplate) (toks : list bstr).
Context (Hn : (1 <= length toks <= maxLine)%nat).

Definition fits (i : nat) : Prop := exists t, heap !! i = Some t /\ length (t_tokens t) = length toks.

Definition pattern_at (i : nat) : list bstr := from_option t_tokens [] (heap !! i).

Definition best_of (seen : list nat) (acc : option nat * f64) : Prop :=
  match acc.1 with
  | None => seen = [] /\ acc.2 = f_of_Z (-1)
  | Some i => i ∈ seen /\ acc.2 = tmSimilarity (pattern_at i) toks /\
      forall j, j ∈ seen -> covers (pattern_at j) toks -> covers (pattern_at i) toks
  end.

Lemma better_best seen acc i : Forall fits (seen ++ [i]) -> best_of seen acc -> best_of (seen ++ [i]) (better toks heap acc i).
Proof.
  intros Hfits Hb. assert (fits i) as (t & Hi & Hlen) by (by apply Forall_app in Hfits as [_ [? _]%Forall_cons_1]).
  unfold better. rewrite Hi, Hlen, Z.eqb_refl. cbn [negb].
  assert (pattern_at i = t_tokens t) as Ep by (unfold pattern_at; by rewrite Hi).
  destruct (similarity_facts (t_tokens t) toks Hlen Hn) as (Hyes & Hno & Htop & Hlow).
  destruct acc as [[b|] sim]; unfold best_of in Hb |- *; cbn [fst snd] in *.
  - destruct Hb as (Hin & -> & Hmax).
    assert (fits b) as (tb & Hb & Hlb) by (rewrite Forall_forall in Hfits; apply Hfits, elem_of_app; by left).
    assert (pattern_at b = t_tokens tb) as Epb by (unfold pattern_at; by rewrite Hb). rewrite Epb in *.
    destruct (similarity_facts (t_tokens tb) toks Hlb Hn) as (Hyes' & Hno' & Htop' & _).
    destruct (fgt _ _) eqn:Eg; unfold fgt in Eg; cbn [fst snd].
    + rewrite Ep. split_and!; [set_solver|done|]. intros j [Hj| ->%list_elem_of_singleton]%elem_of_app Hc; [|by rewrite Ep in Hc].
      destruct (decide (covers (t_tokens t) toks)) as [|Hn']; [done|]. exfalso.
      rewrite (Hyes' (Hmax j Hj Hc)) in Eg. congruence.
    + rewrite Epb. split_and!; [set_solver|done|]. intros j [Hj| ->%list_elem_of_singleton]%elem_of_app Hc; [by apply (Hmax j)|].
      rewrite Ep in Hc. destruct (decide (covers (t_tokens tb) toks)) as [|Hn']; [done|]. exfalso.
      rewrite (Hyes Hc), (Hno' Hn') in Eg. done.
  - destruct Hb as [-> ->]. unfold fgt. rewrite Hlow. cbn [fst snd app]. rewrite Ep. split_and!; [set_solver|done|].
    intros j ->%list_elem_of_singleton. by rewrite Ep.
Qed.

Lemma best_fold l : forall seen acc, Forall fits (seen ++ l) -> best_of seen acc -> best_of (seen ++ l) (foldl (better toks heap) acc l).
Proof.
  induction l as [|i l IH]; intros seen acc Hf Hb; cbn [foldl]; [by rewrite app_nil_r|].
  rewrite cons_middle, app_assoc in Hf |- *. apply IH; [done|]. apply better_best; [|done]. by apply Forall_app in Hf as [? _].
Qed.

Lemma best_match groups : Forall fits groups -> best_of groups (tmBestMatch heap groups toks).
Proof. intros Hf. apply (best_fold groups []); [done|]. by split. Qed.

End Best.

(** ** What holds of a partition *)

Definition home (m : TemplateMiner) (p : tmPartition) (toks : list bstr) (leaf : tmNode) : Prop :=
  route (m_maxChildren m) (p_children p) (length toks, []) (take (Z.to_nat (m_depth m)) toks) leaf.

Definition group (p : tmPartition) (leaf : tmNode) : list nat := default [] (p_groups p !! leaf).

Record part_ok (m : TemplateMiner) (p : tmPartition) : Prop := {
  po_cell : forall i t, p_heap p !! i = Some t -> t_aliasOf t = None /\ exists leaf, home m p (t_tokens t) leaf /\ i ∈ group p leaf;
  po_group : forall leaf i, i ∈ group p leaf -> exists t, p_heap p !! i = Some t /\ home m p (t_tokens t) leaf;
  po_ids : forall id i, p_templates p !! id = Some i <-> exists t, p_heap p !! i = Some t /\ t_id t = id;
  po_distinct : forall i j ti tj, p_heap p !! i = Some ti -> p_heap p !! j = Some tj -> t_tokens ti = t_tokens tj -> i = j;
  po_converged : p_converged p = 0;
  po_cap : Z.of_nat (size (p_templates p)) <= Z.max 0 (m_maxTemplates m);
}.

Record params_ok (m : TemplateMiner) : Prop := {
  pk_similarity : fle (m_similarity m) f_one = true;
  pk_tokens : 0 < m_maxTokens m < Z.of_nat maxLine;
}.

Lemma part_ok_empty m : part_ok m emptyPartition.
Proof.
  constructor; cbn; try done.
  - intros leaf i. unfold group. cbn. rewrite lookup_empty. by intros ?%elem_of_nil.
  - intros id i. rewrite lookup_empty. split; [done|]. by intros (t & ? & _).
  - rewrite map_size_empty. lia.
Qed.

(** *** Moving from state to state *)

Definition params (m : TemplateMiner) := (m_maxTemplates m, m_depth m, m_similarity m, m_maxChildren m, m_maxTokens m, m_sink m).

(** [m'] is [m] with [p] as the partition of [k], the text index and the
    staged rows aside. *)
Record at_part (m : TemplateMiner) (k : tmPartKey) (p : tmPartition) (m' : TemplateMiner) : Prop := {
  ap_parts : m_parts m' = <[k := p]> (m_parts m);
  ap_alias : m_alias m' = m_alias m;
  ap_params : params m' = params m;
}.

Lemma at_part_refl m k p : m_parts m !! k = Some p -> at_part m k p m.
Proof. intros H. constructor; [|done|done]. by rewrite insert_id. Qed.

Lemma part_at m k p m' : at_part m k p m' -> part m' k = p.
Proof. intros [E _ _]. unfold part. by rewrite E, lookup_insert_eq. Qed.

Lemma at_part_set m k p m' p' : at_part m k p m' -> at_part m k p' (set_part m' k p').
Proof. intros [E A P]. constructor; [|done|done]. cbn. by rewrite E, insert_insert_eq. Qed.

Lemma at_part_setText m k p m' id text : at_part m k p m' -> at_part m k p (setText m' id text).
Proof. intros [E A P]. unfold setText. destruct (id =? 0); by constructor. Qed.

Lemma at_part_stageRow m k p m' row : at_part m k p m' -> at_part m k p (stageRow m' row).
Proof. intros [E A P]. unfold stageRow. repeat case_match; by constructor. Qed.

Lemma at_part_stage m k p m' k' t : at_part m k p m' -> at_part m k p (stage m' k' t).
Proof. apply at_part_stageRow. Qed.

Lemma at_part_markDirty m k p m' t : at_part m k p m' -> at_part m k p (markDirty m' t).
Proof. intros [E A P]. unfold markDirty. destruct (_ =? 0); by constructor. Qed.

Lemma at_part_tset m k p m' i t :
  at_part m k p m' -> at_part m k (set_store p (<[i := t]> (p_heap p)) (p_templates p) (p_nextSeq p)) (tset m' (k, i) t).
Proof. intros A. unfold tset. cbn [fst snd]. rewrite (part_at _ _ _ _ A). by eapply at_part_set. Qed.

Lemma tget_at m k p m' i : at_part m k p m' -> tget m' (k, i) = p_heap p !! i.
Proof. intros A. unfold tget. cbn [fst snd]. by rewrite (part_at _ _ _ _ A). Qed.

#[local] Hint Resolve at_part_set at_part_setText at_part_stageRow at_part_stage at_part_markDirty : miner.

(** *** What one line does *)

Record kept (m : TemplateMiner) (p p' : tmPartition) : Prop := {
  kp_templates : p_templates p' = p_templates p;
  kp_groups : p_groups p' = p_groups p;
  kp_converged : p_converged p' = p_converged p;
  kp_overflow : p_overflow p' = p_overflow p;
  kp_children : grows (m_maxChildren m) (p_children p) (p_children p');
}.

Inductive mined (m : TemplateMiner) (p : tmPartition) (toks : list bstr) (p' : tmPartition) : Z -> bool -> Prop :=
| mined_other p1 :
    kept m p p1 -> p_heap p1 = p_heap p -> p' = overflowed p1 -> mined m p toks p' (p_otherID p') true
| mined_match i t t' leaf :
    kept m p p' -> p_heap p !! i = Some t -> home m p' toks leaf -> i ∈ group p leaf ->
    (covers (t_tokens t) toks \/ forall j, j ∈ group p leaf -> ~ covers (pattern_at (p_heap p) j) toks) ->
    p_heap p' = <[i := t']> (p_heap p) ->
    t_id t' = t_id t -> t_tokens t' = generalize (t_tokens t) toks -> t_aliasOf t' = None -> t_count t' = u64 (t_count t + 1) ->
    mined m p toks p' (t_id t) false
| mined_new p1 t leaf :
    kept m p p1 -> p_heap p1 = p_heap p -> home m p1 toks leaf -> (forall j, j ∈ group p leaf -> ~ covers (pattern_at (p_heap p) j) toks) ->
    Z.of_nat (size (p_templates p)) < m_maxTemplates m -> p_templates p !! t_id t = None ->
    t_tokens t = toks -> t_aliasOf t = None -> t_count t = 1 ->
    p' = set_tree (set_store p1 (p_heap p1 ++ [t]) (<[t_id t := length (p_heap p1)]> (p_templates p1)) (u64 (p_nextSeq p1 + 1)))
           (p_children p1) (<[leaf := group p1 leaf ++ [length (p_heap p1)]]> (p_groups p1)) ->
    mined m p toks p' (t_id t) false.

Lemma home_grows m p p' toks leaf : grows (m_maxChildren m) (p_children p) (p_children p') -> home m p toks leaf -> home m p' toks leaf.
Proof. intros G. unfold home. by apply route_grows. Qed.

Lemma home_length m p toks leaf : home m p toks leaf -> leaf.1 = length toks.
Proof. intros H. unfold home in H. by apply route_len in H. Qed.

Lemma home_det m p toks leaf leaf' : home m p toks leaf -> home m p toks leaf' -> leaf = leaf'.
Proof. apply route_det. Qed.

Lemma home_generalize m p pat toks leaf : home m p pat leaf -> home m p toks leaf -> home m p (generalize pat toks) leaf.
Proof.
  intros Hp Ht. assert (length pat = length toks) as Hlen by (apply home_length in Hp, Ht; congruence).
  unfold home in *. rewrite generalize_length, generalize_take by done. apply route_generalize; [|done|by rewrite Hlen].
  by rewrite !length_take, Hlen.
Qed.

(** The invariant through a change of the tree and the tallies. *)
Lemma part_ok_kept m p p' : part_ok m p -> kept m p p' -> p_heap p' = p_heap p -> part_ok m p'.
Proof.
  intros [C G I D V Z] [T Gr Cv Ov Ch] H. constructor; unfold group in *; rewrite ?H, ?T, ?Gr, ?Cv; try done.
  - intros i t Hi. destruct (C i t Hi) as (? & leaf & Hh & ?). split; [done|]. exists leaf. split; [by eapply home_grows|done].
  - intros leaf i Hi. destruct (G leaf i Hi) as (t & ? & ?). exists t. split; [done|]. by eapply home_grows.
Qed.

Lemma member m p i t leaf : part_ok m p -> p_heap p !! i = Some t -> home m p (t_tokens t) leaf -> i ∈ group p leaf.
Proof.
  intros Ok Hi Hh. destruct (po_cell _ _ Ok i t Hi) as (_ & leaf' & Hh' & Hg). by rewrite (home_det _ _ _ _ _ Hh Hh').
Qed.

(** No two templates get one pattern: a pattern that was just generalized by
    a line covers it, and a template with that pattern would have been the
    better match. *)
Lemma no_twin m p p' i t j tj toks leaf :
  part_ok m p -> grows (m_maxChildren m) (p_children p) (p_children p') -> p_groups p' = p_groups p ->
  p_heap p !! i = Some t -> home m p' toks leaf -> i ∈ group p leaf ->
  (covers (t_tokens t) toks \/ forall j, j ∈ group p leaf -> ~ covers (pattern_at (p_heap p) j) toks) ->
  p_heap p !! j = Some tj -> t_tokens tj = generalize (t_tokens t) toks -> j = i.
Proof.
  intros Ok Gr Eg Hi Hh Hin Hcov Hj Etok.
  assert (home m p (t_tokens t) leaf) as Ht.
  { destruct (po_group _ _ Ok _ _ Hin) as (t0 & Hi0 & ?). by simplify_eq. }
  assert (home m p' (t_tokens t) leaf) as Ht' by (by eapply home_grows).
  destruct Hcov as [Hc|Hc]; [rewrite generalize_id in Etok by done; by apply (po_distinct _ _ Ok j i tj t)|].
  exfalso. apply (Hc j); [|unfold pattern_at; rewrite Hj; cbn [from_option]; rewrite Etok; apply generalize_covers].
  - destruct (po_cell _ _ Ok j tj Hj) as (_ & lj & Hhj & Hgj).
    assert (home m p' (generalize (t_tokens t) toks) leaf) as H1 by (by apply home_generalize).
    rewrite <- Etok in H1. assert (home m p' (t_tokens tj) lj) as H2 by (by eapply home_grows).
    by rewrite (home_det _ _ _ _ _ H1 H2).
  - apply home_length in Ht', Hh. congruence.
Qed.

Lemma part_ok_match m p p' i t t' toks leaf :
  part_ok m p -> kept m p p' -> p_heap p !! i = Some t -> home m p' toks leaf -> i ∈ group p leaf ->
  (covers (t_tokens t) toks \/ forall j, j ∈ group p leaf -> ~ covers (pattern_at (p_heap p) j) toks) ->
  p_heap p' = <[i := t']> (p_heap p) -> t_id t' = t_id t -> t_tokens t' = generalize (t_tokens t) toks -> t_aliasOf t' = None ->
  part_ok m p'.
Proof.
  intros Ok [T Gr Cv Ov Ch] Hi Hh Hin Hcov Eh Eid Etok Eal.
  pose proof (no_twin m p p' i t) as Htwin.
  assert (home m p (t_tokens t) leaf) as Ht.
  { destruct (po_group _ _ Ok _ _ Hin) as (t0 & Hi0 & ?). by simplify_eq. }
  assert (home m p' (t_tokens t') leaf) as Ht'.
  { rewrite Etok. apply home_generalize; [by eapply home_grows|done]. }
  assert (forall j, p_heap p' !! j = if decide (i = j) then Some t' else p_heap p !! j) as Hheap.
  { intros j. rewrite Eh. destruct (decide (i = j)) as [<-|]; [|by rewrite list_lookup_insert_ne].
    apply list_lookup_insert_eq. by apply lookup_lt_Some in Hi. }
  assert (forall leaf, group p' leaf = group p leaf) as Hgroup by (intros l; unfold group; by rewrite Gr).
  constructor; rewrite ?T, ?Cv.
  - intros j tj. rewrite Hheap. destruct (decide (i = j)) as [<-|].
    + intros [= <-]. split; [done|]. exists leaf. by rewrite Hgroup.
    + intros Hj. destruct (po_cell _ _ Ok j tj Hj) as (? & lj & ? & ?). split; [done|]. exists lj.
      rewrite Hgroup. split; [by eapply home_grows|done].
  - intros l j. rewrite Hgroup. intros Hj. destruct (po_group _ _ Ok l j Hj) as (tj & Htj & Hhj). rewrite Hheap.
    destruct (decide (i = j)) as [<-|]; [|exists tj; split; [done|by eapply home_grows]].
    exists t'. split; [done|]. simplify_eq. by rewrite (home_det _ _ _ _ _ Hhj Ht).
  - intros id j. rewrite (po_ids _ _ Ok), Hheap. destruct (decide (i = j)) as [<-|]; [|done].
    split; intros (x & Hx & <-); [exists t'|exists t]; split; congruence.
  - intros j1 j2 t1 t2. rewrite !Hheap.
    destruct (decide (i = j1)) as [<-|], (decide (i = j2)) as [<-|]; intros H1 H2 E; simplify_eq; [done| | |by apply (po_distinct _ _ Ok _ _ t1 t2)].
    + symmetry. apply (Htwin j2 t2 toks leaf); try done. congruence.
    + apply (Htwin j1 t1 toks leaf); try done. congruence.
  - apply (po_converged _ _ Ok).
  - apply (po_cap _ _ Ok).
Qed.

Lemma group_app p leaf l i leaf' children groups :
  groups = <[leaf := group p leaf ++ [i]]> (p_groups p) ->
  l ∈ group (set_tree p children groups) leaf' <-> l ∈ group p leaf' \/ (leaf' = leaf /\ l = i).
Proof.
  intros ->. unfold group at 1. cbn [p_groups set_tree]. rewrite lookup_insert. destruct (decide (leaf = leaf')) as [<-|].
  - cbn [from_option]. unfold id. rewrite elem_of_app, list_elem_of_singleton. naive_solver.
  - fold (group p leaf'). naive_solver.
Qed.

Lemma part_ok_new m p t leaf :
  part_ok m p -> home m p (t_tokens t) leaf -> (forall j, j ∈ group p leaf -> ~ covers (pattern_at (p_heap p) j) (t_tokens t)) ->
  Z.of_nat (size (p_templates p)) < m_maxTemplates m -> p_templates p !! t_id t = None -> t_aliasOf t = None ->
  part_ok m (set_tree (set_store p (p_heap p ++ [t]) (<[t_id t := length (p_heap p)]> (p_templates p)) (u64 (p_nextSeq p + 1)))
    (p_children p) (<[leaf := group p leaf ++ [length (p_heap p)]]> (p_groups p))).
Proof.
  intros Ok Hh Hnew Hcap Hid Hal. set (q := set_tree _ _ _).
  assert (forall j, p_heap q !! j = if decide (j = length (p_heap p)) then Some t else p_heap p !! j) as Hheap.
  { intros j. unfold q. cbn [p_heap set_tree set_store]. destruct (decide (j = length (p_heap p))) as [->|Hne].
    - by rewrite lookup_app_r, Nat.sub_diag by lia.
    - destruct (decide (j < length (p_heap p))%nat); [by rewrite lookup_app_l|].
      rewrite !lookup_ge_None_2; [done|lia|rewrite length_app; cbn [length]; lia]. }
  assert (forall l j, j ∈ group q l <-> j ∈ group p l \/ (l = leaf /\ j = length (p_heap p))) as Hgroup.
  { intros l j. unfold q. by rewrite group_app. }
  assert (forall j tj, p_heap p !! j = Some tj -> t_tokens tj <> t_tokens t) as Hdiff.
  { intros j tj Hj E. apply (Hnew j); [|unfold pattern_at; rewrite Hj; cbn [from_option]; rewrite E; apply covers_refl].
    apply (member m p j tj); [done|done|by rewrite E]. }
  assert (forall j tj, p_heap p !! j = Some tj -> j <> length (p_heap p)) as Hlt by (intros j tj Hj%lookup_lt_Some; lia).
  constructor.
  - intros j tj. rewrite Hheap. destruct (decide (j = length (p_heap p))) as [->|].
    + intros [= <-]. split; [done|]. exists leaf. split; [exact Hh|]. apply Hgroup. by right.
    + intros Hj. destruct (po_cell _ _ Ok j tj Hj) as (? & l & ? & ?). split; [done|]. exists l. split; [done|]. apply Hgroup. by left.
  - intros l j [Hj|[-> ->]]%Hgroup.
    + destruct (po_group _ _ Ok l j Hj) as (tj & Hj' & ?). exists tj. rewrite Hheap, decide_False by (by eapply Hlt). done.
    + exists t. by rewrite Hheap, decide_True.
  - intros id j. unfold q. cbn [p_templates set_tree set_store]. fold q. rewrite lookup_insert, Hheap.
    destruct (decide (t_id t = id)) as [<-|Hne], (decide (j = length (p_heap p))) as [->|Hj].
    + split; [intros _; by exists t|done].
    + split; [intros [= <-]; done|]. intros Hex%(po_ids _ _ Ok). congruence.
    + split; [|intros (? & [= <-] & ?); done]. intros (tj & Hl & _)%(po_ids _ _ Ok). by apply Hlt in Hl.
    + apply (po_ids _ _ Ok).
  - intros j1 j2 t1 t2. rewrite !Hheap.
    destruct (decide (j1 = length (p_heap p))) as [->|], (decide (j2 = length (p_heap p))) as [->|]; intros H1 H2 E; simplify_eq; try done.
    + by destruct (Hdiff j2 t2).
    + by destruct (Hdiff j1 t1).
    + by apply (po_distinct _ _ Ok _ _ t1 t2).
  - apply (po_converged _ _ Ok).
  - unfold q. cbn [p_templates set_tree set_store]. rewrite map_size_insert, Hid. cbn [size]. lia.
Qed.

Lemma mined_ok m p toks p' id other : part_ok m p -> mined m p toks p' id other -> part_ok m p'.
Proof.
  intros Ok [p1 K Eh ->|i t t' leaf K Hi Hh Hin Hcov Eh Eid Etok Eal _|p1 t leaf K Eh Hh Hnew Hcap Hid Etok Eal _ ->].
  - pose proof (part_ok_kept _ _ _ Ok K Eh) as []. by constructor.
  - by eapply part_ok_match.
  - assert (forall l, group p1 l = group p l) as Eg by (intros l; unfold group; by rewrite (kp_groups _ _ _ K)).
    apply part_ok_new; [by eapply part_ok_kept|by rewrite Etok| | | |done].
    + intros j. rewrite Eg, Eh, Etok. apply Hnew.
    + by rewrite (kp_templates _ _ _ K).
    + by rewrite (kp_templates _ _ _ K).
Qed.

(** ** Mining a line *)

Section Lines.
Context {S : Type} `{TemplateRegistrar S}.
Implicit Types (s : S) (m : TemplateMiner) (k : tmPartKey) (p : tmPartition).

Lemma kept_refl m p : kept m p p.
Proof. by constructor. Qed.

Lemma ensureOther_spec m s k p m1 s1 :
  m_parts m !! k = Some p -> ensureOtherLocked m s k = (m1, s1) ->
  exists p1, at_part m k p1 m1 /\ kept m p p1 /\ p_heap p1 = p_heap p.
Proof.
  intros Hk. pose proof (at_part_refl m k p Hk) as A. unfold ensureOtherLocked. rewrite (part_at _ _ _ _ A).
  destruct (negb _); [intros [= <- <-]; exists p; split_and!; [done|apply kept_refl|done]|].
  destruct (RegisterTemplate s _) as [s' res]. destruct (default 0 res =? 0); intros [= <- <-].
  - eexists. split; [by eapply at_part_set|]. by split; [constructor|].
  - eexists. split; [apply at_part_stageRow, at_part_setText; by eapply at_part_set|]. by split; [constructor|].
Qed.

Lemma findTwin_none k p i t pat :
  (forall j tj, p_heap p !! j = Some tj -> t_tokens tj = pat -> j = i) -> t_tokens t = pat ->
  findTwinLocked k (set_store p (<[i := t]> (p_heap p)) (p_templates p) (p_nextSeq p)) (k, i) t = None.
Proof.
  intros Huniq Et. unfold findTwinLocked. destruct (List.find _ _) as [j|] eqn:E; [|done].
  apply List.find_some in E as [_ E]. cbn [p_heap set_store] in E.
  destruct (bool_decide ((k, j) = (k, i))) eqn:Eb.
  { by destruct (<[i := t]> (p_heap p) !! j). }
  apply bool_decide_eq_false in Eb. rewrite list_lookup_insert_ne in E by (intros ->; done).
  destruct (p_heap p !! j) as [tj|] eqn:Ej; [|done]. apply andb_true_iff in E as [_ E%bool_decide_eq_true].
  exfalso. apply Eb. f_equal. apply (Huniq j tj Ej). congruence.
Qed.

Lemma absorb_spec m0 m k p i t toks at_ m' a :
  at_part m0 k p m -> p_heap p !! i = Some t -> t_aliasOf t = None ->
  (forall j tj, p_heap p !! j = Some tj -> t_tokens tj = generalize (t_tokens t) toks -> j = i) ->
  absorb m k (k, i) toks at_ = (m', a) ->
  a = (k, i) /\ exists t', at_part m0 k (set_store p (<[i := t']> (p_heap p)) (p_templates p) (p_nextSeq p)) m' /\
    t_id t' = t_id t /\ t_tokens t' = generalize (t_tokens t) toks /\ t_aliasOf t' = None /\ t_count t' = u64 (t_count t + 1).
Proof.
  intros A Hi Hal Huniq. unfold absorb.
  assert (forall m p x, at_part m0 k p m -> p_heap p !! i = Some x -> deref m (k, i) = x) as Hd.
  { intros m1 p1 x A1 Hx. unfold deref. by rewrite (tget_at _ _ _ _ _ A1), Hx. }
  assert (i < length (p_heap p))%nat as Hlt by (by apply lookup_lt_Some in Hi).
  rewrite (Hd m p t A Hi). unfold tmTokensEqual at 1.
  destruct (bool_decide (generalize (t_tokens t) toks = t_tokens t)) eqn:Eb.
  - apply bool_decide_eq_true in Eb. rewrite (Hd m p t A Hi). intros [= <- <-]. split; [done|].
    eexists. split; [apply at_part_markDirty; by apply at_part_tset|]. cbn. by rewrite Eb.
  - set (t1 := with_tokens t (generalize (t_tokens t) toks) (u32 (t_version t + 1))).
    pose proof (at_part_tset _ _ _ _ i t1 A) as A1.
    pose proof (at_part_stage _ _ _ _ k t1 (at_part_setText _ _ _ _ (t_id t1) (tmJoin (t_tokens t1)) A1)) as A2.
    rewrite (part_at _ _ _ _ A2), (findTwin_none k p i t1 (generalize (t_tokens t) toks)) by done.
    rewrite (Hd _ _ t1 A2) by (by apply list_lookup_insert_eq).
    intros [= <- <-]. split; [done|].
    pose proof (at_part_tset _ _ _ _ i (with_stats t1 (u64 (t_count t1 + 1)) (t_firstSeen t1) at_) A2) as A3.
    cbn [p_heap p_templates p_nextSeq set_store] in A3. rewrite list_insert_insert_eq in A3.
    eexists. split; [by apply at_part_markDirty|done].
Qed.

Lemma resolve_self m0 m k p i t : at_part m0 k p m -> p_heap p !! i = Some t -> t_aliasOf t = None -> tmResolveAlias m (k, i) = (k, i).
Proof.
  intros A Hi Hal. unfold tmResolveAlias, tmMaxAliasHops. cbn [resolveLoop].
  rewrite (tget_at _ _ _ _ _ A), Hi. cbn [mbind option_bind]. by rewrite Hal.
Qed.

Lemma kept_trans m p p1 p2 : kept m p p1 -> kept m p1 p2 -> kept m p p2.
Proof. intros [] []. constructor; try congruence. by eapply tree_grows_trans. Qed.

Lemma kept_failed m p : kept m p (registrar_failed p).
Proof. by constructor. Qed.

Lemma route_other_spec m0 m s k p p1 toks m' s' id other text :
  at_part m0 k p1 m -> kept m0 p p1 -> p_heap p1 = p_heap p ->
  route_other m s k p1 = (m', s', (id, other, text)) -> exists p', at_part m0 k p' m' /\ mined m0 p toks p' id other.
Proof.
  intros A K Eh [= <- <- <- <- <-]. exists (overflowed p1). split; [by eapply at_part_set|].
  by apply (mined_other m0 p toks (overflowed p1) p1).
Qed.

Lemma register_spec m0 m s k p p2 leaf toks raw at_ m' s' id other text :
  at_part m0 k p2 m -> kept m0 p p2 -> p_heap p2 = p_heap p -> home m0 p2 toks leaf ->
  (forall j, j ∈ group p leaf -> ~ covers (pattern_at (p_heap p) j) toks) ->
  register_pattern m s k leaf toks raw at_ = (m', s', (id, other, text)) ->
  exists p', at_part m0 k p' m' /\ mined m0 p toks p' id other.
Proof.
  intros A K Eh Hh Hnew. unfold register_pattern. rewrite (part_at _ _ _ _ A).
  assert (m_maxTemplates m = m_maxTemplates m0) as -> by (pose proof (ap_params _ _ _ _ A) as E; unfold params in E; congruence).
  destruct (Z.leb_spec (m_maxTemplates m0) (Z.of_nat (size (p_templates p2)))) as [|Hcap]; [by apply (route_other_spec m0 m s k p p2)|].
  destruct (RegisterTemplate s _) as [s1 res].
  assert (forall m' s' id other text, route_other m s1 k (registrar_failed p2) = (m', s', (id, other, text)) ->
    exists p', at_part m0 k p' m' /\ mined m0 p toks p' id other) as Hfail.
  { intros m1 s2 id1 other1 text1. unfold route_other. intros [= <- <- <- <- <-].
    exists (overflowed (registrar_failed p2)). split; [by eapply at_part_set|].
    refine (mined_other m0 p toks (overflowed (registrar_failed p2)) (registrar_failed p2) _ _ _); [by eapply kept_trans; [|apply kept_failed]|done|done]. }
  destruct (Z.eqb_spec (default 0 res) 0); [apply Hfail|].
  destruct (bool_decide (is_Some (p_templates p2 !! default 0 res))) eqn:Ed; cbn [orb]; [apply Hfail|].
  destruct (Z.eqb_spec (default 0 res) (p_otherID p2)); [apply Hfail|].
  apply bool_decide_eq_false, eq_None_not_Some in Ed. intros [= <- <- <- <- <-].
  set (t := mkTemplate (default 0 res) (p_nextSeq p2) toks 0 1 at_ at_ raw (Some leaf) None).
  eexists. split; [eapply at_part_stage, at_part_setText, at_part_set; exact A|].
  refine (mined_new m0 p toks _ p2 t leaf K Eh Hh Hnew _ _ eq_refl eq_refl eq_refl eq_refl); by rewrite <- (kp_templates _ _ _ K).
Qed.

Lemma mine_spec m s k p toks raw at_ wantText m' s' id other text :
  params_ok m -> m_parts m !! k = Some p -> part_ok m p -> (length toks <= maxLine)%nat ->
  mine m s k toks raw at_ wantText = (m', s', (id, other, text)) ->
  exists p', at_part m k p' m' /\ mined m p toks p' id other.
Proof.
  intros Pk Hk Ok Hlen. unfold mine. destruct (ensureOtherLocked m s k) as [m1 s1] eqn:Eo.
  destruct (ensureOther_spec _ _ _ _ _ _ Hk Eo) as (p1 & A1 & K1 & H1).
  rewrite (part_at _ _ _ _ A1). destruct (Z.eqb_spec (Z.of_nat (length toks)) 0) as [E0|E0]; [by apply route_other_spec|].
  assert (params m1 = params m) as Ep by apply (ap_params _ _ _ _ A1). unfold params in Ep.
  assert (m_depth m1 = m_depth m /\ m_maxChildren m1 = m_maxChildren m) as [-> ->] by (split; congruence).
  unfold descend. destruct (walk _ _ _ _) as [children leaf] eqn:Ew.
  set (p2 := set_tree p1 children (p_groups p1)). set (m2 := set_part m1 k p2).
  assert (at_part m k p2 m2) as A2 by (by eapply at_part_set).
  assert (kept m p p2) as K2.
  { eapply kept_trans; [exact K1|]. constructor; try done. by eapply walk_grows. }
  assert (home m p2 toks leaf) as Hh by (by eapply walk_route).
  assert (p_heap p2 = p_heap p) as H2 by done.
  pose proof (part_ok_kept _ _ _ Ok K2 H2) as Ok2.
  assert (forall l, group p2 l = group p l) as Eg by (intros l; unfold group; by rewrite (kp_groups _ _ _ K2)).
  assert (1 <= length toks <= maxLine)%nat as Hn by lia.
  pose proof (best_match (p_heap p2) toks Hn (group p2 leaf)) as Hb.
  assert (Forall (fits (p_heap p2) toks) (group p2 leaf)) as Hfits.
  { apply Forall_forall. intros i Hi. destruct (po_group _ _ Ok2 _ _ Hi) as (t & Ht & Hht). exists t. split; [done|].
    apply home_length in Hht, Hh. congruence. }
  specialize (Hb Hfits). unfold group in Hb at 2. destruct (tmBestMatch _ _ _) as [[i|] sim] eqn:Eb; unfold best_of in Hb; cbn [fst snd] in Hb.
  - destruct Hb as (Hin & -> & Hmax). destruct (po_group _ _ Ok2 _ _ Hin) as (t & Ht & Hht).
    assert (pattern_at (p_heap p2) i = t_tokens t) as Epat by (unfold pattern_at; by rewrite Ht). rewrite Epat in *.
    assert (length (t_tokens t) = length toks) as Htl by (apply home_length in Hht, Hh; congruence).
    destruct (similarity_facts (t_tokens t) toks Htl Hn) as (Hyes & _).
    assert (t_aliasOf t = None) as Hal by (by destruct (po_cell _ _ Ok2 i t Ht)).
    assert (covers (t_tokens t) toks \/ forall j, j ∈ group p leaf -> ~ covers (pattern_at (p_heap p) j) toks) as Hcov.
    { destruct (decide (covers (t_tokens t) toks)) as [|Hno]; [by left|right]. intros j Hj Hc. apply Hno, (Hmax j); [by rewrite Eg|by rewrite H2]. }
    destruct (fge _ _) eqn:Ef.
    + rewrite (resolve_self m m2 k p2 i t A2 Ht Hal). destruct (absorb m2 k (k, i) toks at_) as [m3 a] eqn:Ea.
      assert (forall j tj, p_heap p2 !! j = Some tj -> t_tokens tj = generalize (t_tokens t) toks -> j = i) as Huniq.
      { intros j tj Hj Etok. rewrite H2 in Ht, Hj. rewrite Eg in Hin.
        apply (no_twin m p p2 i t j tj toks leaf); try done; [apply (kp_children _ _ _ K2)|apply (kp_groups _ _ _ K2)]. }
      destruct (absorb_spec m m2 k p2 i t toks at_ m3 a A2 Ht Hal Huniq Ea) as (-> & t' & A3 & Eid & Etok & Eal & Ecnt).
      intros [= <- <- <- <- _].
      assert (deref m3 (k, i) = t') as ->.
      { unfold deref. rewrite (tget_at _ _ _ _ _ A3). cbn [p_heap set_store]. by rewrite list_lookup_insert_eq by (by apply lookup_lt_Some in Ht). }
      eexists. split; [exact A3|]. rewrite Eid. rewrite Eg in Hin. apply (mined_match m p toks _ i t t' leaf); try done.
      * destruct K2. by constructor.
      * by rewrite <- H2.
      * cbn [p_heap set_store]. by rewrite H2.
    + apply register_spec with p2; try done. intros j Hj Hc. destruct Hcov as [Hcov|Hcov]; [|by apply (Hcov j)].
      rewrite (Hyes Hcov) in Ef. unfold fge in Ef. assert (m_similarity m2 = m_similarity m) as Es by (cbn; congruence).
      by rewrite Es, (pk_similarity _ Pk) in Ef.
  - destruct Hb as [Hnil _]. apply register_spec with p2; try done. intros j. rewrite <- Eg, Hnil. by intros ?%elem_of_nil.
Qed.

End Lines.
