(* ===== verification/MinerLines.v ===== *)
(** * MinerLines: the miner over a stream of lines

    The invariant of [MinerInvariant] through any sequence of lines, on any
    partitions and with any registrar: templates never converge, every line
    stays under a template that covers it, and the counts add up. *)
From S2P Require Import Prelude Float64 SeriesKey Routes Dict Gc LogTokens TemplateMiner MinerInvariant.
#[local] Open Scope Z_scope.

(** A log line as the reducer hands it over. *)
Record line := mkLine {
  l_tenant : string;
  l_service : string;
  l_severity : string;
  l_body : bstr;
  l_at : time;
}.

Definition l_key (l : line) : string * string := (l_tenant l, l_service l).

Record miner_ok (m : TemplateMiner) : Prop := {
  mk_params : params_ok m;
  mk_alias : m_alias m = ∅;
  mk_parts : forall k p, m_parts m !! k = Some p -> part_ok m p;
}.

Lemma params_fields m m' : params m' = params m ->
  m_depth m' = m_depth m /\ m_maxChildren m' = m_maxChildren m /\ m_maxTemplates m' = m_maxTemplates m /\
  m_similarity m' = m_similarity m /\ m_maxTokens m' = m_maxTokens m.
Proof. unfold params. intros E. split_and!; congruence. Qed.

Lemma part_ok_params m m' p : params m' = params m -> part_ok m p -> part_ok m' p.
Proof.
  intros (E1 & E2 & E3 & _)%params_fields [C G I D V Z].
  assert (forall toks leaf, home m' p toks leaf = home m p toks leaf) as Eh by (intros; unfold home; by rewrite E1, E2).
  constructor; try done; [intros i t; setoid_rewrite Eh; apply C|intros l i; setoid_rewrite Eh; apply G|by rewrite E3].
Qed.

Lemma kept_params m m' p p' : params m' = params m -> kept m p p' -> kept m' p p'.
Proof. intros E%params_fields []. destruct E as (_ & E & _). constructor; by rewrite ?E. Qed.

Lemma home_params m m' p toks leaf : params m' = params m -> home m p toks leaf -> home m' p toks leaf.
Proof. intros (E1 & E2 & _)%params_fields. unfold home. by rewrite E1, E2. Qed.

Lemma mined_params m m' p toks p' id other : params m' = params m -> mined m p toks p' id other -> mined m' p toks p' id other.
Proof.
  intros E [p1 K Eh ->|i t t' leaf K Hi Hh Hin Hcov Eh Eid Etok Eal Ec|p1 t leaf K Eh Hh Hnew Hcap Hid Etok Eal Ec ->].
  - eapply mined_other; [by eapply kept_params|done|done].
  - apply (mined_match m' p toks p' i t t' leaf); try done; [by eapply kept_params|by eapply home_params].
  - apply (mined_new m' p toks _ p1 t leaf); try done; [by eapply kept_params|by eapply home_params|].
    by destruct (params_fields _ _ E) as (_ & _ & -> & _).
Qed.

Lemma params_ok_params m m' : params m' = params m -> params_ok m -> params_ok m'.
Proof. intros (_ & _ & _ & E1 & E2)%params_fields []. constructor; by rewrite ?E1, ?E2. Qed.

Lemma miner_ok_new cfg : f_is_nan (c_SimilarityThreshold cfg) = false -> c_MaxTokens cfg < Z.of_nat maxLine -> miner_ok (NewTemplateMiner cfg).
Proof.
  intros Hnan Hmax. constructor; [|done|intros k p; cbn; by rewrite lookup_empty]. constructor; cbn [m_similarity m_maxTokens NewTemplateMiner SetFactSink set_facts].
  - destruct (fle _ f_zero) eqn:E1; cbn [orb]; [by vm_compute|]. destruct (fgt _ f_one) eqn:E2; [by vm_compute|]. by apply fle_not_flt.
  - destruct (Z.leb_spec (c_MaxTokens cfg) 0); [done|lia].
Qed.

Section Stream.
Context {S : Type} `{TemplateRegistrar S}.
Implicit Types (s : S) (m : TemplateMiner) (l : line) (p : tmPartition).

(** The lines of a run, in order, with what the miner answered. *)
Definition mine_line m s l : TemplateMiner * S * (Z * bool) :=
  MineAt m s (l_tenant l) (l_service l) (l_severity l) (l_body l) (l_at l).

Fixpoint mine_lines m s (ls : list line) : TemplateMiner * S * list (line * (Z * bool)) :=
  match ls with
  | [] => (m, s, [])
  | l :: ls =>
      let '(m, s, out) := mine_line m s l in
      let '(m, s, outs) := mine_lines m s ls in
      (m, s, (l, out) :: outs)
  end.

Definition l_tokens m l : list bstr := tmSplitTokens (l_body l) (m_maxTokens m).

Lemma partition_at m k : at_part m k (part m k) (partition m k).
Proof.
  unfold partition, part. destruct (m_parts m !! k) as [p|] eqn:E; [by apply at_part_refl|by constructor].
Qed.

Lemma mine_line_spec m s l m' s' id other :
  miner_ok m -> mine_line m s l = (m', s', (id, other)) ->
  exists p', at_part m (l_key l) p' m' /\ mined m (part m (l_key l)) (l_tokens m l) p' id other.
Proof.
  intros [P Al Pt]. unfold mine_line, MineAt. fold (l_key l). set (k := l_key l).
  pose proof (partition_at m k) as A. set (m1 := partition m k) in *.
  assert (params m1 = params m) as E1 by apply (ap_params _ _ _ _ A).
  assert (part_ok m1 (part m k)) as Ok.
  { apply (part_ok_params m); [done|]. unfold part. destruct (m_parts m !! k) as [p|] eqn:E; [by apply (Pt k)|apply part_ok_empty]. }
  assert (m_maxTokens m1 = m_maxTokens m) as Em by by apply params_fields.
  rewrite Em. fold (l_tokens m l). destruct (mine _ _ _ _ _ _ _) as [[m2 s2] [[id2 o2] text]] eqn:E.
  apply (mine_spec m1 s k (part m k)) in E as (p' & [Ap Aa Apa] & M); [| |by rewrite (ap_parts _ _ _ _ A), lookup_insert_eq|done|].
  - intros [= <- <- <- <-]. exists p'. split; [|by eapply mined_params].
    assert (at_part m k p' m2) as A2.
    { constructor; [by rewrite Ap, (ap_parts _ _ _ _ A), insert_insert_eq|by rewrite Aa, (ap_alias _ _ _ _ A)|congruence]. }
    destruct (m_sink m2) eqn:Es; [|done]. destruct A2 as [X1 X2 X3]. constructor; [done|done|].
    rewrite <- X3. unfold params, set_facts. cbn. by rewrite Es.
  - by apply (params_ok_params m).
  - destruct P as [_ Ht]. destruct (tokens_spec (l_body l) (m_maxTokens m)) as (_ & _ & Hl); [lia|]. unfold l_tokens. lia.
Qed.

Lemma miner_ok_line m s l m' s' out : miner_ok m -> mine_line m s l = (m', s', out) -> miner_ok m' /\ params m' = params m.
Proof.
  destruct out as [id other]. intros Ok Hl. destruct (mine_line_spec _ _ _ _ _ _ _ Ok Hl) as (p' & [Ap Aa Apa] & M).
  destruct Ok as [P Al Pt]. split; [|done]. constructor; [by apply (params_ok_params m)|congruence|].
  intros k p. rewrite Ap, lookup_insert. destruct (decide (l_key l = k)) as [<-|]; intros Hp.
  - injection Hp as <-. apply (part_ok_params m); [done|]. eapply mined_ok; [|exact M].
    unfold part. destruct (m_parts m !! l_key l) as [p0|] eqn:E; [by apply (Pt (l_key l))|apply part_ok_empty].
  - apply (part_ok_params m); [done|]. by apply (Pt k).
Qed.

Lemma mine_lines_ok ls : forall m s m' s' outs, miner_ok m -> mine_lines m s ls = (m', s', outs) -> miner_ok m' /\ params m' = params m.
Proof.
  induction ls as [|l ls IH]; intros m s m' s' outs Ok; cbn [mine_lines]; [by intros [= <- <- <-]|].
  destruct (mine_line m s l) as [[m1 s1] out] eqn:E1. destruct (mine_lines m1 s1 ls) as [[m2 s2] outs2] eqn:E2.
  intros [= <- <- <-]. destruct (miner_ok_line _ _ _ _ _ _ Ok E1) as [Ok1 P1].
  destruct (IH _ _ _ _ _ Ok1 E2) as [Ok2 P2]. split; [done|congruence].
Qed.

(** *** The account

    What a run has answered, by partition and template. *)
Definition answered (k : tmPartKey) (out : Z * bool) (done_ : list (line * (Z * bool))) : Z :=
  Z.of_nat (length (filter (fun x => l_key x.1 = k /\ x.2 = out) done_)).

Definition spilled (k : tmPartKey) (done_ : list (line * (Z * bool))) : Z :=
  Z.of_nat (length (filter (fun x => l_key x.1 = k /\ x.2.2 = true) done_)).

Record account (m : TemplateMiner) (done_ : list (line * (Z * bool))) : Prop := {
  ac_count : forall k i t, p_heap (part m k) !! i = Some t -> t_count t = u64 (answered k (t_id t, false) done_);
  ac_overflow : forall k, p_overflow (part m k) = u64 (spilled k done_);
  ac_kept : forall l id, (l, (id, false)) ∈ done_ ->
    exists i t, p_heap (part m (l_key l)) !! i = Some t /\ t_id t = id /\ covers (t_tokens t) (l_tokens m l);
}.

Lemma account_new cfg : account (NewTemplateMiner cfg) [].
Proof.
  assert (forall k, part (NewTemplateMiner cfg) k = emptyPartition) as E by (intros k; unfold part; cbn; by rewrite lookup_empty).
  constructor; [intros k i t|intros k|by intros l id ?%elem_of_nil]; rewrite E; [by cbn; rewrite lookup_nil|done].
Qed.

Lemma answered_snoc k out done_ x :
  answered k out (done_ ++ [x]) = answered k out done_ + (if decide (l_key x.1 = k /\ x.2 = out) then 1 else 0).
Proof. unfold answered. rewrite filter_app, length_app, filter_cons, filter_nil. destruct (decide _); cbn [length]; lia. Qed.

Lemma spilled_snoc k done_ x :
  spilled k (done_ ++ [x]) = spilled k done_ + (if decide (l_key x.1 = k /\ x.2.2 = true) then 1 else 0).
Proof. unfold spilled. rewrite filter_app, length_app, filter_cons, filter_nil. destruct (decide _); cbn [length]; lia. Qed.

Lemma answered_none k id done_ : (forall l, (l, (id, false)) ∈ done_ -> l_key l <> k) -> answered k (id, false) done_ = 0.
Proof.
  intros Hn. unfold answered. destruct (filter _ done_) as [|[l out] rest] eqn:E; [done|exfalso].
  assert ((l, out) ∈ filter (fun x : line * (Z * bool) => l_key x.1 = k /\ x.2 = (id, false)) done_) as Hin by (rewrite E; set_solver).
  apply list_elem_of_filter in Hin as [[Hk Ho] Hin]. cbn in Hk, Ho. subst out. by apply (Hn l).
Qed.

Lemma part_at_other m k p m' k' : at_part m k p m' -> part m' k' = if decide (k = k') then p else part m k'.
Proof. intros [E _ _]. unfold part. rewrite E, lookup_insert. by destruct (decide _). Qed.

Lemma l_tokens_params m m' l : params m' = params m -> l_tokens m' l = l_tokens m l.
Proof. intros (_ & _ & _ & _ & E)%params_fields. unfold l_tokens. by rewrite E. Qed.

Lemma part_ok_part m k : miner_ok m -> part_ok m (part m k).
Proof. intros [_ _ Pt]. unfold part. destruct (m_parts m !! k) as [p|] eqn:E; [by apply (Pt k)|apply part_ok_empty]. Qed.

Lemma answered_bump k id id' done_ l (c c' : Z) : l_key l = k -> c = u64 (answered k (id', false) done_) ->
  c' = (if decide (id = id') then u64 (c + 1) else c) -> c' = u64 (answered k (id', false) (done_ ++ [(l, (id, false))])).
Proof.
  intros Hk -> ->. rewrite answered_snoc. cbn [fst snd]. destruct (decide (id = id')) as [->|Hne].
  - rewrite decide_True by done. by rewrite wrapu_add_l.
  - rewrite decide_False by naive_solver. by rewrite Z.add_0_r.
Qed.

(** What a line changes in its partition, read off the templates. *)
Definition broader (t t' : tmTemplate) : Prop := t_id t' = t_id t /\ forall toks, covers (t_tokens t) toks -> covers (t_tokens t') toks.

Record effect (p p' : tmPartition) (toks : list bstr) (id : Z) (other : bool) : Prop := {
  ef_overflow : p_overflow p' = if other then u64 (p_overflow p + 1) else p_overflow p;
  ef_back : forall i t', p_heap p' !! i = Some t' ->
    (exists t, p_heap p !! i = Some t /\ broader t t' /\ t_count t' = if decide ((id, other) = (t_id t, false)) then u64 (t_count t + 1) else t_count t)
    \/ (other = false /\ t_id t' = id /\ t_count t' = 1 /\ p_templates p !! id = None);
  ef_forth : forall i t, p_heap p !! i = Some t -> exists t', p_heap p' !! i = Some t' /\ broader t t';
  ef_kept : other = false -> exists i t', p_heap p' !! i = Some t' /\ t_id t' = id /\ covers (t_tokens t') toks;
}.

Lemma broader_refl t : broader t t.
Proof. done. Qed.

Lemma unique_id m p i j t t' : part_ok m p -> p_heap p !! i = Some t -> p_heap p !! j = Some t' -> t_id t = t_id t' -> i = j.
Proof.
  intros Ok Hi Hj E. assert (p_templates p !! t_id t = Some i) as H1 by (apply (po_ids _ _ Ok); eauto).
  assert (p_templates p !! t_id t = Some j) as H2 by (apply (po_ids _ _ Ok); eauto). congruence.
Qed.

Lemma effect_match m p p' i t t' toks :
  part_ok m p -> p_overflow p' = p_overflow p -> p_heap p !! i = Some t -> length (t_tokens t) = length toks ->
  p_heap p' = <[i := t']> (p_heap p) -> t_id t' = t_id t -> t_tokens t' = generalize (t_tokens t) toks -> t_count t' = u64 (t_count t + 1) ->
  effect p p' toks (t_id t) false.
Proof.
  intros Ok Ov Hi Hlen Eh Eid Etok Ec.
  assert (broader t t') as Hb by (split; [done|]; intros x Hx; rewrite Etok; by apply generalize_keeps).
  assert (forall j, p_heap p' !! j = if decide (i = j) then Some t' else p_heap p !! j) as Hheap.
  { intros j. rewrite Eh. destruct (decide (i = j)) as [<-|]; [|by rewrite list_lookup_insert_ne].
    apply list_lookup_insert_eq. by apply lookup_lt_Some in Hi. }
  constructor; [done| | |].
  - intros j tj. rewrite Hheap. destruct (decide (i = j)) as [<-|Hne]; intros Hj; left.
    + injection Hj as <-. exists t. by rewrite decide_True.
    + exists tj. split_and!; [done|apply broader_refl|]. rewrite decide_False; [done|]. intros [= E]. by eapply Hne, unique_id.
  - intros j tj Hj. rewrite Hheap. destruct (decide (i = j)) as [<-|]; [simplify_eq; eauto|eauto using broader_refl].
  - intros _. exists i, t'. rewrite Hheap, decide_True by done. split_and!; [done|done|]. rewrite Etok. by apply generalize_covers.
Qed.

Lemma effect_new m p p' t :
  part_ok m p -> p_overflow p' = p_overflow p -> p_heap p' = p_heap p ++ [t] -> p_templates p !! t_id t = None -> t_count t = 1 ->
  effect p p' (t_tokens t) (t_id t) false.
Proof.
  intros Ok Ov Eh Hid Ec. constructor; [done| | |]; rewrite Eh.
  - intros j tj [Hj|[Hj Hl]]%lookup_app_Some; [left|right].
    + exists tj. split_and!; [done|apply broader_refl|]. rewrite decide_False; [done|]. intros [= E].
      assert (p_templates p !! t_id tj = Some j) by (apply (po_ids _ _ Ok); eauto). congruence.
    + apply list_lookup_singleton_Some in Hl as [_ <-]. done.
  - intros j tj Hj. exists tj. split; [by apply lookup_app_l_Some|apply broader_refl].
  - intros _. exists (length (p_heap p)), t. split_and!; [by rewrite lookup_app_r, Nat.sub_diag|done|apply covers_refl].
Qed.

Lemma mined_effect m p toks p' id other : part_ok m p -> mined m p toks p' id other -> effect p p' toks id other.
Proof.
  intros Ok [p1 [] Eh ->|i t t' leaf K Hi Hh Hin Hcov Eh Eid Etok Eal Ec|p1 t leaf [] Eh Hh Hnew Hcap Hid <- Eal Ec ->].
  - constructor; cbn [p_overflow p_heap overflowed set_tallies]; rewrite ?Eh; [congruence| | |done].
    + intros i t' Hi. left. exists t'. split_and!; [done|apply broader_refl|by rewrite decide_False].
    + eauto using broader_refl.
  - eapply effect_match; try done; [by destruct K|]. destruct (po_group _ _ Ok _ _ Hin) as (t0 & Hi0 & Ht0). simplify_eq.
    apply home_length in Ht0, Hh. congruence.
  - eapply effect_new; try done; cbn [p_overflow p_heap set_tree set_store]; congruence.
Qed.

Lemma account_line m m' done_ l p' id other :
  miner_ok m -> account m done_ -> at_part m (l_key l) p' m' -> mined m (part m (l_key l)) (l_tokens m l) p' id other ->
  account m' (done_ ++ [(l, (id, other))]).
Proof.
  intros Ok [Ac Ao Ak] A M. set (k := l_key l) in *. set (p := part m k) in *.
  pose proof (part_ok_part m k Ok) as Okp. fold p in Okp. apply (mined_effect _ _ _ _ _ _ Okp) in M as [Eo Eb Ef Ek].
  assert (forall k0, part m' k0 = if decide (k = k0) then p' else part m k0) as Epart by (intros k0; by apply part_at_other).
  constructor.
  - intros k0 i t'. rewrite Epart. destruct (decide (k = k0)) as [<-|Hne].
    + rewrite answered_snoc. cbn [fst snd]. intros [(t & Hi & [-> _] & ->)|(-> & <- & -> & Hid)]%Eb.
      * rewrite (Ac k i t Hi). destruct (decide ((id, other) = _)) as [->|].
        -- by rewrite decide_True, wrapu_add_l by done.
        -- rewrite decide_False by naive_solver. by rewrite Z.add_0_r.
      * rewrite decide_True by done. rewrite answered_none; [done|]. intros l0 Hl0 Hk0.
        destruct (Ak _ _ Hl0) as (i0 & t0 & Hi0 & Hid0 & _). rewrite Hk0 in Hi0.
        assert (p_templates p !! t_id t0 = Some i0) by (apply (po_ids _ _ Okp); eauto). congruence.
    + rewrite answered_snoc, decide_False, Z.add_0_r by (cbn; naive_solver). apply Ac.
  - intros k0. rewrite Epart, spilled_snoc. cbn [fst snd]. destruct (decide (k = k0)) as [<-|Hne].
    + rewrite Eo. unfold p at 1 2. rewrite Ao. destruct other; [by rewrite decide_True, wrapu_add_l by done|by rewrite decide_False, Z.add_0_r by naive_solver].
    + by rewrite decide_False, Z.add_0_r by naive_solver.
  - intros l0 id0. rewrite (l_tokens_params m) by apply (ap_params _ _ _ _ A). rewrite Epart.
    intros [Hl|Hl]%elem_of_app.
    + destruct (Ak l0 id0 Hl) as (i & t & Hi & Hid & Hc). destruct (decide (k = l_key l0)) as [E|]; [|eauto].
      rewrite <- E in Hi. destruct (Ef i t Hi) as (t' & Hi' & Eid & Hb). exists i, t'. split_and!; [done|congruence|by apply Hb].
    + apply list_elem_of_singleton in Hl. injection Hl as -> -> <-. rewrite decide_True by done. by apply Ek.
Qed.

Lemma account_lines ls : forall m s m' s' outs done_, miner_ok m -> account m done_ -> mine_lines m s ls = (m', s', outs) ->
  account m' (done_ ++ outs).
Proof.
  induction ls as [|l ls IH]; intros m s m' s' outs done_ Ok Ac; cbn [mine_lines]; [intros [= <- <- <-]; by rewrite app_nil_r|].
  destruct (mine_line m s l) as [[m1 s1] [id other]] eqn:E1. destruct (mine_lines m1 s1 ls) as [[m2 s2] outs2] eqn:E2.
  intros [= <- <- <-]. destruct (mine_line_spec _ _ _ _ _ _ _ Ok E1) as (p' & A & M).
  pose proof (account_line _ _ _ _ _ _ _ Ok Ac A M) as Ac1. destruct (miner_ok_line _ _ _ _ _ _ Ok E1) as [Ok1 _].
  rewrite cons_middle, app_assoc. by eapply IH.
Qed.

Lemma mine_lines_fst ls : forall m s m' s' outs, mine_lines m s ls = (m', s', outs) -> fst <$> outs = ls.
Proof.
  induction ls as [|l ls IH]; intros m s m' s' outs; cbn [mine_lines]; [by intros [= <- <- <-]|].
  destruct (mine_line m s l) as [[m1 s1] out]. destruct (mine_lines m1 s1 ls) as [[m2 s2] outs2] eqn:E2.
  intros [= <- <- <-]. cbn. f_equal. by eapply IH.
Qed.

(** C24: templates never converge.  From a new miner with a token limit of at
    most 128, through any lines of any tenants and services and whatever IDs
    the registrar hands out or refuses: no template is ever retired in favour
    of another, no two templates of a partition have the same pattern, no two
    have the same ID, and no partition has more templates than its cap. *)
Theorem templates_never_converge cfg s ls m' s' outs :
  f_is_nan (c_SimilarityThreshold cfg) = false -> c_MaxTokens cfg < Z.of_nat maxLine ->
  mine_lines (NewTemplateMiner cfg) s ls = (m', s', outs) ->
  m_alias m' = ∅ /\
  forall k p, m_parts m' !! k = Some p ->
    p_converged p = 0 /\ Z.of_nat (size (p_templates p)) <= m_maxTemplates m' /\
    (forall i t, p_heap p !! i = Some t -> t_aliasOf t = None /\ p_templates p !! t_id t = Some i) /\
    (forall i j ti tj, p_heap p !! i = Some ti -> p_heap p !! j = Some tj -> t_tokens ti = t_tokens tj -> i = j).
Proof.
  intros Hnan Hmax H1. destruct (mine_lines_ok _ _ _ _ _ _ (miner_ok_new cfg Hnan Hmax) H1) as [[_ Al Pt] E].
  split; [done|]. intros k p Hp. pose proof (Pt k p Hp) as Ok.
  split_and!; [apply (po_converged _ _ Ok)| | |apply (po_distinct _ _ Ok)].
  - destruct (params_fields _ _ E) as (_ & _ & Et & _). pose proof (po_cap _ _ Ok).
    assert (0 < m_maxTemplates m') by (rewrite Et; cbn; unfold DefaultMaxLogTemplatesPerService; case_match; z_bool; lia). lia.
  - intros i t Hi. split; [by destruct (po_cell _ _ Ok i t Hi)|]. apply (po_ids _ _ Ok). eauto.
Qed.

(** C25: every line is counted once and stays covered.  After any run, a line
    that was answered with a template is covered by that template's present
    pattern, however often it was generalized since; a template's count is
    the number of lines answered with it, and a partition's overflow count
    is the number of its lines that went to the overflow template. *)
Theorem lines_counted cfg s ls m' s' outs :
  f_is_nan (c_SimilarityThreshold cfg) = false -> c_MaxTokens cfg < Z.of_nat maxLine ->
  mine_lines (NewTemplateMiner cfg) s ls = (m', s', outs) ->
  fst <$> outs = ls /\
  (forall l id, (l, (id, false)) ∈ outs -> exists i t,
    p_templates (part m' (l_key l)) !! id = Some i /\ p_heap (part m' (l_key l)) !! i = Some t /\
    covers (t_tokens t) (l_tokens m' l) /\ t_count t = u64 (answered (l_key l) (id, false) outs)) /\
  (forall k, p_overflow (part m' k) = u64 (spilled k outs)).
Proof.
  intros Hnan Hmax H1. pose proof (miner_ok_new cfg Hnan Hmax) as Ok0.
  destruct (account_lines _ _ _ _ _ _ [] Ok0 (account_new cfg) H1) as [Ac Ao Ak]. cbn [app] in *.
  split_and!; [by eapply mine_lines_fst| |done]. intros l id Hl. destruct (Ak l id Hl) as (i & t & Hi & <- & Hc).
  exists i, t. split_and!; [|done|done|by apply (Ac _ i)].
  destruct (mine_lines_ok _ _ _ _ _ _ Ok0 H1) as [Ok _]. apply (po_ids _ _ (part_ok_part m' (l_key l) Ok)). eauto.
Qed.

End Stream.

(** *** A run *)

Definition demo_config : TemplateMinerConfig := mkMinerConfig 2 4 f_zero 100 0 true.

Definition demo_line (body : string) : line := mkLine "t" "cart" "INFO" (lit body) 5.

Definition demo_lines : list line :=
  demo_line <$> ["order 17 placed by alice"; "order 18 placed by bob"; "payment declined"; "cache miss for key"; "order 19 placed by carol"; " "].

Definition demo_run : TemplateMiner * Z * list (line * (Z * bool)) :=
  mine_lines (S := Z) (H := inMemoryTemplateRegistrar) (NewTemplateMiner demo_config) 0 demo_lines.

Lemma demo_run_value :
  (snd <$> demo_run.2 = [(2, false); (2, false); (3, false); (1, true); (2, false); (1, true)]) /\
  tmJoin <$> (t_tokens <$> p_heap (part demo_run.1.1 ("t", "cart"))) = [lit "order <NUM> placed by <*>"; lit "payment declined"].
Proof. split; by vm_compute. Qed.

Lemma templates_never_converge_witness :
  m_alias demo_run.1.1 = ∅ /\ p_converged (part demo_run.1.1 ("t", "cart")) = 0.
Proof.
  destruct (templates_never_converge (S := Z) (H := inMemoryTemplateRegistrar) demo_config 0 demo_lines
    demo_run.1.1 demo_run.1.2 demo_run.2) as [H1 H2]; [done|done|unfold demo_run; by destruct (mine_lines _ _ _) as [[]]|].
  split; [exact H1|]. unfold part. destruct (_ !! _) as [p|] eqn:E; [|done]. exact (proj1 (H2 _ p E)).
Defined.

Lemma lines_counted_witness :
  exists i t, p_templates (part demo_run.1.1 ("t", "cart")) !! 2 = Some i /\ p_heap (part demo_run.1.1 ("t", "cart")) !! i = Some t /\
    covers (t_tokens t) (l_tokens demo_run.1.1 (demo_line "order 17 placed by alice")) /\
    t_count t = u64 (answered ("t", "cart") (2, false) demo_run.2).
Proof.
  destruct (lines_counted (S := Z) (H := inMemoryTemplateRegistrar) demo_config 0 demo_lines
    demo_run.1.1 demo_run.1.2 demo_run.2) as (_ & H1 & _); [done|done|unfold demo_run; by destruct (mine_lines _ _ _) as [[]]|].
  apply (H1 (demo_line "order 17 placed by alice") 2). apply (list_elem_of_lookup_2 _ 0%nat). by vm_compute.
Defined.

(** A body with a NUL byte has a token that the durable form cannot keep: it
    is read back as two. *)
Lemma nul_token_splits :
  tmDecodeTokens (tmEncodeTokens (tmSplitTokens [nul] 128)) = [[]; []] /\ tmSplitTokens [nul] 128 = [[nul]].
Proof. split; by vm_compute. Qed.
