(* ===== verification/GcRace.v ===== *)
(** * GcRace: ingest running beside a collection

    The hot path and the collector share the cache and the registrar, each
    method one atomic step under its mutex.  A goroutine that missed the cache
    registers a value first and stores the ID in the map later; in between it
    holds the ID ([rc_inflight]).  The collector marks, revalidates, fences,
    and forgets after the delete has committed.  Revalidating and fencing are
    two critical sections of the code, hence two steps: [rstep true] lets any
    registration run between them, [rstep false] only those that do not return
    an ID the revalidation has passed, which is what the comments of the code
    take for granted. *)
From stdpp Require Import relations.
From S2P Require Import Prelude SeriesKey Dict Registrar Identity Gc.
#[local] Open Scope Z_scope.

Inductive gc_phase :=
| Quiet
| Marked (cands : gset Z)
| Checked (ids : gset Z)
| Deleting (ids : gset Z).

Record RSys := mkRSys {
  rc_cache : Cache DurableRegistrar;
  rc_inflight : list (Z * Z * string * Z);
  rc_phase : gc_phase;
}.

Definition rc_reg (y : RSys) : DurableRegistrar := c_reg (rc_cache y).

(** An ID some goroutine holds, or can get from the map without asking the
    registrar. *)
Definition holds (y : RSys) (s : dictScope) (v : string) (id : Z) : Prop :=
  (s, v, id) ∈ rc_inflight y \/ nget (c_ids (rc_cache y)) s v = Some id.

Definition held (y : RSys) (id : Z) : Prop := exists s v, holds y s v id.

(** Raising both fences, and the two ways down. *)
Definition fence_up (c : Cache DurableRegistrar) (ids : gset Z) : Cache DurableRegistrar :=
  c_Fence (set_reg c (d_Fence (c_reg c) ids)) ids.

Definition sweep_fails (c : Cache DurableRegistrar) : Cache DurableRegistrar :=
  c_Unfence (set_reg c (d_Unfence (c_reg c))).

Definition sweep_commits (c : Cache DurableRegistrar) (ids : gset Z) : Cache DurableRegistrar :=
  let c := c_Unfence (c_Forget c ids) in set_reg c (d_Forget (c_reg c) ids).

Inductive rstep (racy : bool) : RSys -> RSys -> Prop :=
| r_hit c fl ph s v c' id :
    lookupCached c s v = (c', Some id) -> rstep racy (mkRSys c fl ph) (mkRSys c' fl ph)
| r_register c fl ph s v c1 r id :
    lookupCached c s v = (c1, None) -> v <> OtherValue -> d_Register (c_reg c1) s.1 s.2 v = (r, Ok id) ->
    (racy = false -> forall ids, ph = Checked ids -> id ∉ ids) ->
    rstep racy (mkRSys c fl ph) (mkRSys (set_reg c1 r) ((s, v, id) :: fl) ph)
| r_refused c fl ph s v c1 r e :
    lookupCached c s v = (c1, None) -> v <> OtherValue -> d_Register (c_reg c1) s.1 s.2 v = (r, Err e) ->
    rstep racy (mkRSys c fl ph) (mkRSys (set_reg c1 r) fl ph)
| r_store c fl1 fl2 ph s v id :
    rstep racy (mkRSys c (fl1 ++ (s, v, id) :: fl2) ph) (mkRSys (set_ids c (nset (c_ids c) s v id)) (fl1 ++ fl2) ph)
| r_other c fl ph t k c' id :
    c_OtherID c t k = (c', id) -> rstep racy (mkRSys c fl ph) (mkRSys c' fl ph)
| r_commit c fl ph :
    rstep racy (mkRSys c fl ph) (mkRSys (set_reg c (d_Committed (c_reg c) (d_DrainPending (c_reg c)))) fl ph)
| r_mark c fl cands :
    (forall id, id ∈ cands -> is_Some (d_byID (c_reg c) !! id) /\ id ∉ d_Roots (c_reg c) /\ id ∉ c_Roots c) ->
    (forall s v id, (s, v, id) ∈ fl -> id ∈ d_Roots (c_reg c) \/ id ∈ c_Roots c) ->
    rstep racy (mkRSys c fl Quiet) (mkRSys c fl (Marked cands))
| r_nothing c fl cands :
    rstep racy (mkRSys c fl (Marked cands)) (mkRSys (set_reg c (d_ClearTouched (c_reg c))) fl Quiet)
| r_check c fl cands ids :
    ids ⊆ d_Revalidate (c_reg c) cands ->
    rstep racy (mkRSys c fl (Marked cands)) (mkRSys c fl (Checked ids))
| r_fence c fl ids :
    rstep racy (mkRSys c fl (Checked ids)) (mkRSys (fence_up c ids) fl (Deleting ids))
| r_fails c fl ids :
    rstep racy (mkRSys c fl (Deleting ids)) (mkRSys (sweep_fails c) fl Quiet)
| r_commits c fl ids :
    rstep racy (mkRSys c fl (Deleting ids)) (mkRSys (sweep_commits c ids) fl Quiet).

(** The state at startup: a warmed registrar behind an empty cache. *)
Definition r_init (r : DurableRegistrar) (b : Bounds) : RSys := mkRSys (NewCacheWithBounds r b) [] Quiet.

(** ** The invariant *)

(** The IDs a pass is about to delete. *)
Definition doomed (ph : gc_phase) : gset Z :=
  match ph with Checked ids | Deleting ids => ids | _ => ∅ end.

Record r_inv (y : RSys) : Prop := {
  ri_full : d_full (rc_reg y);
  ri_alive : forall s v id, holds y s v id -> d_byID (rc_reg y) !! id = Some (mkDictEntry id s.1 s.2 v);
  ri_marked : forall cands id, rc_phase y = Marked cands -> id ∈ cands ->
    id < d_next (rc_reg y) /\ (held y id -> id ∈ d_touched (rc_reg y));
  ri_doomed : forall id, id ∈ doomed (rc_phase y) ->
    ~ held y id /\ id < d_next (rc_reg y) /\ d_pending (rc_reg y) !! id = None /\ forall s, d_other (rc_reg y) !! s <> Some id;
  ri_fenced : forall ids id, rc_phase y = Deleting ids -> id ∈ ids -> id ∈ d_fenced (rc_reg y);
}.

Lemma r_init_inv r b : d_full r -> r_inv (r_init r b).
Proof.
  intros F. constructor; [exact F| |done|done|done]. intros s v id [[]%elem_of_nil|H]. cbn in H. by rewrite nget_empty in H.
Qed.

Lemma elem_of_c_Roots {R} (c : Cache R) id : id ∈ c_Roots c <-> exists s v, nget (c_ids c) s v = Some id.
Proof.
  unfold c_Roots.
  assert (forall (inner : gmap string Z) (acc : gset Z) (x : Z), x ∈ map_fold (fun _ id (acc : gset Z) => {[id]} ∪ acc) acc inner <->
    x ∈ acc \/ exists v, inner !! v = Some x) as Hinner.
  { intros inner. induction inner as [|v i inner Hv IH] using map_ind; intros acc x.
    - rewrite map_fold_empty. split; [by left|]. intros [?|[v Hv]]; [done|by rewrite lookup_empty in Hv].
    - rewrite map_fold_insert_L; [|set_solver|done]. rewrite elem_of_union, elem_of_singleton, IH. split.
      + intros [->|[?|[w Hw]]]; [right; exists v; apply lookup_insert_eq|by left|].
        right. exists w. rewrite lookup_insert_ne; [done|]. intros ->. congruence.
      + intros [?|[w Hw]]; [right; by left|]. rewrite lookup_insert in Hw. destruct (decide _) as [<-|]; [left; by injection Hw|].
        right. right. eauto. }
  induction (c_ids c) as [|s inner m Hs IH] using map_ind.
  - rewrite map_fold_empty. split; [by intros []%elem_of_empty|]. intros (s & v & H). by rewrite nget_empty in H.
  - rewrite map_fold_insert_L; [|  |done].
    + rewrite Hinner, IH. unfold nget. split.
      * intros [(s' & v & H)|[v Hv]].
        -- exists s', v. rewrite lookup_insert_ne; [done|]. intros ->. by rewrite Hs in H.
        -- exists s, v. by rewrite lookup_insert_eq.
      * intros (s' & v & H). rewrite lookup_insert in H. destruct (decide _) as [<-|]; [right; eauto|left; eauto].
    + intros s1 s2 i1 i2 acc _ _ _. apply set_eq. intros x. rewrite !Hinner. tauto.
Qed.

(** ** What a registration does to the registrar

    Everything known stays known, nothing is fenced or unfenced, and only
    fresh IDs become staged or overflow entries. *)
Record r_grows (r r' : DurableRegistrar) : Prop := {
  rg_next : d_next r <= d_next r';
  rg_byID : forall id e, d_byID r !! id = Some e -> d_byID r' !! id = Some e;
  rg_touched : d_touched r ⊆ d_touched r';
  rg_fenced : d_fenced r' = d_fenced r;
  rg_pending : forall id, id < d_next r -> d_pending r !! id = None -> d_pending r' !! id = None;
  rg_other : forall s id, id < d_next r -> d_other r' !! s = Some id -> d_other r !! s = Some id;
}.

Lemma grows_refl r : r_grows r r.
Proof. by constructor. Qed.

Lemma grows_touch r id : r_grows r (touch r id).
Proof. constructor; cbn; [done|done|set_solver|done|done|done]. Qed.

Lemma grows_minted r s v : d_inv r -> d_next r <> MaxUint32 -> r_grows r (minted r s v).
Proof.
  intros Hi Hn. constructor; cbn.
  - rewrite next_minted by done. lia.
  - intros id e He. pose proof Hi as (_ & _ & _ & Hb). destruct (Hb _ _ He) as [? _]. by rewrite lookup_insert_ne by lia.
  - set_solver.
  - done.
  - intros id Hid Hp. by rewrite lookup_insert_ne by lia.
  - done.
Qed.

Lemma grows_Register r t k v r' res : d_inv r -> d_Register r t k v = (r', res) -> r_grows r r'.
Proof.
  intros Hi E%d_Register_case. inversion E; subst; [apply grows_refl|apply grows_touch|].
  destruct (grows_minted r (t, k) v Hi) as []; [done|]. by constructor.
Qed.

Lemma grows_OtherID r t k r' id : d_inv r -> d_OtherID r t k = (r', id) -> r_grows r r'.
Proof.
  intros Hi E%d_OtherID_case. inversion E; subst; [apply grows_refl|apply grows_touch|].
  destruct (grows_minted r (t, k) OtherValue Hi) as []; [done|]. constructor; cbn; try done.
  intros s id Hid. rewrite lookup_insert. destruct (decide _); [|done]. intros [= <-]. lia.
Qed.

Lemma grows_commit r : d_full r -> r_grows r (d_Committed r (d_DrainPending r)).
Proof. intros F. constructor; try done. intros. by apply Committed_none. Qed.

Lemma full_commit r : d_full r -> d_full (d_Committed r (d_DrainPending r)).
Proof. intros F. apply d_full_pending; [done|]. by intros id e [H _]%committed_pending. Qed.

(** ** Each step keeps the invariant *)

Implicit Types (c : Cache DurableRegistrar) (fl : list (Z * Z * string * Z)).

(** A step that only makes the registrar grow, and adds to the held IDs
    nothing but IDs just touched that are not about to be deleted. *)
Lemma inv_grows c fl ph c' fl' :
  r_inv (mkRSys c fl ph) -> d_full (c_reg c') -> r_grows (c_reg c) (c_reg c') ->
  (forall s v id, holds (mkRSys c' fl' ph) s v id -> holds (mkRSys c fl ph) s v id \/
     (id ∈ d_touched (c_reg c') /\ id ∉ doomed ph /\ d_byID (c_reg c') !! id = Some (mkDictEntry id s.1 s.2 v))) ->
  r_inv (mkRSys c' fl' ph).
Proof.
  intros [F A P D N] F' G H. unfold rc_reg in *. cbn [rc_cache rc_phase] in *. pose proof (rg_next _ _ G) as Hnext.
  constructor; unfold rc_reg; cbn [rc_cache rc_phase]; [done| | | |].
  - intros s v id [Hh|(_ & _ & He)]%H; [|done]. by apply (rg_byID _ _ G), A.
  - intros cands id -> Hid. destruct (P cands id eq_refl Hid) as [Hn Ht]. split; [lia|].
    intros (s & v & [Hh|(? & _)]%H); [|done]. apply (rg_touched _ _ G), Ht. by exists s, v.
  - intros id Hid. destruct (D id Hid) as (Hnh & Hn & Hp & Ho).
    split_and!; [|lia|by apply (rg_pending _ _ G)|].
    + intros (s & v & [Hh|(_ & ? & _)]%H); [apply Hnh; by exists s, v|done].
    + intros s Hs. by apply (Ho s), (rg_other _ _ G).
  - intros ids id E Hid. rewrite (rg_fenced _ _ G). by apply (N ids).
Qed.

Lemma lookupCached_ids c s v c' o : lookupCached c s v = (c', o) -> c_ids c' = c_ids c /\ c_reg c' = c_reg c.
Proof. unfold lookupCached. repeat case_match; intros [= <- _]; done. Qed.

(** Steps that leave the registrar and what is held alone. *)
Lemma inv_same c fl ph c' fl' :
  r_inv (mkRSys c fl ph) -> c_reg c' = c_reg c ->
  (forall s v id, holds (mkRSys c' fl' ph) s v id -> holds (mkRSys c fl ph) s v id) -> r_inv (mkRSys c' fl' ph).
Proof.
  intros I E H. apply (inv_grows c fl ph); [done| | |].
  - rewrite E. exact (ri_full _ I).
  - rewrite E. apply grows_refl.
  - intros s v id Hh. left. by apply H.
Qed.

Lemma inv_register c fl ph s v c1 r id :
  r_inv (mkRSys c fl ph) -> lookupCached c s v = (c1, None) -> v <> OtherValue -> d_Register (c_reg c1) s.1 s.2 v = (r, Ok id) ->
  (forall ids, ph = Checked ids -> id ∉ ids) -> r_inv (mkRSys (set_reg c1 r) ((s, v, id) :: fl) ph).
Proof.
  intros I [Ei Er]%lookupCached_ids Hv Hreg Hch. rewrite Er in Hreg. pose proof (ri_full _ I) as F. unfold rc_reg in F. cbn [rc_cache] in F.
  apply (inv_grows c fl ph); [done|by eapply d_full_Register|by apply (grows_Register _ s.1 s.2 v r (Ok id)); [apply df_inv|]|].
  intros s' v' id' [[Heq|?]%elem_of_cons|Hc]; [|by left; left|left; right; cbn [rc_cache]; by rewrite <- Ei].
  injection Heq as -> -> ->. right. cbn [c_reg set_reg]. destruct s as [t k]. cbn [fst snd] in *.
  pose proof (df_inv _ F) as (_ & Hi & _). apply d_Register_case in Hreg. inversion Hreg as [|? Hg Hf|Hg Hc Hm]; subst.
  - split_and!; [cbn; set_solver| |exact (proj2 (Hi _ _ _ Hg))].
    destruct ph as [| |ids|ids]; [set_solver|set_solver|by apply Hch|]. intros Hid. apply Hf. by apply (ri_fenced _ I ids).
  - split_and!; [cbn; set_solver| |cbn; by rewrite lookup_insert_eq].
    intros Hid. destruct (ri_doomed _ I _ Hid) as (_ & Hn & _). unfold rc_reg in Hn. cbn in Hn. lia.
Qed.

Lemma inv_refused c fl ph s v c1 r e :
  r_inv (mkRSys c fl ph) -> lookupCached c s v = (c1, None) -> v <> OtherValue -> d_Register (c_reg c1) s.1 s.2 v = (r, Err e) ->
  r_inv (mkRSys (set_reg c1 r) fl ph).
Proof.
  intros I [Ei Er]%lookupCached_ids Hv Hreg. rewrite Er in Hreg. apply d_Register_case in Hreg. inversion Hreg; subst.
  apply (inv_same c fl ph); [done|done|]. intros s' v' id' [?|Hc]; [by left|right]. cbn [rc_cache] in *. by rewrite <- Ei.
Qed.

Lemma inv_mark c fl cands :
  r_inv (mkRSys c fl Quiet) ->
  (forall id, id ∈ cands -> is_Some (d_byID (c_reg c) !! id) /\ id ∉ d_Roots (c_reg c) /\ id ∉ c_Roots c) ->
  (forall s v id, (s, v, id) ∈ fl -> id ∈ d_Roots (c_reg c) \/ id ∈ c_Roots c) ->
  r_inv (mkRSys c fl (Marked cands)).
Proof.
  intros [F A _ _ _] Hc Hfl. constructor; [done|done| |done|done]. cbn [rc_phase]. intros ? id [= <-] Hid. destruct (Hc id Hid) as ([e He] & Hr & Hc').
  split; [pose proof (df_inv _ F) as (_ & _ & _ & Hb); destruct (Hb _ _ He) as [? _]; unfold rc_reg in *; cbn in *; lia|].
  intros (s & v & [Hin|Hg]); exfalso; [by destruct (Hfl _ _ _ Hin)|]. apply Hc', elem_of_c_Roots. by exists s, v.
Qed.

Lemma inv_check c fl cands ids :
  r_inv (mkRSys c fl (Marked cands)) -> ids ⊆ d_Revalidate (c_reg c) cands -> r_inv (mkRSys c fl (Checked ids)).
Proof.
  intros [F A P _ _] Hids. constructor; [done|done|done| |done]. cbn [rc_phase doomed]. intros id Hid.
  pose proof (Hids _ Hid) as (Hc & Hp & Ht & Ho)%elem_of_Revalidate. destruct (P cands id eq_refl Hc) as [Hn Hheld].
  split_and!; [|done|done|done]. by intros ?%Hheld.
Qed.

Lemma d_Fence_fenced r ids id : id ∈ ids -> id ∈ d_fenced (d_Fence r ids).
Proof. unfold d_Fence. case_decide; cbn; set_solver. Qed.

Lemma c_Fence_same {R} (c : Cache R) ids : c_reg (c_Fence c ids) = c_reg c /\ c_ids (c_Fence c ids) = c_ids c.
Proof. unfold c_Fence. by case_decide. Qed.

(** Only the marks of the registrar change, and nothing is held that was not. *)
Lemma inv_marks c fl ph c' fl' ph' touched fenced :
  r_inv (mkRSys c fl ph) -> c_reg c' = set_marks (c_reg c) touched fenced -> c_ids c' = c_ids c -> fl' = fl ->
  doomed ph' ⊆ doomed ph -> (forall cands, ph' <> Marked cands) -> (forall ids, ph' = Deleting ids -> ids ⊆ fenced) ->
  r_inv (mkRSys c' fl' ph').
Proof.
  intros [F A _ D _] E Ei -> Hd Hm Hf. unfold rc_reg in *. cbn [rc_cache rc_phase] in *.
  assert (forall s v id, holds (mkRSys c' fl ph') s v id -> holds (mkRSys c fl ph) s v id) as H.
  { intros s v id [?|Hg]; [by left|right]. cbn [rc_cache] in *. by rewrite <- Ei. }
  constructor; unfold rc_reg; cbn [rc_cache rc_phase]; rewrite ?E.
  - by apply d_full_marks.
  - intros s v id Hh. by apply A, H.
  - intros cands id Hc. by destruct (Hm cands).
  - intros id Hid%Hd. destruct (D id Hid) as (Hn & ?). split; [|done]. intros (s & v & Hh%H). apply Hn. by exists s, v.
  - intros ids id Hp Hid. by apply (Hf ids Hp).
Qed.

Lemma inv_fence c fl ids : r_inv (mkRSys c fl (Checked ids)) -> r_inv (mkRSys (fence_up c ids) fl (Deleting ids)).
Proof.
  intros I. destruct (c_Fence_same (set_reg c (d_Fence (c_reg c) ids)) ids) as [Er Ei].
  apply (inv_marks c fl (Checked ids) _ fl _ (d_touched (c_reg c)) (d_fenced (d_Fence (c_reg c) ids))); [done| |done|done|done|done|].
  - unfold fence_up. rewrite Er. apply d_Fence_marks.
  - intros ? [= <-] id. apply d_Fence_fenced.
Qed.

Lemma nget_c_Forget {R} (c : Cache R) ids s v :
  nget (c_ids (c_Forget c ids)) s v = (id ← nget (c_ids c) s v; if decide (id ∈ ids) then None else Some id).
Proof.
  unfold c_Forget. destruct (decide (ids = ∅)) as [->|_].
  - destruct (nget (c_ids c) s v); cbn; [|done]. by rewrite decide_False by set_solver.
  - cbn [c_ids set_ids]. unfold nget. rewrite lookup_omap. destruct (c_ids c !! s) as [inner|]; cbn; [|done].
    assert (filter (fun '(_, id) => id ∉ ids) inner !! v = (id ← inner !! v; if decide (id ∈ ids) then None else Some id)) as H.
    { destruct (inner !! v) as [id|] eqn:E; cbn.
      - destruct (decide (id ∈ ids)); [apply map_lookup_filter_None_2|apply map_lookup_filter_Some_2]; naive_solver.
      - apply map_lookup_filter_None_2. by left. }
    destruct (decide _) as [He|]; [|done]. cbn. by rewrite <- H, He, lookup_empty.
Qed.

Lemma d_Forget_byID r ids id : d_byID (d_Forget r ids) !! id = if decide (id ∈ ids) then None else d_byID r !! id.
Proof.
  unfold d_Forget. cbn [d_byID set_marks]. destruct (forget_all_frame (elements ids) r) as (_ & _ & _ & _ & ->).
  rewrite foldr_delete_lookup. apply decide_ext, elem_of_elements.
Qed.

Lemma inv_commits c fl ids : r_inv (mkRSys c fl (Deleting ids)) -> r_inv (mkRSys (sweep_commits c ids) fl Quiet).
Proof.
  intros [F A _ D _]. unfold rc_reg in *. cbn [rc_cache rc_phase doomed] in *.
  assert (forall s v id, holds (mkRSys (sweep_commits c ids) fl Quiet) s v id -> holds (mkRSys c fl (Deleting ids)) s v id) as H.
  { intros s v id [?|Hg]; [by left|right]. cbn [rc_cache] in *. change (c_ids (sweep_commits c ids)) with (c_ids (c_Forget c ids)) in Hg.
    rewrite nget_c_Forget in Hg. destruct (nget _ _ _); [|done]. cbn in Hg. by case_decide. }
  assert (c_reg (c_Unfence (c_Forget c ids)) = c_reg c) as E by (unfold c_Forget; by case_decide).
  constructor; unfold rc_reg; cbn [rc_cache rc_phase sweep_commits c_reg set_reg]; rewrite ?E; [| |done|done|done].
  - apply d_full_marks, d_full_forget_all; [done|]. apply Forall_forall. intros id Hid%elem_of_elements.
    by destruct (D id Hid) as (_ & _ & Hp & Ho).
  - intros s v id Hh%H. rewrite d_Forget_byID, decide_False; [by apply A|]. intros Hid. destruct (D id Hid) as [Hn _].
    apply Hn. by exists s, v.
Qed.

Lemma rstep_inv y y' : rstep false y y' -> r_inv y -> r_inv y'.
Proof.
  intros St I. destruct St as [c fl ph s v c' id Hl|c fl ph s v c1 r id Hl Hv Hr Hch|c fl ph s v c1 r e Hl Hv Hr|c fl1 fl2 ph s v id
    |c fl ph t k c' id Ho|c fl ph|c fl cands Hc Hfl|c fl cands|c fl cands ids Hids|c fl ids|c fl ids|c fl ids].
  - apply lookupCached_ids in Hl as [Ei Er]. apply (inv_same c fl ph); [done|done|].
    intros s' v' id' [?|Hg]; [by left|right]. cbn [rc_cache] in *. by rewrite <- Ei.
  - eapply inv_register; eauto.
  - by eapply inv_refused.
  - apply (inv_same c (fl1 ++ (s, v, id) :: fl2) ph); [done|done|]. intros s' v' id' [Hin|Hg].
    + left. cbn [rc_inflight] in *. set_solver.
    + cbn [rc_cache c_ids set_ids] in Hg. rewrite nget_nset in Hg. destruct (decide _) as [[<- <-]|]; [|by right].
      injection Hg as ->. left. cbn [rc_inflight]. set_solver.
  - unfold c_OtherID in Ho. destruct (OtherID (c_reg c) t k) as [r o] eqn:E. injection Ho as <- <-.
    pose proof (ri_full _ I) as F. unfold rc_reg in F. cbn [rc_cache] in F.
    apply (inv_grows c fl ph); [done|by eapply d_full_OtherID|by eapply grows_OtherID; [apply df_inv|]|].
    intros s' v' id' Hh. left. exact Hh.
  - pose proof (ri_full _ I) as F. apply (inv_grows c fl ph); [done|by apply full_commit|by apply grows_commit|].
    intros s' v' id' Hh. left. exact Hh.
  - by apply inv_mark.
  - by apply (inv_marks c fl (Marked cands) _ _ _ ∅ (d_fenced (c_reg c))).
  - by apply (inv_check c fl cands).
  - by apply inv_fence.
  - by apply (inv_marks c fl (Deleting ids) _ _ _ (d_touched (c_reg c)) ∅).
  - by apply inv_commits.
Qed.

Lemma rsteps_inv y y' : rtc (rstep false) y y' -> r_inv y -> r_inv y'.
Proof. induction 1; eauto using rstep_inv. Qed.

(** C19: the collector never strands an identity in use.  From startup,
    whatever ingest, commits and passes (failed ones too) do and however they
    interleave, as long as no registration returns, between the revalidation
    and the fence, an ID the revalidation has passed, and nothing is on its
    way to the map across two passes: an ID in the cache's map, or on its way
    there, has its entry in the registrar, with that scope and value, and is
    not among the IDs being deleted. *)
Theorem gc_never_strands r b y s v id :
  d_full r -> rtc (rstep false) (r_init r b) y -> holds y s v id ->
  d_byID (rc_reg y) !! id = Some (mkDictEntry id s.1 s.2 v) /\ id ∉ doomed (rc_phase y).
Proof.
  intros F Hr Hh. pose proof (rsteps_inv _ _ Hr (r_init_inv r b F)) as I. split; [by apply (ri_alive _ I)|].
  intros Hid. destruct (ri_doomed _ I _ Hid) as [Hn _]. apply Hn. by exists s, v.
Qed.

(** *** Two passes over one idle name

    The operation ["old"], ID 10, is in the tables and nobody references it. *)
Definition idle_reg : DurableRegistrar := load_row (emptyDurable demo_bounds) (mkDictEntry 10 1 3 "old").

Definition idle_cache : Cache DurableRegistrar := NewCacheWithBounds idle_reg demo_bounds.

Lemma idle_full : d_full idle_reg.
Proof.
  apply load_row_full; [apply emptyDurable_full|by vm_compute|done|]. intros id e He. cbn in He. by rewrite lookup_empty in He.
Qed.

(** The cache after a registration of the idle name, a fence and a sweep. *)
Definition asked (c : Cache DurableRegistrar) : Cache DurableRegistrar := set_reg c (d_Register (c_reg c) 1 3 "old").1.

Lemma idle_mark racy : rstep racy (r_init idle_reg demo_bounds) (mkRSys idle_cache [] (Marked {[10]})).
Proof.
  apply r_mark.
  - intros id ->%elem_of_singleton. split_and!; [by eexists|..]; apply (bool_decide_unpack _); by vm_compute.
  - by intros ? ? ? ?%elem_of_nil.
Qed.

Lemma stored racy c v id s ph : rstep racy (mkRSys c [(s, v, id)] ph) (mkRSys (set_ids c (nset (c_ids c) s v id)) [] ph).
Proof. apply (r_store racy c [] []). Qed.

Lemma gc_never_strands_witness :
  let c := asked idle_cache in
  let y := mkRSys (set_ids (sweep_commits (fence_up c ∅) ∅) (nset ∅ (1, 3) "old" 10)) [] Quiet in
  holds y (1, 3) "old" 10 /\ d_byID (rc_reg y) !! 10 = Some (mkDictEntry 10 1 3 "old") /\ 10 ∉ doomed Quiet.
Proof.
  intros c y. assert (holds y (1, 3) "old" 10) as Hh by (right; by vm_compute). split; [done|].
  refine (gc_never_strands idle_reg demo_bounds y (1, 3) "old" 10 idle_full _ Hh).
  eapply rtc_l; [apply idle_mark|].
  eapply rtc_l; [eapply (r_register _ idle_cache [] _ (1, 3) "old" idle_cache _ 10); [done|done|by vm_compute|done]|].
  eapply rtc_l; [apply (r_check _ _ _ _ ∅); set_solver|]. eapply rtc_l; [apply r_fence|]. eapply rtc_l; [apply r_commits|].
  apply rtc_once, stored.
Defined.

(** Finding: with a registration between the revalidation and the fence the
    name is handed out and then deleted.  [Register] takes only the
    registrar's lock and finds no fence yet; the sweep then deletes the row,
    and the goroutine stores an ID in the cache that no table knows: it is
    returned from the cache from then on, and [Lookup] does not resolve it. *)
Theorem gc_race : exists y, rtc (rstep true) (r_init idle_reg demo_bounds) y /\
  holds y (1, 3) "old" 10 /\ d_byID (rc_reg y) !! 10 = None /\
  (Intern (rc_cache y) 1 3 "old").2 = 10 /\ c_Lookup (rc_cache y) 10 = None.
Proof.
  exists (mkRSys (set_ids (sweep_commits (fence_up (asked idle_cache) {[10]}) {[10]}) (nset ∅ (1, 3) "old" 10)) [] Quiet).
  split; [|split; [right; by vm_compute|split_and!; by vm_compute]].
  eapply rtc_l; [apply idle_mark|].
  eapply rtc_l; [apply (r_check _ _ _ _ {[10]}), (bool_decide_unpack _); by vm_compute|].
  eapply rtc_l; [eapply (r_register _ idle_cache [] _ (1, 3) "old" idle_cache _ 10); [done|done|by vm_compute|done]|].
  eapply rtc_l; [apply r_fence|]. eapply rtc_l; [apply r_commits|]. apply rtc_once, stored.
Qed.
