(* ===== verification/Sketch.v ===== *)
(** * Sketch: the relative-error quantile sketch ([internal/aggregate/sketch.go])

    A [Sketch] is a dense array of 512 saturating 32-bit bins over a sliding
    window [minIdx, maxIdx] of bucket indexes.  Indexes are [int32] and wrap;
    an array access or slice out of range panics, which the model writes as
    [None].  The window loops of the code, which run [i] from [minIdx] to
    [maxIdx] with [int32] arithmetic, are folds over [window]. *)
From S2P Require Import Prelude Float64.

(* internal/aggregate/sketch.go:20-32 SketchDefaultScale *)
Definition SketchDefaultScale : Z := 4.
Definition SketchMaxScale : Z := 20.
Definition SketchMaxBins : Z := 512.

(* internal/aggregate/sketch.go:45-71 Sketch *)
Record Sketch := mkSketch {
  sk_sum : f64;
  sk_count : Z;
  sk_zeroCount : Z;
  sk_binTotal : Z;
  sk_saturations : Z;
  sk_minIdx : Z;
  sk_maxIdx : Z;
  sk_scale : Z;
  sk_collapsed : bool;
  sk_hasBins : bool;
  sk_bins : list Z;
}.

Definition set_bins (s : Sketch) (b : list Z) : Sketch :=
  mkSketch (sk_sum s) (sk_count s) (sk_zeroCount s) (sk_binTotal s) (sk_saturations s)
    (sk_minIdx s) (sk_maxIdx s) (sk_scale s) (sk_collapsed s) (sk_hasBins s) b.
Definition set_saturations (s : Sketch) (n : Z) : Sketch :=
  mkSketch (sk_sum s) (sk_count s) (sk_zeroCount s) (sk_binTotal s) n
    (sk_minIdx s) (sk_maxIdx s) (sk_scale s) (sk_collapsed s) (sk_hasBins s) (sk_bins s).
Definition set_binTotal (s : Sketch) (n : Z) : Sketch :=
  mkSketch (sk_sum s) (sk_count s) (sk_zeroCount s) n (sk_saturations s)
    (sk_minIdx s) (sk_maxIdx s) (sk_scale s) (sk_collapsed s) (sk_hasBins s) (sk_bins s).
Definition set_window (s : Sketch) (mn mx : Z) : Sketch :=
  mkSketch (sk_sum s) (sk_count s) (sk_zeroCount s) (sk_binTotal s) (sk_saturations s)
    mn mx (sk_scale s) (sk_collapsed s) (sk_hasBins s) (sk_bins s).
Definition set_collapsed (s : Sketch) : Sketch :=
  mkSketch (sk_sum s) (sk_count s) (sk_zeroCount s) (sk_binTotal s) (sk_saturations s)
    (sk_minIdx s) (sk_maxIdx s) (sk_scale s) true (sk_hasBins s) (sk_bins s).
Definition set_hasBins (s : Sketch) : Sketch :=
  mkSketch (sk_sum s) (sk_count s) (sk_zeroCount s) (sk_binTotal s) (sk_saturations s)
    (sk_minIdx s) (sk_maxIdx s) (sk_scale s) (sk_collapsed s) true (sk_bins s).
Definition set_scale (s : Sketch) (sc : Z) : Sketch :=
  mkSketch (sk_sum s) (sk_count s) (sk_zeroCount s) (sk_binTotal s) (sk_saturations s)
    (sk_minIdx s) (sk_maxIdx s) sc (sk_collapsed s) (sk_hasBins s) (sk_bins s).
Definition set_totals (s : Sketch) (sum : f64) (count zeroCount saturations : Z) : Sketch :=
  mkSketch sum count zeroCount (sk_binTotal s) saturations
    (sk_minIdx s) (sk_maxIdx s) (sk_scale s) (sk_collapsed s) (sk_hasBins s) (sk_bins s).

Definition zero_bins : list Z := replicate 512 0.

(** The zero value at a scale. *)
Definition empty_sketch (scale : Z) : Sketch :=
  mkSketch f_zero 0 0 0 0 0 0 scale false false zero_bins.

(* internal/aggregate/sketch.go:74-76 NewSketch *)
Definition NewSketch : Sketch := empty_sketch SketchDefaultScale.

Inductive sketch_error := ErrSketchScale.

(* internal/aggregate/sketch.go:80-85 NewSketchAtScale *)
Definition NewSketchAtScale (scale : Z) : result sketch_error Sketch :=
  if SketchMaxScale <? scale then Err ErrSketchScale else Ok (empty_sketch scale).

(* internal/aggregate/sketch.go:91-96 NewSketchAtScaleUnchecked *)
Definition NewSketchAtScaleUnchecked (scale : Z) : Sketch :=
  let scale := if SketchMaxScale <? scale then SketchDefaultScale else scale in
  empty_sketch scale.

(** ** Array primitives: [None] is a bounds panic *)

Definition bins_at (b : list Z) (i : Z) : option Z :=
  if 0 <=? i then b !! Z.to_nat i else None.

Definition slice_ok (lo hi : Z) : bool := (0 <=? lo) && (lo <=? hi) && (hi <=? SketchMaxBins).

(** [b[lo:hi]] *)
Definition bslice (b : list Z) (lo hi : Z) : option (list Z) :=
  if slice_ok lo hi then Some (take (Z.to_nat (hi - lo)) (drop (Z.to_nat lo) b)) else None.

(** [copy(b[lo:hi], src)] *)
Definition bcopy (b : list Z) (lo hi : Z) (src : list Z) : option (list Z) :=
  if slice_ok lo hi then
    let n := Nat.min (Z.to_nat (hi - lo)) (length src) in
    Some (take (Z.to_nat lo) b ++ take n src ++ drop (Z.to_nat lo + n) b)
  else None.

(** [clear(b[lo:hi])] *)
Definition bclear (b : list Z) (lo hi : Z) : option (list Z) :=
  if slice_ok lo hi then
    Some (take (Z.to_nat lo) b ++ replicate (Z.to_nat (hi - lo)) 0 ++ drop (Z.to_nat hi) b)
  else None.

(** [for i := s.minIdx; i <= s.maxIdx; i++ { c := s.bins[i-s.minIdx]; ... }]:
    the (index, count) pairs the loop visits, and whether it then panics.  The
    loop reads one array slot per iteration, so 513 iterations either end it or
    run off the array; a loop at [maxIdx = MaxInt32] never ends by its own
    condition. *)
Fixpoint window_from (fuel : nat) (s : Sketch) (i : Z) : list (Z * Z) * bool :=
  if i <=? sk_maxIdx s then
    match fuel with
    | O => ([], true)
    | S f =>
        match bins_at (sk_bins s) (i32 (i - sk_minIdx s)) with
        | None => ([], true)
        | Some c =>
            let '(rest, panic) := window_from f s (i32 (i + 1)) in
            ((i, c) :: rest, panic)
        end
    end
  else ([], false).

Definition window (s : Sketch) : list (Z * Z) * bool := window_from 513 s (sk_minIdx s).

(* internal/aggregate/sketch.go:127-138 Sketch.PopulatedBins *)
Definition PopulatedBins (s : Sketch) : option Z :=
  if negb (sk_hasBins s) then Some 0
  else
    let '(w, panic) := window s in
    if panic then None
    else Some (Z.of_nat (length (filter (fun p : Z * Z => snd p <> 0) w))).

(** ** Bin updates *)

(* internal/aggregate/sketch.go:369-378 Sketch.addAt *)
Definition addAt (s : Sketch) (pos n : Z) : option (Sketch * Z) :=
  cur ← bins_at (sk_bins s) pos;
  let total := u64 (cur + n) in
  if total <=? MaxUint32 then
    Some (set_bins s (<[Z.to_nat pos := total]> (sk_bins s)), n)
  else
    Some (set_saturations (set_bins s (<[Z.to_nat pos := MaxUint32]> (sk_bins s)))
            (u64 (sk_saturations s + 1)),
          u64 (MaxUint32 - cur)).

(* internal/aggregate/sketch.go:382-388 Sketch.extendTo *)
Definition extendTo (s : Sketch) (newMin : Z) : option Sketch :=
  let shift := i32 (sk_minIdx s - newMin) in
  let used := i32 (i32 (sk_maxIdx s - sk_minIdx s) + 1) in
  src ← bslice (sk_bins s) 0 used;
  b1 ← bcopy (sk_bins s) shift (i32 (shift + used)) src;
  b2 ← bclear b1 0 shift;
  Some (set_window (set_bins s b2) newMin (sk_maxIdx s)).

(** [for i := int32(0); i < n; i++ { merged += uint64(s.bins[i]) }] *)
Definition sum_first (b : list Z) (n : Z) : option Z :=
  if n <=? 0 then Some 0
  else if n <=? SketchMaxBins then
    Some (foldl (fun acc c => u64 (acc + c)) 0 (take (Z.to_nat n) b))
  else None.

(* internal/aggregate/sketch.go:393-416 Sketch.collapseTo *)
Definition collapseTo (s : Sketch) (newMin : Z) : option Sketch :=
  let shift := i32 (newMin - sk_minIdx s) in
  let used := i32 (i32 (sk_maxIdx s - sk_minIdx s) + 1) in
  merged ← sum_first (sk_bins s) (Z.min shift used);
  s ← (if used <=? shift then
         b ← bclear (sk_bins s) 0 used;
         Some (set_window (set_bins s b) newMin newMin)
       else
         src ← bslice (sk_bins s) shift used;
         b1 ← bcopy (sk_bins s) 0 (i32 (used - shift)) src;
         b2 ← bclear b1 (i32 (used - shift)) used;
         Some (set_window (set_bins s b2) newMin (sk_maxIdx s)));
  if 0 <? merged then
    '(s', stored) ← addAt (set_collapsed s) 0 merged;
    Some (set_binTotal s' (u64 (sk_binTotal s' - u64 (merged - stored))))
  else Some s.

(* internal/aggregate/sketch.go:332-360 Sketch.add *)
Definition add (s : Sketch) (index n : Z) : option Sketch :=
  if n =? 0 then Some s
  else if negb (sk_hasBins s) then
    '(s', stored) ← addAt (set_window (set_hasBins s) index index) 0 n;
    Some (set_binTotal s' (u64 (sk_binTotal s' + stored)))
  else
    '(s, index) ←
      (if sk_maxIdx s <? index then
         s ← (if SketchMaxBins <=? i32 (index - sk_minIdx s)
              then collapseTo s (i32 (i32 (index - SketchMaxBins) + 1))
              else Some s);
         Some (set_window s (sk_minIdx s) index, index)
       else if index <? sk_minIdx s then
         let lowest := i32 (i32 (sk_maxIdx s - SketchMaxBins) + 1) in
         if index <? lowest then
           s ← extendTo s lowest;
           Some (set_collapsed s, lowest)
         else
           s ← extendTo s index;
           Some (s, index)
       else Some (s, index));
    '(s', stored) ← addAt s (i32 (index - sk_minIdx s)) n;
    Some (set_binTotal s' (u64 (sk_binTotal s' + stored))).

(** The body of [downscale]'s loop: fold one bin of the old window into the
    new array. *)
Definition downscale_bin (shift newMin : Z) (st : option (list Z * Z * Z)) (p : Z * Z)
    : option (list Z * Z * Z) :=
  '(folded, binTotal, saturations) ← st;
  let '(i, c) := p in
  if c =? 0 then Some (folded, binTotal, saturations)
  else
    let pos := i32 (Z.shiftr i shift - newMin) in
    cur ← bins_at folded pos;
    let total := u64 (cur + c) in
    if MaxUint32 <? total then
      Some (<[Z.to_nat pos := MaxUint32]> folded, u64 (binTotal - (total - MaxUint32)),
            u64 (saturations + 1))
    else Some (<[Z.to_nat pos := u32 total]> folded, binTotal, saturations).

(* internal/aggregate/sketch.go:296-326 Sketch.downscale *)
Definition downscale (s : Sketch) (target : Z) : option Sketch :=
  if sk_scale s <=? target then Some s
  else
    let shift := sk_scale s - target in
    let s := set_scale s target in
    if negb (sk_hasBins s) then Some s
    else
      let newMin := Z.shiftr (sk_minIdx s) shift in
      let newMax := Z.shiftr (sk_maxIdx s) shift in
      let '(w, panic) := window s in
      '(folded, binTotal, saturations) ←
        foldl (downscale_bin shift newMin) (Some (zero_bins, sk_binTotal s, sk_saturations s)) w;
      if (panic : bool) then None
      else
        Some (set_window (set_saturations (set_binTotal (set_bins s folded) binTotal) saturations)
                newMin newMax).

(* internal/aggregate/sketch.go:288-294 Sketch.Downscale *)
Definition Downscale (s : Sketch) (target : Z) : result sketch_error (option Sketch) :=
  if sk_scale s <? target then Err ErrSketchScale else Ok (downscale s target).

(** [for i := src.minIdx; i <= src.maxIdx; i++ { if c := ...; c != 0 { s.add(i, c) } }] *)
Definition add_window (s : Sketch) (w : list (Z * Z)) : option Sketch :=
  foldl (fun st p => s ← st; if snd p =? 0 then Some s else add s (fst p) (snd p)) (Some s) w.

(* internal/aggregate/sketch.go:251-280 Sketch.Merge *)
Definition Merge (s : Sketch) (other : option Sketch) : option Sketch :=
  match other with
  | None => Some s
  | Some other =>
      if sk_count other =? 0 then Some s
      else
        '(s, src) ←
          (if sk_scale s <? sk_scale other then
             aligned ← downscale other (sk_scale s); Some (s, aligned)
           else if sk_scale other <? sk_scale s then
             s ← downscale s (sk_scale other); Some (s, other)
           else Some (s, other));
        let s := set_totals s (fadd (sk_sum s) (sk_sum src)) (u64 (sk_count s + sk_count src))
                   (u64 (sk_zeroCount s + sk_zeroCount src))
                   (u64 (sk_saturations s + sk_saturations src)) in
        let s := if sk_collapsed src then set_collapsed s else s in
        if negb (sk_hasBins src) then Some s
        else
          let '(w, panic) := window src in
          s ← add_window s w;
          if (panic : bool) then None else Some s
  end.

(* internal/aggregate/sketch.go:420-437 Sketch.collapseToBinCap *)
Definition collapseToBinCap (s : Sketch) (limit : Z) : option Sketch :=
  pop ← PopulatedBins s;
  if pop <=? limit then Some s
  else
    let populated := filter (fun p : Z * Z => snd p <> 0) (fst (window s)) in
    let floor :=
      if limit <=? 0 then sk_minIdx s
      else match rev populated !! Z.to_nat (limit - 1) with
           | Some (i, _) => i
           | None => sk_minIdx s
           end in
    collapseTo s floor.

(** ** The mapping: value to bucket index and back *)

Section Mapping.
  Context `{GoMath}.

(* internal/aggregate/sketch.go:440-442 sketchBase *)
Definition sketchBase (scale : Z) : f64 := math_Exp2 (math_Ldexp f_one (- scale)).

(** [math.Log2E], the float64 nearest to 1/ln 2. *)
Definition math_Log2E : f64 := S754_finite false 6497320848556798 (-52).

(* internal/aggregate/sketch.go:446-448 sketchScaleFactor *)
Definition sketchScaleFactor (scale : Z) : f64 := math_Ldexp math_Log2E scale.

(* internal/aggregate/sketch.go:453-460 sketchIndex *)
Definition sketchIndex (value : f64) (scale : Z) : Z :=
  let '(frac, exp) := math_Frexp value in
  if feq frac f_half then i32 (i32 (Z.shiftl (i32 (exp - 1)) scale) - 1)
  else i32 (f_to_i32 (math_Ceil (fmul (math_Log value) (sketchScaleFactor scale))) - 1).

(* internal/aggregate/sketch.go:465-468 sketchValue *)
Definition sketchValue (index scale : Z) : f64 :=
  let upper := math_Exp2 (math_Ldexp (f_of_Z (i32 (index + 1))) (- scale)) in
  fdiv (fmul f_two upper) (fadd (sketchBase scale) f_one).

(* internal/aggregate/sketch.go:121-124 Sketch.RelativeError *)
Definition RelativeError (s : Sketch) : f64 :=
  let gamma := sketchBase (sk_scale s) in
  fdiv (fsub gamma f_one) (fadd gamma f_one).

(* internal/aggregate/sketch.go:146-157 Sketch.Observe *)
Definition Observe (s : Sketch) (value : f64) : option Sketch :=
  if f_is_nan value || f_is_inf value then Some s
  else
    let s := set_totals s (fadd (sk_sum s) value) (u64 (sk_count s + 1)) (sk_zeroCount s)
               (sk_saturations s) in
    if fle value f_zero then
      Some (set_totals s (sk_sum s) (sk_count s) (u64 (sk_zeroCount s + 1)) (sk_saturations s))
    else add s (sketchIndex value (sk_scale s)) 1.

(* internal/aggregate/sketch.go:164-175 Sketch.ObserveN *)
Definition ObserveN (s : Sketch) (value : f64) (n : Z) : option Sketch :=
  if (n =? 0) || f_is_nan value || f_is_inf value then Some s
  else
    let s := set_totals s (fadd (sk_sum s) (fmul value (f_of_Z n))) (u64 (sk_count s + n))
               (sk_zeroCount s) (sk_saturations s) in
    if fle value f_zero then
      Some (set_totals s (sk_sum s) (sk_count s) (u64 (sk_zeroCount s + n)) (sk_saturations s))
    else add s (sketchIndex value (sk_scale s)) n.

(* internal/aggregate/sketch.go:181-187 Sketch.ObserveZero *)
Definition ObserveZero (s : Sketch) (n : Z) : Sketch :=
  if n =? 0 then s
  else set_totals s (sk_sum s) (u64 (sk_count s + n)) (u64 (sk_zeroCount s + n)) (sk_saturations s).

(* internal/aggregate/sketch.go:199-206 Sketch.ObserveBucket *)
Definition ObserveBucket (s : Sketch) (index n : Z) : option Sketch :=
  if n =? 0 then Some s
  else
    add (set_totals s (fadd (sk_sum s) (fmul (sketchValue index (sk_scale s)) (f_of_Z n)))
           (u64 (sk_count s + n)) (sk_zeroCount s) (sk_saturations s)) index n.

(** The scan of [Quantile]: the first bucket whose cumulative count exceeds
    the rank. *)
Fixpoint quantile_scan (w : list (Z * Z)) (cum : Z) (rank : f64) : option Z :=
  match w with
  | [] => None
  | (i, c) :: w' =>
      if c =? 0 then quantile_scan w' cum rank
      else
        let cum := u64 (cum + c) in
        if fgt (f_of_Z cum) rank then Some i else quantile_scan w' cum rank
  end.

(* internal/aggregate/sketch.go:214-243 Sketch.Quantile *)
Definition Quantile (s : Sketch) (q : f64) : option f64 :=
  if f_is_nan q || flt q f_zero || fgt q f_one then Some S754_nan
  else
    let total := u64 (sk_zeroCount s + sk_binTotal s) in
    if total =? 0 then Some f_zero
    else
      let rank := fmul q (f_of_Z (u64 (total - 1))) in
      if fgt (f_of_Z (sk_zeroCount s)) rank then Some f_zero
      else if negb (sk_hasBins s) then Some f_zero
      else
        let '(w, panic) := window s in
        match quantile_scan w (sk_zeroCount s) rank with
        | Some i => Some (sketchValue i (sk_scale s))
        | None => if (panic : bool) then None else Some (sketchValue (sk_maxIdx s) (sk_scale s))
        end.

End Mapping.

(** ** Array lemmas *)

(** The bin at an integer position, zero outside the array. *)
Definition bget (b : list Z) (k : Z) : Z :=
  if 0 <=? k then default 0 (b !! Z.to_nat k) else 0.

Definition bins_ok (b : list Z) : Prop := length b = 512%nat /\ Forall (fun c => 0 <= c <= MaxUint32) b.

Lemma bget_range b k : bins_ok b -> 0 <= bget b k <= MaxUint32.
Proof.
  intros [_ HF]. unfold bget. destruct (0 <=? k); [|unfold MaxUint32; lia].
  destruct (b !! Z.to_nat k) eqn:E; simpl; [|unfold MaxUint32; lia].
  rewrite Forall_lookup in HF. eauto.
Qed.

Lemma bget_out b k : length b = 512%nat -> k < 0 \/ 512 <= k -> bget b k = 0.
Proof.
  intros Hl Hk. unfold bget. destruct (0 <=? k) eqn:E; [|done]. z_bool.
  by rewrite lookup_ge_None_2 by lia.
Qed.

Lemma bins_at_get b k : length b = 512%nat -> 0 <= k < 512 -> bins_at b k = Some (bget b k).
Proof.
  intros Hl Hk. unfold bins_at, bget. destruct (0 <=? k) eqn:E; [|z_bool; lia].
  destruct (lookup_lt_is_Some_2 b (Z.to_nat k)) as [c Hc]; [lia|]. by rewrite Hc.
Qed.

Lemma bget_ext b1 b2 :
  length b1 = 512%nat -> length b2 = 512%nat ->
  (forall k, 0 <= k < 512 -> bget b1 k = bget b2 k) -> b1 = b2.
Proof.
  intros H1 H2 H. apply list_eq. intros i.
  destruct (decide (i < 512)%nat).
  - specialize (H (Z.of_nat i)). pose proof (bins_at_get b1 (Z.of_nat i) H1) as A1.
    pose proof (bins_at_get b2 (Z.of_nat i) H2) as A2. unfold bins_at in *.
    rewrite Nat2Z.id in *. destruct (0 <=? Z.of_nat i) eqn:E; [|z_bool; lia].
    rewrite A1, A2 by lia. f_equal. apply H. lia.
  - by rewrite !lookup_ge_None_2 by lia.
Qed.

Lemma bget_insert b k v k' :
  length b = 512%nat -> 0 <= k < 512 ->
  bget (<[Z.to_nat k := v]> b) k' = if decide (k = k') then v else bget b k'.
Proof.
  intros Hl Hk. unfold bget. destruct (0 <=? k') eqn:E; z_bool.
  - case_decide as D.
    + subst. by rewrite list_lookup_insert_eq by lia.
    + by rewrite list_lookup_insert_ne by lia.
  - case_decide; [lia|done].
Qed.

Lemma bins_ok_insert b k v :
  bins_ok b -> 0 <= v <= MaxUint32 -> bins_ok (<[k := v]> b).
Proof.
  intros [Hl HF] Hv. split; [by rewrite length_insert|]. by apply Forall_insert.
Qed.

Lemma bget_zero k : bget zero_bins k = 0.
Proof.
  unfold bget, zero_bins. destruct (0 <=? k); [|done].
  destruct (replicate 512 0 !! Z.to_nat k) eqn:E; [|done].
  by apply lookup_replicate in E as [-> _].
Qed.

Lemma bins_ok_zero : bins_ok zero_bins.
Proof. split; [done|]. apply Forall_replicate. unfold MaxUint32. lia. Qed.

Lemma bget_app b1 b2 k :
  bget (b1 ++ b2) k =
  if decide (k < Z.of_nat (length b1)) then bget b1 k else bget b2 (k - Z.of_nat (length b1)).
Proof.
  unfold bget. destruct (0 <=? k) eqn:E; z_bool.
  - case_decide.
    + by rewrite lookup_app_l by lia.
    + rewrite lookup_app_r by lia. destruct (0 <=? _) eqn:E2; z_bool; [|lia].
      do 2 f_equal; lia.
  - case_decide; [done|lia].
Qed.

Lemma bget_take n b k : bget (take n b) k = if decide (k < Z.of_nat n) then bget b k else 0.
Proof.
  unfold bget. destruct (0 <=? k) eqn:E; z_bool.
  - case_decide.
    + by rewrite lookup_take_lt by lia.
    + by rewrite lookup_take_ge by lia.
  - by case_decide.
Qed.

Lemma bget_drop n b k : bget (drop n b) k = if decide (0 <= k) then bget b (k + Z.of_nat n) else 0.
Proof.
  unfold bget. destruct (0 <=? k) eqn:E; z_bool; case_decide; try lia.
  destruct (0 <=? k + Z.of_nat n) eqn:E2; z_bool; [|lia].
  rewrite lookup_drop. do 2 f_equal; lia.
Qed.

Lemma bget_replicate n k : bget (replicate n 0) k = 0.
Proof.
  unfold bget. destruct (0 <=? k); [|done].
  destruct (replicate n 0 !! Z.to_nat k) eqn:E; [|done].
  by apply lookup_replicate in E as [-> _].
Qed.

Lemma bslice_spec b lo hi :
  length b = 512%nat -> 0 <= lo <= hi -> hi <= 512 ->
  exists r, bslice b lo hi = Some r /\ length r = Z.to_nat (hi - lo) /\
    forall k, 0 <= k < hi - lo -> bget r k = bget b (lo + k).
Proof.
  intros Hl Hlo Hhi. unfold bslice, slice_ok, SketchMaxBins.
  replace ((0 <=? lo) && (lo <=? hi) && (hi <=? 512)) with true by (symmetry; lia).
  eexists. split; [done|]. split.
  - rewrite length_take, length_drop. lia.
  - intros k Hk. rewrite bget_take, bget_drop. repeat case_decide; try lia. f_equal; lia.
Qed.

Lemma bcopy_spec b lo hi src :
  length b = 512%nat -> 0 <= lo <= hi -> hi <= 512 -> length src = Z.to_nat (hi - lo) ->
  exists r, bcopy b lo hi src = Some r /\ length r = 512%nat /\
    forall k, bget r k = if decide (lo <= k < hi) then bget src (k - lo) else bget b k.
Proof.
  intros Hl Hlo Hhi Hs. unfold bcopy, slice_ok, SketchMaxBins.
  replace ((0 <=? lo) && (lo <=? hi) && (hi <=? 512)) with true by (symmetry; lia).
  eexists. split; [done|]. rewrite Hs, Nat.min_id. split.
  - rewrite !length_app, !length_take, length_drop. lia.
  - intros k. rewrite bget_app, length_take, bget_app, length_take, !bget_take, bget_drop.
    repeat case_decide; try lia; try done.
    + f_equal; lia.
    + f_equal; lia.
Qed.

Lemma bclear_spec b lo hi :
  length b = 512%nat -> 0 <= lo <= hi -> hi <= 512 ->
  exists r, bclear b lo hi = Some r /\ length r = 512%nat /\
    forall k, bget r k = if decide (lo <= k < hi) then 0 else bget b k.
Proof.
  intros Hl Hlo Hhi. unfold bclear, slice_ok, SketchMaxBins.
  replace ((0 <=? lo) && (lo <=? hi) && (hi <=? 512)) with true by (symmetry; lia).
  eexists. split; [done|]. split.
  - rewrite !length_app, length_take, length_replicate, length_drop. lia.
  - intros k. rewrite bget_app, length_take, bget_app, length_replicate, bget_take, bget_replicate,
      bget_drop.
    repeat case_decide; try lia; try done. f_equal; lia.
Qed.

Lemma bins_ok_bget b :
  length b = 512%nat -> (forall k, 0 <= k < 512 -> 0 <= bget b k <= MaxUint32) -> bins_ok b.
Proof.
  intros Hl H. split; [done|]. apply Forall_lookup. intros i c Hi.
  assert (i < 512)%nat by (rewrite <- Hl; by eapply lookup_lt_Some).
  specialize (H (Z.of_nat i)). unfold bget in H.
  destruct (0 <=? Z.of_nat i) eqn:E; [|z_bool; lia]. rewrite Nat2Z.id, Hi in H. simpl in H. apply H. lia.
Qed.

(** The sum of the first [n] bins. *)
Fixpoint bsum (b : list Z) (n : nat) : Z :=
  match n with
  | O => 0
  | S n' => bsum b n' + bget b (Z.of_nat n')
  end.

Lemma bsum_nonneg b n : bins_ok b -> 0 <= bsum b n.
Proof.
  intros Hb. induction n; cbn [bsum]; [lia|]. pose proof (bget_range b (Z.of_nat n) Hb). lia.
Qed.

Lemma sum_first_foldl b n acc :
  bins_ok b -> (n <= 512)%nat -> 0 <= acc -> acc + bsum b n < 2 ^ 64 ->
  foldl (fun acc c => u64 (acc + c)) acc (take n b) = acc + bsum b n.
Proof.
  intros Hb Hn Ha. induction n as [|n IH]; intros Hs.
  - rewrite take_0. simpl. lia.
  - cbn [bsum] in *. pose proof (bget_range b (Z.of_nat n) Hb).
    destruct Hb as [Hl HF]. pose proof (bins_at_get b (Z.of_nat n) Hl ltac:(lia)) as A.
    unfold bins_at in A. destruct (0 <=? Z.of_nat n) eqn:E; [|z_bool; lia]. rewrite Nat2Z.id in A.
    rewrite (take_S_r _ _ _ A), foldl_app, IH by lia. simpl foldl.
    rewrite u64_small; [lia|]. change (2 ^ 64) with 18446744073709551616 in Hs.
    pose proof (bsum_nonneg b n (conj Hl HF)). lia.
Qed.

Lemma sum_first_spec b n :
  bins_ok b -> n <= 512 -> bsum b (Z.to_nat n) < 2 ^ 64 -> sum_first b n = Some (bsum b (Z.to_nat n)).
Proof.
  intros Hb Hn Hs. unfold sum_first, SketchMaxBins. destruct (n <=? 0) eqn:E1; z_bool.
  - by replace (Z.to_nat n) with 0%nat by lia.
  - destruct (n <=? 512) eqn:E2; z_bool; [|lia]. rewrite sum_first_foldl; [done|done|lia|lia|lia].
Qed.

(** ** Well-formed sketches

    The window holds at most 512 buckets, every bin past it is zero, and the
    indexes stay inside a range where the [int32] differences the code computes
    do not wrap.  The default mapping reaches at most index 2^14. *)

Definition IdxBound : Z := 2 ^ 30.
Definition idx_ok (i : Z) : Prop := - IdxBound <= i < IdxBound.

Record wf_sketch (s : Sketch) : Prop := {
  wf_bins : bins_ok (sk_bins s);
  wf_empty : sk_hasBins s = false -> sk_bins s = zero_bins;
  wf_win : sk_hasBins s = true ->
    idx_ok (sk_minIdx s) /\ idx_ok (sk_maxIdx s) /\
    sk_minIdx s <= sk_maxIdx s < sk_minIdx s + 512 /\
    forall k, sk_maxIdx s - sk_minIdx s < k -> bget (sk_bins s) k = 0;
}.

(** The count of a bucket. *)
Definition binAt (s : Sketch) (j : Z) : Z :=
  if sk_hasBins s then bget (sk_bins s) (j - sk_minIdx s) else 0.

Ltac idx := unfold idx_ok, IdxBound in *; change (2 ^ 30) with 1073741824 in *.
Ltac i32s :=
  repeat match goal with
  | |- context [wraps 32 ?z] => rewrite (i32_small z) by (idx; lia)
  end.

Lemma wf_empty_sketch scale : wf_sketch (empty_sketch scale).
Proof. constructor; simpl; [apply bins_ok_zero|done|done]. Qed.

Lemma window_from_spec s f k :
  wf_sketch s -> sk_hasBins s = true -> 0 <= k <= sk_maxIdx s - sk_minIdx s + 1 ->
  sk_maxIdx s - sk_minIdx s - k < Z.of_nat f ->
  window_from f s (sk_minIdx s + k) =
  (map (fun i : nat => (sk_minIdx s + k + Z.of_nat i, bget (sk_bins s) (k + Z.of_nat i)))
       (seq 0 (Z.to_nat (sk_maxIdx s - sk_minIdx s + 1 - k))), false).
Proof.
  intros Hwf Hh. pose proof (wf_win s Hwf Hh) as (Hm & HM & Hw & _).
  destruct (wf_bins s Hwf) as [Hl _]. revert k.
  induction f as [|f IH]; intros k Hk Hf; cbn [window_from].
  - destruct (_ <=? _) eqn:E; z_bool; [lia|].
    by replace (Z.to_nat _) with 0%nat by lia.
  - destruct (_ <=? _) eqn:E; z_bool.
    + i32s. replace (sk_minIdx s + k - sk_minIdx s) with k by lia.
      rewrite bins_at_get by lia. i32s.
      replace (sk_minIdx s + k + 1) with (sk_minIdx s + (k + 1)) by lia.
      rewrite IH by lia.
      replace (Z.to_nat (sk_maxIdx s - sk_minIdx s + 1 - k))
        with (S (Z.to_nat (sk_maxIdx s - sk_minIdx s + 1 - (k + 1)))) by lia.
      cbn [seq map]. rewrite !Z.add_0_r. do 2 f_equal. rewrite <- seq_shift, map_map.
      apply map_ext. intros i. f_equal; [lia|]. f_equal; lia.
    + by replace (Z.to_nat _) with 0%nat by lia.
Qed.

(** The window of a well-formed sketch is its buckets in ascending order, and
    the loops over it do not panic. *)
Lemma window_spec s :
  wf_sketch s -> sk_hasBins s = true ->
  window s = (map (fun i : nat => (sk_minIdx s + Z.of_nat i, binAt s (sk_minIdx s + Z.of_nat i)))
                  (seq 0 (Z.to_nat (sk_maxIdx s - sk_minIdx s + 1))), false).
Proof.
  intros Hwf Hh. pose proof (wf_win s Hwf Hh) as (Hm & HM & Hw & _).
  unfold window. replace (sk_minIdx s) with (sk_minIdx s + 0) at 1 by lia.
  rewrite (window_from_spec s 513 0) by (done || lia). rewrite Z.sub_0_r.
  f_equal. apply map_ext. intros i. unfold binAt. rewrite Hh. f_equal; [lia|]. f_equal; lia.
Qed.

Lemma addAt_spec s pos n :
  bins_ok (sk_bins s) -> 0 <= pos < 512 -> 0 <= n ->
  bget (sk_bins s) pos + n <= MaxUint32 ->
  addAt s pos n = Some (set_bins s (<[Z.to_nat pos := bget (sk_bins s) pos + n]> (sk_bins s)), n).
Proof.
  intros Hb Hp Hn Hs. unfold addAt. rewrite bins_at_get by (apply Hb || done). simpl mbind.
  pose proof (bget_range _ pos Hb). unfold MaxUint32 in *.
  rewrite u64_small by lia. destruct (_ <=? _) eqn:E; z_bool; [done|lia].
Qed.

Lemma extendTo_spec s newMin :
  wf_sketch s -> sk_hasBins s = true -> idx_ok newMin ->
  newMin <= sk_minIdx s -> sk_maxIdx s < newMin + 512 ->
  exists b, extendTo s newMin = Some (set_window (set_bins s b) newMin (sk_maxIdx s)) /\
    bins_ok b /\ forall k, bget b k = bget (sk_bins s) (k - (sk_minIdx s - newMin)).
Proof.
  intros Hwf Hh Hn Hle Hsp. pose proof (wf_win s Hwf Hh) as (Hm & HM & Hw & Hz).
  pose proof (wf_bins s Hwf) as Hb. pose proof Hb as [Hl _]. unfold extendTo. i32s.
  set (shift := sk_minIdx s - newMin). set (used := sk_maxIdx s - sk_minIdx s + 1).
  assert (0 <= shift) by (unfold shift; lia). assert (0 < used) by (unfold used; lia).
  assert (shift + used <= 512) by (unfold shift, used; lia). i32s.
  destruct (bslice_spec (sk_bins s) 0 used) as (src & -> & Hsl & Hsg); [done|lia|lia|]. simpl mbind.
  destruct (bcopy_spec (sk_bins s) shift (shift + used) src) as (b1 & -> & Hl1 & Hg1);
    [done|lia|lia|rewrite Hsl; f_equal; lia|]. simpl mbind.
  destruct (bclear_spec b1 0 shift) as (b2 & -> & Hl2 & Hg2); [done|lia|lia|]. simpl mbind.
  assert (forall k, bget b2 k = bget (sk_bins s) (k - shift)) as HG.
  { intros k. rewrite Hg2, Hg1. repeat case_decide; try lia.
    - by rewrite (bget_out _ (k - shift)) by (done || lia).
    - rewrite Hsg by lia. f_equal; lia.
    - destruct (decide (k < shift)).
      + transitivity 0; [|symmetry]; apply bget_out; (done || lia).
      + rewrite !Hz; [done|..]; unfold used in *; lia. }
  eexists. split; [reflexivity|]. split; [|exact HG].
  apply bins_ok_bget; [done|]. intros k Hk. rewrite HG. by apply bget_range.
Qed.

Lemma bsum_zero_tail b n m :
  (n <= m)%nat -> (forall k, Z.of_nat n <= k < Z.of_nat m -> bget b k = 0) -> bsum b m = bsum b n.
Proof.
  intros Hnm H. induction Hnm as [|m Hnm IH]; [done|]. cbn [bsum].
  rewrite H, IH by (intros; (apply H || idtac); lia). lia.
Qed.

Lemma bsum_mono b n m : bins_ok b -> (n <= m)%nat -> bsum b n <= bsum b m.
Proof.
  intros Hb Hnm. induction Hnm as [|m Hnm IH]; [lia|]. cbn [bsum].
  pose proof (bget_range b (Z.of_nat m) Hb). lia.
Qed.

Lemma bget_le_bsum b k n : bins_ok b -> 0 <= k < Z.of_nat n -> bsum b (Z.to_nat k) + bget b k <= bsum b n.
Proof.
  intros Hb Hk. pose proof (bsum_mono b (S (Z.to_nat k)) n Hb ltac:(lia)) as H.
  cbn [bsum] in H. rewrite Z2Nat.id in H by lia. lia.
Qed.

(** The sketch with its window moved, and bins and collapse flag replaced. *)
Definition rewindow (s : Sketch) (b : list Z) (mn mx : Z) (c : bool) : Sketch :=
  mkSketch (sk_sum s) (sk_count s) (sk_zeroCount s) (sk_binTotal s) (sk_saturations s)
    mn mx (sk_scale s) c (sk_hasBins s) b.

Lemma collapseTo_spec s newMin :
  wf_sketch s -> sk_hasBins s = true -> idx_ok newMin -> sk_minIdx s < newMin ->
  bsum (sk_bins s) 512 <= MaxUint32 -> in_u 64 (sk_binTotal s) ->
  let shift := newMin - sk_minIdx s in
  let m := bsum (sk_bins s) (Z.to_nat (Z.min shift 512)) in
  exists b, collapseTo s newMin =
      Some (rewindow s b newMin (Z.max newMin (sk_maxIdx s)) (sk_collapsed s || (0 <? m))) /\
    bins_ok b /\
    forall k, bget b k =
      if decide (k < 0) then 0
      else if decide (k = 0) then m + bget (sk_bins s) shift
      else bget (sk_bins s) (k + shift).
Proof.
  intros Hwf Hh Hn Hlt Hsum HbT shift m. pose proof (wf_win s Hwf Hh) as (Hm & HM & Hw & Hz).
  pose proof (wf_bins s Hwf) as Hb. pose proof Hb as [Hl _]. unfold collapseTo. i32s. fold shift.
  set (used := sk_maxIdx s - sk_minIdx s + 1).
  assert (0 < shift) by (unfold shift; lia). assert (0 < used <= 512) by (unfold used; lia).
  assert (bsum (sk_bins s) (Z.to_nat (Z.min shift used)) = m) as Hmm.
  { unfold m. symmetry. apply bsum_zero_tail; [lia|]. intros k Hk. apply Hz. unfold used in *. lia. }
  rewrite (sum_first_spec (sk_bins s)), Hmm; [|done|lia|].
  2: { rewrite Hmm. pose proof (bsum_mono (sk_bins s) (Z.to_nat (Z.min shift 512)) 512 Hb ltac:(lia)).
       unfold MaxUint32, m in *. simpl. lia. }
  simpl mbind.
  assert (0 <= m) by (by apply bsum_nonneg).
  assert (m + bget (sk_bins s) shift <= MaxUint32) as Hm0.
  { destruct (decide (shift < 512)).
    - pose proof (bget_le_bsum (sk_bins s) shift 512 Hb ltac:(lia)).
      unfold m. rewrite Z.min_l by lia. lia.
    - rewrite bget_out by (done || lia). unfold m. rewrite Z.min_r by lia.
      change (Z.to_nat 512) with 512%nat. lia. }
  (* the window move, before the merged count is added back *)
  set (inner := if used <=? shift then _ else _).
  assert (exists b, inner = Some (rewindow s b newMin (Z.max newMin (sk_maxIdx s)) (sk_collapsed s)) /\
    bins_ok b /\ forall k, bget b k = if decide (k < 0) then 0 else bget (sk_bins s) (k + shift)) as
    (b & -> & Hbb & Hbg).
  { unfold inner. destruct (used <=? shift) eqn:E; z_bool.
    - destruct (bclear_spec (sk_bins s) 0 used) as (b & -> & Hlb & Hgb); [done|lia|lia|].
      assert (forall k, bget b k = 0) as Hzero.
      { intros k. rewrite Hgb. case_decide; [done|]. destruct (decide (k < 0)).
        - apply bget_out; [done|lia].
        - apply Hz. unfold used in *. lia. }
      exists b. split_and!.
      + simpl. rewrite Z.max_l by (unfold shift, used in *; lia). reflexivity.
      + apply bins_ok_bget; [done|]. intros k _. rewrite Hzero. unfold MaxUint32. lia.
      + intros k. rewrite Hzero. case_decide; [done|]. symmetry. apply Hz. unfold used in *. lia.
    - destruct (bslice_spec (sk_bins s) shift used) as (src & -> & Hsl & Hsg); [done|lia|lia|].
      simpl mbind. i32s.
      destruct (bcopy_spec (sk_bins s) 0 (used - shift) src) as (b1 & -> & Hl1 & Hg1);
        [done|lia|lia|rewrite Hsl; f_equal; lia|]. simpl mbind.
      destruct (bclear_spec b1 (used - shift) used) as (b2 & -> & Hl2 & Hg2); [done|lia|lia|].
      assert (forall k, bget b2 k = if decide (k < 0) then 0 else bget (sk_bins s) (k + shift)) as HG.
      { intros k. rewrite Hg2, Hg1. repeat case_decide; try lia.
        - symmetry. apply Hz. unfold used in *. lia.
        - rewrite Hsg by lia. f_equal; lia.
        - apply bget_out; [done|lia].
        - rewrite !Hz; [done|..]; unfold used in *; lia. }
      exists b2. split_and!; [|apply bins_ok_bget; [done|]|exact HG].
      + simpl. rewrite Z.max_r by (unfold shift, used in *; lia). reflexivity.
      + intros k Hk. rewrite HG. case_decide; [lia|]. by apply bget_range. }
  simpl mbind.
  assert (bget b 0 = bget (sk_bins s) shift) as Hb0 by (rewrite Hbg; case_decide; [lia|f_equal; lia]).
  destruct (0 <? m) eqn:E; z_bool.
  - rewrite addAt_spec; [|exact Hbb|lia|lia|]; [|change (sk_bins _) with b; lia].
    simpl mbind. change (sk_bins (set_collapsed _)) with b.
    exists (<[Z.to_nat 0 := bget b 0 + m]> b). split_and!.
    + rewrite Z.sub_diag. change (u64 0) with 0. unfold set_binTotal. simpl.
      rewrite Z.sub_0_r, (wrapu_small 64) by done. rewrite orb_true_r. reflexivity.
    + apply bins_ok_insert; [done|]. pose proof (bget_range b 0 Hbb). lia.
    + intros k. rewrite bget_insert, Hb0 by (apply Hbb || lia). case_decide.
      * subst k. repeat case_decide; lia.
      * rewrite Hbg. repeat case_decide; (lia || done).
  - rewrite orb_false_r. exists b. split_and!; [reflexivity|done|].
    intros k. rewrite Hbg. repeat case_decide; try lia. assert (m = 0) as -> by lia.
    rewrite Z.add_0_l. f_equal; lia.
Qed.

(** ** The abstract histogram a sketch stands for

    [rep l s]: the sketch [s] holds the observations [l] (pairs of a bucket
    index and a positive count).  The highest index fixes the window; every
    observation more than 511 buckets below it counts at the floor. *)

(** Count of bucket [j] when indexes below [f] are lifted to [f]. *)
Fixpoint weight (f : Z) (l : list (Z * Z)) (j : Z) : Z :=
  match l with
  | [] => 0
  | (i, n) :: l' => (if Z.max i f =? j then n else 0) + weight f l' j
  end.

Fixpoint below (f : Z) (l : list (Z * Z)) (c : Z) : Z :=
  match l with
  | [] => 0
  | (i, n) :: l' => (if Z.max i f <? c then n else 0) + below f l' c
  end.

Fixpoint total (l : list (Z * Z)) : Z :=
  match l with
  | [] => 0
  | (_, n) :: l' => n + total l'
  end.

Definition positive_counts (l : list (Z * Z)) : Prop := Forall (fun p => 0 < snd p) l.

Lemma weight_app f l l' j : weight f (l ++ l') j = weight f l j + weight f l' j.
Proof. induction l as [|[i n] l IH]; simpl; [done|]. rewrite IH. lia. Qed.

Lemma total_app l l' : total (l ++ l') = total l + total l'.
Proof. induction l as [|[i n] l IH]; simpl; [done|]. rewrite IH. lia. Qed.

Lemma weight_perm f l l' j : l ≡ₚ l' -> weight f l j = weight f l' j.
Proof.
  induction 1 as [|[i n] l l' _ IH|[i n] [i' n'] l|]; simpl; try lia; congruence.
Qed.

Lemma total_perm l l' : l ≡ₚ l' -> total l = total l'.
Proof. induction 1 as [|[i n] l l' _ IH|[i n] [i' n'] l|]; simpl; lia. Qed.

Lemma weight_nonneg f l j : positive_counts l -> 0 <= weight f l j.
Proof. induction 1 as [|[i n] l Hn _ IH]; simpl in *; [lia|]. split_ifs; lia. Qed.

Lemma total_nonneg l : positive_counts l -> 0 <= total l.
Proof. induction 1 as [|[i n] l Hn _ IH]; simpl in *; lia. Qed.

Lemma below_succ f l c : below f l (c + 1) = below f l c + weight f l c.
Proof. induction l as [|[i n] l IH]; simpl; [done|]. rewrite IH. go_cases. Qed.

Lemma below_none f l c : Forall (fun p => c <= Z.max (fst p) f) l -> below f l c = 0.
Proof. induction 1 as [|[i n] l Hn _ IH]; simpl in *; [done|]. rewrite IH. go_cases. Qed.

Lemma below_all f l c : Forall (fun p => Z.max (fst p) f < c) l -> below f l c = total l.
Proof. induction 1 as [|[i n] l Hn _ IH]; simpl in *; [done|]. rewrite IH. go_cases. Qed.

(** Raising the floor moves everything below the new floor onto it. *)
Lemma weight_raise f f' l j :
  f <= f' ->
  weight f' l j =
  if j <? f' then 0 else if j =? f' then below f l f' + weight f l f' else weight f l j.
Proof.
  intros Hf. induction l as [|[i n] l IH]; simpl; [by split_ifs|]. rewrite IH. go_cases.
Qed.

Lemma bsum_weight b f l a n :
  (forall k, 0 <= k < Z.of_nat n -> bget b k = weight f l (a + k)) ->
  bsum b n = below f l (a + Z.of_nat n) - below f l a.
Proof.
  induction n as [|n IH]; intros H; cbn [bsum].
  - rewrite Z.add_0_r. lia.
  - rewrite IH, H by (intros; (apply H || idtac); lia).
    replace (a + Z.of_nat (S n)) with (a + Z.of_nat n + 1) by lia. rewrite below_succ. lia.
Qed.

Definition floor_of (s : Sketch) : Z := sk_maxIdx s - 511.

Record rep (c0 : bool) (l : list (Z * Z)) (s : Sketch) : Prop := {
  rep_wf : wf_sketch s;
  rep_pos : positive_counts l;
  rep_empty : l = [] <-> sk_hasBins s = false;
  rep_max_in : l <> [] -> exists p, p ∈ l /\ fst p = sk_maxIdx s;
  rep_max : forall p, p ∈ l -> fst p <= sk_maxIdx s;
  rep_min_in : l <> [] -> exists p, p ∈ l /\ sk_minIdx s = Z.max (fst p) (floor_of s);
  rep_min : forall p, p ∈ l -> sk_minIdx s <= Z.max (fst p) (floor_of s);
  rep_bins : l <> [] -> forall j, binAt s j = weight (floor_of s) l j;
  rep_collapsed : sk_collapsed s = true <-> c0 = true \/ exists p, p ∈ l /\ fst p < floor_of s;
  rep_total : sk_binTotal s = total l;
}.

(** The fields [add] does not touch. *)
Definition same_frame (s s' : Sketch) : Prop :=
  sk_sum s' = sk_sum s /\ sk_count s' = sk_count s /\ sk_zeroCount s' = sk_zeroCount s /\
  sk_saturations s' = sk_saturations s /\ sk_scale s' = sk_scale s.

Lemma same_frame_trans s1 s2 s3 : same_frame s1 s2 -> same_frame s2 s3 -> same_frame s1 s3.
Proof. unfold same_frame. intros (?&?&?&?&?) (?&?&?&?&?). split_and!; congruence. Qed.

Lemma rep_new scale : rep false [] (empty_sketch scale).
Proof.
  constructor; simpl; try done; try (by intros; set_solver).
  - apply wf_empty_sketch.
  - by apply Forall_nil.
Qed.

Lemma rep_hasBins c0 l s : rep c0 l s -> l <> [] -> sk_hasBins s = true.
Proof. intros H Hl. destruct (sk_hasBins s) eqn:E; [done|]. by apply (rep_empty c0 l s H) in E. Qed.

Lemma rep_bget c0 l s k :
  rep c0 l s -> l <> [] -> bget (sk_bins s) k = weight (floor_of s) l (sk_minIdx s + k).
Proof.
  intros H Hl. rewrite <- (rep_bins c0 l s H Hl). unfold binAt. rewrite (rep_hasBins c0 l s H Hl).
  f_equal; lia.
Qed.

Lemma rep_bsum c0 l s n :
  rep c0 l s -> l <> [] -> bsum (sk_bins s) n = below (floor_of s) l (sk_minIdx s + Z.of_nat n).
Proof.
  intros H Hl. rewrite (bsum_weight _ (floor_of s) l (sk_minIdx s)) by (intros; by eapply rep_bget).
  rewrite (below_none _ _ (sk_minIdx s)); [lia|]. apply Forall_forall. intros p Hp. by apply (rep_min c0 l s H).
Qed.

Lemma rep_bsum_all c0 l s : rep c0 l s -> l <> [] -> bsum (sk_bins s) 512 = total l.
Proof.
  intros H Hl. rewrite (rep_bsum c0 l s) by done. apply below_all, Forall_forall. intros p Hp.
  pose proof (rep_max c0 l s H p Hp). destruct (rep_min_in c0 l s H Hl) as (q & Hq & E).
  unfold floor_of in *. lia.
Qed.

Lemma rep_weight_le c0 l s j : rep c0 l s -> l <> [] -> weight (floor_of s) l j <= total l.
Proof.
  intros H Hl. rewrite <- (rep_bins c0 l s H Hl), <- (rep_bsum_all c0 l s H Hl). unfold binAt.
  rewrite (rep_hasBins c0 l s H Hl). pose proof (wf_bins s (rep_wf c0 l s H)) as Hb.
  destruct (decide (0 <= j - sk_minIdx s < 512)).
  - pose proof (bget_le_bsum (sk_bins s) (j - sk_minIdx s) 512 Hb ltac:(lia)).
    pose proof (bsum_nonneg (sk_bins s) (Z.to_nat (j - sk_minIdx s)) Hb). lia.
  - rewrite bget_out by (apply Hb || lia). by apply bsum_nonneg.
Qed.

(** The counting step of [add]: the window already covers the (clamped) index;
    one bin and the total grow. *)
Lemma rep_count c0 l s i n s0 :
  rep c0 l s0 -> positive_counts l -> idx_ok i -> 0 < n -> total l + n <= MaxUint32 ->
  wf_sketch s -> sk_hasBins s = true -> sk_binTotal s = total l ->
  sk_maxIdx s = Z.max i (sk_maxIdx s) ->
  (exists p, p ∈ l ++ [(i, n)] /\ fst p = sk_maxIdx s) ->
  (forall p, p ∈ l -> fst p <= sk_maxIdx s) ->
  (exists p, p ∈ l ++ [(i, n)] /\ sk_minIdx s = Z.max (fst p) (floor_of s)) ->
  (forall p, p ∈ l ++ [(i, n)] -> sk_minIdx s <= Z.max (fst p) (floor_of s)) ->
  (forall j, binAt s j = weight (floor_of s) l j) ->
  (sk_collapsed s = true <-> c0 = true \/ exists p, p ∈ l ++ [(i, n)] /\ fst p < floor_of s) ->
  let idx := Z.max i (floor_of s) in
  exists s', ('(s', stored) ← addAt s (i32 (idx - sk_minIdx s)) n;
              Some (set_binTotal s' (u64 (sk_binTotal s' + stored)))) = Some s' /\
    rep c0 (l ++ [(i, n)]) s' /\ same_frame s s'.
Proof.
  intros H0 Hpos Hi Hn Htot Hwf Hh HT Hmx Hmxin Hmax Hminin Hmin Hbins Hcol idx.
  pose proof (wf_win s Hwf Hh) as (Hm & HM & Hw & Hz). pose proof (wf_bins s Hwf) as Hb.
  assert (sk_minIdx s <= idx) by (apply (Hmin (i, n)); set_solver).
  assert (idx <= sk_maxIdx s) by (unfold idx, floor_of; lia). i32s.
  assert (0 <= total l) by (by apply total_nonneg).
  assert (bget (sk_bins s) (idx - sk_minIdx s) = weight (floor_of s) l idx) as Hget.
  { rewrite <- Hbins. unfold binAt. by rewrite Hh. }
  assert (forall f j, weight f l j <= total l) as Hle.
  { clear -Hpos. induction Hpos as [|[a b] l Hab _ IH]; intros f j; simpl in *; [lia|].
    specialize (IH f j). split_ifs; lia. }
  rewrite addAt_spec; [|done|lia|lia|rewrite Hget; specialize (Hle (floor_of s) idx); lia].
  simpl mbind. eexists. split; [reflexivity|]. split; [|by unfold same_frame].
  assert (forall k, bget (<[Z.to_nat (idx - sk_minIdx s) := bget (sk_bins s) (idx - sk_minIdx s) + n]>
                          (sk_bins s)) k =
                    bget (sk_bins s) k + if idx - sk_minIdx s =? k then n else 0) as HG.
  { intros k. rewrite bget_insert by (apply Hb || lia). case_decide; go_cases; subst; lia. }
  constructor; simpl; unfold floor_of in *; simpl.
  - constructor; simpl.
    + apply bins_ok_insert; [done|]. rewrite Hget. pose proof (weight_nonneg (sk_maxIdx s - 511) l idx Hpos).
      specialize (Hle (sk_maxIdx s - 511) idx). lia.
    + congruence.
    + intros _. split_and!; [done|done|lia|lia|]. intros k Hk. rewrite HG, Hz by done. go_cases.
  - apply Forall_app. split; [done|]. by repeat constructor.
  - rewrite Hh. split; [|done]. intros E. by destruct l.
  - intros _. exact Hmxin.
  - intros p [Hp|Hp]%elem_of_app; [by apply Hmax|].
    apply list_elem_of_singleton in Hp as ->. simpl. lia.
  - intros _. exact Hminin.
  - exact Hmin.
  - intros _ j. unfold binAt. simpl. rewrite Hh, HG, weight_app, <- Hbins. unfold binAt. rewrite Hh.
    simpl. fold idx. go_cases.
  - exact Hcol.
  - rewrite HT, total_app, u64_small by (unfold MaxUint32 in *; lia). simpl. lia.
Qed.

Lemma rep_below_cap c0 l s c :
  rep c0 l s -> l <> [] -> sk_minIdx s <= c ->
  bsum (sk_bins s) (Z.to_nat (Z.min (c - sk_minIdx s) 512)) = below (floor_of s) l c.
Proof.
  intros H Hl Hc. rewrite (rep_bsum c0 l s) by done. rewrite Z2Nat.id by lia.
  destruct (decide (c - sk_minIdx s <= 512)).
  - f_equal; lia.
  - destruct (rep_min_in c0 l s H Hl) as (q & Hq & E).
    rewrite !below_all; [done|..]; apply Forall_forall; intros p Hp;
      pose proof (rep_max c0 l s H p Hp); unfold floor_of in *; lia.
Qed.

(** A higher index whose window would pass 512 buckets: collapse, then count. *)
Lemma add_rep_collapse c0 l s i n :
  rep c0 l s -> l <> [] -> idx_ok i -> 0 < n -> total l + n <= MaxUint32 ->
  sk_maxIdx s < i -> 512 <= i - sk_minIdx s ->
  exists s', add s i n = Some s' /\ rep c0 (l ++ [(i, n)]) s' /\ same_frame s s'.
Proof.
  intros H Hl Hi Hn Htot Hgt Hspan.
  pose proof (rep_hasBins c0 l s H Hl) as Hh. pose proof (rep_wf c0 l s H) as Hwf.
  pose proof (wf_win s Hwf Hh) as (Hm & HM & Hw & Hz). pose proof (rep_pos c0 l s H) as Hpos.
  pose proof (total_nonneg l Hpos) as Htn.
  destruct (collapseTo_spec s (i - 511)) as (b & HC & Hbb & Hbg); try done; try (idx; lia).
  { rewrite (rep_bsum_all c0 l s) by done. lia. }
  { rewrite (rep_total c0 l s H). unfold in_u, MaxUint32 in *. simpl. lia. }
  unfold add. destruct (n =? 0) eqn:E0; z_bool; [lia|]. rewrite Hh. simpl negb. cbv iota.
  destruct (sk_maxIdx s <? i) eqn:E1; z_bool; [|lia]. i32s.
  destruct (SketchMaxBins <=? i - sk_minIdx s) eqn:E2; z_bool; [|unfold SketchMaxBins in *; lia].
  unfold SketchMaxBins in *. i32s. replace (i - 512 + 1) with (i - 511) by lia. rewrite HC.
  simpl mbind. set (s1 := set_window _ _ i).
  change (sk_minIdx s1) with (i - 511).
  assert (floor_of s1 = i - 511) as Hf by (unfold floor_of; simpl; lia).
  replace (i - (i - 511)) with (Z.max i (floor_of s1) - sk_minIdx s1) by (rewrite Hf; simpl; lia).
  assert (exists p, p ∈ l /\ fst p < i - 511) as Hlow.
  { destruct (rep_min_in c0 l s H Hl) as (q & Hq & E). exists q. unfold floor_of in *. split; [done|lia]. }
  destruct (rep_count c0 l s1 i n s) as (s' & HE & HR & HF); try done.
  - constructor; simpl; [done|by rewrite Hh|]. intros _. split_and!; [idx; lia|done|lia|lia|].
    intros k Hk. rewrite Hbg. case_decide; [done|]. case_decide; [lia|]. apply Hz. lia.
  - simpl. apply (rep_total c0 l s H).
  - simpl. lia.
  - exists (i, n). split; [set_solver|done].
  - intros p Hp. pose proof (rep_max c0 l s H p Hp). simpl. lia.
  - destruct Hlow as (q & Hq & Hlt). exists q. rewrite Hf. simpl. split; [set_solver|lia].
  - intros p _. rewrite Hf. simpl. lia.
  - intros j. unfold binAt. change (sk_hasBins s1) with (sk_hasBins s). rewrite Hh, Hf. simpl. rewrite Hbg.
    rewrite (weight_raise (floor_of s) (i - 511)) by (unfold floor_of; lia).
    rewrite (rep_below_cap c0 l s) by (done || lia).
    case_decide; [destruct (j <? i - 511) eqn:E; [done|z_bool; lia]|].
    destruct (j <? i - 511) eqn:E; z_bool; [lia|].
    rewrite !(rep_bget c0 l s) by done.
    case_decide; [destruct (j =? i - 511) eqn:E3; z_bool; [|lia] |
                  destruct (j =? i - 511) eqn:E3; z_bool; [lia|]]; repeat f_equal; lia.
  - rewrite Hf. simpl. split.
    + intros _. right. destruct Hlow as (q & Hq & Hlt). exists q. split; [set_solver|done].
    + intros _. apply orb_true_iff. right. apply Z.ltb_lt.
      destruct (rep_min_in c0 l s H Hl) as (q & Hq & Eq).
      pose proof (weight_nonneg (floor_of s) l (sk_minIdx s) Hpos).
      assert (0 < bget (sk_bins s) 0) as Hp0.
      { rewrite (rep_bget c0 l s), Z.add_0_r by done. clear -Hq Eq Hpos. induction Hpos as [|[a c] l Hc Hpos IH].
        - set_solver.
        - apply elem_of_cons in Hq as [->|Hq]; cbn [weight fst snd] in *.
          + rewrite Eq, Z.eqb_refl. pose proof (weight_nonneg (floor_of s) l (Z.max a (floor_of s)) Hpos). lia.
          + specialize (IH Hq). split_ifs; lia. }
      pose proof (bget_le_bsum (sk_bins s) 0 (Z.to_nat (Z.min (i - 511 - sk_minIdx s) 512))
                    (wf_bins s Hwf) ltac:(lia)) as HB. simpl in HB. lia.
  - exists s'. split_and!; [exact HE|exact HR|]. exact HF.
Qed.

(** The remaining cases leave the counts where they are: the window is moved
    to cover the clamped index and one bin grows. *)
Lemma rep_min_cover c0 l s i n :
  rep c0 l s -> l <> [] -> forall p, p ∈ l ++ [(i, n)] ->
  Z.min (sk_minIdx s) (Z.max i (floor_of s)) <= Z.max (fst p) (floor_of s).
Proof.
  intros H Hl p [Hp|Hp]%elem_of_app.
  - pose proof (rep_min c0 l s H p Hp). lia.
  - apply list_elem_of_singleton in Hp as ->. simpl. lia.
Qed.

Lemma add_rep_high c0 l s i n :
  rep c0 l s -> l <> [] -> idx_ok i -> 0 < n -> total l + n <= MaxUint32 ->
  sk_maxIdx s < i -> i - sk_minIdx s < 512 ->
  exists s', add s i n = Some s' /\ rep c0 (l ++ [(i, n)]) s' /\ same_frame s s'.
Proof.
  intros H Hl Hi Hn Htot Hgt Hspan.
  pose proof (rep_hasBins c0 l s H Hl) as Hh. pose proof (rep_wf c0 l s H) as Hwf.
  pose proof (wf_win s Hwf Hh) as (Hm & HM & Hw & Hz).
  unfold add. destruct (n =? 0) eqn:E0; z_bool; [lia|]. rewrite Hh. simpl negb. cbv iota.
  destruct (sk_maxIdx s <? i) eqn:E1; z_bool; [|lia]. i32s.
  destruct (SketchMaxBins <=? i - sk_minIdx s) eqn:E2; z_bool; [unfold SketchMaxBins in *; lia|].
  simpl mbind. set (s1 := set_window _ _ i). change (sk_minIdx s1) with (sk_minIdx s).
  assert (floor_of s1 = i - 511) as Hf by (unfold floor_of; simpl; lia).
  replace (i - sk_minIdx s) with (Z.max i (floor_of s1) - sk_minIdx s1) by (rewrite Hf; simpl; lia).
  assert (forall p, p ∈ l -> sk_minIdx s <= fst p) as Hge.
  { intros p Hp. pose proof (rep_min c0 l s H p Hp). unfold floor_of in *. lia. }
  destruct (rep_count c0 l s1 i n s) as (s' & HE & HR & HF); try done.
  - apply (rep_pos c0 l s H).
  - constructor; simpl; [apply Hwf|by rewrite Hh|]. intros _. split_and!; [done|done|lia|lia|].
    intros k Hk. apply Hz. lia.
  - simpl. apply (rep_total c0 l s H).
  - simpl. lia.
  - exists (i, n). split; [set_solver|done].
  - intros p Hp. pose proof (rep_max c0 l s H p Hp). simpl. lia.
  - destruct (rep_min_in c0 l s H Hl) as (q & Hq & E). exists q. rewrite Hf. simpl.
    pose proof (Hge q Hq). unfold floor_of in E. split; [set_solver|lia].
  - intros p [Hp|Hp]%elem_of_app; simpl; [specialize (Hge p Hp); lia|].
    apply list_elem_of_singleton in Hp as ->. simpl. lia.
  - intros j. unfold binAt. change (sk_hasBins s1) with (sk_hasBins s). rewrite Hh, Hf. simpl.
    rewrite (rep_bget c0 l s), (weight_raise (floor_of s) (i - 511)) by (done || unfold floor_of; lia).
    replace (sk_minIdx s + (j - sk_minIdx s)) with j by lia.
    rewrite (below_none (floor_of s) l (i - 511)).
    2: { apply Forall_forall. intros p Hp. specialize (Hge p Hp). lia. }
    destruct (j <? i - 511) eqn:E; z_bool; [|destruct (j =? i - 511) eqn:E3; z_bool; subst; lia].
    rewrite <- (rep_bins c0 l s H Hl). unfold binAt. rewrite Hh. apply bget_out; [apply Hwf|lia].
  - rewrite Hf. simpl. rewrite (rep_collapsed c0 l s H). split.
    + intros [?|(p & Hp & Hlt)]; [by left|]. specialize (Hge p Hp). unfold floor_of in Hlt. lia.
    + intros [?|(p & [Hp|Hp]%elem_of_app & Hlt)]; [by left|specialize (Hge p Hp); lia|].
      apply list_elem_of_singleton in Hp as ->. simpl in Hlt. lia.
  - exists s'. split_and!; [exact HE|exact HR|]. exact HF.
Qed.

Lemma add_rep_low c0 l s i n :
  rep c0 l s -> l <> [] -> idx_ok i -> 0 < n -> total l + n <= MaxUint32 -> i <= sk_maxIdx s ->
  exists s', add s i n = Some s' /\ rep c0 (l ++ [(i, n)]) s' /\ same_frame s s'.
Proof.
  intros H Hl Hi Hn Htot Hle.
  pose proof (rep_hasBins c0 l s H Hl) as Hh. pose proof (rep_wf c0 l s H) as Hwf.
  pose proof (wf_win s Hwf Hh) as (Hm & HM & Hw & Hz). pose proof (rep_max c0 l s H) as Hmx.
  pose proof (rep_min_cover c0 l s i n H Hl) as Hcover.
  destruct (rep_min_in c0 l s H Hl) as (q & Hq & Eq). pose proof (rep_collapsed c0 l s H) as Hcol.
  set (newMin := Z.min (sk_minIdx s) (Z.max i (floor_of s))).
  destruct (extendTo_spec s newMin) as (b & HX & Hbb & Hbg);
    try done; try (unfold newMin, floor_of in *; idx; lia).
  set (s1 := rewindow s b newMin (sk_maxIdx s) (sk_collapsed s || (i <? floor_of s))).
  assert (floor_of s1 = floor_of s) as Hf by done.
  destruct (rep_count c0 l s1 i n s) as (s' & HE & HR & HF); try done.
  - apply (rep_pos c0 l s H).
  - constructor; simpl; [done|by rewrite Hh|]. intros _.
    split_and!; [unfold newMin, floor_of in *; idx; lia|done|unfold newMin; lia|
                 unfold newMin, floor_of in *; lia|].
    intros k Hk. rewrite Hbg. apply Hz. lia.
  - simpl. apply (rep_total c0 l s H).
  - simpl. lia.
  - destruct (rep_max_in c0 l s H Hl) as (p & Hp & E). exists p. split; [set_solver|done].
  - rewrite Hf. simpl. destruct (decide (sk_minIdx s <= Z.max i (floor_of s))).
    + exists q. split; [set_solver|]. unfold newMin. lia.
    + exists (i, n). split; [set_solver|]. unfold newMin. simpl. lia.
  - intros j. unfold binAt. change (sk_hasBins s1) with (sk_hasBins s). rewrite Hh, Hf. simpl.
    rewrite Hbg, <- (rep_bins c0 l s H Hl). unfold binAt. rewrite Hh. f_equal; lia.
  - rewrite Hf. simpl. rewrite orb_true_iff, Hcol, Z.ltb_lt. split.
    + intros [[?|(p & Hp & Hlt)]|Hlt]; [by left|right; exists p|right; exists (i, n)];
        (split; [set_solver|done]).
    + intros [?|(p & [Hp|Hp]%elem_of_app & Hlt)]; [by left; left|left; right; by exists p|right].
      by apply list_elem_of_singleton in Hp as ->.
  - exists s'. split_and!; [|exact HR|exact HF]. rewrite <- HE. rewrite Hf.
    unfold add. destruct (n =? 0) eqn:E0; z_bool; [lia|]. rewrite Hh. simpl negb. cbv iota.
    destruct (sk_maxIdx s <? i) eqn:E1; z_bool; [lia|]. unfold SketchMaxBins. i32s.
    replace (sk_maxIdx s - 512 + 1) with (floor_of s) by (unfold floor_of; lia).
    change (sk_minIdx s1) with newMin.
    destruct (i <? sk_minIdx s) eqn:E2; z_bool; [destruct (i <? floor_of s) eqn:E3; z_bool|].
    + assert (newMin = floor_of s) as Hnm by (unfold newMin, floor_of in *; lia).
      rewrite Hnm in HX. rewrite HX. simpl mbind. unfold s1. rewrite orb_true_r, Z.max_r, Hnm by lia.
      reflexivity.
    + assert (newMin = i) as Hnm by (unfold newMin, floor_of in *; lia).
      rewrite Hnm in HX. rewrite HX. simpl mbind. unfold s1. rewrite orb_false_r, Z.max_l, Hnm by lia.
      reflexivity.
    + assert (newMin = sk_minIdx s) as Hnm by (unfold newMin, floor_of in *; lia).
      assert (b = sk_bins s) as ->.
      { apply bget_ext; [apply Hbb|apply Hwf|]. intros k _. rewrite Hbg. f_equal; lia. }
      assert (sk_collapsed s || (i <? floor_of s) = sk_collapsed s) as Hc.
      { destruct (i <? floor_of s) eqn:E3; z_bool; [|by rewrite orb_false_r].
        unfold floor_of in *. lia. }
      unfold s1. rewrite Hc, Hnm. simpl mbind.
      replace (Z.max i (floor_of s)) with i by (unfold floor_of in *; lia). by destruct s.
Qed.

(** [add] refines the abstract histogram: it never panics and appends the
    observation. *)
Lemma add_rep c0 l s i n :
  rep c0 l s -> idx_ok i -> 0 < n -> total l + n <= MaxUint32 ->
  exists s', add s i n = Some s' /\ rep c0 (l ++ [(i, n)]) s' /\ same_frame s s'.
Proof.
  intros H Hi Hn Htot. destruct (decide (l = [])) as [->|Hl].
  - assert (sk_hasBins s = false) as Hh by (by apply (rep_empty c0 [] s H)).
    pose proof (rep_wf c0 [] s H) as Hwf.
    unfold add. destruct (n =? 0) eqn:E0; z_bool; [lia|]. rewrite Hh. simpl negb. cbv iota.
    set (s1 := set_window _ i i).
    destruct (rep_count c0 [] s1 i n s) as (s' & HE & HR & HF); try done.
    + by apply Forall_nil.
    + constructor; simpl; [apply Hwf|done|]. intros _. split_and!; [done|done|lia|lia|].
      intros k _. rewrite (wf_empty s Hwf Hh). apply bget_zero.
    + apply (rep_total c0 [] s H).
    + simpl. lia.
    + exists (i, n). split; [set_solver|done].
    + intros p Hp. set_solver.
    + exists (i, n). split; [set_solver|]. unfold floor_of. simpl. lia.
    + intros p Hp. apply list_elem_of_singleton in Hp as ->. simpl. lia.
    + intros j. unfold binAt. simpl. rewrite (wf_empty s Hwf Hh). apply bget_zero.
    + simpl. rewrite (rep_collapsed c0 [] s H). unfold floor_of. simpl. split.
      * intros [?|(p & Hp & _)]; [by left|set_solver].
      * intros [?|(p & Hp & Hlt)]; [by left|]. apply list_elem_of_singleton in Hp as ->. simpl in Hlt. lia.
    + exists s'. split_and!; [|exact HR|exact HF]. rewrite <- HE. unfold floor_of. simpl sk_maxIdx.
      change (sk_minIdx s1) with i. rewrite Z.max_l, Z.sub_diag by lia. reflexivity.
  - destruct (decide (sk_maxIdx s < i)).
    + destruct (decide (512 <= i - sk_minIdx s)); [by apply add_rep_collapse|apply add_rep_high; auto; lia].
    + apply add_rep_low; auto; lia.
Qed.

(** ** Order independence *)

Definition add_all (s : Sketch) (l : list (Z * Z)) : option Sketch :=
  foldl (fun st p => s ← st; add s (fst p) (snd p)) (Some s) l.

Definition obs_ok (l : list (Z * Z)) : Prop := Forall (fun p => idx_ok (fst p) /\ 0 < snd p) l.

#[global] Instance obs_ok_dec l : Decision (obs_ok l).
Proof. unfold obs_ok, idx_ok. apply _. Defined.

Lemma obs_ok_pos l : obs_ok l -> positive_counts l.
Proof. intros H. eapply Forall_impl; [exact H|]. by intros ? []. Qed.

Lemma add_all_rep c0 l0 s l :
  rep c0 l0 s -> obs_ok l -> total l0 + total l <= MaxUint32 ->
  exists s', add_all s l = Some s' /\ rep c0 (l0 ++ l) s' /\ same_frame s s'.
Proof.
  intros H Hl. revert l0 s H. induction Hl as [|[i n] l [Hi Hn] Hl IH]; intros l0 s H Ht.
  - exists s. rewrite app_nil_r. split_and!; [done|done|by unfold same_frame].
  - simpl in *. pose proof (total_nonneg l (obs_ok_pos l Hl)).
    destruct (add_rep c0 l0 s i n) as (s1 & E1 & R1 & F1); [done..|lia|].
    destruct (IH _ _ R1) as (s' & E' & R' & F'); [rewrite total_app; simpl; lia|].
    exists s'. unfold add_all in *. simpl. rewrite E1. split_and!; [done| |by eapply same_frame_trans].
    by rewrite <- app_assoc in R'.
Qed.

(** C32: [Sketch.add] refines the abstract histogram.  Take an empty sketch of
    any scale and any sequence of bucket observations whose indexes lie in
    [[-2^30, 2^30)], whose counts are positive and whose total is within
    32 bits: no addition panics, and afterwards the sketch holds exactly those
    observations, each index lifted to the floor [maxIdx - 511] of the
    512-bucket window, the window is tight, and [collapsed] is set exactly when
    some observation lies below the floor.  The bound on the indexes is
    needed, as the width of the window is computed in int32: with indexes at
    both ends of the int32 range [add] does panic
    ([Delta.ObserveHistogram_panics]). *)
Theorem add_all_refines (scale : Z) (l : list (Z * Z)) :
  obs_ok l -> total l <= MaxUint32 ->
  exists s, add_all (empty_sketch scale) l = Some s /\ rep false l s.
Proof.
  intros Hl Ht. destruct (add_all_rep false [] (empty_sketch scale) l) as (s & E & R & _);
    [apply rep_new|done|simpl; lia|]. by exists s.
Qed.

Lemma add_all_refines_witness :
  let l := [(100, 1); (700, 2); (650, 3); (-5, 4)] in
  obs_ok l /\ total l <= MaxUint32 /\
  exists s, add_all (empty_sketch 4) l = Some s /\ rep false l s.
Proof.
  intros l. assert (obs_ok l) as H1 by (apply (bool_decide_unpack _); vm_compute; exact I).
  assert (total l <= MaxUint32) as H2 by (by vm_compute).
  split; [exact H1|]. split; [exact H2|]. exact (add_all_refines 4 l H1 H2).
Defined.

(** The abstract histogram determines the sketch. *)
Lemma rep_unique l l' s s' :
  rep false l s -> rep false l' s' -> l ≡ₚ l' -> same_frame s s' ->
  (l = [] -> sk_minIdx s = sk_minIdx s' /\ sk_maxIdx s = sk_maxIdx s') -> s = s'.
Proof.
  intros H H' HP (F1 & F2 & F3 & F4 & F5) HE.
  assert (forall p, p ∈ l <-> p ∈ l') as Hin by (intros; by rewrite HP).
  assert (sk_hasBins s = sk_hasBins s') as Hh.
  { pose proof (rep_empty false l s H) as [A B]. pose proof (rep_empty false l' s' H') as [A' B'].
    destruct (sk_hasBins s), (sk_hasBins s'); try done.
    - rewrite (B' eq_refl) in HP. apply Permutation_nil_r in HP. by discriminate (A HP).
    - rewrite (B eq_refl) in HP. symmetry in HP. apply Permutation_nil_r in HP. by discriminate (A' HP). }
  assert (sk_minIdx s = sk_minIdx s' /\ sk_maxIdx s = sk_maxIdx s') as [Hm HM].
  { destruct (decide (l = [])) as [|Hl]; [auto|].
    assert (l' <> []) as Hl' by (intros ->; apply Permutation_nil_r in HP; done).
    assert (sk_maxIdx s = sk_maxIdx s') as HM.
    { destruct (rep_max_in _ _ _ H Hl) as (p & Hp & E). destruct (rep_max_in _ _ _ H' Hl') as (q & Hq & E').
      pose proof (rep_max _ _ _ H q (proj2 (Hin q) Hq)). pose proof (rep_max _ _ _ H' p (proj1 (Hin p) Hp)). lia. }
    assert (floor_of s = floor_of s') as Hf by (unfold floor_of; by rewrite HM).
    split; [|done].
    destruct (rep_min_in _ _ _ H Hl) as (p & Hp & E). destruct (rep_min_in _ _ _ H' Hl') as (q & Hq & E').
    pose proof (rep_min _ _ _ H q (proj2 (Hin q) Hq)). pose proof (rep_min _ _ _ H' p (proj1 (Hin p) Hp)).
    rewrite Hf in *. lia. }
  assert (floor_of s = floor_of s') as Hf by (unfold floor_of; by rewrite HM).
  assert (sk_bins s = sk_bins s') as Hb.
  { destruct (sk_hasBins s) eqn:E.
    - assert (l <> []) as Hl by (intros ->; by rewrite (proj1 (rep_empty _ _ _ H)) in E).
      assert (l' <> []) as Hl' by (intros ->; apply Permutation_nil_r in HP; done).
      apply bget_ext; [apply H|apply H'|]. intros k _.
      rewrite (rep_bget _ _ _ _ H Hl), (rep_bget _ _ _ _ H' Hl'), Hf, Hm. by apply weight_perm.
    - rewrite (wf_empty s (rep_wf _ _ _ H) E). symmetry. apply (wf_empty s' (rep_wf _ _ _ H')). done. }
  assert (sk_collapsed s = sk_collapsed s') as Hc.
  { apply eq_bool_prop_intro.
    rewrite !Is_true_true, (rep_collapsed _ _ _ H), (rep_collapsed _ _ _ H'), Hf. by setoid_rewrite Hin. }
  assert (sk_binTotal s = sk_binTotal s') as HT
    by (rewrite (rep_total _ _ _ H), (rep_total _ _ _ H'); by apply total_perm).
  destruct s, s'; simpl in *. congruence.
Qed.

Lemma obs_ok_perm l l' : l ≡ₚ l' -> obs_ok l -> obs_ok l'.
Proof. intros HP. unfold obs_ok. by rewrite HP. Qed.

(** The state of a sketch depends only on the multiset of observations,
    never on their order: adding the same observations in any order gives the
    same sketch, window, bins, collapse flag and totals included. *)
Theorem add_all_order_independent (scale : Z) (l l' : list (Z * Z)) :
  obs_ok l -> total l <= MaxUint32 -> l ≡ₚ l' ->
  add_all (empty_sketch scale) l = add_all (empty_sketch scale) l'.
Proof.
  intros Hl Ht HP.
  destruct (add_all_rep false [] (empty_sketch scale) l) as (s & E & R & F);
    [apply rep_new|done|simpl; lia|].
  destruct (add_all_rep false [] (empty_sketch scale) l') as (s' & E' & R' & F');
    [apply rep_new|by eapply obs_ok_perm|rewrite <- (total_perm _ _ HP); simpl; lia|].
  rewrite E, E'. f_equal. apply (rep_unique l l'); try done.
  - destruct F as (?&?&?&?&?), F' as (?&?&?&?&?). unfold same_frame. split_and!; congruence.
  - intros ->. symmetry in HP. apply Permutation_nil_r in HP as ->. simpl in *. by simplify_eq.
Qed.

Lemma add_all_order_independent_witness :
  let l := [(100, 1); (700, 2); (650, 3); (-5, 4)] in
  let l' := [(-5, 4); (100, 1); (650, 3); (700, 2)] in
  obs_ok l /\ total l <= MaxUint32 /\ l ≡ₚ l' /\
  add_all (empty_sketch 4) l = add_all (empty_sketch 4) l'.
Proof.
  intros l l'. assert (obs_ok l) as H1 by (apply (bool_decide_unpack _); vm_compute; exact I).
  assert (total l <= MaxUint32) as H2 by (by vm_compute).
  assert (l ≡ₚ l') as H3 by (apply (bool_decide_unpack _); vm_compute; exact I).
  split; [exact H1|]. split; [exact H2|]. split; [exact H3|].
  exact (add_all_order_independent 4 l l' H1 H2 H3).
Defined.

(** ** Merging *)

(** [w] summarizes [l] above the floor [f]: same counts, every bucket of [w]
    comes from [l] and conversely. *)
Record covers (f : Z) (l w : list (Z * Z)) : Prop := {
  cov_weight : forall j, weight f w j = weight f l j;
  cov_from : forall p, p ∈ w -> exists q, q ∈ l /\ fst p = Z.max (fst q) f;
  cov_onto : forall q, q ∈ l -> exists p, p ∈ w /\ fst p = Z.max (fst q) f;
}.

Lemma below_floor f l : below f l f = 0.
Proof. apply below_none, Forall_forall. intros. lia. Qed.

Lemma cov_below f l w c : covers f l w -> below f w c = below f l c.
Proof.
  intros H. destruct (decide (c <= f)).
  - rewrite !below_none; [done|..]; apply Forall_forall; intros; lia.
  - replace c with (f + Z.of_nat (Z.to_nat (c - f))) by lia. generalize (Z.to_nat (c - f)) as m.
    induction m as [|m IH]; [rewrite Z.add_0_r, !below_floor; done|].
    replace (f + Z.of_nat (S m)) with (f + Z.of_nat m + 1) by lia.
    by rewrite !below_succ, IH, (cov_weight _ _ _ H).
Qed.

Lemma cov_weight_raise f l w f' j : covers f l w -> f <= f' -> weight f' w j = weight f' l j.
Proof.
  intros H Hf. rewrite (weight_raise f f' w), (weight_raise f f' l) by done.
  by rewrite !(cov_weight _ _ _ H), (cov_below _ _ _ _ H).
Qed.

Lemma cov_total f l w : covers f l w -> total w = total l.
Proof.
  intros H.
  assert (forall l : list (Z * Z), exists c, forall p, p ∈ l -> Z.max (fst p) f < c) as HB.
  { clear. induction l as [|[i n] l [c IH]]; [exists 0; set_solver|].
    exists (Z.max c (Z.max i f + 1)). intros p [->|Hp]%elem_of_cons; simpl; [lia|].
    specialize (IH p Hp). lia. }
  destruct (HB (w ++ l)) as [c Hc].
  rewrite <- (below_all f w c), <- (below_all f l c); [by apply cov_below|..];
    apply Forall_forall; intros; apply Hc; set_solver.
Qed.

(** Observations folded in through a summary count as themselves. *)
Lemma rep_absorb c1 c2 l1 l2 w f s :
  rep (c1 || c2) (l1 ++ w) s -> covers f l2 w -> f <= floor_of s -> positive_counts l2 ->
  (c2 = true <-> exists q, q ∈ l2 /\ fst q < f) ->
  rep c1 (l1 ++ l2) s.
Proof.
  intros H HC Hf Hp2 Hc2.
  assert (l1 ++ l2 = [] <-> l1 ++ w = []) as Hnil.
  { pose proof (cov_from _ _ _ HC) as A. pose proof (cov_onto _ _ _ HC) as B.
    destruct l1; [|done]. simpl. destruct w as [|p w], l2 as [|q l2]; try done.
    - destruct (B q) as (? & ? & _); set_solver.
    - destruct (A p) as (? & ? & _); set_solver. }
  assert (l1 ++ l2 <> [] <-> l1 ++ w <> []) as Hnn by tauto.
  constructor.
  - apply H.
  - apply Forall_app. split; [|done]. pose proof (rep_pos _ _ _ H) as HP.
    by apply Forall_app in HP as [? _].
  - rewrite Hnil. apply H.
  - intros [p [[Hp|Hp]%elem_of_app E]]%Hnn%(rep_max_in _ _ _ H); [exists p; set_solver|].
    destruct (cov_from _ _ _ HC p Hp) as (q & Hq & Eq). exists q. unfold floor_of in Hf.
    split; [set_solver|lia].
  - intros q [Hq|Hq]%elem_of_app; [apply (rep_max _ _ _ H); set_solver|].
    destruct (cov_onto _ _ _ HC q Hq) as (p & Hp & Ep).
    pose proof (rep_max _ _ _ H p ltac:(set_solver)). lia.
  - intros [p [[Hp|Hp]%elem_of_app E]]%Hnn%(rep_min_in _ _ _ H); [exists p; set_solver|].
    destruct (cov_from _ _ _ HC p Hp) as (q & Hq & Eq). exists q. split; [set_solver|lia].
  - intros q [Hq|Hq]%elem_of_app; [apply (rep_min _ _ _ H); set_solver|].
    destruct (cov_onto _ _ _ HC q Hq) as (p & Hp & Ep).
    pose proof (rep_min _ _ _ H p ltac:(set_solver)). lia.
  - intros Hl j. rewrite (rep_bins _ _ _ H (proj1 Hnn Hl)), !weight_app.
    by rewrite (cov_weight_raise f l2 w).
  - rewrite (rep_collapsed _ _ _ H), orb_true_iff, Hc2. split.
    + intros [[?|(q & Hq & Hlt)]|(p & [Hp|Hp]%elem_of_app & Hlt)]; [by left|right|right|right].
      * exists q. split; [set_solver|lia].
      * exists p. split; [set_solver|done].
      * destruct (cov_from _ _ _ HC p Hp) as (q & Hq & Eq). exists q. split; [set_solver|lia].
    + intros [?|(q & [Hq|Hq]%elem_of_app & Hlt)]; [by left; left|right; exists q; set_solver|].
      destruct (decide (fst q < f)); [left; right; by exists q|right].
      destruct (cov_onto _ _ _ HC q Hq) as (p & Hp & Ep). exists p. split; [set_solver|lia].
  - by rewrite (rep_total _ _ _ H), !total_app, (cov_total _ _ _ HC).
Qed.

Definition nonzero_window (s : Sketch) : list (Z * Z) :=
  filter (fun p : Z * Z => snd p <> 0) (fst (window s)).

Lemma weight_filter f w j : weight f (filter (fun p : Z * Z => snd p <> 0) w) j = weight f w j.
Proof.
  induction w as [|[i n] w IH]; [done|]. rewrite filter_cons. case_decide as D; simpl in *.
  - by rewrite IH.
  - rewrite IH. assert (n = 0) by lia. subst. by destruct (_ =? _).
Qed.

Lemma weight_seq f a g n j :
  f <= a ->
  weight f (map (fun i : nat => (a + Z.of_nat i, g (a + Z.of_nat i))) (seq 0 n)) j =
  if (a <=? j) && (j <? a + Z.of_nat n) then g j else 0.
Proof.
  intros Hf. induction n as [|n IH].
  - simpl. go_cases.
  - rewrite seq_S, map_app, weight_app, IH. simpl. go_cases.
    all: try (f_equal; lia). all: subst; try lia.
    all: rewrite Z.max_l in * by lia; subst; try lia.
Qed.

Lemma elem_of_nonzero_window c0 l s p :
  rep c0 l s -> l <> [] ->
  p ∈ nonzero_window s <->
  snd p <> 0 /\ snd p = binAt s (fst p) /\ sk_minIdx s <= fst p <= sk_maxIdx s.
Proof.
  intros H Hl. unfold nonzero_window. rewrite window_spec by (apply H || by eapply rep_hasBins).
  simpl. rewrite list_elem_of_filter, list_elem_of_fmap.
  split.
  - intros (Hn & i & -> & Hi). simpl in *. apply elem_of_seq in Hi. split_and!; [done|done|lia|lia].
  - intros (Hn & E & Hr). split; [done|]. exists (Z.to_nat (fst p - sk_minIdx s)).
    rewrite elem_of_seq, Z2Nat.id by lia. split; [|lia]. destruct p as [i n]. simpl in *.
    replace (sk_minIdx s + (i - sk_minIdx s)) with i by lia. by rewrite E.
Qed.

Lemma weight_pos f l j :
  positive_counts l -> weight f l j <> 0 <-> exists q, q ∈ l /\ Z.max (fst q) f = j.
Proof.
  induction 1 as [|[i n] l Hn HP IH]; simpl in *.
  - split; [lia|]. intros (q & Hq & _). set_solver.
  - pose proof (weight_nonneg f l j HP). destruct (Z.eqb_spec (Z.max i f) j).
    + split; [|lia]. intros _. exists (i, n). split; [set_solver|done].
    + rewrite Z.add_0_l, IH. split.
      * intros (q & Hq & E). exists q. split; [set_solver|done].
      * intros (q & [->|Hq]%elem_of_cons & E); [done|]. by exists q.
Qed.

(** The window of a sketch summarizes what it holds. *)
Lemma window_covers c0 l s : rep c0 l s -> l <> [] -> covers (floor_of s) l (nonzero_window s).
Proof.
  intros H Hl. pose proof (rep_hasBins _ _ _ H Hl) as Hh.
  pose proof (wf_win s (rep_wf _ _ _ H) Hh) as (Hm & HM & Hw & Hz).
  destruct (rep_min_in _ _ _ H Hl) as (q0 & Hq0 & E0).
  constructor.
  - intros j. unfold nonzero_window. rewrite weight_filter, window_spec by (done || apply H).
    cbn [fst]. rewrite weight_seq by lia. rewrite <- (rep_bins _ _ _ H Hl).
    destruct (_ && _) eqn:E; [done|]. symmetry. unfold binAt. rewrite Hh.
    destruct (decide (j < sk_minIdx s)); [apply bget_out; [apply H|lia]|]. apply Hz.
    z_bool. lia.
  - intros p (Hn & E & Hr)%(elem_of_nonzero_window _ _ _ _ H Hl).
    rewrite E, (rep_bins _ _ _ H Hl) in Hn. apply weight_pos in Hn; [|apply H].
    destruct Hn as (q & Hq & Eq). by exists q.
  - intros q Hq. pose proof (rep_max _ _ _ H q Hq). pose proof (rep_min _ _ _ H q Hq).
    exists (Z.max (fst q) (floor_of s), binAt s (Z.max (fst q) (floor_of s))). split; [|done].
    apply (elem_of_nonzero_window _ _ _ _ H Hl). simpl. split_and!; [|done|lia|unfold floor_of; lia].
    rewrite (rep_bins _ _ _ H Hl). apply weight_pos; [apply H|]. by exists q.
Qed.

Lemma add_window_add_all s w :
  add_window s w = add_all s (filter (fun p : Z * Z => snd p <> 0) w).
Proof.
  unfold add_window, add_all.
  assert (forall st, foldl (fun st (p : Z * Z) => s ← st; if snd p =? 0 then Some s else add s (fst p) (snd p)) st w =
    foldl (fun st (p : Z * Z) => s ← st; add s (fst p) (snd p)) st (filter (fun p : Z * Z => snd p <> 0) w)) as HH;
    [|apply HH].
  induction w as [|[i n] w IH]; intros st; [done|]. rewrite filter_cons. cbn [foldl fst snd].
  case_decide as D; cbn [fst snd] in D.
  - cbn [foldl fst snd]. rewrite <- IH. f_equal. destruct st; [|done]. simpl.
    destruct (n =? 0) eqn:E; z_bool; [lia|done].
  - assert (n = 0) as -> by lia. rewrite <- IH. f_equal. by destruct st.
Qed.

Lemma nonzero_window_ok c0 l s : rep c0 l s -> l <> [] -> obs_ok (nonzero_window s).
Proof.
  intros H Hl. pose proof (rep_hasBins _ _ _ H Hl) as Hh.
  pose proof (wf_win s (rep_wf _ _ _ H) Hh) as (Hm & HM & Hw & Hz).
  apply Forall_forall. intros p (Hn & E & Hr)%(elem_of_nonzero_window _ _ _ _ H Hl).
  split; [idx; lia|]. rewrite E, (rep_bins _ _ _ H Hl) in Hn |- *.
  pose proof (weight_nonneg (floor_of s) l (fst p) (rep_pos _ _ _ H)). lia.
Qed.

(** What a sketch records, buckets and scalars. *)
Record holds (l : list (Z * Z)) (sum : f64) (zero : Z) (s : Sketch) : Prop := {
  h_rep : rep false l s;
  h_sum : sk_sum s = sum;
  h_zero : sk_zeroCount s = zero;
  h_count : sk_count s = total l + zero;
  h_sat : sk_saturations s = 0;
  h_zero_range : 0 <= zero;
}.

Lemma rep_set_flags c l s sum count zc (b : bool) :
  rep c l s ->
  rep (c || b) l (let s := set_totals s sum count zc 0 in if b then set_collapsed s else s).
Proof.
  intros [H1 H2 H3 H4 H5 H6 H7 H8 H9 H10]. destruct H1 as [W1 W2 W3].
  destruct b; constructor; try done; simpl in *; try (by constructor).
  - rewrite orb_true_r. split; [by left|done].
  - by rewrite orb_false_r.
Qed.

(** C33: merging two sketches of one scale gives the sketch of the combined
    observations.  Each sketch holds a list of bucket observations with
    positive counts and indexes in [[-2^30, 2^30)], a sum and a zero count, its
    count is their total, and it has saturated no bin; the second one is not
    empty; together the observations are within 32 bits and the counts within
    64.  Then [Merge] does not panic, adds every count and the sums, keeps the
    window tight and the scale, saturates nothing, and collapses exactly what
    adding all the observations to one sketch would have collapsed.  Outside
    the bound on the indexes [Merge] can panic, as [add] does
    ([Delta.ObserveHistogram_panics]). *)
Theorem Merge_refines (l1 l2 : list (Z * Z)) (x1 x2 : f64) (z1 z2 : Z) (s1 s2 : Sketch) :
  holds l1 x1 z1 s1 -> holds l2 x2 z2 s2 -> sk_scale s1 = sk_scale s2 -> sk_count s2 <> 0 ->
  total l1 + total l2 <= MaxUint32 -> total l1 + z1 + total l2 + z2 < 2 ^ 64 ->
  exists s, Merge s1 (Some s2) = Some s /\ holds (l1 ++ l2) (fadd x1 x2) (z1 + z2) s /\
    sk_scale s = sk_scale s1.
Proof.
  intros [R1 S1 Z1 C1 T1 P1] [R2 S2 Z2 C2 T2 P2] Hsc Hc Ht Htz.
  pose proof (total_nonneg l1 (rep_pos _ _ _ R1)). pose proof (total_nonneg l2 (rep_pos _ _ _ R2)).
  change (2 ^ 64) with 18446744073709551616 in Htz.
  unfold Merge. destruct (sk_count s2 =? 0) eqn:E0; z_bool; [done|].
  rewrite Hsc, Z.ltb_irrefl. simpl mbind.
  rewrite S1, S2, Z1, Z2, C1, C2, T1, T2, !u64_small by lia. change (0 + 0) with 0.
  pose proof (rep_set_flags false l1 s1 (fadd x1 x2) (total l1 + z1 + (total l2 + z2)) (z1 + z2)
                (sk_collapsed s2) R1) as HF.
  set (s1' := if sk_collapsed s2 then _ else _) in *. simpl orb in HF.
  assert (sk_sum s1' = fadd x1 x2 /\ sk_zeroCount s1' = z1 + z2 /\
          sk_count s1' = total l1 + z1 + (total l2 + z2) /\ sk_saturations s1' = 0 /\
          sk_scale s1' = sk_scale s1) as (A1 & A2 & A3 & A4 & A5)
    by (unfold s1'; by destruct (sk_collapsed s2)).
  destruct (decide (l2 = [])) as [->|Hl2].
  - rewrite (proj1 (rep_empty _ _ _ R2) eq_refl). simpl negb. cbv iota. exists s1'.
    split; [done|]. rewrite app_nil_r. split; [|congruence].
    assert (sk_collapsed s2 = false) as HC.
    { destruct (sk_collapsed s2) eqn:E; [|done].
      apply (rep_collapsed _ _ _ R2) in E as [?|(p & Hp & _)]; [done|set_solver]. }
    rewrite HC in HF. constructor; try done; simpl in *; lia.
  - rewrite (rep_hasBins _ _ _ R2 Hl2). simpl negb. cbv iota.
    pose proof (window_spec s2 (rep_wf _ _ _ R2) (rep_hasBins _ _ _ R2 Hl2)) as HW.
    pose proof (window_covers _ _ _ R2 Hl2) as HC.
    destruct (window s2) as [w panic] eqn:EW. injection HW as EWw ->.
    rewrite add_window_add_all.
    assert (filter (fun p : Z * Z => snd p <> 0) w = nonzero_window s2) as ->
      by (unfold nonzero_window; by rewrite EW).
    destruct (add_all_rep _ l1 s1' (nonzero_window s2) HF) as (s & E & R & F).
    { by eapply nonzero_window_ok. }
    { by rewrite (cov_total _ _ _ HC). }
    rewrite E. simpl. exists s. split; [done|].
    destruct F as (F1 & F2 & F3 & F4 & F5).
    split; [|congruence]. constructor; try congruence; [|rewrite total_app, F2, A3; lia|lia].
    eapply (rep_absorb false (sk_collapsed s2) l1 l2 _ (floor_of s2)); [done|done| |apply R2|].
    + destruct (rep_max_in _ _ _ R2 Hl2) as (q & Hq & Eq).
      destruct (cov_onto _ _ _ HC q Hq) as (p & Hp & Ep).
      pose proof (rep_max _ _ _ R p ltac:(set_solver)). unfold floor_of. lia.
    + rewrite (rep_collapsed _ _ _ R2). naive_solver.
Qed.

Lemma holds_NewSketch : holds [] f_zero 0 NewSketch.
Proof. constructor; try done. apply rep_new. Qed.

(** Every list of observations is held by some sketch. *)
Lemma holds_exists (l : list (Z * Z)) :
  obs_ok l -> total l <= MaxUint32 -> exists s, holds l f_zero 0 s /\ sk_scale s = 4.
Proof.
  intros Hl Ht. destruct (add_all_rep false [] NewSketch l) as (s & _ & R & (F1 & F2 & F3 & F4 & F5));
    [apply rep_new|done|simpl; lia|].
  pose proof (total_nonneg l (obs_ok_pos l Hl)).
  exists (set_totals s f_zero (total l) 0 0). split; [|done].
  constructor; simpl; try done; try lia. simpl in R.
  destruct R as [[W1 W2 W3] R2 R3 R4 R5 R6 R7 R8 R9 R10].
  constructor; try done; by constructor.
Qed.

Lemma Merge_refines_witness :
  exists s1 s2, holds [(10, 3)] f_zero 0 s1 /\ holds [(900, 2); (1, 1)] f_zero 0 s2 /\
    exists s, Merge s1 (Some s2) = Some s /\
      holds [(10, 3); (900, 2); (1, 1)] (fadd f_zero f_zero) 0 s /\ sk_scale s = sk_scale s1.
Proof.
  destruct (holds_exists [(10, 3)]) as (s1 & H1 & S1); [apply (bool_decide_unpack _); vm_compute; exact I|by vm_compute|].
  destruct (holds_exists [(900, 2); (1, 1)]) as (s2 & H2 & S2);
    [apply (bool_decide_unpack _); vm_compute; exact I|by vm_compute|].
  exists s1, s2. split; [exact H1|]. split; [exact H2|].
  apply (Merge_refines [(10, 3)] [(900, 2); (1, 1)] f_zero f_zero 0 0 s1 s2 H1 H2);
    [congruence|rewrite (h_count _ _ _ _ H2); by vm_compute|by vm_compute|by vm_compute].
Defined.

(** Merging is commutative: the two orders give the same sketch, sums
    included, since float addition commutes. *)
Theorem Merge_comm (l1 l2 : list (Z * Z)) (x1 x2 : f64) (z1 z2 : Z) (s1 s2 : Sketch) :
  holds l1 x1 z1 s1 -> holds l2 x2 z2 s2 -> sk_scale s1 = sk_scale s2 ->
  l1 <> [] -> l2 <> [] ->
  total l1 + total l2 <= MaxUint32 -> total l1 + z1 + total l2 + z2 < 2 ^ 64 ->
  Merge s1 (Some s2) = Merge s2 (Some s1).
Proof.
  intros H1 H2 Hsc Hl1 Hl2 Ht Htz.
  assert (forall l x z s, l <> [] -> holds l x z s -> sk_count s <> 0) as Hcnt.
  { intros l x z s Hl H. rewrite (h_count _ _ _ _ H). pose proof (h_zero_range _ _ _ _ H).
    pose proof (rep_pos _ _ _ (h_rep _ _ _ _ H)) as HP. destruct l as [|[i n] l]; [done|].
    apply Forall_cons in HP as [Hn HP]. pose proof (total_nonneg l HP). simpl in *. lia. }
  destruct (Merge_refines l1 l2 x1 x2 z1 z2 s1 s2) as (s & E & R & S); eauto.
  destruct (Merge_refines l2 l1 x2 x1 z2 z1 s2 s1) as (s' & E' & R' & S'); eauto; [lia..|].
  rewrite E, E'. f_equal.
  destruct R as [R1 R2 R3 R4 R5 R6], R' as [R1' R2' R3' R4' R5' R6'].
  apply (rep_unique (l1 ++ l2) (l2 ++ l1)); try done; [apply Permutation_app_comm| |].
  - unfold same_frame. rewrite fadd_comm in R2'. rewrite Z.add_comm in R3'.
    split_and!; try congruence. rewrite R4, R4', !total_app. lia.
  - by destruct l1.
Qed.

Lemma Merge_comm_witness :
  exists s1 s2, holds [(10, 3)] f_zero 0 s1 /\ holds [(900, 2); (1, 1)] f_zero 0 s2 /\
    Merge s1 (Some s2) = Merge s2 (Some s1).
Proof.
  destruct (holds_exists [(10, 3)]) as (s1 & H1 & S1); [apply (bool_decide_unpack _); vm_compute; exact I|by vm_compute|].
  destruct (holds_exists [(900, 2); (1, 1)]) as (s2 & H2 & S2);
    [apply (bool_decide_unpack _); vm_compute; exact I|by vm_compute|].
  exists s1, s2. split; [exact H1|]. split; [exact H2|].
  apply (Merge_comm [(10, 3)] [(900, 2); (1, 1)] f_zero f_zero 0 0 s1 s2 H1 H2); [congruence|done|done|by vm_compute|by vm_compute].
Defined.

(** ** Downscaling *)

Fixpoint count_at (l : list (Z * Z)) (j : Z) : Z :=
  match l with
  | [] => 0
  | (i, n) :: l' => (if i =? j then n else 0) + count_at l' j
  end.

Definition shifted (sh : Z) (l : list (Z * Z)) : list (Z * Z) :=
  map (fun p => (Z.shiftr (fst p) sh, snd p)) l.

Lemma count_at_app l l' j : count_at (l ++ l') j = count_at l j + count_at l' j.
Proof. induction l as [|[i n] l IH]; simpl; [done|]. rewrite IH. lia. Qed.

Lemma count_at_range l j : Forall (fun p => 0 <= snd p) l -> 0 <= count_at l j <= total l.
Proof. induction 1 as [|[i n] l Hn _ IH]; simpl in *; [lia|]. split_ifs; lia. Qed.

Lemma total_shifted sh l : total (shifted sh l) = total l.
Proof. induction l as [|[i n] l IH]; simpl; [done|]. by rewrite IH. Qed.

Lemma count_at_seq a g n j :
  count_at (map (fun i : nat => (a + Z.of_nat i, g (a + Z.of_nat i))) (seq 0 n)) j =
  if (a <=? j) && (j <? a + Z.of_nat n) then g j else 0.
Proof.
  induction n as [|n IH]; [simpl; go_cases|].
  rewrite seq_S, map_app, count_at_app, IH. simpl. go_cases.
  all: try (f_equal; lia). all: subst; try lia.
Qed.

(** The window of a sketch is its count per bucket. *)
Lemma count_at_window s j :
  wf_sketch s -> sk_hasBins s = true -> count_at (fst (window s)) j = binAt s j.
Proof.
  intros Hwf Hh. pose proof (wf_win s Hwf Hh) as (Hm & HM & Hw & Hz).
  rewrite window_spec by done. cbn [fst]. rewrite count_at_seq.
  destruct (_ && _) eqn:E; [done|]. symmetry. unfold binAt. rewrite Hh.
  destruct (decide (j < sk_minIdx s)); [apply bget_out; [apply Hwf|lia]|]. apply Hz. z_bool. lia.
Qed.

Lemma total_window s :
  wf_sketch s -> sk_hasBins s = true -> total (fst (window s)) = bsum (sk_bins s) 512.
Proof.
  intros Hwf Hh. pose proof (wf_win s Hwf Hh) as (Hm & HM & Hw & Hz).
  rewrite window_spec by done. cbn [fst].
  rewrite (bsum_zero_tail _ (Z.to_nat (sk_maxIdx s - sk_minIdx s + 1)) 512)
    by (lia || (intros; apply Hz; lia)).
  induction (Z.to_nat _) as [|n IH]; [done|]. rewrite seq_S, map_app, total_app, IH. cbn [bsum].
  simpl. unfold binAt. rewrite Hh. replace (sk_minIdx s + Z.of_nat n - sk_minIdx s) with (Z.of_nat n) by lia. lia.
Qed.

Lemma shiftr_window a b sh :
  0 <= sh -> idx_ok a -> idx_ok b -> b <= a < b + 512 ->
  idx_ok (Z.shiftr a sh) /\ idx_ok (Z.shiftr b sh) /\
  0 <= Z.shiftr a sh - Z.shiftr b sh < 512.
Proof.
  intros Hs Ha Hb Hab. rewrite !Z.shiftr_div_pow2 by done.
  assert (0 < 2 ^ sh) as Hp by (by apply Z.pow_pos_nonneg). revert Hp. generalize (2 ^ sh). intros d Hd.
  assert (forall x, idx_ok x -> idx_ok (x / d)) as Hx.
  { intros x Hx. idx. split; [apply Z.div_le_lower_bound; nia|apply Z.div_lt_upper_bound; nia]. }
  split_and!; [auto|auto| |].
  - pose proof (Z.div_le_mono b a d). lia.
  - assert (a / d <= (b + (a - b) * d) / d) by (apply Z.div_le_mono; nia).
    rewrite Z.div_add in * by lia. lia.
Qed.

(** The loop of [downscale]: the new array counts what has been visited. *)
Lemma downscale_loop sh newMin w done_ folded bt sat :
  bins_ok folded -> Forall (fun p => 0 <= snd p) (done_ ++ w) -> total (done_ ++ w) <= MaxUint32 ->
  Forall (fun p => -2147483648 <= Z.shiftr (fst p) sh - newMin /\ 0 <= Z.shiftr (fst p) sh - newMin < 512) w ->
  (forall k, 0 <= k < 512 -> bget folded k = count_at (shifted sh done_) (newMin + k)) ->
  exists b, foldl (downscale_bin sh newMin) (Some (folded, bt, sat)) w = Some (b, bt, sat) /\
    bins_ok b /\
    forall k, 0 <= k < 512 -> bget b k = count_at (shifted sh (done_ ++ w)) (newMin + k).
Proof.
  revert done_ folded. induction w as [|[i c] w IH]; intros done_ folded Hb Hp Ht Hr Hc.
  { exists folded. rewrite app_nil_r. done. }
  replace (done_ ++ (i, c) :: w) with ((done_ ++ [(i, c)]) ++ w) in * by (by rewrite <- app_assoc).
  apply Forall_cons in Hr as [[Hr1 Hr2] Hr]. cbn [fst snd] in *.
  assert (0 <= c /\ 0 <= total w /\ count_at (shifted sh done_) (newMin + (Z.shiftr i sh - newMin)) <= total done_)
    as (Hc0 & Htw & Hcd).
  { rewrite !Forall_app, Forall_singleton in Hp. destruct Hp as [[Hd Hs] Hw]. simpl in Hs.
    assert (Forall (fun p => 0 <= snd p) (shifted sh done_)) as Hd' by (by apply Forall_map).
    pose proof (count_at_range _ (newMin + (Z.shiftr i sh - newMin)) Hd'). rewrite total_shifted in *.
    pose proof (count_at_range w 0 Hw). lia. }
  assert (total done_ + c + total w <= MaxUint32) as Ht' by (rewrite !total_app in Ht; simpl in Ht; lia).
  cbn [foldl]. unfold downscale_bin at 2. cbn [mbind option_bind]. destruct (c =? 0) eqn:E; z_bool.
  - subst c. apply IH; try done. intros k Hk. unfold shifted. rewrite map_app, count_at_app. simpl.
    rewrite Hc by done. fold (shifted sh done_). by destruct (_ =? _); rewrite !Z.add_0_r.
  - rewrite i32_small by lia. rewrite bins_at_get by (apply Hb || lia). cbn [mbind option_bind].
    rewrite Hc by lia. set (cur := count_at _ _) in *.
    assert (0 <= cur) by (unfold cur; rewrite <- Hc by lia; by apply bget_range).
    unfold MaxUint32 in *. rewrite u64_small by lia.
    destruct (4294967295 <? cur + c) eqn:E2; z_bool; [lia|]. rewrite u32_small by lia.
    apply IH; try done.
    + apply bins_ok_insert; [done|]. unfold MaxUint32. lia.
    + intros k Hk. rewrite bget_insert by (apply Hb || lia). unfold shifted.
      rewrite map_app, count_at_app. fold (shifted sh done_). simpl.
      case_decide as D; [subst k|rewrite Hc by done]; destruct (_ =? _) eqn:E3; z_bool; fold cur; lia.
Qed.

(** Downscaling is exact: a sketch whose bins fit 32 bits in total is
    rebuilt at the coarser scale without panic or saturation, every bucket of
    the result counts exactly the buckets whose index shifts onto it, and no
    total changes. *)
Theorem downscale_exact (s : Sketch) (target : Z) :
  wf_sketch s -> sk_hasBins s = true -> target < sk_scale s ->
  bsum (sk_bins s) 512 <= MaxUint32 ->
  exists s', downscale s target = Some s' /\ wf_sketch s' /\ sk_scale s' = target /\
    sk_count s' = sk_count s /\ sk_binTotal s' = sk_binTotal s /\
    sk_saturations s' = sk_saturations s /\
    forall j, binAt s' j = count_at (shifted (sk_scale s - target) (fst (window s))) j.
Proof.
  intros Hwf Hh Hlt Hsum. pose proof (wf_win s Hwf Hh) as (Hm & HM & Hw & Hz).
  unfold downscale. destruct (sk_scale s <=? target) eqn:E; z_bool; [lia|].
  change (sk_hasBins (set_scale s target)) with (sk_hasBins s). rewrite Hh. simpl negb. cbv iota.
  change (window (set_scale s target)) with (window s).
  change (sk_minIdx (set_scale s target)) with (sk_minIdx s).
  change (sk_maxIdx (set_scale s target)) with (sk_maxIdx s).
  set (sh := sk_scale s - target). assert (0 <= sh) by (unfold sh; lia).
  pose proof (total_window s Hwf Hh) as HT. pose proof (window_spec s Hwf Hh) as HW.
  pose proof (count_at_window s) as HCW.
  destruct (window s) as [w panic] eqn:EW. cbn [fst] in HT. injection HW as Ew ->.
  assert (Forall (fun p => 0 <= snd p /\ sk_minIdx s <= fst p <= sk_maxIdx s) w) as HFw.
  { rewrite Ew. apply Forall_forall. intros p (i & -> & Hi)%list_elem_of_fmap. apply elem_of_seq in Hi.
    simpl. split; [|lia]. unfold binAt. rewrite Hh. by apply bget_range, Hwf. }
  destruct (shiftr_window (sk_maxIdx s) (sk_minIdx s) sh) as (S1 & S2 & S3); try done.
  destruct (downscale_loop sh (Z.shiftr (sk_minIdx s) sh) w [] zero_bins (sk_binTotal s) (sk_saturations s))
    as (b & HB & Hbb & Hbg).
  { apply bins_ok_zero. }
  { simpl. eapply Forall_impl; [exact HFw|]. by intros ? []. }
  { rewrite app_nil_l, HT. exact Hsum. }
  { eapply Forall_impl; [exact HFw|]. intros p [_ Hp]. simpl.
    assert (idx_ok (fst p)) as Hpi by (idx; lia).
    destruct (shiftr_window (fst p) (sk_minIdx s) sh) as (P1 & P2 & P3); [done..|lia|]. lia. }
  { intros k _. simpl. apply bget_zero. }
  simpl mbind. rewrite HB. simpl. eexists. split; [reflexivity|]. simpl in Hbg.
  assert (forall j, j < Z.shiftr (sk_minIdx s) sh \/ Z.shiftr (sk_maxIdx s) sh < j ->
    count_at (shifted sh w) j = 0) as Hout.
  { intros j Hj. clear -HFw Hj Hm HM Hw H. induction HFw as [|[i c] w [Hc Hi] _ IH]; [done|]. simpl in *.
    rewrite IH. destruct (_ =? _) eqn:E; [|done]. z_bool. subst j. exfalso.
    rewrite !Z.shiftr_div_pow2 in Hj by done. assert (0 < 2 ^ sh) by (by apply Z.pow_pos_nonneg).
    pose proof (Z.div_le_mono (sk_minIdx s) i (2 ^ sh)). pose proof (Z.div_le_mono i (sk_maxIdx s) (2 ^ sh)). lia. }
  split_and!; try done.
  - constructor; simpl; [done|by rewrite Hh|]. intros _. split_and!; [done|done|lia|lia|].
    intros k Hk. destruct (decide (k < 512)); [|apply bget_out; [apply Hbb|lia]].
    rewrite Hbg by lia. apply Hout. lia.
  - intros j. unfold binAt. simpl. rewrite Hh.
    destruct (decide (0 <= j - Z.shiftr (sk_minIdx s) sh < 512)).
    + rewrite Hbg by lia. f_equal; lia.
    + rewrite bget_out by (apply Hbb || lia). symmetry. apply Hout. lia.
Qed.

Lemma downscale_exact_witness :
  exists s, wf_sketch s /\ sk_hasBins s = true /\ 2 < sk_scale s /\
    bsum (sk_bins s) 512 <= MaxUint32 /\
    exists s', downscale s 2 = Some s' /\ wf_sketch s' /\ sk_scale s' = 2 /\
      sk_count s' = sk_count s /\ sk_binTotal s' = sk_binTotal s /\
      sk_saturations s' = sk_saturations s /\
      forall j, binAt s' j = count_at (shifted (sk_scale s - 2) (fst (window s))) j.
Proof.
  destruct (add_all_rep false [] NewSketch [(17, 5); (-3, 2)]) as (s & _ & R & (_ & _ & _ & _ & F5));
    [apply rep_new|apply (bool_decide_unpack _); vm_compute; exact I|by vm_compute|].
  exists s. assert (wf_sketch s) as H1 by apply R.
  assert (sk_hasBins s = true) as H2 by (apply (rep_hasBins _ _ _ R); done).
  assert (2 < sk_scale s) as H3 by (rewrite F5; by vm_compute).
  assert (bsum (sk_bins s) 512 <= MaxUint32) as H4
    by (rewrite (rep_bsum_all _ _ _ R); [by vm_compute|done]).
  split; [exact H1|]. split; [exact H2|]. split; [exact H3|]. split; [exact H4|].
  exact (downscale_exact s 2 H1 H2 H3 H4).
Defined.
