(* ===== verification/SketchQuantile.v ===== *)
(** * SketchQuantile: what [Sketch.Quantile] returns, and the limits of the bins

    The functional specification of the quantile scan of
    [internal/aggregate/sketch.go], the merge witness, and executable examples
    of the arithmetic at the edge of the machine integers. *)
From S2P Require Import Prelude Float64 Sketch.

Section Quantiles.
  Context `{GoMath}.

(** Zero count plus the bins at or below bucket [j]. *)
Definition cumAt (s : Sketch) (j : Z) : Z :=
  sk_zeroCount s + bsum (sk_bins s) (Z.to_nat (j - sk_minIdx s + 1)).

(** The scan over the slots [k .. k+n) of a window starting at [a]. *)
Lemma quantile_scan_spec b a z rank n k :
  bins_ok b -> 0 <= z -> z + bsum b (k + n) < 2 ^ 64 ->
  let w := map (fun i : nat => (a + Z.of_nat i, bget b (Z.of_nat i))) (seq k n) in
  let hit i := fgt (f_of_Z (z + bsum b (S i))) rank in
  match quantile_scan w (z + bsum b k) rank with
  | Some j => exists i : nat, j = a + Z.of_nat i /\ (k <= i < k + n)%nat /\
      bget b (Z.of_nat i) <> 0 /\ hit i = true /\
      (forall i', (k <= i' < i)%nat -> bget b (Z.of_nat i') <> 0 -> hit i' = false)
  | None => forall i', (k <= i' < k + n)%nat -> bget b (Z.of_nat i') <> 0 -> hit i' = false
  end.
Proof.
  intros Hb Hz. revert k. induction n as [|n IH]; intros k Hs; [simpl; intros; lia|].
  specialize (IH (S k)). replace (S k + n)%nat with (k + S n)%nat in IH by lia.
  specialize (IH Hs). cbn zeta in IH |- *. cbn [seq map quantile_scan].
  change (bsum b (S k)) with (bsum b k + bget b (Z.of_nat k)) in IH.
  pose proof (bget_range b (Z.of_nat k) Hb) as Hr.
  destruct (bget b (Z.of_nat k) =? 0) eqn:E; z_bool.
  - rewrite E, Z.add_0_r in IH. destruct (quantile_scan _ _ _).
    + destruct IH as (i & -> & Hi & Hn & Hh & Hlt). exists i. split_and!; try done; try lia.
      intros i' Hi' Hn'. apply Hlt; [|done]. destruct (decide (i' = k)); [subst; done|lia].
    + intros i' Hi' Hn'. apply IH; [|done]. destruct (decide (i' = k)); [subst; done|lia].
  - assert (z + bsum b k + bget b (Z.of_nat k) < 2 ^ 64) as Hlt.
    { pose proof (bsum_mono b (S k) (k + S n) Hb ltac:(lia)) as HM. cbn [bsum] in HM. lia. }
    pose proof (bsum_nonneg b k Hb).
    rewrite u64_small by (change (2 ^ 64) with 18446744073709551616 in Hlt; lia).
    rewrite <- Z.add_assoc.
    change (bsum b k + bget b (Z.of_nat k)) with (bsum b (S k)) in IH |- *.
    destruct (fgt (f_of_Z (z + bsum b (S k))) rank) eqn:EH.
    + exists k. split_and!; try done; intros; lia.
    + destruct (quantile_scan _ _ _).
      * destruct IH as (i & -> & Hi & Hn & Hh & Hf). exists i. split_and!; try done; try lia.
        intros i' Hi' Hn'. destruct (decide (i' = k)); [by subst|]. apply Hf; [lia|done].
      * intros i' Hi' Hn'. destruct (decide (i' = k)); [by subst|]. apply IH; [lia|done].
Qed.

(** On a well-formed sketch and a quantile in [0,1], [Quantile] returns
    (it never panics) zero when the zero count alone exceeds the rank, and
    otherwise the representative of the first populated bucket whose cumulative
    count exceeds the rank; the last bucket is the fallback when float rounding
    leaves none. *)
Theorem Quantile_spec (s : Sketch) (q : f64) :
  wf_sketch s -> sk_hasBins s = true ->
  f_is_nan q || flt q f_zero || fgt q f_one = false ->
  0 <= sk_zeroCount s -> sk_binTotal s = bsum (sk_bins s) 512 ->
  0 < sk_zeroCount s + sk_binTotal s < 2 ^ 64 ->
  let rank := fmul q (f_of_Z (sk_zeroCount s + sk_binTotal s - 1)) in
  exists v, Quantile s q = Some v /\
    if fgt (f_of_Z (sk_zeroCount s)) rank then v = f_zero
    else exists i, v = sketchValue i (sk_scale s) /\ sk_minIdx s <= i <= sk_maxIdx s /\
      (forall j, sk_minIdx s <= j < i -> binAt s j <> 0 -> fgt (f_of_Z (cumAt s j)) rank = false) /\
      (binAt s i <> 0 /\ fgt (f_of_Z (cumAt s i)) rank = true \/
       i = sk_maxIdx s /\ (binAt s i <> 0 -> fgt (f_of_Z (cumAt s i)) rank = false)).
Proof.
  intros Hwf Hh Hq Hz Hbt Ht rank. pose proof (wf_win s Hwf Hh) as (Hm & HM & Hw & Hzt).
  change (2 ^ 64) with 18446744073709551616 in Ht.
  unfold Quantile. rewrite Hq, u64_small by lia.
  destruct (_ =? 0) eqn:E0; z_bool; [lia|]. rewrite u64_small by lia. fold rank.
  destruct (fgt (f_of_Z (sk_zeroCount s)) rank) eqn:EZ; [by exists f_zero|].
  rewrite Hh. simpl negb. cbv iota.
  pose proof (window_spec s Hwf Hh) as HW. destruct (window s) as [w panic].
  injection HW as Ew ->. set (n := Z.to_nat (sk_maxIdx s - sk_minIdx s + 1)) in *.
  assert (bsum (sk_bins s) 512 = bsum (sk_bins s) n) as Hsum
    by (apply bsum_zero_tail; [unfold n; lia|]; intros k Hk; apply Hzt; unfold n in Hk; lia).
  pose proof (quantile_scan_spec (sk_bins s) (sk_minIdx s) (sk_zeroCount s) rank n 0 (wf_bins s Hwf) Hz)
    as HS. rewrite Nat.add_0_l, <- Hsum, <- Hbt in HS. specialize (HS (proj2 Ht)). cbv zeta in HS.
  assert (w = map (fun i : nat => (sk_minIdx s + Z.of_nat i, bget (sk_bins s) (Z.of_nat i))) (seq 0 n)) as Ew'.
  { rewrite Ew. apply map_ext. intros i. unfold binAt. rewrite Hh. f_equal. f_equal. lia. }
  rewrite <- Ew' in HS. change (bsum (sk_bins s) 0) with 0 in HS. rewrite Z.add_0_r in HS.
  assert (forall j, sk_minIdx s <= j -> binAt s j = bget (sk_bins s) (Z.of_nat (Z.to_nat (j - sk_minIdx s))) /\
    cumAt s j = sk_zeroCount s + bsum (sk_bins s) (S (Z.to_nat (j - sk_minIdx s)))) as HJ.
  { intros j Hj. unfold binAt, cumAt. rewrite Hh, Z2Nat.id by lia. split; [done|].
    do 2 f_equal. lia. }
  destruct (quantile_scan w _ rank) as [j|].
  - destruct HS as (i & -> & Hi & Hn & Hhit & Hlt). eexists. split; [done|].
    exists (sk_minIdx s + Z.of_nat i). split; [done|]. split; [unfold n in Hi; lia|].
    assert (Z.to_nat (sk_minIdx s + Z.of_nat i - sk_minIdx s) = i) as Ei by lia.
    split; [|left; destruct (HJ (sk_minIdx s + Z.of_nat i) ltac:(lia)) as [-> ->]; by rewrite Ei].
    intros j Hj. destruct (HJ j ltac:(lia)) as [-> ->]. apply Hlt. lia.
  - eexists. split; [done|]. exists (sk_maxIdx s). split; [done|]. split; [lia|].
    split; [|right; split; [done|]].
    + intros j Hj. destruct (HJ j ltac:(lia)) as [-> ->]. apply HS. unfold n. lia.
    + destruct (HJ (sk_maxIdx s) ltac:(lia)) as [-> ->]. apply HS. unfold n. lia.
Qed.

End Quantiles.

(** Concrete stand-ins for the two transcendental functions, for the examples. *)
Definition demo_math : GoMath := {| math_Log := fun x => x; math_Exp2 := fun x => x |}.

Lemma Quantile_spec_witness :
  exists s, add_all NewSketch [(10, 3); (12, 2)] = Some s /\
    exists v, Quantile (H := demo_math) s f_half = Some v /\ v = sketchValue (H := demo_math) 10 4.
Proof.
  destruct (add_all_rep false [] NewSketch [(10, 3); (12, 2)]) as (s & E & R & (F1 & F2 & F3 & F4 & F5));
    [apply rep_new|apply (bool_decide_unpack _); vm_compute; exact I|by vm_compute|].
  exists s. split; [exact E|].
  assert (sk_binTotal s = 5) as HB by (revert E; vm_compute; by intros [= <-]).
  destruct (Quantile_spec (H := demo_math) s f_half) as (v & Ev & HV);
    [apply R|apply (rep_hasBins _ _ _ R); done|by vm_compute| | | |].
  - rewrite F3. by vm_compute.
  - rewrite (rep_bsum_all _ _ _ R), HB by done. by vm_compute.
  - rewrite F3, HB. by vm_compute.
  - exists v. split; [exact Ev|]. clear -E Ev. vm_compute in E. injection E as <-.
    revert Ev. vm_compute. by intros [= <-].
Defined.
