(* ===== verification/SketchCodec.v ===== *)
(** * SketchCodec: the serialized sketch ([internal/aggregate/sketch_codec.go])

    The reader is the unread suffix of the input, so [r.pos] is the length of
    the input less the length of the suffix.  A codec error is the sentinel the
    message wraps; [None] is a bounds panic. *)
From S2P Require Import Prelude Float64 Varint Sketch.

(* internal/aggregate/sketch_codec.go:33-47 SketchEncodingVersion *)
Definition SketchEncodingVersion : Z := 1.
Definition SketchMaxSerializedBins : Z := 256.
Definition sketchFlagCollapsed : Z := 1.
Definition sketchHeaderLen : nat := 3.

(* internal/aggregate/sketch_codec.go:49-58 ErrSketchVersion *)
Inductive codec_error := ErrSketchVersion | ErrSketchTruncated | ErrSketchCorrupt | ErrCodecScale.

(** The loops [for i := s.minIdx; ...] that stop at the first populated slot. *)
Definition first_populated (w : list (Z * Z)) : option Z :=
  match filter (fun p : Z * Z => snd p <> 0) w with
  | [] => None
  | (i, _) :: _ => Some i
  end.

(* internal/aggregate/sketch_codec.go:110-120 Sketch.firstPopulated *)
Definition firstPopulated (s : Sketch) : option (option Z) :=
  if negb (sk_hasBins s) then Some None
  else
    let '(w, panic) := window s in
    match first_populated w with
    | Some i => Some (Some i)
    | None => if (panic : bool) then None else Some None
    end.

(** The loop of [AppendTo] over the bins from the first populated one. *)
Fixpoint append_bins (dst : bytes) (prev : Z) (w : list (Z * Z)) : bytes :=
  match w with
  | [] => dst
  | (i, c) :: w' =>
      if c =? 0 then append_bins dst prev w'
      else append_bins (AppendUvarint (AppendUvarint dst (u64 (i32 (i - prev)))) c) i w'
  end.

(* internal/aggregate/sketch_codec.go:65-107 Sketch.AppendTo *)
Definition AppendTo (s : Sketch) (dst : bytes) : option bytes :=
  pop ← PopulatedBins s;
  src ← (if SketchMaxSerializedBins <? pop
         then collapseToBinCap s SketchMaxSerializedBins else Some s);
  let flags := if sk_collapsed src then Z.lor 0 sketchFlagCollapsed else 0 in
  let dst := dst ++ [SketchEncodingVersion; sk_scale src; flags] in
  let dst := AppendUvarint dst (sk_zeroCount src) in
  let dst := AppendUvarint dst (sk_count src) in
  let dst := dst ++ le_put 8 (Float64bits (sk_sum src)) in
  n ← PopulatedBins src;
  let dst := AppendUvarint dst (u64 n) in
  first ← firstPopulated src;
  match first with
  | None => Some (AppendVarint dst 0)
  | Some first =>
      let dst := AppendVarint dst first in
      let '(w, panic) := window_from 513 src first in
      if (panic : bool) then None else Some (append_bins dst first w)
  end.

(* internal/aggregate/sketch_codec.go:60-63 Sketch.Encode *)
Definition Encode (s : Sketch) : option bytes := AppendTo s [].

(* internal/aggregate/sketch_codec.go:277-287 sketchReader.uvarint *)
Definition r_uvarint (r : bytes) : result codec_error (Z * bytes) :=
  let '(v, n) := Uvarint r in
  if n =? 0 then Err ErrSketchTruncated
  else if n <? 0 then Err ErrSketchCorrupt
  else Ok (v, drop (Z.to_nat n) r).

(* internal/aggregate/sketch_codec.go:289-299 sketchReader.varint *)
Definition r_varint (r : bytes) : result codec_error (Z * bytes) :=
  let '(v, n) := Varint r in
  if n =? 0 then Err ErrSketchTruncated
  else if n <? 0 then Err ErrSketchCorrupt
  else Ok (v, drop (Z.to_nat n) r).

(* internal/aggregate/sketch_codec.go:301-308 sketchReader.uint64 *)
Definition r_uint64 (r : bytes) : result codec_error (Z * bytes) :=
  if (length r <? 8)%nat then Err ErrSketchTruncated
  else Ok (le_get (take 8 r), drop 8 r).

(* internal/aggregate/sketch_codec.go:206-215 Sketch.reset *)
Definition reset (s : Sketch) : option Sketch :=
  b ← (if sk_hasBins s then bclear (sk_bins s) 0 (i32 (i32 (sk_maxIdx s - sk_minIdx s) + 1))
       else Some (sk_bins s));
  Some (mkSketch f_zero 0 0 0 0 0 0 0 false false b).

(** One turn of the loop of [decodeBins]: the reader, the sketch and the bucket
    index after it; the check on the span keeps the array access in range. *)
Definition decode_bin (isFirst : bool) (firstIndex : Z) (st : bytes * Sketch * Z)
    : result codec_error (bytes * Sketch * Z) :=
  let '(r, s, index) := st in
  let? (delta, r) := r_uvarint r in
  if isFirst && negb (delta =? 0) then Err ErrSketchCorrupt
  else if negb isFirst && (delta =? 0) then Err ErrSketchCorrupt
  else if SketchMaxBins <=? delta then Err ErrSketchCorrupt
  else
    let index := index + delta in
    if SketchMaxBins <=? index - firstIndex then Err ErrSketchCorrupt
    else
      let? (binCount, r) := r_uvarint r in
      if binCount =? 0 then Err ErrSketchCorrupt
      else if MaxUint32 <? binCount then Err ErrSketchCorrupt
      else
        Ok (r, set_binTotal (set_bins s (<[Z.to_nat (index - firstIndex) := binCount]> (sk_bins s)))
                 (u64 (sk_binTotal s + binCount)), index).

Fixpoint decode_bin_loop (n : nat) (isFirst : bool) (firstIndex : Z) (st : bytes * Sketch * Z)
    : result codec_error (bytes * Sketch * Z) :=
  match n with
  | O => Ok st
  | S n' => let? st := decode_bin isFirst firstIndex st in decode_bin_loop n' false firstIndex st
  end.

(* internal/aggregate/sketch_codec.go:217-268 decodeBins *)
Definition decodeBins (r : bytes) (s : Sketch) (numBins firstIndex : Z)
    : result codec_error (bytes * Sketch) :=
  if numBins =? 0 then
    if negb (firstIndex =? 0) then Err ErrSketchCorrupt else Ok (r, s)
  else if (firstIndex <? MinInt32) || (MaxInt32 <? firstIndex) then Err ErrSketchCorrupt
  else
    let? (r, s, index) := decode_bin_loop (Z.to_nat numBins) true firstIndex (r, s, firstIndex) in
    Ok (r, set_window (set_hasBins s) (i32 firstIndex) (i32 index)).

(* internal/aggregate/sketch_codec.go:138-204 DecodeSketchInto *)
Definition DecodeSketchInto (dst : Sketch) (data : bytes) : option (result codec_error Sketch) :=
  match data with
  | version :: scale :: flags :: r =>
      if negb (version =? SketchEncodingVersion) then Some (Err ErrSketchVersion)
      else if SketchMaxScale <? scale then Some (Err ErrCodecScale)
      else if negb (Z.land flags (255 - sketchFlagCollapsed) =? 0) then Some (Err ErrSketchCorrupt)
      else
        let header :=
          let? (zeroCount, r) := r_uvarint r in
          let? (count, r) := r_uvarint r in
          let? (bits, r) := r_uint64 r in
          let sum := Float64frombits bits in
          if f_is_nan sum || f_is_inf sum then Err ErrSketchCorrupt
          else
            let? (numBins, r) := r_uvarint r in
            if SketchMaxSerializedBins <? numBins then Err ErrSketchCorrupt
            else
              let? (firstIndex, r) := r_varint r in
              Ok (zeroCount, count, sum, numBins, firstIndex, r) in
        match header with
        | Err e => Some (Err e)
        | Ok (zeroCount, count, sum, numBins, firstIndex, r) =>
            d ← reset dst;
            let d := set_totals (set_scale d scale) sum count zeroCount (sk_saturations d) in
            let d := if negb (Z.land flags sketchFlagCollapsed =? 0) then set_collapsed d else d in
            Some
              (let? (r, d) := decodeBins r d numBins firstIndex in
               if negb (length r =? 0)%nat then Err ErrSketchCorrupt
               else if (count <? zeroCount) || (u64 (count - zeroCount) <? sk_binTotal d)
               then Err ErrSketchCorrupt
               else Ok d)
        end
  | _ => Some (Err ErrSketchTruncated)
  end.

(* internal/aggregate/sketch_codec.go:122-136 DecodeSketch *)
Definition DecodeSketch (data : bytes) : option (result codec_error Sketch) :=
  DecodeSketchInto (empty_sketch 0) data.

(** ** Totality: decoding never panics *)

Lemma reset_wf s : wf_sketch s -> reset s = Some (empty_sketch 0).
Proof.
  intros Hwf. unfold reset, empty_sketch. destruct (sk_hasBins s) eqn:Hh.
  - pose proof (wf_win s Hwf Hh) as (Hm & HM & Hw & Hz). i32s.
    destruct (bclear_spec (sk_bins s) 0 (sk_maxIdx s - sk_minIdx s + 1)) as (b & -> & Hl & Hg);
      [apply Hwf|lia|lia|].
    simpl. do 2 f_equal. apply bget_ext; [done|apply bins_ok_zero|]. intros k Hk. rewrite Hg, bget_zero.
    case_decide; [done|]. apply Hz. lia.
  - simpl. by rewrite (wf_empty s Hwf Hh).
Qed.

(** Decoding is total: whatever the bytes and whatever well-formed sketch
    the scratch buffer held, [DecodeSketchInto] returns a sketch or one of the
    typed errors and never panics, and what the buffer held does not matter. *)
Theorem decode_total (dst : Sketch) (data : bytes) :
  wf_sketch dst ->
  exists r, DecodeSketchInto dst data = Some r /\ DecodeSketch data = Some r.
Proof.
  intros Hwf. unfold DecodeSketch, DecodeSketchInto.
  destruct data as [|v [|sc [|fl r]]]; eauto.
  destruct (negb _); [eauto|]. destruct (_ <? _); [eauto|]. destruct (negb _); [eauto|].
  destruct (rbind _ _) as [[[[[[zc ct] sum] nb] fi] r']|e]; [|eauto].
  rewrite (reset_wf dst Hwf), (reset_wf (empty_sketch 0) (wf_empty_sketch 0)). simpl mbind. eauto.
Qed.

Lemma decode_total_witness :
  wf_sketch NewSketch /\ exists r, DecodeSketchInto NewSketch [1; 4; 0] = Some r /\ DecodeSketch [1; 4; 0] = Some r.
Proof. split; [apply wf_empty_sketch|apply (decode_total NewSketch [1; 4; 0] (wf_empty_sketch _))]. Defined.

(** ** The encoding as a function of the populated bins *)

(** The populated buckets in ascending order. *)
Definition nzw (s : Sketch) : list (Z * Z) := if sk_hasBins s then nonzero_window s else [].

(** Strictly ascending indexes above [prev], with counts a bin can hold. *)
Fixpoint asc (prev : Z) (w : list (Z * Z)) : Prop :=
  match w with
  | [] => True
  | (i, c) :: w' => prev < i /\ 0 < c <= MaxUint32 /\ asc i w'
  end.

Lemma asc_weaken p q w : p <= q -> asc q w -> asc p w.
Proof. destruct w as [|[i c] w]; simpl; [done|]. intros ? (? & ? & ?). split_and!; (done || lia). Qed.

Lemma asc_count_low p w j : asc p w -> j <= p -> count_at w j = 0.
Proof.
  revert p. induction w as [|[i c] w IH]; intros p; simpl; [done|]. intros (Hi & _ & Ha) Hj.
  rewrite (IH i) by (done || lia). destruct (i =? j) eqn:E; z_bool; lia.
Qed.

(** Ascending lists are determined by their counts. *)
Lemma asc_ext p w1 w2 :
  asc p w1 -> asc p w2 -> (forall j, count_at w1 j = count_at w2 j) -> w1 = w2.
Proof.
  revert p w2. induction w1 as [|[i c] w1 IH]; intros p [|[i' c'] w2]; simpl; try done.
  - intros _ (Hi & Hc & Ha) HE. specialize (HE i'). rewrite Z.eqb_refl, (asc_count_low i') in HE by (done || lia). lia.
  - intros (Hi & Hc & Ha) _ HE. specialize (HE i). rewrite Z.eqb_refl, (asc_count_low i) in HE by (done || lia). lia.
  - intros (Hi & Hc & Ha) (Hi' & Hc' & Ha') HE.
    assert (i = i') as <-.
    { destruct (Z.lt_trichotomy i i') as [|[|]]; [exfalso|done|exfalso].
      - specialize (HE i). rewrite Z.eqb_refl in HE. destruct (Z.eqb_spec i' i); [lia|].
        rewrite (asc_count_low i), (asc_count_low i' w2) in HE by (done || lia). lia.
      - specialize (HE i'). rewrite Z.eqb_refl in HE. destruct (Z.eqb_spec i i'); [lia|].
        rewrite (asc_count_low i), (asc_count_low i' w2) in HE by (done || lia). lia. }
    assert (c = c') as <-.
    { specialize (HE i). rewrite Z.eqb_refl, !(asc_count_low i) in HE by (done || lia). lia. }
    f_equal. apply (IH i); try done. intros j. specialize (HE j). lia.
Qed.

Lemma asc_seq (g : Z -> Z) a n k :
  (forall j, 0 <= g j <= MaxUint32) ->
  asc (a + Z.of_nat k - 1)
    (filter (fun p : Z * Z => snd p <> 0) (map (fun i : nat => (a + Z.of_nat i, g (a + Z.of_nat i))) (seq k n))).
Proof.
  intros Hg. revert k. induction n as [|n IH]; intros k; [done|]. cbn [seq map]. rewrite filter_cons.
  specialize (IH (S k)). case_decide as D; simpl in D.
  - cbn [asc]. pose proof (Hg (a + Z.of_nat k)). split_and!; try lia. eapply asc_weaken; [|exact IH]. lia.
  - eapply asc_weaken; [|exact IH]. lia.
Qed.

Lemma count_at_filter w j : count_at (filter (fun p : Z * Z => snd p <> 0) w) j = count_at w j.
Proof.
  induction w as [|[i c] w IH]; [done|]. rewrite filter_cons. case_decide as D; simpl in *; rewrite IH; [done|].
  assert (c = 0) as -> by lia. by destruct (_ =? _).
Qed.

Lemma count_nzw s j : wf_sketch s -> count_at (nzw s) j = binAt s j.
Proof.
  intros Hwf. unfold nzw, nonzero_window. destruct (sk_hasBins s) eqn:Hh.
  - by rewrite count_at_filter, count_at_window.
  - unfold binAt. by rewrite Hh.
Qed.

Lemma nzw_asc s : wf_sketch s -> asc (sk_minIdx s - 1) (nzw s).
Proof.
  intros Hwf. unfold nzw, nonzero_window. destruct (sk_hasBins s) eqn:Hh; [|done].
  rewrite window_spec by done. cbn [fst].
  pose proof (asc_seq (binAt s) (sk_minIdx s) (Z.to_nat (sk_maxIdx s - sk_minIdx s + 1)) 0) as H.
  rewrite Z.add_0_r in H. apply H. intros j. unfold binAt. rewrite Hh. apply bget_range, Hwf.
Qed.

Lemma nzw_range s p : wf_sketch s -> p ∈ nzw s -> idx_ok (fst p) /\ sk_minIdx s <= fst p <= sk_maxIdx s.
Proof.
  intros Hwf. unfold nzw, nonzero_window. destruct (sk_hasBins s) eqn:Hh; [|set_solver].
  pose proof (wf_win s Hwf Hh) as (Hm & HM & Hw & Hz). rewrite window_spec by done. cbn [fst].
  intros [_ (i & -> & Hi)%list_elem_of_fmap]%list_elem_of_filter. apply elem_of_seq in Hi. simpl. idx. lia.
Qed.

Lemma PopulatedBins_spec s : wf_sketch s -> PopulatedBins s = Some (Z.of_nat (length (nzw s))).
Proof.
  intros Hwf. unfold PopulatedBins, nzw, nonzero_window. destruct (sk_hasBins s) eqn:Hh; [|done].
  simpl negb. cbv iota. pose proof (window_spec s Hwf Hh) as HW. destruct (window s) as [w pn].
  by injection HW as -> ->.
Qed.

#[local] Opaque put_uvarint.

Lemma append_bins_app dst prev w : append_bins dst prev w = dst ++ append_bins [] prev w.
Proof.
  revert dst prev. induction w as [|[i c] w IH]; intros dst prev; simpl; [by rewrite app_nil_r|].
  destruct (c =? 0); [apply IH|]. rewrite IH, (IH (AppendUvarint (AppendUvarint [] _) _)).
  unfold AppendUvarint. rewrite app_nil_l, <- !app_assoc. done.
Qed.

Lemma append_bins_filter dst prev w :
  append_bins dst prev w = append_bins dst prev (filter (fun p : Z * Z => snd p <> 0) w).
Proof.
  revert dst prev. induction w as [|[i c] w IH]; intros dst prev; [done|]. rewrite filter_cons.
  case_decide as D; simpl in *; destruct (Z.eqb_spec c 0); try lia; apply IH.
Qed.

(** The bytes of a sketch's fields and populated bins [w]. *)
Definition encoding (scale zc ct : Z) (sum : f64) (collapsed : bool) (w : list (Z * Z)) : bytes :=
  [1; scale; if collapsed then 1 else 0] ++ AppendUvarint [] zc ++ AppendUvarint [] ct ++
  le_put 8 (Float64bits sum) ++ AppendUvarint [] (Z.of_nat (length w)) ++
  match w with
  | [] => AppendVarint [] 0
  | (i, _) :: _ => AppendVarint [] i ++ append_bins [] i w
  end.

Definition encoding_of (s : Sketch) : bytes :=
  encoding (sk_scale s) (sk_zeroCount s) (sk_count s) (sk_sum s) (sk_collapsed s) (nzw s).

Lemma window_from_first s first c rest :
  wf_sketch s -> nzw s = (first, c) :: rest ->
  exists w, window_from 513 s first = (w, false) /\
    filter (fun p : Z * Z => snd p <> 0) w = nzw s.
Proof.
  intros Hwf Hnz. assert (sk_hasBins s = true) as Hh by (unfold nzw in Hnz; by destruct (sk_hasBins s)).
  pose proof (wf_win s Hwf Hh) as (Hm & HM & Hw & Hz).
  pose proof (nzw_range s (first, c) Hwf ltac:(rewrite Hnz; set_solver)) as [_ Hf]. simpl in Hf.
  set (k := Z.to_nat (first - sk_minIdx s)).
  replace first with (sk_minIdx s + Z.of_nat k) by (unfold k; lia).
  rewrite window_from_spec by (done || (unfold k; lia)). eexists. split; [done|].
  unfold nzw, nonzero_window in Hnz |- *. rewrite Hh in Hnz |- *.
  rewrite window_spec in Hnz |- * by done. cbn [fst] in Hnz |- *.
  set (f := fun i : nat => (sk_minIdx s + Z.of_nat i, binAt s (sk_minIdx s + Z.of_nat i))) in *.
  set (n := Z.to_nat (sk_maxIdx s - sk_minIdx s + 1)) in *.
  assert (seq 0 n = seq 0 k ++ seq k (n - k)) as HS.
  { replace n with (k + (n - k))%nat at 1 by (unfold n, k; lia). apply seq_app. }
  assert (map (fun i : nat => (sk_minIdx s + Z.of_nat k + Z.of_nat i, bget (sk_bins s) (Z.of_nat k + Z.of_nat i)))
    (seq 0 (Z.to_nat (sk_maxIdx s - sk_minIdx s + 1 - Z.of_nat k))) = map f (seq k (n - k))) as ->.
  { replace (Z.to_nat _) with (n - k)%nat by (unfold n; lia). 
    replace (seq k (n - k)) with (Nat.add k <$> seq 0 (n - k)) by (rewrite fmap_add_seq; f_equal; lia).
    change (map f) with (fmap (M := list) f). change (map ?g ?l) with (fmap (M := list) g l).
    rewrite <- list_fmap_compose. apply list_fmap_ext. intros _ i _. unfold f, binAt. simpl. rewrite Hh.
    f_equal; [lia|]. f_equal; lia. }
  rewrite HS, map_app, filter_app in Hnz |- *.
  destruct (filter _ (map f (seq 0 k))) as [|p l] eqn:EL; [done|].
  injection Hnz as -> _. exfalso.
  assert ((first, c) ∈ filter (fun p : Z * Z => snd p <> 0) (map f (seq 0 k))) as Hin by (rewrite EL; set_solver).
  apply list_elem_of_filter in Hin as [_ (i & Ei & Hi)%list_elem_of_fmap]. apply elem_of_seq in Hi.
  injection Ei as Ei _. unfold k in Hi. lia.
Qed.

Lemma Encode_small s :
  wf_sketch s -> (length (nzw s) <= 256)%nat -> Encode s = Some (encoding_of s).
Proof.
  intros Hwf Hn. unfold Encode, AppendTo. rewrite PopulatedBins_spec by done. cbn [mbind option_bind].
  unfold SketchMaxSerializedBins. destruct (_ <? _) eqn:E; z_bool; [lia|]. cbn [mbind option_bind].
  rewrite PopulatedBins_spec by done. cbn [mbind option_bind]. rewrite u64_small by lia.
  unfold encoding_of, encoding, firstPopulated.
  assert (forall d a b c e, AppendUvarint (AppendUvarint (AppendUvarint d a) b ++ c) e =
    d ++ AppendUvarint [] a ++ AppendUvarint [] b ++ c ++ AppendUvarint [] e) as HA.
  { intros. unfold AppendUvarint. by rewrite !app_nil_l, <- !app_assoc. }
  assert (forall d a, AppendVarint d a = d ++ AppendVarint [] a) as HV by (intros; done).
  rewrite app_nil_l, HA.
  assert ((if sk_collapsed s then Z.lor 0 sketchFlagCollapsed else 0) = (if sk_collapsed s then 1 else 0))
    as -> by (by destruct (sk_collapsed s)).
  destruct (sk_hasBins s) eqn:Hh.
  - simpl negb. cbv iota. pose proof (window_spec s Hwf Hh) as HW.
    destruct (window s) as [w panic] eqn:EW. injection HW as _ ->.
    assert (first_populated w = match nzw s with [] => None | (i, _) :: _ => Some i end) as ->.
    { unfold first_populated, nzw, nonzero_window. by rewrite Hh, EW. }
    destruct (nzw s) as [|[i c] rest] eqn:EN; cbn [mbind option_bind].
    + rewrite HV. by rewrite <- !app_assoc.
    + destruct (window_from_first s i c rest Hwf EN) as (w' & -> & HF).
      rewrite append_bins_app, append_bins_filter, HF, EN, HV. by rewrite <- !app_assoc.
  - assert (nzw s = []) as -> by (unfold nzw; by rewrite Hh). cbn [mbind option_bind].
    rewrite HV. by rewrite <- !app_assoc.
Qed.

(** ** Reading back what was written *)

Lemma r_uvarint_put x rest :
  0 <= x < 2 ^ 64 -> r_uvarint (AppendUvarint [] x ++ rest) = Ok (x, rest).
Proof.
  intros Hx. unfold r_uvarint. rewrite Uvarint_AppendUvarint by done.
  assert (0 < length (AppendUvarint [] x))%nat.
  { unfold AppendUvarint. rewrite app_nil_l. pose proof (put_uvarint_nonempty 9 x).
    destruct (put_uvarint 9 x); [done|simpl; lia]. }
  destruct (_ =? 0) eqn:E; z_bool; [lia|]. destruct (_ <? 0) eqn:E2; z_bool; [lia|].
  by rewrite Nat2Z.id, drop_app_length.
Qed.

Lemma r_varint_put x rest :
  - 2 ^ 63 <= x < 2 ^ 63 -> r_varint (AppendVarint [] x ++ rest) = Ok (x, rest).
Proof.
  intros Hx. unfold r_varint. rewrite Varint_AppendVarint by done.
  assert (0 < length (AppendVarint [] x))%nat.
  { unfold AppendVarint, AppendUvarint. rewrite app_nil_l. pose proof (put_uvarint_nonempty 9 (zigzag x)).
    destruct (put_uvarint 9 (zigzag x)); [done|simpl; lia]. }
  destruct (_ =? 0) eqn:E; z_bool; [lia|]. destruct (_ <? 0) eqn:E2; z_bool; [lia|].
  by rewrite Nat2Z.id, drop_app_length.
Qed.

Lemma r_uint64_put x rest :
  0 <= x < 2 ^ 64 -> r_uint64 (le_put 8 x ++ rest) = Ok (x, rest).
Proof.
  intros Hx. unfold r_uint64. rewrite length_app, le_put_length.
  destruct (Nat.ltb_spec (8 + length rest) 8); [lia|].
  rewrite take_app_length', drop_app_length' by (by rewrite le_put_length).
  rewrite le_get_put. by rewrite Z.mod_small.
Qed.

Definition last_index (prev : Z) (w : list (Z * Z)) : Z :=
  match last w with Some p => fst p | None => prev end.

Lemma last_index_cons prev i c w : last_index prev ((i, c) :: w) = last_index i w.
Proof. unfold last_index. rewrite last_cons. by destruct (last w). Qed.

Lemma decode_bin_ok (isFirst : bool) fi prev i c s rest :
  bins_ok (sk_bins s) -> fi <= prev -> (if isFirst then i = prev else prev < i) -> i < fi + 512 ->
  0 < c <= MaxUint32 -> 0 <= sk_binTotal s -> sk_binTotal s + c < 2 ^ 64 ->
  decode_bin isFirst fi
    (AppendUvarint (AppendUvarint [] (i - prev)) c ++ rest, s, prev) =
  Ok (rest, set_binTotal (set_bins s (<[Z.to_nat (i - fi) := c]> (sk_bins s))) (sk_binTotal s + c), i).
Proof.
  intros Hb Hfi Hi Hlt Hc H0 Ht. change (2 ^ 64) with 18446744073709551616 in Ht. unfold MaxUint32 in *.
  assert (AppendUvarint (AppendUvarint [] (i - prev)) c ++ rest =
    AppendUvarint [] (i - prev) ++ AppendUvarint [] c ++ rest) as ->.
  { unfold AppendUvarint. by rewrite !app_nil_l, <- app_assoc. }
  assert (prev <= i) by (destruct isFirst; lia).
  unfold decode_bin. rewrite r_uvarint_put by (change (2 ^ 64) with 18446744073709551616; lia). cbn [rbind].
  assert (isFirst && negb (i - prev =? 0) = false /\ negb isFirst && (i - prev =? 0) = false) as [-> ->].
  { destruct isFirst; simpl; (split; [|reflexivity || (apply Z.eqb_neq; lia)]); [|done].
    apply negb_false_iff, Z.eqb_eq. lia. }
  unfold SketchMaxBins. destruct (512 <=? i - prev) eqn:E1; z_bool; [lia|].
  replace (prev + (i - prev)) with i by lia.
  destruct (512 <=? i - fi) eqn:E2; z_bool; [lia|].
  rewrite r_uvarint_put by (change (2 ^ 64) with 18446744073709551616; lia). cbn [rbind].
  destruct (c =? 0) eqn:E3; z_bool; [lia|]. unfold MaxUint32.
  destruct (4294967295 <? c) eqn:E4; z_bool; [lia|]. by rewrite u64_small by lia.
Qed.

Lemma decode_bin_loop_ok fi w prev s rest :
  bins_ok (sk_bins s) -> asc prev w -> fi <= prev -> Forall (fun p => fst p < fi + 512) w ->
  idx_ok fi -> (forall k, prev - fi < k -> bget (sk_bins s) k = 0) ->
  0 <= sk_binTotal s -> sk_binTotal s + total w < 2 ^ 64 ->
  exists b, decode_bin_loop (length w) false fi (append_bins [] prev w ++ rest, s, prev) =
      Ok (rest, set_binTotal (set_bins s b) (sk_binTotal s + total w), last_index prev w) /\
    bins_ok b /\ forall k, bget b k = bget (sk_bins s) k + count_at w (fi + k).
Proof.
  revert prev s. induction w as [|[i c] w IH]; intros prev s Hb Ha Hfi HF Hidx Hz H0 Ht.
  - exists (sk_bins s). simpl. rewrite Z.add_0_r. split_and!; [by destruct s|done|intros; lia].
  - destruct Ha as (Hi & Hc & Ha). apply Forall_cons in HF as [Hlt HF]. simpl in Hlt, Ht.
    assert (0 <= total w) as Htw.
    { clear -Ha. revert i Ha. induction w as [|[i' c'] w IH]; simpl; [lia|].
      intros i (_ & Hc' & Ha). specialize (IH _ Ha). lia. }
    cbn [append_bins length decode_bin_loop]. destruct (Z.eqb_spec c 0); [lia|].
    rewrite append_bins_app, <- app_assoc.
    assert (prev < i < prev + 512) as Hd by lia.
    rewrite (i32_small (i - prev)), u64_small by lia.
    rewrite (decode_bin_ok false) by (done || lia). cbn [rbind]. rewrite last_index_cons.
    set (s1 := set_binTotal _ _).
    assert (forall k, bget (sk_bins s1) k = bget (sk_bins s) k + (if i =? fi + k then c else 0)) as Hg.
    { intros k. unfold s1. simpl. rewrite bget_insert by (apply Hb || lia).
      case_decide as D; destruct (_ =? _) eqn:E; z_bool; try lia. rewrite Hz by lia. lia. }
    destruct (IH i s1) as (b & E & Hbb & Hbg); try done; try lia.
    + apply bins_ok_insert; [done|lia].
    + intros k Hk. rewrite Hg, Hz by lia. destruct (_ =? _) eqn:E; z_bool; lia.
    + unfold s1. simpl. lia.
    + unfold s1. simpl. lia.
    + exists b. rewrite E. split_and!; [|done|].
      * unfold s1. simpl. do 3 f_equal. rewrite <- Z.add_assoc. done.
      * intros k. rewrite Hbg, Hg. simpl. lia.
Qed.

(** A sketch whose fields are what the type and the updates keep: the totals
    add up and fit 64 bits, and the sum is a finite float64. *)
Record encodable (s : Sketch) : Prop := {
  enc_wf : wf_sketch s;
  enc_scale : 0 <= sk_scale s <= SketchMaxScale;
  enc_sum : f_valid (sk_sum s) = true;
  enc_finite : f_is_nan (sk_sum s) || f_is_inf (sk_sum s) = false;
  enc_zero : 0 <= sk_zeroCount s;
  enc_count : sk_zeroCount s + sk_binTotal s <= sk_count s < 2 ^ 64;
  enc_total : sk_binTotal s = bsum (sk_bins s) 512;
}.

(** Two sketches that differ at most in their saturation counter and in how
    wide a window they keep. *)
Record same_value (s d : Sketch) : Prop := {
  sv_scale : sk_scale d = sk_scale s;
  sv_count : sk_count d = sk_count s;
  sv_zero : sk_zeroCount d = sk_zeroCount s;
  sv_sum : sk_sum d = sk_sum s;
  sv_total : sk_binTotal d = sk_binTotal s;
  sv_collapsed : sk_collapsed d = sk_collapsed s;
  sv_bins : forall j, binAt d j = binAt s j;
}.

Lemma total_filter w : total (filter (fun p : Z * Z => snd p <> 0) w) = total w.
Proof.
  induction w as [|[i c] w IH]; [done|]. rewrite filter_cons. case_decide as D; simpl in *; lia.
Qed.

Lemma total_nzw s : wf_sketch s -> total (nzw s) = bsum (sk_bins s) 512.
Proof.
  intros Hwf. unfold nzw, nonzero_window. destruct (sk_hasBins s) eqn:Hh.
  - by rewrite total_filter, total_window.
  - rewrite (wf_empty s Hwf Hh). symmetry. rewrite (bsum_zero_tail _ 0); [done|lia|].
    intros k _. apply bget_zero.
Qed.

Lemma asc_last_range p w : asc p w -> p <= last_index p w.
Proof.
  revert p. induction w as [|[i c] w IH]; intros p; simpl; [unfold last_index; simpl; lia|].
  intros (Hi & _ & Ha). rewrite last_index_cons. specialize (IH i Ha). lia.
Qed.

Lemma last_index_in p w : last_index p w = p \/ exists q, q ∈ w /\ fst q = last_index p w.
Proof.
  revert p. induction w as [|[i c] w IH]; intros p; [by left|]. right. rewrite last_index_cons.
  destruct (IH i) as [->|(q & Hq & <-)]; [exists (i, c)|exists q]; set_solver.
Qed.

Lemma asc_after_last p w j : asc p w -> last_index p w < j -> count_at w j = 0.
Proof.
  revert p. induction w as [|[i c] w IH]; intros p; simpl; [done|]. rewrite last_index_cons.
  intros (Hi & _ & Ha) Hj. pose proof (asc_last_range i w Ha). rewrite (IH i) by done.
  destruct (i =? j) eqn:E; z_bool; lia.
Qed.

(** The sketch the decoder builds from the populated bins [w]. *)
Definition decoded (scale zc ct : Z) (sum : f64) (collapsed : bool) (w : list (Z * Z)) (b : list Z) : Sketch :=
  match w with
  | [] => mkSketch sum ct zc 0 0 0 0 scale collapsed false zero_bins
  | (i, _) :: _ => mkSketch sum ct zc (total w) 0 i (last_index i w) scale collapsed true b
  end.

Lemma decodeBins_ok w s :
  sk_bins s = zero_bins -> sk_binTotal s = 0 -> asc (match w with [] => 0 | (i, _) :: _ => i end - 1) w ->
  Forall (fun p => idx_ok (fst p) /\ fst p < match w with [] => 0 | (i, _) :: _ => i end + 512) w ->
  (length w <= 256)%nat -> total w < 2 ^ 64 -> w <> [] ->
  let fi := match w with [] => 0 | (i, _) :: _ => i end in
  exists b, decodeBins (append_bins [] fi w) s (Z.of_nat (length w)) fi =
      Ok ([], set_window (set_hasBins (set_binTotal (set_bins s b) (total w))) fi (last_index fi w)) /\
    bins_ok b /\ forall k, bget b k = count_at w (fi + k).
Proof.
  destruct w as [|[i c] w]; [done|]. intros Hsb Hbt (_ & Hc & Ha) HF Hlen Ht _ fi.
  apply Forall_cons in HF as [[Hi _] HF]. cbn [fst snd] in *. unfold fi.
  assert (0 <= total w) as Htw.
  { clear -Ha. revert i Ha. induction w as [|[i' c'] w IH]; simpl; [lia|].
    intros i (_ & Hc' & Ha). specialize (IH _ Ha). lia. }
  unfold decodeBins. cbn [length total] in *. destruct (Z.of_nat _ =? 0) eqn:E; z_bool; [lia|].
  assert ((i <? MinInt32) || (MaxInt32 <? i) = false) as ->.
  { apply orb_false_iff. unfold MinInt32, MaxInt32. split; apply Z.ltb_ge; idx; lia. }
  rewrite Nat2Z.id. cbn [decode_bin_loop append_bins]. destruct (Z.eqb_spec c 0); [lia|].
  rewrite append_bins_app. rewrite (i32_small (i - i)), u64_small by lia.
  assert (0 < c <= MaxUint32) by lia. unfold MaxUint32 in *.
  change (2 ^ 64) with 18446744073709551616 in Ht.
  pose proof (decode_bin_ok true i i i c s (append_bins [] i w)) as H1. cbv iota in H1.
  rewrite H1; [|rewrite Hsb; apply bins_ok_zero|lia|done|lia|done|lia|rewrite Hbt; change (2 ^ 64) with 18446744073709551616; lia].
  cbn [rbind]. rewrite Hbt, Z.add_0_l, Hsb. set (s1 := set_binTotal _ _).
  assert (forall k, bget (sk_bins s1) k = if i =? i + k then c else 0) as Hg.
  { intros k. unfold s1. cbn. rewrite Z.sub_diag. fold zero_bins.
    rewrite (bget_insert zero_bins 0), bget_zero by (apply bins_ok_zero || lia).
    case_decide; destruct (_ =? _) eqn:E2; z_bool; lia. }
  destruct (decode_bin_loop_ok i w i s1 []) as (b & EB & Hbb & Hbg); try done; try lia.
  - apply bins_ok_insert; [apply bins_ok_zero|unfold MaxUint32; lia].
  - eapply Forall_impl; [exact HF|]. simpl. intros ? []. lia.
  - intros k Hk. rewrite Hg. destruct (_ =? _) eqn:E2; z_bool; lia.
  - unfold s1. simpl. lia.
  - rewrite app_nil_r in EB. rewrite EB. cbn [rbind]. exists b. split_and!; [|done|].
    + rewrite last_index_cons. pose proof (asc_last_range i w Ha).
      assert (idx_ok (last_index i w)).
      { destruct (last_index_in i w) as [->|(q & Hq & <-)]; [done|].
        rewrite Forall_forall in HF. by apply HF. }
      rewrite !i32_small by (idx; lia). done.
    + intros k. rewrite Hbg, Hg. reflexivity.
Qed.

Lemma valid_header scale flags :
  0 <= scale <= 20 -> (flags = 0 \/ flags = 1) ->
  negb (1 =? SketchEncodingVersion) = false /\ (SketchMaxScale <? scale) = false /\
  negb (Z.land flags (255 - sketchFlagCollapsed) =? 0) = false.
Proof.
  intros Hs Hf. split_and!; [done|unfold SketchMaxScale; lia|]. by destruct Hf as [-> | ->].
Qed.

Lemma decode_encoding scale zc ct sum collapsed w :
  0 <= scale <= 20 -> 0 <= zc -> zc + total w <= ct < 2 ^ 64 ->
  f_valid sum = true -> f_is_nan sum || f_is_inf sum = false ->
  asc (match w with [] => 0 | (i, _) :: _ => i end - 1) w ->
  Forall (fun p => idx_ok (fst p) /\ fst p < match w with [] => 0 | (i, _) :: _ => i end + 512) w ->
  (length w <= 256)%nat -> 0 <= total w ->
  exists b, DecodeSketch (encoding scale zc ct sum collapsed w) =
      Some (Ok (decoded scale zc ct sum collapsed w b)) /\
    bins_ok b /\ (w <> [] -> forall k, bget b k = count_at w (match w with [] => 0 | (i, _) :: _ => i end + k)).
Proof.
  intros Hs Hz Hc Hv Hfin Ha HF Hlen Htw. change (2 ^ 64) with 18446744073709551616 in Hc.
  pose proof (Float64bits_range sum Hv) as Hbits.
  assert (f_is_nan sum = false) as Hnan by (by apply orb_false_iff in Hfin as [? _]).
  unfold DecodeSketch, DecodeSketchInto, encoding. cbn [app].
  set (flags := if collapsed then 1 else 0).
  destruct (valid_header scale flags) as (-> & -> & ->); [done|unfold flags; destruct collapsed; auto|].
  rewrite r_uvarint_put by (change (2 ^ 64) with 18446744073709551616; lia). cbn [rbind].
  rewrite r_uvarint_put by (change (2 ^ 64) with 18446744073709551616; lia). cbn [rbind].
  rewrite r_uint64_put by done. cbn [rbind]. rewrite Float64frombits_bits, Hfin by done.
  rewrite r_uvarint_put by (change (2 ^ 64) with 18446744073709551616; lia). cbn [rbind].
  unfold SketchMaxSerializedBins. destruct (256 <? _) eqn:E; z_bool; [lia|].
  rewrite (reset_wf _ (wf_empty_sketch 0)).
  assert (negb (Z.land flags sketchFlagCollapsed =? 0) = collapsed) as ->
    by (unfold flags; by destruct collapsed).
  set (d1 := mkSketch sum ct zc 0 0 0 0 scale collapsed false zero_bins).
  assert ((if collapsed then set_collapsed (set_totals (set_scale (empty_sketch 0) scale) sum ct zc 0)
           else set_totals (set_scale (empty_sketch 0) scale) sum ct zc 0) = d1) as Hd1
    by (by destruct collapsed).
  destruct w as [|[i c] w].
  - rewrite <- (app_nil_r (AppendVarint [] 0)), r_varint_put by done. cbn [rbind mbind option_bind].
    change (sk_saturations (empty_sketch 0)) with 0. rewrite Hd1. unfold decodeBins. cbn [length]. change (Z.of_nat 0 =? 0) with true. cbv iota. change (0 =? 0) with true.
    cbn [rbind negb length Nat.eqb].
    change (sk_binTotal d1) with 0. simpl in Hc.
    destruct (ct <? zc) eqn:E1; z_bool; [lia|]. rewrite u64_small by lia. cbn [orb].
    destruct (ct - zc <? 0) eqn:E2; z_bool; [lia|]. exists zero_bins. split; [done|]. split; [apply bins_ok_zero|done].
  - assert (idx_ok i) as Hi by (by apply Forall_cons in HF as [[? _] _]).
    rewrite r_varint_put by (change (2 ^ 63) with 9223372036854775808; idx; lia).
    cbn [rbind mbind option_bind]. change (sk_saturations (empty_sketch 0)) with 0. rewrite Hd1.
    destruct (decodeBins_ok ((i, c) :: w) d1) as (b & EB & Hb & Hg); try done;
      [change (2 ^ 64) with 18446744073709551616; lia|].
    rewrite EB. cbn [rbind length Nat.eqb negb]. cbn [sk_binTotal set_window set_hasBins set_binTotal set_bins].
    destruct (ct <? zc) eqn:E1; z_bool; [lia|]. rewrite u64_small by lia. cbn [orb].
    destruct (ct - zc <? _) eqn:E2; z_bool; [lia|]. exists b. split; [done|]. split; [done|]. intros _. exact Hg.
Qed.

Lemma nzw_span s i c w :
  wf_sketch s -> nzw s = (i, c) :: w ->
  asc (i - 1) (nzw s) /\ Forall (fun p => idx_ok (fst p) /\ fst p < i + 512) (nzw s).
Proof.
  intros Hwf E. pose proof (nzw_asc s Hwf) as Ha. split.
  - rewrite E in *. simpl in *. destruct Ha as (_ & ? & ?). split_and!; (done || lia).
  - pose proof (nzw_range s (i, c) Hwf ltac:(rewrite E; set_solver)) as [_ Hi]. simpl in Hi.
    assert (sk_hasBins s = true) as Hh by (unfold nzw in E; by destruct (sk_hasBins s)).
    pose proof (wf_win s Hwf Hh) as (_ & _ & Hw & _).
    apply Forall_forall. intros p Hp. destruct (nzw_range s p Hwf Hp). split; [done|lia].
Qed.

(** Decoding the encoding of an encodable sketch with at most 256 populated
    bins. *)
Lemma decode_encode_small s :
  encodable s -> (length (nzw s) <= 256)%nat ->
  exists d, DecodeSketch (encoding_of s) = Some (Ok d) /\ wf_sketch d /\ same_value s d /\
    sk_saturations d = 0 /\ nzw d = nzw s.
Proof.
  intros [Hwf Hsc Hv Hfin Hz Hc Ht] Hlen. pose proof (total_nzw s Hwf) as HT.
  assert (0 <= total (nzw s)) as Htp by (rewrite HT; apply bsum_nonneg, Hwf).
  destruct (decode_encoding (sk_scale s) (sk_zeroCount s) (sk_count s) (sk_sum s) (sk_collapsed s) (nzw s))
    as (b & E & Hb & Hg); try done; [by rewrite HT, <- Ht| | |].
  1,2: destruct (nzw s) as [|[i c] w] eqn:EN; [done|]; rewrite <- EN; by eapply nzw_span.
  eexists. split; [exact E|].
  assert (forall d, wf_sketch d -> (forall j, binAt d j = binAt s j) -> nzw d = nzw s) as HN.
  { intros d Hd HB. apply (asc_ext (Z.min (sk_minIdx d - 1) (sk_minIdx s - 1))).
    - eapply asc_weaken; [|by apply nzw_asc]. lia.
    - eapply asc_weaken; [|by apply nzw_asc]. lia.
    - intros j. by rewrite !count_nzw, HB. }
  destruct (nzw s) as [|[i c] w] eqn:EN.
  - assert (wf_sketch (decoded (sk_scale s) (sk_zeroCount s) (sk_count s) (sk_sum s) (sk_collapsed s) [] b)) as Hd.
    { constructor; simpl; [apply bins_ok_zero|done|done]. }
    assert (forall j, binAt s j = 0) as HB by (intros j; by rewrite <- count_nzw, EN).
    split_and!; [done| |done|apply HN; [done|intros j; by rewrite HB]].
    constructor; try done; simpl; first [by rewrite Ht, <- HT | intros j; by rewrite HB].
  - destruct (nzw_span s i c w Hwf EN) as [Ha HF]. rewrite EN in Ha, HF.
    specialize (Hg ltac:(done)). simpl in Ha. destruct Ha as (_ & Hc0 & Ha).
    pose proof (asc_last_range i w Ha).
    assert (idx_ok (last_index i w) /\ last_index i w < i + 512) as [Hli Hls].
    { apply Forall_cons in HF as [[Hi _] HF]. destruct (last_index_in i w) as [->|(q & Hq & <-)]; [split; [done|lia]|].
      rewrite Forall_forall in HF. by apply HF. }
    set (d := decoded _ _ _ _ _ _ _).
    assert (forall j, binAt d j = binAt s j) as HB.
    { intros j. unfold binAt at 1. simpl. rewrite Hg, <- count_nzw, EN by done. f_equal. lia. }
    assert (wf_sketch d) as Hd.
    { constructor; [done|done|]. intros _. apply Forall_cons in HF as [[Hi _] HF].
      change (sk_minIdx d) with i. change (sk_bins d) with b.
      change (sk_maxIdx d) with (last_index i ((i, c) :: w)). rewrite last_index_cons.
      split_and!; [done|done|lia|lia|]. intros k Hk. rewrite Hg. cbn [count_at].
      rewrite (asc_after_last i) by (done || lia). destruct (_ =? _) eqn:E2; z_bool; lia. }
    split_and!; [done| |done|by apply HN].
    constructor; try done. by rewrite Ht, <- HT.
Qed.

(** C38: round trip.  Take a sketch with at most 256 populated bins that is
    well formed (bins within 32 bits, a tight window, indexes in
    [[-2^30, 2^30)]), with a scale from 0 to 20, a finite sum, the bin total of
    its bins, and a count below 2^64 that covers the zero count and that
    total.  It decodes from its own encoding to the same value (scale, totals,
    sum, flag and every bucket), with the saturation counter reset, and the
    decoded sketch encodes to the same bytes.  A sketch whose running sum has
    overflowed is outside: it is encoded, and its encoding is refused
    ([StoreRows.unreadable_row], [StoreErrors.accepted_point_poisons]). *)
Theorem decode_encode (s : Sketch) :
  encodable s -> (length (nzw s) <= 256)%nat ->
  exists data d, Encode s = Some data /\ DecodeSketch data = Some (Ok d) /\
    wf_sketch d /\ same_value s d /\ sk_saturations d = 0 /\ Encode d = Some data.
Proof.
  intros He Hlen. pose proof (enc_wf s He) as Hwf.
  destruct (decode_encode_small s He Hlen) as (d & E & Hd & [S1 S2 S3 S4 S5 S6 S7] & H0 & HN).
  exists (encoding_of s), d. split_and!; try done; [by apply Encode_small|].
  rewrite Encode_small by (done || by rewrite HN). f_equal. unfold encoding_of. by rewrite S1, S2, S3, S4, S6, HN.
Qed.

(** ** Capping at 256 populated bins *)

Lemma asc_Forall p w : asc p w -> Forall (fun q => p < fst q) w.
Proof.
  revert p. induction w as [|[i c] w IH]; intros p; simpl; [by constructor|]. intros (Hi & _ & Ha).
  constructor; [done|]. eapply Forall_impl; [by apply IH|]. simpl. intros; lia.
Qed.

Lemma asc_split p pre i c post :
  asc p (pre ++ (i, c) :: post) ->
  Forall (fun q => fst q < i) pre /\ asc i post /\ p < i /\ 0 < c <= MaxUint32.
Proof.
  revert p. induction pre as [|[i' c'] pre IH]; intros p; simpl.
  - intros (? & ? & ?). split_and!; (done || lia || by constructor).
  - intros (Hi & Hc & Ha). destruct (IH i' Ha) as (HF & Hp & Hlt & Hcc).
    split_and!; try done; try lia. constructor; [simpl; lia|done].
Qed.

Lemma weight_count_at f w j : Forall (fun p => f <= fst p) w -> weight f w j = count_at w j.
Proof.
  induction 1 as [|[i c] w Hi _ IH]; [done|]. simpl in *. by rewrite IH, Z.max_l by lia.
Qed.

Lemma below_app f l l' c : below f (l ++ l') c = below f l c + below f l' c.
Proof. induction l as [|[i n] l IH]; simpl; [done|]. rewrite IH. destruct (_ <? _); lia. Qed.

Lemma bsum_nzw s pre i c post :
  wf_sketch s -> sk_hasBins s = true -> nzw s = pre ++ (i, c) :: post ->
  bsum (sk_bins s) (Z.to_nat (i - sk_minIdx s)) = total pre.
Proof.
  intros Hwf Hh E. pose proof (nzw_asc s Hwf) as Ha. pose proof (asc_Forall _ _ Ha) as HF.
  assert (Forall (fun p => sk_minIdx s <= fst p) (nzw s)) as HF'
    by (eapply Forall_impl; [exact HF|]; simpl; intros; lia).
  assert (sk_minIdx s <= i) as Hi.
  { rewrite Forall_forall in HF'. apply (HF' (i, c)). rewrite E. set_solver. }
  rewrite (bsum_weight _ (sk_minIdx s) (nzw s) (sk_minIdx s)).
  2: { intros k Hk. rewrite weight_count_at, count_nzw by done. unfold binAt. rewrite Hh. f_equal. lia. }
  rewrite (below_none _ _ (sk_minIdx s)), Z.sub_0_r, Z2Nat.id by
    (lia || (eapply Forall_impl; [exact HF'|]; simpl; intros; lia)).
  replace (sk_minIdx s + (i - sk_minIdx s)) with i by lia.
  rewrite E in Ha, HF'. rewrite E, below_app. apply asc_split in Ha as (Hpre & Hpost & _ & _).
  apply Forall_app in HF' as [HF1 HF2]. apply asc_Forall in Hpost.
  rewrite below_all, below_none; [lia| |].
  - constructor; [simpl; lia|]. eapply Forall_impl; [exact Hpost|]. simpl. intros; lia.
  - rewrite Forall_forall in Hpre, HF1. apply Forall_forall. intros q Hq.
    specialize (Hpre q Hq). specialize (HF1 q Hq). simpl in *. lia.
Qed.

Lemma asc_total p w : asc p w -> 0 <= total w.
Proof.
  revert p. induction w as [|[i c] w IH]; intros p; simpl; [lia|].
  intros (_ & Hc & Ha). specialize (IH _ Ha). lia.
Qed.

Lemma asc_app_l p w l : asc p (w ++ l) -> asc p w.
Proof.
  revert p. induction w as [|[i c] w IH]; intros p; simpl; [done|].
  intros (Hi & Hc & Ha). split_and!; try done; try lia. by apply IH.
Qed.

Lemma count_at_above i w j : Forall (fun q => fst q < i) w -> i <= j -> count_at w j = 0.
Proof.
  intros H Hj. induction H as [|[i' c'] w Hi' _ IH]; [done|]. simpl in *.
  rewrite IH. destruct (_ =? _) eqn:E; z_bool; lia.
Qed.

Lemma collapseToBinCap_floor s pre i c post :
  wf_sketch s -> nzw s = pre ++ (i, c) :: post -> pre <> [] ->
  collapseToBinCap s (Z.of_nat (S (length post))) = collapseTo s i.
Proof.
  intros Hwf E Hpre. unfold collapseToBinCap. rewrite PopulatedBins_spec by done. cbn [mbind option_bind].
  assert (0 < length pre)%nat by (destruct pre; [done|simpl; lia]).
  destruct (_ <=? _) eqn:E1; z_bool; [rewrite E, length_app in E1; cbn [length] in E1; lia|].
  destruct (Z.of_nat (S (length post)) <=? 0) eqn:E2; z_bool; [lia|].
  assert (filter (fun p : Z * Z => snd p <> 0) (fst (window s)) = nzw s) as ->.
  { unfold nzw, nonzero_window in E |- *. destruct (sk_hasBins s); [done|by destruct pre]. }
  rewrite E, rev_app_distr. cbn [rev]. rewrite <- app_assoc. cbn [app].
  replace (Z.to_nat (Z.of_nat (S (length post)) - 1)) with (length (rev post)) by (rewrite length_rev; lia).
  by rewrite lookup_app_r, Nat.sub_diag by done.
Qed.

#[local] Opaque bsum total count_at.

Lemma nzw_rewindow s pre i c post b :
  wf_sketch s -> sk_hasBins s = true -> bsum (sk_bins s) 512 <= MaxUint32 ->
  nzw s = pre ++ (i, c) :: post -> bins_ok b ->
  (forall k, bget b k = if decide (k < 0) then 0
      else if decide (k = 0) then total pre + bget (sk_bins s) (i - sk_minIdx s)
      else bget (sk_bins s) (k + (i - sk_minIdx s))) ->
  let s' := rewindow s b i (sk_maxIdx s) true in
  wf_sketch s' /\ nzw s' = (i, total pre + c) :: post.
Proof.
  intros Hwf Hh Hsum E Hb Hg s'. pose proof (wf_win s Hwf Hh) as (Hm & HM & Hw & Hz).
  pose proof (nzw_asc s Hwf) as Ha. rewrite E in Ha. apply asc_split in Ha as (Hlow & Hpost & Hi & Hc).
  destruct (nzw_range s (i, c) Hwf ltac:(rewrite E; set_solver)) as [Hidx Hir]. cbn [fst] in Hidx, Hir.
  assert (wf_sketch s') as Hwf'.
  { constructor; simpl; [done|by rewrite Hh|]. intros _. split_and!; [done|done|lia|lia|].
    intros k Hk. rewrite Hg. repeat case_decide; try lia. apply Hz. lia. }
  split; [done|].
  assert (forall j, i <= j -> bget (sk_bins s) (j - i + (i - sk_minIdx s)) = count_at (nzw s) j) as HB.
  { intros j' Hj'. rewrite count_nzw by done. unfold binAt. rewrite Hh. f_equal. lia. }
  assert (0 <= total pre) as Htp.
  { rewrite <- (bsum_nzw s pre i c post) by done. by apply bsum_nonneg, Hwf. }
  apply (asc_ext (i - 1)); [apply (nzw_asc s' Hwf')| |].
  - cbn [asc]. pose proof (total_nzw s Hwf) as HT. rewrite E, total_app in HT. cbn [total] in HT.
    pose proof (asc_total _ _ Hpost). split_and!; (done || lia).
  - intros j. rewrite count_nzw by done. unfold binAt, s'. cbn [rewindow sk_bins sk_hasBins sk_minIdx].
    rewrite Hh, Hg. repeat case_decide.
    + cbn [count_at]. rewrite (asc_count_low i post) by (done || lia). destruct (_ =? _) eqn:E2; z_bool; lia.
    + assert (j = i) as -> by lia. specialize (HB i ltac:(lia)).
      rewrite Z.sub_diag, Z.add_0_l in HB. rewrite HB, E, count_at_app, (count_at_above i pre) by (done || lia).
      cbn [count_at]. rewrite Z.eqb_refl, (asc_count_low i post) by (done || lia). lia.
    + rewrite HB, E, count_at_app, (count_at_above i pre) by (done || lia). cbn [count_at].
      destruct (_ =? _) eqn:E2; z_bool; lia.
Qed.

(** What [collapseToBinCap] does to the populated bins: the lowest are added
    to the lowest kept. *)
Lemma collapseToBinCap_spec s pre i c post :
  encodable s -> bsum (sk_bins s) 512 <= MaxUint32 ->
  nzw s = pre ++ (i, c) :: post -> pre <> [] ->
  exists s', collapseToBinCap s (Z.of_nat (S (length post))) = Some s' /\ encodable s' /\
    nzw s' = (i, total pre + c) :: post /\
    sk_scale s' = sk_scale s /\ sk_count s' = sk_count s /\ sk_zeroCount s' = sk_zeroCount s /\
    sk_sum s' = sk_sum s /\ sk_binTotal s' = sk_binTotal s /\ sk_collapsed s' = true.
Proof.
  intros He Hsum E Hpre. pose proof (enc_wf s He) as Hwf.
  assert (sk_hasBins s = true) as Hh
    by (unfold nzw in E; destruct (sk_hasBins s); [done|by destruct pre]).
  pose proof (nzw_asc s Hwf) as Ha. rewrite E in Ha.
  destruct (nzw_range s (i, c) Hwf ltac:(rewrite E; set_solver)) as [Hidx Hir]. cbn [fst] in Hidx, Hir.
  assert (sk_minIdx s < i /\ 0 < total pre) as [Hlt Htp].
  { destruct pre as [|[i' c'] pre]; [done|]. pose proof (asc_split _ _ _ _ _ Ha) as (Hlow & _).
    apply Forall_cons in Hlow as [Hq _]. pose proof (nzw_range s (i', c') Hwf ltac:(rewrite E; set_solver)) as [_ Hqr].
    cbn [fst] in *. split; [lia|].  destruct Ha as (_ & Hc' & Ha).
    assert (0 <= total pre); [|cbn [total]; lia].
    by eapply asc_total, asc_app_l. }
  assert (in_u 64 (sk_binTotal s)) as Hbt.
  { rewrite (enc_total s He). unfold in_u. pose proof (bsum_nonneg (sk_bins s) 512 (wf_bins s Hwf)).
    unfold MaxUint32 in *. lia. }
  destruct (collapseTo_spec s i Hwf Hh Hidx Hlt Hsum Hbt) as (b & EC & Hb & Hg). cbv zeta in EC, Hg.
  pose proof (wf_win s Hwf Hh) as (Hm & HM & Hw & Hz).
  rewrite Z.min_l, (bsum_nzw s pre i c post) in EC, Hg by (done || lia). rewrite Z.max_r in EC by lia.
  rewrite (proj2 (Z.ltb_lt 0 (total pre)) Htp), orb_true_r in EC.
  destruct (nzw_rewindow s pre i c post b Hwf Hh Hsum E Hb Hg) as [Hwf' HN].
  exists (rewindow s b i (sk_maxIdx s) true). split; [by rewrite (collapseToBinCap_floor s pre i c post)|].
  assert (sk_binTotal s = bsum b 512) as HB.
  { pose proof (total_nzw _ Hwf') as HT. rewrite HN in HT. cbn [total rewindow sk_bins] in HT. rewrite <- HT.
    rewrite (enc_total s He), <- (total_nzw s Hwf), E, total_app. cbn [total]. lia. }
  split_and!; try done. by destruct He.
Qed.

(** A sketch with more than 256 populated bins encodes to what its highest
    256 buckets decode to: totals and sum survive, the lower counts are all in
    the lowest kept bucket, the collapse is flagged, and decoding then encoding
    again gives the same bytes. *)
Theorem encode_capped (s : Sketch) (pre post : list (Z * Z)) (i c : Z) :
  encodable s -> bsum (sk_bins s) 512 <= MaxUint32 ->
  nzw s = pre ++ (i, c) :: post -> pre <> [] -> length post = 255%nat ->
  exists data d, Encode s = Some data /\ DecodeSketch data = Some (Ok d) /\ Encode d = Some data /\
    nzw d = (i, total pre + c) :: post /\ sk_collapsed d = true /\
    sk_count d = sk_count s /\ sk_zeroCount d = sk_zeroCount s /\ sk_sum d = sk_sum s /\
    sk_binTotal d = sk_binTotal s.
Proof.
  intros He Hsum E Hpre Hlen. pose proof (enc_wf s He) as Hwf.
  destruct (collapseToBinCap_spec s pre i c post He Hsum E Hpre)
    as (s' & EC & He' & HN & H1 & H2 & H3 & H4 & H5 & H6).
  rewrite Hlen in EC. change (Z.of_nat 256) with SketchMaxSerializedBins in EC.
  assert (length (nzw s') <= 256)%nat as Hl' by (rewrite HN; simpl; lia).
  pose proof (enc_wf s' He') as Hwf'.
  assert (Encode s = Some (encoding_of s')) as EE.
  { rewrite <- (Encode_small s') by done. unfold Encode, AppendTo.
    rewrite (PopulatedBins_spec s), (PopulatedBins_spec s') by done. cbn [mbind option_bind].
    destruct (SketchMaxSerializedBins <? Z.of_nat (length (nzw s))) eqn:E1; z_bool.
    2: { rewrite E, length_app in E1. unfold SketchMaxSerializedBins in E1. simpl in E1.
         destruct pre; [done|]. simpl in E1. lia. }
    destruct (SketchMaxSerializedBins <? Z.of_nat (length (nzw s'))) eqn:E2; z_bool;
      [unfold SketchMaxSerializedBins in E2; lia|].
    rewrite EC. cbn [mbind option_bind]. by rewrite (PopulatedBins_spec s') by done. }
  destruct (decode_encode_small s' He' Hl') as (d & ED & Hd & [S1 S2 S3 S4 S5 S6 S7] & H0 & HND).
  exists (encoding_of s'), d. split_and!; try done; try congruence.
  rewrite Encode_small by (done || by rewrite HND). f_equal. unfold encoding_of. by rewrite S1, S2, S3, S4, S6, HND.
Qed.

(** ** What a decoded sketch satisfies *)

#[local] Transparent bsum total count_at.

Lemma r_uvarint_range r v r' :
  Forall is_byte r -> r_uvarint r = Ok (v, r') -> in_u 64 v /\ Forall is_byte r'.
Proof.
  unfold r_uvarint. intros Hb. destruct (Uvarint r) as [v' n] eqn:E.
  destruct (n =? 0) eqn:E0; [done|]. destruct (n <? 0) eqn:E1; [done|]. z_bool. intros [= <- <-].
  apply Uvarint_range in E; [|done|lia]. split; [apply E|]. by apply Forall_drop.
Qed.

Lemma r_varint_range r v r' :
  Forall is_byte r -> r_varint r = Ok (v, r') -> in_s 64 v /\ Forall is_byte r'.
Proof.
  unfold r_varint, Varint. intros Hb. destruct (Uvarint r) as [v' n] eqn:E.
  destruct (n =? 0) eqn:E0; [done|]. destruct (n <? 0) eqn:E1; [done|]. z_bool. intros [= <- <-].
  apply Uvarint_range in E; [|done|lia]. split; [apply unzigzag_range, E|]. by apply Forall_drop.
Qed.

Lemma r_uint64_range r v r' :
  Forall is_byte r -> r_uint64 r = Ok (v, r') -> in_u 64 v /\ Forall is_byte r'.
Proof.
  unfold r_uint64. intros Hb. destruct (Nat.ltb_spec (length r) 8) as [|Hl]; [done|]. intros [= <- <-].
  split; [|by apply Forall_drop]. pose proof (le_get_range (take 8 r) ltac:(by apply Forall_take)) as HR.
  rewrite length_take, Nat.min_l in HR by done. exact HR.
Qed.

Lemma bsum_insert b k v n :
  length b = 512%nat -> 0 <= k < Z.of_nat n -> (n <= 512)%nat ->
  bsum (<[Z.to_nat k := v]> b) n = bsum b n - bget b k + v.
Proof.
  intros Hl Hk Hn. induction n as [|n IH]; [lia|]. cbn [bsum].
  rewrite bget_insert by (done || lia). case_decide as D.
  - subst k. assert (bsum (<[Z.to_nat (Z.of_nat n) := v]> b) n = bsum b n) as ->; [|lia].
    assert (forall m, (m <= n)%nat -> bsum (<[Z.to_nat (Z.of_nat n) := v]> b) m = bsum b m) as H; [|by apply H].
    induction m as [|m IHm]; intros Hm; [done|]. cbn [bsum]. rewrite IHm, bget_insert by (done || lia).
    case_decide; [lia|done].
  - rewrite IH by lia. lia.
Qed.

(** The state of the bin loop after some bins, the last one at [index]. *)
Record decoding (firstIndex : Z) (n : nat) (s0 s : Sketch) (index : Z) : Prop := {
  dec_bins : bins_ok (sk_bins s);
  dec_total : sk_binTotal s = bsum (sk_bins s) 512;
  dec_bound : sk_binTotal s <= Z.of_nat n * MaxUint32;
  dec_index : firstIndex <= index < firstIndex + 512;
  dec_tail : forall k, index - firstIndex < k -> bget (sk_bins s) k = 0;
  dec_ends : n <> 0%nat -> 0 < bget (sk_bins s) 0 /\ 0 < bget (sk_bins s) (index - firstIndex);
  dec_start : n = 0%nat -> index = firstIndex /\ bget (sk_bins s) 0 = 0;
  dec_frame : s = set_binTotal (set_bins s0 (sk_bins s)) (sk_binTotal s);
}.

Lemma decode_bin_inv firstIndex n s0 r s index r' s' index' :
  decoding firstIndex n s0 s index -> Forall is_byte r -> (n <= 255)%nat ->
  decode_bin (n =? 0)%nat firstIndex (r, s, index) = Ok (r', s', index') ->
  decoding firstIndex (S n) s0 s' index' /\ Forall is_byte r'.
Proof.
  intros [Hb Ht Hbd Hi Htail Hends Hst Hfr] Hr Hn. unfold decode_bin.
  destruct (r_uvarint r) as [[delta r1]|] eqn:E1; [|done]. cbn [rbind].
  apply r_uvarint_range in E1 as [Hd Hr1]; [|done]. destruct Hd as [Hd0 _].
  destruct ((n =? 0)%nat && negb (delta =? 0)) eqn:G1; [done|].
  destruct (negb (n =? 0)%nat && (delta =? 0)) eqn:G2; [done|].
  destruct (SketchMaxBins <=? delta) eqn:G3; [done|]. unfold SketchMaxBins in *.
  destruct (512 <=? index + delta - firstIndex) eqn:G4; [done|].
  destruct (r_uvarint r1) as [[c r2]|] eqn:E2; [|done]. cbn [rbind].
  apply r_uvarint_range in E2 as [Hc Hr2]; [|done]. destruct Hc as [Hc0 _].
  destruct (c =? 0) eqn:G5; [done|]. destruct (MaxUint32 <? c) eqn:G6; [done|].
  intros [= <- <- <-]. z_bool. split; [|done]. unfold MaxUint32 in *.
  set (k := index + delta - firstIndex).
  assert (bget (sk_bins s) k = 0) as Hk0.
  { unfold k. destruct (Nat.eqb_spec n 0) as [->|Hn0].
    - destruct G1 as [?|G1]; [done|]. z_bool. subst delta. destruct Hst as [-> ?]; [done|].
      by replace (firstIndex + 0 - firstIndex) with 0 by lia.
    - apply Htail. destruct G2 as [?|G2]; [done|]. z_bool. lia. }
  assert (0 <= k < 512) as Hk by (unfold k; lia).
  assert (forall j, bget (<[Z.to_nat k := c]> (sk_bins s)) j = if decide (k = j) then c else bget (sk_bins s) j) as Hg
    by (intros; apply bget_insert; [apply Hb|done]).
  assert (0 <= sk_binTotal s) by (rewrite Ht; by apply bsum_nonneg).
  rewrite u64_small by lia. constructor; cbn [set_binTotal set_bins sk_bins sk_binTotal].
  - apply bins_ok_insert; [done|unfold MaxUint32; lia].
  - rewrite bsum_insert, Hk0, Ht by (apply Hb || lia). lia.
  - unfold MaxUint32. lia.
  - unfold k in Hk. lia.
  - intros j Hj. rewrite Hg. case_decide; [unfold k in *; lia|]. apply Htail. lia.
  - intros _. rewrite !Hg. fold k. split; [|case_decide; lia]. case_decide; [lia|].
    destruct (Nat.eqb_spec n 0) as [->|Hn0]; [|by apply Hends].
    destruct G1 as [?|G1]; [done|]. z_bool. destruct Hst as [-> ?]; [done|]. unfold k in *. lia.
  - done.
  - rewrite Hfr. reflexivity.
Qed.

Lemma decode_bin_loop_inv m firstIndex n s0 r s index r' s' index' :
  decoding firstIndex n s0 s index -> Forall is_byte r -> (n + m <= 256)%nat ->
  decode_bin_loop m (n =? 0)%nat firstIndex (r, s, index) = Ok (r', s', index') ->
  decoding firstIndex (n + m) s0 s' index'.
Proof.
  revert n r s index. induction m as [|m IH]; intros n r s index HD Hr Hn; cbn [decode_bin_loop].
  - intros [= <- <- <-]. by rewrite Nat.add_0_r.
  - destruct (decode_bin _ _ _) as [[[r1 s1] i1]|] eqn:E; [|done]. cbn [rbind].
    eapply decode_bin_inv in E as [HD1 Hr1]; [|done|done|lia].
    intros H. apply (IH (S n)) in H; [|done|done|lia]. by replace (n + S m)%nat with (S n + m)%nat by lia.
Qed.

(** The shape of a decoded sketch. *)
Record valid_decoded (d : Sketch) : Prop := {
  vd_scale : sk_scale d <= SketchMaxScale;
  vd_sum : f_is_nan (sk_sum d) || f_is_inf (sk_sum d) = false;
  vd_zero : 0 <= sk_zeroCount d;
  vd_count : sk_zeroCount d + sk_binTotal d <= sk_count d < 2 ^ 64;
  vd_total : sk_binTotal d = bsum (sk_bins d) 512;
  vd_bins : bins_ok (sk_bins d);
  vd_saturations : sk_saturations d = 0;
  vd_empty : sk_hasBins d = false -> sk_bins d = zero_bins;
  vd_window : sk_hasBins d = true -> exists first last,
    MinInt32 <= first <= MaxInt32 /\ first <= last < first + 512 /\
    sk_minIdx d = first /\ sk_maxIdx d = i32 last /\
    0 < bget (sk_bins d) 0 /\ 0 < bget (sk_bins d) (last - first) /\
    forall k, last - first < k -> bget (sk_bins d) k = 0;
}.

Lemma decodeBins_inv r s0 n firstIndex r' d :
  sk_bins s0 = zero_bins -> sk_binTotal s0 = 0 -> sk_hasBins s0 = false ->
  Forall is_byte r -> 0 <= n <= 256 -> decodeBins r s0 n firstIndex = Ok (r', d) ->
  d = s0 \/
  exists last s, decoding firstIndex (Z.to_nat n) s0 s last /\ MinInt32 <= firstIndex <= MaxInt32 /\ 0 < n /\
    d = set_window (set_hasBins s) (i32 firstIndex) (i32 last).
Proof.
  intros Hb Ht Hh Hr Hn. unfold decodeBins. destruct (n =? 0) eqn:E0; z_bool.
  - destruct (negb _); [done|]. intros [= _ <-]. by left.
  - destruct ((firstIndex <? MinInt32) || _) eqn:E1; [done|]. z_bool.
    destruct (decode_bin_loop _ _ _ _) as [[[r1 s1] i1]|] eqn:E; [|done]. cbn [rbind]. intros [= _ <-].
    right. exists i1, s1. split; [|split; [lia|split; [lia|done]]].
    apply (decode_bin_loop_inv _ _ 0 s0) in E; [exact E| |done|lia].
    constructor; rewrite ?Hb, ?Ht; try done; try lia.
    + apply bins_ok_zero.
    + intros k _. apply bget_zero.
    + rewrite <- Hb, <- Ht. by destruct s0.
Qed.

Lemma valid_decoded_intro sum ct zc scale collapsed r n firstIndex r' d :
  scale <= SketchMaxScale -> f_is_nan sum || f_is_inf sum = false -> 0 <= zc -> ct < 2 ^ 64 ->
  Forall is_byte r -> 0 <= n <= 256 ->
  decodeBins r (mkSketch sum ct zc 0 0 0 0 scale collapsed false zero_bins) n firstIndex = Ok (r', d) ->
  (ct <? zc) || (u64 (ct - zc) <? sk_binTotal d) = false ->
  valid_decoded d.
Proof.
  intros Hs Hf Hz Hc Hr Hn E HC. z_bool. change (2 ^ 64) with 18446744073709551616 in Hc.
  match goal with H : sk_binTotal d <= _ |- _ => rename H into HT end. rewrite u64_small in HT by lia.
  apply decodeBins_inv in E as [->|(last & s & HD & Hfi & Hn0 & ->)]; try done.
  - constructor; cbn [sk_bins sk_scale sk_sum sk_zeroCount sk_binTotal sk_count sk_saturations sk_hasBins] in *;
      try done; try (change (2 ^ 64) with 18446744073709551616); try lia;
      first [by apply orb_false_iff | apply bins_ok_zero].
  - destruct HD as [D1 D2 D3 D4 D5 D6 D7 D8]. rewrite D8 in HT |- *.
    constructor; cbn [set_window set_hasBins set_binTotal set_bins sk_bins sk_scale sk_sum sk_zeroCount sk_binTotal sk_count
      sk_saturations sk_hasBins sk_minIdx sk_maxIdx] in *; try done;
      try (change (2 ^ 64) with 18446744073709551616); try lia; [by apply orb_false_iff|].
    intros _. exists firstIndex, last. destruct D6 as [D6 D6']; [lia|].
    unfold MinInt32, MaxInt32 in *. split_and!; try done; try lia. apply i32_small. lia.
Qed.

(** C39: whatever the decoder accepts is structurally sound: a known scale, a
    finite sum, a count that covers the zero count and the bins without
    wrap-around, bins whose total is the recorded total, and no bin past the
    window; the window itself is [first, int32(last)]. *)
Theorem decode_valid (data : bytes) (d : Sketch) :
  Forall is_byte data -> DecodeSketch data = Some (Ok d) -> valid_decoded d.
Proof.
  intros HB. unfold DecodeSketch, DecodeSketchInto.
  destruct data as [|v [|sc [|fl r]]]; try done.
  do 3 (apply Forall_cons in HB as [_ HB]).
  destruct (negb _); [done|]. destruct (SketchMaxScale <? sc) eqn:E0; [done|]. destruct (negb _); [done|].
  destruct (r_uvarint r) as [[zc r1]|] eqn:E1; [|done]. apply r_uvarint_range in E1 as [H1 Hr1]; [|done].
  cbn [rbind]. destruct (r_uvarint r1) as [[ct r2]|] eqn:E2; [|done]. apply r_uvarint_range in E2 as [H2' Hr2]; [|done].
  cbn [rbind]. destruct (r_uint64 r2) as [[bits r3]|] eqn:E3; [|done]. apply r_uint64_range in E3 as [H3 Hr3]; [|done].
  cbn [rbind]. destruct (f_is_nan _ || f_is_inf _) eqn:EF; [done|].
  destruct (r_uvarint r3) as [[n r4]|] eqn:E4; [|done]. apply r_uvarint_range in E4 as [H4 Hr4]; [|done].
  cbn [rbind]. destruct (SketchMaxSerializedBins <? n) eqn:E5; [done|].
  destruct (r_varint r4) as [[fi r5]|] eqn:E6; [|done]. apply r_varint_range in E6 as [H6 Hr5]; [|done].
  cbn [rbind]. rewrite (reset_wf _ (wf_empty_sketch 0)). cbn [mbind option_bind].
  change (sk_saturations (empty_sketch 0)) with 0.
  set (d0 := set_totals _ _ _ _ _). set (col := negb (Z.land fl _ =? 0)).
  assert ((if col then set_collapsed d0 else d0) =
    mkSketch (Float64frombits bits) ct zc 0 0 0 0 sc col false zero_bins) as -> by (by destruct col).
  destruct (decodeBins r5 _ n fi) as [[r6 d']|] eqn:ED; [|done]. cbn [rbind].
  destruct (negb (length r6 =? 0)%nat); [discriminate|]. destruct ((ct <? zc) || _) eqn:EC; [discriminate|]. intros [= <-]. apply Z.ltb_ge in E0, E5.
  unfold SketchMaxSerializedBins in E5. destruct H1 as [H1 _], H2' as [_ H2'], H4 as [H4 _].
  eapply valid_decoded_intro; [exact E0|exact EF|exact H1|exact H2'|exact Hr5| |exact ED|exact EC]. lia.
Qed.

Definition demo_bytes : bytes :=
  [1; 4; 0; 2; 7; 0; 0; 0; 0; 0; 0; 0; 0; 2; 20; 0; 3; 2; 2].

Lemma decode_valid_witness :
  exists d, DecodeSketch demo_bytes = Some (Ok d) /\ valid_decoded d.
Proof.
  destruct (DecodeSketch demo_bytes) as [[d|e]|] eqn:E; [|exfalso; vm_compute in E; discriminate|exfalso; vm_compute in E; discriminate].
  exists d. split; [reflexivity|].
  apply (decode_valid demo_bytes d); [apply (bool_decide_unpack _); vm_compute; exact I|exact E].
Defined.

(** A sketch that holds observations is encodable. *)
Lemma holds_encodable l sum zero s :
  holds l sum zero s -> l <> [] -> 0 <= sk_scale s <= SketchMaxScale ->
  f_valid sum = true -> f_is_nan sum || f_is_inf sum = false -> total l + zero < 2 ^ 64 -> encodable s.
Proof.
  intros [HR HS HZ HC HSat HZR] Hl Hsc Hv Hf Ht. pose proof (total_nonneg l (rep_pos _ _ _ HR)).
  constructor; try done; try congruence; try lia; [apply HR|rewrite HC, HZ, (rep_total _ _ _ HR); lia|].
  by rewrite (rep_total _ _ _ HR), (rep_bsum_all _ _ _ HR).
Qed.

(** Ascending observations within one window are the populated bins. *)
Lemma nzw_rep c0 l s p :
  rep c0 l s -> l <> [] -> asc p l -> Forall (fun q => floor_of s <= fst q) l -> nzw s = l.
Proof.
  intros HR Hl Ha HF. pose proof (rep_wf _ _ _ HR) as Hwf.
  apply (asc_ext (Z.min p (sk_minIdx s - 1))).
  - eapply asc_weaken; [|by apply nzw_asc]. lia.
  - eapply asc_weaken; [|done]. lia.
  - intros j. by rewrite count_nzw, (rep_bins _ _ _ HR Hl), weight_count_at.
Qed.

(** One observation in each of 300 neighbouring buckets. *)
Definition demo_wide : list (Z * Z) := map (fun i : nat => (Z.of_nat i, 1)) (seq 0 300).

Lemma demo_wide_sketch :
  exists s, holds demo_wide f_zero 0 s /\ encodable s /\ nzw s = demo_wide /\
    bsum (sk_bins s) 512 <= MaxUint32.
Proof.
  destruct (holds_exists demo_wide) as (s & HH & Hsc);
    [apply (bool_decide_unpack _); vm_compute; exact I|by vm_compute|].
  pose proof (h_rep _ _ _ _ HH) as HR. exists s. split; [done|]. split.
  { eapply holds_encodable; [exact HH|done|rewrite Hsc; by vm_compute|done|done|by vm_compute]. }
  split; [|rewrite (rep_bsum_all _ _ _ HR) by done; by vm_compute].
  eapply (nzw_rep _ _ _ (-1)); [exact HR|done| |].
  - pose proof (asc_seq (fun _ => 1) 0 300 0 ltac:(unfold MaxUint32; lia)) as H. exact H.
  - destruct (rep_max_in _ _ _ HR) as (q & Hq & Eq); [done|].
    apply list_elem_of_fmap in Hq as (i & -> & Hi). apply elem_of_seq in Hi. simpl in Eq.
    apply Forall_forall. intros q' (i' & -> & Hi')%list_elem_of_fmap. unfold floor_of. simpl. lia.
Qed.

Lemma encode_capped_witness :
  exists s, holds demo_wide f_zero 0 s /\
  exists data d, Encode s = Some data /\ DecodeSketch data = Some (Ok d) /\ Encode d = Some data /\
    nzw d = (44, 45) :: drop 45 demo_wide /\ sk_collapsed d = true /\
    sk_count d = sk_count s /\ sk_zeroCount d = sk_zeroCount s /\ sk_sum d = sk_sum s /\
    sk_binTotal d = sk_binTotal s.
Proof.
  destruct demo_wide_sketch as (s & HH & He & HN & Hsum). exists s. split; [exact HH|].
  apply (encode_capped s (take 44 demo_wide) (drop 45 demo_wide) 44 1 He Hsum);
    [rewrite HN; by vm_compute|by vm_compute|by vm_compute].
Defined.

Lemma decode_encode_witness :
  exists s, holds [(10, 3)] f_zero 0 s /\
  exists data d, Encode s = Some data /\ DecodeSketch data = Some (Ok d) /\
    wf_sketch d /\ same_value s d /\ sk_saturations d = 0 /\ Encode d = Some data.
Proof.
  destruct (holds_exists [(10, 3)]) as (s & HH & Hsc);
    [apply (bool_decide_unpack _); vm_compute; exact I|by vm_compute|].
  exists s. split; [exact HH|]. apply (decode_encode s).
  - eapply holds_encodable; [exact HH|done|rewrite Hsc; by vm_compute|done|done|by vm_compute].
  - pose proof (h_rep _ _ _ _ HH) as HR.
    rewrite (nzw_rep _ [(10, 3)] s 9 HR); [simpl; lia|done|by vm_compute|].
    destruct (rep_max_in _ _ _ HR) as (q & Hq & Eq); [done|].
    apply list_elem_of_singleton in Hq as ->. constructor; [|constructor]. unfold floor_of. simpl in *. lia.
Defined.

(** ** Limits of the format *)

Definition decoded_of (data : bytes) : Sketch :=
  match DecodeSketch data with Some (Ok d) => d | _ => empty_sketch 0 end.
Definition encoded_of (s : Sketch) : bytes := default [] (Encode s).

(** Finding: the decoder is not canonical: an over-long varint is accepted, so a
    decoded sketch does not re-encode to the input bytes. *)
Theorem decode_not_canonical :
  exists data d data', DecodeSketch data = Some (Ok d) /\ Encode d = Some data' /\ data' <> data.
Proof.
  set (data := [1; 4; 0; 128; 0; 0; 0; 0; 0; 0; 0; 0; 0; 0; 0; 0]).
  exists data, (decoded_of data), (encoded_of (decoded_of data)). by vm_compute.
Qed.

(** Finding: a first index near the top of the [int32] range passes the checks of
    [decodeBins], but [int32(index)] wraps: the decoded window is empty
    ([maxIdx < minIdx]), so the populated bins are invisible and the sketch
    encodes to one with none; with a single bin at the last index the window
    loops run off the array. *)
Theorem decode_index_wraps :
  (exists data d d', DecodeSketch data = Some (Ok d) /\ sk_binTotal d = 2 /\
     sk_maxIdx d < sk_minIdx d /\ PopulatedBins d = Some 0 /\
     (exists data', Encode d = Some data' /\ DecodeSketch data' = Some (Ok d') /\ sk_binTotal d' = 0)) /\
  (exists data d, DecodeSketch data = Some (Ok d) /\ PopulatedBins d = None).
Proof.
  split.
  - set (data := [1; 4; 0; 0; 2] ++ le_put 8 0 ++ [2] ++ AppendVarint [] MaxInt32 ++ [0; 1; 1; 1]).
    exists data, (decoded_of data), (decoded_of (encoded_of (decoded_of data))).
    do 4 (split; [by vm_compute|]). exists (encoded_of (decoded_of data)). by vm_compute.
  - set (data := [1; 4; 0; 0; 1] ++ le_put 8 0 ++ [1] ++ AppendVarint [] MaxInt32 ++ [0; 1]).
    exists data, (decoded_of data). by vm_compute.
Qed.
