(* ===== verification/Histogram.v ===== *)
(** * Histogram: folding OTLP histogram points ([internal/aggregate/histogram.go])

    A data point is validated, then reduced to a [HistogramFold]: its scalars
    and, where the positive-only sketch can hold the distribution, a sketch.
    The identity fields of a point (tenant, names, attributes, timestamps) are
    the reducer's business and are not part of [HistogramCommon] here. *)
From S2P Require Import Prelude Float64 Sketch.

(** What makes a point malformed; every one wraps [ErrHistogramMalformed]. *)
Inductive malformed :=
| NonFiniteSum | NonFiniteMin | NonFiniteMax | MinAboveMax
| TooManyBuckets | IndexOverflow | ScaleOutside | CountsOverflow | CountDisagrees
| BucketsForBounds | BoundNotFinite | BoundNotAscending.

(* internal/aggregate/histogram.go:38-41 ExpHistogramMinScale *)
Definition ExpHistogramMinScale : Z := -10.
Definition ExpHistogramMaxScale : Z := 20.

(* internal/aggregate/histogram.go:47-65 SketchDropReason *)
Definition SketchDropReason : Type := Z.
Definition SketchDropNone : SketchDropReason := 0.
Definition SketchDropNegativeObservations : SketchDropReason := 1.
Definition SketchDropScaleOutOfRange : SketchDropReason := 2.
Definition SketchDropNoFiniteBoundaries : SketchDropReason := 3.

(* internal/aggregate/histogram.go:68-79 SketchDropReason.String *)
Definition SketchDropReason_String (r : SketchDropReason) : string :=
  if r =? SketchDropNegativeObservations then "negative_observations"
  else if r =? SketchDropScaleOutOfRange then "scale_out_of_range"
  else if r =? SketchDropNoFiniteBoundaries then "no_finite_boundaries"
  else "none".

(* internal/aggregate/histogram.go:83-96 HistPercentilesUnavailable *)
Definition HistPercentilesUnavailable : Z := 1.
Definition HistUnboundedTail : Z := 2.
Definition HistHasMin : Z := 4.
Definition HistHasMax : Z := 8.
Definition histReasonShift : Z := 8.
Definition histReasonMask : Z := u32 (Z.shiftl 255 histReasonShift).

(** [a &^ b] *)
Definition and_not (a b : Z) : Z := Z.land a (Z.lxor b MaxUint32).

(* internal/aggregate/histogram.go:99-101 histReason *)
Definition histReason (flags : Z) : SketchDropReason :=
  u8 (Z.shiftr (Z.land flags histReasonMask) histReasonShift).

(* internal/aggregate/histogram.go:104-106 withHistReason *)
Definition withHistReason (flags : Z) (reason : SketchDropReason) : Z :=
  Z.lor (and_not flags histReasonMask) (u32 (Z.shiftl reason histReasonShift)).

(* internal/aggregate/histogram.go:110-113 ExpBuckets *)
Record ExpBuckets := mkExpBuckets { eb_Offset : Z; eb_Counts : list Z }.

Fixpoint total_from (sum : Z) (counts : list Z) : option Z :=
  match counts with
  | [] => Some sum
  | c :: cs =>
      let next := u64 (sum + c) in
      if next <? sum then None else total_from next cs
  end.

(* internal/aggregate/histogram.go:116-126 ExpBuckets.total *)
Definition eb_total (b : ExpBuckets) : option Z := total_from 0 (eb_Counts b).

(* internal/aggregate/histogram.go:132-154 HistogramCommon *)
Record HistogramCommon := mkCommon {
  hc_Count : Z;
  hc_Sum : f64;
  hc_HasSum : bool;
  hc_Min : f64;
  hc_HasMin : bool;
  hc_Max : f64;
  hc_HasMax : bool;
}.

(* internal/aggregate/histogram.go:161-165 HistogramInput *)
Record HistogramInput := mkHistogramInput {
  hi_common : HistogramCommon;
  hi_Bounds : list f64;
  hi_BucketCounts : list Z;
}.

(* internal/aggregate/histogram.go:168-174 ExponentialHistogramInput *)
Record ExponentialHistogramInput := mkExponentialInput {
  ei_common : HistogramCommon;
  ei_Scale : Z;
  ei_ZeroCount : Z;
  ei_Positive : ExpBuckets;
  ei_Negative : ExpBuckets;
}.

(* internal/aggregate/histogram.go:182-211 HistogramFold *)
Record HistogramFold := mkFold {
  hf_Sketch : option Sketch;
  hf_Count : Z;
  hf_Sum : f64;
  hf_HasSum : bool;
  hf_Min : f64;
  hf_HasMin : bool;
  hf_Max : f64;
  hf_HasMax : bool;
  hf_PercentilesUnavailable : bool;
  hf_DropReason : SketchDropReason;
  hf_SourceBucketError : f64;
  hf_UnboundedTail : bool;
  hf_UnboundedTailBound : f64;
  hf_UnboundedTailCount : Z;
}.

(** [flags |= bit] under a condition. *)
Definition or_if (b : bool) (bit flags : Z) : Z := if b then Z.lor flags bit else flags.

(* internal/aggregate/histogram.go:214-229 HistogramFold.flags *)
Definition flags (f : HistogramFold) : Z :=
  let fl := or_if (hf_PercentilesUnavailable f) HistPercentilesUnavailable 0 in
  let fl := or_if (hf_UnboundedTail f) HistUnboundedTail fl in
  let fl := or_if (hf_HasMin f) HistHasMin fl in
  let fl := or_if (hf_HasMax f) HistHasMax fl in
  withHistReason fl (hf_DropReason f).

(* internal/aggregate/histogram.go:232-236 HistogramFold.scalarsOnly *)
Definition scalarsOnly (f : HistogramFold) (reason : SketchDropReason) : HistogramFold :=
  mkFold None (hf_Count f) (hf_Sum f) (hf_HasSum f) (hf_Min f) (hf_HasMin f) (hf_Max f) (hf_HasMax f)
    true reason (hf_SourceBucketError f)
    (hf_UnboundedTail f) (hf_UnboundedTailBound f) (hf_UnboundedTailCount f).

Definition set_Sketch (f : HistogramFold) (s : Sketch) : HistogramFold :=
  mkFold (Some s) (hf_Count f) (hf_Sum f) (hf_HasSum f) (hf_Min f) (hf_HasMin f) (hf_Max f) (hf_HasMax f)
    (hf_PercentilesUnavailable f) (hf_DropReason f) (hf_SourceBucketError f)
    (hf_UnboundedTail f) (hf_UnboundedTailBound f) (hf_UnboundedTailCount f).
Definition set_SourceError (f : HistogramFold) (e : f64) : HistogramFold :=
  mkFold (hf_Sketch f) (hf_Count f) (hf_Sum f) (hf_HasSum f) (hf_Min f) (hf_HasMin f) (hf_Max f) (hf_HasMax f)
    (hf_PercentilesUnavailable f) (hf_DropReason f) e
    (hf_UnboundedTail f) (hf_UnboundedTailBound f) (hf_UnboundedTailCount f).
Definition set_Tail (f : HistogramFold) (tail : bool) (bound : f64) (n : Z) : HistogramFold :=
  mkFold (hf_Sketch f) (hf_Count f) (hf_Sum f) (hf_HasSum f) (hf_Min f) (hf_HasMin f) (hf_Max f) (hf_HasMax f)
    (hf_PercentilesUnavailable f) (hf_DropReason f) (hf_SourceBucketError f) tail bound n.

(* internal/aggregate/histogram.go:239-249 foldScalars *)
Definition foldScalars (c : HistogramCommon) : HistogramFold :=
  mkFold None (hc_Count c) (hc_Sum c) (hc_HasSum c) (hc_Min c) (hc_HasMin c) (hc_Max c) (hc_HasMax c)
    false SketchDropNone f_zero false f_zero 0.

Definition non_finite (x : f64) : bool := f_is_nan x || f_is_inf x.

(* internal/aggregate/histogram.go:254-268 validateScalars *)
Definition validateScalars (c : HistogramCommon) : option malformed :=
  if hc_HasSum c && non_finite (hc_Sum c) then Some NonFiniteSum
  else if hc_HasMin c && non_finite (hc_Min c) then Some NonFiniteMin
  else if hc_HasMax c && non_finite (hc_Max c) then Some NonFiniteMax
  else if hc_HasMin c && hc_HasMax c && fgt (hc_Min c) (hc_Max c) then Some MinAboveMax
  else None.

(* internal/aggregate/histogram.go:273-273 maxExpBuckets *)
Definition maxExpBuckets : Z := 2 ^ 16.

(* internal/aggregate/histogram.go:276-285 validateExpBuckets *)
Definition validateExpBuckets (b : ExpBuckets) : option malformed :=
  let n := Z.of_nat (length (eb_Counts b)) in
  if maxExpBuckets <? n then Some TooManyBuckets
  else if MaxInt32 <? eb_Offset b + n then Some IndexOverflow
  else None.

Definition require {A} (m : option A) (e : malformed) : result malformed A :=
  match m with Some a => Ok a | None => Err e end.

(* internal/aggregate/histogram.go:463-474 bucketMidpoint *)
Definition bucketMidpoint (lower upper : f64) : f64 * f64 :=
  if fle lower f_zero then (fdiv upper f_two, f_one)
  else (fsqrt (fmul lower upper), fsub (fsqrt (fdiv upper lower)) f_one).

Fixpoint validate_ascending (prev : f64) (bounds : list f64) : option malformed :=
  match bounds with
  | [] => None
  | b :: bs =>
      if non_finite b then Some BoundNotFinite
      else if fle b prev then Some BoundNotAscending
      else validate_ascending b bs
  end.

(* internal/aggregate/histogram.go:479-512 validateBounds *)
Definition validateBounds (i : HistogramInput) : option malformed :=
  let nc := length (hi_BucketCounts i) in
  let nb := length (hi_Bounds i) in
  if (nc =? 0)%nat && (nb =? 0)%nat then
    if negb (hc_Count (hi_common i) =? 0) then Some CountDisagrees else None
  else if negb (nc =? nb + 1)%nat then Some BucketsForBounds
  else
    match validate_ascending (f_inf true) (hi_Bounds i) with
    | Some e => Some e
    | None =>
        match total_from 0 (hi_BucketCounts i) with
        | None => Some CountsOverflow
        | Some total => if negb (total =? hc_Count (hi_common i)) then Some CountDisagrees else None
        end
    end.

Section Folding.
  Context `{GoMath}.

(** The loop of [FoldExponentialHistogram] over the positive buckets. *)
Fixpoint observe_buckets (offset shift i : Z) (counts : list Z) (sk : Sketch) : option Sketch :=
  match counts with
  | [] => Some sk
  | c :: cs =>
      if c =? 0 then observe_buckets offset shift (i + 1) cs sk
      else
        let idx := i32 (offset + i32 i) in
        let idx := if 0 <? shift then Z.shiftr idx shift else idx in
        sk ← ObserveBucket sk idx c;
        observe_buckets offset shift (i + 1) cs sk
  end.

(* internal/aggregate/histogram.go:307-371 FoldExponentialHistogram *)
Definition FoldExponentialHistogram (i : ExponentialHistogramInput)
    : result malformed (option HistogramFold) :=
  guard_none (validateScalars (ei_common i))
    (if (ei_Scale i <? ExpHistogramMinScale) || (ExpHistogramMaxScale <? ei_Scale i) then Err ScaleOutside
     else
       guard_none (validateExpBuckets (ei_Positive i))
         (guard_none (validateExpBuckets (ei_Negative i))
           (let? posTotal := require (eb_total (ei_Positive i)) CountsOverflow in
            let? negTotal := require (eb_total (ei_Negative i)) CountsOverflow in
            let observed := u64 (u64 (ei_ZeroCount i + posTotal) + negTotal) in
            if (observed <? posTotal) || negb (hc_Count (ei_common i) =? observed) then Err CountDisagrees
            else
              let fold := foldScalars (ei_common i) in
              if 0 <? negTotal then Ok (Some (scalarsOnly fold SketchDropNegativeObservations))
              else if ei_Scale i <? 0 then Ok (Some (scalarsOnly fold SketchDropScaleOutOfRange))
              else
                let scale := u8 (ei_Scale i) in
                Ok
                  (let shift := if SketchDefaultScale <? scale then scale - SketchDefaultScale else 0 in
                   sk ← (if (negb (SketchDefaultScale <? scale) && (scale <? SketchDefaultScale))%bool
                         then downscale NewSketch scale else Some NewSketch);
                   sk ← observe_buckets (eb_Offset (ei_Positive i)) shift 0 (eb_Counts (ei_Positive i)) sk;
                   Some (set_Sketch fold (ObserveZero sk (ei_ZeroCount i))))))).

(** One finite bucket of [FoldHistogram]: the early return when the bucket
    admits negative values, or the fold and sketch after the weighted
    observation. *)
Definition fold_bucket (i : HistogramInput) (lower upper : f64) (c : Z)
    (fold : HistogramFold) (sk : Sketch) : option (HistogramFold + HistogramFold * Sketch) :=
  let hc := hi_common i in
  let nonNegative := hc_HasMin hc && fge (hc_Min hc) f_zero in
  let lower := if hc_HasMin hc && fgt (hc_Min hc) lower then hc_Min hc else lower in
  if (flt lower f_zero || fle upper f_zero) && (negb nonNegative || fle upper f_zero) then
    Some (inl (set_Tail (scalarsOnly fold SketchDropNegativeObservations) false f_zero 0))
  else
    let lower := if flt lower f_zero || fle upper f_zero then f_zero else lower in
    let '(mid, relErr) := bucketMidpoint lower upper in
    let fold := if fgt relErr (hf_SourceBucketError fold) then set_SourceError fold relErr else fold in
    sk ← ObserveN sk mid c;
    Some (inr (fold, sk)).

(** The loop of [FoldHistogram] from bucket [k]; [prev] is [in.Bounds[k-1]], or
    -Inf at the first bucket. *)
Fixpoint fold_buckets (i : HistogramInput) (prev : f64) (bounds : list f64) (counts : list Z)
    (fold : HistogramFold) (sk : Sketch) {struct counts} : option (HistogramFold + HistogramFold * Sketch) :=
  match counts with
  | [] => Some (inr (fold, sk))
  | [c] =>
      if c =? 0 then Some (inr (fold, sk))
      else Some (inr (set_Tail fold true prev (u64 (hf_UnboundedTailCount fold + c)), sk))
  | c :: cs =>
      match bounds with
      | [] => None
      | upper :: bs =>
          if c =? 0 then fold_buckets i upper bs cs fold sk
          else
            r ← fold_bucket i prev upper c fold sk;
            match r with
            | inl f => Some (inl f)
            | inr (fold, sk) => fold_buckets i upper bs cs fold sk
            end
      end
  end.

(* internal/aggregate/histogram.go:392-458 FoldHistogram *)
Definition FoldHistogram (i : HistogramInput) : result malformed (option HistogramFold) :=
  guard_none (validateScalars (hi_common i))
    (guard_none (validateBounds i)
      (let fold := foldScalars (hi_common i) in
       if (hc_Count (hi_common i) =? 0) || (length (hi_BucketCounts i) =? 0)%nat then
         Ok (Some (set_Sketch fold NewSketch))
       else if (length (hi_Bounds i) =? 0)%nat then
         Ok (Some (scalarsOnly fold SketchDropNoFiniteBoundaries))
       else
         Ok
           (r ← fold_buckets i (f_inf true) (hi_Bounds i) (hi_BucketCounts i) fold NewSketch;
            match r with
            | inl f => Some f
            | inr (fold, sk) => Some (set_Sketch fold sk)
            end))).

End Folding.

(** ** Facts *)

Definition zsum (l : list Z) : Z := foldr Z.add 0 l.

Definition u64_counts (l : list Z) : Prop := Forall (fun c => 0 <= c < 18446744073709551616) l.

Lemma zsum_nonneg l : u64_counts l -> 0 <= zsum l.
Proof. induction 1; simpl; lia. Qed.

(** [ExpBuckets.total]: the exact sum, or the overflow report. *)
Lemma total_from_spec l sum :
  u64_counts l -> 0 <= sum < 18446744073709551616 ->
  total_from sum l = if sum + zsum l <? 18446744073709551616 then Some (sum + zsum l) else None.
Proof.
  intros Hl. revert sum. induction Hl as [|c l Hc Hl IH]; intros sum Hs; simpl.
  - rewrite Z.add_0_r. by go_cases.
  - pose proof (zsum_nonneg l Hl). destruct (decide (sum + c < 18446744073709551616)).
    + rewrite u64_small by lia. destruct (_ <? sum) eqn:E; z_bool; [lia|].
      rewrite IH by lia. by rewrite Z.add_assoc.
    + assert (u64 (sum + c) = sum + c - 18446744073709551616) as ->.
      { unfold wrapu. change (2 ^ 64) with 18446744073709551616. zlia. }
      destruct (_ <? sum) eqn:E; z_bool; [|lia]. destruct (_ <? 18446744073709551616) eqn:E2; z_bool; [lia|done].
Qed.

Lemma rep_set_totals c l s sum count zc sat : rep c l s -> rep c l (set_totals s sum count zc sat).
Proof. intros [[W1 W2 W3] R2 R3 R4 R5 R6 R7 R8 R9 R10]. constructor; try done. Qed.

Section FoldFacts.
  Context `{GoMath}.

Lemma ObserveBucket_rep c0 l s i n :
  rep c0 l s -> idx_ok i -> 0 < n -> total l + n <= MaxUint32 -> 0 <= sk_count s -> sk_count s + n < 2 ^ 64 ->
  exists s', ObserveBucket s i n = Some s' /\ rep c0 (l ++ [(i, n)]) s' /\
    sk_count s' = sk_count s + n /\ sk_zeroCount s' = sk_zeroCount s /\ sk_scale s' = sk_scale s /\
    sk_saturations s' = sk_saturations s.
Proof.
  intros HR Hi Hn Ht Hc0 Hc. change (2 ^ 64) with 18446744073709551616 in Hc.
  unfold ObserveBucket. destruct (n =? 0) eqn:E; z_bool; [lia|]. rewrite u64_small by lia.
  destruct (add_rep c0 l (set_totals s (fadd (sk_sum s) (fmul (sketchValue i (sk_scale s)) (f_of_Z n)))
    (sk_count s + n) (sk_zeroCount s) (sk_saturations s)) i n) as (s' & EA & R' & F1 & F2 & F3 & F4 & F5);
    [by apply rep_set_totals|done..|].
  exists s'. by split_and!.
Qed.

(** The observations the positive buckets stand for at the fold's scale. *)
Fixpoint exp_pairs (offset shift i : Z) (counts : list Z) : list (Z * Z) :=
  match counts with
  | [] => []
  | c :: cs =>
      (if c =? 0 then [] else [(Z.shiftr (offset + i) shift, c)]) ++ exp_pairs offset shift (i + 1) cs
  end.

Lemma total_exp_pairs offset shift i counts : total (exp_pairs offset shift i counts) = zsum counts.
Proof.
  revert i. induction counts as [|c cs IH]; intros i; [done|]. simpl. rewrite total_app, IH.
  destruct (c =? 0) eqn:E; z_bool; simpl; lia.
Qed.

Lemma idx_ok_shiftr x shift : 0 <= shift -> idx_ok x -> idx_ok (Z.shiftr x shift).
Proof. intros Hs Hx. destruct (shiftr_window x x shift) as (? & _); try done. lia. Qed.

Lemma observe_buckets_rep c0 offset shift counts i l s :
  rep c0 l s -> 0 <= shift -> 0 <= i -> u64_counts counts ->
  - 2 ^ 30 <= offset -> offset + i + Z.of_nat (length counts) <= 2 ^ 30 ->
  i + Z.of_nat (length counts) <= maxExpBuckets ->
  total l + zsum counts <= MaxUint32 -> 0 <= sk_count s -> sk_count s + zsum counts < 2 ^ 64 ->
  exists s', observe_buckets offset shift i counts s = Some s' /\
    rep c0 (l ++ exp_pairs offset shift i counts) s' /\
    sk_count s' = sk_count s + zsum counts /\ sk_zeroCount s' = sk_zeroCount s /\
    sk_scale s' = sk_scale s /\ sk_saturations s' = sk_saturations s.
Proof.
  intros HR Hs Hi Hu. revert i l s HR Hi. induction Hu as [|c cs Hc Hu IH]; intros i l s HR Hi Ho1 Ho2 Hcap Ht Hc0 Hct.
  - exists s. simpl. rewrite app_nil_r. split_and!; try done; lia.
  - simpl zsum in *. pose proof (zsum_nonneg cs Hu). simpl length in *. unfold maxExpBuckets in Hcap.
    change (2 ^ 64) with 18446744073709551616 in *. change (2 ^ 30) with 1073741824 in *. change (2 ^ 16) with 65536 in *.
    cbn [observe_buckets exp_pairs]. destruct (c =? 0) eqn:E; z_bool.
    + subst c. destruct (IH (i + 1) l s) as (s' & E' & R'); try done; try lia.
      { unfold maxExpBuckets. change (2 ^ 16) with 65536. lia. } exists s'. by rewrite Z.add_0_l.
    + rewrite (i32_small i), i32_small by lia.
      assert (idx_ok (offset + i)) as Hok by (idx; lia).
      set (idx := if 0 <? shift then Z.shiftr (offset + i) shift else offset + i).
      assert (idx = Z.shiftr (offset + i) shift) as Eidx.
      { unfold idx. destruct (0 <? shift) eqn:E2; z_bool; [done|]. by replace shift with 0 by lia. }
      rewrite Eidx. destruct (ObserveBucket_rep c0 l s (Z.shiftr (offset + i) shift) c)
        as (s1 & E1 & R1 & C1 & Z1 & Sc1 & Sa1); [done|by apply idx_ok_shiftr|lia|lia|lia|change (2 ^ 64) with 18446744073709551616; lia|].
      rewrite E1. cbn [mbind option_bind].
      destruct (IH (i + 1) (l ++ [(Z.shiftr (offset + i) shift, c)]) s1) as (s' & E' & R' & C' & Z' & Sc' & Sa');
        try done; try lia.
      { unfold maxExpBuckets. change (2 ^ 16) with 65536. lia. }
      { rewrite total_app. simpl. lia. }
      exists s'. rewrite <- app_assoc in R'. split_and!; try done; try congruence. lia.
Qed.

(** Scalars pass through a fold untouched, and the sketch is withheld exactly
    when percentiles are unavailable, with a reason exactly then. *)
Record fold_consistent (c : HistogramCommon) (f : HistogramFold) : Prop := {
  fc_count : hf_Count f = hc_Count c;
  fc_sum : hf_Sum f = hc_Sum c /\ hf_HasSum f = hc_HasSum c;
  fc_min : hf_Min f = hc_Min c /\ hf_HasMin f = hc_HasMin c;
  fc_max : hf_Max f = hc_Max c /\ hf_HasMax f = hc_HasMax c;
  fc_sketch : hf_Sketch f = None <-> hf_PercentilesUnavailable f = true;
  fc_reason : hf_DropReason f <> SketchDropNone <-> hf_PercentilesUnavailable f = true;
  fc_range : 0 <= hf_DropReason f <= 3;
}.

(** The scalars of a fold in progress, whose sketch is not attached yet. *)
Definition in_progress (c : HistogramCommon) (f : HistogramFold) : Prop :=
  fold_consistent c (set_Sketch f NewSketch) /\ hf_PercentilesUnavailable f = false.

Lemma in_progress_scalars c : in_progress c (foldScalars c).
Proof. by repeat split. Qed.

Lemma in_progress_done c f s : in_progress c f -> fold_consistent c (set_Sketch f s).
Proof. intros [[H1 H2 H3 H4 H5 H6 H7] HU]. constructor; try done; simpl in *; rewrite HU in *; naive_solver. Qed.

Lemma in_progress_scalarsOnly c f r :
  in_progress c f -> 1 <= r <= 3 -> fold_consistent c (scalarsOnly f r).
Proof.
  intros [[H1 H2 H3 H4 H5 H6 H7] HU] Hr. constructor; try done; simpl; try lia.
  unfold SketchDropNone. split; [done|intros _; lia].
Qed.

Lemma fold_consistent_set_Tail c f t b n : fold_consistent c f -> fold_consistent c (set_Tail f t b n).
Proof. by intros []. Qed.

Lemma in_progress_set_Tail c f t b n : in_progress c f -> in_progress c (set_Tail f t b n).
Proof. by intros [[] ?]. Qed.

Lemma fold_bucket_consistent c i lo up n f sk r :
  in_progress c f -> fold_bucket i lo up n f sk = Some r ->
  match r with inl f' => fold_consistent c f' | inr (f', _) => in_progress c f' end.
Proof.
  intros Hf. unfold fold_bucket. set (low := if (_ && _)%bool then _ else lo).
  destruct ((_ || _) && _)%bool.
  { intros [= <-]. apply fold_consistent_set_Tail, in_progress_scalarsOnly; [done|by vm_compute]. }
  destruct (bucketMidpoint _ _) as [mid relErr].
  destruct (ObserveN sk mid n); [|done]. intros [= <-].
  destruct (fgt relErr _); [|done]. by destruct Hf as [[] ?].
Qed.

Lemma fold_buckets_consistent c i prev bounds counts f sk r :
  in_progress c f -> fold_buckets i prev bounds counts f sk = Some r ->
  match r with inl f' => fold_consistent c f' | inr (f', _) => in_progress c f' end.
Proof.
  revert prev bounds f sk. induction counts as [|n [|n' cs] IH]; intros prev bounds f sk Hf.
  - cbn [fold_buckets]. by intros [= <-].
  - cbn [fold_buckets]. destruct (n =? 0); intros [= <-]; [done|by apply in_progress_set_Tail].
  - change (fold_buckets i prev bounds (n :: n' :: cs) f sk) with
      (match bounds with
       | [] => None
       | upper :: bs =>
           if n =? 0 then fold_buckets i upper bs (n' :: cs) f sk
           else
             r ← fold_bucket i prev upper n f sk;
             match r with inl f => Some (inl f) | inr (f, sk) => fold_buckets i upper bs (n' :: cs) f sk end
       end).
    destruct bounds as [|upper bs]; [done|]. destruct (n =? 0); [by apply IH|].
    destruct (fold_bucket i prev upper n f sk) as [r'|] eqn:E; [|done].
    apply (fold_bucket_consistent c) in E; [|done]. cbn [mbind option_bind].
    destruct r' as [f'|[f' sk']]; [by intros [= <-]|]. by apply IH.
Qed.

(** Whatever either fold accepts, the point's count, sum, min and max reach
    the fold unchanged, and the sketch is missing exactly when percentiles are
    marked unavailable, with a reason exactly then: the two can never disagree. *)
Theorem folds_consistent (ei : ExponentialHistogramInput) (hi : HistogramInput) (f g : HistogramFold) :
  FoldExponentialHistogram ei = Ok (Some f) -> FoldHistogram hi = Ok (Some g) ->
  fold_consistent (ei_common ei) f /\ fold_consistent (hi_common hi) g.
Proof.
  unfold FoldExponentialHistogram, FoldHistogram. rewrite !guard_none_Ok.
  intros (_ & HE) (_ & _ & HH). split; [clear HH|clear HE].
  - destruct (_ || _)%bool; [done|]. rewrite !guard_none_Ok in HE. destruct HE as (_ & _ & HE).
    apply rbind_Ok in HE as (pos & _ & HE). apply rbind_Ok in HE as (neg & _ & HE).
    pose proof (in_progress_scalars (ei_common ei)) as HP. cbv beta zeta in HE.
    destruct (_ || _)%bool; [done|]. destruct (0 <? neg).
    { injection HE as <-. by apply in_progress_scalarsOnly. }
    destruct (ei_Scale ei <? 0).
    { injection HE as <-. by apply in_progress_scalarsOnly. }
    injection HE as HE. destruct (if (_ && _)%bool then _ else _) as [s|]; [|done]. cbn [mbind option_bind] in HE.
    destruct (observe_buckets _ _ _ _ _) as [s'|]; [|done]. injection HE as <-. by apply in_progress_done.
  - pose proof (in_progress_scalars (hi_common hi)) as HP. cbv beta zeta in HH.
    destruct (_ || _)%bool; [injection HH as <-; by apply in_progress_done|].
    destruct (_ =? 0)%nat; [injection HH as <-; by apply in_progress_scalarsOnly|].
    injection HH as HH. destruct (fold_buckets _ _ _ _ _ _) as [r|] eqn:E; [|done].
    apply (fold_buckets_consistent (hi_common hi)) in E; [|done]. cbn [mbind option_bind] in HH.
    destruct r as [f'|[f' s']]; injection HH as <-; [done|by apply in_progress_done].
Qed.

(** An accepted exponential point without negative observations and with a
    scale of at least zero folds exactly: the sketch holds precisely the
    point's buckets, shifted to scale 4 when finer and kept at the point's own
    scale when coarser, with the point's zero count and total count. *)
Theorem exp_fold_exact (i : ExponentialHistogramInput) (r : option HistogramFold) :
  FoldExponentialHistogram i = Ok r ->
  0 <= ei_Scale i -> zsum (eb_Counts (ei_Negative i)) = 0 ->
  u64_counts (eb_Counts (ei_Positive i)) -> u64_counts (eb_Counts (ei_Negative i)) ->
  0 <= ei_ZeroCount i < 2 ^ 64 ->
  - 2 ^ 30 <= eb_Offset (ei_Positive i) ->
  eb_Offset (ei_Positive i) + Z.of_nat (length (eb_Counts (ei_Positive i))) <= 2 ^ 30 ->
  zsum (eb_Counts (ei_Positive i)) <= MaxUint32 ->
  exists f sk, r = Some f /\ hf_Sketch f = Some sk /\ hf_PercentilesUnavailable f = false /\
    rep false (exp_pairs (eb_Offset (ei_Positive i)) (Z.max 0 (ei_Scale i - 4)) 0 (eb_Counts (ei_Positive i))) sk /\
    sk_scale sk = Z.min 4 (ei_Scale i) /\ sk_zeroCount sk = ei_ZeroCount i /\
    sk_count sk = hc_Count (ei_common i) /\
    hc_Count (ei_common i) = ei_ZeroCount i + zsum (eb_Counts (ei_Positive i)).
Proof.
  unfold FoldExponentialHistogram. rewrite guard_none_Ok. intros (_ & HE) Hsc Hneg Hup Hun Hz Ho1 Ho2 Ht.
  unfold ExpHistogramMinScale, ExpHistogramMaxScale in HE.
  destruct ((ei_Scale i <? -10) || (20 <? ei_Scale i))%bool eqn:ES; [done|]. z_bool.
  rewrite !guard_none_Ok in HE. destruct HE as (HV & _ & HE).
  pose proof (zsum_nonneg _ Hup). unfold MaxUint32 in Ht.
  unfold eb_total in HE. rewrite !total_from_spec, Hneg, !Z.add_0_l in HE by (done || lia).
  rewrite (proj2 (Z.ltb_lt (zsum (eb_Counts (ei_Positive i))) _)) in HE by lia. change (0 <? 18446744073709551616) with true in HE. cbn [require rbind] in HE. cbv zeta in HE.
  set (P := zsum (eb_Counts (ei_Positive i))) in *.
  rewrite Z.add_0_r, (wrapu_small 64 (u64 _)) in HE by (by apply wrapu_range).
  destruct ((u64 _ <? P) || _)%bool eqn:EC; [done|]. z_bool. change (2 ^ 64) with 18446744073709551616 in Hz.
  assert (ei_ZeroCount i + P < 18446744073709551616) as HZP.
  { match goal with H : P <= u64 _ |- _ => revert H end. unfold wrapu.
    change (2 ^ 64) with 18446744073709551616. intros. zlia. }
  match goal with H : hc_Count _ = _ |- _ => rewrite u64_small in H by lia; rename H into HC end.
  change (0 <? 0) with false in HE. cbv iota in HE. rewrite (proj2 (Z.ltb_ge (ei_Scale i) 0)) in HE by lia.
  injection HE as <-. rewrite (u8_small (ei_Scale i)) by lia. unfold SketchDefaultScale.
  assert (exists s0, (if (negb (4 <? ei_Scale i) && (ei_Scale i <? 4))%bool
      then downscale NewSketch (ei_Scale i) else Some NewSketch) = Some s0 /\ rep false [] s0 /\
      sk_scale s0 = Z.min 4 (ei_Scale i) /\ sk_count s0 = 0 /\ sk_zeroCount s0 = 0 /\ sk_saturations s0 = 0)
    as (s0 & -> & HR0 & Hsc0 & Hc0 & Hz0 & Hs0).
  { destruct (_ && _)%bool eqn:E4; z_bool.
    - exists (empty_sketch (ei_Scale i)). split_and!; try done; [|apply rep_new|simpl; lia].
      unfold downscale. change (sk_scale NewSketch) with 4. destruct (4 <=? ei_Scale i) eqn:E5; z_bool; [lia|done].
    - exists NewSketch. split_and!; try done; [apply rep_new|]. change (sk_scale NewSketch) with 4. lia. }
  cbn [mbind option_bind].
  assert (Z.of_nat (length (eb_Counts (ei_Positive i))) <= maxExpBuckets) as Hcap.
  { unfold validateExpBuckets in HV. destruct (maxExpBuckets <? _) eqn:E4; z_bool; [done|lia]. }
  assert ((if 4 <? ei_Scale i then ei_Scale i - 4 else 0) = Z.max 0 (ei_Scale i - 4)) as -> by go_cases.
  destruct (observe_buckets_rep false (eb_Offset (ei_Positive i)) (Z.max 0 (ei_Scale i - 4))
    (eb_Counts (ei_Positive i)) 0 [] s0) as (s1 & -> & R1 & C1 & Z1 & Sc1 & Sa1);
    rewrite ?Hc0; try done; try (fold P; simpl total; unfold MaxUint32; change (2 ^ 64) with 18446744073709551616; lia).
  cbn [mbind option_bind]. eexists _, _. split; [reflexivity|]. split; [reflexivity|].
  split; [done|]. fold P in C1. unfold ObserveZero.
  destruct (ei_ZeroCount i =? 0) eqn:E0; z_bool.
  - split_and!; try congruence; try lia. exact R1.
  - rewrite !u64_small by lia. split_and!; simpl; try congruence; try lia. by apply rep_set_totals.
Qed.

(** The lower boundary [FoldHistogram] places a bucket's observations above,
    and the midpoint it places them at. *)
Definition effective_lower (hc : HistogramCommon) (prev upper : f64) : f64 :=
  let lower := if hc_HasMin hc && fgt (hc_Min hc) prev then hc_Min hc else prev in
  if flt lower f_zero || fle upper f_zero then f_zero else lower.
Definition bucket_mid (hc : HistogramCommon) (prev upper : f64) : f64 :=
  fst (bucketMidpoint (effective_lower hc prev upper) upper).

(** Counts in buckets whose midpoint overflows, which [ObserveN] ignores. *)
Fixpoint lost (hc : HistogramCommon) (prev : f64) (bounds : list f64) (counts : list Z) : Z :=
  match bounds, counts with
  | upper :: bs, c :: cs =>
      (if non_finite (bucket_mid hc prev upper) then c else 0) + lost hc upper bs cs
  | _, _ => 0
  end.

(** What is relied on of [math.Log] at a value: a positive finite value has a
    bucket index well inside the [int32] range. *)
Definition log_in_range (v : f64) : Prop :=
  non_finite v = false -> fle v f_zero = false -> idx_ok (sketchIndex v SketchDefaultScale).

(** The midpoints of a point's finite buckets. *)
Fixpoint mids (hc : HistogramCommon) (prev : f64) (bounds : list f64) : list f64 :=
  match bounds with
  | [] => []
  | upper :: bs => bucket_mid hc prev upper :: mids hc upper bs
  end.

Lemma ObserveN_rep c0 l s v n :
  log_in_range v -> rep c0 l s -> sk_scale s = SketchDefaultScale -> 0 < n -> total l + n <= MaxUint32 ->
  0 <= sk_count s -> sk_count s + n < 2 ^ 64 ->
  exists s' l', ObserveN s v n = Some s' /\ rep c0 l' s' /\ total l' <= total l + n /\
    sk_scale s' = SketchDefaultScale /\
    sk_count s' = sk_count s + (if non_finite v then 0 else n).
Proof.
  intros Hlog HR Hsc Hn Ht Hc0 Hc. change (2 ^ 64) with 18446744073709551616 in Hc.
  unfold ObserveN. rewrite (proj2 (Z.eqb_neq n 0)) by lia. rewrite orb_false_l.
  change (f_is_nan v || f_is_inf v) with (non_finite v).
  destruct (non_finite v) eqn:EN.
  { exists s, l. split_and!; try done; lia. }
  rewrite u64_small by lia. destruct (fle v f_zero) eqn:EZ.
  { eexists _, l. split; [reflexivity|]. split_and!; try done; [by do 2 apply rep_set_totals|lia]. }
  destruct (add_rep c0 l (set_totals s (fadd (sk_sum s) (fmul v (f_of_Z n)))
    (sk_count s + n) (sk_zeroCount s) (sk_saturations s)) (sketchIndex v (sk_scale s)) n)
    as (s' & EA & R' & F1 & F2 & F3 & F4 & F5); [by apply rep_set_totals|rewrite Hsc; by apply Hlog|done..|].
  eexists s', _. split_and!; [exact EA|exact R'|rewrite total_app; simpl; lia|by rewrite F5|done].
Qed.

Lemma fold_buckets_count i prev bounds counts f l sk :
  Forall log_in_range (mids (hi_common i) prev bounds) -> rep false l sk -> sk_scale sk = SketchDefaultScale ->
  length counts = S (length bounds) -> u64_counts counts ->
  0 <= hf_UnboundedTailCount f -> hf_UnboundedTailCount f + zsum counts < 2 ^ 64 ->
  total l + zsum counts <= MaxUint32 -> 0 <= sk_count sk -> sk_count sk + zsum counts < 2 ^ 64 ->
  exists r, fold_buckets i prev bounds counts f sk = Some r /\
    match r with
    | inl f' => hf_Sketch f' = None
    | inr (f', sk') =>
        sk_count sk' + hf_UnboundedTailCount f' + lost (hi_common i) prev bounds counts =
        sk_count sk + hf_UnboundedTailCount f + zsum counts
    end.
Proof.
  revert prev bounds f l sk.
  induction counts as [|n [|n' cs] IH]; intros prev bounds f l sk Hlog HR Hsc Hlen Hu Ht0 Htc Htot Hc0 Hct; [done| |].
  - destruct bounds; [|done]. cbn [fold_buckets lost zsum foldr] in *.
    change (2 ^ 64) with 18446744073709551616 in *. apply Forall_cons in Hu as [Hn _].
    destruct (n =? 0) eqn:E; z_bool; (eexists; split; [reflexivity|]); cbv iota beta; [lia|].
    cbn [set_Tail hf_UnboundedTailCount]. rewrite u64_small by lia. lia.
  - destruct bounds as [|upper bs]; [done|]. apply Forall_cons in Hu as [Hn Hu].
    apply Forall_cons in Hlog as [Hlog0 Hlog].
    change (zsum (n :: n' :: cs)) with (n + zsum (n' :: cs)) in *. pose proof (zsum_nonneg _ Hu).
    change (fold_buckets i prev (upper :: bs) (n :: n' :: cs) f sk) with
      (if n =? 0 then fold_buckets i upper bs (n' :: cs) f sk
       else
         r ← fold_bucket i prev upper n f sk;
         match r with inl f => Some (inl f) | inr (f, sk) => fold_buckets i upper bs (n' :: cs) f sk end).
    change (lost (hi_common i) prev (upper :: bs) (n :: n' :: cs)) with
      ((if non_finite (bucket_mid (hi_common i) prev upper) then n else 0) +
       lost (hi_common i) upper bs (n' :: cs)).
    assert (length (n' :: cs) = S (length bs)) as Hlen' by (simpl in *; lia). destruct (n =? 0) eqn:E; z_bool.
    { subst n. destruct (IH upper bs f l sk) as (r & Er & Hr); try done; try lia.
      exists r. split; [done|]. destruct r as [?|[f' sk']]; [done|]. split_ifs; lia. }
    unfold fold_bucket. unfold bucket_mid, effective_lower in Hlog0 |- *.
    set (lo := if (_ && _)%bool then _ else prev) in *.
    destruct ((flt lo f_zero || fle upper f_zero) && _)%bool; [by eexists|].
    destruct (bucketMidpoint _ upper) as [mid relErr]. cbn [fst] in Hlog0 |- *.
    set (f1 := if fgt relErr _ then _ else f).
    destruct (ObserveN_rep false l sk mid n) as (s1 & l1 & -> & R1 & T1 & Sc1 & C1); try done; try lia.
    cbn [mbind option_bind].
    assert (hf_UnboundedTailCount f1 = hf_UnboundedTailCount f) as HT1 by (unfold f1; by destruct (fgt relErr (hf_SourceBucketError f))).
    destruct (IH upper bs f1 l1 s1) as (r & Er & Hr); rewrite ?HT1, ?C1; try done; try lia;
      try (destruct (non_finite mid); lia).
    exists r. split; [done|]. destruct r as [?|[f' sk']]; [done|]. rewrite C1, HT1 in Hr. destruct (non_finite mid); lia.
Qed.

(** Folding an accepted explicit-bounds point never panics, and when
    percentiles are available every observation is either in the sketch, in the
    unbounded tail, or in a bucket whose geometric midpoint overflows float64
    (those last ones the sketch silently ignores). *)
Theorem explicit_fold_counts (i : HistogramInput) (r : option HistogramFold) :
  Forall log_in_range (mids (hi_common i) (f_inf true) (hi_Bounds i)) ->
  FoldHistogram i = Ok r -> u64_counts (hi_BucketCounts i) ->
  hc_Count (hi_common i) <= MaxUint32 ->
  exists f, r = Some f /\
    forall sk, hf_Sketch f = Some sk ->
      sk_count sk + hf_UnboundedTailCount f +
        lost (hi_common i) (f_inf true) (hi_Bounds i) (hi_BucketCounts i) = hc_Count (hi_common i).
Proof.
  intros Hlog. unfold FoldHistogram. rewrite !guard_none_Ok. intros (_ & HV & HH) Hu Hc.
  cbv zeta in HH. unfold validateBounds in HV.
  destruct ((length (hi_BucketCounts i) =? 0)%nat && _)%bool eqn:E0.
  { apply andb_true_iff in E0 as [E1 E2]. apply Nat.eqb_eq in E1, E2. apply nil_length_inv in E1, E2.
    destruct (negb _) eqn:E3; [done|]. z_bool. rewrite E1, E2, E3 in *. injection HH as <-.
    eexists. split; [done|]. intros sk. simpl. by intros [= <-]. }
  destruct (negb (length (hi_BucketCounts i) =? _)%nat) eqn:EL; [done|].
  apply negb_false_iff, Nat.eqb_eq in EL.
  destruct (validate_ascending _ _); [done|]. rewrite total_from_spec, Z.add_0_l in HV by (done || lia).
  destruct (zsum _ <? _) eqn:ET; [|done]. destruct (negb _) eqn:EC; [done|]. z_bool.
  pose proof (zsum_nonneg _ Hu). unfold MaxUint32 in Hc.
  destruct ((hc_Count (hi_common i) =? 0) || _)%bool eqn:EZ.
  { injection HH as <-. eexists. split; [done|]. intros sk. simpl. intros [= <-].
    assert (forall hc p bs cs, u64_counts cs -> zsum cs = 0 -> lost hc p bs cs = 0) as HL.
    { intros hc p bs cs Hcs. revert p bs. induction Hcs as [|c cs Hc1 Hcs IH]; intros p [|b bs]; simpl; try done.
      intros Hs. pose proof (zsum_nonneg cs Hcs). rewrite IH by lia. split_ifs; lia. }
    rewrite orb_true_iff, Z.eqb_eq, Nat.eqb_eq in EZ. destruct EZ as [EZ|EZ]; [rewrite HL by (done || lia); simpl; lia|].
    rewrite EZ in EL. lia. }
  destruct (length (hi_Bounds i) =? 0)%nat eqn:EB.
  { injection HH as <-. eexists. split; [done|]. by intros sk. }
  injection HH as <-.
  destruct (fold_buckets_count i (f_inf true) (hi_Bounds i) (hi_BucketCounts i) (foldScalars (hi_common i)) [] NewSketch)
    as (r & -> & Hr); try done; try (simpl; lia); try (unfold MaxUint32; change (2 ^ 64) with 18446744073709551616; simpl; lia).
  { apply rep_new. }
  cbn [mbind option_bind]. destruct r as [f|[f sk]].
  - exists f. split; [done|]. intros sk Hsk. by rewrite Hr in Hsk.
  - eexists. split; [done|]. intros sk0. simpl. intros [= <-]. rewrite Hr. simpl. lia.
Qed.

End FoldFacts.

(** Stand-ins for the transcendental functions, for the examples. *)
Definition flat_math : GoMath := {| math_Log := fun _ => f_zero; math_Exp2 := fun x => x |}.

Definition demo_common (n : Z) : HistogramCommon := mkCommon n f_one true f_zero false f_zero false.

Definition demo_exp : ExponentialHistogramInput :=
  mkExponentialInput (demo_common 12) 6 2 (mkExpBuckets 100 [1; 0; 4; 5]) (mkExpBuckets 0 []).
Definition demo_explicit : HistogramInput :=
  mkHistogramInput (mkCommon 6 f_one true f_one true f_zero false) [f_of_Z 5; f_of_Z 10] [1; 2; 3].

Definition fold_of (r : result malformed (option HistogramFold)) : HistogramFold :=
  match r with Ok (Some f) => f | _ => foldScalars (demo_common 0) end.

Lemma folds_consistent_witness :
  let f := fold_of (FoldExponentialHistogram (H := flat_math) demo_exp) in
  let g := fold_of (FoldHistogram (H := flat_math) demo_explicit) in
  fold_consistent (demo_common 12) f /\ fold_consistent (hi_common demo_explicit) g.
Proof. apply (folds_consistent (H := flat_math) demo_exp demo_explicit); by vm_compute. Defined.

Lemma exp_fold_exact_witness :
  exists f sk, FoldExponentialHistogram (H := flat_math) demo_exp = Ok (Some f) /\
    hf_Sketch f = Some sk /\ hf_PercentilesUnavailable f = false /\
    rep false [(25, 1); (25, 4); (25, 5)] sk /\ sk_count sk = 12.
Proof.
  destruct (exp_fold_exact (H := flat_math) demo_exp
    (Some (fold_of (FoldExponentialHistogram (H := flat_math) demo_exp))))
    as (f & sk & E & E1 & E2 & E3 & E4 & E5 & E6 & E7);
    [by vm_compute|by vm_compute|by vm_compute| | |by vm_compute|by vm_compute|by vm_compute|by vm_compute|].
  - apply (bool_decide_unpack _). vm_compute. exact I.
  - apply (bool_decide_unpack _). vm_compute. exact I.
  - exists f, sk. split; [rewrite <- E; by vm_compute|]. split; [exact E1|]. split; [exact E2|].
    split; [exact E3|exact E6].
Defined.

Lemma explicit_fold_counts_witness :
  exists f, FoldHistogram (H := flat_math) demo_explicit = Ok (Some f) /\
    forall sk, hf_Sketch f = Some sk -> sk_count sk + hf_UnboundedTailCount f + 0 = 6.
Proof.
  destruct (explicit_fold_counts (H := flat_math) demo_explicit
    (Some (fold_of (FoldHistogram (H := flat_math) demo_explicit)))) as (f & E & E1);
    [|by vm_compute| |by vm_compute|].
  - unfold log_in_range, idx_ok, IdxBound. repeat constructor; intros; by vm_compute.
  - apply (bool_decide_unpack _). vm_compute. exact I.
  - exists f. split; [rewrite <- E; by vm_compute|]. exact E1.
Defined.

(** ** What the folds let through *)

(** Finding: the overflow test of [FoldExponentialHistogram] ([observed < posTotal])
    misses a wrap-around through the negative total: a point with 2^64-1 zero
    observations, 5 positive and 1 negative is accepted with a count of 5. *)
Theorem exp_count_wraps :
  exists i f, FoldExponentialHistogram (H := flat_math) i = Ok (Some f) /\
    hf_Count f = 5 /\
    ei_ZeroCount i + zsum (eb_Counts (ei_Positive i)) + zsum (eb_Counts (ei_Negative i)) = 2 ^ 64 + 5.
Proof.
  set (i := mkExponentialInput (demo_common 5) 4 (2 ^ 64 - 1) (mkExpBuckets 0 [5]) (mkExpBuckets 0 [1])).
  exists i, (fold_of (FoldExponentialHistogram (H := flat_math) i)). by vm_compute.
Qed.

(** Finding: a bucket whose boundaries multiply beyond the float64 range has an
    infinite geometric midpoint, which [ObserveN] ignores: the point is accepted
    with percentiles available while its sketch holds none of its 3
    observations. *)
Theorem explicit_fold_loses_bucket :
  exists i f sk, FoldHistogram (H := flat_math) i = Ok (Some f) /\
    hf_PercentilesUnavailable f = false /\ hf_Sketch f = Some sk /\
    hf_Count f = 3 /\ sk_count sk = 0 /\ hf_UnboundedTailCount f = 0.
Proof.
  set (i := mkHistogramInput (demo_common 3) [f_of_Z (10 ^ 200); f_of_Z (10 ^ 250)] [0; 3; 0]).
  set (f := fold_of (FoldHistogram (H := flat_math) i)).
  exists i, f, NewSketch. by vm_compute.
Qed.

(** Finding: a reported minimum above a populated bucket's upper boundary is
    accepted, and [bucketMidpoint] runs outside its stated domain: the
    observations are placed above the bucket they were counted in, with a
    negative source error. *)
Theorem explicit_fold_min_above_bound :
  exists hc f, let i := mkHistogramInput hc [f_of_Z 5] [3; 0] in
    FoldHistogram (H := flat_math) i = Ok (Some f) /\
    hf_PercentilesUnavailable f = false /\
    fgt (bucket_mid hc (f_inf true) (f_of_Z 5)) (f_of_Z 5) = true /\
    flt (snd (bucketMidpoint (effective_lower hc (f_inf true) (f_of_Z 5)) (f_of_Z 5))) f_zero = true.
Proof.
  set (hc := mkCommon 3 f_one true (f_of_Z 10) true f_zero false).
  exists hc, (fold_of (FoldHistogram (H := flat_math) (mkHistogramInput hc [f_of_Z 5] [3; 0]))). by vm_compute.
Qed.
