(* ===== verification/Delta.v ===== *)
(** * Delta: the aggregate contribution of one request to one series
      ([internal/aggregate/delta.go])

    The fields of [AggregateDelta] are grouped as the source's section comments
    group them.  A method that touches the sketch can panic ([None]) when the
    sketch does; the fold of the whole histogram path ends here. *)
From S2P Require Import Prelude Float64 Sketch SketchQuantile Histogram.

(** [Count], [ErrorCount], [RequestCount], [ErrorRequestCount]. *)
Record Counts := mkCounts { d_Count : Z; d_ErrorCount : Z; d_RequestCount : Z; d_ErrorRequestCount : Z }.
Record Durations := mkDurations { d_DurationCount : Z; d_DurationSum : f64; d_DurationMin : f64; d_DurationMax : f64 }.
Record Gauges := mkGauges {
  d_GaugeCount : Z; d_GaugeSum : f64; d_GaugeMin : f64; d_GaugeMax : f64;
  d_GaugeLast : f64; d_GaugeLastTime : time }.
Record Counters := mkCounters { d_CounterDelta : f64; d_ResetCount : Z }.
Record Histograms := mkHistograms {
  d_HistogramCount : Z; d_HistogramSum : f64; d_HistogramMin : f64; d_HistogramMax : f64;
  d_HistogramFlags : Z; d_HistogramSourceError : f64; d_HistogramTailBound : f64; d_HistogramTailCount : Z }.
Record Logs := mkLogs { d_LogCount : Z; d_FirstTimestamp : time; d_LastTimestamp : time }.

(* internal/aggregate/delta.go:20-139 AggregateDelta *)
Record AggregateDelta := mkDelta {
  d_counts : Counts;
  d_durations : Durations;
  d_Sketch : option Sketch;
  d_gauges : Gauges;
  d_counters : Counters;
  d_hist : Histograms;
  d_logs : Logs;
}.

(** [&AggregateDelta{}] *)
Definition zero_delta : AggregateDelta :=
  mkDelta (mkCounts 0 0 0 0) (mkDurations 0 f_zero f_zero f_zero) None
    (mkGauges 0 f_zero f_zero f_zero f_zero 0) (mkCounters f_zero 0)
    (mkHistograms 0 f_zero f_zero f_zero 0 f_zero f_zero 0) (mkLogs 0 0 0).

Definition set_counts (d : AggregateDelta) (c : Counts) : AggregateDelta :=
  mkDelta c (d_durations d) (d_Sketch d) (d_gauges d) (d_counters d) (d_hist d) (d_logs d).
Definition set_durations (d : AggregateDelta) (x : Durations) : AggregateDelta :=
  mkDelta (d_counts d) x (d_Sketch d) (d_gauges d) (d_counters d) (d_hist d) (d_logs d).
Definition set_sketch (d : AggregateDelta) (s : option Sketch) : AggregateDelta :=
  mkDelta (d_counts d) (d_durations d) s (d_gauges d) (d_counters d) (d_hist d) (d_logs d).
Definition set_gauges (d : AggregateDelta) (x : Gauges) : AggregateDelta :=
  mkDelta (d_counts d) (d_durations d) (d_Sketch d) x (d_counters d) (d_hist d) (d_logs d).
Definition set_counters (d : AggregateDelta) (x : Counters) : AggregateDelta :=
  mkDelta (d_counts d) (d_durations d) (d_Sketch d) (d_gauges d) x (d_hist d) (d_logs d).
Definition set_hist (d : AggregateDelta) (x : Histograms) : AggregateDelta :=
  mkDelta (d_counts d) (d_durations d) (d_Sketch d) (d_gauges d) (d_counters d) x (d_logs d).
Definition set_logs (d : AggregateDelta) (x : Logs) : AggregateDelta :=
  mkDelta (d_counts d) (d_durations d) (d_Sketch d) (d_gauges d) (d_counters d) (d_hist d) x.

(** [x++] and [if b { x++ }] on a [uint64]. *)
Definition inc (x : Z) : Z := u64 (x + 1).
Definition inc_if (b : bool) (x : Z) : Z := if b then inc x else x.

(** [d.Count++] *)
Definition count_point (d : AggregateDelta) : AggregateDelta :=
  let c := d_counts d in
  set_counts d (mkCounts (inc (d_Count c)) (d_ErrorCount c) (d_RequestCount c) (d_ErrorRequestCount c)).

(** [if n == 0 || v < min { min = v }] and its mirror. *)
Definition track_min (n : Z) (v m : f64) : f64 := if (n =? 0) || flt v m then v else m.
Definition track_max (n : Z) (v m : f64) : f64 := if (n =? 0) || fgt v m then v else m.

Section Observing.
  Context `{GoMath}.

(* internal/aggregate/delta.go:165-178 AggregateDelta.observeDuration *)
Definition observeDuration (d : AggregateDelta) (micros : f64) : option AggregateDelta :=
  let x := d_durations d in
  let n := d_DurationCount x in
  let x := mkDurations (inc n) (fadd (d_DurationSum x) micros)
             (track_min n micros (d_DurationMin x)) (track_max n micros (d_DurationMax x)) in
  s ← Observe (default NewSketch (d_Sketch d)) micros;
  Some (set_sketch (set_durations d x) (Some s)).

(* internal/aggregate/delta.go:149-161 AggregateDelta.ObserveSpan *)
Definition ObserveSpan (d : AggregateDelta) (durationMicros : f64) (isError isRequest : bool)
    : option AggregateDelta :=
  let c := d_counts d in
  observeDuration
    (set_counts d
       (mkCounts (inc (d_Count c)) (inc_if isError (d_ErrorCount c)) (inc_if isRequest (d_RequestCount c))
          (inc_if (isRequest && isError) (d_ErrorRequestCount c))))
    durationMicros.

(* internal/aggregate/delta.go:181-193 AggregateDelta.ObserveLog *)
Definition ObserveLog (d : AggregateDelta) (ts : time) (isError : bool) : AggregateDelta :=
  let c := d_counts d in
  let l := d_logs d in
  set_logs
    (set_counts d
       (mkCounts (inc (d_Count c)) (inc_if isError (d_ErrorCount c)) (d_RequestCount c) (d_ErrorRequestCount c)))
    (mkLogs (inc (d_LogCount l))
       (if t_IsZero (d_FirstTimestamp l) || t_Before ts (d_FirstTimestamp l) then ts else d_FirstTimestamp l)
       (if t_After ts (d_LastTimestamp l) then ts else d_LastTimestamp l)).

(* internal/aggregate/delta.go:196-210 AggregateDelta.ObserveGauge *)
Definition ObserveGauge (d : AggregateDelta) (value : f64) (ts : time) : AggregateDelta :=
  let d := count_point d in
  let g := d_gauges d in
  let n := d_GaugeCount g in
  let later := t_IsZero (d_GaugeLastTime g) || negb (t_Before ts (d_GaugeLastTime g)) in
  set_gauges d
    (mkGauges (inc n) (fadd (d_GaugeSum g) value)
       (track_min n value (d_GaugeMin g)) (track_max n value (d_GaugeMax g))
       (if later then value else d_GaugeLast g) (if later then ts else d_GaugeLastTime g)).

(* internal/aggregate/delta.go:214-220 AggregateDelta.ObserveCounter *)
Definition ObserveCounter (d : AggregateDelta) (delta : f64) (reset : bool) : AggregateDelta :=
  let d := count_point d in
  let x := d_counters d in
  set_counters d (mkCounters (fadd (d_CounterDelta x) delta) (inc_if reset (d_ResetCount x))).

(* internal/aggregate/delta.go:266-276 mergeHistFlags *)
Definition mergeHistFlags (a b : Z) : Z :=
  let reasonA := histReason a in
  let reasonB := histReason b in
  let reason :=
    if reasonA =? SketchDropNone then reasonB
    else if negb (reasonB =? SketchDropNone) && (reasonB <? reasonA) then reasonB
    else reasonA in
  withHistReason (and_not (Z.lor a b) histReasonMask) reason.

(** [flags&bit != 0] *)
Definition has (flags bit : Z) : bool := negb (Z.land flags bit =? 0).

(** [d.Sketch.Merge(s)] with the sketch allocated on first use. *)
Definition merge_sketch (mine other : option Sketch) : option (option Sketch) :=
  match other with
  | None => Some mine
  | Some o => s ← Merge (default NewSketch mine) (Some o); Some (Some s)
  end.

(* internal/aggregate/delta.go:232-261 AggregateDelta.ObserveHistogram *)
Definition ObserveHistogram (d : AggregateDelta) (f : HistogramFold) : option AggregateDelta :=
  let d := count_point d in
  let x := d_hist d in
  let fl := d_HistogramFlags x in
  let x :=
    mkHistograms (u64 (d_HistogramCount x + hf_Count f)) (fadd (d_HistogramSum x) (hf_Sum f))
      (if hf_HasMin f && (negb (has fl HistHasMin) || flt (hf_Min f) (d_HistogramMin x))
       then hf_Min f else d_HistogramMin x)
      (if hf_HasMax f && (negb (has fl HistHasMax) || fgt (hf_Max f) (d_HistogramMax x))
       then hf_Max f else d_HistogramMax x)
      (mergeHistFlags fl (flags f))
      (if fgt (hf_SourceBucketError f) (d_HistogramSourceError x)
       then hf_SourceBucketError f else d_HistogramSourceError x)
      (if hf_UnboundedTail f &&
          (negb (has fl HistUnboundedTail) || flt (hf_UnboundedTailBound f) (d_HistogramTailBound x))
       then hf_UnboundedTailBound f else d_HistogramTailBound x)
      (if hf_UnboundedTail f then u64 (d_HistogramTailCount x + hf_UnboundedTailCount f)
       else d_HistogramTailCount x) in
  s ← merge_sketch (d_Sketch d) (hf_Sketch f);
  Some (set_sketch (set_hist d x) s).

(* internal/aggregate/delta.go:280-282 AggregateDelta.HistogramPercentilesAvailable *)
Definition HistogramPercentilesAvailable (d : AggregateDelta) : bool :=
  (0 <? d_HistogramCount (d_hist d)) &&
  (Z.land (d_HistogramFlags (d_hist d)) HistPercentilesUnavailable =? 0).

(* internal/aggregate/delta.go:293-323 AggregateDelta.HistogramQuantile *)
Definition HistogramQuantile (d : AggregateDelta) (q : f64) : option (f64 * bool * bool) :=
  if negb (HistogramPercentilesAvailable d) || f_is_nan q || flt q f_zero || fgt q f_one then
    Some (f_zero, false, false)
  else
    let sketched := match d_Sketch d with Some s => sk_count s | None => 0 end in
    let total := u64 (sketched + d_HistogramTailCount (d_hist d)) in
    if total =? 0 then Some (f_zero, false, false)
    else
      let rank := fmul q (f_of_Z (u64 (total - 1))) in
      if fge rank (f_of_Z sketched) then Some (d_HistogramTailBound (d_hist d), true, true)
      else
        match d_Sketch d with
        | None => Some (f_zero, false, false)
        | Some s =>
            let sq := if 1 <? sketched
                      then fdiv (fmul q (f_of_Z (u64 (total - 1)))) (f_of_Z (u64 (sketched - 1)))
                      else f_zero in
            let sq := if fgt sq f_one then f_one else sq in
            v ← Quantile s sq;
            Some (v, false, true)
        end.

(** The sections of [Merge], in its order. *)
Definition merge_counts (c o : Counts) : Counts :=
  mkCounts (u64 (d_Count c + d_Count o)) (u64 (d_ErrorCount c + d_ErrorCount o))
    (u64 (d_RequestCount c + d_RequestCount o)) (u64 (d_ErrorRequestCount c + d_ErrorRequestCount o)).

Definition merge_durations (x o : Durations) : Durations :=
  if 0 <? d_DurationCount o then
    mkDurations (u64 (d_DurationCount x + d_DurationCount o)) (fadd (d_DurationSum x) (d_DurationSum o))
      (track_min (d_DurationCount x) (d_DurationMin o) (d_DurationMin x))
      (track_max (d_DurationCount x) (d_DurationMax o) (d_DurationMax x))
  else x.

Definition merge_gauges (g o : Gauges) : Gauges :=
  if 0 <? d_GaugeCount o then
    let later := t_IsZero (d_GaugeLastTime g) || t_After (d_GaugeLastTime o) (d_GaugeLastTime g) in
    mkGauges (u64 (d_GaugeCount g + d_GaugeCount o)) (fadd (d_GaugeSum g) (d_GaugeSum o))
      (track_min (d_GaugeCount g) (d_GaugeMin o) (d_GaugeMin g))
      (track_max (d_GaugeCount g) (d_GaugeMax o) (d_GaugeMax g))
      (if later then d_GaugeLast o else d_GaugeLast g)
      (if later then d_GaugeLastTime o else d_GaugeLastTime g)
  else g.

Definition merge_hist (x o : Histograms) : Histograms :=
  if (0 <? d_HistogramCount o) || negb (d_HistogramFlags o =? 0) then
    let fx := d_HistogramFlags x in
    let fo := d_HistogramFlags o in
    mkHistograms (u64 (d_HistogramCount x + d_HistogramCount o)) (fadd (d_HistogramSum x) (d_HistogramSum o))
      (if has fo HistHasMin && (negb (has fx HistHasMin) || flt (d_HistogramMin o) (d_HistogramMin x))
       then d_HistogramMin o else d_HistogramMin x)
      (if has fo HistHasMax && (negb (has fx HistHasMax) || fgt (d_HistogramMax o) (d_HistogramMax x))
       then d_HistogramMax o else d_HistogramMax x)
      (mergeHistFlags fx fo)
      (if fgt (d_HistogramSourceError o) (d_HistogramSourceError x)
       then d_HistogramSourceError o else d_HistogramSourceError x)
      (if has fo HistUnboundedTail &&
          (negb (has fx HistUnboundedTail) || flt (d_HistogramTailBound o) (d_HistogramTailBound x))
       then d_HistogramTailBound o else d_HistogramTailBound x)
      (u64 (d_HistogramTailCount x + d_HistogramTailCount o))
  else x.

Definition merge_logs (l o : Logs) : Logs :=
  mkLogs (u64 (d_LogCount l + d_LogCount o))
    (if negb (t_IsZero (d_FirstTimestamp o)) &&
        (t_IsZero (d_FirstTimestamp l) || t_Before (d_FirstTimestamp o) (d_FirstTimestamp l))
     then d_FirstTimestamp o else d_FirstTimestamp l)
    (if t_After (d_LastTimestamp o) (d_LastTimestamp l) then d_LastTimestamp o else d_LastTimestamp l).

(* internal/aggregate/delta.go:328-401 AggregateDelta.Merge *)
Definition DeltaMerge (d : AggregateDelta) (other : option AggregateDelta) : option AggregateDelta :=
  match other with
  | None => Some d
  | Some o =>
      s ← merge_sketch (d_Sketch d) (d_Sketch o);
      Some
        (mkDelta (merge_counts (d_counts d) (d_counts o))
           (merge_durations (d_durations d) (d_durations o)) s
           (merge_gauges (d_gauges d) (d_gauges o))
           (mkCounters (fadd (d_CounterDelta (d_counters d)) (d_CounterDelta (d_counters o)))
              (u64 (d_ResetCount (d_counters d) + d_ResetCount (d_counters o))))
           (merge_hist (d_hist d) (d_hist o))
           (merge_logs (d_logs d) (d_logs o)))
  end.

End Observing.

(** ** Logs: a delta is a function of the multiset of records *)

Definition observe_logs (d : AggregateDelta) (l : list (time * bool)) : AggregateDelta :=
  foldl (fun d p => ObserveLog d (fst p) (snd p)) d l.

Definition errors_of (l : list (time * bool)) : Z := Z.of_nat (length (filter (fun p => snd p = true) l)).
Definition first_of (l : list (time * bool)) : time :=
  match l with [] => 0 | p :: l' => foldr (fun q t => Z.min (fst q) t) (fst p) l' end.
Definition last_of (l : list (time * bool)) : time := foldr (fun q t => Z.max (fst q) t) 0 l.

(** The delta of a multiset of log records. *)
Definition logs_delta (l : list (time * bool)) : AggregateDelta :=
  let n := Z.of_nat (length l) in
  set_logs (set_counts zero_delta (mkCounts n (errors_of l) 0 0)) (mkLogs n (first_of l) (last_of l)).

Definition logs_ok (l : list (time * bool)) : Prop :=
  Forall (fun p => 0 < fst p) l /\ Z.of_nat (length l) < 2 ^ 64.

Lemma first_of_cons p l : l <> [] -> first_of (p :: l) = Z.min (fst p) (first_of l).
Proof.
  destruct l as [|q l]; [done|]. intros _. simpl. induction l as [|r l IH]; simpl; [lia|]. lia.
Qed.

Lemma first_of_pos l : Forall (fun p => 0 < fst p) l -> l <> [] -> 0 < first_of l.
Proof.
  induction 1 as [|p l Hp Hl IH]; [done|]. intros _. destruct l as [|q l]; [done|].
  rewrite first_of_cons by done. specialize (IH ltac:(done)). lia.
Qed.

Lemma first_of_app l1 l2 : l1 <> [] -> l2 <> [] -> first_of (l1 ++ l2) = Z.min (first_of l1) (first_of l2).
Proof.
  destruct l1 as [|p l1]; [done|]. intros _ H2. revert p. induction l1 as [|q l1 IH]; intros p.
  - cbn [app]. by rewrite first_of_cons.
  - cbn [app] in *. rewrite first_of_cons, (first_of_cons p (q :: l1)), IH by done. lia.
Qed.

Lemma last_of_app l1 l2 : last_of (l1 ++ l2) = Z.max (last_of l1) (last_of l2).
Proof.
  unfold last_of. rewrite foldr_app. induction l1 as [|p l1 IH]; simpl; [|lia].
  induction l2; simpl; lia.
Qed.

Lemma last_of_nonneg l : 0 <= last_of l.
Proof. induction l; simpl; unfold last_of in *; simpl in *; lia. Qed.

Lemma errors_of_app l1 l2 : errors_of (l1 ++ l2) = errors_of l1 + errors_of l2.
Proof. unfold errors_of. rewrite filter_app, length_app. lia. Qed.

Lemma errors_of_le l : 0 <= errors_of l <= Z.of_nat (length l).
Proof. unfold errors_of. pose proof (length_filter (fun p : time * bool => snd p = true) l). lia. Qed.

(** Joining the log sections of two deltas. *)
Lemma logs_join l1 l2 :
  logs_ok (l1 ++ l2) ->
  merge_counts (d_counts (logs_delta l1)) (d_counts (logs_delta l2)) = d_counts (logs_delta (l1 ++ l2)) /\
  merge_logs (d_logs (logs_delta l1)) (d_logs (logs_delta l2)) = d_logs (logs_delta (l1 ++ l2)).
Proof.
  intros [HF Hn]. change (2 ^ 64) with 18446744073709551616 in Hn. rewrite length_app in Hn.
  apply Forall_app in HF as [HF1 HF2]. unfold merge_counts, merge_logs, t_IsZero, t_Before, t_After.
  pose proof (errors_of_le l1). pose proof (errors_of_le l2).
  pose proof (last_of_nonneg l1). pose proof (last_of_nonneg l2).
  cbn [logs_delta set_logs set_counts d_counts d_logs d_Count d_ErrorCount d_RequestCount d_ErrorRequestCount
       d_LogCount d_FirstTimestamp d_LastTimestamp].
  rewrite !u64_small by lia. rewrite length_app, errors_of_app, last_of_app, Nat2Z.inj_add. split; [done|].
  f_equal; [|go_cases].
  destruct l1 as [|p1 l1]; [destruct l2 as [|p2 l2]; [done|]|destruct l2 as [|p2 l2]].
  - pose proof (first_of_pos _ HF2 ltac:(done)). cbn [app]. change (first_of []) with 0.
    rewrite (proj2 (Z.eqb_neq (first_of (p2 :: l2)) 0)) by lia. reflexivity.
  - rewrite app_nil_r. pose proof (first_of_pos _ HF1 ltac:(done)).
    reflexivity.
  - rewrite first_of_app by done. pose proof (first_of_pos _ HF1 ltac:(done)).
    pose proof (first_of_pos _ HF2 ltac:(done)).
    rewrite (proj2 (Z.eqb_neq (first_of (p2 :: l2)) 0)), (proj2 (Z.eqb_neq (first_of (p1 :: l1)) 0)) by lia.
    cbn [negb andb orb]. go_cases.
Qed.

Lemma ObserveLog_snoc l p : logs_ok (l ++ [p]) -> ObserveLog (logs_delta l) (fst p) (snd p) = logs_delta (l ++ [p]).
Proof.
  intros H. destruct (logs_join l [p] H) as [HC HL]. destruct H as [HF Hn].
  apply Forall_app in HF as [_ HF]. apply Forall_cons in HF as [Hp _]. destruct p as [ts e]. simpl in Hp.
  rewrite length_app in Hn. change (2 ^ 64) with 18446744073709551616 in Hn.
  change (logs_delta (l ++ [(ts, e)])) with
    (set_logs (set_counts zero_delta (d_counts (logs_delta (l ++ [(ts, e)])))) (d_logs (logs_delta (l ++ [(ts, e)])))).
  rewrite <- HC, <- HL. unfold ObserveLog, merge_counts, merge_logs, inc_if, inc, t_IsZero, t_Before, t_After.
  pose proof (errors_of_le l).
  cbn [logs_delta set_logs set_counts d_counts d_logs d_Count d_ErrorCount d_RequestCount d_ErrorRequestCount
       d_LogCount d_FirstTimestamp d_LastTimestamp length fst snd].
  change (first_of [(ts, e)]) with ts. change (last_of [(ts, e)]) with (Z.max ts 0).
  rewrite Z.max_l, (proj2 (Z.eqb_neq ts 0)) by lia. cbn [negb andb].
  assert ((if e then u64 (errors_of l + 1) else errors_of l) = u64 (errors_of l + errors_of [(ts, e)])) as ->; [|done].
  destruct e; [done|]. change (errors_of [(ts, false)]) with 0. rewrite Z.add_0_r, u64_small; lia.
Qed.

Lemma observe_logs_spec l : logs_ok l -> observe_logs zero_delta l = logs_delta l.
Proof.
  unfold observe_logs. induction l as [|p l IH] using rev_ind; intros [HF Hn]; [done|].
  rewrite foldl_app. cbn [foldl]. rewrite IH; [by apply ObserveLog_snoc|].
  rewrite length_app in Hn. apply Forall_app in HF as [HF _]. split; [done|lia].
Qed.

Lemma logs_delta_perm l l' : l ≡ₚ l' -> logs_delta l = logs_delta l'.
Proof.
  intros HP. assert (last_of l = last_of l') as HL.
  { unfold last_of. induction HP; simpl; lia. }
  assert (first_of l = first_of l') as HF.
  { clear HL. induction HP as [|p a b Hab IH|p q a|a b c H1 IH1 H2 IH2]; [done| | |congruence].
    - destruct a as [|x a], b as [|y b]; try (by apply Permutation_length in Hab); try done.
      rewrite (first_of_cons p (x :: a)), (first_of_cons p (y :: b)) by done. by rewrite IH.
    - destruct a as [|x a]; [simpl; lia|]. rewrite (first_of_cons q (p :: x :: a)), (first_of_cons p (x :: a)), (first_of_cons p (q :: x :: a)), (first_of_cons q (x :: a)) by done. lia. }
  unfold logs_delta. assert (errors_of l = errors_of l') as -> by (unfold errors_of; by rewrite HP).
  by rewrite (Permutation_length HP), HL, HF.
Qed.

(** For log records, deltas pre-merge exactly: splitting the records of a
    window between two deltas in any way and any order, then merging, gives the
    delta one observer would have built, timestamps and counters included. *)
Theorem logs_premerge (l l1 l2 : list (time * bool)) :
  l ≡ₚ l1 ++ l2 -> logs_ok l ->
  DeltaMerge (observe_logs zero_delta l1) (Some (observe_logs zero_delta l2)) =
  Some (observe_logs zero_delta l).
Proof.
  intros HP HL. assert (logs_ok (l1 ++ l2)) as H12.
  { destruct HL as [HF Hn]. split; [by rewrite <- HP|by rewrite <- HP]. }
  assert (logs_ok l1 /\ logs_ok l2) as [H1 H2].
  { destruct H12 as [HF Hn]. rewrite length_app in Hn. apply Forall_app in HF as [? ?].
    split; (split; [done|lia]). }
  rewrite !observe_logs_spec by done. destruct (logs_join l1 l2 H12) as [HC HG].
  rewrite (logs_delta_perm _ _ HP).
  unfold DeltaMerge. cbn [merge_sketch d_Sketch logs_delta set_logs set_counts zero_delta mbind option_bind].
  f_equal. fold zero_delta. fold (logs_delta l1). rewrite HC, HG. reflexivity.
Qed.

Lemma logs_premerge_witness :
  [(5, true); (3, false); (9, false)] ≡ₚ [(9, false)] ++ [(3, false); (5, true)] /\
  DeltaMerge (observe_logs zero_delta [(9, false)]) (Some (observe_logs zero_delta [(3, false); (5, true)])) =
  Some (observe_logs zero_delta [(5, true); (3, false); (9, false)]).
Proof.
  assert ([(5, true); (3, false); (9, false)] ≡ₚ [(9, false)] ++ [(3, false); (5, true)]) as HP.
  { apply (bool_decide_unpack _). vm_compute. exact I. }
  split; [exact HP|]. apply (logs_premerge _ _ _ HP). split; [|by vm_compute].
  apply (bool_decide_unpack _). vm_compute. exact I.
Defined.

(** ** Gauges: the multiset of samples up to the choice the extremes leave *)

Definition is_min (l : list f64) (m : f64) : Prop := l <> [] -> m ∈ l /\ forall v, v ∈ l -> flt v m = false.
Definition is_max (l : list f64) (m : f64) : Prop := l <> [] -> m ∈ l /\ forall v, v ∈ l -> flt m v = false.
Definition no_nan (l : list f64) : Prop := Forall (fun v => f_is_nan v = false) l.

Lemma track_min_app l1 l2 n m1 m2 :
  no_nan l1 -> no_nan l2 -> (n = 0 <-> l1 = []) -> l2 <> [] ->
  is_min l1 m1 -> is_min l2 m2 -> is_min (l1 ++ l2) (track_min n m2 m1).
Proof.
  intros N1 N2 Hn Hl2 H1 H2 _. destruct (H2 Hl2) as [I2 M2]. unfold no_nan in *.
  rewrite Forall_forall in N1, N2. unfold track_min.
  destruct (n =? 0) eqn:E; z_bool.
  { rewrite (proj1 Hn E). simpl. split; [done|]. exact M2. }
  destruct (H1 ltac:(intros ->; by apply E, Hn)) as [I1 M1]. simpl.
  destruct (flt m2 m1) eqn:E1; (split; [set_solver|]); intros v [Hv|Hv]%elem_of_app; auto.
  - destruct (flt v m2) eqn:E2; [|done]. rewrite <- (M1 v Hv). symmetry. by eapply flt_trans.
  - destruct (flt v m1) eqn:E2; [|done]. rewrite <- E1. symmetry.
    apply (flt_negtrans v m2 m1); [by apply N2|by apply M2|done].
Qed.

Lemma track_max_app l1 l2 n m1 m2 :
  no_nan l1 -> no_nan l2 -> (n = 0 <-> l1 = []) -> l2 <> [] ->
  is_max l1 m1 -> is_max l2 m2 -> is_max (l1 ++ l2) (track_max n m2 m1).
Proof.
  intros N1 N2 Hn Hl2 H1 H2 _. destruct (H2 Hl2) as [I2 M2]. unfold no_nan in *.
  rewrite Forall_forall in N1, N2. unfold track_max, fgt.
  destruct (n =? 0) eqn:E; z_bool.
  { rewrite (proj1 Hn E). simpl. split; [done|]. exact M2. }
  destruct (H1 ltac:(intros ->; by apply E, Hn)) as [I1 M1]. simpl.
  destruct (flt m1 m2) eqn:E1; (split; [set_solver|]); intros v [Hv|Hv]%elem_of_app; auto.
  - destruct (flt m2 v) eqn:E2; [|done]. rewrite <- (M1 v Hv). symmetry. by eapply flt_trans.
  - destruct (flt m1 v) eqn:E2; [|done].
    rewrite <- (M2 v Hv). symmetry. apply (flt_negtrans m1 m2 v); [by apply N2|done|done].
Qed.

(** What the gauge section of a delta says of the samples [l]. *)
Record gauge_holds (l : list (f64 * time)) (g : Gauges) : Prop := {
  gh_count : d_GaugeCount g = Z.of_nat (length l);
  gh_min : is_min (fst <$> l) (d_GaugeMin g);
  gh_max : is_max (fst <$> l) (d_GaugeMax g);
  gh_last : l <> [] -> (d_GaugeLast g, d_GaugeLastTime g) ∈ l;
  gh_latest : forall p, p ∈ l -> snd p <= d_GaugeLastTime g;
  gh_none : l = [] -> d_GaugeLastTime g = 0;
}.

Definition samples_ok (l : list (f64 * time)) : Prop :=
  no_nan (fst <$> l) /\ Forall (fun p => 0 < snd p) l /\ Z.of_nat (length l) < 2 ^ 64.

(** The gauge section of a single sample. *)
Definition one_gauge (v : f64) (ts : time) : Gauges := mkGauges 1 v v v v ts.

Lemma one_gauge_holds v ts : f_is_nan v = false -> gauge_holds [(v, ts)] (one_gauge v ts).
Proof.
  intros Hv. constructor; try done; simpl.
  - intros _. split; [set_solver|]. intros w ->%list_elem_of_singleton. apply flt_irrefl.
  - intros _. split; [set_solver|]. intros w ->%list_elem_of_singleton. apply flt_irrefl.
  - intros _. set_solver.
  - intros p ->%list_elem_of_singleton. simpl. lia.
Qed.

Lemma merge_gauges_holds l1 l2 g1 g2 (later : bool) :
  samples_ok (l1 ++ l2) -> l2 <> [] -> gauge_holds l1 g1 -> gauge_holds l2 g2 ->
  (d_GaugeLastTime g1 < d_GaugeLastTime g2 -> later = true) ->
  (d_GaugeLastTime g2 < d_GaugeLastTime g1 -> later = false) ->
  (l1 = [] -> later = true) -> forall sum,
  gauge_holds (l1 ++ l2)
    (mkGauges (u64 (d_GaugeCount g1 + d_GaugeCount g2)) sum
       (track_min (d_GaugeCount g1) (d_GaugeMin g2) (d_GaugeMin g1))
       (track_max (d_GaugeCount g1) (d_GaugeMax g2) (d_GaugeMax g1))
       (if later then d_GaugeLast g2 else d_GaugeLast g1)
       (if later then d_GaugeLastTime g2 else d_GaugeLastTime g1)).
Proof.
  intros (HN & HT & Hlen) Hl2 [C1 M1 X1 L1 T1 Z1] [C2 M2 X2 L2 T2 Z2] Hgt Hlt Hemp sum.
  change (2 ^ 64) with 18446744073709551616 in Hlen. rewrite length_app in Hlen.
  rewrite fmap_app in HN. apply Forall_app in HN as [N1 N2].
  assert (d_GaugeCount g1 = 0 <-> fst <$> l1 = []) as Hz.
  { rewrite C1. destruct l1; simpl; split; (done || lia). }
  assert (fst <$> l2 <> []) as Hl2' by (by destruct l2).
  constructor; simpl.
  - rewrite C1, C2, u64_small, length_app by lia. lia.
  - rewrite fmap_app. by apply track_min_app.
  - rewrite fmap_app. by apply track_max_app.
  - intros _. specialize (L2 Hl2). destruct later; [set_solver|].
    destruct l1 as [|p l1]; [by specialize (Hemp eq_refl)|]. specialize (L1 ltac:(done)). set_solver.
  - intros p [Hp|Hp]%elem_of_app.
    + specialize (T1 p Hp). destruct later; [|done].
      destruct (decide (d_GaugeLastTime g2 < d_GaugeLastTime g1)) as [D|D]; [by specialize (Hlt D)|lia].
    + specialize (T2 p Hp). destruct later; [done|].
      destruct (decide (d_GaugeLastTime g1 < d_GaugeLastTime g2)) as [D|D]; [by specialize (Hgt D)|lia].
  - intros ?. by destruct l1, l2.
Qed.

(** The gauge section refines the multiset of samples: observing a sample
    and merging two deltas both keep the exact count, the extremes, and a last
    value that is one of the latest samples. *)
Theorem gauges_refine (l l1 l2 : list (f64 * time)) (d d1 d2 : AggregateDelta) (v : f64) (ts : time) :
  samples_ok (l ++ [(v, ts)]) -> gauge_holds l (d_gauges d) ->
  samples_ok (l1 ++ l2) -> gauge_holds l1 (d_gauges d1) -> gauge_holds l2 (d_gauges d2) ->
  gauge_holds (l ++ [(v, ts)]) (d_gauges (ObserveGauge d v ts)) /\
  gauge_holds (l1 ++ l2) (merge_gauges (d_gauges d1) (d_gauges d2)).
Proof.
  intros HS HG HS12 HG1 HG2. split.
  - pose proof HS as (HN & HT & Hlen). rewrite fmap_app in HN. apply Forall_app in HN as [_ HN].
    apply Forall_cons in HN as [Hv _]. simpl in Hv.
    apply Forall_app in HT as [HT0 HT]. apply Forall_cons in HT as [Hts _]. simpl in Hts.
    assert (0 <= d_GaugeLastTime (d_gauges d)) as Hnn.
    { destruct l as [|p l]; [by rewrite (gh_none _ _ HG)|]. apply Forall_cons in HT0 as [Hp _].
      pose proof (gh_latest _ _ HG p ltac:(set_solver)). lia. }
    unfold ObserveGauge. cbn [set_gauges d_gauges count_point set_counts].
    set (later := t_IsZero _ || _).
    pose proof (merge_gauges_holds l [(v, ts)] (d_gauges d) (one_gauge v ts) later HS ltac:(done) HG
      (one_gauge_holds v ts Hv)) as HM. cbn [one_gauge d_GaugeCount d_GaugeMin d_GaugeMax d_GaugeLast d_GaugeLastTime] in HM.
    apply HM; unfold later, t_IsZero, t_Before; [intros| intros|intros H0; by rewrite (gh_none _ _ HG H0)].
    + rewrite (proj2 (Z.ltb_ge ts _)) by lia. apply orb_true_r.
    + rewrite (proj2 (Z.ltb_lt ts _)) by lia. rewrite (proj2 (Z.eqb_neq _ 0)) by lia. done.
  - unfold merge_gauges. destruct HS12 as (HN & HT & Hlen).
    destruct l2 as [|p l2].
    { rewrite (gh_count _ _ HG2). simpl. by rewrite app_nil_r. }
    rewrite (proj2 (Z.ltb_lt 0 (d_GaugeCount (d_gauges d2)))) by (rewrite (gh_count _ _ HG2); simpl; lia).
    apply merge_gauges_holds; try done; unfold t_IsZero, t_After.
    + intros H. rewrite (proj2 (Z.ltb_lt _ _)) by lia. apply orb_true_r.
    + intros H. rewrite (proj2 (Z.ltb_ge (d_GaugeLastTime (d_gauges d1)) _)) by lia.
      pose proof (gh_latest _ _ HG2 p ltac:(set_solver)). apply Forall_app in HT as [_ HT].
      apply Forall_cons in HT as [Hp _]. rewrite (proj2 (Z.eqb_neq _ 0)) by lia. done.
    + intros H. by rewrite (gh_none _ _ HG1 H).
Qed.

Lemma gauges_refine_witness :
  let d := ObserveGauge zero_delta f_one 5 in
  gauge_holds ([(f_one, 5)] ++ [(f_two, 3)]) (d_gauges (ObserveGauge d f_two 3)) /\
  gauge_holds ([(f_one, 5)] ++ [(f_one, 5)]) (merge_gauges (d_gauges d) (d_gauges d)).
Proof.
  intros d. assert (gauge_holds [(f_one, 5)] (d_gauges d)) as H by (by apply one_gauge_holds).
  apply (gauges_refine [(f_one, 5)] [(f_one, 5)] [(f_one, 5)] d d d f_two 3); [|exact H| |exact H|exact H].
  - repeat split; try (by vm_compute); repeat constructor.
  - repeat split; try (by vm_compute); repeat constructor.
Defined.

(** ** Histogram flags: a commutative idempotent monoid *)

(** The lowest non-zero of two reasons. *)
Definition rmin (x y : Z) : Z := if x =? 0 then y else if negb (y =? 0) && (y <? x) then y else x.

Lemma ones_bits n k : 0 <= n -> 0 <= k -> Z.testbit (Z.ones n) k = (k <? n).
Proof.
  intros Hn Hk. destruct (k <? n) eqn:E; z_bool; [by rewrite Z.ones_spec_low by lia|by rewrite Z.ones_spec_high by lia].
Qed.

Lemma mask_bits k : 0 <= k -> Z.testbit histReasonMask k = (8 <=? k) && (k <? 16).
Proof.
  intros Hk. change histReasonMask with (Z.shiftl (Z.ones 8) 8). rewrite Z.shiftl_spec by done.
  destruct (8 <=? k) eqn:E; z_bool.
  - rewrite ones_bits by lia. destruct (k - 8 <? 8) eqn:E1, (k <? 16) eqn:E2; z_bool; (done || lia).
  - by rewrite Z.testbit_neg_r by lia.
Qed.

Lemma and_not_mask_bits f k :
  0 <= k -> Z.testbit (and_not f histReasonMask) k =
  Z.testbit f k && xorb ((8 <=? k) && (k <? 16)) (k <? 32).
Proof.
  intros Hk. unfold and_not. rewrite Z.land_spec, Z.lxor_spec, mask_bits by done.
  change MaxUint32 with (Z.ones 32). by rewrite ones_bits.
Qed.

Lemma u_bits w x k : 0 <= w -> 0 <= k -> Z.testbit (wrapu w x) k = (k <? w) && Z.testbit x k.
Proof.
  intros Hw Hk. unfold wrapu. destruct (k <? w) eqn:E; z_bool.
  - by rewrite Z.mod_pow2_bits_low.
  - by rewrite Z.mod_pow2_bits_high by lia.
Qed.

Lemma byte_bits r k : 0 <= r < 256 -> 8 <= k -> Z.testbit r k = false.
Proof.
  intros Hr Hk. rewrite <- (Z.mod_small r (2 ^ 8)) by (by vm_compute (2 ^ 8)).
  by rewrite Z.mod_pow2_bits_high by lia.
Qed.

Lemma withHistReason_bits f r k :
  0 <= r < 256 -> 0 <= k ->
  Z.testbit (withHistReason f r) k =
  if (8 <=? k) && (k <? 16) then Z.testbit r (k - 8) else (k <? 32) && Z.testbit f k.
Proof.
  intros Hr Hk. unfold withHistReason, histReasonShift.
  rewrite Z.lor_spec, and_not_mask_bits, u_bits, Z.shiftl_spec by lia.
  destruct (8 <=? k) eqn:E1, (k <? 16) eqn:E2, (k <? 32) eqn:E3; z_bool; simpl; try lia;
    rewrite ?andb_false_r, ?andb_true_r, ?orb_false_l; try done.
  - by rewrite (byte_bits r), orb_false_r by lia.
  - by rewrite (Z.testbit_neg_r r), orb_false_r by lia.
Qed.

Lemma histReason_bits a k : 0 <= k -> Z.testbit (histReason a) k = (k <? 8) && Z.testbit a (k + 8).
Proof.
  intros Hk. unfold histReason, histReasonShift. rewrite u_bits, Z.shiftr_spec, Z.land_spec, mask_bits by lia.
  destruct (k <? 8) eqn:E; z_bool; [|done]. simpl.
  rewrite (proj2 (Z.leb_le 8 (k + 8))), (proj2 (Z.ltb_lt (k + 8) 16)) by lia. apply andb_true_r.
Qed.

Lemma histReason_range a : 0 <= histReason a < 256.
Proof. apply wrapu_range. lia. Qed.

Lemma histReason_with f r : 0 <= r < 256 -> histReason (withHistReason f r) = r.
Proof.
  intros Hr. apply Z.bits_inj'. intros k Hk. rewrite histReason_bits, withHistReason_bits by lia.
  destruct (k <? 8) eqn:E; z_bool.
  - rewrite (proj2 (Z.leb_le 8 (k + 8))), (proj2 (Z.ltb_lt (k + 8) 16)) by lia. simpl. f_equal. lia.
  - by rewrite (byte_bits r k) by lia.
Qed.

Lemma rmin_range x y : 0 <= x < 256 -> 0 <= y < 256 -> 0 <= rmin x y < 256.
Proof. intros. unfold rmin. split_ifs; lia. Qed.

Lemma mergeHistFlags_reason a b : histReason (mergeHistFlags a b) = rmin (histReason a) (histReason b).
Proof. unfold mergeHistFlags. apply histReason_with, rmin_range; apply histReason_range. Qed.

Lemma mergeHistFlags_bits a b k :
  0 <= k -> Z.testbit (mergeHistFlags a b) k =
  if (8 <=? k) && (k <? 16) then Z.testbit (rmin (histReason a) (histReason b)) (k - 8)
  else (k <? 32) && (Z.testbit a k || Z.testbit b k).
Proof.
  intros Hk. unfold mergeHistFlags. fold (rmin (histReason a) (histReason b)).
  rewrite withHistReason_bits by (done || apply rmin_range; apply histReason_range).
  destruct ((8 <=? k) && (k <? 16)) eqn:E; [done|]. rewrite and_not_mask_bits, E, Z.lor_spec by done.
  simpl. by destruct (k <? 32), (Z.testbit a k || Z.testbit b k).
Qed.

(** Also: merging histogram flag words is commutative, associative and idempotent
    with the empty word as unit, so the flags of a merged delta do not depend on
    the order of the merges; an unavailable-percentiles bit of either side is
    never lost. *)
Theorem mergeHistFlags_monoid (a b c : Z) :
  in_u 32 a -> in_u 32 b -> in_u 32 c ->
  mergeHistFlags a b = mergeHistFlags b a /\
  mergeHistFlags (mergeHistFlags a b) c = mergeHistFlags a (mergeHistFlags b c) /\
  mergeHistFlags a a = a /\ mergeHistFlags a 0 = a /\
  has (mergeHistFlags a b) HistPercentilesUnavailable =
    has a HistPercentilesUnavailable || has b HistPercentilesUnavailable.
Proof.
  intros Ha Hb Hc.
  assert (forall x k, in_u 32 x -> (k <? 32) = false -> 0 <= k -> Z.testbit x k = false) as Hhi.
  { intros x k Hx Hk H0. z_bool. rewrite <- (wrapu_small 32 x Hx). unfold wrapu.
    by rewrite Z.mod_pow2_bits_high by lia. }
  assert (forall x k, ((8 <=? k) && (k <? 16)) = true -> Z.testbit (histReason x) (k - 8) = Z.testbit x k) as Hreason.
  { intros x k E. z_bool. rewrite histReason_bits by lia. rewrite (proj2 (Z.ltb_lt (k - 8) 8)) by lia.
    simpl. f_equal. lia. }
  split_and!.
  - apply Z.bits_inj'. intros k Hk. rewrite !mergeHistFlags_bits by done. case_match.
    + f_equal. unfold rmin. pose proof (histReason_range a). pose proof (histReason_range b). split_ifs; z_bool; lia.
    + by rewrite orb_comm.
  - apply Z.bits_inj'. intros k Hk. rewrite !mergeHistFlags_bits by done.
    destruct ((8 <=? k) && (k <? 16)) eqn:E; cbv iota.
    + rewrite !mergeHistFlags_reason. f_equal. pose proof (histReason_range a). pose proof (histReason_range b).
      pose proof (histReason_range c). unfold rmin. split_ifs; z_bool; lia.
    + destruct (k <? 32); [|done]. simpl. by rewrite orb_assoc.
  - apply Z.bits_inj'. intros k Hk. rewrite mergeHistFlags_bits by done.
    destruct ((8 <=? k) && (k <? 16)) eqn:E.
    + rewrite <- (Hreason a k E). f_equal. unfold rmin. split_ifs; z_bool; lia.
    + rewrite orb_diag. destruct (k <? 32) eqn:E2; [done|]. by rewrite Hhi.
  - apply Z.bits_inj'. intros k Hk. rewrite mergeHistFlags_bits by done.
    destruct ((8 <=? k) && (k <? 16)) eqn:E.
    + rewrite <- (Hreason a k E). f_equal. change (histReason 0) with 0. unfold rmin. split_ifs; z_bool; lia.
    + rewrite Z.bits_0, orb_false_r. destruct (k <? 32) eqn:E2; [done|]. by rewrite Hhi.
  - assert (forall x, has x HistPercentilesUnavailable = Z.testbit x 0) as HB.
    { intros x. unfold has. change (Z.land x HistPercentilesUnavailable) with (Z.land x (Z.ones 1)).
      rewrite Z.land_ones by lia.
      rewrite Z.bit0_odd, Zodd_mod. change (2 ^ 1) with 2. pose proof (Z.mod_pos_bound x 2 ltac:(lia)).
      destruct (Z.eqb_spec (x mod 2) 0) as [->|], (Zeq_bool (x mod 2) 1) eqn:E2; try done.
      apply Zeq_bool_neq in E2. lia. }
    rewrite !HB, mergeHistFlags_bits by done. done.
Qed.

Lemma mergeHistFlags_monoid_witness :
  in_u 32 513 /\ in_u 32 258 /\ in_u 32 12 /\ mergeHistFlags 513 258 = mergeHistFlags 258 513 /\
  mergeHistFlags 513 258 = 259.
Proof.
  assert (in_u 32 513) as H1 by (by vm_compute). assert (in_u 32 258) as H2 by (by vm_compute).
  assert (in_u 32 12) as H3 by (by vm_compute).
  destruct (mergeHistFlags_monoid 513 258 12 H1 H2 H3) as (HC & _).
  split; [exact H1|]. split; [exact H2|]. split; [exact H3|]. split; [exact HC|by vm_compute].
Defined.

(** ** Counters: every point is counted once, by its signal *)

Section Reach.
  Context `{GoMath}.

(** The deltas built from [n] accepted points, whatever the observations and
    however they are split and merged. *)
Inductive built : Z -> AggregateDelta -> Prop :=
| built_zero : built 0 zero_delta
| built_span n d micros e r d' : built n d -> ObserveSpan d micros e r = Some d' -> built (n + 1) d'
| built_log n d ts e : built n d -> built (n + 1) (ObserveLog d ts e)
| built_gauge n d v ts : built n d -> built (n + 1) (ObserveGauge d v ts)
| built_counter n d v r : built n d -> built (n + 1) (ObserveCounter d v r)
| built_hist n d f d' : built n d -> ObserveHistogram d f = Some d' -> built (n + 1) d'
| built_merge n m d o d' : built n d -> built m o -> DeltaMerge d (Some o) = Some d' -> built (n + m) d'.

(** The count of each section against the number of points. *)
Record counted (n : Z) (d : AggregateDelta) : Prop := {
  ct_count : d_Count (d_counts d) = n;
  ct_error : 0 <= d_ErrorRequestCount (d_counts d) <= d_ErrorCount (d_counts d) /\ d_ErrorCount (d_counts d) <= n;
  ct_request : d_ErrorRequestCount (d_counts d) <= d_RequestCount (d_counts d) <= n;
  ct_sections : 0 <= d_DurationCount (d_durations d) /\ 0 <= d_GaugeCount (d_gauges d) /\
    0 <= d_LogCount (d_logs d) /\ 0 <= d_ResetCount (d_counters d) /\
    d_DurationCount (d_durations d) + d_GaugeCount (d_gauges d) + d_LogCount (d_logs d) +
      d_ResetCount (d_counters d) <= n;
  ct_requests_are_spans : d_RequestCount (d_counts d) <= d_DurationCount (d_durations d);
}.

Ltac counted_step :=
  constructor; simpl; unfold inc_if, inc; repeat match goal with |- context [u64 ?x] => rewrite (u64_small x) by lia end;
  (lia || (split_and!; lia)).

Lemma built_nonneg n d : built n d -> 0 <= n.
Proof. induction 1; lia. Qed.

Lemma merge_counted n m d o d' :
  counted n d -> counted m o -> 0 <= n -> 0 <= m -> n + m < 18446744073709551616 ->
  DeltaMerge d (Some o) = Some d' -> counted (n + m) d'.
Proof.
  intros [H1 H2 H3 (H4 & H5 & H6 & H7 & H8) H9] [K1 K2 K3 (K4 & K5 & K6 & K7 & K8) K9] Hn Hm Hnm E.
  unfold DeltaMerge in E. destruct (merge_sketch _ _); [|done]. injection E as <-.
  assert (d_DurationCount (merge_durations (d_durations d) (d_durations o)) =
    d_DurationCount (d_durations d) + d_DurationCount (d_durations o)) as ED.
  { unfold merge_durations. destruct (0 <? _) eqn:E; z_bool; simpl; [rewrite u64_small; lia|lia]. }
  assert (d_GaugeCount (merge_gauges (d_gauges d) (d_gauges o)) =
    d_GaugeCount (d_gauges d) + d_GaugeCount (d_gauges o)) as EG.
  { unfold merge_gauges. destruct (0 <? _) eqn:E; z_bool; simpl; [rewrite u64_small; lia|lia]. }
  constructor; cbn [d_counts d_durations d_gauges d_logs d_counters]; rewrite ?ED, ?EG; counted_step || idtac.
  all: simpl; repeat match goal with |- context [u64 ?x] => rewrite (u64_small x) by lia end; lia.
Qed.

(** Accounting of points: however the points of a window are observed, split
    into deltas and merged, the delta counts each accepted point exactly once;
    errors and requests are subsets (an error request is both), every request
    is a span, and the per-signal sections never count a point twice. *)
Theorem delta_counts (n : Z) (d : AggregateDelta) :
  built n d -> n < 2 ^ 64 -> counted n d.
Proof.
  change (2 ^ 64) with 18446744073709551616.
  induction 1 as [|n d micros e r d' Hb IH E|n d ts e Hb IH|n d v ts Hb IH|n d v r Hb IH|n d f d' Hb IH E
    |n m d o d' Hb IH Hb' IH' E]; intros Hn.
  1: constructor; simpl; lia.
  6: { pose proof (built_nonneg n d Hb). pose proof (built_nonneg m o Hb').
       apply (merge_counted n m d o d'); try done; [apply IH|apply IH']; lia. }
  all: pose proof (built_nonneg n d Hb) as H0; destruct (IH ltac:(lia)) as [H1 H2 H3 (H4 & H5 & H6 & H7 & H8) H9].
  - unfold ObserveSpan, observeDuration in E. destruct (Observe _ _); [|done]. injection E as <-.
    destruct e, r; counted_step.
  - unfold ObserveLog. destruct e; counted_step.
  - unfold ObserveGauge. counted_step.
  - unfold ObserveCounter. destruct r; counted_step.
  - unfold ObserveHistogram in E. destruct (merge_sketch _ _); [|done]. injection E as <-. counted_step.
Qed.

(** A histogram quantile is published only when percentiles are available
    and the quantile is in range; it is then either the tail bound, marked as a
    lower bound, when the rank falls past the sketched population, or a quantile
    of the sketch at a rescaled rank that is at most one; otherwise nothing is
    published. *)
Theorem HistogramQuantile_sound (d : AggregateDelta) (q v : f64) (lower ok : bool) :
  HistogramQuantile d q = Some (v, lower, ok) ->
  let sketched := match d_Sketch d with Some s => sk_count s | None => 0 end in
  let total := u64 (sketched + d_HistogramTailCount (d_hist d)) in
  if ok then
    has (d_HistogramFlags (d_hist d)) HistPercentilesUnavailable = false /\ 0 < d_HistogramCount (d_hist d) /\
    f_is_nan q || flt q f_zero || fgt q f_one = false /\ total <> 0 /\
    lower = fge (fmul q (f_of_Z (u64 (total - 1)))) (f_of_Z sketched) /\
    (if lower then v = d_HistogramTailBound (d_hist d)
     else exists s sq, d_Sketch d = Some s /\ Quantile s sq = Some v /\ fgt sq f_one = false)
  else v = f_zero /\ lower = false.
Proof.
  intros E sketched total. unfold HistogramQuantile in E.
  destruct (negb (HistogramPercentilesAvailable d) || _ || _ || _) eqn:EA; [by injection E as <- <- <-|].
  fold sketched in E. fold total in E. destruct (total =? 0) eqn:ET; [by injection E as <- <- <-|].
  assert (has (d_HistogramFlags (d_hist d)) HistPercentilesUnavailable = false /\
    0 < d_HistogramCount (d_hist d) /\ f_is_nan q || flt q f_zero || fgt q f_one = false) as (A1 & A2 & A3).
  { apply orb_false_iff in EA as [EA E3]. apply orb_false_iff in EA as [EA E2]. apply orb_false_iff in EA as [EA E1].
    apply negb_false_iff, andb_true_iff in EA as [EA1 EA2]. apply Z.ltb_lt in EA1. unfold has.
    rewrite EA2, E1, E2, E3. by split_and!. }
  apply Z.eqb_neq in ET.
  destruct (fge _ _) eqn:EG; [injection E as <- <- <-; by split_and!|].
  destruct (d_Sketch d) as [s|] eqn:ES; [|by injection E as <- <- <-].
  set (sq := if 1 <? sketched then _ else f_zero) in E.
  destruct (Quantile s _) as [v'|] eqn:EQ; [|done]. injection E as <- <- <-.
  split_and!; try done. eexists s, _. split_and!; [done|exact EQ|]. by destruct (fgt sq f_one) eqn:E1.
Qed.

End Reach.

Lemma delta_counts_witness :
  built (H := demo_math) 2 (ObserveLog (ObserveCounter zero_delta f_one true) 7 true) /\
  counted 2 (ObserveLog (ObserveCounter zero_delta f_one true) 7 true).
Proof.
  assert (built (H := demo_math) 2 (ObserveLog (ObserveCounter zero_delta f_one true) 7 true)) as HB.
  { apply (built_log 1). apply (built_counter 0). apply built_zero. }
  split; [exact HB|]. apply (delta_counts (H := demo_math) 2 _ HB). by vm_compute.
Defined.

Definition demo_hist_delta : AggregateDelta :=
  set_hist zero_delta (mkHistograms 4 f_one f_zero f_zero 2 f_zero (f_of_Z 10) 4).

Lemma HistogramQuantile_sound_witness :
  HistogramQuantile (H := demo_math) demo_hist_delta f_half = Some (f_of_Z 10, true, true) /\
  f_of_Z 10 = d_HistogramTailBound (d_hist demo_hist_delta).
Proof.
  assert (HistogramQuantile (H := demo_math) demo_hist_delta f_half = Some (f_of_Z 10, true, true)) as HQ
    by (by vm_compute).
  split; [exact HQ|].
  exact (proj2 (proj2 (proj2 (proj2 (proj2 (HistogramQuantile_sound (H := demo_math) _ _ _ _ _ HQ)))))).
Defined.

(** ** Limits *)

(** Finding: [Merge] is not associative on the float sums: the comment's claim that
    the result depends only on the multiset of observations fails for the
    counter increase. *)
Theorem delta_merge_not_associative :
  exists a b c ab bc x y,
    DeltaMerge a (Some b) = Some ab /\ DeltaMerge ab (Some c) = Some x /\
    DeltaMerge b (Some c) = Some bc /\ DeltaMerge a (Some bc) = Some y /\
    feq (d_CounterDelta (d_counters x)) (d_CounterDelta (d_counters y)) = false.
Proof.
  set (a := ObserveCounter zero_delta (f_of_Z (2 ^ 53)) false).
  set (b := ObserveCounter zero_delta f_one false).
  set (m := fun d o => default zero_delta (DeltaMerge d (Some o))).
  exists a, b, b, (m a b), (m b b), (m (m a b) b), (m a (m b b)). by vm_compute.
Qed.

(** Finding: two exponential-histogram points that both pass validation can panic the
    delta: with bucket offsets at the two ends of the [int32] range the window
    arithmetic of [Sketch.add] wraps and indexes the bin array out of range. *)
Theorem ObserveHistogram_panics :
  exists i1 i2 f1 f2 d,
    FoldExponentialHistogram (H := flat_math) i1 = Ok (Some f1) /\
    FoldExponentialHistogram (H := flat_math) i2 = Ok (Some f2) /\
    ObserveHistogram zero_delta f1 = Some d /\ ObserveHistogram d f2 = None.
Proof.
  set (i1 := mkExponentialInput (demo_common 1) 4 0 (mkExpBuckets MinInt32 [1]) (mkExpBuckets 0 [])).
  set (i2 := mkExponentialInput (demo_common 1) 4 0 (mkExpBuckets (MaxInt32 - 2) [1]) (mkExpBuckets 0 [])).
  set (f1 := fold_of (FoldExponentialHistogram (H := flat_math) i1)).
  set (f2 := fold_of (FoldExponentialHistogram (H := flat_math) i2)).
  exists i1, i2, f1, f2, (default zero_delta (ObserveHistogram zero_delta f1)). by vm_compute.
Qed.
