(* ===== verification/Limiter.v ===== *)
(** * Limiter: the cardinality budget ([internal/aggregate/cardinality.go])

    The state of [Limiter] under its mutex, one operation per method.  Go reads
    a missing map key as zero ([mget]); counters are [int]s that the caps keep
    small, so they are plain [Z] here. *)
From S2P Require Import Prelude Float64 SeriesKey.

(* internal/aggregate/cardinality.go:41-54 DefaultMaxSeries *)
Definition DefaultMaxSeries : Z := 6000.
Definition DefaultMaxSeriesMetrics : Z := 2400.
Definition DefaultMaxSeriesTraces : Z := 2400.
Definition DefaultMaxSeriesEdges : Z := 500.
Definition DefaultMaxSeriesLogs : Z := 500.
Definition DefaultMaxSeriesSystem : Z := 200.
Definition DefaultMaxOperationsPerService : Z := 20.
Definition DefaultMaxTraceSeriesPerService : Z := 50.
Definition DefaultMaxMetricSeriesPerService : Z := 50.
Definition DefaultMaxProducerBaselinesPerSeries : Z := 8.
(** From [template_miner.go]. *)
Definition DefaultMaxLogTemplatesPerService : Z := 10.

(* internal/aggregate/cardinality.go:61-74 OverflowNone *)
Inductive OverflowReason :=
| OverflowNone | OverflowTenant | OverflowServiceNames | OverflowServiceSeries
| OverflowSignal | OverflowGlobal.

#[global] Instance OverflowReason_eq_dec : EqDecision OverflowReason.
Proof. solve_decision. Defined.

#[global] Instance OverflowReason_countable : Countable OverflowReason.
Proof.
  refine (inj_countable' (fun r => match r with OverflowNone => 0%nat | OverflowTenant => 1%nat
    | OverflowServiceNames => 2%nat | OverflowServiceSeries => 3%nat | OverflowSignal => 4%nat
    | OverflowGlobal => 5%nat end)
    (fun n => match n with 0%nat => OverflowNone | 1%nat => OverflowTenant | 2%nat => OverflowServiceNames
    | 3%nat => OverflowServiceSeries | 4%nat => OverflowSignal | _ => OverflowGlobal end) _).
  by intros [].
Defined.

(* internal/aggregate/cardinality.go:77-92 OverflowReason.String *)
Definition OverflowReason_String (r : OverflowReason) : string :=
  match r with
  | OverflowTenant => "tenant"
  | OverflowServiceNames => "service_names"
  | OverflowServiceSeries => "service_series"
  | OverflowSignal => "signal"
  | OverflowGlobal => "global"
  | OverflowNone => "none"
  end.

(* internal/aggregate/cardinality.go:96-116 LimiterConfig *)
Record LimiterConfig := mkLimiterConfig {
  MaxSeries : Z;
  MaxSeriesMetrics : Z;
  MaxSeriesTraces : Z;
  MaxSeriesEdges : Z;
  MaxSeriesLogs : Z;
  MaxSeriesSystem : Z;
  MaxOperationsPerService : Z;
  MaxLogTemplatesPerService : Z;
  MaxTraceSeriesPerService : Z;
  MaxMetricSeriesPerService : Z;
  SeriesPerTenantFraction : f64;
  OtherNameID : option (Z -> Z -> Z);
}.

Inductive limiter_error := ErrFraction | ErrSubCaps.

(* internal/aggregate/cardinality.go:122-131 LimiterConfig.Validate *)
Definition LimiterConfig_Validate (c : LimiterConfig) : option limiter_error :=
  if flt (SeriesPerTenantFraction c) f_zero || fgt (SeriesPerTenantFraction c) f_one then Some ErrFraction
  else
    let sum := MaxSeriesMetrics c + MaxSeriesTraces c + MaxSeriesEdges c + MaxSeriesLogs c + MaxSeriesSystem c in
    if MaxSeries c <? sum then Some ErrSubCaps else None.

(** [if x == 0 { x = d }] *)
Definition or_default (x d : Z) : Z := if x =? 0 then d else x.

(* internal/aggregate/cardinality.go:134-166 LimiterConfig.withDefaults *)
Definition withDefaults (c : LimiterConfig) : LimiterConfig :=
  mkLimiterConfig
    (or_default (MaxSeries c) DefaultMaxSeries)
    (or_default (MaxSeriesMetrics c) DefaultMaxSeriesMetrics)
    (or_default (MaxSeriesTraces c) DefaultMaxSeriesTraces)
    (or_default (MaxSeriesEdges c) DefaultMaxSeriesEdges)
    (or_default (MaxSeriesLogs c) DefaultMaxSeriesLogs)
    (or_default (MaxSeriesSystem c) DefaultMaxSeriesSystem)
    (or_default (MaxOperationsPerService c) DefaultMaxOperationsPerService)
    (or_default (MaxLogTemplatesPerService c) DefaultMaxLogTemplatesPerService)
    (or_default (MaxTraceSeriesPerService c) DefaultMaxTraceSeriesPerService)
    (or_default (MaxMetricSeriesPerService c) DefaultMaxMetricSeriesPerService)
    (SeriesPerTenantFraction c) (OtherNameID c).

(** [serviceScope]: tenant, service, signal. *)
(* internal/aggregate/cardinality.go:169-173 serviceScope *)
Definition serviceScope : Type := Z * Z * Z.
Definition scope_of (k : SeriesKey) : serviceScope := (TenantID k, ServiceID k, KSignal k).

(** [SeriesWindowKey]: a series and a window start. *)
Abbreviation SeriesWindowKey := (SeriesKey * Z)%type (only parsing).

(* internal/aggregate/cardinality.go:183-197 Admission *)
Record Admission := mkAdmission {
  adm_Key : SeriesKey;
  adm_Overflowed : bool;
  adm_Reason : OverflowReason;
  adm_Reserved : bool;
}.

(* internal/aggregate/cardinality.go:225-249 Limiter *)
Record Limiter := mkLimiter {
  l_cfg : LimiterConfig;
  l_present : gset SeriesWindowKey;
  l_windows : gmap SeriesKey Z;
  l_total : Z;
  l_bySignal : gmap Z Z;
  l_byService : gmap serviceScope Z;
  l_names : gmap serviceScope (gset Z);
  l_byTenant : gmap Z Z;
  l_overflow : gset SeriesKey;
  l_overflowBySignal : gmap Z Z;
  l_overflowCounts : gmap OverflowReason Z;
}.

(* internal/aggregate/cardinality.go:252-265 NewLimiter *)
Definition NewLimiter (cfg : LimiterConfig) : Limiter :=
  mkLimiter (withDefaults cfg) ∅ ∅ 0 ∅ ∅ ∅ ∅ ∅ ∅ ∅.

(* internal/aggregate/cardinality.go:472-481 Limiter.nameCap *)
Definition nameCap (c : LimiterConfig) (s : Z) : Z :=
  if (s =? SignalTraceOp) || (s =? SignalServiceEdge) then MaxOperationsPerService c
  else if s =? SignalLog then MaxLogTemplatesPerService c
  else 0.

(* internal/aggregate/cardinality.go:483-492 Limiter.seriesCap *)
Definition seriesCap (c : LimiterConfig) (s : Z) : Z :=
  if (s =? SignalTraceOp) || (s =? SignalServiceEdge) then MaxTraceSeriesPerService c
  else if s =? SignalMetric then MaxMetricSeriesPerService c
  else 0.

(* internal/aggregate/cardinality.go:494-507 Limiter.signalCap *)
Definition signalCap (c : LimiterConfig) (s : Z) : Z :=
  if s =? SignalTraceOp then MaxSeriesTraces c
  else if s =? SignalServiceEdge then MaxSeriesEdges c
  else if s =? SignalLog then MaxSeriesLogs c
  else if s =? SignalMetric then MaxSeriesMetrics c
  else MaxSeriesSystem c.

(** [int(fraction * float64(MaxSeries))], at least one. *)
Definition tenantLimit (c : LimiterConfig) : Z :=
  let limit := f_trunc (fmul (SeriesPerTenantFraction c) (f_of_Z (MaxSeries c))) in
  if limit <? 1 then 1 else limit.

Definition names_of (l : Limiter) (sc : serviceScope) : gset Z := default ∅ (l_names l !! sc).

(* internal/aggregate/cardinality.go:294-336 Limiter.checkLocked *)
Definition checkLocked (l : Limiter) (key : SeriesKey) : OverflowReason :=
  let c := l_cfg l in
  let scope := scope_of key in
  let names := names_of l scope in
  if fgt (SeriesPerTenantFraction c) f_zero && (tenantLimit c <=? mget (l_byTenant l) (TenantID key))
  then OverflowTenant
  else if (0 <? nameCap c (KSignal key)) && (nameCap c (KSignal key) <=? Z.of_nat (size names)) &&
          negb (bool_decide (NameID key ∈ names))
  then OverflowServiceNames
  else if (0 <? seriesCap c (KSignal key)) && (seriesCap c (KSignal key) <=? mget (l_byService l) scope)
  then OverflowServiceSeries
  else if (0 <? signalCap c (KSignal key)) && (signalCap c (KSignal key) <=? mget (l_bySignal l) (KSignal key))
  then OverflowSignal
  else if (0 <? MaxSeries c) && (MaxSeries c <=? l_total l) then OverflowGlobal
  else OverflowNone.

(* internal/aggregate/cardinality.go:361-385 Limiter.addLocked *)
Definition addLocked (l : Limiter) (key : SeriesKey) (window : Z) (isOverflow : bool) : Limiter :=
  let present := {[ (key, window) ]} ∪ l_present l in
  let n := mget (l_windows l) key + 1 in
  let windows := <[key := n]> (l_windows l) in
  if 1 <? n then
    mkLimiter (l_cfg l) present windows (l_total l) (l_bySignal l) (l_byService l) (l_names l) (l_byTenant l)
      (l_overflow l) (l_overflowBySignal l) (l_overflowCounts l)
  else if isOverflow then
    mkLimiter (l_cfg l) present windows (l_total l) (l_bySignal l) (l_byService l) (l_names l) (l_byTenant l)
      ({[ key ]} ∪ l_overflow l)
      (<[KSignal key := mget (l_overflowBySignal l) (KSignal key) + 1]> (l_overflowBySignal l))
      (l_overflowCounts l)
  else
    let scope := scope_of key in
    mkLimiter (l_cfg l) present windows (l_total l + 1)
      (<[KSignal key := mget (l_bySignal l) (KSignal key) + 1]> (l_bySignal l))
      (<[scope := mget (l_byService l) scope + 1]> (l_byService l))
      (if 0 <? nameCap (l_cfg l) (KSignal key)
       then <[scope := {[ NameID key ]} ∪ names_of l scope]> (l_names l) else l_names l)
      (<[TenantID key := mget (l_byTenant l) (TenantID key) + 1]> (l_byTenant l))
      (l_overflow l) (l_overflowBySignal l) (l_overflowCounts l).

(* internal/aggregate/cardinality.go:350-356 Limiter.admitOverflowLocked *)
Definition admitOverflowLocked (l : Limiter) (other : SeriesKey) (window : Z) : Limiter * bool :=
  if bool_decide ((other, window) ∈ l_present l) then (l, false)
  else (addLocked l other window true, true).

(* internal/aggregate/cardinality.go:440-457 Limiter.overflowKey *)
Definition overflowKey (c : LimiterConfig) (key : SeriesKey) : SeriesKey :=
  mkSeriesKey (TenantID key) (ServiceID key)
    (match OtherNameID c with Some f => f (TenantID key) (KSignal key) | None => 0 end)
    0 (KSignal key) (KStatusClass key) HTTPClassNone
    (if (KSignal key =? SignalTraceOp) || (KSignal key =? SignalServiceEdge) then MethodOther else MethodNone)
    SpanKindUnspecified.

(** [l.overflowCounts[reason]++] *)
Definition count_overflow (l : Limiter) (r : OverflowReason) : Limiter :=
  mkLimiter (l_cfg l) (l_present l) (l_windows l) (l_total l) (l_bySignal l) (l_byService l) (l_names l)
    (l_byTenant l) (l_overflow l) (l_overflowBySignal l)
    (<[r := mget (l_overflowCounts l) r + 1]> (l_overflowCounts l)).

(* internal/aggregate/cardinality.go:270-290 Limiter.Admit *)
Definition Admit (l : Limiter) (key : SeriesKey) (window : Z) : Limiter * Admission :=
  if bool_decide ((key, window) ∈ l_present l) then (l, mkAdmission key false OverflowNone false)
  else if 0 <? mget (l_windows l) key then
    (addLocked l key window false, mkAdmission key false OverflowNone true)
  else
    let reason := checkLocked l key in
    if bool_decide (reason <> OverflowNone) then
      let other := overflowKey (l_cfg l) key in
      let '(l, reserved) := admitOverflowLocked (count_overflow l reason) other window in
      (l, mkAdmission other true reason reserved)
    else (addLocked l key window false, mkAdmission key false OverflowNone true).

(** [m[k]--; if m[k] <= 0 { delete(m, k) }] *)
Definition dec_delete {K} `{Countable K} (m : gmap K Z) (k : K) : gmap K Z :=
  let n := mget m k - 1 in
  if n <=? 0 then delete k m else <[k := n]> m.

(* internal/aggregate/cardinality.go:396-434 Limiter.releaseLocked *)
Definition releaseLocked (l : Limiter) (key : SeriesKey) (window : Z) : Limiter :=
  if negb (bool_decide ((key, window) ∈ l_present l)) then l
  else
    let present := l_present l ∖ {[ (key, window) ]} in
    let n := mget (l_windows l) key - 1 in
    let windows := <[key := n]> (l_windows l) in
    if 0 <? n then
      mkLimiter (l_cfg l) present windows (l_total l) (l_bySignal l) (l_byService l) (l_names l) (l_byTenant l)
        (l_overflow l) (l_overflowBySignal l) (l_overflowCounts l)
    else
      let windows := delete key windows in
      if bool_decide (key ∈ l_overflow l) then
        mkLimiter (l_cfg l) present windows (l_total l) (l_bySignal l) (l_byService l) (l_names l) (l_byTenant l)
          (l_overflow l ∖ {[ key ]}) (dec_delete (l_overflowBySignal l) (KSignal key)) (l_overflowCounts l)
      else
        let scope := scope_of key in
        mkLimiter (l_cfg l) present windows (l_total l - 1)
          (<[KSignal key := mget (l_bySignal l) (KSignal key) - 1]> (l_bySignal l))
          (dec_delete (l_byService l) scope)
          (match l_names l !! scope with
           | None => l_names l
           | Some names =>
               let names := names ∖ {[ NameID key ]} in
               if bool_decide (size names = 0%nat) then delete scope (l_names l)
               else <[scope := names]> (l_names l)
           end)
          (dec_delete (l_byTenant l) (TenantID key))
          (l_overflow l) (l_overflowBySignal l) (l_overflowCounts l).

(* internal/aggregate/cardinality.go:390-394 Limiter.Release *)
Definition Release (l : Limiter) (key : SeriesKey) (window : Z) : Limiter := releaseLocked l key window.

(* internal/aggregate/cardinality.go:461-470 Limiter.admittedKey *)
Definition admittedKey (l : Limiter) (key : SeriesKey) (window : Z) : SeriesKey * bool :=
  if bool_decide ((key, window) ∈ l_present l) then (key, true)
  else
    let other := overflowKey (l_cfg l) key in
    (other, bool_decide ((other, window) ∈ l_present l)).

(* internal/aggregate/cardinality.go:510-515 Limiter.IsOverflowSeries *)
Definition IsOverflowSeries (l : Limiter) (key : SeriesKey) : bool := bool_decide (key ∈ l_overflow l).

(* internal/aggregate/cardinality.go:200-217 LimiterStats *)
Record LimiterStats := mkLimiterStats {
  ls_Active : Z;
  ls_ActiveBySignal : gmap Z Z;
  ls_Overflow : gmap OverflowReason Z;
  ls_OverflowSeries : Z;
  ls_OverflowSeriesBySignal : gmap Z Z;
}.

(* internal/aggregate/cardinality.go:518-544 Limiter.Stats *)
Definition Stats (l : Limiter) : LimiterStats :=
  mkLimiterStats (l_total l) (filter (fun p : Z * Z => 0 < snd p) (l_bySignal l)) (l_overflowCounts l)
    (Z.of_nat (size (l_overflow l))) (filter (fun p : Z * Z => 0 < snd p) (l_overflowBySignal l)).

(** ** Counting in finite sets *)

Section Counting.
  Context {A : Type} `{Countable A}.

Definition cnt (P : A -> Prop) `{!forall x, Decision (P x)} (X : gset A) : Z := Z.of_nat (size (filter P X)).

Lemma cnt_insert (P : A -> Prop) `{!forall x, Decision (P x)} X k :
  k ∉ X -> cnt P ({[ k ]} ∪ X) = cnt P X + (if bool_decide (P k) then 1 else 0).
Proof.
  intros Hk. unfold cnt. case_bool_decide as D.
  - assert (filter P ({[ k ]} ∪ X) = {[ k ]} ∪ filter P X) as -> by (apply set_eq; set_solver).
    rewrite size_union, size_singleton; [lia|]. intros x ->%elem_of_singleton [_ Hx]%elem_of_filter. done.
  - assert (filter P ({[ k ]} ∪ X) = filter P X) as -> by (apply set_eq; set_solver). lia.
Qed.

Lemma cnt_remove (P : A -> Prop) `{!forall x, Decision (P x)} X k :
  k ∈ X -> cnt P (X ∖ {[ k ]}) = cnt P X - (if bool_decide (P k) then 1 else 0).
Proof.
  intros Hk. assert (X = {[ k ]} ∪ X ∖ {[ k ]}) as EX by (apply union_difference_singleton_L; done).
  rewrite EX at 2. rewrite cnt_insert by set_solver. lia.
Qed.

Lemma cnt_nonneg (P : A -> Prop) `{!forall x, Decision (P x)} X : 0 <= cnt P X.
Proof. unfold cnt. lia. Qed.

Lemma cnt_pos (P : A -> Prop) `{!forall x, Decision (P x)} X : 0 < cnt P X -> exists x, x ∈ X /\ P x.
Proof.
  unfold cnt. intros Hs. destruct (size_pos_elem_of (filter P X)) as [x Hx]; [lia|].
  apply elem_of_filter in Hx as [? ?]. eauto.
Qed.

Lemma cnt_elem (P : A -> Prop) `{!forall x, Decision (P x)} X x : x ∈ X -> P x -> 0 < cnt P X.
Proof.
  intros Hx HP. unfold cnt. assert (x ∈ filter P X) as HE by (by apply elem_of_filter).
  assert (size (filter P X) <> 0%nat); [|lia]. intros E%size_empty_inv. set_solver.
Qed.

End Counting.

Lemma mget_dec_delete {K} `{Countable K} (m : gmap K Z) k k' :
  0 < mget m k -> mget (dec_delete m k) k' = mget m k' - (if bool_decide (k = k') then 1 else 0).
Proof.
  intros Hm. unfold dec_delete. destruct (_ <=? 0) eqn:E; z_bool.
  - rewrite mget_delete. case_decide; case_bool_decide; try done; subst; lia.
  - rewrite mget_insert. case_decide; case_bool_decide; try done; subst; lia.
Qed.

Lemma mget_incr {K} `{Countable K} (m : gmap K Z) k k' :
  mget (<[k := mget m k + 1]> m) k' = mget m k' + (if bool_decide (k = k') then 1 else 0).
Proof. rewrite mget_insert. case_decide; case_bool_decide; try done; subst; lia. Qed.

Lemma mget_decr {K} `{Countable K} (m : gmap K Z) k k' :
  mget (<[k := mget m k - 1]> m) k' = mget m k' - (if bool_decide (k = k') then 1 else 0).
Proof. rewrite mget_insert. case_decide; case_bool_decide; try done; subst; lia. Qed.

(** ** The census invariant *)

(** The series the budget is charged for. *)
Definition charged (l : Limiter) : gset SeriesKey := dom (l_windows l) ∖ l_overflow l.

Record census (l : Limiter) : Prop := {
  cs_windows : forall k, mget (l_windows l) k = cnt (fun p => fst p = k) (l_present l);
  cs_dom : forall k, k ∈ dom (l_windows l) <-> 0 < mget (l_windows l) k;
  cs_overflow : l_overflow l ⊆ dom (l_windows l);
  cs_total : l_total l = Z.of_nat (size (charged l));
  cs_signal : forall s, mget (l_bySignal l) s = cnt (fun k => KSignal k = s) (charged l);
  cs_service : forall sc, mget (l_byService l) sc = cnt (fun k => scope_of k = sc) (charged l);
  cs_tenant : forall t, mget (l_byTenant l) t = cnt (fun k => TenantID k = t) (charged l);
  cs_reserve : forall s, mget (l_overflowBySignal l) s = cnt (fun k => KSignal k = s) (l_overflow l);
  cs_names : forall sc n, n ∈ names_of l sc ->
    exists k, k ∈ charged l /\ scope_of k = sc /\ NameID k = n;
}.

Lemma census_new cfg : census (NewLimiter cfg).
Proof.
  assert (forall (A : Type) `{Countable A} (P : A -> Prop) `{!forall x, Decision (P x)}, cnt P (∅ : gset A) = 0) as HE.
  { intros A ?? P ?. unfold cnt. assert (filter P (∅ : gset A) = ∅) as -> by (apply set_eq; set_solver).
    by rewrite size_empty. }
  assert (charged (NewLimiter cfg) = ∅) as HCh by (unfold charged; simpl; rewrite dom_empty_L; set_solver).
  constructor; rewrite ?HCh; simpl; intros; rewrite ?HE, ?mget_empty; try done; try set_solver.
Qed.

Lemma present_windows l k w : census l -> (k, w) ∈ l_present l -> 0 < mget (l_windows l) k.
Proof. intros HC Hp. rewrite (cs_windows l HC). by apply (cnt_elem _ _ (k, w)). Qed.

Lemma add_windows l key w k' :
  census l -> (key, w) ∉ l_present l ->
  mget (<[key := mget (l_windows l) key + 1]> (l_windows l)) k' =
  cnt (fun p => fst p = k') ({[ (key, w) ]} ∪ l_present l).
Proof.
  intros HC Hn. rewrite mget_incr, (cs_windows l HC), cnt_insert by done. done.
Qed.

Lemma add_again_census l key w o :
  census l -> (key, w) ∉ l_present l -> 0 < mget (l_windows l) key -> census (addLocked l key w o).
Proof.
  intros HC Hn Hk. unfold addLocked. destruct (1 <? _) eqn:E; z_bool; [|lia].
  assert (key ∈ dom (l_windows l)) as Hd by (by apply (cs_dom l HC)).
  assert (dom (<[key := mget (l_windows l) key + 1]> (l_windows l)) = dom (l_windows l)) as HD
    by (rewrite dom_insert_L; set_solver).
  destruct HC as [H1 H2 H3 H4 H5 H6 H7 H8 H9].
  constructor; unfold charged in *; cbn [l_windows l_present l_overflow l_total l_bySignal l_byService l_byTenant l_overflowBySignal];
    rewrite ?HD; try done.
  - intros k'. by apply add_windows.
  - intros k'. rewrite H2, mget_incr. case_bool_decide; subst; lia.
Qed.

(** A series seen in no window yet: what its first window does to the census. *)
Lemma add_first_census l key w o :
  census l -> (key, w) ∉ l_present l -> mget (l_windows l) key = 0 -> census (addLocked l key w o).
Proof.
  intros HC Hn Hk. unfold addLocked. rewrite Hk. change (1 <? 0 + 1) with false. cbv iota.
  assert (key ∉ dom (l_windows l)) as Hd by (rewrite (cs_dom l HC); lia).
  assert (key ∉ l_overflow l) as Ho by (pose proof (cs_overflow l HC); set_solver).
  assert (key ∉ charged l) as Hch by (unfold charged; set_solver).
  assert (forall k', mget (<[key := 0 + 1]> (l_windows l)) k' =
    cnt (fun p => fst p = k') ({[ (key, w) ]} ∪ l_present l)) as HW.
  { intros k'. rewrite <- Hk. by apply add_windows. }
  assert (forall k', k' ∈ dom (<[key := 0 + 1]> (l_windows l)) <-> 0 < mget (<[key := 0 + 1]> (l_windows l)) k') as HDm.
  { intros k'. rewrite dom_insert, elem_of_union, elem_of_singleton, (cs_dom l HC), mget_insert.
    case_decide; subst; naive_solver lia. }
  destruct o.
  - match goal with |- census ?l' => assert (charged l' = charged l) as HCh end.
    { unfold charged. cbn [l_windows l_overflow]. rewrite dom_insert_L. set_solver. }
    destruct HC as [H1 H2 H3 H4 H5 H6 H7 H8 H9].
    constructor; rewrite ?HCh;
      cbn [l_windows l_present l_overflow l_total l_bySignal l_byService l_byTenant l_overflowBySignal]; try done.
    + rewrite dom_insert_L. set_solver.
    + intros s. by rewrite mget_incr, H8, cnt_insert.
  - match goal with |- census ?l' => assert (charged l' = {[ key ]} ∪ charged l) as HCh end.
    { unfold charged. cbn [l_windows l_overflow]. rewrite dom_insert_L. set_solver. }
    destruct HC as [H1 H2 H3 H4 H5 H6 H7 H8 H9].
    constructor; rewrite ?HCh;
      cbn [l_windows l_present l_overflow l_total l_bySignal l_byService l_byTenant l_overflowBySignal]; try done.
    + rewrite dom_insert_L. set_solver.
    + rewrite H4, size_union, size_singleton by set_solver. lia.
    + intros s. by rewrite mget_incr, H5, cnt_insert.
    + intros sc. by rewrite mget_incr, H6, cnt_insert.
    + intros t. by rewrite mget_incr, H7, cnt_insert.
    + intros sc n. unfold names_of at 1. cbn [l_names].
      assert (forall n, n ∈ names_of l sc -> exists k, k ∈ {[ key ]} ∪ charged l /\ scope_of k = sc /\ NameID k = n) as Hold.
      { intros n' Hin. destruct (H9 sc n' Hin) as (k & ? & ?). exists k. set_solver. }
      destruct (0 <? nameCap _ _); [|apply Hold]. rewrite lookup_insert. case_decide as D; [|apply Hold].
      simpl. subst sc. intros [->%elem_of_singleton|Hin]%elem_of_union; [exists key; set_solver|]. by apply Hold.
Qed.

Lemma add_census l key w o : census l -> (key, w) ∉ l_present l -> census (addLocked l key w o).
Proof.
  intros HC Hn. destruct (decide (0 < mget (l_windows l) key)); [by apply add_again_census|].
  apply add_first_census; [done|done|]. rewrite (cs_windows l HC) in *. pose proof (cnt_nonneg (fun p => fst p = key) (l_present l)). lia.
Qed.

Lemma count_overflow_census l r : census l -> census (count_overflow l r).
Proof. by intros []. Qed.

Lemma admit_census l key w : census l -> census (fst (Admit l key w)).
Proof.
  intros HC. unfold Admit. case_bool_decide as Hp; [done|].
  destruct (0 <? _); [by apply add_census|]. case_bool_decide; [|by apply add_census].
  unfold admitOverflowLocked. set (l' := count_overflow _ _).
  assert (census l') as HC' by (by apply count_overflow_census).
  case_bool_decide as Ho; simpl; [done|]. by apply add_census.
Qed.

Lemma release_windows l key w k' :
  census l -> (key, w) ∈ l_present l ->
  mget (<[key := mget (l_windows l) key - 1]> (l_windows l)) k' =
  cnt (fun p => fst p = k') (l_present l ∖ {[ (key, w) ]}).
Proof. intros HC Hp. rewrite mget_decr, (cs_windows l HC), cnt_remove by done. done. Qed.

Lemma release_again_census l key w :
  census l -> (key, w) ∈ l_present l -> 1 < mget (l_windows l) key -> census (releaseLocked l key w).
Proof.
  intros HC Hp Hk. unfold releaseLocked. rewrite bool_decide_true by done. cbn [negb].
  destruct (0 <? _) eqn:E; z_bool; [|lia].
  assert (key ∈ dom (l_windows l)) as Hd by (apply (cs_dom l HC); lia).
  assert (dom (<[key := mget (l_windows l) key - 1]> (l_windows l)) = dom (l_windows l)) as HD
    by (rewrite dom_insert_L; set_solver).
  destruct HC as [H1 H2 H3 H4 H5 H6 H7 H8 H9].
  constructor; unfold charged in *; cbn [l_windows l_present l_overflow l_total l_bySignal l_byService l_byTenant l_overflowBySignal];
    rewrite ?HD; try done.
  - intros k'. by apply release_windows.
  - intros k'. rewrite H2, mget_decr. case_bool_decide; subst; lia.
Qed.

(** The names a scope keeps after a release are names of series that stay. *)
Lemma release_names l key sc n :
  census l ->
  n ∈ default ∅
    (match l_names l !! scope_of key with
     | None => l_names l
     | Some names =>
         let names := names ∖ {[ NameID key ]} in
         if bool_decide (size names = 0%nat) then delete (scope_of key) (l_names l)
         else <[scope_of key := names]> (l_names l)
     end !! sc) ->
  exists k, k ∈ charged l ∖ {[ key ]} /\ scope_of k = sc /\ NameID k = n.
Proof.
  intros HC Hin.
  assert (n ∈ names_of l sc /\ (sc = scope_of key -> n <> NameID key)) as [Hn Hne].
  { unfold names_of. destruct (l_names l !! scope_of key) as [names|] eqn:E.
    - cbv zeta in Hin. case_bool_decide as HS.
      + rewrite lookup_delete in Hin. case_decide; [simpl in Hin; set_solver|]. split; [done|congruence].
      + rewrite lookup_insert in Hin. case_decide; [|split; [done|congruence]].
        subst sc. rewrite E. simpl in *. set_solver.
    - split; [done|]. intros ->. rewrite E in Hin. simpl in Hin. set_solver. }
  destruct (cs_names l HC sc n Hn) as (k & Hk & <- & <-). exists k. split_and!; [|done|done].
  apply elem_of_difference. split; [done|]. intros ->%elem_of_singleton. by apply Hne.
Qed.

Lemma release_last_census l key w :
  census l -> (key, w) ∈ l_present l -> mget (l_windows l) key = 1 -> census (releaseLocked l key w).
Proof.
  intros HC Hp Hk. unfold releaseLocked. rewrite bool_decide_true by done. cbn [negb].
  rewrite Hk. change (0 <? 1 - 1) with false. cbv iota.
  assert (key ∈ dom (l_windows l)) as Hd by (apply (cs_dom l HC); lia).
  assert (forall k', mget (delete key (<[key := 1 - 1]> (l_windows l))) k' =
    cnt (fun p => fst p = k') (l_present l ∖ {[ (key, w) ]})) as HW.
  { intros k'. rewrite <- (release_windows l key w k'), Hk by done.
    rewrite mget_delete, mget_insert. by case_decide. }
  assert (dom (delete key (<[key := 1 - 1]> (l_windows l))) = dom (l_windows l) ∖ {[ key ]}) as HD.
  { rewrite dom_delete_L, dom_insert_L. set_solver. }
  assert (forall k', k' ∈ dom (delete key (<[key := 1 - 1]> (l_windows l))) <->
    0 < mget (delete key (<[key := 1 - 1]> (l_windows l))) k') as HDm.
  { intros k'. rewrite HD, elem_of_difference, elem_of_singleton, (cs_dom l HC), mget_delete, mget_insert.
    case_decide; subst; naive_solver lia. }
  case_bool_decide as Ho.
  - match goal with |- census ?l' => assert (charged l' = charged l) as HCh end.
    { unfold charged. cbn [l_windows l_overflow]. rewrite HD. set_solver. }
    assert (0 < mget (l_overflowBySignal l) (KSignal key)) as Hpos
      by (rewrite (cs_reserve l HC); by apply (cnt_elem _ _ key)).
    destruct HC as [H1 H2 H3 H4 H5 H6 H7 H8 H9].
    constructor; rewrite ?HCh;
      cbn [l_windows l_present l_overflow l_total l_bySignal l_byService l_byTenant l_overflowBySignal]; try done.
    + rewrite HD. set_solver.
    + intros s. by rewrite mget_dec_delete, H8, cnt_remove.
  - match goal with |- census ?l' => assert (charged l' = charged l ∖ {[ key ]}) as HCh end.
    { unfold charged. cbn [l_windows l_overflow]. rewrite HD. set_solver. }
    assert (key ∈ charged l) as Hch by (unfold charged; set_solver).
    assert (0 < mget (l_byService l) (scope_of key) /\ 0 < mget (l_byTenant l) (TenantID key)) as [P1 P2]
      by (rewrite (cs_service l HC), (cs_tenant l HC); split; by apply (cnt_elem _ _ key)).
    pose proof (release_names l key) as HN. pose proof HC as HC'.
    destruct HC as [H1 H2 H3 H4 H5 H6 H7 H8 H9].
    constructor; rewrite ?HCh;
      cbn [l_windows l_present l_overflow l_total l_bySignal l_byService l_byTenant l_overflowBySignal]; try done.
    + rewrite HD. set_solver.
    + rewrite H4, size_difference, size_singleton by set_solver.
      assert (size (charged l) <> 0%nat); [|lia]. intros E%size_empty_inv. set_solver.
    + intros s. by rewrite mget_decr, H5, cnt_remove.
    + intros sc. by rewrite mget_dec_delete, H6, cnt_remove.
    + intros t. by rewrite mget_dec_delete, H7, cnt_remove.
    + intros sc n Hin. by apply HN.
Qed.

Lemma release_census l key w : census l -> census (releaseLocked l key w).
Proof.
  intros HC. destruct (decide ((key, w) ∈ l_present l)) as [Hp|Hp].
  - pose proof (present_windows l key w HC Hp). destruct (decide (mget (l_windows l) key = 1));
      [by apply release_last_census|apply release_again_census; (done || lia)].
  - unfold releaseLocked. by rewrite bool_decide_false.
Qed.

(** ** Reachable states *)

Inductive limiter_step : Limiter -> Limiter -> Prop :=
| step_admit l key w : limiter_step l (fst (Admit l key w))
| step_release l key w : limiter_step l (Release l key w).

Inductive reachable (cfg : LimiterConfig) : Limiter -> Prop :=
| reach_new : reachable cfg (NewLimiter cfg)
| reach_step l l' : reachable cfg l -> limiter_step l l' -> reachable cfg l'.

Lemma reachable_census cfg l : reachable cfg l -> census l.
Proof.
  induction 1 as [|l l' Hr IH Hs]; [apply census_new|].
  inversion Hs; subst; [by apply admit_census|by apply release_census].
Qed.

Lemma add_cfg l key w o : l_cfg (addLocked l key w o) = l_cfg l.
Proof. unfold addLocked. by repeat case_match. Qed.

Lemma admit_cfg l key w : l_cfg (fst (Admit l key w)) = l_cfg l.
Proof.
  unfold Admit, admitOverflowLocked. repeat case_match; simpl in *; simplify_eq; rewrite ?add_cfg; done.
Qed.

Lemma release_cfg l key w : l_cfg (releaseLocked l key w) = l_cfg l.
Proof. unfold releaseLocked. by repeat case_match. Qed.

Lemma reachable_cfg cfg l : reachable cfg l -> l_cfg l = withDefaults cfg.
Proof.
  induction 1 as [|l l' Hr IH Hs]; [done|].
  inversion Hs; subst; [by rewrite admit_cfg|unfold Release; by rewrite release_cfg].
Qed.

(** Every positive cap bounds its census. *)
Record within_caps (l : Limiter) : Prop := {
  wc_tenant : forall t, fgt (SeriesPerTenantFraction (l_cfg l)) f_zero = true ->
    cnt (fun k => TenantID k = t) (charged l) <= tenantLimit (l_cfg l);
  wc_service : forall sc, 0 < seriesCap (l_cfg l) (snd sc) ->
    cnt (fun k => scope_of k = sc) (charged l) <= seriesCap (l_cfg l) (snd sc);
  wc_signal : forall s, 0 < signalCap (l_cfg l) s ->
    cnt (fun k => KSignal k = s) (charged l) <= signalCap (l_cfg l) s;
  wc_global : 0 < MaxSeries (l_cfg l) -> Z.of_nat (size (charged l)) <= MaxSeries (l_cfg l);
}.

Lemma charged_again l key w o :
  census l -> 0 < mget (l_windows l) key -> charged (addLocked l key w o) = charged l.
Proof.
  intros HC Hk. unfold addLocked. destruct (1 <? _) eqn:E; z_bool; [|lia].
  assert (key ∈ dom (l_windows l)) as Hd by (by apply (cs_dom l HC)).
  unfold charged. cbn [l_windows l_overflow]. rewrite dom_insert_L. set_solver.
Qed.

Lemma charged_first l key w o :
  census l -> mget (l_windows l) key <= 0 ->
  charged (addLocked l key w o) = if o then charged l else {[ key ]} ∪ charged l.
Proof.
  intros HC Hk. unfold addLocked. destruct (1 <? _) eqn:E; z_bool; [lia|].
  assert (key ∉ dom (l_windows l)) as Hd by (rewrite (cs_dom l HC); lia).
  pose proof (cs_overflow l HC).
  destruct o; unfold charged; cbn [l_windows l_overflow]; rewrite dom_insert_L; set_solver.
Qed.

Lemma admit_caps l key w : census l -> within_caps l -> within_caps (fst (Admit l key w)).
Proof.
  intros HC HW. assert (forall l', l_cfg l' = l_cfg l -> charged l' = charged l -> within_caps l') as Hsame.
  { intros l' E1 E2. destruct HW. constructor; rewrite ?E1, ?E2; done. }
  unfold Admit. case_bool_decide as Hp; [done|]. destruct (0 <? mget _ _) eqn:Ew; z_bool.
  { apply Hsame; [apply add_cfg|]. by apply charged_again. }
  case_bool_decide as Hr.
  - unfold admitOverflowLocked. set (l1 := count_overflow _ _). set (other := overflowKey _ _).
    case_bool_decide; [by apply Hsame|]. simpl. apply Hsame; [by rewrite add_cfg|].
    assert (census l1) as HC1 by (by apply count_overflow_census).
    destruct (decide (0 < mget (l_windows l1) other)).
    + by rewrite charged_again.
    + rewrite charged_first by (done || lia). done.
  - unfold checkLocked in Hr.
    repeat match type of Hr with context [if ?b then _ else _] => destruct b eqn:?; [done|] end. clear Hr.
    match goal with H : context [nameCap] |- _ => clear H end.
    assert (charged (addLocked l key w false) = {[ key ]} ∪ charged l) as HCh by (by apply charged_first).
    assert (key ∉ charged l) as Hk.
    { unfold charged. rewrite elem_of_difference, (cs_dom l HC). lia. }
    destruct HW as [W1 W2 W3 W4]. simpl.
    constructor; rewrite add_cfg, HCh.
    + intros t Ht. rewrite cnt_insert by done. specialize (W1 t Ht).
      rewrite <- (cs_tenant l HC) in *. case_bool_decide as D; cbv beta in D; [subst t|lia].
      match goal with H : _ && (tenantLimit _ <=? _) = false |- _ => rewrite Ht in H; simpl in H; apply Z.leb_gt in H; lia end.
    + intros sc Hsc. rewrite cnt_insert by done. specialize (W2 sc Hsc).
      rewrite <- (cs_service l HC) in *. case_bool_decide as D; cbv beta in D; [subst sc|lia]. simpl in Hsc.
      change (snd (scope_of key)) with (KSignal key) in *. z_bool. rewrite ?Z.ltb_ge in *. destruct_or!; (lia || idtac).
    + intros s Hs. rewrite cnt_insert by done. specialize (W3 s Hs).
      rewrite <- (cs_signal l HC) in *. case_bool_decide as D; cbv beta in D; [subst s|lia]. z_bool. destruct_or!; lia.
    + intros Hm. specialize (W4 Hm). rewrite size_union, size_singleton by set_solver.
      rewrite (cs_total l HC) in *. z_bool. destruct_or!; lia.
Qed.

Lemma release_charged l key w :
  census l -> charged (releaseLocked l key w) ⊆ charged l.
Proof.
  intros HC. unfold releaseLocked. case_bool_decide as Hp; [|done]. cbn [negb].
  pose proof (present_windows l key w HC Hp) as Hk. assert (key ∈ dom (l_windows l)) as Hd by (by apply (cs_dom l HC)).
  repeat case_match; unfold charged; cbn [l_windows l_overflow]; rewrite ?dom_delete_L, ?dom_insert_L; set_solver.
Qed.

Lemma cnt_mono {A} `{Countable A} (P : A -> Prop) `{!forall x, Decision (P x)} (X Y : gset A) :
  X ⊆ Y -> cnt P X <= cnt P Y.
Proof. intros HXY. unfold cnt. apply Nat2Z.inj_le, subseteq_size. set_solver. Qed.

Lemma release_caps l key w : census l -> within_caps l -> within_caps (releaseLocked l key w).
Proof.
  intros HC [W1 W2 W3 W4]. pose proof (release_charged l key w HC) as HS.
  constructor; rewrite release_cfg.
  - intros t Ht. etrans; [by apply cnt_mono|]. auto.
  - intros sc Hsc. etrans; [by apply cnt_mono|]. auto.
  - intros s Hs. etrans; [by apply cnt_mono|]. auto.
  - intros Hm. etrans; [apply Nat2Z.inj_le, subseteq_size, HS|]. auto.
Qed.

Lemma caps_new cfg : within_caps (NewLimiter cfg).
Proof.
  assert (charged (NewLimiter cfg) = ∅) as HCh by (unfold charged; simpl; rewrite dom_empty_L; set_solver).
  assert (forall (P : SeriesKey -> Prop) `{!forall x, Decision (P x)}, cnt P ∅ = 0) as HE.
  { intros P ?. unfold cnt. assert (filter P (∅ : gset SeriesKey) = ∅) as -> by (apply set_eq; set_solver).
    by rewrite size_empty. }
  constructor; rewrite HCh; intros; rewrite ?HE, ?size_empty; try lia.
  unfold tenantLimit. go_cases.
Qed.

(** C34: in every state reachable by admissions and releases the counters are
    the exact census of the charged series, and no positive cap (tenant
    fraction, per-service series, signal sub-cap, global) is ever exceeded;
    overflow series are kept out of the census. *)
Theorem caps_never_exceeded (cfg : LimiterConfig) (l : Limiter) :
  reachable cfg l -> census l /\ within_caps l.
Proof.
  intros H. split; [by eapply reachable_census|].
  induction H as [|l l' Hr IH Hs].
  - apply caps_new.
  - pose proof (reachable_census cfg l Hr). inversion Hs; subst; [by apply admit_caps|by apply release_caps].
Qed.

Definition demo_key (name status : Z) : SeriesKey := mkSeriesKey 1 2 name 0 SignalTraceOp status 0 MethodGet 0.
Definition demo_cfg (names : Z) : LimiterConfig :=
  mkLimiterConfig 0 0 0 0 0 0 names 0 0 0 f_zero None.

Lemma caps_never_exceeded_witness :
  let l := fst (Admit (NewLimiter (demo_cfg 0)) (demo_key 7 1) 300) in
  reachable (demo_cfg 0) l /\ within_caps l.
Proof.
  intros l. assert (reachable (demo_cfg 0) l) as HR.
  { eapply reach_step; [apply reach_new|]. apply (step_admit (NewLimiter (demo_cfg 0)) (demo_key 7 1) 300). }
  split; [exact HR|]. exact (proj2 (caps_never_exceeded (demo_cfg 0) l HR)).
Defined.

Lemma add_present l key w o : l_present (addLocked l key w o) = {[ (key, w) ]} ∪ l_present l.
Proof. unfold addLocked. by repeat case_match. Qed.

(** What an admission does to presence, and what it keeps of the request. *)
Lemma admit_present l key w :
  let '(l', adm) := Admit l key w in
  l_present l' = l_present l ∪ (if adm_Reserved adm then {[ (adm_Key adm, w) ]} else ∅) /\
  (adm_Key adm, w) ∈ l_present l' /\
  (adm_Reserved adm = true -> (adm_Key adm, w) ∉ l_present l) /\
  KSignal (adm_Key adm) = KSignal key.
Proof.
  unfold Admit. destruct (decide ((key, w) ∈ l_present l)) as [Hp|Hp].
  { rewrite bool_decide_true by done. simpl. split_and!; (done || set_solver). }
  rewrite bool_decide_false by done.
  destruct (0 <? _); [simpl; rewrite add_present; split_and!; (done || set_solver)|].
  case_bool_decide; [|simpl; rewrite add_present; split_and!; (done || set_solver)].
  unfold admitOverflowLocked. change (l_present (count_overflow l _)) with (l_present l).
  case_bool_decide as Ho; simpl; [split_and!; (done || set_solver)|].
  rewrite add_present. change (l_present (count_overflow l _)) with (l_present l). split_and!; (done || set_solver).
Qed.


(** Nothing is ever refused: an admission always yields a series that is
    present in the window afterwards and keeps the tenant, service, signal and
    status class of the request; it is the requested series unless a cap was
    hit, in which case nothing is charged; and a replay resolves to the same
    series. *)
Theorem admit_never_refuses (l : Limiter) (key : SeriesKey) (window : Z) :
  census l ->
  let '(l', adm) := Admit l key window in
  (adm_Key adm, window) ∈ l_present l' /\ l_present l ⊆ l_present l' /\
  TenantID (adm_Key adm) = TenantID key /\ ServiceID (adm_Key adm) = ServiceID key /\
  KSignal (adm_Key adm) = KSignal key /\ KStatusClass (adm_Key adm) = KStatusClass key /\
  (adm_Overflowed adm = false -> adm_Key adm = key) /\
  (adm_Overflowed adm = true -> charged l' = charged l /\ adm_Reason adm <> OverflowNone) /\
  (adm_Reserved adm = true <-> (adm_Key adm, window) ∉ l_present l) /\
  admittedKey l' key window = (adm_Key adm, true).
Proof.
  intros HC. unfold Admit. case_bool_decide as Hp.
  { cbn. unfold admittedKey. rewrite bool_decide_true by done. by split_and!. }
  destruct (0 <? mget (l_windows l) key) eqn:Ew; z_bool.
  { cbn. unfold admittedKey. rewrite !add_present, bool_decide_true by set_solver. split_and!; try done; set_solver. }
  case_bool_decide as Hr.
  2: { cbn. unfold admittedKey. rewrite !add_present, bool_decide_true by set_solver. split_and!; try done; set_solver. }
  set (reason := checkLocked l key) in *. set (other := overflowKey (l_cfg l) key).
  unfold admitOverflowLocked. change (l_present (count_overflow l reason)) with (l_present l).
  case_bool_decide as Ho; cbn.
  - unfold admittedKey. cbn. rewrite bool_decide_false by done. fold other. rewrite bool_decide_true by done.
    split_and!; try done.
  - unfold admittedKey. rewrite add_present, add_cfg. cbn. fold other.
    assert ((if bool_decide ((key, window) ∈ {[(other, window)]} ∪ l_present l) then (key, true)
      else (other, bool_decide ((other, window) ∈ {[(other, window)]} ∪ l_present l))) = (other, true)) as ->.
    { case_bool_decide as H1; [|by rewrite bool_decide_true by set_solver].
      apply elem_of_union in H1 as [H1%elem_of_singleton|]; [|done]. f_equal. congruence. }
    assert (census (count_overflow l reason)) as HC1 by (by apply count_overflow_census).
    split_and!; try done; try set_solver. intros _. split; [|done].
    destruct (decide (0 < mget (l_windows l) other)).
    + by rewrite charged_again.
    + rewrite charged_first by (done || simpl; lia). done.
Qed.

Lemma admit_never_refuses_witness :
  (demo_key 7 1, 300) ∈ l_present (fst (Admit (NewLimiter (demo_cfg 0)) (demo_key 7 1) 300)).
Proof. exact (proj1 (admit_never_refuses (NewLimiter (demo_cfg 0)) (demo_key 7 1) 300 (census_new _))). Defined.

(** Two states that agree on every counter of the census (the name sets and
    the overflow statistics aside). *)
Record same_census (l l' : Limiter) : Prop := {
  sc_present : l_present l' = l_present l;
  sc_charged : charged l' = charged l;
  sc_overflow : l_overflow l' = l_overflow l;
  sc_windows : forall k, mget (l_windows l') k = mget (l_windows l) k;
  sc_total : l_total l' = l_total l;
  sc_signal : forall s, mget (l_bySignal l') s = mget (l_bySignal l) s;
  sc_service : forall s, mget (l_byService l') s = mget (l_byService l) s;
  sc_tenant : forall t, mget (l_byTenant l') t = mget (l_byTenant l) t;
}.

Lemma same_census_intro l l' :
  census l -> census l' -> l_present l' = l_present l -> charged l' = charged l ->
  l_overflow l' = l_overflow l -> same_census l l'.
Proof.
  intros [H1 H2 H3 H4 H5 H6 H7 H8 H9] [K1 K2 K3 K4 K5 K6 K7 K8 K9] EP EC EO.
  constructor; try done; intros; rewrite ?K1, ?H1, ?K4, ?H4, ?K5, ?H5, ?K6, ?H6, ?K7, ?H7, ?EP, ?EC; done.
Qed.

Lemma release_present l key w : l_present (releaseLocked l key w) = l_present l ∖ {[ (key, w) ]}.
Proof.
  unfold releaseLocked. case_bool_decide as Hp; cbn [negb]; [by repeat case_match|set_solver].
Qed.

(** Releasing a list of pairs, as an eviction does. *)
Definition release_all (l : Limiter) (released : list SeriesWindowKey) : Limiter :=
  foldl (fun l swk => Release l (fst swk) (snd swk)) l released.

Lemma release_all_present released : forall l,
  l_present (release_all l released) = l_present l ∖ list_to_set released.
Proof.
  induction released as [|[k w] released IH]; intros l; [simpl; set_solver|].
  cbn [release_all foldl list_to_set]. fold (release_all (Release l k w) released).
  cbn [fst snd]. rewrite IH. unfold Release. rewrite release_present. set_solver.
Qed.

Lemma release_all_census released : forall l, census l -> census (release_all l released).
Proof.
  induction released as [|[k w] released IH]; intros l HC; [done|]. apply IH. by apply release_census.
Qed.

Lemma release_all_caps released : forall l, census l -> within_caps l -> within_caps (release_all l released).
Proof.
  induction released as [|[k w] released IH]; intros l HC HW; [done|].
  apply IH; [by apply release_census|by apply release_caps].
Qed.

Lemma add_release_census l key w o :
  census l -> (key, w) ∉ l_present l ->
  charged (releaseLocked (addLocked l key w o) key w) = charged l /\
  l_overflow (releaseLocked (addLocked l key w o) key w) = l_overflow l.
Proof.
  intros HC Hn. unfold releaseLocked. rewrite add_present, bool_decide_true by set_solver. cbn [negb].
  unfold addLocked. pose proof (cs_overflow l HC).
  assert (0 <= mget (l_windows l) key) as H0 by (rewrite (cs_windows l HC); apply cnt_nonneg).
  destruct (1 <? mget (l_windows l) key + 1) eqn:E; z_bool.
  - cbn [l_windows]. rewrite mget_insert, decide_True by done.
    destruct (0 <? _) eqn:E2; z_bool; [|lia]. unfold charged. cbn [l_windows l_overflow].
    assert (key ∈ dom (l_windows l)) by (apply (cs_dom l HC); lia).
    rewrite !dom_insert_L. split; [set_solver|done].
  - assert (key ∉ dom (l_windows l)) as Hd by (rewrite (cs_dom l HC); lia).
    assert (key ∉ l_overflow l) by set_solver.
    destruct o; cbn [l_windows l_overflow]; rewrite mget_insert, decide_True by done.
    + destruct (0 <? _) eqn:E2; z_bool; [lia|]. rewrite bool_decide_true by set_solver.
      unfold charged. cbn [l_windows l_overflow]. rewrite dom_delete_L, !dom_insert_L. split; set_solver.
    + destruct (0 <? _) eqn:E2; z_bool; [lia|]. rewrite bool_decide_false by done.
      unfold charged. cbn [l_windows l_overflow]. rewrite dom_delete_L, !dom_insert_L. split; set_solver.
Qed.

(** Releasing what an admission reserved restores the occupancy: presence,
    the charged and overflow series, and every counter a cap is compared
    against are what they were before the admission. *)
Theorem release_undoes_admit (l : Limiter) (key : SeriesKey) (window : Z) :
  census l ->
  let '(l', adm) := Admit l key window in
  adm_Reserved adm = true -> same_census l (Release l' (adm_Key adm) window).
Proof.
  intros HC. assert (forall l0 k o, census l0 -> l_present l0 = l_present l -> charged l0 = charged l ->
    l_overflow l0 = l_overflow l -> (k, window) ∉ l_present l0 ->
    same_census l (releaseLocked (addLocked l0 k window o) k window)) as HU.
  { intros l0 k o HC0 EP EC EO Hn. destruct (add_release_census l0 k window o HC0 Hn) as [R1 R2].
    apply same_census_intro; [done|by apply release_census, add_census| |congruence|congruence].
    rewrite release_present, add_present, <- EP. set_solver. }
  unfold Release. unfold Admit. case_bool_decide as Hp; [done|].
  destruct (0 <? mget (l_windows l) key); [intros _; by apply HU|].
  case_bool_decide as Hr; [|intros _; by apply HU].
  unfold admitOverflowLocked. case_bool_decide as Ho; [done|]. intros _. simpl.
  apply HU; try done. by apply count_overflow_census.
Qed.

Lemma release_undoes_admit_witness :
  same_census (NewLimiter (demo_cfg 0))
    (Release (fst (Admit (NewLimiter (demo_cfg 0)) (demo_key 7 1) 300)) (demo_key 7 1) 300).
Proof.
  exact (release_undoes_admit (NewLimiter (demo_cfg 0)) (demo_key 7 1) 300 (census_new _) eq_refl).
Defined.

(** Finding: the per-service name cap can be exceeded: a release deletes its name
    from the scope's set even when another charged series still carries it, so
    with a cap of one operation the service ends up with two. *)
Theorem release_forgets_name :
  exists cfg l, reachable cfg l /\
    nameCap (l_cfg l) SignalTraceOp = 1 /\
    demo_key 7 1 ∈ charged l /\ demo_key 8 1 ∈ charged l.
Proof.
  set (l0 := NewLimiter (demo_cfg 1)).
  set (l1 := fst (Admit l0 (demo_key 7 1) 300)).
  set (l2 := fst (Admit l1 (demo_key 7 2) 300)).
  set (l3 := Release l2 (demo_key 7 2) 300).
  exists (demo_cfg 1), (fst (Admit l3 (demo_key 8 1) 300)). split.
  - do 4 (eapply reach_step; [|first [apply step_admit|apply step_release]]). apply reach_new.
  - split; [by vm_compute|]. split; (apply (bool_decide_unpack _); vm_compute; exact I).
Qed.
