(* ===== verification/Baseline.v ===== *)
(** * Baseline: cumulative sums to deltas ([internal/aggregate/temporality.go])

    [BaselineTracker] under its mutex.  A record lives in a two-level map (series,
    then producer); the dirty set is drained in map order, which Go leaves
    unspecified and the model takes from [elements]. *)
From S2P Require Import Prelude Float64 SeriesKey Limiter.

(* internal/aggregate/temporality.go:32-32 Temporality *)
Definition Temporality : Type := Z.
Definition TemporalityUnspecified : Temporality := 0.
Definition TemporalityDelta : Temporality := 1.
Definition TemporalityCumulative : Temporality := 2.

(* internal/aggregate/temporality.go:46-46 ProducerID *)
Definition ProducerID : Type := Z.
Definition degradedProducer : ProducerID := 0.

(* internal/aggregate/temporality.go:58-70 ResourceIdentity *)
Record ResourceIdentity := mkResource {
  ServiceInstanceID : string;
  ServiceNamespace : string;
  ServiceName : string;
  Host : string;
  Workload : string;
}.

(** [hash/fnv]'s 64-bit FNV-1a. *)
Definition fnv_offset : Z := 14695981039346656037.
Definition fnv_prime : Z := 1099511628211.
Definition fnv_write (h : Z) (b : bytes) : Z :=
  foldl (fun h x => u64 (Z.lxor h x * fnv_prime)) h b.

Definition str_bytes (s : string) : bytes :=
  map (fun c => Z.of_N (Ascii.N_of_ascii c)) (String.list_ascii_of_string s).

(* internal/aggregate/temporality.go:78-95 ResolveProducerID *)
Definition ResolveProducerID (id : ResourceIdentity) : ProducerID :=
  let sum :=
    if negb (String.eqb (ServiceInstanceID id) "") then
      fnv_write (fnv_write fnv_offset [105; 0]) (str_bytes (ServiceInstanceID id))
    else
      foldl (fun h part => fnv_write (fnv_write h (str_bytes part)) [0])
        (fnv_write fnv_offset [116; 0])
        [ServiceNamespace id; ServiceName id; Host id; Workload id] in
  if sum =? degradedProducer then 1 else sum.

(* internal/aggregate/temporality.go:98-107 Baseline *)
Record Baseline := mkBaseline { StartTime : time; LastTimestamp : time; Value : f64 }.

(* internal/aggregate/temporality.go:113-119 ResetNone *)
Inductive ResetReason := ResetNone | ResetStartTimeChange | ResetValueRegression.

(* internal/aggregate/temporality.go:122-131 ResetReason.String *)
Definition ResetReason_String (r : ResetReason) : string :=
  match r with
  | ResetStartTimeChange => "start_time_change"
  | ResetValueRegression => "value_regression"
  | ResetNone => "none"
  end.

(* internal/aggregate/temporality.go:136-162 CumulativeOutcome *)
Record CumulativeOutcome := mkOutcome {
  o_Delta : f64;
  o_Ignored : bool;
  o_Seeded : bool;
  o_Gap : bool;
  o_Reset : bool;
  o_Reason : ResetReason;
  o_Degraded : bool;
  o_Recovered : bool;
}.

(* internal/aggregate/temporality.go:197-211 BaselineTrackerConfig *)
Record BaselineTrackerConfig := mkTrackerConfig {
  MaxProducersPerSeries : Z;
  MaxBaselines : Z;
  GapThreshold : Z;
}.

(* internal/aggregate/temporality.go:228-231 baselineRef *)
Definition baselineRef : Type := SeriesKey * ProducerID.

(* internal/aggregate/temporality.go:216-225 DirtyBaseline *)
Record DirtyBaseline := mkDirty {
  db_Key : SeriesKey;
  db_Producer : ProducerID;
  db_Baseline : Baseline;
  db_Inflight : f64;
}.

(* internal/aggregate/temporality.go:246-254 baselineState *)
Record baselineState := mkState { bs_Baseline : Baseline; bs_pending : f64; bs_owed : f64 }.

(** The statistics counters of the tracker. *)
Record TrackerCounters := mkTrackerCounters {
  tc_stale : Z; tc_seeded : Z; tc_gaps : Z; tc_resetsStartTime : Z; tc_resetsRegression : Z;
  tc_producerOverflow : Z; tc_globalOverflow : Z; tc_recovered : Z; tc_stranded : Z;
}.

(* internal/aggregate/temporality.go:258-276 BaselineTracker *)
Record BaselineTracker := mkTracker {
  t_cfg : BaselineTrackerConfig;
  t_series : gmap SeriesKey (gmap ProducerID baselineState);
  t_dirty : gset baselineRef;
  t_entries : Z;
  t_owed : Z;
  t_counters : TrackerCounters;
}.

(** [AllowedLateness], from [engine.go]. *)
Definition AllowedLateness : Z := 10 * Minute.

Definition zero_counters : TrackerCounters := mkTrackerCounters 0 0 0 0 0 0 0 0 0.

(* internal/aggregate/temporality.go:280-295 NewBaselineTracker *)
Definition NewBaselineTracker (cfg : BaselineTrackerConfig) : BaselineTracker :=
  let mp := if MaxProducersPerSeries cfg <=? 0 then DefaultMaxProducerBaselinesPerSeries
            else MaxProducersPerSeries cfg in
  let mb := if MaxBaselines cfg <=? 0 then mp * DefaultMaxSeriesMetrics else MaxBaselines cfg in
  let gt := if GapThreshold cfg <=? 0 then AllowedLateness else GapThreshold cfg in
  mkTracker (mkTrackerConfig mp mb gt) ∅ ∅ 0 0 zero_counters.

Definition by_producer (t : BaselineTracker) (key : SeriesKey) : gmap ProducerID baselineState :=
  default ∅ (t_series t !! key).
Definition record_at (t : BaselineTracker) (key : SeriesKey) (p : ProducerID) : option baselineState :=
  by_producer t key !! p.

(** [t.series[key][producer] = st] *)
Definition put_record (t : BaselineTracker) (key : SeriesKey) (p : ProducerID) (st : baselineState)
    : BaselineTracker :=
  mkTracker (t_cfg t) (<[key := <[p := st]> (by_producer t key)]> (t_series t)) (t_dirty t)
    (t_entries t) (t_owed t) (t_counters t).
Definition set_entries (t : BaselineTracker) (n : Z) : BaselineTracker :=
  mkTracker (t_cfg t) (t_series t) (t_dirty t) n (t_owed t) (t_counters t).
Definition set_owed (t : BaselineTracker) (n : Z) : BaselineTracker :=
  mkTracker (t_cfg t) (t_series t) (t_dirty t) (t_entries t) n (t_counters t).
Definition set_tcounters (t : BaselineTracker) (c : TrackerCounters) : BaselineTracker :=
  mkTracker (t_cfg t) (t_series t) (t_dirty t) (t_entries t) (t_owed t) c.
Definition set_dirty (t : BaselineTracker) (d : gset baselineRef) : BaselineTracker :=
  mkTracker (t_cfg t) (t_series t) d (t_entries t) (t_owed t) (t_counters t).

(** [t.stale++] and the like: the counter picked by position. *)
Definition bump (i : nat) (t : BaselineTracker) : BaselineTracker :=
  let c := t_counters t in
  let f j x := if (i =? j)%nat then u64 (x + 1) else x in
  set_tcounters t
    (mkTrackerCounters (f 0%nat (tc_stale c)) (f 1%nat (tc_seeded c)) (f 2%nat (tc_gaps c))
       (f 3%nat (tc_resetsStartTime c)) (f 4%nat (tc_resetsRegression c)) (f 5%nat (tc_producerOverflow c))
       (f 6%nat (tc_globalOverflow c)) (f 7%nat (tc_recovered c)) (f 8%nat (tc_stranded c))).
Abbreviation bump_stale := (bump 0).
Abbreviation bump_seeded := (bump 1).
Abbreviation bump_gaps := (bump 2).
Abbreviation bump_resetsStartTime := (bump 3).
Abbreviation bump_resetsRegression := (bump 4).
Abbreviation bump_producerOverflow := (bump 5).
Abbreviation bump_globalOverflow := (bump 6).
Abbreviation bump_recovered := (bump 7).
Abbreviation bump_stranded := (bump 8).

(* internal/aggregate/temporality.go:301-313 BaselineTracker.Seed *)
Definition Seed (t : BaselineTracker) (key : SeriesKey) (p : ProducerID) (b : Baseline) : BaselineTracker :=
  let t := match record_at t key p with
           | Some _ => t
           | None => set_entries t (t_entries t + 1)
           end in
  put_record t key p (mkState b f_zero f_zero).

(* internal/aggregate/temporality.go:383-385 BaselineTracker.markDirtyLocked *)
Definition markDirtyLocked (t : BaselineTracker) (key : SeriesKey) (p : ProducerID) : BaselineTracker :=
  set_dirty t ({[ (key, p) ]} ∪ t_dirty t).

(** The body of [DrainDirty]'s loop. *)
Definition drain_one (acc : BaselineTracker * list DirtyBaseline) (ref : baselineRef)
    : BaselineTracker * list DirtyBaseline :=
  let '(t, out) := acc in
  match record_at t (fst ref) (snd ref) with
  | None => (t, out)
  | Some st =>
      (put_record t (fst ref) (snd ref) (mkState (bs_Baseline st) f_zero (bs_owed st)),
       out ++ [mkDirty (fst ref) (snd ref) (bs_Baseline st) (bs_pending st)])
  end.

(* internal/aggregate/temporality.go:323-345 BaselineTracker.DrainDirty *)
Definition DrainDirty (t : BaselineTracker) : BaselineTracker * list DirtyBaseline :=
  let '(t', out) := foldl drain_one (t, []) (elements (t_dirty t)) in
  (set_dirty t' ∅, out).

(** The body of [Rollback]'s loop. *)
Definition rollback_one (t : BaselineTracker) (r : DirtyBaseline) : BaselineTracker :=
  let t := markDirtyLocked t (db_Key r) (db_Producer r) in
  match record_at t (db_Key r) (db_Producer r) with
  | None => t
  | Some st =>
      if feq (db_Inflight r) f_zero then t
      else
        let t := if feq (bs_owed st) f_zero then set_owed t (t_owed t + 1) else t in
        put_record t (db_Key r) (db_Producer r)
          (mkState (bs_Baseline st) (bs_pending st) (fadd (bs_owed st) (db_Inflight r)))
  end.

(* internal/aggregate/temporality.go:355-372 BaselineTracker.Rollback *)
Definition Rollback (t : BaselineTracker) (rows : list DirtyBaseline) : BaselineTracker :=
  foldl rollback_one t rows.

(* internal/aggregate/temporality.go:375-379 BaselineTracker.DirtyCount *)
Definition DirtyCount (t : BaselineTracker) : Z := Z.of_nat (size (t_dirty t)).

Definition outcome (delta : f64) (ignored seeded gap reset : bool) (reason : ResetReason)
    (degraded recovered : bool) : CumulativeOutcome :=
  mkOutcome delta ignored seeded gap reset reason degraded recovered.

(** The slot a point is attributed to: its own, or the series' shared one when
    it has none and a bound is exhausted. *)
Definition choose_slot (t : BaselineTracker) (key : SeriesKey) (producer : ProducerID)
    : BaselineTracker * ProducerID * bool :=
  match record_at t key producer with
  | Some _ => (t, producer, false)
  | None =>
      if (MaxProducersPerSeries (t_cfg t) <=? Z.of_nat (size (by_producer t key))) &&
         negb (producer =? degradedProducer)
      then (bump_producerOverflow t, degradedProducer, true)
      else if (MaxBaselines (t_cfg t) <=? t_entries t) && negb (producer =? degradedProducer)
      then (bump_globalOverflow t, degradedProducer, true)
      else (t, producer, false)
  end.

(** What follows the slot choice for an existing record [b]. *)
Definition observe_record (t : BaselineTracker) (key : SeriesKey) (p : ProducerID) (b : baselineState)
    (startTime ts : time) (value : f64) (degraded : bool) : BaselineTracker * CumulativeOutcome :=
  let base := bs_Baseline b in
  let owing := fgt (bs_owed b) f_zero in
  if negb (t_After ts (LastTimestamp base)) then
    let t := bump_stale t in
    if owing then
      let t := put_record t key p (mkState base (fadd (bs_pending b) (bs_owed b)) f_zero) in
      (markDirtyLocked (bump_recovered (set_owed t (t_owed t - 1))) key p,
       outcome (bs_owed b) false false false false ResetNone degraded true)
    else (t, outcome f_zero true false false false ResetNone degraded false)
  else if GapThreshold (t_cfg t) <? t_Sub ts (LastTimestamp base) then
    let t := put_record t key p
               (mkState (mkBaseline startTime ts value) (bs_pending b) (if owing then f_zero else bs_owed b)) in
    let t := if owing then bump_stranded (set_owed t (t_owed t - 1)) else t in
    (markDirtyLocked (bump_gaps t) key p, outcome f_zero false false true false ResetNone degraded false)
  else
    let '(t, reset, reason, delta) :=
      if negb (startTime =? StartTime base) then (bump_resetsStartTime t, true, ResetStartTimeChange, value)
      else if flt value (Value base) then (bump_resetsRegression t, true, ResetValueRegression, value)
      else (t, false, ResetNone, fsub value (Value base)) in
    let delta := if owing then fadd delta (bs_owed b) else delta in
    let t := if owing then bump_recovered (set_owed t (t_owed t - 1)) else t in
    let t := put_record t key p
               (mkState (mkBaseline startTime ts value) (fadd (bs_pending b) delta)
                  (if owing then f_zero else bs_owed b)) in
    (markDirtyLocked t key p, outcome delta false false false reset reason degraded owing).

(* internal/aggregate/temporality.go:394-507 BaselineTracker.ObserveCumulative *)
Definition ObserveCumulative (t : BaselineTracker) (key : SeriesKey) (producer : ProducerID)
    (startTime ts : time) (value : f64) : BaselineTracker * CumulativeOutcome :=
  let '(t, p, degraded) := choose_slot t key producer in
  match record_at t key p with
  | None =>
      let t := put_record t key p (mkState (mkBaseline startTime ts value) f_zero f_zero) in
      let t := bump_seeded (set_entries t (t_entries t + 1)) in
      (markDirtyLocked t key p, outcome f_zero false true false false ResetNone degraded false)
  | Some b => observe_record t key p b startTime ts value degraded
  end.

(* internal/aggregate/temporality.go:511-519 BaselineTracker.Baseline *)
Definition BaselineAt (t : BaselineTracker) (key : SeriesKey) (p : ProducerID) : option Baseline :=
  st ← record_at t key p; Some (bs_Baseline st).

(* internal/aggregate/temporality.go:545-547 IsGaugeLike *)
Definition IsGaugeLike (temporality : Temporality) (monotonic : bool) : bool :=
  negb (temporality =? TemporalityDelta) && negb monotonic.

(** ** Records under the operations *)

Lemma record_put t k p st k' p' :
  record_at (put_record t k p st) k' p' = if decide ((k, p) = (k', p')) then Some st else record_at t k' p'.
Proof.
  unfold record_at, put_record, by_producer. cbn [t_series]. rewrite lookup_insert.
  destruct (decide (k = k')) as [<-|Hk]; simpl.
  - rewrite lookup_insert. destruct (decide (p = p')) as [<-|Hp]; [by rewrite decide_True|].
    rewrite decide_False by congruence. done.
  - rewrite decide_False by congruence. done.
Qed.

Lemma record_set_owed t n k p : record_at (set_owed t n) k p = record_at t k p.
Proof. done. Qed.
Lemma record_bump i t k p : record_at (bump i t) k p = record_at t k p.
Proof. done. Qed.
Lemma record_mark t k p k' p' : record_at (markDirtyLocked t k p) k' p' = record_at t k' p'.
Proof. done. Qed.
Lemma record_entries t n k p : record_at (set_entries t n) k p = record_at t k p.
Proof. done. Qed.

#[export] Hint Rewrite record_put record_set_owed record_bump record_mark record_entries : otel.

Definition observe (t : BaselineTracker) (key : SeriesKey) (p : ProducerID) (startTime ts : time) (v : f64)
    : BaselineTracker * CumulativeOutcome := ObserveCumulative t key p startTime ts v.

Lemma observe_known t key p b startTime ts v :
  record_at t key p = Some b ->
  ObserveCumulative t key p startTime ts v = observe_record t key p b startTime ts v false.
Proof. intros H. unfold ObserveCumulative, choose_slot. by rewrite H, H. Qed.

(** Number of flags raised. *)
Definition raised (l : list bool) : nat := length (filter (fun b => b = true) l).

Ltac verdicts := split; [vm_compute; lia|]; simpl; split; [naive_solver|split; congruence].

(** Every point gets at most one of the verdicts ignored, seeded, gap and
    reset; the first three carry no increase; a reset carries its reason; and a
    stale or duplicate point never moves the baseline value it was compared
    with and is never a reset. *)
Theorem cumulative_verdicts (t : BaselineTracker) (key : SeriesKey) (p : ProducerID) (startTime ts : time) (v : f64) :
  let '(t', o) := ObserveCumulative t key p startTime ts v in
  (raised [o_Ignored o; o_Seeded o; o_Gap o; o_Reset o] <= 1)%nat /\
  (o_Ignored o || o_Seeded o || o_Gap o = true -> o_Delta o = f_zero /\ o_Recovered o = false) /\
  (o_Reset o = true <-> o_Reason o <> ResetNone) /\
  (forall b, record_at t key p = Some b -> ts <= LastTimestamp (bs_Baseline b) ->
    BaselineAt t' key p = Some (bs_Baseline b) /\
    o_Reset o = false /\ o_Gap o = false /\ o_Seeded o = false /\
    (o_Ignored o = negb (o_Recovered o))).
Proof.
  destruct (ObserveCumulative t key p startTime ts v) as [t' o] eqn:E.
  assert (forall t0 q b d, observe_record t0 key q b startTime ts v d = (t', o) ->
    (raised [o_Ignored o; o_Seeded o; o_Gap o; o_Reset o] <= 1)%nat /\
    (o_Ignored o || o_Seeded o || o_Gap o = true -> o_Delta o = f_zero /\ o_Recovered o = false) /\
    (o_Reset o = true <-> o_Reason o <> ResetNone)) as HR.
  { intros t0 q b d. unfold observe_record.
    repeat match goal with |- context [if ?c then _ else _] => destruct c end;
      intros [= <- <-]; verdicts. }
  assert ((raised [o_Ignored o; o_Seeded o; o_Gap o; o_Reset o] <= 1)%nat /\
    (o_Ignored o || o_Seeded o || o_Gap o = true -> o_Delta o = f_zero /\ o_Recovered o = false) /\
    (o_Reset o = true <-> o_Reason o <> ResetNone)) as (H1 & H2 & H3).
  { unfold ObserveCumulative in E. destruct (choose_slot t key p) as [[t0 q] d].
    destruct (record_at t0 key q) as [b|]; [by eapply HR|].
    injection E as <- <-. verdicts. }
  split_and!; try done; intros b Hb Hts; rewrite (observe_known t key p b) in E by done; unfold observe_record in E;
    unfold t_After in E; rewrite (proj2 (Z.ltb_ge _ _)) in E by lia; cbn [negb] in E;
    destruct (fgt _ _); injection E as <- <-; try done; unfold BaselineAt; autorewrite with otel; rewrite ?decide_True, ?Hb by done; try done.
Qed.

Lemma cumulative_verdicts_check :
  let t := fst (ObserveCumulative (NewBaselineTracker (mkTrackerConfig 0 0 0)) (demo_key 1 0) 5 1 10 f_one) in
  o_Ignored (snd (ObserveCumulative t (demo_key 1 0) 5 1 10 f_one)) = true.
Proof. by vm_compute. Qed.

(** ** A failed commit loses nothing *)

Definition ref_of (r : DirtyBaseline) : baselineRef := (db_Key r, db_Producer r).
Definition clear_pending (st : baselineState) : baselineState := mkState (bs_Baseline st) f_zero (bs_owed st).
Definition row_of (t : BaselineTracker) (ref : baselineRef) : option DirtyBaseline :=
  st ← record_at t (fst ref) (snd ref); Some (mkDirty (fst ref) (snd ref) (bs_Baseline st) (bs_pending st)).

Lemma drain_loop t out L t' out' :
  NoDup L -> foldl drain_one (t, out) L = (t', out') ->
  out' = out ++ omap (row_of t) L /\ t_cfg t' = t_cfg t /\ t_owed t' = t_owed t /\
  forall k p, record_at t' k p =
    if decide ((k, p) ∈ L) then clear_pending <$> record_at t k p else record_at t k p.
Proof.
  revert t out. induction L as [|[k0 p0] L IH]; intros t out ND H.
  { injection H as <- <-. split_and!; [by rewrite app_nil_r|done|done|]. intros k p. by rewrite decide_False by set_solver. }
  apply NoDup_cons in ND as [Hn ND]. cbn [foldl drain_one fst snd] in H.
  destruct (record_at t k0 p0) as [st|] eqn:E.
  - apply IH in H as (Ho & Hc & Hw & Hr); [|done]. cbn [omap list_omap]. unfold row_of at 1. cbn [fst snd].
    rewrite E. cbn [mbind option_bind]. split_and!; try done.
    + rewrite Ho, <- app_assoc. cbn [app]. do 2 f_equal. apply list_omap_ext, Forall_Forall2_diag, Forall_forall. intros [k p] Hin.
      unfold row_of. cbn [fst snd]. rewrite record_put, decide_False; [done|].
      intros [= -> ->]. by apply Hn.
    + intros k p. rewrite Hr, record_put. destruct (decide ((k0, p0) = (k, p))) as [[= -> ->]|Hne].
      * rewrite decide_False, decide_True by set_solver. by rewrite E.
      * destruct (decide ((k, p) ∈ L)); [rewrite decide_True by set_solver; done|rewrite decide_False by set_solver; done].
  - apply IH in H as (Ho & Hc & Hw & Hr); [|done]. cbn [omap list_omap]. unfold row_of at 1. cbn [fst snd].
    rewrite E. cbn [mbind option_bind]. split_and!; try done.
    intros k p. rewrite Hr. destruct (decide ((k0, p0) = (k, p))) as [[= -> ->]|Hne].
    + rewrite decide_False, decide_True by set_solver. by rewrite E.
    + destruct (decide ((k, p) ∈ L)); [rewrite decide_True by set_solver; done|rewrite decide_False by set_solver; done].
Qed.

(** What a rollback does to a record: its row's amount is owed again. *)
Definition owe (a : f64) (st : baselineState) : baselineState :=
  if feq a f_zero then st else mkState (bs_Baseline st) (bs_pending st) (fadd (bs_owed st) a).

Lemma rollback_other t rows k p :
  (k, p) ∉ ref_of <$> rows -> record_at (Rollback t rows) k p = record_at t k p.
Proof.
  unfold Rollback. revert t. induction rows as [|r rows IH]; intros t Hn; [done|]. cbn [foldl].
  rewrite IH by set_solver. unfold rollback_one. autorewrite with otel.
  destruct (record_at t (db_Key r) (db_Producer r)); [|done]. destruct (feq _ _); [done|].
  autorewrite with otel. rewrite decide_False; [by destruct (feq _ _)|]. intros [= <- <-]. set_solver.
Qed.

Lemma rollback_row t rows r st :
  NoDup (ref_of <$> rows) -> r ∈ rows -> record_at t (db_Key r) (db_Producer r) = Some st ->
  record_at (Rollback t rows) (db_Key r) (db_Producer r) = Some (owe (db_Inflight r) st).
Proof.
  unfold Rollback. revert t. induction rows as [|r0 rows IH]; intros t ND Hin Hst; [set_solver|].
  cbn [foldl]. apply NoDup_cons in ND as [Hn ND].
  destruct (decide (ref_of r0 = ref_of r)) as [Heq|Hne].
  - assert (r0 = r) as ->.
    { apply elem_of_cons in Hin as [|Hin]; [done|]. exfalso. apply Hn. rewrite Heq. by apply list_elem_of_fmap_2. }
    fold (Rollback (rollback_one t r) rows). rewrite rollback_other by exact Hn.
    unfold rollback_one, owe. autorewrite with otel. rewrite Hst. destruct (feq (db_Inflight r) f_zero); [by autorewrite with otel|].
    autorewrite with otel. by rewrite decide_True.
  - apply elem_of_cons in Hin as [<-|Hin]; [done|]. apply IH; [done|done|].
    unfold rollback_one. autorewrite with otel.
    destruct (record_at t (db_Key r0) (db_Producer r0)); [|done]. destruct (feq _ _); [done|].
    autorewrite with otel. rewrite decide_False by exact Hne. by destruct (feq _ _).
Qed.

Lemma rollback_cfg t rows : t_cfg (Rollback t rows) = t_cfg t.
Proof.
  unfold Rollback. revert t. induction rows as [|r rows IH]; intros t; [done|]. cbn [foldl]. rewrite IH.
  unfold rollback_one. destruct (record_at _ _ _); [|done]. destruct (feq _ _); [done|]. by destruct (feq _ _).
Qed.

Lemma row_of_ref t ref r : row_of t ref = Some r -> ref_of r = ref.
Proof. unfold row_of. destruct (record_at _ _ _); [|done]. intros [= <-]. by destruct ref. Qed.

Lemma rows_refs t (L : list baselineRef) : forall ref : baselineRef, ref ∈ ref_of <$> omap (row_of t) L -> ref ∈ L.
Proof.
  intros ref (r & -> & Hr)%list_elem_of_fmap. apply list_elem_of_omap in Hr as (ref' & Hin & E).
  by rewrite (row_of_ref _ _ _ E).
Qed.

Lemma rows_nodup t (L : list baselineRef) : NoDup L -> NoDup (ref_of <$> omap (row_of t) L).
Proof.
  induction 1 as [|ref L Hn ND IH]; [constructor|]. cbn [omap list_omap].
  destruct (row_of t ref) as [r|] eqn:E; [|done]. rewrite fmap_cons. apply NoDup_cons. split; [|done].
  rewrite (row_of_ref _ _ _ E). intros Hin%rows_refs. done.
Qed.

(** One record through a drain and the rollback of what was drained. *)
Lemma drain_rollback t k p st :
  record_at t k p = Some st -> (k, p) ∈ t_dirty t ->
  let '(t', rows) := DrainDirty t in
  record_at (Rollback t' rows) k p = Some (owe (bs_pending st) (clear_pending st)) /\
  t_cfg (Rollback t' rows) = t_cfg t.
Proof.
  intros Hst Hd. unfold DrainDirty. destruct (foldl drain_one _ _) as [t' out] eqn:E.
  apply drain_loop in E as (Ho & Hc & _ & Hr); [|apply NoDup_elements]. cbn [app] in Ho. subst out.
  split; [|by rewrite rollback_cfg].
  assert ((k, p) ∈ elements (t_dirty t)) as Hin by (by apply elem_of_elements).
  set (r := mkDirty k p (bs_Baseline st) (bs_pending st)).
  apply (rollback_row _ _ r).
  - apply rows_nodup, NoDup_elements.
  - apply list_elem_of_omap. exists (k, p). split; [done|]. unfold row_of. cbn [fst snd]. by rewrite Hst.
  - change (record_at (set_dirty t' ∅) (db_Key r) (db_Producer r)) with (record_at t' k p).
    by rewrite Hr, decide_True, Hst.
Qed.

Lemma fadd_zero_l x : fgt x f_zero = true -> fadd f_zero x = x.
Proof. unfold fgt, flt, SFltb, fadd. by destruct x as [[]|[]| |[] m e]. Qed.

Lemma pos_not_zero x : fgt x f_zero = true -> feq x f_zero = false.
Proof. unfold fgt, flt, SFltb, feq, SFeqb. by destruct x as [[]|[]| |[] m e]. Qed.

(** C35: a failed group commit neither loses nor duplicates an increase: after a
    normal point whose commit is drained and rolled back, an identical client
    retry re-attributes exactly the stranded amount once and is ignored the
    second time; or, if a newer point arrives first, that point carries its own
    increase plus the stranded amount and the late retry is ignored. *)
Theorem commit_failure_recovers (t : BaselineTracker) (key : SeriesKey) (p : ProducerID) (b : baselineState)
    (start ts1 : time) (v1 : f64) :
  record_at t key p = Some b -> bs_pending b = f_zero -> bs_owed b = f_zero ->
  StartTime (bs_Baseline b) = start -> LastTimestamp (bs_Baseline b) < ts1 ->
  t_Sub ts1 (LastTimestamp (bs_Baseline b)) <= GapThreshold (t_cfg t) ->
  flt v1 (Value (bs_Baseline b)) = false ->
  let x := fsub v1 (Value (bs_Baseline b)) in
  fgt x f_zero = true ->
  let '(t1, o1) := ObserveCumulative t key p start ts1 v1 in
  let '(t2, rows) := DrainDirty t1 in
  let t3 := Rollback t2 rows in
  o_Delta o1 = x /\
  (let '(t4, o4) := ObserveCumulative t3 key p start ts1 v1 in
   o_Delta o4 = x /\ o_Recovered o4 = true /\
   o_Ignored (snd (ObserveCumulative t4 key p start ts1 v1)) = true) /\
  (forall ts2 v2, ts1 < ts2 -> t_Sub ts2 ts1 <= GapThreshold (t_cfg t) -> flt v2 v1 = false ->
   let '(t4, o4) := ObserveCumulative t3 key p start ts2 v2 in
   o_Delta o4 = fadd (fsub v2 v1) x /\ o_Recovered o4 = true /\
   o_Ignored (snd (ObserveCumulative t4 key p start ts1 v1)) = true).
Proof.
  intros Hb Hp Ho Hs Ht Hg Hv x Hx.
  rewrite (observe_known t key p b) by done. unfold observe_record at 1.
  assert (fgt f_zero f_zero = false) as Hz by (by vm_compute). rewrite Ho, Hz.
  unfold t_After at 1. rewrite (proj2 (Z.ltb_lt _ _)) by lia. cbn [negb].
  rewrite (proj2 (Z.ltb_ge _ _)) by lia. rewrite Hs, Z.eqb_refl, Hv. cbn [negb].
  rewrite Hp. fold x. rewrite (fadd_zero_l x Hx).
  set (st1 := mkState (mkBaseline start ts1 v1) x f_zero). set (t1 := markDirtyLocked _ _ _).
  assert (record_at t1 key p = Some st1) as H1 by (unfold t1; autorewrite with otel; by rewrite decide_True).
  assert ((key, p) ∈ t_dirty t1) as Hd by (unfold t1; set_solver).
  pose proof (drain_rollback t1 key p st1 H1 Hd) as HR. destruct (DrainDirty t1) as [t2 rows].
  destruct HR as [H3 Hc3]. set (t3 := Rollback t2 rows) in *.
  unfold owe in H3. cbn [bs_pending st1 clear_pending bs_Baseline bs_owed] in H3.
  rewrite (pos_not_zero x Hx), (fadd_zero_l x Hx) in H3. set (st3 := mkState _ f_zero x) in H3.
  change (t_cfg t1) with (t_cfg t) in Hc3.
  split; [done|]. split.
  - rewrite (observe_known t3 key p st3) by done. unfold observe_record at 1.
    cbn [st3 bs_Baseline bs_owed bs_pending LastTimestamp]. unfold t_After at 1. rewrite Z.ltb_irrefl. cbn [negb]. rewrite Hx.
    split; [done|]. split; [done|].
    erewrite observe_known by (autorewrite with otel; by rewrite decide_True).
    unfold observe_record. cbn [bs_Baseline bs_owed LastTimestamp]. unfold t_After. rewrite Z.ltb_irrefl, Hz. done.
  - intros ts2 v2 Ht2 Hg2 Hv2. rewrite (observe_known t3 key p st3) by done. unfold observe_record at 1.
    cbn [st3 bs_Baseline bs_owed bs_pending LastTimestamp StartTime Value]. unfold t_After at 1.
    rewrite (proj2 (Z.ltb_lt _ _)) by lia. cbn [negb]. rewrite Hc3, (proj2 (Z.ltb_ge _ _)) by lia.
    rewrite Z.eqb_refl, Hv2, Hx. cbn [negb]. split; [done|]. split; [done|].
    erewrite observe_known by (autorewrite with otel; by rewrite decide_True).
    unfold observe_record. cbn [bs_Baseline bs_owed LastTimestamp]. unfold t_After.
    rewrite (proj2 (Z.ltb_ge _ _)) by lia. rewrite Hz. done.
Qed.

Lemma commit_failure_recovers_witness :
  let t := fst (ObserveCumulative (NewBaselineTracker (mkTrackerConfig 0 0 0)) (demo_key 1 0) 5 1 10 f_one) in
  let '(t1, o1) := ObserveCumulative t (demo_key 1 0) 5 1 20 (f_of_Z 7) in
  let '(t2, rows) := DrainDirty t1 in
  o_Delta o1 = f_of_Z 6 /\
  o_Delta (snd (ObserveCumulative (Rollback t2 rows) (demo_key 1 0) 5 1 20 (f_of_Z 7))) = f_of_Z 6.
Proof.
  set (t := fst (ObserveCumulative (NewBaselineTracker (mkTrackerConfig 0 0 0)) (demo_key 1 0) 5 1 10 f_one)).
  pose proof (commit_failure_recovers t (demo_key 1 0) 5 (mkState (mkBaseline 1 10 f_one) f_zero f_zero) 1 20 (f_of_Z 7)
    eq_refl eq_refl eq_refl eq_refl eq_refl ltac:(by vm_compute) eq_refl eq_refl) as H.
  cbv zeta. destruct (ObserveCumulative t (demo_key 1 0) 5 1 20 (f_of_Z 7)) as [t1 o1].
  destruct (DrainDirty t1) as [t2 rows]. destruct H as (H1 & H2 & _).
  destruct (ObserveCumulative (Rollback t2 rows) (demo_key 1 0) 5 1 20 (f_of_Z 7)) as [t4 o4].
  destruct H2 as [H2 _]. split; [rewrite H1|cbn [snd]; rewrite H2]; by vm_compute.
Defined.

(** ** Bounds on the records *)

Definition msum (f : gmap ProducerID baselineState -> Z)
    (s : gmap SeriesKey (gmap ProducerID baselineState)) : Z := map_sum (fun _ => f) s.

Lemma msum_insert f s k m :
  f ∅ = 0 -> msum f (<[k := m]> s) = msum f s - f (default ∅ (s !! k)) + f m.
Proof. intros H0. unfold msum. rewrite map_sum_set. destruct (s !! k); cbn; lia. Qed.

(** All records of a series, and those that are not the shared slot. *)
Definition all_of (m : gmap ProducerID baselineState) : Z := Z.of_nat (size m).
Definition dedicated (m : gmap ProducerID baselineState) : Z :=
  Z.of_nat (size (dom m ∖ {[ degradedProducer ]})).

Record bounded (t : BaselineTracker) : Prop := {
  bd_entries : t_entries t = msum all_of (t_series t);
  bd_series : forall k, dedicated (by_producer t k) <= MaxProducersPerSeries (t_cfg t);
  bd_global : msum dedicated (t_series t) <= MaxBaselines (t_cfg t);
  bd_cfg : 0 < MaxProducersPerSeries (t_cfg t) /\ 0 < MaxBaselines (t_cfg t);
}.

Lemma by_producer_put t k p st k' :
  by_producer (put_record t k p st) k' = if decide (k = k') then <[p := st]> (by_producer t k) else by_producer t k'.
Proof. unfold by_producer at 1. cbn [put_record t_series]. rewrite lookup_insert. by case_decide. Qed.

Lemma dom_known (m : gmap ProducerID baselineState) p st0 st : m !! p = Some st0 -> dom (<[p := st]> m) = dom m.
Proof. intros H. rewrite dom_insert_L. apply elem_of_dom_2 in H. set_solver. Qed.

(** Replacing a record keeps the bounds. *)
Lemma bounded_put t k p st0 st : bounded t -> record_at t k p = Some st0 -> bounded (put_record t k p st).
Proof.
  intros [H1 H2 H3 H4] Hst. pose proof (dom_known (by_producer t k) p st0 st Hst) as HD.
  assert (all_of (<[p := st]> (by_producer t k)) = all_of (by_producer t k)) as HA
    by (unfold all_of; by rewrite <- !size_dom, HD).
  assert (dedicated (<[p := st]> (by_producer t k)) = dedicated (by_producer t k)) as HE
    by (unfold dedicated; by rewrite HD).
  constructor; try done.
  - cbn [put_record t_series t_entries]. rewrite msum_insert by done. fold (by_producer t k). lia.
  - intros k'. rewrite by_producer_put. change (t_cfg (put_record t k p st)) with (t_cfg t).
    case_decide; [subst; rewrite HE|]; apply H2.
  - cbn [put_record t_series t_cfg]. rewrite msum_insert by (by vm_compute). fold (by_producer t k). lia.
Qed.

(** Adding a record: the shared slot is free, a dedicated slot needs room. *)
Lemma bounded_new t k p st :
  bounded t -> record_at t k p = None ->
  (p <> degradedProducer -> all_of (by_producer t k) < MaxProducersPerSeries (t_cfg t) /\ t_entries t < MaxBaselines (t_cfg t)) ->
  bounded (set_entries (put_record t k p st) (t_entries t + 1)).
Proof.
  intros [H1 H2 H3 H4] Hst Hroom.
  assert (p ∉ dom (by_producer t k)) as Hp by (by apply not_elem_of_dom).
  assert (all_of (<[p := st]> (by_producer t k)) = all_of (by_producer t k) + 1) as HA
    by (unfold all_of; rewrite map_size_insert_None by exact Hst; lia).
  assert (dedicated (<[p := st]> (by_producer t k)) =
    dedicated (by_producer t k) + (if decide (p = degradedProducer) then 0 else 1)) as HE.
  { unfold dedicated. rewrite dom_insert_L. case_decide as D.
    - subst p. replace (({[ degradedProducer ]} ∪ dom (by_producer t k)) ∖ {[ degradedProducer ]})
        with (dom (by_producer t k) ∖ {[ degradedProducer ]}) by set_solver. lia.
    - replace (({[ p ]} ∪ dom (by_producer t k)) ∖ {[ degradedProducer ]})
        with ({[ p ]} ∪ dom (by_producer t k) ∖ {[ degradedProducer ]}) by set_solver.
      rewrite size_union, size_singleton by set_solver. lia. }
  assert (forall m, dedicated m <= all_of m) as Hle.
  { intros m. unfold dedicated, all_of. rewrite <- size_dom. apply Nat2Z.inj_le, subseteq_size. set_solver. }
  assert (msum dedicated (t_series t) <= msum all_of (t_series t)) as Hsum.
  { unfold msum. clear -Hle. induction (t_series t) as [|k m s Hk IH] using map_ind; [done|].
    rewrite !map_sum_insert by done. specialize (Hle m). lia. }
  constructor; try done.
  - cbn [set_entries put_record t_series t_entries]. rewrite msum_insert by done. fold (by_producer t k). lia.
  - intros k'. change (by_producer (set_entries ?a _) k') with (by_producer a k').
    rewrite by_producer_put. cbn [set_entries put_record t_cfg]. destruct (decide (k = k')) as [<-|_]; [|apply H2]. rewrite HE.
    destruct (decide (p = degradedProducer)); [specialize (H2 k); lia|]. destruct Hroom as [Hr _]; [done|]. specialize (Hle (by_producer t k)). lia.
  - cbn [set_entries put_record t_series t_cfg]. rewrite msum_insert by (by vm_compute). fold (by_producer t k).
    rewrite HE. destruct (decide (p = degradedProducer)); [lia|]. destruct Hroom as [_ Hr]; [done|]. lia.
Qed.

Lemma bounded_same t t' :
  bounded t -> t_series t' = t_series t -> t_entries t' = t_entries t -> t_cfg t' = t_cfg t -> bounded t'.
Proof.
  intros [H1 H2 H3 H4] E1 E2 E3. constructor; rewrite ?E1, ?E2, ?E3; try done.
  intros k. unfold by_producer. rewrite E1. apply H2.
Qed.

Lemma bounded_observe_record t k p b st ts v d :
  bounded t -> record_at t k p = Some b -> bounded (fst (observe_record t k p b st ts v d)).
Proof.
  intros HB Hb. assert (forall t' st', bounded (put_record t k p st') -> t_series t' = t_series (put_record t k p st') ->
    t_entries t' = t_entries t -> t_cfg t' = t_cfg t -> bounded t') as HS.
  { intros t' st' HP E1 E2 E3. by apply (bounded_same _ _ HP). }
  unfold observe_record.
  repeat match goal with |- context [if ?c then _ else _] => destruct c end; cbn [fst];
    first [by apply (bounded_same t) | eapply HS; [by eapply bounded_put|reflexivity|reflexivity|reflexivity]].
Qed.

Lemma bounded_observe t k p st ts v : bounded t -> bounded (fst (ObserveCumulative t k p st ts v)).
Proof.
  intros HB. unfold ObserveCumulative. destruct (choose_slot t k p) as [[t0 q] d] eqn:E.
  assert (bounded t0 /\ (record_at t0 k q = None -> q <> degradedProducer ->
    all_of (by_producer t0 k) < MaxProducersPerSeries (t_cfg t0) /\ t_entries t0 < MaxBaselines (t_cfg t0))) as [HB0 Hroom].
  { unfold choose_slot in E. destruct (record_at t k p) eqn:Ep; [by injection E as <- <- <-; rewrite Ep|].
    destruct (_ && _) eqn:E1; [injection E as <- <- <-; split; [by apply (bounded_same t)|done]|].
    destruct ((MaxBaselines _ <=? _) && _) eqn:E2; [injection E as <- <- <-; split; [by apply (bounded_same t)|done]|].
    injection E as <- <- <-. split; [done|]. intros _ Hq. rewrite (proj2 (Z.eqb_neq p degradedProducer) Hq) in E1, E2.
    rewrite andb_true_r in E1, E2. unfold all_of. z_bool. lia. }
  destruct (record_at t0 k q) as [b|] eqn:Eq; [by apply bounded_observe_record|]. cbn [fst].
  eapply bounded_same; [apply (bounded_new t0 k q (mkState (mkBaseline st ts v) f_zero f_zero) HB0 Eq);
    intros Hq; by apply Hroom|done..].
Qed.

Lemma bounded_drain t : bounded t -> bounded (fst (DrainDirty t)).
Proof.
  intros HB. unfold DrainDirty. assert (forall L out, bounded (fst (foldl drain_one (t, out) L))) as HL.
  { intros L. revert t HB. induction L as [|[k p] L IH]; intros t HB out; [done|]. cbn [foldl drain_one fst snd].
    destruct (record_at t k p) as [st|] eqn:E; [|by apply IH]. apply IH. by eapply bounded_put. }
  specialize (HL (elements (t_dirty t)) []). destruct (foldl _ _ _) as [t' out]. cbn [fst] in *.
  by apply (bounded_same t').
Qed.

Lemma bounded_rollback t rows : bounded t -> bounded (Rollback t rows).
Proof.
  unfold Rollback. revert t. induction rows as [|r rows IH]; intros t HB; [done|]. cbn [foldl]. apply IH.
  unfold rollback_one. assert (bounded (markDirtyLocked t (db_Key r) (db_Producer r))) as HM by (by apply (bounded_same t)).
  destruct (record_at _ _ _) as [st|] eqn:E; [|done]. destruct (feq _ _); [done|].
  destruct (feq (bs_owed st) f_zero); (eapply bounded_put; [|exact E]); [|done]. by eapply bounded_same.
Qed.

(** The states of a tracker that was not seeded. *)
Inductive tracked (cfg : BaselineTrackerConfig) : BaselineTracker -> Prop :=
| tracked_new : tracked cfg (NewBaselineTracker cfg)
| tracked_observe t k p st ts v : tracked cfg t -> tracked cfg (fst (ObserveCumulative t k p st ts v))
| tracked_drain t : tracked cfg t -> tracked cfg (fst (DrainDirty t))
| tracked_rollback t rows : tracked cfg t -> tracked cfg (Rollback t rows).

(** Baseline memory is bounded whatever the producers do: the entry counter
    is exact, no series holds more dedicated baselines than its producer bound,
    and all series together hold no more dedicated baselines than the global
    budget; past either bound points share one degraded slot per series. *)
Theorem baselines_bounded (cfg : BaselineTrackerConfig) (t : BaselineTracker) :
  tracked cfg t -> bounded t.
Proof.
  induction 1 as [|t k p st ts v _ IH|t _ IH|t rows _ IH].
  - constructor.
    + done.
    + intros k. assert (by_producer (NewBaselineTracker cfg) k = ∅) as -> by reflexivity.
      assert (dedicated ∅ = 0) as -> by (by vm_compute). unfold NewBaselineTracker. cbn [t_cfg MaxProducersPerSeries].
      unfold DefaultMaxProducerBaselinesPerSeries. go_cases.
    + unfold NewBaselineTracker, msum. cbn [t_series t_cfg MaxBaselines]. rewrite map_sum_empty.
      unfold DefaultMaxProducerBaselinesPerSeries, DefaultMaxSeriesMetrics. go_cases.
    + unfold NewBaselineTracker. cbn [t_cfg MaxProducersPerSeries MaxBaselines].
      unfold DefaultMaxProducerBaselinesPerSeries, DefaultMaxSeriesMetrics. split; go_cases.
  - by apply bounded_observe.
  - by apply bounded_drain.
  - by apply bounded_rollback.
Qed.

Lemma baselines_bounded_witness :
  let t := fst (ObserveCumulative (NewBaselineTracker (mkTrackerConfig 1 1 0)) (demo_key 1 0) 5 1 10 f_one) in
  tracked (mkTrackerConfig 1 1 0) t /\ bounded t.
Proof.
  intros t. assert (tracked (mkTrackerConfig 1 1 0) t) as HT by (apply tracked_observe, tracked_new).
  split; [exact HT|exact (baselines_bounded _ _ HT)].
Defined.

(** The producer discriminator is never the shared slot. *)
Lemma ResolveProducerID_dedicated id : ResolveProducerID id <> degradedProducer.
Proof. unfold ResolveProducerID. destruct (_ =? _) eqn:E; z_bool; done. Qed.
