(* ===== verification/Edges.v ===== *)
(** * Edges: caller resolution ([internal/aggregate/edges.go])

    The bounded memory of recent spans that recovers the caller of a
    cross-service call: sixteen least-recently-used maps, picked by the FNV-1a
    hash of the span ID.  A [container/list] element is a pair of an identity
    and its value, front first; [elems] holds the identities.  The shards are
    proved to refine a recency list. *)
From S2P Require Import Prelude.

(** ** State *)

(* internal/aggregate/edges.go:32-32 DefaultEdgeResolverSpans *)
Definition DefaultEdgeResolverSpans : Z := 100000.

(* internal/aggregate/edges.go:36-36 edgeResolverShards *)
Definition edgeResolverShards : Z := 16.

(* internal/aggregate/edges.go:55-58 edgeSpanKey *)
Record edgeSpanKey := mkSpanKey { k_tenant : string; k_spanID : string }.

#[global] Instance edgeSpanKey_eq_dec : EqDecision edgeSpanKey.
Proof. solve_decision. Defined.

#[global] Instance edgeSpanKey_countable : Countable edgeSpanKey.
Proof.
  refine (inj_countable' (fun k => (k_tenant k, k_spanID k)) (fun p => mkSpanKey p.1 p.2) _). by intros [].
Defined.

Abbreviation element := (Z * edgeSpanKey)%type.

(* internal/aggregate/edges.go:44-50 edgeShard *)
Record edgeShard := mkShard {
  e_cap : Z;
  e_byID : gmap edgeSpanKey string;
  e_order : list element;
  e_elems : gmap edgeSpanKey Z;
  e_nextElem : Z;
}.

(* internal/aggregate/edges.go:40-42 EdgeResolver *)
Record EdgeResolver := mkEdgeResolver { e_shards : list edgeShard }.

(* internal/aggregate/edges.go:62-80 NewEdgeResolver *)
Definition NewEdgeResolver (maxSpans : Z) : EdgeResolver :=
  let maxSpans := if maxSpans <=? 0 then DefaultEdgeResolverSpans else maxSpans in
  let per := Z.quot maxSpans edgeResolverShards in
  let per := if per <? 1 then 1 else per in
  mkEdgeResolver (replicate (Z.to_nat edgeResolverShards) (mkShard per ∅ [] ∅ 0)).

(** [list.MoveToFront] and [list.Remove], by the element's identity. *)
Definition list_remove (el : Z) (l : list element) : list element := filter (fun x => x.1 <> el) l.

Definition MoveToFront (el : Z) (l : list element) : list element := filter (fun x => x.1 = el) l ++ list_remove el l.

(** The eviction loop; every turn removes an element, so one turn per element
    and one more is enough fuel. *)
Fixpoint evict (fuel : nat) (sh : edgeShard) : edgeShard :=
  match fuel with
  | O => sh
  | S fuel =>
      if e_cap sh <? Z.of_nat (size (e_byID sh)) then
        match last (e_order sh) with
        | None => sh
        | Some (el, victim) =>
            evict fuel (mkShard (e_cap sh) (delete victim (e_byID sh)) (list_remove el (e_order sh))
                          (delete victim (e_elems sh)) (e_nextElem sh))
        end
      else sh
  end.

(** The part of [put] under the shard's lock. *)
(* internal/aggregate/edges.go:122-143 EdgeResolver.put *)
Definition put_shard (sh : edgeShard) (key : edgeSpanKey) (service : string) : edgeShard :=
  match e_elems sh !! key with
  | Some el =>
      mkShard (e_cap sh) (<[key := service]> (e_byID sh)) (MoveToFront el (e_order sh)) (e_elems sh) (e_nextElem sh)
  | None =>
      let el := e_nextElem sh in
      evict (S (S (length (e_order sh))))
        (mkShard (e_cap sh) (<[key := service]> (e_byID sh)) ((el, key) :: e_order sh)
           (<[key := el]> (e_elems sh)) (el + 1))
  end.

(** The part of [get] under the shard's lock. *)
(* internal/aggregate/edges.go:145-156 EdgeResolver.get *)
Definition get_shard (sh : edgeShard) (key : edgeSpanKey) : edgeShard * option string :=
  match e_byID sh !! key with
  | None => (sh, None)
  | Some service =>
      (match e_elems sh !! key with
       | Some el => mkShard (e_cap sh) (e_byID sh) (MoveToFront el (e_order sh)) (e_elems sh) (e_nextElem sh)
       | None => sh
       end, Some service)
  end.

(** [fnv.New32a]. *)
Fixpoint fnv32a (h : Z) (s : string) : Z :=
  match s with
  | EmptyString => h
  | String c s => fnv32a (u32 (Z.lxor h (Z.of_N (Ascii.N_of_ascii c)) * 16777619)) s
  end.

(* internal/aggregate/edges.go:116-120 EdgeResolver.shardFor *)
Definition shardFor (key : edgeSpanKey) : nat := Z.to_nat (fnv32a 2166136261 (k_spanID key) mod edgeResolverShards).

Definition put (r : EdgeResolver) (key : edgeSpanKey) (service : string) : EdgeResolver :=
  mkEdgeResolver (alter (fun sh => put_shard sh key service) (shardFor key) (e_shards r)).

Definition get (r : EdgeResolver) (key : edgeSpanKey) : EdgeResolver * option string :=
  match e_shards r !! shardFor key with
  | None => (r, None)
  | Some sh =>
      let '(sh', o) := get_shard sh key in
      (mkEdgeResolver (<[shardFor key := sh']> (e_shards r)), o)
  end.

(* internal/aggregate/edges.go:88-101 EdgeResolver.Observe *)
Definition Observe (r : EdgeResolver) (tenant spanID parentSpanID service : string) : EdgeResolver * option string :=
  if String.eqb spanID "" || String.eqb service "" then (r, None)
  else
    let r := put r (mkSpanKey tenant spanID) service in
    if String.eqb parentSpanID "" then (r, None)
    else
      let '(r, o) := get r (mkSpanKey tenant parentSpanID) in
      match o with
      | None => (r, None)
      | Some caller => if String.eqb caller service then (r, None) else (r, Some caller)
      end.

(* internal/aggregate/edges.go:105-114 EdgeResolver.Len *)
Definition Len (r : EdgeResolver) : Z :=
  foldr (fun sh n => n + Z.of_nat (size (e_byID sh))) 0 (e_shards r).

(** ** The specification: a recency list *)

Abbreviation recency := (list (edgeSpanKey * string)).

Definition drop_key (k : edgeSpanKey) (l : recency) : recency := filter (fun x => x.1 <> k) l.

Definition spec_put (cap : nat) (k : edgeSpanKey) (v : string) (l : recency) : recency :=
  take cap ((k, v) :: drop_key k l).

Definition spec_get (k : edgeSpanKey) (l : recency) : recency * option string :=
  match list_find (fun x => x.1 = k) l with
  | Some (_, (_, v)) => ((k, v) :: drop_key k l, Some v)
  | None => (l, None)
  end.

(** What a shard remembers, most recent first. *)
Definition abs_shard (sh : edgeShard) : recency :=
  (fun x : element => (x.2, default "" (e_byID sh !! x.2))) <$> e_order sh.

Record shard_ok (sh : edgeShard) : Prop := {
  so_cap : 1 <= e_cap sh;
  so_keys : NoDup (snd <$> e_order sh);
  so_els : NoDup (fst <$> e_order sh);
  so_elems : forall k el, e_elems sh !! k = Some el <-> (el, k) ∈ e_order sh;
  so_dom : forall k, is_Some (e_byID sh !! k) <-> k ∈ (snd <$> e_order sh);
  so_next : forall x, x ∈ e_order sh -> x.1 < e_nextElem sh;
  so_size : Z.of_nat (length (e_order sh)) <= e_cap sh;
}.

Lemma size_order sh : NoDup (snd <$> e_order sh) ->
  (forall k, is_Some (e_byID sh !! k) <-> k ∈ (snd <$> e_order sh)) -> size (e_byID sh) = length (e_order sh).
Proof.
  intros Hnd Hd. rewrite <- size_dom. rewrite <- (length_fmap snd (e_order sh)).
  rewrite <- (size_list_to_set (C := gset edgeSpanKey) _ Hnd). f_equal. apply set_eq. intros k.
  by rewrite elem_of_dom, elem_of_list_to_set.
Qed.

(** *** Moving and removing elements *)

Lemma filter_el_eq (l : list element) el k :
  NoDup (fst <$> l) -> (el, k) ∈ l -> filter (fun x : element => x.1 = el) l = [(el, k)].
Proof.
  induction l as [|[e j] l IH]; intros Hnd Hin; [by apply elem_of_nil in Hin|].
  cbn [fmap list_fmap] in Hnd. apply NoDup_cons in Hnd as [Hn Hnd]. rewrite filter_cons. cbn [fst].
  apply elem_of_cons in Hin as [[= <- <-]|Hin].
  - rewrite decide_True by done. f_equal. clear IH.
    induction l as [|[e' j'] l IH]; [done|]. rewrite filter_cons. cbn [fst].
    cbn [fmap list_fmap] in Hn. apply not_elem_of_cons in Hn as [? Hn].
    cbn [fmap list_fmap] in Hnd. apply NoDup_cons in Hnd as [_ Hnd].
    rewrite decide_False by (cbn in *; congruence). by apply IH.
  - rewrite decide_False; [by apply IH|]. intros ->. apply Hn. apply list_elem_of_fmap. by exists (el, k).
Qed.

Lemma filter_agree {A} (P Q : A -> Prop) `{!forall x, Decision (P x), !forall x, Decision (Q x)} (l : list A) :
  (forall x, x ∈ l -> P x <-> Q x) -> filter P l = filter Q l.
Proof.
  induction l as [|x l IH]; intros Hag; [done|]. rewrite !filter_cons.
  rewrite IH by (intros y Hy; apply Hag; by constructor).
  assert (P x <-> Q x) as Hx by (apply Hag; by constructor).
  destruct (decide (P x)), (decide (Q x)); tauto.
Qed.

Lemma filter_keep {A} (P : A -> Prop) `{!forall x, Decision (P x)} (l : list A) :
  (forall x, x ∈ l -> P x) -> filter P l = l.
Proof.
  induction l as [|x l IH]; intros Hall; [done|]. rewrite filter_cons, decide_True by (apply Hall; by constructor).
  f_equal. apply IH. intros y Hy. apply Hall. by constructor.
Qed.

(** In a list without repeats an element's identity and its key agree. *)
Lemma el_key_agree (l : list element) el k x :
  NoDup (fst <$> l) -> NoDup (snd <$> l) -> (el, k) ∈ l -> x ∈ l -> x.1 = el <-> x.2 = k.
Proof.
  intros H1 H2 Hin Hx. apply list_elem_of_lookup in Hin as [i Hi]. apply list_elem_of_lookup in Hx as [j Hj].
  split; intros E.
  - assert (i = j) as <-; [|rewrite Hi in Hj; by injection Hj as <-].
    eapply (NoDup_lookup (fst <$> l)); [done|rewrite list_lookup_fmap, Hi; done|rewrite list_lookup_fmap, Hj; cbn; congruence].
  - assert (i = j) as <-; [|rewrite Hi in Hj; by injection Hj as <-].
    eapply (NoDup_lookup (snd <$> l)); [done|rewrite list_lookup_fmap, Hi; done|rewrite list_lookup_fmap, Hj; cbn; congruence].
Qed.

Lemma remove_el_key (l : list element) el k :
  NoDup (fst <$> l) -> NoDup (snd <$> l) -> (el, k) ∈ l ->
  list_remove el l = filter (fun x : element => x.2 <> k) l.
Proof.
  intros H1 H2 Hin. apply filter_agree. intros x Hx. pose proof (el_key_agree l el k x H1 H2 Hin Hx). tauto.
Qed.

Lemma MoveToFront_key (l : list element) el k :
  NoDup (fst <$> l) -> NoDup (snd <$> l) -> (el, k) ∈ l ->
  MoveToFront el l = (el, k) :: filter (fun x : element => x.2 <> k) l.
Proof.
  intros H1 H2 Hin. unfold MoveToFront. rewrite (filter_el_eq l el k), (remove_el_key l el k) by done. done.
Qed.

Lemma MoveToFront_perm (l : list element) el : MoveToFront el l ≡ₚ l.
Proof.
  unfold MoveToFront, list_remove. induction l as [|x l IH]; [done|]. rewrite !filter_cons.
  destruct (decide (x.1 = el)).
  - rewrite decide_False by tauto. cbn [app]. by rewrite IH.
  - rewrite decide_True by done. rewrite <- Permutation_middle. by rewrite IH.
Qed.

Lemma abs_filter (m : gmap edgeSpanKey string) (l : list element) k :
  (fun x : element => (x.2, default "" (m !! x.2))) <$> filter (fun x : element => x.2 <> k) l =
  drop_key k ((fun x : element => (x.2, default "" (m !! x.2))) <$> l).
Proof.
  unfold drop_key. induction l as [|x l IH]; [done|]. rewrite filter_cons. cbn [fmap list_fmap]. rewrite filter_cons. cbn [fst].
  destruct (decide (x.2 <> k)); cbn [fmap list_fmap]; by rewrite ?IH.
Qed.

Lemma abs_insert (m : gmap edgeSpanKey string) (l : list element) k v :
  (forall x, x ∈ l -> x.2 <> k) ->
  (fun x : element => (x.2, default "" (<[k := v]> m !! x.2))) <$> l = (fun x : element => (x.2, default "" (m !! x.2))) <$> l.
Proof.
  induction l as [|x l IH]; intros H; [done|]. cbn [fmap list_fmap].
  rewrite IH by (intros y Hy; apply H; by constructor).
  rewrite lookup_insert_ne; [done|]. intros E. apply (H x); [by constructor|done].
Qed.

(** *** The shard refines the recency list *)

Lemma abs_moved sh key el v :
  shard_ok sh -> e_elems sh !! key = Some el ->
  (fun x : element => (x.2, default "" (<[key := v]> (e_byID sh) !! x.2))) <$> MoveToFront el (e_order sh) =
  (key, v) :: drop_key key (abs_shard sh).
Proof.
  intros O He. apply (so_elems _ O) in He. rewrite (MoveToFront_key _ el key) by (done || apply O).
  cbn [fmap list_fmap snd]. rewrite lookup_insert_eq. cbn [default]. f_equal.
  rewrite abs_insert; [apply abs_filter|]. intros x [Hx _]%list_elem_of_filter. done.
Qed.

Lemma moved_ok sh key el m :
  shard_ok sh -> e_elems sh !! key = Some el ->
  (forall k, is_Some (m !! k) <-> is_Some (e_byID sh !! k)) ->
  shard_ok (mkShard (e_cap sh) m (MoveToFront el (e_order sh)) (e_elems sh) (e_nextElem sh)).
Proof.
  intros O He Hm. pose proof (MoveToFront_perm (e_order sh) el) as P.
  constructor; cbn; rewrite ?P; try apply O.
  - intros k el'. rewrite P. apply O.
  - intros k. rewrite Hm, P. apply O.
  - intros x. rewrite P. apply O.
Qed.

Lemma last_None_nil {A} (l : list A) : last l = None -> l = [].
Proof. by rewrite last_None. Qed.

(** A full shard with one element too many drops its last one. *)
Lemma evict_one sh fuel :
  NoDup (snd <$> e_order sh) -> NoDup (fst <$> e_order sh) ->
  (forall k el, e_elems sh !! k = Some el <-> (el, k) ∈ e_order sh) ->
  (forall k, is_Some (e_byID sh !! k) <-> k ∈ (snd <$> e_order sh)) ->
  (forall x, x ∈ e_order sh -> x.1 < e_nextElem sh) ->
  1 <= e_cap sh -> Z.of_nat (length (e_order sh)) <= e_cap sh + 1 ->
  shard_ok (evict (S (S fuel)) sh) /\
  e_cap (evict (S (S fuel)) sh) = e_cap sh /\
  abs_shard (evict (S (S fuel)) sh) = take (Z.to_nat (e_cap sh)) (abs_shard sh).
Proof.
  intros Hk He Hel Hd Hn Hc Hlen. pose proof (size_order sh Hk Hd) as Hsz. cbn [evict]. rewrite Hsz.
  destruct (Z.ltb_spec (e_cap sh) (Z.of_nat (length (e_order sh)))) as [Hover|Hfit].
  - destruct (last (e_order sh)) as [[el victim]|] eqn:El; [|apply last_None_nil in El; rewrite El in Hover; cbn in Hover; lia].
    apply last_Some in El as [l' El]. cbn [e_cap e_byID e_order].
    assert (e_order sh ≡ₚ (el, victim) :: l') as P by (rewrite El; apply Permutation_app_comm).
    assert (list_remove el (e_order sh) = l') as Hrm.
    { unfold list_remove. rewrite El, filter_app, filter_cons, decide_False by tauto. rewrite filter_nil, app_nil_r.
      apply filter_keep. intros x Hx E. rewrite P in He. cbn [fmap list_fmap] in He. apply NoDup_cons in He as [He _].
      apply He. apply list_elem_of_fmap. by exists x. }
    rewrite Hrm.
    assert (NoDup (snd <$> l') /\ victim ∉ (snd <$> l')) as [Hk' Hv] by (rewrite P in Hk; cbn in Hk; by apply NoDup_cons in Hk as [? ?]).
    assert (NoDup (fst <$> l')) as He' by (rewrite P in He; cbn in He; by apply NoDup_cons in He as [? ?]).
    assert (length (e_order sh) = S (length l')) as Hl by (rewrite El, length_app; cbn; lia).
    set (sh' := mkShard (e_cap sh) (delete victim (e_byID sh)) l' (delete victim (e_elems sh)) (e_nextElem sh)).
    assert (shard_ok sh') as O'.
    { constructor; cbn; try done; try lia.
      - intros k el'. rewrite lookup_delete. destruct (decide _) as [<-|Hne].
        + split; [done|]. intros Hin. destruct Hv. apply list_elem_of_fmap. by exists (el', victim).
        + rewrite Hel, El, elem_of_app, list_elem_of_singleton. naive_solver.
      - intros k. rewrite lookup_delete. destruct (decide _) as [<-|Hne].
        + split; [by intros [? ?]|done].
        + rewrite Hd, El, fmap_app, elem_of_app. cbn. rewrite list_elem_of_singleton. naive_solver.
      - intros x Hx. apply Hn. rewrite El. apply elem_of_app. by left. }
    pose proof (size_order sh' (so_keys _ O') (so_dom _ O')) as Hsz'. cbn [e_byID e_order sh'] in Hsz'.
    rewrite Hsz'. destruct (Z.ltb_spec (e_cap sh) (Z.of_nat (length l'))); [lia|]. split_and!; [exact O'|done|].
    unfold abs_shard. cbn [e_order e_byID]. rewrite El, fmap_app, take_app_le by (rewrite length_fmap; lia).
    rewrite take_ge by (rewrite length_fmap; lia). apply list_fmap_ext. intros i x Hx.
    cbn [e_byID sh']. rewrite lookup_delete_ne; [done|]. intros ->. apply Hv. apply list_elem_of_fmap. exists x. split; [done|].
    apply list_elem_of_lookup. eauto.
  - split_and!; [by constructor|done|]. rewrite take_ge; [done|]. unfold abs_shard. rewrite length_fmap. lia.
Qed.

Lemma put_shard_refines sh key v : shard_ok sh ->
  shard_ok (put_shard sh key v) /\ e_cap (put_shard sh key v) = e_cap sh /\
  abs_shard (put_shard sh key v) = spec_put (Z.to_nat (e_cap sh)) key v (abs_shard sh).
Proof.
  intros O. unfold put_shard. destruct (e_elems sh !! key) as [el|] eqn:E.
  - assert (is_Some (e_byID sh !! key)) as Hk.
    { apply (so_dom _ O), list_elem_of_fmap. exists (el, key). split; [done|]. by apply (so_elems _ O). }
    split_and!; [|done|].
    + apply (moved_ok sh key el); [done..|]. intros k. rewrite lookup_insert. destruct (decide _) as [<-|]; [|done]. split; [done|by eexists].
    + unfold abs_shard at 1. cbn [e_order e_byID]. rewrite abs_moved by done. unfold spec_put. rewrite take_ge; [done|].
      assert (S (length (drop_key key (abs_shard sh))) <= length (e_order sh))%nat; [|pose proof (so_size _ O); cbn [length]; lia].
      unfold abs_shard. rewrite <- abs_filter, length_fmap.
      apply (so_elems _ O) in E. pose proof (MoveToFront_perm (e_order sh) el) as P.
      rewrite (MoveToFront_key _ el key) in P by (done || apply O). rewrite <- P at 2. cbn [length]. lia.
  - assert (key ∉ (snd <$> e_order sh)) as Hnk.
    { intros ([el k] & -> & Hin)%list_elem_of_fmap. apply (so_elems _ O) in Hin. cbn in E. congruence. }
    assert (drop_key key (abs_shard sh) = abs_shard sh) as Hdrop.
    { unfold drop_key. apply filter_keep. intros x (y & -> & Hy)%list_elem_of_fmap Ek. apply Hnk. cbn in Ek.
      apply list_elem_of_fmap. by exists y. }
    set (sh1 := mkShard (e_cap sh) (<[key := v]> (e_byID sh)) ((e_nextElem sh, key) :: e_order sh)
                  (<[key := e_nextElem sh]> (e_elems sh)) (e_nextElem sh + 1)).
    destruct (evict_one sh1 (length (e_order sh))) as (A & B & C); cbn [e_order e_elems e_byID e_nextElem e_cap sh1].
    + cbn. apply NoDup_cons. split; [done|apply O].
    + cbn. apply NoDup_cons. split; [|apply O]. intros (x & Ex & Hx)%list_elem_of_fmap.
      pose proof (so_next _ O _ Hx). lia.
    + intros k el. rewrite lookup_insert, elem_of_cons. destruct (decide _) as [<-|Hne].
      * split; [intros [= <-]; by left|]. intros [[= ->]|Hin]; [done|]. apply (so_elems _ O) in Hin. congruence.
      * rewrite (so_elems _ O). naive_solver.
    + intros k. cbn. rewrite lookup_insert, elem_of_cons. destruct (decide _) as [<-|Hne]; [naive_solver|].
      rewrite (so_dom _ O). naive_solver.
    + intros x [->|Hx]%elem_of_cons; [cbn; lia|]. pose proof (so_next _ O _ Hx). lia.
    + apply O.
    + cbn [length]. pose proof (so_size _ O). lia.
    + split_and!; [exact A|exact B|]. rewrite C. unfold spec_put. rewrite Hdrop. f_equal. unfold abs_shard, sh1.
      cbn [e_order e_byID fmap list_fmap snd]. rewrite lookup_insert_eq. cbn [default]. f_equal. apply abs_insert.
      intros x Hx Ek. apply Hnk. apply list_elem_of_fmap. by exists x.
Qed.

Lemma abs_find sh key : shard_ok sh ->
  list_find (fun x => x.1 = key) (abs_shard sh) = None -> e_byID sh !! key = None.
Proof.
  intros O Hf. destruct (e_byID sh !! key) as [v|] eqn:E; [|done]. exfalso.
  assert (key ∈ (snd <$> e_order sh)) as (x & Ex & Hx)%list_elem_of_fmap by (apply (so_dom _ O); eauto).
  apply list_find_None in Hf. rewrite Forall_forall in Hf.
  apply (Hf (x.2, default "" (e_byID sh !! x.2))); [|done]. apply list_elem_of_fmap. by exists x.
Qed.

Lemma get_shard_refines sh key : shard_ok sh ->
  let '(sh', o) := get_shard sh key in
  shard_ok sh' /\ e_cap sh' = e_cap sh /\ (abs_shard sh', o) = spec_get key (abs_shard sh).
Proof.
  intros O. unfold get_shard, spec_get. destruct (list_find _ (abs_shard sh)) as [[i [k v]]|] eqn:Ef.
  - apply list_find_Some in Ef as (Hi & Hk & _). cbn in Hk. subst k.
    apply list_elem_of_lookup_2 in Hi. apply list_elem_of_fmap in Hi as ([el k] & [= -> ->] & Hin). cbn [snd] in *.
    assert (is_Some (e_byID sh !! k)) as [w Hw] by (apply (so_dom _ O), list_elem_of_fmap; by exists (el, k)).
    rewrite Hw. apply (so_elems _ O) in Hin. rewrite Hin. split_and!; [by apply (moved_ok sh k el)|done|]. cbn [default]. f_equal.
    unfold id. rewrite <- (abs_moved sh k el w O Hin). unfold abs_shard. cbn [e_order e_byID]. by rewrite insert_id.
  - rewrite (abs_find _ _ O Ef). done.
Qed.

(** ** The resolver over a history of spans *)

Record span_obs := mkObs { o_tenant : string; o_span : string; o_parent : string; o_service : string }.

Definition observe (r : EdgeResolver) (o : span_obs) : EdgeResolver * option string :=
  Observe r (o_tenant o) (o_span o) (o_parent o) (o_service o).

Definition observe_all (r : EdgeResolver) (h : list span_obs) : EdgeResolver := foldl (fun r o => (observe r o).1) r h.

Definition o_key (o : span_obs) : edgeSpanKey := mkSpanKey (o_tenant o) (o_span o).
Definition o_parent_key (o : span_obs) : edgeSpanKey := mkSpanKey (o_tenant o) (o_parent o).

(** An observation the resolver records. *)
Definition o_recorded (o : span_obs) : bool := negb (String.eqb (o_span o) "" || String.eqb (o_service o) "").

(** The service each span was last seen with. *)
Definition last_seen (h : list span_obs) : gmap edgeSpanKey string :=
  foldl (fun m o => if o_recorded o then <[o_key o := o_service o]> m else m) ∅ h.

Definition shard_cap (maxSpans : Z) : Z :=
  let per := Z.quot (if maxSpans <=? 0 then DefaultEdgeResolverSpans else maxSpans) edgeResolverShards in
  if per <? 1 then 1 else per.

Definition r_ok (cap : Z) (r : EdgeResolver) : Prop :=
  length (e_shards r) = Z.to_nat edgeResolverShards /\
  forall i sh, e_shards r !! i = Some sh -> shard_ok sh /\ e_cap sh = cap.

Lemma fnv32a_range s : forall h, 0 <= h < 4294967296 -> 0 <= fnv32a h s < 4294967296.
Proof.
  induction s as [|c s IH]; intros h Hh; [done|]. cbn [fnv32a]. apply IH. apply (wrapu_range 32). lia.
Qed.

Lemma shardFor_lt key : (shardFor key < Z.to_nat edgeResolverShards)%nat.
Proof.
  unfold shardFor, edgeResolverShards. pose proof (Z.mod_pos_bound (fnv32a 2166136261 (k_spanID key)) 16 ltac:(lia)). lia.
Qed.

Lemma empty_shard_ok cap : 1 <= cap -> shard_ok (mkShard cap ∅ [] ∅ 0).
Proof.
  intros Hc. constructor; cbn [e_cap e_byID e_order e_elems e_nextElem fmap list_fmap length]; [done|constructor|constructor|..|lia].
  - intros k el. rewrite lookup_empty, elem_of_nil. done.
  - intros k. rewrite lookup_empty, elem_of_nil. split; [by intros [? ?]|done].
  - intros x []%elem_of_nil.
Qed.

Lemma shard_cap_pos maxSpans : 1 <= shard_cap maxSpans.
Proof. unfold shard_cap. cbv zeta. match goal with |- context [?a <? ?b] => destruct (Z.ltb_spec a b) end; lia. Qed.

Lemma NewEdgeResolver_ok maxSpans : r_ok (shard_cap maxSpans) (NewEdgeResolver maxSpans).
Proof.
  split; [unfold NewEdgeResolver; cbn [e_shards]; apply length_replicate|].
  intros i sh [-> _]%lookup_replicate. split; [apply empty_shard_ok, shard_cap_pos|done].
Qed.

(** The recency list of shard [i]. *)
Definition recency_of (r : EdgeResolver) (i : nat) : recency := from_option abs_shard [] (e_shards r !! i).

Lemma put_spec cap r key v : r_ok cap r ->
  r_ok cap (put r key v) /\
  forall i, recency_of (put r key v) i =
    if decide (i = shardFor key) then spec_put (Z.to_nat cap) key v (recency_of r i) else recency_of r i.
Proof.
  intros [Hl Hs]. unfold put, recency_of. cbn [e_shards]. split; [split|].
  - cbn [e_shards]. by rewrite length_alter.
  - intros i sh'. cbn [e_shards]. rewrite list_lookup_alter. case_decide as E; [subst i|apply Hs].
    destruct (e_shards r !! shardFor key) as [sh|] eqn:Ei; [|done]. intros [= <-]. destruct (Hs _ _ Ei) as [O <-].
    by destruct (put_shard_refines sh key v O) as (? & ? & _).
  - intros i. rewrite list_lookup_alter. destruct (decide (i = shardFor key)) as [->|Hne].
    + rewrite decide_True by done. pose proof (shardFor_lt key) as Hlt. rewrite <- Hl in Hlt.
      apply lookup_lt_is_Some in Hlt as [sh Ei]. rewrite Ei. cbn. destruct (Hs _ _ Ei) as [O <-].
      by destruct (put_shard_refines sh key v O) as (_ & _ & ?).
    + rewrite decide_False by congruence. done.
Qed.

Lemma get_spec cap r key : r_ok cap r ->
  r_ok cap (get r key).1 /\ (get r key).2 = (spec_get key (recency_of r (shardFor key))).2 /\
  forall i, recency_of (get r key).1 i =
    if decide (i = shardFor key) then (spec_get key (recency_of r i)).1 else recency_of r i.
Proof.
  intros [Hl Hs]. pose proof (shardFor_lt key) as Hlt. rewrite <- Hl in Hlt.
  destruct (lookup_lt_is_Some_2 _ _ Hlt) as [sh Ei]. destruct (Hs _ _ Ei) as [O Hc].
  unfold get, recency_of. rewrite Ei. cbn [from_option]. pose proof (get_shard_refines sh key O) as G.
  destruct (get_shard sh key) as [sh' o]. destruct G as (O' & Hc' & G). cbn [fst snd e_shards].
  rewrite <- G. split_and!; [split| |].
  - cbn [e_shards]. by rewrite length_insert.
  - intros i sh''. cbn [e_shards]. rewrite list_lookup_insert. case_decide as E; [|apply Hs].
    intros [= <-]. split; [done|congruence].
  - done.
  - intros i. rewrite list_lookup_insert. destruct (decide (i = shardFor key)) as [->|Hne].
    + rewrite decide_True by done. rewrite Ei. cbn. by rewrite <- G.
    + rewrite decide_False by (intros [? _]; congruence). done.
Qed.

(** *** Everything remembered is the last thing seen *)

Definition remembers_last (r : EdgeResolver) (m : gmap edgeSpanKey string) : Prop :=
  forall i k v, (k, v) ∈ recency_of r i -> m !! k = Some v /\ shardFor k = i.

Lemma elem_of_drop_key k x l : x ∈ drop_key k l <-> x.1 <> k /\ x ∈ l.
Proof. unfold drop_key. by rewrite list_elem_of_filter. Qed.

Lemma elem_of_take {A} (x : A) n l : x ∈ take n l -> x ∈ l.
Proof. intros H. rewrite <- (take_drop n l). apply elem_of_app. by left. Qed.

Lemma spec_get_elem k l x : x ∈ (spec_get k l).1 -> x ∈ l.
Proof.
  unfold spec_get. destruct (list_find _ l) as [[i [k' v]]|] eqn:E; [|done]. cbn [fst].
  apply list_find_Some in E as (Hi & <- & _). rewrite elem_of_cons, elem_of_drop_key.
  intros [->|[_ ?]]; [|done]. by eapply list_elem_of_lookup_2.
Qed.

Lemma spec_get_found k l v : (spec_get k l).2 = Some v -> (k, v) ∈ l.
Proof.
  unfold spec_get. destruct (list_find _ l) as [[i [k' w]]|] eqn:E; [|done]. intros [= <-].
  apply list_find_Some in E as (Hi & <- & _). by eapply list_elem_of_lookup_2.
Qed.

Lemma put_remembers cap r m key v : r_ok cap r -> remembers_last r m -> remembers_last (put r key v) (<[key := v]> m).
Proof.
  intros Hr Hm i k w. destruct (put_spec cap r key v Hr) as [_ Hp]. rewrite Hp.
  destruct (decide (i = shardFor key)) as [->|Hne].
  - unfold spec_put. intros Hin%elem_of_take. apply elem_of_cons in Hin as [[= -> ->]|Hin]; [by rewrite lookup_insert_eq|].
    apply elem_of_drop_key in Hin as [Hk Hin]. cbn in Hk. rewrite lookup_insert_ne by congruence. by apply Hm.
  - intros Hin. destruct (Hm _ _ _ Hin) as [H1 <-]. rewrite lookup_insert_ne by congruence. done.
Qed.

Lemma get_remembers cap r m key : r_ok cap r -> remembers_last r m ->
  remembers_last (get r key).1 m /\ forall v, (get r key).2 = Some v -> m !! key = Some v.
Proof.
  intros Hr Hm. destruct (get_spec cap r key Hr) as (_ & Ho & Hg). split.
  - intros i k w. rewrite Hg. destruct (decide _) as [->|]; [intros Hin%spec_get_elem|]; by apply Hm.
  - intros v Hv. rewrite Ho in Hv. apply spec_get_found, Hm in Hv. tauto.
Qed.

(** One observation, in two steps. *)
Lemma observe_unfold r o :
  observe r o =
    if o_recorded o then
      let r1 := put r (o_key o) (o_service o) in
      if String.eqb (o_parent o) "" then (r1, None)
      else ((get r1 (o_parent_key o)).1,
            match (get r1 (o_parent_key o)).2 with
            | Some caller => if String.eqb caller (o_service o) then None else Some caller
            | None => None
            end)
    else (r, None).
Proof.
  unfold observe, Observe, o_recorded, o_key, o_parent_key. destruct (_ || _); cbn [negb]; [done|]. cbv zeta.
  destruct (String.eqb (o_parent o) ""); [done|]. destruct (get _ _) as [r' [caller|]]; [|done].
  cbn [fst snd]. by destruct (String.eqb caller (o_service o)).
Qed.

Lemma observe_step cap r m o : r_ok cap r -> remembers_last r m ->
  r_ok cap (observe r o).1 /\
  remembers_last (observe r o).1 (if o_recorded o then <[o_key o := o_service o]> m else m) /\
  forall caller, (observe r o).2 = Some caller ->
    caller <> o_service o /\ (if o_recorded o then <[o_key o := o_service o]> m else m) !! o_parent_key o = Some caller.
Proof.
  intros Hr Hm. rewrite observe_unfold. destruct (o_recorded o); [|done]. cbv zeta.
  destruct (put_spec cap r (o_key o) (o_service o) Hr) as [Hr1 _].
  pose proof (put_remembers cap r m (o_key o) (o_service o) Hr Hm) as Hm1.
  destruct (String.eqb (o_parent o) ""); [done|]. cbn [fst snd].
  destruct (get_spec cap _ (o_parent_key o) Hr1) as (Hr2 & _ & _).
  destruct (get_remembers cap _ _ (o_parent_key o) Hr1 Hm1) as [Hm2 Hv].
  split_and!; [done|done|]. intros caller. destruct (get _ _).2 as [v|]; [|done].
  destruct (String.eqb_spec v (o_service o)); [done|]. intros [= <-]. split; [done|by apply Hv].
Qed.

Lemma observe_all_step cap h : forall r m, r_ok cap r -> remembers_last r m ->
  r_ok cap (observe_all r h) /\
  remembers_last (observe_all r h) (foldl (fun m o => if o_recorded o then <[o_key o := o_service o]> m else m) m h).
Proof.
  induction h as [|o h IH]; intros r m Hr Hm; [done|]. cbn [observe_all foldl].
  destruct (observe_step cap r m o Hr Hm) as (Hr' & Hm' & _). by apply IH.
Qed.

Lemma observe_all_init maxSpans h :
  r_ok (shard_cap maxSpans) (observe_all (NewEdgeResolver maxSpans) h) /\
  remembers_last (observe_all (NewEdgeResolver maxSpans) h) (last_seen h).
Proof.
  apply observe_all_step; [apply NewEdgeResolver_ok|]. intros i k v. unfold recency_of, NewEdgeResolver. cbn [e_shards].
  destruct (_ !! i) as [sh|] eqn:E; [|intros []%elem_of_nil]. apply lookup_replicate in E as [-> _]. intros []%elem_of_nil.
Qed.

Lemma Len_bound cap r : r_ok cap r -> Len r <= edgeResolverShards * cap.
Proof.
  intros [Hl Hs]. unfold Len. assert (Z.of_nat (length (e_shards r)) = edgeResolverShards) as <- by (rewrite Hl; done).
  clear Hl. induction (e_shards r) as [|sh l IH]; [cbn; lia|]. cbn [foldr length].
  destruct (Hs 0%nat sh) as [O Hc]; [done|]. specialize (IH (fun i x Hi => Hs (S i) x Hi)).
  pose proof (size_order sh (so_keys _ O) (so_dom _ O)) as E. rewrite E. pose proof (so_size _ O). lia.
Qed.

(** The span memory asked for. *)
Definition asked_spans (maxSpans : Z) : Z := if maxSpans <=? 0 then DefaultEdgeResolverSpans else maxSpans.

Lemma shards_cap maxSpans : edgeResolverShards * shard_cap maxSpans <= Z.max edgeResolverShards (asked_spans maxSpans).
Proof.
  unfold shard_cap. fold (asked_spans maxSpans). cbv zeta. assert (0 < asked_spans maxSpans) as Hpos by (unfold asked_spans; case_match; z_bool; [done|lia]).
  unfold edgeResolverShards. destruct (Z.ltb_spec (Z.quot (asked_spans maxSpans) 16) 1); [lia|].
  rewrite Z.quot_div_nonneg in * by lia. pose proof (Z.mul_div_le (asked_spans maxSpans) 16). lia.
Qed.

(** C22: caller resolution is sound and bounded.  After any history of
    observed spans the resolver holds at most as many spans as it was asked to
    remember over all its shards, or one per shard if that is more (a cap
    below 16 is not kept, [small_cap_exceeded]); and when it names a caller for
    a further span, that caller is a different service and is exactly the
    service the parent span, of the same tenant, was last observed with. *)
Theorem edges_sound maxSpans h o :
  let r := observe_all (NewEdgeResolver maxSpans) h in
  Len r <= Z.max edgeResolverShards (asked_spans maxSpans) /\
  forall caller, (observe r o).2 = Some caller ->
    caller <> o_service o /\ last_seen (h ++ [o]) !! o_parent_key o = Some caller.
Proof.
  cbv zeta. destruct (observe_all_init maxSpans h) as [Hr Hm]. split; [etrans; [by eapply Len_bound|apply shards_cap]|].
  destruct (observe_step _ _ _ o Hr Hm) as (_ & _ & Hv). unfold last_seen. rewrite foldl_app. exact Hv.
Qed.

(** *** What is used recently is remembered *)

(** [k] is in the list with the value [v], and only keys of [T] are in front
    of it. *)
Definition near (k : edgeSpanKey) (v : string) (T : gset edgeSpanKey) (l : recency) : Prop :=
  NoDup (fst <$> l) /\ exists l1 l2, l = l1 ++ (k, v) :: l2 /\ forall x, x ∈ l1 -> x.1 ∈ T.

Lemma drop_key_app k l1 l2 : drop_key k (l1 ++ l2) = drop_key k l1 ++ drop_key k l2.
Proof. apply filter_app. Qed.

Lemma drop_key_keys k l : NoDup (fst <$> l) -> NoDup (fst <$> drop_key k l) /\ k ∉ (fst <$> drop_key k l).
Proof.
  intros Hnd. split.
  - unfold drop_key. induction l as [|x l IH]; [done|]. cbn [fmap list_fmap] in Hnd. apply NoDup_cons in Hnd as [Hx Hnd].
    rewrite filter_cons. destruct (decide _); [|by apply IH]. cbn [fmap list_fmap]. apply NoDup_cons. split; [|by apply IH].
    intros (y & Ey & [_ Hy]%elem_of_drop_key)%list_elem_of_fmap. apply Hx. apply list_elem_of_fmap. by exists y.
  - intros (x & Ex & [Hx _]%elem_of_drop_key)%list_elem_of_fmap. congruence.
Qed.

Lemma NoDup_take {A} (l : list A) n : NoDup l -> NoDup (take n l).
Proof. intros H. rewrite <- (take_drop n l) in H. by apply NoDup_app in H as [? _]. Qed.

Lemma keys_in_size (l : recency) (T : gset edgeSpanKey) :
  NoDup (fst <$> l) -> (forall x, x ∈ l -> x.1 ∈ T) -> (length l <= size T)%nat.
Proof.
  intros Hnd HT. rewrite <- (length_fmap fst). rewrite <- (size_list_to_set (C := gset edgeSpanKey) _ Hnd).
  apply subseteq_size. intros k (x & -> & Hx)%elem_of_list_to_set%list_elem_of_fmap. by apply HT.
Qed.

Lemma near_front k v T l k' v' :
  k' <> k -> near k v T l -> near k v ({[k']} ∪ T) ((k', v') :: drop_key k' l).
Proof.
  intros Hk [Hnd (l1 & l2 & -> & Hl1)]. destruct (drop_key_keys k' _ Hnd) as [Hnd' Hnk]. split.
  - cbn [fmap list_fmap]. by apply NoDup_cons.
  - exists ((k', v') :: drop_key k' l1), (drop_key k' l2). split.
    + rewrite drop_key_app. unfold drop_key at 2. rewrite filter_cons, decide_True by (cbn; congruence). done.
    + intros x [->|[_ Hx]%elem_of_drop_key]%elem_of_cons; [set_solver|]. pose proof (Hl1 _ Hx). set_solver.
Qed.

Lemma near_put cap k v T l k' v' :
  k' <> k -> near k v T l -> (size ({[k']} ∪ T) < cap)%nat -> near k v ({[k']} ∪ T) (spec_put cap k' v' l).
Proof.
  intros Hk Hn Hsz. destruct (near_front k v T l k' v' Hk Hn) as [Hnd (l1 & l2 & E & Hl1)].
  unfold spec_put. rewrite E in *. split; [rewrite fmap_take; by apply NoDup_take|].
  exists l1, (take (cap - S (length l1)) l2). split; [|done].
  assert (length l1 < cap)%nat as Hlen.
  { assert (length l1 <= size ({[k']} ∪ T))%nat; [|lia]. apply keys_in_size; [|done].
    rewrite fmap_app in Hnd. by apply NoDup_app in Hnd as [? _]. }
  rewrite take_app_ge by lia. f_equal. destruct (cap - length l1)%nat as [|n] eqn:En; [lia|].
  cbn [take]. do 2 f_equal. lia.
Qed.

Lemma near_get k v T l k' : near k v T l -> near k v (({[k']} ∖ {[k]}) ∪ T) (spec_get k' l).1.
Proof.
  intros Hn. unfold spec_get. destruct (list_find _ l) as [[i [j w]]|] eqn:E; cbn [fst].
  - apply list_find_Some in E as (Hi & Ej & _). cbn in Ej. subst j.
    destruct (decide (k' = k)) as [->|Hk].
    2: { assert (({[k']} : gset edgeSpanKey) ∖ {[k]} = {[k']}) as -> by set_solver. by apply near_front. }
    destruct Hn as [Hnd (l1 & l2 & -> & Hl1)]. destruct (drop_key_keys k _ Hnd) as [Hnd' Hnk]. split.
    + cbn [fmap list_fmap]. by apply NoDup_cons.
    + exists [], (drop_key k (l1 ++ (k, v) :: l2)). split; [|by intros x []%elem_of_nil]. cbn [app]. do 2 f_equal.
      assert ((l1 ++ (k, v) :: l2) !! length l1 = Some (k, v)) as Hm by (by apply list_lookup_middle).
      assert (i = length l1) as ->; [|congruence].
      eapply (NoDup_lookup (fst <$> (l1 ++ (k, v) :: l2))); [done|by rewrite list_lookup_fmap, Hi|by rewrite list_lookup_fmap, Hm].
  - destruct Hn as [Hnd (l1 & l2 & -> & Hl1)]. split; [done|]. exists l1, l2. split; [done|]. intros x Hx. pose proof (Hl1 _ Hx). set_solver.
Qed.

Lemma near_weaken k v (T T' : gset edgeSpanKey) l : T ⊆ T' -> near k v T l -> near k v T' l.
Proof. intros Hs [Hnd (l1 & l2 & E & Hl)]. split; [done|]. exists l1, l2. split; [done|]. intros x Hx. apply Hs. by apply Hl. Qed.

Lemma near_found k v T l : near k v T l -> (spec_get k l).2 = Some v.
Proof.
  intros [Hnd (l1 & l2 & -> & _)]. unfold spec_get.
  assert (list_find (fun x : edgeSpanKey * string => x.1 = k) (l1 ++ (k, v) :: l2) = Some (length l1, (k, v))) as ->; [|done].
  apply list_find_Some. split_and!; [by apply list_lookup_middle|done|].
  intros j [k' w] Hj Hlt Hk. cbn in Hk. subst k'. rewrite fmap_app in Hnd. apply NoDup_app in Hnd as (_ & Hd & _).
  rewrite lookup_app_l in Hj by done. apply (Hd k).
  - apply list_elem_of_fmap. exists (k, w). split; [done|]. by eapply list_elem_of_lookup_2.
  - cbn. by left.
Qed.

(** The keys a history uses in shard [i], other than [K]. *)
Definition used (i : nat) (K : edgeSpanKey) (h : list span_obs) : gset edgeSpanKey :=
  filter (fun k => shardFor k = i /\ k <> K) (list_to_set (h ≫= fun o => [o_key o; o_parent_key o])).

Lemma elem_of_used i K h k :
  k ∈ used i K h <-> (shardFor k = i /\ k <> K) /\ exists o, o ∈ h /\ (k = o_key o \/ k = o_parent_key o).
Proof.
  unfold used. rewrite elem_of_filter, elem_of_list_to_set, list_elem_of_bind. apply and_iff_compat_l.
  split; intros (o & H); exists o.
  - destruct H as [Hk Ho]. split; [done|]. rewrite !elem_of_cons, elem_of_nil in Hk. tauto.
  - destruct H as [Ho Hk]. split; [|done]. rewrite !elem_of_cons. tauto.
Qed.

Lemma recency_keys cap r i : r_ok cap r -> NoDup (fst <$> recency_of r i).
Proof.
  intros [_ Hs]. unfold recency_of. destruct (e_shards r !! i) as [sh|] eqn:E; [|constructor]. cbn [from_option].
  destruct (Hs _ _ E) as [O _]. unfold abs_shard. rewrite <- list_fmap_compose. apply O.
Qed.

(** The lookup half of an observation keeps [K] near. *)
Lemma near_lookup cap r K v T o :
  r_ok cap r -> near K v T (recency_of r (shardFor K)) -> used (shardFor K) K [o] ⊆ T ->
  near K v T (recency_of (get r (o_parent_key o)).1 (shardFor K)).
Proof.
  intros Hr Hn HT. destruct (get_spec cap r (o_parent_key o) Hr) as (_ & _ & Hg). rewrite Hg.
  destruct (decide (shardFor K = shardFor (o_parent_key o))) as [E|E]; [|done].
  eapply near_weaken; [|by apply near_get]. intros k Hk. apply elem_of_union in Hk as [Hk|Hk]; [|done].
  apply HT, elem_of_used. split; [set_solver|]. exists o. split; [by left|]. set_solver.
Qed.

Lemma near_observe cap r K v T o :
  r_ok cap r -> near K v T (recency_of r (shardFor K)) -> used (shardFor K) K [o] ⊆ T ->
  (size T < Z.to_nat cap)%nat -> (o_recorded o = true -> o_key o <> K) ->
  near K v T (recency_of (put r (o_key o) (o_service o)) (shardFor K)) \/ o_recorded o = false.
Proof.
  intros Hr Hn HT Hsz Hk. destruct (o_recorded o); [|by right]. left. specialize (Hk eq_refl).
  destruct (put_spec cap r (o_key o) (o_service o) Hr) as [_ Hp]. rewrite Hp.
  destruct (decide (shardFor K = shardFor (o_key o))) as [E|E]; [|done].
  assert ({[o_key o]} ∪ T = T) as HTe.
  { apply set_eq. intros k. rewrite elem_of_union, elem_of_singleton. split; [|by right]. intros [->|?]; [|done].
    apply HT, elem_of_used. split; [done|]. exists o. split; [by left|by left]. }
  rewrite <- HTe. apply near_put; [done|done|by rewrite HTe].
Qed.

Lemma near_observe_all cap K v T h : forall r,
  r_ok cap r -> near K v T (recency_of r (shardFor K)) -> used (shardFor K) K h ⊆ T ->
  (size T < Z.to_nat cap)%nat -> (forall o, o ∈ h -> o_recorded o = true -> o_key o <> K) ->
  r_ok cap (observe_all r h) /\ near K v T (recency_of (observe_all r h) (shardFor K)).
Proof.
  induction h as [|o h IH]; intros r Hr Hn HT Hsz Hk; [done|]. cbn [observe_all foldl].
  assert (used (shardFor K) K [o] ⊆ T /\ used (shardFor K) K h ⊆ T) as [HT1 HT2].
  { split; (etrans; [|exact HT]); intros k; rewrite !elem_of_used; intros [? (x & Hx & ?)]; (split; [done|]); exists x;
      (split; [|done]); [apply list_elem_of_singleton in Hx as ->; by left|by right]. }
  assert (r_ok cap (observe r o).1 /\ near K v T (recency_of (observe r o).1 (shardFor K))) as [Hr' Hn'].
  { rewrite observe_unfold. destruct (o_recorded o) eqn:Er; [|done]. cbv zeta.
    destruct (put_spec cap r (o_key o) (o_service o) Hr) as [Hr1 _].
    destruct (near_observe cap r K v T o Hr Hn HT1 Hsz) as [Hn1|?]; [intros; apply (Hk o); [by left|done]| |congruence].
    destruct (String.eqb (o_parent o) ""); [done|]. cbn [fst].
    split; [by apply (get_spec cap)|by apply (near_lookup cap)]. }
  apply IH; [done..|]. intros x Hx. apply Hk. by right.
Qed.

(** C23: caller resolution misses no recent parent.  If a span of another
    service has been observed, has not been observed again since, and fewer
    other keys of its shard than the shard holds were used since, then the
    next span that names it as its parent is given its service, whatever the
    rest of the history was. *)
Theorem edges_complete maxSpans h1 p h2 o :
  o_recorded p = true -> o_recorded o = true -> o_parent o <> "" ->
  o_parent_key o = o_key p -> o_service p <> o_service o ->
  (forall x, x ∈ h2 ++ [o] -> o_recorded x = true -> o_key x <> o_key p) ->
  Z.of_nat (size (used (shardFor (o_key p)) (o_key p) (p :: h2 ++ [o]))) < shard_cap maxSpans ->
  (observe (observe_all (NewEdgeResolver maxSpans) (h1 ++ p :: h2)) o).2 = Some (o_service p).
Proof.
  intros Hp Ho Hpar Hkey Hsvc Hagain Hsz. set (K := o_key p) in *. set (T := used (shardFor K) K (p :: h2 ++ [o])) in *.
  set (cap := shard_cap maxSpans) in *. pose proof (shard_cap_pos maxSpans) as Hcap. fold cap in Hcap.
  assert (forall h, (forall x, x ∈ h -> x ∈ p :: h2 ++ [o]) -> used (shardFor K) K h ⊆ T) as HT.
  { intros h Hh k. unfold T. rewrite !elem_of_used. intros [? (x & Hx & ?)]. split; [done|]. exists x. split; [by apply Hh|done]. }
  destruct (observe_all_init maxSpans h1) as [Hr _]. fold cap in Hr.
  unfold observe_all. rewrite foldl_app. fold (observe_all (NewEdgeResolver maxSpans) h1).
  set (r0 := observe_all (NewEdgeResolver maxSpans) h1) in *. cbn [foldl].
  assert (r_ok cap (observe r0 p).1 /\ near K (o_service p) T (recency_of (observe r0 p).1 (shardFor K))) as [Hr1 Hn1].
  { rewrite observe_unfold, Hp. cbv zeta. destruct (put_spec cap r0 (o_key p) (o_service p) Hr) as [Hr1 Hput].
    assert (near K (o_service p) T (recency_of (put r0 (o_key p) (o_service p)) (shardFor K))) as Hn1.
    { rewrite Hput, decide_True by done. unfold spec_put. fold K.
      destruct (drop_key_keys K _ (recency_keys cap r0 (shardFor K) Hr)) as [Hnd Hnk].
      destruct (Z.to_nat cap) as [|n] eqn:En; [lia|]. cbn [take]. split.
      - cbn [fmap list_fmap fst]. apply NoDup_cons. split.
        + rewrite fmap_take. intros Hin%elem_of_take. done.
        + rewrite fmap_take. by apply NoDup_take.
      - exists [], (take n (drop_key K (recency_of r0 (shardFor K)))). split; [done|]. intros x []%elem_of_nil. }
    destruct (String.eqb (o_parent p) ""); [done|]. cbn [fst].
    split; [by apply (get_spec cap)|]. apply (near_lookup cap); [done..|]. apply HT. intros x ->%list_elem_of_singleton. by left. }
  destruct (near_observe_all cap K (o_service p) T h2 _ Hr1 Hn1) as [Hr2 Hn2].
  { apply HT. intros x Hx. right. apply elem_of_app. by left. }
  { lia. }
  { intros x Hx. apply Hagain, elem_of_app. by left. }
  unfold observe_all in Hr2, Hn2. set (r2 := foldl _ _ h2) in *.
  assert (used (shardFor K) K [o] ⊆ T) as HTo.
  { apply HT. intros x ->%list_elem_of_singleton. right. apply elem_of_app. right. by left. }
  rewrite observe_unfold, Ho. cbv zeta. destruct (String.eqb_spec (o_parent o) ""); [done|]. cbn [snd].
  destruct (near_observe cap r2 K (o_service p) T o Hr2 Hn2 HTo ltac:(lia)) as [Hn3|?]; [|  |congruence].
  { intros _. apply Hagain; [|done]. apply elem_of_app. right. by left. }
  destruct (put_spec cap r2 (o_key o) (o_service o) Hr2) as [Hr3 _].
  destruct (get_spec cap _ (o_parent_key o) Hr3) as (_ & -> & _). rewrite Hkey. fold K.
  rewrite (near_found _ _ _ _ Hn3). by destruct (String.eqb_spec (o_service p) (o_service o)).
Qed.

Definition demo_parent : span_obs := mkObs "acme" "a1" "" "gateway".
Definition demo_other : span_obs := mkObs "acme" "zz" "a1" "gateway".
Definition demo_child : span_obs := mkObs "acme" "b2" "a1" "orders".

Lemma edges_complete_witness :
  Z.of_nat (size (used (shardFor (o_key demo_parent)) (o_key demo_parent) (demo_parent :: [demo_other] ++ [demo_child]))) < shard_cap 64 /\
  (observe (observe_all (NewEdgeResolver 64) ([demo_child] ++ demo_parent :: [demo_other])) demo_child).2 = Some "gateway".
Proof.
  split; [by vm_compute|]. apply (edges_complete 64 [demo_child] demo_parent [demo_other] demo_child);
    [done|done|done|done|done| |by vm_compute].
  intros x Hx _. rewrite elem_of_app, !list_elem_of_singleton in Hx. by destruct Hx as [->| ->].
Defined.

Lemma edges_sound_witness :
  Len (observe_all (NewEdgeResolver 1) [demo_parent; demo_other; demo_child]) <= 16 /\
  (observe (observe_all (NewEdgeResolver 64) [demo_parent]) demo_child).2 = Some "gateway" /\
  last_seen [demo_parent; demo_child] !! o_parent_key demo_child = Some "gateway".
Proof.
  split; [exact (proj1 (edges_sound 1 [demo_parent; demo_other; demo_child] demo_child))|].
  assert ((observe (observe_all (NewEdgeResolver 64) [demo_parent]) demo_child).2 = Some "gateway") as H by (by vm_compute).
  split; [exact H|]. exact (proj2 (proj2 (edges_sound 64 [demo_parent] demo_child) "gateway" H)).
Defined.

(** Finding: the total is not capped at [maxSpans] when that is below the
    number of shards, as every shard holds at least one span. *)
Lemma small_cap_exceeded :
  1 < Len (observe_all (NewEdgeResolver 1) [demo_parent; demo_other; demo_child]).
Proof. by vm_compute. Qed.
