(* ===== verification/Engine.v ===== *)
(** * Engine: windows, shards and ownership ([internal/aggregate/engine.go])

    The mutable windows live in four shards; [ownership] says which windows
    memory answers for.  Every operation here runs inside the engine's critical
    sections, so it is one function on the state; a merge that panics is [None].
    A [DeltaMap] handed to an operation is the list of its entries in the order
    the [range] statement visits them (an arbitrary one), and a map the code
    builds is a [gmap].  The clock readings are arguments.  The metrics recorder
    is write-only and left out; the query-side projections (topology, edges)
    and the dictionary cache are other components. *)
From stdpp Require Import sorting.
From S2P Require Import Prelude Float64 SeriesKey Sketch Delta Limiter Baseline.

(* internal/aggregate/engine.go:45-66 WindowSize *)
Definition WindowSize : Z := 5 * Minute.
Definition MaxFutureSkew : Z := 2 * Minute.
Definition NumShards : Z := 4.
Definition DefaultMaxClosedWindows : Z := 12.

(** [int64(WindowSize / time.Second)] and [int64(AllowedLateness / time.Second)] *)
Definition windowSec : Z := Z.quot WindowSize Second.
Definition latenessSec : Z := Z.quot AllowedLateness Second.

(** ** Windows of a point *)

(* internal/aggregate/engine.go:77-77 PointDisposition *)
Inductive PointDisposition := PointAccepted | PointLate | PointFuture.

(* internal/aggregate/engine.go:92-101 PointDisposition.String *)
Definition PointDisposition_String (d : PointDisposition) : string :=
  match d with
  | PointLate => "late"
  | PointFuture => "future"
  | PointAccepted => "accepted"
  end.

(* internal/aggregate/engine.go:602-610 WindowStart *)
Definition WindowStart (t : time) : Z :=
  let w := windowSec in
  let sec := t_Unix t in
  let rem := Z.rem sec w in
  let rem := if rem <? 0 then rem + w else rem in
  sec - rem.

(* internal/aggregate/engine.go:615-625 Classify *)
Definition Classify (arrival pointTime : time) : Z * PointDisposition :=
  if MaxFutureSkew <? t_Sub pointTime arrival then (0, PointFuture)
  else
    let start := WindowStart pointTime in
    if start + windowSec + latenessSec <=? t_Unix arrival then (start, PointLate)
    else (start, PointAccepted).

(** [now.Unix() - WindowSize - AllowedLateness], in seconds: windows at or
    below it are closed. *)
(* internal/aggregate/store.go:707-709 FinalizeCutoff *)
Definition FinalizeCutoff (now : time) : Z := t_Unix now - windowSec - latenessSec.

(* internal/aggregate/store.go:701-703 MutableSince *)
Definition MutableSince (now : time) : Z := WindowStart now - latenessSec.

(** ** Sharding *)

(** One [h ^= byte; h *= prime] step of the 32-bit FNV-1a. *)
Definition fnv32_step (h b : Z) : Z := u32 (Z.lxor h b * 16777619).

(* internal/aggregate/engine.go:1018-1042 shardIndex *)
Definition shardIndex (k : SeriesKey) : Z :=
  let h := foldl (fun h v =>
      let h := fnv32_step h (Z.land v 255) in
      let h := fnv32_step h (Z.land (Z.shiftr v 8) 255) in
      let h := fnv32_step h (Z.land (Z.shiftr v 16) 255) in
      fnv32_step h (Z.shiftr v 24))
    2166136261
    [TenantID k; ServiceID k; NameID k; DimsID k;
     Z.lor (Z.lor (Z.lor (Z.shiftl (KSignal k) 24) (Z.shiftl (KStatusClass k) 16))
       (Z.shiftl (KHTTPClass k) 8)) (KMethod k);
     KVariant k] in
  Z.land h (NumShards - 1).

(** ** The state *)

(** [shard.windows]. *)
Abbreviation shard := (gmap Z (gmap SeriesKey AggregateDelta)) (only parsing).

(* internal/aggregate/engine.go:240-259 ownership *)
Record ownership := mkOwn {
  own_mutable : gset Z;
  own_closed : gset Z;
  own_watermark : Z;
  own_epoch : string;
}.

(* internal/aggregate/engine.go:263-273 Ownership *)
Record Ownership := mkOwnership {
  Epoch : string;
  Revision : Z;
  Mutable : list Z;
  FinalizedWatermark : Z;
}.

(* internal/aggregate/engine.go:185-219 Engine *)
Record Engine := mkEngine {
  e_limiter : Limiter;
  e_baselines : BaselineTracker;
  e_shards : list shard;
  e_own : ownership;
  e_revision : Z;
  e_maxClosedWindows : Z;
  e_windowsDiscarded : Z;
  e_seriesDiscarded : Z;
  e_closedForced : Z;
}.

Definition set_limiter (e : Engine) (l : Limiter) : Engine :=
  mkEngine l (e_baselines e) (e_shards e) (e_own e) (e_revision e) (e_maxClosedWindows e)
    (e_windowsDiscarded e) (e_seriesDiscarded e) (e_closedForced e).
Definition set_memory (e : Engine) (sh : list shard) (o : ownership) (rev : Z) : Engine :=
  mkEngine (e_limiter e) (e_baselines e) sh o rev (e_maxClosedWindows e)
    (e_windowsDiscarded e) (e_seriesDiscarded e) (e_closedForced e).
Definition set_baselines (e : Engine) (b : BaselineTracker) : Engine :=
  mkEngine (e_limiter e) b (e_shards e) (e_own e) (e_revision e) (e_maxClosedWindows e)
    (e_windowsDiscarded e) (e_seriesDiscarded e) (e_closedForced e).
Definition add_discarded (e : Engine) (windows series forced : Z) : Engine :=
  mkEngine (e_limiter e) (e_baselines e) (e_shards e) (e_own e) (e_revision e) (e_maxClosedWindows e)
    (u64 (e_windowsDiscarded e + windows)) (u64 (e_seriesDiscarded e + series))
    (u64 (e_closedForced e + forced)).

(** [EngineConfig], the fields the modelled parts read. *)
(* internal/aggregate/engine.go:129-182 EngineConfig *)
Record EngineConfig := mkEngineConfig {
  ec_Limiter : LimiterConfig;
  ec_MaxProducerBaselinesPerSeries : Z;
  ec_MaxBaselines : Z;
  ec_MaxClosedWindows : Z;
  ec_Epoch : string;
}.

(** [limCfg.OtherNameID = e.otherNameID] *)
Definition with_other (c : LimiterConfig) (other : Z -> Z -> Z) : LimiterConfig :=
  mkLimiterConfig (MaxSeries c) (MaxSeriesMetrics c) (MaxSeriesTraces c) (MaxSeriesEdges c) (MaxSeriesLogs c)
    (MaxSeriesSystem c) (MaxOperationsPerService c) (MaxLogTemplatesPerService c) (MaxTraceSeriesPerService c)
    (MaxMetricSeriesPerService c) (SeriesPerTenantFraction c) (Some other).

(** [otherNameID] resolves through the dictionary cache: [other_id] stands for
    [cache.OtherID]. *)
(* internal/aggregate/engine.go:568-574 Engine.otherNameID *)
Definition otherNameID (other_id : Z -> Z -> Z) (tenantID signal : Z) : Z :=
  let '(kind, ok) := NameKind signal in
  if negb ok then 0 else other_id tenantID kind.

(* internal/aggregate/engine.go:287-353 NewEngine *)
Definition NewEngine (other_id : Z -> Z -> Z) (cfg : EngineConfig) : result limiter_error Engine :=
  let lim := withDefaults (ec_Limiter cfg) in
  guard_none (LimiterConfig_Validate lim)
    (Ok (mkEngine (NewLimiter (with_other lim (otherNameID other_id)))
           (NewBaselineTracker
              (mkTrackerConfig (ec_MaxProducerBaselinesPerSeries cfg) (ec_MaxBaselines cfg) AllowedLateness))
           [∅; ∅; ∅; ∅]
           (mkOwn ∅ ∅ 0 (ec_Epoch cfg)) 0
           (if ec_MaxClosedWindows cfg =? 0 then DefaultMaxClosedWindows else ec_MaxClosedWindows cfg)
           0 0 0)).

(** ** Ownership *)

(** [sort.Slice] of distinct integers. *)
Definition sort_Z (l : list Z) : list Z := merge_sort Z.le l.

(* internal/aggregate/engine.go:496-508 Engine.ownershipLocked *)
Definition ownershipLocked (e : Engine) : Ownership :=
  mkOwnership (own_epoch (e_own e)) (e_revision e) (sort_Z (elements (own_mutable (e_own e))))
    (own_watermark (e_own e)).

(* internal/aggregate/engine.go:276-283 Ownership.OwnsInMemory *)
Definition OwnsInMemory (o : Ownership) (windowStart : Z) : bool :=
  existsb (fun w => w =? windowStart) (Mutable o).

(* internal/aggregate/engine.go:469-485 Engine.ActiveSeriesKeys *)
Definition ActiveSeriesKeys (e : Engine) : gset SeriesKey :=
  ⋃ ((fun sh : shard => ⋃ ((fun p => dom (snd p)) <$> map_to_list sh)) <$> e_shards e).

(** ** Eviction *)

(** The keys of one shard's window, in the map's order. *)
Definition window_keys (sh : shard) (start : Z) : list SeriesWindowKey :=
  match sh !! start with
  | Some w => (fun p => (fst p, start)) <$> map_to_list w
  | None => []
  end.

(* internal/aggregate/engine.go:541-555 Engine.evictWindowLocked *)
Definition evictWindowLocked (shards : list shard) (start : Z) : list shard * list SeriesWindowKey :=
  (delete start <$> shards, mjoin ((fun sh => window_keys sh start) <$> shards)).

(** [delete(mutable, w)], [delete(closed, w)] and the watermark. *)
Definition hand_over (o : ownership) (w : Z) : ownership :=
  mkOwn (own_mutable o ∖ {[ w ]}) (own_closed o ∖ {[ w ]})
    (if own_watermark o <? w then w else own_watermark o) (own_epoch o).

(* internal/aggregate/engine.go:519-537 Engine.MarkFinalized *)
Definition MarkFinalized (e : Engine) (windowStart : Z) : Engine :=
  let '(shards, released) := evictWindowLocked (e_shards e) windowStart in
  let e := set_memory e shards (hand_over (e_own e) windowStart) (e_revision e) in
  let e := set_limiter e (release_all (e_limiter e) released) in
  if (0 <? length released)%nat then add_discarded e 0 (Z.of_nat (length released)) 0 else e.

(* internal/aggregate/engine.go:882-896 Engine.overCapClosedLocked *)
Definition overCapClosedLocked (maxClosed : Z) (closed : gset Z) : list Z :=
  if maxClosed <? 0 then []
  else
    let over := Z.of_nat (size closed) - maxClosed in
    if over <=? 0 then []
    else take (Z.to_nat over) (sort_Z (elements closed)).

(** The loop over the windows the cap forces out. *)
Definition force_one (acc : list shard * ownership * list SeriesWindowKey) (start : Z)
    : list shard * ownership * list SeriesWindowKey :=
  let '(shards, o, released) := acc in
  let '(shards, r) := evictWindowLocked shards start in
  (shards, hand_over o start, released ++ r).

(* internal/aggregate/engine.go:842-878 Engine.Rollover *)
Definition Rollover (e : Engine) (now : time) : Engine * Z :=
  let cutoff := FinalizeCutoff now in
  let o := e_own e in
  let closed := filter (fun start => start <= cutoff) (own_mutable o) ∪ own_closed o in
  let forcedWindows := overCapClosedLocked (e_maxClosedWindows e) closed in
  let '(shards, o, released) :=
    foldl force_one (e_shards e, mkOwn (own_mutable o) closed (own_watermark o) (own_epoch o), []) forcedWindows in
  let forced := Z.of_nat (length forcedWindows) in
  let e := set_memory e shards o (e_revision e) in
  let e := set_limiter e (release_all (e_limiter e) released) in
  (if 0 <? forced then add_discarded e forced (Z.of_nat (length released)) forced else e, forced).

(** ** Applying a batch *)

(** A batch: the entries of a [DeltaMap] in iteration order. *)
(* internal/aggregate/engine.go:105-105 DeltaMap *)
Definition DeltaMap : Type := list (SeriesWindowKey * AggregateDelta).

(* internal/aggregate/engine.go:702-709 AdmissionPlan *)
Record AdmissionPlan := mkPlan {
  Resolved : gmap SeriesWindowKey AggregateDelta;
  reserved : list SeriesWindowKey;
}.

(** One iteration of [PlanAdmission]'s loop: the limiter, the discarded count
    and the plan. *)
Definition plan_one (cutoff : Z) (acc : Limiter * Z * AdmissionPlan) (entry : SeriesWindowKey * AggregateDelta)
    : option (Limiter * Z * AdmissionPlan) :=
  let '(l, discarded, plan) := acc in
  let '((key, w), d) := entry in
  if w <=? cutoff then Some (l, discarded + 1, plan)
  else
    let '(l, adm) := Admit l key w in
    let target := (adm_Key adm, w) in
    let res := if adm_Reserved adm then reserved plan ++ [target] else reserved plan in
    match Resolved plan !! target with
    | Some existing =>
        merged ← DeltaMerge zero_delta (Some existing);
        merged ← DeltaMerge merged (Some d);
        Some (l, discarded, mkPlan (<[target := merged]> (Resolved plan)) res)
    | None => Some (l, discarded, mkPlan (<[target := d]> (Resolved plan)) res)
    end.

(** The clock is read twice: [now] for the rollover, [now'] for the cutoff. *)
(* internal/aggregate/engine.go:719-757 Engine.PlanAdmission *)
Definition PlanAdmission (e : Engine) (m : DeltaMap) (now now' : time) : option (Engine * AdmissionPlan) :=
  if (length m =? 0)%nat then Some (e, mkPlan ∅ [])
  else
    let e := fst (Rollover e now) in
    '(l, discarded, plan) ← opt_foldl (plan_one (FinalizeCutoff now')) (e_limiter e, 0, mkPlan ∅ []) m;
    Some (add_discarded (set_limiter e l) 0 discarded 0, plan).

(** One entry of [applyShard]'s loop: [w[swk.Key] = d.Clone()] or [cur.Merge(d)]. *)
Definition apply_entry (i : Z) (sh : shard) (entry : SeriesWindowKey * AggregateDelta) : option shard :=
  let '((key, start), d) := entry in
  if shardIndex key =? i then
    let w := default ∅ (sh !! start) in
    match w !! key with
    | Some cur => d' ← DeltaMerge cur (Some d); Some (<[start := <[key := d']> w]> sh)
    | None => Some (<[start := <[key := d]> w]> sh)
    end
  else Some sh.

(* internal/aggregate/engine.go:798-825 Engine.applyShard *)
Definition applyShard (i : Z) (sh : shard) (resolved : gmap SeriesWindowKey AggregateDelta) : option shard :=
  opt_foldl (apply_entry i) sh (map_to_list resolved).

(** [for i := range e.shards { e.applyShard(i, resolved) }] *)
Fixpoint apply_shards (i : Z) (shards : list shard) (resolved : gmap SeriesWindowKey AggregateDelta)
    : option (list shard) :=
  match shards with
  | [] => Some []
  | sh :: rest =>
      sh' ← applyShard i sh resolved;
      rest' ← apply_shards (i + 1) rest resolved;
      Some (sh' :: rest')
  end.

(** The window starts of a batch. *)
Definition windows_of (m : gmap SeriesWindowKey AggregateDelta) : gset Z := set_map snd (dom m).

(* internal/aggregate/engine.go:762-781 Engine.CommitAdmission *)
Definition CommitAdmission (e : Engine) (plan : AdmissionPlan) : option (Engine * Z) :=
  if (size (Resolved plan) =? 0)%nat then Some (e, e_revision e)
  else
    shards ← apply_shards 0 (e_shards e) (Resolved plan);
    let o := e_own e in
    let o := mkOwn (windows_of (Resolved plan) ∪ own_mutable o) (own_closed o) (own_watermark o) (own_epoch o) in
    let rev := u64 (e_revision e + 1) in
    Some (set_memory e shards o rev, rev).

(* internal/aggregate/engine.go:786-794 Engine.RollbackAdmission *)
Definition RollbackAdmission (e : Engine) (plan : AdmissionPlan) : Engine :=
  if (length (reserved plan) =? 0)%nat then e
  else set_limiter e (release_all (e_limiter e) (reserved plan)).

(* internal/aggregate/engine.go:686-691 Engine.ApplyCommitted *)
Definition ApplyCommitted (e : Engine) (m : DeltaMap) (now now' : time) : option (Engine * Z) :=
  if (length m =? 0)%nat then Some (e, e_revision e)
  else '(e, plan) ← PlanAdmission e m now now'; CommitAdmission e plan.

(** ** Reading memory *)

(** The delta a shard holds for a series in a window. *)
Definition sh_get (sh : shard) (w : Z) (k : SeriesKey) : option AggregateDelta := sh !! w ≫= (.!! k).

(* internal/aggregate/engine.go:911-916 WindowSnapshot *)
Record WindowSnapshot := mkWindowSnapshot { ws_Start : time; ws_Series : gmap SeriesKey AggregateDelta }.

(** [byWindow], filled shard after shard; the last shard to hold a key wins. *)
Definition by_window (shards : list shard) : gmap Z (gmap SeriesKey AggregateDelta) :=
  foldl (fun acc sh => union_with (fun dst w => Some (w ∪ dst)) acc sh) ∅ shards.

(* internal/aggregate/engine.go:923-942 Snapshot *)
Record SnapshotData := mkSnapshot {
  s_Revision : Z;
  s_Windows : list WindowSnapshot;
  s_ActiveSeries : Z;
  s_ActiveBySignal : gmap Z Z;
  s_Overflow : gmap OverflowReason Z;
  s_WindowsDiscarded : Z;
  s_SeriesDiscarded : Z;
  s_ClosedWindowsForced : Z;
  s_ClosedWindows : Z;
}.

(* internal/aggregate/engine.go:945-992 Engine.Snapshot *)
Definition Snapshot (e : Engine) : SnapshotData :=
  let by_w := by_window (e_shards e) in
  let windows :=
    (fun start => mkWindowSnapshot (t_of_unix start) (default ∅ (by_w !! start))) <$> sort_Z (elements (dom by_w)) in
  let ls := Stats (e_limiter e) in
  mkSnapshot (e_revision e) windows (ls_Active ls) (ls_ActiveBySignal ls) (ls_Overflow ls)
    (e_windowsDiscarded e) (e_seriesDiscarded e) (e_closedForced e) (Z.of_nat (size (own_closed (e_own e)))).

(* internal/aggregate/engine.go:997-1008 Snapshot.Totals *)
Definition Totals (s : SnapshotData) (signal : Z) : Z * Z :=
  foldl (fun acc w =>
    map_fold (fun key d (acc : Z * Z) =>
      if KSignal key =? signal
      then (u64 (fst acc + d_Count (d_counts d)), u64 (snd acc + d_ErrorCount (d_counts d)))
      else acc) acc (ws_Series w)) (0, 0) (s_Windows s).

(** One visited cell: window, series, delta. *)
(* internal/aggregate/query.go:405-439 Engine.readMutable *)
Definition readMutable (e : Engine) (tenantID start end_ signal : Z)
    : Ownership * list (Z * SeriesKey * AggregateDelta) :=
  let own := ownershipLocked e in
  (own,
   w ← Mutable own;
   if (w <? start) || (end_ <=? w) then []
   else
     sh ← e_shards e;
     p ← map_to_list (default ∅ (sh !! w));
     let '(key, d) := p in
     if negb (TenantID key =? tenantID) then []
     else if negb (signal =? SignalUnspecified) && negb (KSignal key =? signal) then []
     else [(w, key, d)]).

(** Query errors; every one of them is [ErrSelectorUnbounded]. *)
Inductive plan_error := ErrTenantRequired | ErrUnboundedRange | ErrTenantIdentity.

(** [planStore] for a live context: the memory visits, and the window range
    [[start, storeEnd)] left to the store, if any.  [intern] stands for
    [cache.InternTenant]. *)
(* internal/aggregate/query.go:349-401 Engine.planStore *)
Definition planStore (intern : string -> option Z) (e : Engine) (tenant : string) (qStart qEnd : time) (signal : Z)
    (has_store : bool) : result plan_error (Ownership * list (Z * SeriesKey * AggregateDelta) * option (Z * Z)) :=
  if String.eqb tenant "" then Err ErrTenantRequired
  else if negb (t_After qEnd qStart) then Err ErrUnboundedRange
  else
    match intern tenant with
    | None => Err ErrTenantIdentity
    | Some tenantID =>
        let start := WindowStart qStart in
        let end_ := WindowStart (qEnd + (WindowSize - Second)) in
        let end_ := if end_ <=? start then start + windowSec else end_ in
        let '(own, visits) := readMutable e tenantID start end_ signal in
        let storeEnd :=
          foldl (fun storeEnd w => if (start <=? w) && (w <? storeEnd) then w else storeEnd) end_ (Mutable own) in
        Ok (own, visits, if (storeEnd <=? start) || negb has_store then None else Some (start, storeEnd))
    end.

(** ** Windows and lateness *)

Lemma WindowStart_eq t : WindowStart t = t_Unix t - t_Unix t mod 300.
Proof.
  unfold WindowStart. change windowSec with 300.
  destruct (_ <? 0) eqn:E; z_bool; zlia.
Qed.

Lemma FinalizeCutoff_eq now : FinalizeCutoff now = t_Unix now - 900.
Proof. unfold FinalizeCutoff. change windowSec with 300. change latenessSec with 600. lia. Qed.

(** A point's window is the aligned five minutes that contain it, and the
    verdicts agree with the rest of the pipeline: a point is refused as future
    exactly when it is more than two minutes ahead of the arrival, and otherwise
    accepted exactly when the apply path at that instant keeps its window (it is
    above the cutoff) and when a recovery at that instant would replay the
    window instead of finalizing it; an accepted window starts at most three
    windows before and one window after the current one. *)
Theorem Classify_agrees (arrival pointTime : time) :
  let start := WindowStart pointTime in
  let '(w, d) := Classify arrival pointTime in
  (start mod 300 = 0 /\ start <= t_Unix pointTime < start + 300) /\
  (d = PointFuture <-> MaxFutureSkew < pointTime - arrival) /\
  (d <> PointFuture -> w = start) /\
  (d = PointAccepted <-> pointTime - arrival <= MaxFutureSkew /\ FinalizeCutoff arrival < start) /\
  (FinalizeCutoff arrival < start <-> MutableSince arrival <= start) /\
  (d = PointAccepted -> WindowStart arrival - 600 <= w <= WindowStart arrival + 300).
Proof.
  cbv zeta. unfold Classify. rewrite FinalizeCutoff_eq. unfold MutableSince. rewrite !WindowStart_eq.
  change windowSec with 300. change latenessSec with 600.
  change MaxFutureSkew with 120000000000. unfold t_Sub. change MaxDuration with 9223372036854775807.
  change MinDuration with (-9223372036854775808).
  assert (pointTime - arrival <= 120000000000 -> t_Unix pointTime <= t_Unix arrival + 120) as Hs.
  { intros. unfold t_Unix, Second. zlia. }
  set (p := t_Unix pointTime) in *. set (a := t_Unix arrival) in *.
  assert (p - p mod 300 <= p < p - p mod 300 + 300 /\ (p - p mod 300) mod 300 = 0) as Hp by zlia.
  assert (a - 900 < p - p mod 300 <-> a - a mod 300 - 600 <= p - p mod 300) as Hiff by zlia.
  assert (a - 900 < p - p mod 300 -> p <= a + 120 ->
    a - a mod 300 - 600 <= p - p mod 300 <= a - a mod 300 + 300) as Hb by zlia.
  set (start := p - p mod 300) in *. clearbody start.
  destruct (_ <? _) eqn:E1; [|destruct (_ <=? _) eqn:E2]; z_bool; split_and!; try done; try lia;
    (split; [by intros|]; lia) || (split; [|done]; lia) || (intros; split; lia) || idtac.
Qed.

Lemma shardIndex_range k : 0 <= shardIndex k < 4.
Proof.
  unfold shardIndex. set (h := foldl _ _ _). cbv zeta. change (NumShards - 1) with (Z.ones 2).
  rewrite Z.land_ones by lia. pose proof (Z.mod_pos_bound h (2 ^ 2)). lia.
Qed.

(** ** Shards *)

(** The delta stored for a series in a window, and the shape of the shards:
    four of them, every series in the shard its hash names, no empty window. *)
Definition at_shards (shards : list shard) (k : SeriesKey) (w : Z) : option AggregateDelta :=
  shards !! Z.to_nat (shardIndex k) ≫= fun sh => sh_get sh w k.

Record shard_ok (i : Z) (sh : shard) : Prop := {
  so_placed : forall w k, is_Some (sh_get sh w k) -> shardIndex k = i;
  so_nonempty : forall w win, sh !! w = Some win -> win <> ∅;
}.

Record shards_ok (shards : list shard) : Prop := {
  ss_length : length shards = 4%nat;
  ss_ok : forall n sh, shards !! n = Some sh -> shard_ok (Z.of_nat n) sh;
}.

(** What merging an optional delta into an optional cell gives. *)
Definition merge_cell (c d : option AggregateDelta) : option AggregateDelta :=
  match d with
  | None => c
  | Some x => match c with None => Some x | Some y => DeltaMerge y (Some x) end
  end.

Lemma sh_get_insert (sh : shard) w k d w' k' :
  sh_get (<[w := <[k := d]> (default ∅ (sh !! w))]> sh) w' k' =
  if decide ((k, w) = (k', w')) then Some d else sh_get sh w' k'.
Proof.
  unfold sh_get. rewrite lookup_insert. destruct (decide (w = w')) as [<-|Hw]; cbn [mbind option_bind].
  - rewrite lookup_insert. destruct (decide (k = k')) as [<-|Hk]; [by rewrite decide_True|].
    rewrite decide_False by congruence. by destruct (sh !! w).
  - by rewrite decide_False by congruence.
Qed.

Lemma sh_get_default (sh : shard) w k : default ∅ (sh !! w) !! k = sh_get sh w k.
Proof. unfold sh_get. by destruct (sh !! w). Qed.

Lemma shard_ok_insert i sh w k d :
  shard_ok i sh -> shardIndex k = i -> shard_ok i (<[w := <[k := d]> (default ∅ (sh !! w))]> sh).
Proof.
  intros [H1 H2] Hk. constructor.
  - intros w' k'. rewrite sh_get_insert. case_decide as D; [intros _; congruence|apply H1].
  - intros w' win. rewrite lookup_insert. case_decide; [intros [= <-]; apply insert_non_empty|apply H2].
Qed.

Lemma apply_entry_get i sh k w d sh' :
  apply_entry i sh (k, w, d) = Some sh' -> shard_ok i sh ->
  shard_ok i sh' /\
  (shardIndex k = i -> is_Some (merge_cell (sh_get sh w k) (Some d))) /\
  forall k' w', sh_get sh' w' k' =
    if decide (shardIndex k = i /\ (k, w) = (k', w')) then merge_cell (sh_get sh w k) (Some d) else sh_get sh w' k'.
Proof.
  unfold apply_entry. intros E Hok. destruct (shardIndex k =? i) eqn:Ei; z_bool.
  2: { injection E as <-. split_and!; [done|done|]. intros. by rewrite decide_False by naive_solver. }
  rewrite sh_get_default in E. unfold merge_cell. destruct (sh_get sh w k) as [cur|] eqn:Ec.
  - destruct (DeltaMerge cur (Some d)) as [d'|] eqn:Ed; [|done]. injection E as <-.
    split_and!; [by apply shard_ok_insert|simpl; eauto|]. intros k' w'. rewrite sh_get_insert.
    repeat case_decide; naive_solver.
  - injection E as <-. split_and!; [by apply shard_ok_insert|simpl; eauto|]. intros k' w'. rewrite sh_get_insert.
    repeat case_decide; naive_solver.
Qed.

Lemma apply_entries_get i (l : list (SeriesWindowKey * AggregateDelta)) : forall sh sh',
  NoDup l.*1 -> opt_foldl (apply_entry i) sh l = Some sh' -> shard_ok i sh ->
  shard_ok i sh' /\
  (forall k w, shardIndex k = i -> (k, w) ∈ l.*1 -> is_Some (sh_get sh' w k)) /\
  forall k w, sh_get sh' w k =
    if decide (shardIndex k = i) then merge_cell (sh_get sh w k) ((list_to_map l : gmap _ _) !! (k, w))
    else sh_get sh w k.
Proof.
  induction l as [|[[k w] d] l IH]; intros sh sh' Hnd E Hok.
  { injection E as <-. split_and!; [done|by intros ? ? _ ?%not_elem_of_nil|]. intros. change (list_to_map [] : gmap SeriesWindowKey AggregateDelta) with (∅ : gmap SeriesWindowKey AggregateDelta). rewrite lookup_empty. by destruct (decide _). }
  apply opt_foldl_cons in E as (sh1 & E1 & E). apply apply_entry_get in E1 as (Hok1 & S1 & G1); [|done].
  rewrite fmap_cons in Hnd. apply NoDup_cons in Hnd as [Hn Hnd].
  destruct (IH sh1 sh' Hnd E Hok1) as (Hok' & S' & G'). split_and!; [done| |].
  { intros k' w' Hi [Hh|Hin]%elem_of_cons; [|by apply S']. injection Hh as -> ->. rewrite G', G1, decide_True by done.
    rewrite (not_elem_of_list_to_map_1 (M := gmap SeriesWindowKey)) by exact Hn.
    destruct (decide (_ /\ _)) as [_|[]]; [by apply S1|done]. }
  intros k' w'. rewrite G'.
  cbn [list_to_map foldr uncurry]. fold (list_to_map (M := gmap SeriesWindowKey AggregateDelta) l).
  cbn [fst snd]. rewrite lookup_insert, !G1.
  destruct (decide ((k, w) = (k', w'))) as [[= <- <-]|Hne].
  - rewrite (not_elem_of_list_to_map_1 (M := gmap SeriesWindowKey)) by exact Hn.
    destruct (decide (shardIndex k = i)) as [D|D].
    + destruct (decide (_ /\ _)) as [_|[]]; done.
    + destruct (decide (_ /\ _)) as [[? _]|_]; done.
  - destruct (decide (_ /\ _)) as [[_ ?]|_]; done.
Qed.

Lemma applyShard_get i sh resolved sh' :
  applyShard i sh resolved = Some sh' -> shard_ok i sh ->
  shard_ok i sh' /\
  (forall k w, shardIndex k = i -> is_Some (resolved !! (k, w)) -> is_Some (sh_get sh' w k)) /\
  forall k w, sh_get sh' w k =
    if decide (shardIndex k = i) then merge_cell (sh_get sh w k) (resolved !! (k, w)) else sh_get sh w k.
Proof.
  intros E Hok. destruct (apply_entries_get i (map_to_list resolved) sh sh') as (H1 & H2 & H3);
    [apply NoDup_fst_map_to_list|exact E|exact Hok|].
  split_and!; [done| |intros; by rewrite H3, list_to_map_to_list].
  intros k w Hi [d Hd]. apply H2; [done|]. apply list_elem_of_fmap. exists (k, w, d). split; [done|].
  by apply elem_of_map_to_list.
Qed.

Lemma apply_shards_lookup resolved shards : forall j shards',
  apply_shards j shards resolved = Some shards' ->
  length shards' = length shards /\
  forall n sh', shards' !! n = Some sh' ->
    exists sh, shards !! n = Some sh /\ applyShard (j + Z.of_nat n) sh resolved = Some sh'.
Proof.
  induction shards as [|sh shards IH]; intros j shards' E; cbn [apply_shards] in E.
  { injection E as <-. by split. }
  destruct (applyShard j sh resolved) as [sh1|] eqn:E1; [|done]. cbn [mbind option_bind] in E.
  destruct (apply_shards (j + 1) shards resolved) as [rest|] eqn:E2; [|done]. injection E as <-.
  destruct (IH _ _ E2) as [HL HI]. split; [simpl; congruence|].
  intros [|n] sh' Hl; simpl in Hl.
  - injection Hl as <-. exists sh. rewrite Z.add_0_r. done.
  - destruct (HI n sh' Hl) as (sh0 & H0 & H1). exists sh0. split; [done|].
    rewrite <- H1. f_equal. lia.
Qed.

(** The shards as one map, as [CommitAdmission] changes it. *)
Lemma apply_shards_at shards resolved shards' :
  apply_shards 0 shards resolved = Some shards' -> shards_ok shards ->
  shards_ok shards' /\
  (forall k w, is_Some (resolved !! (k, w)) -> is_Some (at_shards shards' k w)) /\
  forall k w, at_shards shards' k w = merge_cell (at_shards shards k w) (resolved !! (k, w)).
Proof.
  intros E [HL Hok]. destruct (apply_shards_lookup _ _ _ _ E) as [HL' HI].
  assert (forall n sh', shards' !! n = Some sh' -> exists sh, shards !! n = Some sh /\ shard_ok (Z.of_nat n) sh' /\
    (forall k w, shardIndex k = Z.of_nat n -> is_Some (resolved !! (k, w)) -> is_Some (sh_get sh' w k)) /\
    forall k w, sh_get sh' w k = if decide (shardIndex k = Z.of_nat n)
      then merge_cell (sh_get sh w k) (resolved !! (k, w)) else sh_get sh w k) as HS.
  { intros n sh' Hn. destruct (HI n sh' Hn) as (sh & H1 & H2). exists sh. split; [done|].
    apply (applyShard_get _ _ _ _ H2). by apply Hok. }
  assert (forall k, exists sh sh', shards !! Z.to_nat (shardIndex k) = Some sh /\
    shards' !! Z.to_nat (shardIndex k) = Some sh') as HE.
  { intros k. pose proof (shardIndex_range k).
    destruct (shards' !! Z.to_nat (shardIndex k)) as [sh'|] eqn:E'; [|apply lookup_ge_None in E'; lia].
    destruct (HS _ _ E') as (sh & Hsh & _). eauto. }
  split_and!.
  - split; [congruence|]. intros n sh' Hn. by destruct (HS n sh' Hn) as (? & ? & ? & ?).
  - intros k w Hr. unfold at_shards. pose proof (shardIndex_range k). destruct (HE k) as (sh & sh' & E1 & E2).
    rewrite E2. cbn [mbind option_bind]. destruct (HS _ _ E2) as (? & ? & _ & HI' & _). apply HI'; [lia|done].
  - intros k w. unfold at_shards. pose proof (shardIndex_range k). destruct (HE k) as (sh & sh' & E1 & E2).
    rewrite E1, E2. cbn [mbind option_bind]. destruct (HS _ _ E2) as (sh0 & E3 & _ & _ & HG).
    assert (sh0 = sh) as -> by congruence. rewrite HG. by rewrite decide_True by lia.
Qed.

Lemma at_shards_in shards k w : shards_ok shards ->
  is_Some (at_shards shards k w) <-> exists sh, sh ∈ shards /\ is_Some (sh_get sh w k).
Proof.
  intros [HL Hok]. unfold at_shards. pose proof (shardIndex_range k). split.
  - destruct (shards !! _) as [sh|] eqn:E; [|by intros [? ?]]. cbn. intros. exists sh.
    split; [by eapply list_elem_of_lookup_2|done].
  - intros (sh & Hin & Hs). apply list_elem_of_lookup_1 in Hin as [n Hn].
    pose proof (so_placed _ _ (Hok n sh Hn) w k Hs) as Hp. rewrite Hp, Nat2Z.id, Hn. done.
Qed.

Lemma evict_at shards start :
  shards_ok shards ->
  let '(shards', released) := evictWindowLocked shards start in
  shards_ok shards' /\
  (forall k w, at_shards shards' k w = if decide (w = start) then None else at_shards shards k w) /\
  forall k w, (k, w) ∈ released <-> w = start /\ is_Some (at_shards shards k w).
Proof.
  intros [HL Hok]. unfold evictWindowLocked.
  assert (forall sh k w, sh_get (delete start sh) w k = if decide (w = start) then None else sh_get sh w k) as HG.
  { intros sh k w. unfold sh_get. rewrite lookup_delete. repeat case_decide; naive_solver. }
  split_and!.
  - split; [by rewrite length_fmap|]. intros n sh' Hn. rewrite list_lookup_fmap in Hn.
    destruct (shards !! n) as [sh|] eqn:E; [|done]. injection Hn as <-. destruct (Hok n sh E) as [H1 H2].
    split.
    + intros w k. rewrite HG. case_decide; [by intros [? ?]|apply H1].
    + intros w win. rewrite lookup_delete. case_decide; [done|apply H2].
  - intros k w. unfold at_shards. rewrite list_lookup_fmap. destruct (shards !! _) as [sh|]; cbn; [apply HG|].
    by case_decide.
  - intros k w. rewrite (at_shards_in _ _ _ (Build_shards_ok _ HL Hok)).
    rewrite list_elem_of_join. setoid_rewrite list_elem_of_fmap. unfold window_keys, sh_get. split.
    + intros (l & Hin & sh & -> & Hsh). destruct (sh !! start) as [win|] eqn:E; [|by apply not_elem_of_nil in Hin].
      apply list_elem_of_fmap in Hin as ([k0 d] & Heq & Hd). simpl in Heq. injection Heq as -> ->.
      split; [done|]. exists sh. split; [done|]. rewrite E. cbn. apply elem_of_map_to_list in Hd. by exists d.
    + intros [-> (sh & Hsh & d & Hd)]. eexists. split; [|by exists sh].
      destruct (sh !! start) as [win|]; [|done]. apply list_elem_of_fmap. exists (k, d). split; [done|].
      by apply elem_of_map_to_list.
Qed.

(** ** The engine's invariant *)

Definition stored (e : Engine) (k : SeriesKey) (w : Z) : option AggregateDelta := at_shards (e_shards e) k w.

(** The shards are in shape, memory owns exactly the windows it holds, and a
    closed window is still owned. *)
Record engine_ok (e : Engine) : Prop := {
  eo_shards : shards_ok (e_shards e);
  eo_mutable : forall w, w ∈ own_mutable (e_own e) <-> exists k, is_Some (stored e k w);
  eo_closed : own_closed (e_own e) ⊆ own_mutable (e_own e);
}.

(** The limiter charges exactly what the shards hold and what the batch in
    flight has reserved. *)
Record accounted (e : Engine) (pend : option AdmissionPlan) : Prop := {
  ac_census : census (e_limiter e);
  ac_caps : within_caps (e_limiter e);
  ac_present : forall k w, (k, w) ∈ l_present (e_limiter e) <->
    is_Some (stored e k w) \/ exists p, pend = Some p /\ (k, w) ∈ reserved p;
  ac_fresh : forall p k w, pend = Some p -> (k, w) ∈ reserved p -> stored e k w = None;
  ac_resolved : forall p key, pend = Some p -> is_Some (Resolved p !! key) -> key ∈ l_present (e_limiter e);
  ac_reserved : forall p key, pend = Some p -> key ∈ reserved p -> is_Some (Resolved p !! key);
}.

(** A list of windows evicted one after the other. *)
Definition evict_all (shards : list shard) (o : ownership) (ws : list Z)
    : list shard * ownership * list SeriesWindowKey := foldl force_one (shards, o, []) ws.

Lemma evict_all_spec ws : forall shards o rel,
  shards_ok shards ->
  let '(shards', o', released) := foldl force_one (shards, o, rel) ws in
  shards_ok shards' /\
  (forall k w, at_shards shards' k w = if decide (w ∈ ws) then None else at_shards shards k w) /\
  (forall k w, (k, w) ∈ released <-> (k, w) ∈ rel \/ (w ∈ ws /\ is_Some (at_shards shards k w))) /\
  own_mutable o' = own_mutable o ∖ list_to_set ws /\ own_closed o' = own_closed o ∖ list_to_set ws /\
  own_epoch o' = own_epoch o /\ own_watermark o <= own_watermark o' /\ (forall w, w ∈ ws -> w <= own_watermark o').
Proof.
  induction ws as [|w0 ws IH]; intros shards o rel Hok.
  { cbn [foldl]. split_and!; try done; try set_solver; try lia. }
  cbn [foldl]. unfold force_one at 2. pose proof (evict_at shards w0 Hok) as HE.
  destruct (evictWindowLocked shards w0) as [shards1 r]. destruct HE as (Hok1 & G1 & R1).
  specialize (IH shards1 (hand_over o w0) (rel ++ r) Hok1).
  destruct (foldl force_one (shards1, hand_over o w0, rel ++ r) ws) as [[shards' o'] released].
  destruct IH as (Hok' & G' & R' & HM & HC & HEp & HW & HWs).
  cbn [hand_over own_mutable own_closed own_watermark own_epoch] in *.
  assert (own_watermark o <= own_watermark o' /\ w0 <= own_watermark o') as [W1 W2]
    by (destruct (own_watermark o <? w0) eqn:E; z_bool; lia).
  split_and!; try done.
  - intros k w. rewrite G', G1. repeat case_decide; subst; set_solver.
  - intros k w. rewrite R', elem_of_app, R1, G1. case_decide; subst; set_solver.
  - rewrite HM, list_to_set_cons. set_solver.
  - rewrite HC, list_to_set_cons. set_solver.
  - intros w [->|Hw]%elem_of_cons; [done|by apply HWs].
Qed.

(** Evicting windows and releasing what they held keeps the invariant and the
    accounting, unless the batch in flight touches one of them. *)
Lemma evict_keeps e o ws pend :
  engine_ok e -> own_mutable o = own_mutable (e_own e) -> own_closed o ⊆ own_mutable (e_own e) ->
  let '(shards', o', released) := evict_all (e_shards e) o ws in
  let e' := set_limiter (set_memory e shards' o' (e_revision e)) (release_all (e_limiter e) released) in
  engine_ok e' /\
  (forall k w, stored e' k w = if decide (w ∈ ws) then None else stored e k w) /\
  ((forall p k w, pend = Some p -> w ∈ ws -> Resolved p !! (k, w) = None) -> accounted e pend -> accounted e' pend).
Proof.
  intros [Hs Hm Hc] HM HC. pose proof (evict_all_spec ws (e_shards e) o [] Hs) as HE. unfold evict_all.
  destruct (foldl force_one (e_shards e, o, []) ws) as [[shards' o'] released].
  destruct HE as (Hok & HG & HR & HM' & HC' & _). unfold stored in *. cbn [set_limiter set_memory e_shards e_own e_limiter].
  split_and!.
  - constructor; cbn [e_shards e_own set_limiter set_memory]; [done| |].
    + intros w. rewrite HM', HM, elem_of_difference, Hm, elem_of_list_to_set. unfold stored. cbn [e_shards].
      setoid_rewrite HG. destruct (decide (w ∈ ws)) as [D|D].
      * split; [tauto|]. intros (k & d & Hd). done.
      * naive_solver.
    + rewrite HM', HC', HM. set_solver.
  - done.
  - intros Hq [A1 AW A2 A3 A4 A5]. unfold stored in *.
    assert (forall p k w, pend = Some p -> (k, w) ∈ reserved p -> w ∉ ws) as Hres.
    { intros p k w Hp Hr Hw. pose proof (A5 p (k, w) Hp Hr) as Hs'. apply eq_None_not_Some in Hs'; [done|]. exact (Hq p k w Hp Hw). }
    constructor; cbn [e_limiter set_limiter set_memory e_shards]; unfold stored; cbn [e_shards set_limiter set_memory].
    + by apply release_all_census.
    + by apply release_all_caps.
    + intros k w. rewrite release_all_present, elem_of_difference, elem_of_list_to_set, HR, A2, HG.
      rewrite elem_of_nil. case_decide as D; naive_solver.
    + intros p k w Hp Hr. rewrite HG. case_decide; [done|]. by eapply A3.
    + intros p [k w] Hp Hs'. rewrite release_all_present, elem_of_difference, elem_of_list_to_set, HR, elem_of_nil.
      split; [by eapply A4|]. intros [[]|[Hw _]]. apply eq_None_not_Some in Hs'; [done|]. exact (Hq p k w Hp Hw).
    + done.
Qed.

Lemma discarded_ok e a b c pend :
  (engine_ok e -> engine_ok (add_discarded e a b c)) /\ (accounted e pend -> accounted (add_discarded e a b c) pend).
Proof. split; intros []; constructor; done. Qed.

Lemma finalized_keeps e w pend :
  engine_ok e ->
  engine_ok (MarkFinalized e w) /\
  (forall k w', stored (MarkFinalized e w) k w' = if decide (w' = w) then None else stored e k w') /\
  ((forall p k, pend = Some p -> Resolved p !! (k, w) = None) -> accounted e pend -> accounted (MarkFinalized e w) pend).
Proof.
  intros Hok. pose proof (evict_keeps e (e_own e) [w] pend Hok eq_refl (eo_closed e Hok)) as HE.
  unfold evict_all in HE. cbn [foldl force_one] in HE. unfold MarkFinalized.
  destruct (evictWindowLocked (e_shards e) w) as [shards r]. cbn [app] in HE. destruct HE as (H1 & H2 & H3).
  match goal with |- context [if ?b then add_discarded ?e' ?x ?y ?z else _] =>
    assert (forall P : Engine -> Prop, P e' -> P (add_discarded e' x y z) -> P (if b then add_discarded e' x y z else e'))
      as HP by (by destruct b) end.
  split_and!.
  - apply HP; [done|]. by apply (discarded_ok _ _ _ _ None).
  - intros k w'. apply HP; unfold stored in *; cbn [e_shards add_discarded]; rewrite H2; repeat case_decide; set_solver.
  - intros Hq HA. apply HP; [|apply discarded_ok]; apply H3; try done; intros p k w' Hp ->%list_elem_of_singleton; by apply Hq.
Qed.

(** The windows a rollover at [now] forces out, and its closed set. *)
Definition closed_at (e : Engine) (now : time) : gset Z :=
  filter (fun start => start <= FinalizeCutoff now) (own_mutable (e_own e)) ∪ own_closed (e_own e).
Definition forced_at (e : Engine) (now : time) : list Z :=
  overCapClosedLocked (e_maxClosedWindows e) (closed_at e now).

Lemma rollover_keeps e now :
  engine_ok e ->
  let e' := fst (Rollover e now) in
  engine_ok e' /\
  (forall k w, stored e' k w = if decide (w ∈ forced_at e now) then None else stored e k w) /\
  (accounted e None -> accounted e' None).
Proof.
  intros Hok. cbv zeta.
  set (o := mkOwn (own_mutable (e_own e)) (closed_at e now) (own_watermark (e_own e)) (own_epoch (e_own e))).
  pose proof (evict_keeps e o (forced_at e now) None Hok eq_refl) as HE.
  assert (own_closed o ⊆ own_mutable (e_own e)) as HC.
  { pose proof (eo_closed e Hok). unfold o, closed_at. cbn [own_closed]. set_solver. }
  specialize (HE HC). unfold evict_all, o, forced_at, closed_at in HE. unfold Rollover.
  destruct (foldl force_one _ _) as [[shards o'] released]. destruct HE as (H1 & H2 & H3). cbn [fst].
  match goal with |- context [if ?b then add_discarded ?e' ?x ?y ?z else _] =>
    assert (forall P : Engine -> Prop, P e' -> P (add_discarded e' x y z) -> P (if b then add_discarded e' x y z else e'))
      as HP by (by destruct b) end.
  split_and!.
  - apply HP; [done|]. by apply (discarded_ok _ _ _ _ None).
  - intros k w'. apply HP; unfold stored in *; cbn [e_shards add_discarded]; by rewrite H2.
  - intros HA. apply HP; [|apply discarded_ok]; by apply H3.
Qed.

(** ** The admission loop *)

(** The running plan against the limiter it started from. *)
Record planning (l0 : Limiter) (cutoff : Z) (l : Limiter) (plan : AdmissionPlan) : Prop := {
  pl_census : census l;
  pl_caps : within_caps l;
  pl_present : l_present l = l_present l0 ∪ list_to_set (reserved plan);
  pl_fresh : forall key, key ∈ reserved plan -> key ∉ l_present l0;
  pl_resolved : forall key, is_Some (Resolved plan !! key) -> key ∈ l_present l /\ cutoff < snd key;
  pl_reserved : forall key, key ∈ reserved plan -> is_Some (Resolved plan !! key);
}.

Lemma plan_one_planning l0 cutoff l dis plan entry l' dis' plan' :
  planning l0 cutoff l plan -> plan_one cutoff (l, dis, plan) entry = Some (l', dis', plan') ->
  planning l0 cutoff l' plan'.
Proof.
  intros HP. destruct entry as [[key w] d]. unfold plan_one. destruct (w <=? cutoff) eqn:Ew; z_bool.
  { by intros [= <- <- <-]. }
  pose proof (admit_present l key w) as HA. pose proof (admit_census l key w (pl_census _ _ _ _ HP)) as HC.
  pose proof (admit_caps l key w (pl_census _ _ _ _ HP) (pl_caps _ _ _ _ HP)) as HW.
  destruct (Admit l key w) as [l1 adm]. destruct HA as (H1 & H2 & H3 & _). cbn [fst] in HC, HW.
  destruct HP as [P1 PW P2 P3 P4 P5]. set (target := (adm_Key adm, w)) in *.
  assert (forall x, planning l0 cutoff l1
    (mkPlan (<[target := x]> (Resolved plan)) (if adm_Reserved adm then reserved plan ++ [target] else reserved plan))) as HG.
  { intros x. constructor; cbn [Resolved reserved].
    - done.
    - done.
    - rewrite H1, P2. destruct (adm_Reserved adm); set_solver.
    - intros k. destruct (adm_Reserved adm); [|by apply P3].
      rewrite elem_of_app, list_elem_of_singleton. intros [?| ->]; [by apply P3|]. specialize (H3 eq_refl). set_solver.
    - intros k. rewrite lookup_insert. case_decide as D; [intros _; subst k; by split|].
      intros Hs. destruct (P4 k Hs). split; [|done]. rewrite H1. set_solver.
    - intros k Hk. rewrite lookup_insert. case_decide as D; [done|]. apply P5.
      destruct (adm_Reserved adm); [|done]. apply elem_of_app in Hk as [?|Hk%list_elem_of_singleton]; [done|]. by subst. }
  destruct (Resolved plan !! target) as [ex|].
  - destruct (DeltaMerge zero_delta (Some ex)) as [m1|]; [|done]. cbn [mbind option_bind].
    destruct (DeltaMerge m1 (Some d)) as [m2|]; [|done]. intros [= <- <- <-]. apply HG.
  - intros [= <- <- <-]. apply HG.
Qed.

Lemma plan_loop cutoff m : forall l0 l dis plan l' dis' plan',
  planning l0 cutoff l plan -> opt_foldl (plan_one cutoff) (l, dis, plan) m = Some (l', dis', plan') ->
  planning l0 cutoff l' plan'.
Proof.
  induction m as [|entry m IH]; intros l0 l dis plan l' dis' plan' HP E; [by injection E as <- <- <-|].
  apply opt_foldl_cons in E as ([[l1 dis1] plan1] & E1 & E). eapply IH; [|exact E]. by eapply plan_one_planning.
Qed.

Lemma planning_start l cutoff : census l -> within_caps l -> planning l cutoff l (mkPlan ∅ []).
Proof.
  intros HC HW. constructor; cbn [Resolved reserved]; try done; try set_solver.
  intros key [? H]. by rewrite lookup_empty in H.
Qed.

Lemma plan_keeps e m now now' e' p :
  engine_ok e -> PlanAdmission e m now now' = Some (e', p) ->
  engine_ok e' /\
  (accounted e None -> accounted e' (Some p) /\
    forall key, is_Some (Resolved p !! key) -> FinalizeCutoff now' < snd key) /\
  (forall k w, stored e' k w = if decide (m <> [] /\ w ∈ forced_at e now) then None else stored e k w).
Proof.
  intros Hok E. unfold PlanAdmission in E. destruct (length m =? 0)%nat eqn:Em.
  { apply Nat.eqb_eq, length_zero_iff_nil in Em as ->. injection E as <- <-. split; [done|]. split.
    - intros [A1 AW A2 A3 A4 A5]. split; [|by intros key [? ?]]. constructor; try done.
      + intros k w. rewrite A2. split; [intros [?|(? & ? & ?)]; [by left|done]|].
        intros [?|(? & [= <-] & Hn)]; [by left|]. by apply not_elem_of_nil in Hn.
      + intros ? ? ? [= <-] Hn. by apply not_elem_of_nil in Hn.
      + by intros ? ? [= <-] [? Hn].
      + intros ? ? [= <-] Hn. by apply not_elem_of_nil in Hn.
    - intros k w. by rewrite decide_False by tauto. }
  apply Nat.eqb_neq in Em. assert (m <> []) as Hm by (by intros ->).
  destruct (rollover_keeps e now Hok) as (Hok1 & G1 & A1). set (e1 := fst (Rollover e now)) in *.
  destruct (opt_foldl _ _ _) as [[[l dis] plan]|] eqn:EL; [|done]. injection E as <- <-.
  split_and!.
  - by constructor; destruct Hok1.
  - intros HA. destruct (A1 HA) as [B1 BW B2 B3 B4 B5].
    destruct (plan_loop _ _ _ _ _ _ _ _ _ (planning_start (e_limiter e1) (FinalizeCutoff now') B1 BW) EL) as [P1 PW P2 P3 P4 P5].
    split; [|intros key Hk; by apply P4].
    constructor; cbn [e_limiter set_limiter add_discarded]; unfold stored in *; cbn [e_shards set_limiter add_discarded]; try done.
    + intros k w. rewrite P2, elem_of_union, B2, elem_of_list_to_set. naive_solver.
    + intros p k w [= <-] Hr. apply eq_None_not_Some. intros Hs. apply (P3 _ Hr), B2. by left.
    + intros p key [= <-] Hs. by apply P4.
    + intros p key [= <-]. apply P5.
  - intros k w. unfold stored in *. cbn [e_shards set_limiter add_discarded]. rewrite G1.
    destruct (decide (w ∈ forced_at e now)); [rewrite decide_True by done|rewrite decide_False by tauto]; done.
Qed.


Lemma merge_cell_some c d : is_Some (merge_cell c d) -> is_Some c \/ is_Some d.
Proof. destruct c, d; simpl; eauto. Qed.

Lemma commit_keeps e p e' rev :
  engine_ok e -> CommitAdmission e p = Some (e', rev) ->
  engine_ok e' /\ (accounted e (Some p) -> accounted e' None) /\
  (forall k w, stored e' k w = merge_cell (stored e k w) (Resolved p !! (k, w))) /\
  (forall k w, is_Some (stored e' k w) <-> is_Some (stored e k w) \/ is_Some (Resolved p !! (k, w))).
Proof.
  intros Hok E. unfold CommitAdmission in E. destruct (size (Resolved p) =? 0)%nat eqn:Es.
  { apply Nat.eqb_eq, map_size_empty_iff in Es. injection E as <- <-.
    assert (forall k w, Resolved p !! (k, w) = None) as HN by (intros k w; rewrite Es; done).
    split_and!; [done| | |].
    - intros [A1 AW A2 A3 A4 A5]. constructor; try done. intros k w. rewrite A2.
      split; [intros [?|(q & [= <-] & Hr)]; [by left|]|intros [?|(? & ? & _)]; [by left|done]].
      pose proof (A5 p (k, w) eq_refl Hr) as Hs. apply eq_None_not_Some in Hs; [done|]. exact (HN k w).
    - intros k w. rewrite HN. done.
    - intros k w. rewrite HN. split; [by left|]. by intros [?|[? ?]]. }
  destruct (apply_shards 0 (e_shards e) (Resolved p)) as [shards'|] eqn:EA; [|done]. injection E as <- <-.
  destruct (apply_shards_at _ _ _ EA (eo_shards e Hok)) as (Hok' & HS & HG).
  assert (forall k w, is_Some (at_shards shards' k w) <-> is_Some (at_shards (e_shards e) k w) \/ is_Some (Resolved p !! (k, w))) as Hiff.
  { intros k w. split; [rewrite HG; apply merge_cell_some|]. intros [Hs|Hs]; [|by apply HS].
    destruct (Resolved p !! (k, w)) as [d|] eqn:Er; [apply HS; rewrite Er; by eexists|]. rewrite HG, Er. done. }
  unfold stored. cbn [e_shards set_memory]. split_and!; [|  |done|done].
  - constructor; unfold stored; cbn [e_shards e_own set_memory own_mutable own_closed]; [done| |].
    + intros w. setoid_rewrite Hiff. rewrite elem_of_union, (eo_mutable e Hok). unfold windows_of.
      rewrite elem_of_map. setoid_rewrite elem_of_dom. split.
      * intros [([k w'] & -> & Hs)|(k & Hs)]; [exists k; by right|exists k; by left].
      * intros (k & [Hs|Hs]); [right; by exists k|left; by exists (k, w)].
    + pose proof (eo_closed e Hok). set_solver.
  - intros [A1 AW A2 A3 A4 A5]. constructor; unfold stored in *; cbn [e_limiter e_shards set_memory]; try done.
    intros k w. rewrite A2, Hiff. split.
    + intros [?|(q & [= <-] & Hr)]; left; [by left|right; by apply A5].
    + intros [[?|Hs]|(? & ? & _)]; [by left| |done]. by apply A2, A4 with p.
Qed.

Lemma rollback_keeps e p :
  engine_ok e ->
  engine_ok (RollbackAdmission e p) /\ (accounted e (Some p) -> accounted (RollbackAdmission e p) None) /\
  (forall k w, stored (RollbackAdmission e p) k w = stored e k w).
Proof.
  intros Hok. assert (engine_ok (RollbackAdmission e p) /\ (forall k w, stored (RollbackAdmission e p) k w = stored e k w))
    as [H1 H2].
  { unfold RollbackAdmission. destruct (_ =? 0)%nat; [done|]. destruct Hok. by split. }
  split_and!; [done| |done]. intros [A1 AW A2 A3 A4 A5].
  assert (e_limiter (RollbackAdmission e p) = release_all (e_limiter e) (reserved p)) as HL.
  { unfold RollbackAdmission. destruct (_ =? 0)%nat eqn:E; [|done]. by apply Nat.eqb_eq, length_zero_iff_nil in E as ->. }
  constructor; try done; rewrite HL.
  - by apply release_all_census.
  - by apply release_all_caps.
  - intros k w. rewrite release_all_present, elem_of_difference, A2, elem_of_list_to_set, H2. split.
    + intros [[?|(q & [= <-] & ?)] ?]; [by left|done].
    + intros [Hs|(? & ? & _)]; [|done]. split; [by left|]. intros Hr. rewrite (A3 p k w eq_refl Hr) in Hs. by destruct Hs.
Qed.

(** ** The engine under its writer

    The commit goroutine plans a batch, writes it, and then commits or rolls
    back the plan; the finalize goroutine hands windows over at any moment.
    [quiet] restricts the second to windows the batch in flight does not
    touch. *)
Inductive engine_step (quiet : bool) : Engine * option AdmissionPlan -> Engine * option AdmissionPlan -> Prop :=
| step_plan e m now now' e' p :
    PlanAdmission e m now now' = Some (e', p) -> engine_step quiet (e, None) (e', Some p)
| step_commit e p e' rev :
    CommitAdmission e p = Some (e', rev) -> engine_step quiet (e, Some p) (e', None)
| step_rollback e p : engine_step quiet (e, Some p) (RollbackAdmission e p, None)
| step_finalize e pend w :
    (quiet = true -> forall p k, pend = Some p -> Resolved p !! (k, w) = None) ->
    engine_step quiet (e, pend) (MarkFinalized e w, pend).

Inductive engine_run (quiet : bool) (other_id : Z -> Z -> Z) (cfg : EngineConfig)
    : Engine * option AdmissionPlan -> Prop :=
| run_new e : NewEngine other_id cfg = Ok e -> engine_run quiet other_id cfg (e, None)
| run_step s s' : engine_run quiet other_id cfg s -> engine_step quiet s s' -> engine_run quiet other_id cfg s'.

Lemma new_engine_ok other_id cfg e :
  NewEngine other_id cfg = Ok e -> engine_ok e /\ accounted e None.
Proof.
  unfold NewEngine. destruct (LimiterConfig_Validate _); simpl; [done|]. intros [= <-].
  assert (forall k w, at_shards [∅; ∅; ∅; ∅] k w = None) as HN.
  { intros k w. unfold at_shards. destruct (Z.to_nat (shardIndex k)) as [|[|[|[|n]]]]; done. }
  split; constructor; unfold stored; cbn [e_shards e_own e_limiter own_mutable own_closed]; try done.
  - split; [done|]. intros n sh Hn. assert (sh = ∅) as ->.
    { repeat (destruct n as [|n]; [by injection Hn as <-|]). done. }
    split; [by intros w k [? ?]|by intros w win]. 
  - intros w. setoid_rewrite HN. split; [set_solver|]. by intros (? & ? & ?).
  - apply caps_new.
  - intros k w. rewrite HN. split; [set_solver|]. intros [[? ?]|(? & ? & _)]; done.
Qed.

Lemma step_keeps quiet s s' :
  engine_step quiet s s' -> engine_ok (fst s) ->
  engine_ok (fst s') /\ (quiet = true -> accounted (fst s) (snd s) -> accounted (fst s') (snd s')).
Proof.
  intros Hs Hok. destruct Hs as [e m now now' e' p E|e p e' rev E|e p|e pend w Hq]; cbn [fst snd] in *.
  - destruct (plan_keeps _ _ _ _ _ _ Hok E) as (? & HA & _). split; [done|]. intros _ ?. by apply HA.
  - destruct (commit_keeps _ _ _ _ Hok E) as (? & HA & _). split; [done|]. by intros _.
  - destruct (rollback_keeps e p Hok) as (? & ? & _). by split.
  - destruct (finalized_keeps e w pend Hok) as (? & _ & HA). split; [done|]. intros ->. by apply HA, Hq.
Qed.

Lemma run_keeps quiet other_id cfg s :
  engine_run quiet other_id cfg s ->
  engine_ok (fst s) /\ (quiet = true -> accounted (fst s) (snd s)).
Proof.
  induction 1 as [e E|s s' _ [IH1 IH2] Hs]; [destruct (new_engine_ok _ _ _ E); by split|].
  destruct (step_keeps quiet s s' Hs IH1) as [H1 H2]. split; [done|]. intros Hq. apply H2; [done|]. by apply IH2.
Qed.

Lemma elem_of_sort_Z l x : x ∈ sort_Z l <-> x ∈ l.
Proof. unfold sort_Z. by rewrite merge_sort_Permutation. Qed.

Lemma OwnsInMemory_mutable e w : OwnsInMemory (ownershipLocked e) w = true <-> w ∈ own_mutable (e_own e).
Proof.
  unfold OwnsInMemory, ownershipLocked. cbn [Mutable]. rewrite existsb_exists.
  setoid_rewrite <- list_elem_of_In. setoid_rewrite Z.eqb_eq. setoid_rewrite elem_of_sort_Z.
  setoid_rewrite elem_of_elements. split; [by intros (x & Hx & ->)|]. intros. by exists w.
Qed.

(** C1: ownership is exact in every state of the engine, whatever the
    interleaving of commits and finalizations: the shards hold a series only in
    the shard its hash names, a window is owned by memory exactly when some
    shard holds data for it, and a closed window stays owned and readable until
    it is handed over; the snapshot a query takes says the same. *)
Theorem ownership_exact (other_id : Z -> Z -> Z) (cfg : EngineConfig) (e : Engine) (pend : option AdmissionPlan) :
  engine_run false other_id cfg (e, pend) ->
  shards_ok (e_shards e) /\
  (forall w, w ∈ own_mutable (e_own e) <-> exists k, is_Some (stored e k w)) /\
  own_closed (e_own e) ⊆ own_mutable (e_own e) /\
  (forall w, OwnsInMemory (ownershipLocked e) w = true <-> exists k, is_Some (stored e k w)).
Proof.
  intros H. destruct (run_keeps _ _ _ _ H) as [[H1 H2 H3] _]. cbn [fst] in *. split_and!; try done.
  intros w. by rewrite OwnsInMemory_mutable, H2.
Qed.

Lemma active_keys e : shards_ok (e_shards e) ->
  forall k, k ∈ ActiveSeriesKeys e <-> exists w, is_Some (stored e k w).
Proof.
  intros Hok k. unfold ActiveSeriesKeys. rewrite elem_of_union_list. setoid_rewrite list_elem_of_fmap. split.
  - intros (X & (sh & -> & Hsh) & Hk). apply elem_of_union_list in Hk as (Y & HY & Hk).
    apply list_elem_of_fmap in HY as ([w win] & -> & Hw). apply elem_of_map_to_list in Hw. cbn [snd] in Hk.
    exists w. apply (at_shards_in _ _ _ Hok). exists sh. split; [done|]. unfold sh_get. rewrite Hw. cbn. by apply elem_of_dom.
  - intros (w & Hs). apply (at_shards_in _ _ _ Hok) in Hs as (sh & Hsh & Hs). eexists. split; [by exists sh|].
    unfold sh_get in Hs. destruct (sh !! w) as [win|] eqn:E; [|by destruct Hs as [? ?]]. cbn in Hs.
    apply elem_of_union_list. exists (dom win). split; [|by apply elem_of_dom].
    apply list_elem_of_fmap. exists (w, win). split; [done|]. by apply elem_of_map_to_list.
Qed.

(** C2: admission control and memory agree: as long as no window is finalized
    under a batch in flight, the limiter charges exactly the series the shards
    hold plus the reservations of that batch, every cap holds, and between
    batches the live series other than the overflow series are at most the
    configured total: a failed commit leaves nothing charged and an eviction
    releases everything it drops. *)
Theorem occupancy_exact (other_id : Z -> Z -> Z) (cfg : EngineConfig) (e : Engine) (pend : option AdmissionPlan) :
  engine_run true other_id cfg (e, pend) ->
  census (e_limiter e) /\ within_caps (e_limiter e) /\
  (forall k w, (k, w) ∈ l_present (e_limiter e) <->
    is_Some (stored e k w) \/ exists p, pend = Some p /\ (k, w) ∈ reserved p) /\
  (pend = None -> 0 < MaxSeries (l_cfg (e_limiter e)) ->
    Z.of_nat (size (ActiveSeriesKeys e ∖ l_overflow (e_limiter e))) <= MaxSeries (l_cfg (e_limiter e))).
Proof.
  intros H. destruct (run_keeps _ _ _ _ H) as [[H1 _ _] HA]. cbn [fst snd] in *.
  destruct (HA eq_refl) as [A1 AW A2 _ _ _]. split_and!; try done.
  intros -> Hm. etrans; [|by apply (wc_global _ AW)]. apply Nat2Z.inj_le, subseteq_size.
  unfold charged. intros k. rewrite !elem_of_difference, (active_keys e H1). intros [(w & Hs) Ho]. split; [|done].
  apply (cs_dom _ A1), present_windows with w; [done|]. apply A2. by left.
Qed.

(** ** The abstract memory: one map from series and window to delta *)

Definition swap_key (p : Z * SeriesKey) : SeriesKey * Z := (snd p, fst p).

#[global] Instance swap_inj : Inj (=) (=) swap_key.
Proof. by intros [w k] [w' k'] [= -> ->]. Qed.

Definition memory (e : Engine) : gmap SeriesWindowKey AggregateDelta :=
  kmap (M2 := gmap (SeriesKey * Z)) swap_key (map_uncurry (M12 := gmap (Z * SeriesKey)) (by_window (e_shards e))).

Lemma by_window_snoc shards sh w k :
  by_window (shards ++ [sh]) !! w ≫= (.!! k) =
  match sh_get sh w k with Some d => Some d | None => by_window shards !! w ≫= (.!! k) end.
Proof.
  unfold by_window, sh_get. rewrite foldl_app. cbn [foldl]. rewrite lookup_union_with.
  destruct (foldl _ ∅ shards !! w) as [dst|], (sh !! w) as [win|]; cbn; try done.
  - rewrite lookup_union. by destruct (win !! k), (dst !! k).
  - by destruct (win !! k).
Qed.

Lemma by_window_some shards w k :
  (forall d, by_window shards !! w ≫= (.!! k) = Some d -> exists sh, sh ∈ shards /\ sh_get sh w k = Some d) /\
  (by_window shards !! w ≫= (.!! k) = None -> forall sh, sh ∈ shards -> sh_get sh w k = None).
Proof.
  induction shards as [|sh shards [IH1 IH2]] using rev_ind; [split; [done|]; intros _ sh ?%not_elem_of_nil; done|].
  rewrite by_window_snoc. destruct (sh_get sh w k) as [d0|] eqn:E.
  - split; [|done]. intros d [= <-]. exists sh. split; [set_solver|done].
  - split.
    + intros d Hd. destruct (IH1 d Hd) as (sh' & ? & ?). exists sh'. split; [set_solver|done].
    + intros Hn sh' [?| ->%list_elem_of_singleton]%elem_of_app; [by apply IH2|done].
Qed.

Lemma by_window_at shards w k : shards_ok shards -> by_window shards !! w ≫= (.!! k) = at_shards shards k w.
Proof.
  intros Hok. destruct (by_window_some shards w k) as [H1 H2]. pose proof (shardIndex_range k). pose proof (ss_length _ Hok).
  destruct (by_window shards !! w ≫= (.!! k)) as [d|] eqn:E.
  - destruct (H1 d eq_refl) as (sh & Hin & Hd). apply list_elem_of_lookup_1 in Hin as [n Hn].
    pose proof (so_placed _ _ (ss_ok _ Hok n sh Hn) w k ltac:(by rewrite Hd)) as Hp.
    unfold at_shards. by rewrite Hp, Nat2Z.id, Hn.
  - unfold at_shards. destruct (shards !! _) as [sh|] eqn:En; [|done]. cbn.
    rewrite (H2 eq_refl sh); [done|]. by eapply list_elem_of_lookup_2.
Qed.

Lemma memory_at e k w : shards_ok (e_shards e) -> memory e !! (k, w) = stored e k w.
Proof.
  intros Hok. unfold memory. change (k, w) with (swap_key (w, k)).
  rewrite lookup_kmap by apply swap_inj. rewrite lookup_map_uncurry. by apply by_window_at.
Qed.

(** What one abstract step does to the memory. *)
Definition merge_memory (mem batch mem' : gmap SeriesWindowKey AggregateDelta) : Prop :=
  forall key, mem' !! key = merge_cell (mem !! key) (batch !! key).
Definition drop_windows (ws : list Z) (mem : gmap SeriesWindowKey AggregateDelta) : gmap SeriesWindowKey AggregateDelta :=
  filter (fun p => snd (fst p) ∉ ws) mem.

Lemma drop_windows_at ws mem k w :
  drop_windows ws mem !! (k, w) = if decide (w ∈ ws) then None else mem !! (k, w).
Proof.
  unfold drop_windows. rewrite map_lookup_filter.
  destruct (mem !! (k, w)) as [d|] eqn:E; cbn; [|by case_decide].
  repeat case_guard; repeat case_decide; try done.
Qed.

Lemma drop_windows_nil mem : drop_windows [] mem = mem.
Proof. apply map_eq. intros [k w]. rewrite drop_windows_at. rewrite decide_False by apply not_elem_of_nil. done. Qed.

Lemma memory_drop e e' ws :
  engine_ok e -> engine_ok e' ->
  (forall k w, stored e' k w = if decide (w ∈ ws) then None else stored e k w) -> memory e' = drop_windows ws (memory e).
Proof.
  intros [H1 _ _] [H1' _ _] HG. apply map_eq. intros [k w]. rewrite drop_windows_at, !memory_at by done. apply HG.
Qed.

(** C3: the four shards refine one map from series and window to delta:
    planning a batch drops from the map exactly the windows the closed-window
    cap forces out and nothing when the batch is empty; committing merges the
    resolved deltas into the map cell by cell; rolling back does not touch it;
    finalizing removes exactly one window. *)
Theorem shards_refine_memory (e e' : Engine) (m : DeltaMap) (now now' : time) (p : AdmissionPlan) (rev w : Z) :
  engine_ok e ->
  (PlanAdmission e m now now' = Some (e', p) ->
    memory e' = drop_windows (if decide (m = []) then [] else forced_at e now) (memory e)) /\
  (CommitAdmission e p = Some (e', rev) -> merge_memory (memory e) (Resolved p) (memory e')) /\
  memory (RollbackAdmission e p) = memory e /\
  memory (MarkFinalized e w) = drop_windows [w] (memory e).
Proof.
  intros Hok. split_and!.
  - intros E. destruct (plan_keeps _ _ _ _ _ _ Hok E) as (Hok' & _ & HG). apply memory_drop; [done|done|].
    intros k w0. rewrite HG. destruct (decide (m = [])) as [D|D].
    + rewrite decide_False by tauto. by rewrite decide_False by apply not_elem_of_nil.
    + destruct (decide (w0 ∈ forced_at e now)); [by rewrite decide_True by done|by rewrite decide_False by tauto].
  - intros E [k w0]. destruct (commit_keeps _ _ _ _ Hok E) as (Hok' & _ & HG & _).
    rewrite !memory_at by (by apply eo_shards). apply HG.
  - destruct (rollback_keeps e p Hok) as (Hok' & _ & HG). rewrite <- (drop_windows_nil (memory e)).
    apply memory_drop; [done|done|]. intros. rewrite HG. by rewrite decide_False by apply not_elem_of_nil.
  - destruct (finalized_keeps e w None Hok) as (Hok' & HG & _). apply memory_drop; [done|done|].
    intros k w0. rewrite HG. destruct (decide (w0 = w)) as [->|D].
    + by rewrite decide_True by set_solver.
    + by rewrite decide_False by set_solver.
Qed.

(** ** A concrete engine *)

Definition demo_engine_cfg : EngineConfig := mkEngineConfig (demo_cfg 0) 0 0 0 "e".
Definition demo_other (tenant kind : Z) : Z := 0.
Definition demo_engine : Engine :=
  match NewEngine demo_other demo_engine_cfg with
  | Ok e => e
  | Err _ => mkEngine (NewLimiter (demo_cfg 0)) (NewBaselineTracker (mkTrackerConfig 0 0 0)) [] (mkOwn ∅ ∅ 0 "") 0 0 0 0 0
  end.
(** One log point of a series in a window. *)
Definition demo_point (name window : Z) : SeriesWindowKey * AggregateDelta :=
  (demo_key name 1, window, logs_delta [(t_of_unix window, false)]).
Definition demo_batch : DeltaMap := [demo_point 7 300; demo_point 8 600].
Definition demo_now : time := t_of_unix 1000.

Lemma demo_engine_new : NewEngine demo_other demo_engine_cfg = Ok demo_engine.
Proof. vm_compute. reflexivity. Qed.

Lemma demo_engine_ok : engine_ok demo_engine.
Proof. apply (new_engine_ok _ _ _ demo_engine_new). Qed.

Lemma no_sketch_merges a b :
  d_Sketch a = None -> d_Sketch b = None -> exists c, DeltaMerge a (Some b) = Some c /\ d_Sketch c = None.
Proof. intros Ha Hb. unfold DeltaMerge, merge_sketch. rewrite Hb. cbn [mbind option_bind]. eexists. split; [done|]. done. Qed.

Lemma demo_engine_empty k w d : stored demo_engine k w = Some d -> d_Sketch d = None.
Proof.
  assert (forall n sh, e_shards demo_engine !! n = Some sh -> sh = ∅) as HN.
  { intros n sh. change (e_shards demo_engine) with [∅ : gmap Z (gmap SeriesKey AggregateDelta); ∅; ∅; ∅].
    do 4 (destruct n as [|n]; [by intros [= <-]|]). done. }
  unfold stored, at_shards. destruct (e_shards demo_engine !! _) as [sh|] eqn:E; [|done]. by rewrite (HN _ _ E).
Qed.

Definition demo_planned : Engine * AdmissionPlan :=
  default (demo_engine, mkPlan ∅ []) (PlanAdmission demo_engine demo_batch demo_now demo_now).
Definition demo_committed : Engine * Z :=
  default (demo_engine, 0) (CommitAdmission (fst demo_planned) (snd demo_planned)).
Definition demo_applied : Engine := fst demo_committed.

Lemma demo_plans : PlanAdmission demo_engine demo_batch demo_now demo_now = Some (fst demo_planned, snd demo_planned).
Proof. rewrite <- surjective_pairing. apply default_holds. vm_compute. reflexivity. Qed.

Lemma demo_commits : CommitAdmission (fst demo_planned) (snd demo_planned) = Some (demo_applied, snd demo_committed).
Proof. unfold demo_applied. rewrite <- surjective_pairing. apply default_holds. vm_compute. reflexivity. Qed.

Lemma demo_run quiet : engine_run quiet demo_other demo_engine_cfg (demo_applied, None).
Proof.
  eapply run_step; [|eapply step_commit, demo_commits].
  eapply run_step; [|eapply step_plan, demo_plans]. apply run_new, demo_engine_new.
Qed.

Lemma demo_applied_ok : engine_ok demo_applied.
Proof. apply (run_keeps false _ _ _ (demo_run false)). Qed.

Lemma ownership_exact_witness :
  OwnsInMemory (ownershipLocked demo_applied) 600 = true /\ exists k, is_Some (stored demo_applied k 600).
Proof.
  destruct (ownership_exact demo_other demo_engine_cfg demo_applied None (demo_run false)) as (_ & _ & _ & H).
  assert (OwnsInMemory (ownershipLocked demo_applied) 600 = true) as E by (vm_compute; reflexivity).
  split; [exact E|]. apply H. exact E.
Defined.

Lemma occupancy_exact_witness : census (e_limiter demo_applied) /\ within_caps (e_limiter demo_applied).
Proof.
  destruct (occupancy_exact demo_other demo_engine_cfg demo_applied None (demo_run true)) as (H1 & H2 & _).
  split; [exact H1|exact H2].
Defined.

Lemma shards_refine_memory_witness :
  merge_memory (memory (fst demo_planned)) (Resolved (snd demo_planned)) (memory demo_applied).
Proof.
  assert (engine_ok (fst demo_planned)) as Hok by (apply (plan_keeps _ _ _ _ _ _ demo_engine_ok demo_plans)).
  exact (proj1 (proj2 (shards_refine_memory (fst demo_planned) demo_applied [] 0 0 (snd demo_planned) (snd demo_committed) 0 Hok))
    demo_commits).
Defined.
