(* ===== verification/TopoIdentity.v ===== *)
(** * TopoIdentity: the names of a series

    Reversing dictionary IDs into names ([internal/aggregate/query.go]), the
    topology identity of a reduced series ([internal/aggregate/topology.go])
    and the account of points whose name overflowed
    ([internal/aggregate/identity_coverage.go]). *)
From S2P Require Import Prelude SeriesKey Dict.
#[local] Open Scope Z_scope.

(* internal/aggregate/topology.go:218-218 topoKind *)
Inductive topoKind := topoTrace | topoEdge | topoMetric | topoLog.

#[global] Instance topoKind_eq_dec : EqDecision topoKind.
Proof. solve_decision. Defined.

(* internal/aggregate/topology.go:236-247 topoIdentity *)
Record topoIdentity := mkTopoIdentity {
  ti_Kind : topoKind;
  ti_Tenant : string;
  ti_A : string;
  ti_B : string;
  ti_IdentityLimited : bool;
}.

#[global] Instance topoIdentity_eq_dec : EqDecision topoIdentity.
Proof. solve_decision. Defined.

Section Names.
Context {R : Type} `{Registrar R} `{Resolver R} `{identityFinder R}.
Implicit Types c : Cache R.

(* internal/aggregate/query.go:713-719 Engine.nameByID *)
Definition nameByID c (id : Z) : string := from_option de_Value "" (c_Lookup c id).

(* internal/aggregate/query.go:708-708 Engine.serviceNameByID *)
Definition serviceNameByID c (id : Z) : string := nameByID c id.

(* internal/aggregate/query.go:702-704 Engine.serviceName *)
Definition serviceName c (key : SeriesKey) : string := serviceNameByID c (ServiceID key).

(* internal/aggregate/query.go:725-727 Engine.edgeEnds *)
Definition edgeEnds c (key : SeriesKey) : string * string := (nameByID c (ServiceID key), nameByID c (NameID key)).

(* internal/aggregate/identity_coverage.go:48-55 Engine.identityLimited *)
Definition identityLimited c (key : SeriesKey) : bool :=
  existsb (fun id => negb (id =? 0) && String.eqb (nameByID c id) OtherValue) [ServiceID key; NameID key; DimsID key].

(** The kind of the facts of a signal. *)
Definition kind_of_signal (s : Z) : option topoKind :=
  if s =? SignalTraceOp then Some topoTrace
  else if s =? SignalServiceEdge then Some topoEdge
  else if s =? SignalMetric then Some topoMetric
  else if s =? SignalLog then Some topoLog
  else None.

(* internal/aggregate/topology.go:254-281 Engine.topoIdentityFor *)
Definition topoIdentityFor c (key : SeriesKey) : option topoIdentity :=
  match kind_of_signal (KSignal key) with
  | None => None
  | Some kind =>
      let tenant := nameByID c (TenantID key) in
      let a := nameByID c (ServiceID key) in
      if String.eqb tenant "" || String.eqb a "" then None
      else
        let b := nameByID c (NameID key) in
        if String.eqb b "" && negb (bool_decide (kind = topoTrace)) then None
        else Some (mkTopoIdentity kind tenant a b (identityLimited c key))
  end.

(** One name of the selection: its ID, unless it is unknown or already there. *)
Definition select_one (tenantID : Z) (acc : Cache R * list Z * gset Z) (name : string) : Cache R * list Z * gset Z :=
  let '(c, ids, seen) := acc in
  match c_FindID c tenantID KindService name with
  | (c, Some id) => if bool_decide (id ∈ seen) then (c, ids, seen) else (c, ids ++ [id], {[id]} ∪ seen)
  | (c, None) => (c, ids, seen)
  end.

(** [None] is the absent list, which narrows nothing. *)
(* internal/aggregate/identity_coverage.go:60-80 Engine.selectedServiceIDs *)
Definition selectedServiceIDs c (tenantID : Z) (services : list string) : Cache R * option (list Z) :=
  if Z.of_nat (length services) =? 0 then (c, None)
  else
    match rFindID (R := R) with
    | None => (c, None)
    | Some _ =>
        let '(c, ids, _) := foldl (select_one tenantID) (c, [0], ∅) (services ++ [OtherValue]) in
        (c, Some ids)
    end.

End Names.

(** ** Coverage *)

(* internal/aggregate/identity_coverage.go:7-12 IdentityCoverage *)
Record IdentityCoverage := mkCoverage { TracePoints : Z; EdgePoints : Z; MetricPoints : Z; LogPoints : Z }.

Definition no_coverage : IdentityCoverage := mkCoverage 0 0 0 0.

(* internal/aggregate/identity_coverage.go:14-16 IdentityCoverage.Limited *)
Definition Limited (c : IdentityCoverage) : bool :=
  negb (TracePoints c =? 0) || negb (EdgePoints c =? 0) || negb (MetricPoints c =? 0) || negb (LogPoints c =? 0).

(* internal/aggregate/identity_coverage.go:18-29 IdentityCoverage.add *)
Definition coverage_add (c : IdentityCoverage) (signal count : Z) : IdentityCoverage :=
  if signal =? SignalTraceOp then mkCoverage (u64 (TracePoints c + count)) (EdgePoints c) (MetricPoints c) (LogPoints c)
  else if signal =? SignalServiceEdge then mkCoverage (TracePoints c) (u64 (EdgePoints c + count)) (MetricPoints c) (LogPoints c)
  else if signal =? SignalMetric then mkCoverage (TracePoints c) (EdgePoints c) (u64 (MetricPoints c + count)) (LogPoints c)
  else if signal =? SignalLog then mkCoverage (TracePoints c) (EdgePoints c) (MetricPoints c) (u64 (LogPoints c + count))
  else c.

(** The sum of two accounts, field by field. *)
Definition coverage_sum (a b : IdentityCoverage) : IdentityCoverage :=
  mkCoverage (u64 (TracePoints a + TracePoints b)) (u64 (EdgePoints a + EdgePoints b))
    (u64 (MetricPoints a + MetricPoints b)) (u64 (LogPoints a + LogPoints b)).

(* internal/aggregate/identity_coverage.go:38-44 identityMatchesFilter *)
Definition identityMatchesFilter (name : string) (filter : option (gset string)) : bool :=
  match filter with
  | None => true
  | Some names => if String.eqb name OtherValue then true else bool_decide (name ∈ names)
  end.
