(* ===== verification/Reducer.v ===== *)
(** * Reducer: one export's points into deltas ([internal/aggregate/reducer.go])

    A reducer collapses the spans, logs and metric points of one export into
    deltas by series and window.  It works on the shared parts of the engine,
    the dictionary cache, the template miner and the cumulative baselines;
    these are passed along in an [Ingest] record.  A delta whose sketch
    panics stops the reduction: the operations return [option]. *)
From S2P Require Import Prelude SeriesKey Routes Float64 Dict Dims Gc TemplateMiner TopoIdentity.
From S2P Require Import Sketch Histogram Delta Limiter Baseline Engine.
From Stdlib Require Import Ascii.
#[local] Open Scope Z_scope.

(** The names of a delta's series and window. *)
Abbreviation SeriesWindow := (SeriesKey * Z)%type (only parsing).

(** ** Accounting *)

(* internal/aggregate/reducer.go:35-35 signalCount *)
Definition signalCount : nat := Z.to_nat signalMax + 1.

(** The arrays are indexed by signal. *)
(* internal/aggregate/reducer.go:38-68 ReducerStats *)
Record ReducerStats := mkStats {
  s_InputPoints : list Z;
  s_LatePoints : list Z;
  s_FuturePoints : list Z;
  s_Accepted : list Z;
  s_StaleCumulative : Z;
  s_DimsRejected : Z;
  s_TenantsRejected : Z;
  s_ErrorsByService : gmap string Z;
}.

Definition zeros : list Z := replicate signalCount 0.
Definition zero_stats : ReducerStats := mkStats zeros zeros zeros zeros 0 0 0 ∅.

(** [a[signal]++] *)
Definition inc_at (a : list Z) (signal : Z) : list Z := alter inc (Z.to_nat signal) a.

Definition add_all (a b : list Z) : list Z := zip_with (fun x y => u64 (x + y)) a b.

(* internal/aggregate/reducer.go:71-87 ReducerStats.merge *)
Definition stats_merge (s other : ReducerStats) : ReducerStats :=
  mkStats (add_all (s_InputPoints s) (s_InputPoints other)) (add_all (s_LatePoints s) (s_LatePoints other))
    (add_all (s_FuturePoints s) (s_FuturePoints other)) (add_all (s_Accepted s) (s_Accepted other))
    (u64 (s_StaleCumulative s + s_StaleCumulative other)) (u64 (s_DimsRejected s + s_DimsRejected other))
    (u64 (s_TenantsRejected s + s_TenantsRejected other))
    (union_with (fun a b => Some (u64 (a + b))) (s_ErrorsByService s) (s_ErrorsByService other)).

(** ** Inputs *)

(* internal/aggregate/reducer.go:92-117 SpanInput *)
Record SpanInput := mkSpanInput {
  sp_Tenant : string;
  sp_Service : string;
  sp_SpanName : bstr;
  sp_HTTPRoute : bstr;
  sp_URLPath : bstr;
  sp_Method : string;
  sp_HTTPStatusCode : Z;
  sp_SpanKind : Z;
  sp_StatusCode : Z;
  sp_Root : bool;
  sp_Timestamp : time;
  sp_DurationMicros : f64;
}.

(* internal/aggregate/reducer.go:360-381 EdgeInput *)
Record EdgeInput := mkEdgeInput {
  ed_Tenant : string;
  ed_Caller : string;
  ed_Callee : string;
  ed_HTTPRoute : bstr;
  ed_URLPath : bstr;
  ed_SpanName : bstr;
  ed_Method : string;
  ed_HTTPStatusCode : Z;
  ed_SpanKind : Z;
  ed_StatusCode : Z;
  ed_Root : bool;
  ed_Timestamp : time;
  ed_DurationMicros : f64;
}.

(* internal/aggregate/reducer.go:120-130 LogInput *)
Record LogInput := mkLogInput {
  lo_Tenant : string;
  lo_Service : string;
  lo_Severity : bstr;
  lo_SeverityNumber : Z;
  lo_Body : bstr;
  lo_Timestamp : time;
}.

(* internal/aggregate/reducer.go:133-154 MetricInput *)
Record MetricInput := mkMetricInput {
  mi_Tenant : string;
  mi_Service : string;
  mi_Name : string;
  mi_Value : f64;
  mi_Timestamp : time;
  mi_StartTime : time;
  mi_Temporality : Temporality;
  mi_Monotonic : bool;
  mi_Resource : ResourceIdentity;
  mi_Attributes : list (option KeyValue);
  mi_ResourceAttributes : list (option KeyValue);
}.

(** The part of the common fields of a histogram point that names it; the
    rest, with the buckets, is the [Histogram.v] input. *)
Record PointNames := mkPointNames {
  pn_Tenant : string;
  pn_Service : string;
  pn_Name : string;
  pn_Timestamp : time;
  pn_Temporality : Temporality;
  pn_Attributes : list (option KeyValue);
  pn_ResourceAttributes : list (option KeyValue);
}.

(** ** Verdicts on metric points *)

(* internal/aggregate/reducer.go:492-492 MetricPointOutcome *)
Inductive MetricPointOutcome :=
| MetricPointAccepted
| MetricPointExcluded
| MetricPointRejectedTemporality
| MetricPointRejectedMalformed
| MetricPointRejectedValue.

(* internal/aggregate/reducer.go:513-524 MetricPointResult *)
Record MetricPointResult := mkPointResult {
  mr_Outcome : MetricPointOutcome;
  mr_Reason : string;
  mr_Err : option malformed;
  mr_SketchDropped : bool;
  mr_DropReason : SketchDropReason;
}.

Definition verdict (o : MetricPointOutcome) (reason : string) : MetricPointResult := mkPointResult o reason None false SketchDropNone.

(* internal/aggregate/reducer.go:528-530 MetricPointResult.Rejected *)
Definition Rejected (r : MetricPointResult) : bool :=
  match mr_Outcome r with
  | MetricPointRejectedTemporality | MetricPointRejectedMalformed | MetricPointRejectedValue => true
  | _ => false
  end.

Definition ReasonCumulativeTemporality : string := "cumulative_temporality".
Definition ReasonUnspecifiedTemporality : string := "unspecified_temporality".
Definition ReasonMalformedPoint : string := "malformed_point".
Definition ReasonUnsupportedType : string := "unsupported_type".
Definition ReasonNonFiniteValue : string := "non_finite_value".

(* internal/aggregate/reducer.go:555-564 checkHistogramTemporality *)
Definition checkHistogramTemporality (t : Temporality) : MetricPointResult * bool :=
  if t =? TemporalityDelta then (verdict MetricPointAccepted "", true)
  else if t =? TemporalityCumulative then (verdict MetricPointRejectedTemporality ReasonCumulativeTemporality, false)
  else (verdict MetricPointRejectedTemporality ReasonUnspecifiedTemporality, false).

(** ** Severity *)

(** What [strings.ToUpper] leaves of a text for a search of ASCII words: the
    ASCII letters in upper case, and the two runes outside ASCII whose upper
    case is an ASCII letter, U+0131 and U+017F.  Other bytes stay, where Go
    may change them into other bytes that are not ASCII. *)
Fixpoint ToUpper (s : bstr) : bstr :=
  match s with
  | c :: ((d :: rest) as tl) =>
      if is_char 196 c && is_char 177 d then ascii_of_N 73 :: ToUpper rest
      else if is_char 197 c && is_char 191 d then ascii_of_N 83 :: ToUpper rest
      else (if between 97 122 c then ascii_of_N (ord c - 32) else c) :: ToUpper tl
  | [c] => [if between 97 122 c then ascii_of_N (ord c - 32) else c]
  | [] => []
  end.

Fixpoint has_prefix (pre s : bstr) : bool :=
  match pre, s with
  | [], _ => true
  | p :: pre, c :: s => bool_decide (p = c) && has_prefix pre s
  | _ :: _, [] => false
  end.

(** [strings.Contains] *)
Fixpoint Contains (s sub : bstr) : bool :=
  has_prefix sub s || match s with [] => false | _ :: s => Contains s sub end.

(* internal/aggregate/reducer.go:667-690 SeverityTier *)
Definition SeverityTier (text : bstr) (number : Z) : Z :=
  if 0 <? number then SeverityTierFromNumber number
  else
    let upper := ToUpper text in
    if Contains upper (lit "FATAL") || Contains upper (lit "CRIT") then SeverityTierFatal
    else if Contains upper (lit "ERR") then SeverityTierError
    else if Contains upper (lit "WARN") then SeverityTierWarn
    else if Contains upper (lit "DEBUG") then SeverityTierDebug
    else if Contains upper (lit "TRACE") then SeverityTierTrace
    else if Contains upper (lit "INFO") then SeverityTierInfo
    else if bool_decide (upper = []) then SeverityTierUnspecified
    else SeverityTierInfo.

(* internal/aggregate/reducer.go:321-323 IsRequestSpan *)
Definition IsRequestSpan (root : bool) (spanKind : Z) : bool := root || (VariantFromSpanKind spanKind =? SpanKindServer).

(** ** The reducer *)

(* internal/aggregate/reducer.go:157-172 Reducer *)
Record Reducer := mkReducer {
  rd_arrival : time;
  rd_deltas : gmap SeriesWindow AggregateDelta;
  rd_stats : ReducerStats;
  rd_ids : gmap SeriesWindow topoIdentity;
}.

(* internal/aggregate/reducer.go:177-179 Engine.NewReducer *)
Definition NewReducer (arrival : time) : Reducer := mkReducer arrival ∅ zero_stats ∅.

(* internal/aggregate/reducer.go:192-192 Reducer.Len *)
Definition rd_Len (r : Reducer) : Z := Z.of_nat (size (rd_deltas r)).

Definition set_stats (r : Reducer) (s : ReducerStats) : Reducer := mkReducer (rd_arrival r) (rd_deltas r) s (rd_ids r).
Definition set_deltas (r : Reducer) deltas : Reducer := mkReducer (rd_arrival r) deltas (rd_stats r) (rd_ids r).
Definition set_rids (r : Reducer) ids : Reducer := mkReducer (rd_arrival r) (rd_deltas r) (rd_stats r) ids.

(** [r.stats.Accepted[signal]++] *)
Definition accept (r : Reducer) (signal : Z) : Reducer :=
  let s := rd_stats r in
  set_stats r (mkStats (s_InputPoints s) (s_LatePoints s) (s_FuturePoints s) (inc_at (s_Accepted s) signal)
    (s_StaleCumulative s) (s_DimsRejected s) (s_TenantsRejected s) (s_ErrorsByService s)).

(** The increments of the other counters. *)
Definition count_input (r : Reducer) (signal : Z) : Reducer :=
  let s := rd_stats r in
  set_stats r (mkStats (inc_at (s_InputPoints s) signal) (s_LatePoints s) (s_FuturePoints s) (s_Accepted s)
    (s_StaleCumulative s) (s_DimsRejected s) (s_TenantsRejected s) (s_ErrorsByService s)).
Definition count_late (r : Reducer) (signal : Z) : Reducer :=
  let s := rd_stats r in
  set_stats r (mkStats (s_InputPoints s) (inc_at (s_LatePoints s) signal) (s_FuturePoints s) (s_Accepted s)
    (s_StaleCumulative s) (s_DimsRejected s) (s_TenantsRejected s) (s_ErrorsByService s)).
Definition count_future (r : Reducer) (signal : Z) : Reducer :=
  let s := rd_stats r in
  set_stats r (mkStats (s_InputPoints s) (s_LatePoints s) (inc_at (s_FuturePoints s) signal) (s_Accepted s)
    (s_StaleCumulative s) (s_DimsRejected s) (s_TenantsRejected s) (s_ErrorsByService s)).
Definition count_other (r : Reducer) (stale dims tenants : bool) (errors : gmap string Z) : Reducer :=
  let s := rd_stats r in
  set_stats r (mkStats (s_InputPoints s) (s_LatePoints s) (s_FuturePoints s) (s_Accepted s)
    (inc_if stale (s_StaleCumulative s)) (inc_if dims (s_DimsRejected s)) (inc_if tenants (s_TenantsRejected s)) errors).

(* internal/aggregate/reducer.go:282-295 Reducer.admitPoint *)
Definition admitPoint (r : Reducer) (signal : Z) (ts : time) : Reducer * option Z :=
  let r := count_input r signal in
  match Classify (rd_arrival r) ts with
  | (_, PointLate) => (count_late r signal, None)
  | (_, PointFuture) => (count_future r signal, None)
  | (window, _) => (r, Some window)
  end.

(* internal/aggregate/reducer.go:298-303 Reducer.countError *)
Definition countError (r : Reducer) (service : string) : Reducer :=
  let errors := s_ErrorsByService (rd_stats r) in
  count_other r false false false (<[service := inc (default 0 (errors !! service))]> errors).

(** [r.delta(key, window)] and the observation on it. *)
(* internal/aggregate/reducer.go:230-241 Reducer.delta *)
Definition delta (r : Reducer) (key : SeriesKey) (window : Z) : AggregateDelta := default zero_delta (rd_deltas r !! (key, window)).

Definition observed (r : Reducer) (key : SeriesKey) (window : Z) (d : AggregateDelta) : Reducer :=
  set_deltas r (<[(key, window) := d]> (rd_deltas r)).

Section Merging.
Context `{GoMath}.

(** One entry of the other reducer's deltas.  The keys are distinct, so the
    order in which Go visits the map does not matter; a panic in one merge is
    a panic of the whole. *)
Definition merge_one (deltas : gmap SeriesWindow AggregateDelta) (e : SeriesWindow * AggregateDelta)
    : option (gmap SeriesWindow AggregateDelta) :=
  match deltas !! e.1 with
  | Some cur => d ← DeltaMerge cur (Some e.2); Some (<[e.1 := d]> deltas)
  | None => Some (<[e.1 := e.2]> deltas)
  end.

(* internal/aggregate/reducer.go:196-217 Reducer.MergeFrom *)
Definition MergeFrom (r : Reducer) (other : option Reducer) : option Reducer :=
  match other with
  | None => Some r
  | Some o =>
      deltas ← opt_foldl merge_one (rd_deltas r) (map_to_list (rd_deltas o));
      Some (mkReducer (rd_arrival r) deltas (stats_merge (rd_stats r) (rd_stats o)) (rd_ids o ∪ rd_ids r))
  end.

End Merging.

(* internal/aggregate/reducer.go:221-227 Reducer.deltaCountBySignal *)
Definition deltaCountBySignal (r : Reducer) : gmap Z Z :=
  foldr (fun k out => <[KSignal k.1 := inc (default 0 (out !! KSignal k.1))]> out) ∅ (fst <$> map_to_list (rd_deltas r)).

Section Reducing.
Context `{GoMath} `{FloatText} {R : Type} `{Registrar R} `{Resolver R} `{identityFinder R}.

(** The parts of the engine a reducer works on; [g_rejected] is what the
    metrics recorder was told of refused tenants, newest first. *)
Record Ingest := mkIngest {
  g_cache : Cache R;
  g_miner : TemplateMiner;
  g_engine : Engine;
  g_dims : DimsConfig;
  g_rejected : list Z;
}.

Definition set_cache (g : Ingest) (c : Cache R) : Ingest := mkIngest c (g_miner g) (g_engine g) (g_dims g) (g_rejected g).
Definition set_mining (g : Ingest) (m : TemplateMiner) (c : Cache R) : Ingest := mkIngest c m (g_engine g) (g_dims g) (g_rejected g).
Definition set_tracker (g : Ingest) (b : BaselineTracker) : Ingest :=
  mkIngest (g_cache g) (g_miner g) (set_baselines (g_engine g) b) (g_dims g) (g_rejected g).

(* internal/aggregate/reducer.go:308-311 Reducer.rejectTenant *)
Definition rejectTenant (g : Ingest) (r : Reducer) (signal : Z) : Ingest * Reducer :=
  (mkIngest (g_cache g) (g_miner g) (g_engine g) (g_dims g) (signal :: g_rejected g),
   count_other r false false true (s_ErrorsByService (rd_stats r))).

(* internal/aggregate/reducer.go:245-260 Reducer.identify *)
Definition identify (g : Ingest) (r : Reducer) (key : SeriesKey) (window : Z) (id : topoIdentity) : Reducer :=
  match rd_ids r !! (key, window) with
  | Some _ => r
  | None => set_rids r (<[(key, window) := default id (topoIdentityFor (g_cache g) key)]> (rd_ids r))
  end.

(** One entry of the identity map under the limiter's census. *)
Definition topology_id (g : Ingest) (swk : SeriesWindow) (id : topoIdentity) : option topoIdentity :=
  match admittedKey (e_limiter (g_engine g)) swk.1 swk.2 with
  | (_, false) => None
  | (key, true) =>
      if bool_decide (key = swk.1) then Some id
      else Some (default id (topoIdentityFor (g_cache g) key))
  end.

(** Writing and deleting entries of the map being visited touches only the
    entry at hand. *)
(* internal/aggregate/reducer.go:264-278 Reducer.topologyIDs *)
Definition topologyIDs (g : Ingest) (r : Reducer) : gmap SeriesWindow topoIdentity := map_imap (topology_id g) (rd_ids r).

(** [r.eng.cache.Intern] and [InternTenant]. *)
Definition intern (g : Ingest) (tenantID kind : Z) (value : string) : Ingest * Z :=
  let '(c, id) := Intern (g_cache g) tenantID kind value in (set_cache g c, id).
Definition intern_tenant (g : Ingest) (name : string) : Ingest * option Z :=
  let '(c, id) := InternTenant (g_cache g) name in (set_cache g c, id).

(* internal/aggregate/reducer.go:326-354 Reducer.ReduceSpan *)
Definition ReduceSpan (g : Ingest) (r : Reducer) (in_ : SpanInput) : option (Ingest * Reducer) :=
  match admitPoint r SignalTraceOp (sp_Timestamp in_) with
  | (r, None) => Some (g, r)
  | (r, Some window) =>
      match intern_tenant g (sp_Tenant in_) with
      | (g, None) => Some (rejectTenant g r SignalTraceOp)
      | (g, Some tenantID) =>
          let operation := str_of (NormalizeOperation (sp_HTTPRoute in_) (sp_URLPath in_) (sp_SpanName in_)) in
          let '(g, serviceID) := intern g tenantID KindService (sp_Service in_) in
          let '(g, nameID) := intern g tenantID KindOperation operation in
          let key := mkSeriesKey tenantID serviceID nameID 0 SignalTraceOp (TraceStatusFromCode (sp_StatusCode in_))
            (HTTPClassFromStatus (sp_HTTPStatusCode in_)) (ParseMethod (sp_Method in_)) (VariantFromSpanKind (sp_SpanKind in_)) in
          let isError := KStatusClass key =? StatusError in
          d ← ObserveSpan (delta r key window) (sp_DurationMicros in_) isError (IsRequestSpan (sp_Root in_) (sp_SpanKind in_));
          let r := identify g (observed r key window d) key window
            (mkTopoIdentity topoTrace (sp_Tenant in_) (sp_Service in_) operation false) in
          let r := accept r SignalTraceOp in
          Some (g, if isError then countError r (sp_Service in_) else r)
      end
  end.

(* internal/aggregate/reducer.go:390-420 Reducer.ReduceEdge *)
Definition ReduceEdge (g : Ingest) (r : Reducer) (in_ : EdgeInput) : option (Ingest * Reducer) :=
  if String.eqb (ed_Caller in_) "" || String.eqb (ed_Callee in_) "" || String.eqb (ed_Caller in_) (ed_Callee in_) then Some (g, r)
  else
    match admitPoint r SignalServiceEdge (ed_Timestamp in_) with
    | (r, None) => Some (g, r)
    | (r, Some window) =>
        match intern_tenant g (ed_Tenant in_) with
        | (g, None) => Some (rejectTenant g r SignalServiceEdge)
        | (g, Some tenantID) =>
            let '(g, serviceID) := intern g tenantID KindService (ed_Caller in_) in
            let '(g, nameID) := intern g tenantID KindOperation (ed_Callee in_) in
            let key := mkSeriesKey tenantID serviceID nameID 0 SignalServiceEdge (TraceStatusFromCode (ed_StatusCode in_))
              (HTTPClassFromStatus (ed_HTTPStatusCode in_)) (ParseMethod (ed_Method in_)) (VariantFromSpanKind (ed_SpanKind in_)) in
            let isError := KStatusClass key =? StatusError in
            d ← ObserveSpan (delta r key window) (ed_DurationMicros in_) isError (IsRequestSpan (ed_Root in_) (ed_SpanKind in_));
            let r := identify g (observed r key window d) key window
              (mkTopoIdentity topoEdge (ed_Tenant in_) (ed_Caller in_) (ed_Callee in_) false) in
            Some (g, accept r SignalServiceEdge)
        end
    end.

(* internal/aggregate/reducer.go:425-451 Reducer.ReduceLog *)
Definition ReduceLog (g : Ingest) (r : Reducer) (in_ : LogInput) : option (Ingest * Reducer) :=
  match admitPoint r SignalLog (lo_Timestamp in_) with
  | (r, None) => Some (g, r)
  | (r, Some window) =>
      match intern_tenant g (lo_Tenant in_) with
      | (g, None) => Some (rejectTenant g r SignalLog)
      | (g, Some tenantID) =>
          let '(m, c, (templateID, _)) :=
            MineAt (g_miner g) (g_cache g) (lo_Tenant in_) (lo_Service in_) (str_of (lo_Severity in_)) (lo_Body in_) (rd_arrival r) in
          let g := set_mining g m c in
          let tier := SeverityTier (lo_Severity in_) (lo_SeverityNumber in_) in
          let '(g, serviceID) := intern g tenantID KindService (lo_Service in_) in
          let key := mkSeriesKey tenantID serviceID templateID 0 SignalLog tier 0 0 0 in
          let isError := SeverityTierError <=? tier in
          let r := observed r key window (ObserveLog (delta r key window) (lo_Timestamp in_) isError) in
          let r := identify g r key window (mkTopoIdentity topoLog (lo_Tenant in_) (lo_Service in_) "" false) in
          let r := accept r SignalLog in
          Some (g, if isError then countError r (lo_Service in_) else r)
      end
  end.

(* internal/aggregate/reducer.go:460-476 Reducer.dimsIDFor *)
Definition dimsIDFor (g : Ingest) (r : Reducer) (tenantID : Z) (metricName : string)
    (attrs resourceAttrs : list (option KeyValue)) : Ingest * Reducer * Z :=
  let keys := Get (g_dims g) metricName in
  if Z.of_nat (length keys) =? 0 then (g, r, 0)
  else
    let '(values, rejected, ok) := resolveWith keys attrs resourceAttrs in
    let r := if rejected then count_other r false true false (s_ErrorsByService (rd_stats r)) else r in
    if negb ok then (g, r, 0)
    else
      let '(c, id) := InternDimValues (g_cache g) tenantID keys (default [] values) in
      (set_cache g c, r, id).

(* internal/aggregate/reducer.go:481-489 Reducer.metricSeriesKey *)
Definition metricSeriesKey (g : Ingest) (r : Reducer) (tenantID : Z) (service name : string)
    (attrs resourceAttrs : list (option KeyValue)) : Ingest * Reducer * SeriesKey :=
  let '(g, serviceID) := intern g tenantID KindService service in
  let '(g, nameID) := intern g tenantID KindMetricName name in
  let '(g, r, dimsID) := dimsIDFor g r tenantID name attrs resourceAttrs in
  (g, r, mkSeriesKey tenantID serviceID nameID dimsID SignalMetric 0 0 0 0).

(* internal/aggregate/reducer.go:567-586 Reducer.reduceFold *)
Definition reduceFold (g : Ingest) (r : Reducer) (c : PointNames) (fold : HistogramFold)
    : option (Ingest * Reducer * MetricPointResult) :=
  match admitPoint r SignalMetric (pn_Timestamp c) with
  | (r, None) => Some (g, r, verdict MetricPointExcluded "")
  | (r, Some window) =>
      match intern_tenant g (pn_Tenant c) with
      | (g, None) => Some (rejectTenant g r SignalMetric, verdict MetricPointExcluded "")
      | (g, Some tenantID) =>
          let '(g, r, key) := metricSeriesKey g r tenantID (pn_Service c) (pn_Name c) (pn_Attributes c) (pn_ResourceAttributes c) in
          d ← ObserveHistogram (delta r key window) fold;
          let r := identify g (observed r key window d) key window
            (mkTopoIdentity topoMetric (pn_Tenant c) (pn_Service c) (pn_Name c) false) in
          Some (g, accept r SignalMetric,
            mkPointResult MetricPointAccepted "" None (hf_PercentilesUnavailable fold) (hf_DropReason fold))
      end
  end.

(** Both histogram shapes after their fold. *)
Definition reduce_folded (g : Ingest) (r : Reducer) (c : PointNames) (fold : result malformed (option HistogramFold))
    : option (Ingest * Reducer * MetricPointResult) :=
  match fold with
  | Err err => Some (g, r, mkPointResult MetricPointRejectedMalformed ReasonMalformedPoint (Some err) false SketchDropNone)
  | Ok fold => f ← fold; reduceFold g r c f
  end.

(* internal/aggregate/reducer.go:590-599 Reducer.ReduceHistogramPoint *)
Definition ReduceHistogramPoint (g : Ingest) (r : Reducer) (c : PointNames) (in_ : HistogramInput)
    : option (Ingest * Reducer * MetricPointResult) :=
  match checkHistogramTemporality (pn_Temporality c) with
  | (res, false) => Some (g, r, res)
  | (_, true) => reduce_folded g r c (FoldHistogram in_)
  end.

(* internal/aggregate/reducer.go:603-612 Reducer.ReduceExponentialHistogramPoint *)
Definition ReduceExponentialHistogramPoint (g : Ingest) (r : Reducer) (c : PointNames) (in_ : ExponentialHistogramInput)
    : option (Ingest * Reducer * MetricPointResult) :=
  match checkHistogramTemporality (pn_Temporality c) with
  | (res, false) => Some (g, r, res)
  | (_, true) => reduce_folded g r c (FoldExponentialHistogram in_)
  end.

(** The last steps of an accepted scalar point. *)
Definition accept_point (g : Ingest) (r : Reducer) (in_ : MetricInput) (key : SeriesKey) (window : Z) (d : AggregateDelta)
    : Ingest * Reducer * MetricPointResult :=
  let r := identify g (observed r key window d) key window
    (mkTopoIdentity topoMetric (mi_Tenant in_) (mi_Service in_) (mi_Name in_) false) in
  (g, accept r SignalMetric, verdict MetricPointAccepted "").

(* internal/aggregate/reducer.go:616-661 Reducer.ReduceMetricPoint *)
Definition ReduceMetricPoint (g : Ingest) (r : Reducer) (in_ : MetricInput) : Ingest * Reducer * MetricPointResult :=
  if f_is_nan (mi_Value in_) || f_is_inf (mi_Value in_) then (g, r, verdict MetricPointRejectedValue ReasonNonFiniteValue)
  else
    match admitPoint r SignalMetric (mi_Timestamp in_) with
    | (r, None) => (g, r, verdict MetricPointExcluded "")
    | (r, Some window) =>
        match intern_tenant g (mi_Tenant in_) with
        | (g, None) => (rejectTenant g r SignalMetric, verdict MetricPointExcluded "")
        | (g, Some tenantID) =>
            let '(g, r, key) := metricSeriesKey g r tenantID (mi_Service in_) (mi_Name in_) (mi_Attributes in_) (mi_ResourceAttributes in_) in
            if IsGaugeLike (mi_Temporality in_) (mi_Monotonic in_) then
              accept_point g r in_ key window (ObserveGauge (delta r key window) (mi_Value in_) (mi_Timestamp in_))
            else if mi_Temporality in_ =? TemporalityDelta then
              accept_point g r in_ key window (ObserveCounter (delta r key window) (mi_Value in_) false)
            else
              let '(t, out) := ObserveCumulative (e_baselines (g_engine g)) key (ResolveProducerID (mi_Resource in_))
                (mi_StartTime in_) (mi_Timestamp in_) (mi_Value in_) in
              let g := set_tracker g t in
              if o_Ignored out then
                (g, count_other r true false false (s_ErrorsByService (rd_stats r)), verdict MetricPointExcluded "")
              else accept_point g r in_ key window (ObserveCounter (delta r key window) (o_Delta out) (o_Reset out))
        end
    end.

End Reducing.

Arguments Ingest : clear implicits.
