(* ===== verification/ReducerFacts.v ===== *)
(** * ReducerFacts: what the reduction of an export keeps true

    Whatever points an export holds, however it is split into reducers that
    are merged, and whatever the shared state of the engine is at each point:
    every point is accounted for once, every accepted point is in exactly one
    delta, and every delta lies on a valid series of a window that is open. *)
From S2P Require Import Prelude SeriesKey Routes Float64 Dict Dims Gc TemplateMiner TopoIdentity.
From S2P Require Import Sketch Histogram Delta Limiter Baseline Engine Reducer.
#[local] Open Scope Z_scope.

(** ** Counters in arrays *)

Definition total (a : list Z) : Z := foldr Z.add 0 a.

Lemma total_inc_at a i : (Z.to_nat i < length a)%nat -> eq64 (total (inc_at a i)) (total a + 1).
Proof.
  unfold inc_at. generalize (Z.to_nat i). induction a as [|x a IH]; intros [|n] Hn; cbn [length] in Hn; try lia;
    cbn [alter list_alter total foldr]; fold (total a).
  - unfold inc. rewrite u64_eq64. by replace (x + 1 + total a) with (x + total a + 1) by lia.
  - fold (total (alter inc n a)). rewrite IH by lia. by replace (x + (total a + 1)) with (x + total a + 1) by lia.
Qed.

Lemma total_add_all a : forall b, length a = length b -> eq64 (total (add_all a b)) (total a + total b).
Proof.
  induction a as [|x a IH]; intros [|y b] Hl; cbn [length] in Hl; try lia; [done|].
  cbn [add_all zip_with total foldr]. fold (add_all a b) (total (add_all a b)) (total a) (total b).
  rewrite IH by lia. rewrite u64_eq64. by replace (x + y + (total a + total b)) with (x + total a + (y + total b)) by lia.
Qed.

Definition at_signal (a : list Z) (signal : Z) : Z := default 0 (a !! Z.to_nat signal).

Lemma at_signal_inc a s s' : 0 <= s < Z.of_nat (length a) -> 0 <= s' ->
  at_signal (inc_at a s) s' = if s =? s' then inc (at_signal a s') else at_signal a s'.
Proof.
  intros Hs Hs'. unfold at_signal, inc_at. destruct (Z.eqb_spec s s') as [<-|Hne].
  - rewrite list_lookup_alter_eq. destruct (lookup_lt_is_Some_2 a (Z.to_nat s)) as [x ->]; [lia|done].
  - by rewrite list_lookup_alter_ne by lia.
Qed.

Lemma at_signal_add a b s : length a = length b -> eq64 (at_signal (add_all a b) s) (at_signal a s + at_signal b s).
Proof.
  intros Hl. unfold at_signal, add_all. rewrite lookup_zip_with.
  destruct (a !! Z.to_nat s) as [x|] eqn:Ea; cbn [mbind option_bind].
  - destruct (lookup_lt_is_Some_2 b (Z.to_nat s)) as [y ->]; [apply lookup_lt_Some in Ea; lia|]. apply u64_eq64.
  - rewrite (lookup_ge_None_2 b) by (apply lookup_ge_None in Ea; lia). done.
Qed.

(** ** The account of the points *)

Definition spent (s : ReducerStats) : Z :=
  total (s_LatePoints s) + total (s_FuturePoints s) + total (s_Accepted s) + s_TenantsRejected s + s_StaleCumulative s.

(** [k] points are counted as input and not yet as anything else. *)
Record balance (k : Z) (s : ReducerStats) : Prop := {
  ba_lengths : length (s_InputPoints s) = signalCount /\ length (s_LatePoints s) = signalCount /\
    length (s_FuturePoints s) = signalCount /\ length (s_Accepted s) = signalCount;
  ba_total : eq64 (total (s_InputPoints s)) (spent s + k);
}.

Lemma length_inc_at a s : length (inc_at a s) = length a.
Proof. apply length_alter. Qed.

Lemma length_add_all (a b : list Z) : length a = length b -> length (add_all a b) = length a.
Proof. intros H. unfold add_all. rewrite length_zip_with. lia. Qed.

Definition is_signal (s : Z) : Prop := 0 <= s <= signalMax.

Lemma signal_slot s (a : list Z) : is_signal s -> length a = signalCount -> (Z.to_nat s < length a)%nat.
Proof. unfold is_signal, signalCount, signalMax, SignalMetric. lia. Qed.

Ltac balance_step s :=
  let H1 := fresh in let H2 := fresh in let H3 := fresh in let H4 := fresh in let E := fresh in
  intros [(H1 & H2 & H3 & H4) E]; constructor;
  [cbn; rewrite ?length_inc_at; by split_and!
  |unfold spent in *; cbn [rd_stats set_stats count_input count_late count_future accept count_other s_InputPoints s_LatePoints s_FuturePoints s_Accepted s_TenantsRejected s_StaleCumulative];
   rewrite ?total_inc_at by (by apply signal_slot); rewrite ?E; unfold inc_if, inc; rewrite ?u64_eq64; by apply eq64_eq; lia].

Lemma balance_input k r s : is_signal s -> balance k (rd_stats r) -> balance (k + 1) (rd_stats (count_input r s)).
Proof. intros Hs. balance_step s. Qed.

Lemma balance_late k r s : is_signal s -> balance k (rd_stats r) -> balance (k - 1) (rd_stats (count_late r s)).
Proof. intros Hs. balance_step s. Qed.

Lemma balance_future k r s : is_signal s -> balance k (rd_stats r) -> balance (k - 1) (rd_stats (count_future r s)).
Proof. intros Hs. balance_step s. Qed.

Lemma balance_accept k r s : is_signal s -> balance k (rd_stats r) -> balance (k - 1) (rd_stats (accept r s)).
Proof. intros Hs. balance_step s. Qed.

Lemma balance_other k r stale dims tenants errors :
  balance k (rd_stats r) -> balance (k - Z.b2z stale - Z.b2z tenants) (rd_stats (count_other r stale dims tenants errors)).
Proof. destruct stale, tenants; cbn [Z.b2z]; balance_step 0. Qed.

Lemma balance_merge k k' s o : balance k s -> balance k' o -> balance (k + k') (stats_merge s o).
Proof.
  intros [(H1 & H2 & H3 & H4) E] [(K1 & K2 & K3 & K4) F]. constructor.
  - cbn. rewrite !length_add_all by congruence. done.
  - unfold spent in *. cbn [stats_merge s_InputPoints s_LatePoints s_FuturePoints s_Accepted s_TenantsRejected s_StaleCumulative].
    rewrite !total_add_all, E, F, !u64_eq64 by congruence. apply eq64_eq. lia.
Qed.

(** ** The invariant of a reducer *)

Definition weight (signal : Z) (deltas : gmap SeriesWindow AggregateDelta) : Z :=
  map_sum (fun swk d => if KSignal swk.1 =? signal then d_Count (d_counts d) else 0) deltas.

Definition open_window (arrival : time) (w : Z) : Prop := exists ts, Classify arrival ts = (w, PointAccepted).

Section Facts.
Context `{GoMath}.

Lemma built_count n d : built n d -> d_Count (d_counts d) = u64 n.
Proof.
  induction 1 as [|n d micros e r d' Hb IH E|n d ts e Hb IH|n d v ts Hb IH|n d v r Hb IH|n d f d' Hb IH E
    |n m d o d' Hb IH Hb' IH' E]; try done.
  - unfold ObserveSpan, observeDuration in E. destruct (Observe _ _); [|done]. injection E as <-. cbn. unfold inc. by rewrite IH, wrapu_add_l.
  - cbn. unfold inc. by rewrite IH, wrapu_add_l.
  - cbn. unfold inc. by rewrite IH, wrapu_add_l.
  - cbn. unfold inc. by rewrite IH, wrapu_add_l.
  - unfold ObserveHistogram in E. destruct (merge_sketch _ _); [|done]. injection E as <-. cbn. unfold inc. by rewrite IH, wrapu_add_l.
  - unfold DeltaMerge in E. destruct (merge_sketch _ _); [|done]. injection E as <-. cbn. by rewrite IH, IH', wrapu_add_l, wrapu_add_r.
Qed.

Record reducer_inv (arrival : time) (k : Z) (r : Reducer) : Prop := {
  ri_arrival : rd_arrival r = arrival;
  ri_balance : balance k (rd_stats r);
  ri_accepted : forall s, is_signal s -> at_signal (s_Accepted (rd_stats r)) s = u64 (weight s (rd_deltas r));
  ri_delta : forall key w d, rd_deltas r !! (key, w) = Some d -> (exists n, 0 < n /\ built n d) /\ Validate key = None /\ open_window arrival w;
  ri_ids : dom (rd_ids r) = dom (rd_deltas r);
}.

Lemma NewReducer_inv arrival : reducer_inv arrival 0 (NewReducer arrival).
Proof.
  constructor; [done|by constructor| |by intros key w d; cbn; rewrite lookup_empty|done].
  intros s Hs. unfold is_signal, signalMax, SignalMetric in Hs. assert (s = 0 \/ s = 1 \/ s = 2 \/ s = 3 \/ s = 4) as Hc by lia.
  naive_solver.
Qed.

(** Steps that touch the statistics only. *)
Lemma inv_stats arrival k k' r s : reducer_inv arrival k r -> s_Accepted s = s_Accepted (rd_stats r) -> balance k' s ->
  reducer_inv arrival k' (set_stats r s).
Proof. intros [A B C D I] E Hb. constructor; [done|done|cbn; by rewrite E|done|done]. Qed.

Lemma admitPoint_inv arrival k r s ts r' o : is_signal s -> reducer_inv arrival k r -> admitPoint r s ts = (r', o) ->
  match o with
  | None => reducer_inv arrival k r'
  | Some w => reducer_inv arrival (k + 1) r' /\ open_window arrival w
  end.
Proof.
  intros Hs Hi. unfold admitPoint. pose proof (ri_arrival _ _ _ Hi) as Ha.
  assert (reducer_inv arrival (k + 1) (count_input r s)) as Hi1.
  { eapply inv_stats; [exact Hi|done|]. apply balance_input; [done|]. apply (ri_balance _ _ _ Hi). }
  cbn [rd_arrival count_input set_stats]. rewrite Ha. destruct (Classify arrival ts) as [w []] eqn:E; intros [= <- <-].
  - split; [done|]. by exists ts.
  - replace k with (k + 1 - 1) by lia. eapply inv_stats; [exact Hi1|done|]. apply balance_late; [done|]. apply (ri_balance _ _ _ Hi1).
  - replace k with (k + 1 - 1) by lia. eapply inv_stats; [exact Hi1|done|]. apply balance_future; [done|]. apply (ri_balance _ _ _ Hi1).
Qed.

Lemma count_other_inv arrival k r stale dims tenants errors : reducer_inv arrival k r ->
  reducer_inv arrival (k - Z.b2z stale - Z.b2z tenants) (count_other r stale dims tenants errors).
Proof. intros Hi. eapply inv_stats; [exact Hi|done|]. apply balance_other, (ri_balance _ _ _ Hi). Qed.

Lemma countError_inv arrival k r service : reducer_inv arrival k r -> reducer_inv arrival k (countError r service).
Proof. intros Hi. pose proof (count_other_inv arrival k r false false false (<[service := inc (default 0 (s_ErrorsByService (rd_stats r) !! service))]> (s_ErrorsByService (rd_stats r))) Hi) as Hc. cbn [Z.b2z] in Hc. by rewrite !Z.sub_0_r in Hc. Qed.

(** *** A point lands *)

Lemma weight_set s deltas swk d d' :
  d_Count (d_counts d') = inc (d_Count (d_counts d)) -> default zero_delta (deltas !! swk) = d ->
  eq64 (weight s (<[swk := d']> deltas)) (weight s deltas + if KSignal swk.1 =? s then 1 else 0).
Proof.
  intros Ec <-. unfold weight. rewrite map_sum_set, Ec. unfold inc.
  destruct (KSignal swk.1 =? s) eqn:Es; destruct (deltas !! swk) as [d0|]; cbn [from_option id];
    rewrite ?Es, ?u64_eq64; apply eq64_eq; cbn; lia.
Qed.

(** The fields the invariant reads after [identify] and [accept]. *)
Lemma land_inv {R} `{Registrar R} `{Resolver R} arrival r (g : Ingest R) key w d' nm s :
  reducer_inv arrival 1 r -> Validate key = None -> open_window arrival w -> KSignal key = s -> is_signal s ->
  (forall n, 0 <= n -> built n (delta r key w) -> built (n + 1) d') ->
  reducer_inv arrival 0 (accept (identify g (observed r key w d') key w nm) s).
Proof.
  intros [A B C D I] Hv Hw Hs Hsig Hd.
  assert (exists n, 0 <= n /\ built n (delta r key w)) as (n & Hn & Hb).
  { unfold delta. destruct (rd_deltas r !! (key, w)) as [d|] eqn:E; cbn [from_option id default].
    - destruct (D _ _ _ E) as ((n & ? & ?) & _). exists n. split; [lia|done].
    - exists 0. split; [lia|constructor]. }
  pose proof (Hd n Hn Hb) as Hb'.
  assert (d_Count (d_counts d') = inc (d_Count (d_counts (delta r key w)))) as Ec.
  { rewrite (built_count _ _ Hb'), (built_count _ _ Hb). unfold inc. by rewrite wrapu_add_l. }
  assert (rd_stats (identify g (observed r key w d') key w nm) = rd_stats r) as Es by (unfold identify; by destruct (_ !! _)).
  assert (rd_deltas (identify g (observed r key w d') key w nm) = <[(key, w) := d']> (rd_deltas r)) as Ed by (unfold identify; by destruct (_ !! _)).
  assert (rd_arrival (identify g (observed r key w d') key w nm) = rd_arrival r) as Ea by (unfold identify; by destruct (_ !! _)).
  constructor.
  - cbn. by rewrite Ea.
  - replace 0 with (1 - 1) by lia. apply balance_accept; [done|]. by rewrite Es.
  - intros s' Hs'. cbn [rd_stats accept set_stats s_Accepted rd_deltas]. rewrite Es, Ed.
    unfold is_signal in Hsig, Hs'. rewrite at_signal_inc; [|rewrite (proj2 (proj2 (proj2 (ba_lengths _ _ B)))); by split; [lia|unfold signalCount; lia]|lia].
    pose proof (weight_set s' (rd_deltas r) (key, w) (delta r key w) d' Ec eq_refl) as Hwt. cbn [fst] in Hwt. rewrite Hs in Hwt.
    unfold eq64 in Hwt. rewrite Hwt, C by done. destruct (s =? s'); [unfold inc; by rewrite wrapu_add_l|by rewrite Z.add_0_r].
  - intros key' w' d. cbn [rd_deltas accept set_stats]. rewrite Ed, lookup_insert. destruct (decide _) as [[= <- <-]|]; [|apply D].
    intros [= <-]. split_and!; [exists (n + 1); split; [lia|done]|done|done].
  - cbn [rd_ids rd_deltas accept set_stats]. rewrite Ed. unfold identify. cbn [rd_ids observed set_deltas].
    destruct (rd_ids r !! (key, w)) as [x|] eqn:Ex; cbn [rd_ids set_rids observed set_deltas]; rewrite dom_insert_L.
    + assert ((key, w) ∈ dom (rd_deltas r)) by (rewrite <- I; by apply elem_of_dom_2 in Ex). rewrite I. set_solver.
    + by rewrite dom_insert_L, I.
Qed.

(** *** Merging two reducers *)

Definition entry_weight (s : Z) (swk : SeriesWindow) (d : AggregateDelta) : Z :=
  if KSignal swk.1 =? s then d_Count (d_counts d) else 0.

Definition list_weight (s : Z) (l : list (SeriesWindow * AggregateDelta)) : Z :=
  foldr (fun e acc => entry_weight s e.1 e.2 + acc) 0 l.

Lemma list_weight_map s m : list_weight s (map_to_list m) = weight s m.
Proof.
  unfold list_weight, weight, map_sum. rewrite map_fold_foldr. induction (map_to_list m) as [|[k d] l IH]; [done|].
  cbn [foldr]. rewrite IH. unfold entry_weight. cbn [fst snd uncurry].
  by destruct (KSignal k.1 =? s).
Qed.

Definition delta_ok (arrival : time) (swk : SeriesWindow) (d : AggregateDelta) : Prop :=
  (exists n, 0 < n /\ built n d) /\ Validate swk.1 = None /\ open_window arrival swk.2.

Lemma merge_one_spec arrival m e m' :
  map_Forall (delta_ok arrival) m -> delta_ok arrival e.1 e.2 -> merge_one m e = Some m' ->
  map_Forall (delta_ok arrival) m' /\ dom m' = {[e.1]} ∪ dom m /\
  forall s, eq64 (weight s m') (weight s m + entry_weight s e.1 e.2).
Proof.
  intros Hm He E. unfold merge_one in E.
  assert (exists d', m' = <[e.1 := d']> m /\ delta_ok arrival e.1 d' /\
    eq64 (d_Count (d_counts d')) (from_option (fun d => d_Count (d_counts d)) 0 (m !! e.1) + d_Count (d_counts e.2)))
    as (d' & -> & Hok & Hc).
  { destruct e as [swk d]. cbn [fst snd] in *. destruct He as ((n & Hn & Hb) & Hv & Hw). destruct (m !! swk) as [cur|] eqn:Ec.
    - destruct (DeltaMerge cur (Some d)) as [d'|] eqn:Ed; [|done]. injection E as <-. exists d'. split; [done|].
      destruct (Hm _ _ Ec) as ((n0 & Hn0 & Hb0) & _ & _). assert (built (n0 + n) d') as Hb' by (by eapply built_merge).
      split; [split_and!; [exists (n0 + n); split; [lia|done]|done|done]|].
      cbn [from_option]. rewrite (built_count _ _ Hb'), (built_count _ _ Hb0), (built_count _ _ Hb), !u64_eq64. done.
    - injection E as <-. exists d. split; [done|]. split; [split_and!; eauto|]. cbn [from_option]. by apply eq64_eq. }
  split_and!.
  - by apply map_Forall_insert_2.
  - by rewrite dom_insert_L.
  - intros s. unfold weight, entry_weight. rewrite map_sum_set.
    destruct (m !! e.1) as [cur|]; cbn [from_option] in *; destruct (KSignal e.1.1 =? s); rewrite ?Hc; apply eq64_eq; lia.
Qed.

Lemma merge_fold_spec arrival l : forall m m', map_Forall (delta_ok arrival) m -> Forall (fun e => delta_ok arrival e.1 e.2) l ->
  opt_foldl merge_one m l = Some m' ->
  map_Forall (delta_ok arrival) m' /\ dom m' = list_to_set (fst <$> l) ∪ dom m /\
  forall s, eq64 (weight s m') (weight s m + list_weight s l).
Proof.
  induction l as [|e l IH]; intros m m' Hm Hl.
  - intros [= <-]. split_and!; [done|set_solver|intros s; apply eq64_eq; cbn; lia].
  - rewrite opt_foldl_cons. intros (m1 & E1 & E2). apply Forall_cons in Hl as [He Hl].
    destruct (merge_one_spec _ _ _ _ Hm He E1) as (H1 & D1 & W1). destruct (IH _ _ H1 Hl E2) as (H2 & D2 & W2).
    split_and!; [done|cbn; rewrite D2, D1; set_solver|]. intros s. rewrite W2, W1.
    change (list_weight s (e :: l)) with (entry_weight s e.1 e.2 + list_weight s l). apply eq64_eq. lia.
Qed.

Lemma keys_dom (m : gmap SeriesWindow AggregateDelta) : list_to_set (fst <$> map_to_list m) =@{gset SeriesWindow} dom m.
Proof.
  apply set_eq. intros x. rewrite elem_of_list_to_set, list_elem_of_fmap, elem_of_dom. split.
  - intros ([k d] & -> & Hin%elem_of_map_to_list). by exists d.
  - intros [d Hd]. exists (x, d). split; [done|]. by apply elem_of_map_to_list.
Qed.

Lemma MergeFrom_inv arrival r o r' : reducer_inv arrival 0 r -> reducer_inv arrival 0 o ->
  MergeFrom r (Some o) = Some r' -> reducer_inv arrival 0 r'.
Proof.
  intros [A B C D I] [A' B' C' D' I']. cbn [MergeFrom]. destruct (opt_foldl _ _ _) as [deltas|] eqn:E; [|done]. intros [= <-].
  destruct (merge_fold_spec arrival _ _ _ ltac:(intros [key w] d; apply D) ltac:(apply Forall_forall; intros [[key w] d] Hin%elem_of_map_to_list; by apply D') E)
    as (Hok & Hdom & Hw).
  constructor; [done|apply (balance_merge 0 0); done| | |].
  - intros s Hs. cbn [rd_stats stats_merge s_Accepted rd_deltas].
    assert (length (s_Accepted (rd_stats r)) = length (s_Accepted (rd_stats o))) as Hl.
    { transitivity signalCount; [|symmetry]; [apply (ba_lengths _ _ B)|apply (ba_lengths _ _ B')]. }
    pose proof (at_signal_add _ _ s Hl) as Ha. rewrite (C s Hs), (C' s Hs), <- list_weight_map, !u64_eq64, list_weight_map in Ha.
    assert (in_u 64 (at_signal (add_all (s_Accepted (rd_stats r)) (s_Accepted (rd_stats o))) s)) as Hin.
    { unfold at_signal, add_all. rewrite lookup_zip_with. assert (in_u 64 0) by (unfold in_u; lia).
      destruct (s_Accepted (rd_stats r) !! _); cbn [mbind option_bind from_option]; [|done].
      destruct (s_Accepted (rd_stats o) !! _); cbn [mbind option_bind from_option fmap option_fmap option_map]; [|done]. by apply wrapu_range. }
    rewrite <- (u64_small (at_signal _ _)) by exact Hin. rewrite Hw, Ha, list_weight_map. done.
  - intros key w d. apply (Hok (key, w)).
  - cbn [rd_ids rd_deltas]. rewrite Hdom, dom_union_L, I, I', keys_dom. done.
Qed.

End Facts.

(** ** One point *)

(** What the receivers hand a reducer. *)
Inductive point :=
| PSpan (i : SpanInput)
| PEdge (i : EdgeInput)
| PLog (i : LogInput)
| PMetric (i : MetricInput)
| PHistogram (c : PointNames) (i : HistogramInput)
| PExponential (c : PointNames) (i : ExponentialHistogramInput).

Section Points.
Context `{GoMath} `{FloatText} {R : Type} `{Registrar R} `{Resolver R} `{identityFinder R}.
Implicit Types g : Ingest R.

Definition reduce_point g (r : Reducer) (p : point) : option (Ingest R * Reducer) :=
  match p with
  | PSpan i => ReduceSpan g r i
  | PEdge i => ReduceEdge g r i
  | PLog i => ReduceLog g r i
  | PMetric i => let '(g, r, _) := ReduceMetricPoint g r i in Some (g, r)
  | PHistogram c i => fst <$> ReduceHistogramPoint g r c i
  | PExponential c i => fst <$> ReduceExponentialHistogramPoint g r c i
  end.

Lemma span_key_valid t s n sig status code method kind : sig = SignalTraceOp \/ sig = SignalServiceEdge ->
  Validate (mkSeriesKey t s n 0 sig (TraceStatusFromCode status) (HTTPClassFromStatus code) (ParseMethod method) (VariantFromSpanKind kind)) = None.
Proof.
  intros Hs. pose proof (TraceStatusFromCode_range status). pose proof (HTTPClassFromStatus_range code).
  pose proof (ParseMethod_range method). pose proof (VariantFromSpanKind_range kind).
  unfold Validate. cbn [KSignal KHTTPClass KMethod KStatusClass KVariant]. unfold Signal_Valid, httpClassMax, methodMax, statusMax, spanKindMax.
  unfold signalMax, HTTPClass5xx, MethodOther, StatusError, SpanKindConsumer, SignalTraceOp, SignalServiceEdge, SignalMetric in *.
  destruct Hs as [-> | ->]; go_cases; done.
Qed.

Lemma log_key_valid t s n tier : 0 <= tier <= 6 -> Validate (mkSeriesKey t s n 0 SignalLog tier 0 0 0) = None.
Proof. intros Ht. unfold Validate. cbn. unfold severityTierMax, SeverityTierFatal. go_cases; done. Qed.

Lemma SeverityTier_range text number : 0 <= SeverityTier text number <= 6.
Proof. unfold SeverityTier. destruct (0 <? number); [apply SeverityTierFromNumber_range|]. repeat case_match; by vm_compute. Qed.

Lemma rejectTenant_inv arrival g r s : reducer_inv arrival 1 r -> reducer_inv arrival 0 (rejectTenant g r s).2.
Proof.
  intros Hi. pose proof (count_other_inv arrival 1 r false false true (s_ErrorsByService (rd_stats r)) Hi) as Hc.
  cbn [Z.b2z] in Hc. by replace (1 - 0 - 1) with 0 in Hc by lia.
Qed.

Lemma metricSeriesKey_inv arrival k g r t service name a ra g' r' key : reducer_inv arrival k r ->
  metricSeriesKey g r t service name a ra = (g', r', key) ->
  reducer_inv arrival k r' /\ Validate key = None /\ KSignal key = SignalMetric.
Proof.
  intros Hi. unfold metricSeriesKey. destruct (intern g t KindService service) as [g1 sid]. destruct (intern g1 t KindMetricName name) as [g2 nid].
  destruct (dimsIDFor g2 r t name a ra) as [[g3 r3] did] eqn:E. intros [= <- <- <-]. split; [|done].
  assert (forall (b : bool), reducer_inv arrival k (if b then count_other r false true false (s_ErrorsByService (rd_stats r)) else r)) as Hb.
  { intros []; [|done]. pose proof (count_other_inv arrival k r false true false (s_ErrorsByService (rd_stats r)) Hi) as Hc.
    cbn [Z.b2z] in Hc. by rewrite !Z.sub_0_r in Hc. }
  unfold dimsIDFor in E. destruct (_ =? 0); [by injection E as <- <- <-|].
  destruct (resolveWith _ _ _) as [[values rejected] ok]. destruct (negb ok); [injection E as <- <- <-; apply Hb|].
  destruct (InternDimValues _ _ _ _) as [c id]. injection E as <- <- <-. apply Hb.
Qed.

Lemma ReduceSpan_inv arrival g r i g' r' : reducer_inv arrival 0 r -> ReduceSpan g r i = Some (g', r') -> reducer_inv arrival 0 r'.
Proof.
  intros Hi. unfold ReduceSpan. destruct (admitPoint _ _ _) as [r1 o] eqn:Ea.
  apply (admitPoint_inv arrival 0) in Ea; [|by vm_compute|done]. destruct o as [w|]; [|by intros [= <- <-]]. destruct Ea as [Hi1 Hw].
  destruct (intern_tenant g _) as [g1 [t|]]; [|intros [= <- <-]; by apply (rejectTenant_inv arrival g1 r1 0)].
  destruct (intern g1 t KindService _) as [g2 sid]. destruct (intern g2 t KindOperation _) as [g3 nid].
  set (key := mkSeriesKey _ _ _ _ _ _ _ _ _). destruct (ObserveSpan _ _ _ _) as [d|] eqn:Ed; [|done]. cbn [mbind option_bind].
  intros [= <- <-]. assert (forall nm, reducer_inv arrival 0 (accept (identify g3 (observed r1 key w d) key w nm) SignalTraceOp)) as Hl.
  { intros nm. apply land_inv; [done|apply span_key_valid; by left|done|done|by vm_compute|]. intros n _ Hb. by eapply built_span. }
  destruct (_ =? _); [apply countError_inv|]; apply Hl.
Qed.

Lemma ReduceEdge_inv arrival g r i g' r' : reducer_inv arrival 0 r -> ReduceEdge g r i = Some (g', r') -> reducer_inv arrival 0 r'.
Proof.
  intros Hi. unfold ReduceEdge. destruct (_ || _); [by intros [= <- <-]|]. destruct (admitPoint _ _ _) as [r1 o] eqn:Ea.
  apply (admitPoint_inv arrival 0) in Ea; [|by vm_compute|done]. destruct o as [w|]; [|by intros [= <- <-]]. destruct Ea as [Hi1 Hw].
  destruct (intern_tenant g _) as [g1 [t|]]; [|intros [= <- <-]; by apply (rejectTenant_inv arrival g1 r1 0)].
  destruct (intern g1 t KindService _) as [g2 sid]. destruct (intern g2 t KindOperation _) as [g3 nid].
  set (key := mkSeriesKey _ _ _ _ _ _ _ _ _). destruct (ObserveSpan _ _ _ _) as [d|] eqn:Ed; [|done]. cbn [mbind option_bind].
  intros [= <- <-]. apply land_inv; [done|apply span_key_valid; by right|done|done|by vm_compute|]. intros n _ Hb. by eapply built_span.
Qed.

Lemma ReduceLog_inv arrival g r i g' r' : reducer_inv arrival 0 r -> ReduceLog g r i = Some (g', r') -> reducer_inv arrival 0 r'.
Proof.
  intros Hi. unfold ReduceLog. destruct (admitPoint _ _ _) as [r1 o] eqn:Ea.
  apply (admitPoint_inv arrival 0) in Ea; [|by vm_compute|done]. destruct o as [w|]; [|by intros [= <- <-]]. destruct Ea as [Hi1 Hw].
  destruct (intern_tenant g _) as [g1 [t|]]; [|intros [= <- <-]; by apply (rejectTenant_inv arrival g1 r1 0)].
  destruct (MineAt _ _ _ _ _ _ _) as [[m c] [tid other]]. destruct (intern _ t KindService _) as [g3 sid].
  set (key := mkSeriesKey _ _ _ _ _ _ _ _ _). intros [= <- <-].
  assert (forall nm e, reducer_inv arrival 0 (accept (identify g3 (observed r1 key w (ObserveLog (delta r1 key w) (lo_Timestamp i) e)) key w nm) SignalLog)) as Hl.
  { intros nm e. apply land_inv; [done|apply log_key_valid, SeverityTier_range|done|done|by vm_compute|]. intros n _ Hb. by apply built_log. }
  destruct (_ <=? _); [apply countError_inv|]; apply Hl.
Qed.

Lemma ReduceMetricPoint_inv arrival g r i g' r' res : reducer_inv arrival 0 r -> ReduceMetricPoint g r i = (g', r', res) -> reducer_inv arrival 0 r'.
Proof.
  intros Hi. unfold ReduceMetricPoint. destruct (_ || _); [by intros [= <- <- <-]|]. destruct (admitPoint _ _ _) as [r1 o] eqn:Ea.
  apply (admitPoint_inv arrival 0) in Ea; [|by vm_compute|done]. destruct o as [w|]; [|by intros [= <- <- <-]]. destruct Ea as [Hi1 Hw].
  destruct (intern_tenant g _) as [g1 [t|]]; [|intros [= <- <- <-]; by apply (rejectTenant_inv arrival g1 r1 0)].
  destruct (metricSeriesKey _ _ _ _ _ _ _) as [[g2 r2] key] eqn:Ek. destruct (metricSeriesKey_inv _ _ _ _ _ _ _ _ _ _ _ _ Hi1 Ek) as (Hi2 & Hv & Hs).
  assert (forall g d', (forall n, 0 <= n -> built n (delta r2 key w) -> built (n + 1) d') ->
    forall g' r' res, accept_point g r2 i key w d' = (g', r', res) -> reducer_inv arrival 0 r') as Hacc.
  { intros g3 d' Hd g4 r4 res4. unfold accept_point. intros [= <- <- <-]. by apply land_inv. }
  destruct (IsGaugeLike _ _); [apply Hacc; intros; by apply built_gauge|].
  destruct (_ =? TemporalityDelta); [apply Hacc; intros; by apply built_counter|].
  destruct (ObserveCumulative _ _ _ _ _ _) as [tr out]. destruct (o_Ignored out); [|apply Hacc; intros; by apply built_counter].
  intros [= <- <- <-]. pose proof (count_other_inv arrival 1 r2 true false false (s_ErrorsByService (rd_stats r2)) Hi2) as Hc.
  cbn [Z.b2z] in Hc. by replace (1 - 1 - 0) with 0 in Hc by lia.
Qed.

Lemma reduce_folded_inv arrival g r c f g' r' res : reducer_inv arrival 0 r -> reduce_folded g r c f = Some (g', r', res) -> reducer_inv arrival 0 r'.
Proof.
  intros Hi. unfold reduce_folded. destruct f as [[f|]|e]; cbn [mbind option_bind]; [|done|by intros [= <- <- <-]]. unfold reduceFold.
  destruct (admitPoint _ _ _) as [r1 o] eqn:Ea.
  apply (admitPoint_inv arrival 0) in Ea; [|by vm_compute|done]. destruct o as [w|]; [|by intros [= <- <- <-]]. destruct Ea as [Hi1 Hw].
  destruct (intern_tenant g _) as [g1 [t|]]; [|intros [= <- <- <-]; by apply (rejectTenant_inv arrival g1 r1 0)].
  destruct (metricSeriesKey _ _ _ _ _ _ _) as [[g2 r2] key] eqn:Ek. destruct (metricSeriesKey_inv _ _ _ _ _ _ _ _ _ _ _ _ Hi1 Ek) as (Hi2 & Hv & Hs).
  destruct (ObserveHistogram _ _) as [d|] eqn:Ed; [|done]. cbn [mbind option_bind]. intros [= <- <- <-].
  apply land_inv; try done. intros n _ Hb. by eapply built_hist.
Qed.

Lemma reduce_point_inv arrival g r p g' r' : reducer_inv arrival 0 r -> reduce_point g r p = Some (g', r') -> reducer_inv arrival 0 r'.
Proof.
  intros Hi. destruct p as [i|i|i|i|c i|c i]; cbn [reduce_point].
  - by apply ReduceSpan_inv.
  - by apply ReduceEdge_inv.
  - by apply ReduceLog_inv.
  - destruct (ReduceMetricPoint g r i) as [[g1 r1] res] eqn:E. intros [= <- <-]. by eapply ReduceMetricPoint_inv.
  - unfold ReduceHistogramPoint. destruct (checkHistogramTemporality _) as [res []]; [|by intros [= <- <-]].
    destruct (reduce_folded _ _ _ _) as [[[g1 r1] res1]|] eqn:E; [|done]. intros [= <- <-]. by eapply reduce_folded_inv.
  - unfold ReduceExponentialHistogramPoint. destruct (checkHistogramTemporality _) as [res []]; [|by intros [= <- <-]].
    destruct (reduce_folded _ _ _ _) as [[[g1 r1] res1]|] eqn:E; [|done]. intros [= <- <-]. by eapply reduce_folded_inv.
Qed.

(** The reducers an export may end with: points one after the other, each on
    whatever state the engine is in by then, and reducers merged. *)
Inductive reduced (arrival : time) : Reducer -> Prop :=
| reduced_new : reduced arrival (NewReducer arrival)
| reduced_point g r p g' r' : reduced arrival r -> reduce_point g r p = Some (g', r') -> reduced arrival r'
| reduced_merge r o r' : reduced arrival r -> reduced arrival o -> MergeFrom r (Some o) = Some r' -> reduced arrival r'.

Lemma reduced_inv arrival r : reduced arrival r -> reducer_inv arrival 0 r.
Proof.
  induction 1 as [|g r p g' r' Hr IH E|r o r' Hr IH Ho IHo E]; [apply NewReducer_inv|exact (reduce_point_inv _ _ _ _ _ _ IH E)|exact (MergeFrom_inv _ _ _ _ IH IHo E)].
Qed.

(** C26: an export's account.  However its points were reduced and its
    reducers merged, modulo 2^64: every point counted as input was counted
    once as late, future, accepted, refused for its tenant or stale; the
    points accepted of a signal are the sum of the counts of that signal's
    deltas, each of at least one point; every delta is on a valid series key
    and in a window that arrival leaves open; and exactly the deltas have a
    topology identity. *)
Theorem reducer_accounts arrival r : reduced arrival r ->
  u64 (total (s_InputPoints (rd_stats r))) =
    u64 (total (s_LatePoints (rd_stats r)) + total (s_FuturePoints (rd_stats r)) + total (s_Accepted (rd_stats r)) +
         s_TenantsRejected (rd_stats r) + s_StaleCumulative (rd_stats r)) /\
  (forall s, is_signal s -> at_signal (s_Accepted (rd_stats r)) s = u64 (weight s (rd_deltas r))) /\
  (forall key w d, rd_deltas r !! (key, w) = Some d ->
    (exists n, 0 < n /\ d_Count (d_counts d) = u64 n) /\ Validate key = None /\
    FinalizeCutoff arrival < w <= WindowStart arrival + 300) /\
  dom (rd_ids r) = dom (rd_deltas r).
Proof.
  intros [A B C D I]%reduced_inv. split_and!; [|done| |done].
  - pose proof (ba_total _ _ B) as E. unfold eq64, spent in E. by rewrite Z.add_0_r in E.
  - intros key w d Hd. destruct (D _ _ _ Hd) as ((n & Hn & Hb) & Hv & ts & Hc). split_and!; [exists n; by rewrite (built_count _ _ Hb)|done| |];
    pose proof (Classify_agrees arrival ts) as Hag; cbv zeta in Hag; rewrite Hc in Hag; naive_solver lia.
Qed.

Definition reduce_points g (r : Reducer) (ps : list point) : option (Ingest R * Reducer) :=
  opt_foldl (fun gr p => reduce_point gr.1 gr.2 p) (g, r) ps.

Lemma reduced_points arrival ps : forall g r g' r', reduced arrival r -> reduce_points g r ps = Some (g', r') -> reduced arrival r'.
Proof.
  induction ps as [|p ps IH]; intros g r g' r' Hr; [by intros [= <- <-]|].
  unfold reduce_points. rewrite opt_foldl_cons. intros ([g1 r1] & E1 & E2). eapply (IH g1 r1); [|exact E2].
  by eapply reduced_point.
Qed.

End Points.

(** ** An export *)

#[local] Existing Instance flat_math.

Definition demo_texts : FloatText := {| AppendFloat := fun _ => "1.5" |}.
#[local] Existing Instance demo_texts.

Definition demo_arrival : time := t_of_unix 1000.

Definition demo_ingest : Ingest MemRegistrar :=
  mkIngest (NewCache (NewMemRegistrar ∅)) (NewTemplateMiner (mkMinerConfig 0 0 f_zero 0 0 false)) demo_engine {["cpu" := ["host"]]} [].

Definition demo_span (tenant service : string) (status : Z) (at_ : Z) : point :=
  PSpan (mkSpanInput tenant service (lit "GET /users/42") [] (lit "/users/42") "GET" 200 2 status true (t_of_unix at_) (f_of_Z 250)).

Definition demo_metric (host : string) (v : Z) (at_ : Z) : point :=
  PMetric (mkMetricInput "acme" "api" "cpu" (f_of_Z v) (t_of_unix at_) 0 TemporalityUnspecified false (mkResource "" "" "" "" "")
    [Some (mkKeyValue "host" (Some (StringValue host)))] []).

Definition demo_points : list point :=
  [demo_span "acme" "api" 0 950; demo_span "acme" "api" 2 960; demo_span "beta" "api" 0 950; demo_span "acme" "api" 0 50;
   demo_span "" "api" 0 950; demo_metric "a" 3 950; demo_metric "b" 4 955;
   PLog (mkLogInput "acme" "api" (lit "error") 0 (lit "user 42 not found") (t_of_unix 990))].

Definition demo_reduction : option (Ingest MemRegistrar * Reducer) := reduce_points demo_ingest (NewReducer demo_arrival) demo_points.

Definition demo_reducer : Reducer := (default (demo_ingest, NewReducer demo_arrival) demo_reduction).2.

Lemma demo_reduced : reduced (R := MemRegistrar) demo_arrival demo_reducer.
Proof.
  assert (holds_value demo_reduction = true) as Hh by (by vm_compute).
  pose proof (default_holds demo_reduction (demo_ingest, NewReducer demo_arrival) Hh) as E. unfold demo_reducer.
  destruct (default _ demo_reduction) as [g r]. exact (reduced_points demo_arrival demo_points demo_ingest (NewReducer demo_arrival) g r (reduced_new _) E).
Qed.

Lemma reducer_accounts_witness :
  (s_Accepted (rd_stats demo_reducer), s_LatePoints (rd_stats demo_reducer), s_TenantsRejected (rd_stats demo_reducer)) =
    ([0; 3; 0; 1; 2], [0; 1; 0; 0; 0], 1) /\
  3 = u64 (weight SignalTraceOp (rd_deltas demo_reducer)) /\ dom (rd_ids demo_reducer) = dom (rd_deltas demo_reducer).
Proof.
  split; [by vm_compute|].
  destruct (reducer_accounts (R := MemRegistrar) demo_arrival demo_reducer demo_reduced) as (_ & Hs & _ & Hd). split; [|exact Hd].
  rewrite <- (Hs SignalTraceOp); [by vm_compute|by split].
Defined.
