(* ===== verification/ReducerNames.v ===== *)
(** * ReducerNames: which points may share a delta

    The reducer over the dictionary cache, for any registrar that meets the
    cache's contract: points that change the same delta have the same tenant,
    and the same service and name unless the limits of the dictionary put
    them under an overflow identity.  Log templates and dimension tuples are
    interned on the way and disturb nothing. *)
From S2P Require Import Prelude SeriesKey Routes Float64 Dict Dims Gc TemplateMiner TopoIdentity.
From S2P Require Import Sketch Histogram Delta Limiter Baseline Engine Reducer ReducerFacts.
#[local] Open Scope Z_scope.

(** ** Interning keeps what is known *)

Section Keeps.
Context {R : Type} `{HR : Registrar R} `{!RegistrarLaws R}.
Implicit Types c : Cache R.

Definition keeps c c' : Prop := cache_inv c -> cache_inv c' /\ extends c c'.

#[global] Instance keeps_preorder : PreOrder keeps.
Proof.
  split; [by intros c Hc|]. intros c1 c2 c3 H1 H2 Hc. destruct (H1 Hc) as [I1 X1], (H2 I1) as [I2 X2]. split; [done|by etrans].
Qed.

Lemma same_store_keeps c c' : same_store c c' -> keeps c c'.
Proof. intros H Hc. split; [by eapply same_store_inv|by apply same_store_extends]. Qed.

Lemma OtherID_keeps c t k c' id : c_OtherID c t k = (c', id) -> keeps c c'.
Proof. intros E Hc. by destruct (c_OtherID_sound _ _ _ _ _ E Hc) as (? & ? & _). Qed.

Lemma Intern_keeps c t k v c' id : Intern c t k v = (c', id) -> keeps c c'.
Proof.
  unfold Intern. destruct (lookupCached c (t, k) v) as [c1 [i|]] eqn:El; intros E;
    apply lookupCached_same, same_store_keeps in El; [by simplify_eq|].
  etrans; [exact El|]. destruct (valueCap _ k <? vlen v).
  - etrans; [|by eapply OtherID_keeps]. apply same_store_keeps. unfold recordOverflow. by destruct (c_sink _).
  - intros Hc. by destruct (register_sound _ _ _ _ _ _ E Hc) as (? & ? & _).
Qed.

Lemma InternBytes_keeps c t k v c' id : InternBytes c t k v = (c', id) -> keeps c c'.
Proof. apply Intern_keeps. Qed.

Lemma InternTenant_keeps c name c' o : InternTenant c name = (c', o) -> keeps c c'.
Proof.
  unfold InternTenant. destruct (lookupCached c _ name) as [c1 [i|]] eqn:El; intros E;
    apply lookupCached_same, same_store_keeps in El; [by simplify_eq|].
  etrans; [exact El|]. destruct (_ || _); [by injection E as <- <-|].
  destruct (Register _ _ _ _) as [r res] eqn:Er. cbn [c_reg count] in Er. intros Hc.
  destruct (Register_step _ _ _ _ _ _ Er Hc) as [H2 X2].
  destruct res as [i|e]; [|by injection E as <- <-].
  destruct (store_sound _ _ _ _ _ _ Er Hc) as (H3 & Hp & _). destruct (i =? 0); by injection E as <- <-.
Qed.

Lemma InternDimValues_keeps c t keys values c' id : InternDimValues c t keys values = (c', id) -> keeps c c'.
Proof.
  unfold InternDimValues. destruct (_ || _); [by intros [= <- <-]|].
  assert (forall kvs ps c1 c2 ps2, foldl (fun acc kv =>
    let '(c, keyID) := Intern acc.1 t KindDimKey kv.1 in
    let '(c, valueID) := Intern c t KindDimValue kv.2 in
    (c, acc.2 ++ [mkDimPair keyID valueID])) (c1, ps) kvs = (c2, ps2) -> keeps c1 c2) as Hf.
  { induction kvs as [|[k v] kvs IH]; intros ps c1 c2 ps2; cbn [foldl fst snd]; [by intros [= <- <-]|].
    destruct (Intern c1 t KindDimKey k) as [c3 i3] eqn:E3. destruct (Intern c3 t KindDimValue v) as [c4 i4] eqn:E4.
    intros E%IH. etrans; [by eapply Intern_keeps|]. etrans; [by eapply Intern_keeps|done]. }
  destruct (intern_pairs c t _) as [c1 pairs] eqn:E1. apply Hf in E1. intros E. etrans; [exact E1|].
  unfold InternDims in E. destruct pairs; [by injection E as <- <-|]. by eapply InternBytes_keeps.
Qed.

Lemma registerTemplate_keeps c req c' res : registerTemplate c req = (c', res) -> keeps c c'.
Proof.
  unfold registerTemplate. destruct (InternTenant c _) as [c1 [t|]] eqn:Et; apply InternTenant_keeps in Et; [|by intros [= <- <-]].
  destruct (g_IsOther req).
  - destruct (c_OtherID c1 t _) as [c2 id] eqn:Eo. intros [= <- <-]. etrans; [exact Et|by eapply OtherID_keeps].
  - destruct (Intern c1 t _ _) as [c2 id] eqn:Eo. intros [= <- <-]. etrans; [exact Et|by eapply Intern_keeps].
Qed.

(** The miner reaches the cache only through its registrar. *)
Lemma ensureOther_keeps m c k m' c' : ensureOtherLocked m c k = (m', c') -> keeps c c'.
Proof.
  unfold ensureOtherLocked. destruct (negb _); [by intros [= <- <-]|].
  destruct (RegisterTemplate c _) as [c1 res] eqn:E. apply registerTemplate_keeps in E. destruct (_ =? 0); by intros [= <- <-].
Qed.

Lemma register_pattern_keeps m c k leaf toks raw at_ m' c' out : register_pattern m c k leaf toks raw at_ = (m', c', out) -> keeps c c'.
Proof.
  unfold register_pattern. destruct (_ <=? _); [by intros [= <- <- <-]|].
  destruct (RegisterTemplate c _) as [c1 res] eqn:E. apply registerTemplate_keeps in E.
  destruct (_ =? 0); [by intros [= <- <- <-]|]. destruct (_ || _); by intros [= <- <- <-].
Qed.

Lemma mine_keeps m c k toks raw at_ w m' c' out : mine m c k toks raw at_ w = (m', c', out) -> keeps c c'.
Proof.
  unfold mine. destruct (ensureOtherLocked m c k) as [m1 c1] eqn:E1. apply ensureOther_keeps in E1.
  destruct (_ =? 0); [by intros [= <- <- <-]|]. destruct (descend _ _ _ _) as [p leaf].
  destruct (tmBestMatch _ _ _) as [[i|] sim].
  - destruct (fge _ _); [destruct (absorb _ _ _ _ _); by intros [= <- <- <-]|].
    intros E%register_pattern_keeps. by etrans.
  - intros E%register_pattern_keeps. by etrans.
Qed.

Lemma MineAt_keeps m c tenant service severity body at_ m' c' out : MineAt m c tenant service severity body at_ = (m', c', out) -> keeps c c'.
Proof.
  unfold MineAt. destruct (mine _ _ _ _ _ _ _) as [[m1 c1] [[id o] text]] eqn:E. apply mine_keeps in E. by intros [= <- <- <-].
Qed.

End Keeps.

(** ** The names of a point and of a series *)

Definition p_tenant (p : point) : string :=
  match p with
  | PSpan i => sp_Tenant i | PEdge i => ed_Tenant i | PLog i => lo_Tenant i | PMetric i => mi_Tenant i
  | PHistogram c _ | PExponential c _ => pn_Tenant c
  end.

Definition p_service (p : point) : string :=
  match p with
  | PSpan i => sp_Service i | PEdge i => ed_Caller i | PLog i => lo_Service i | PMetric i => mi_Service i
  | PHistogram c _ | PExponential c _ => pn_Service c
  end.

(** The name interned for a point with the kind of its namespace; the name
    of a log is its mined template. *)
Definition p_name (p : point) : option (Z * string) :=
  match p with
  | PSpan i => Some (KindOperation, str_of (NormalizeOperation (sp_HTTPRoute i) (sp_URLPath i) (sp_SpanName i)))
  | PEdge i => Some (KindOperation, ed_Callee i)
  | PLog i => None
  | PMetric i => Some (KindMetricName, mi_Name i)
  | PHistogram c _ | PExponential c _ => Some (KindMetricName, pn_Name c)
  end.

Section Naming.
Context `{GoMath} `{FloatText} {R : Type} `{HR : Registrar R} `{!RegistrarLaws R} `{Resolver R} `{identityFinder R}.
Implicit Types (g : Ingest R) (c : Cache R).

Record names_ok c (p : point) (key : SeriesKey) : Prop := {
  no_tenant : p_tenant p <> OtherValue -> resolves (c_reg c) GlobalTenant KindTenant (p_tenant p) = Some (TenantID key);
  no_service : p_service p <> OtherValue -> given c (TenantID key) KindService (p_service p) (ServiceID key);
  no_name : forall k v, p_name p = Some (k, v) -> v <> OtherValue -> given c (TenantID key) k v (NameID key);
}.

Lemma names_ok_extends c c' p key : extends c c' -> names_ok c p key -> names_ok c' p key.
Proof.
  intros X [Ht Hs Hn]. constructor.
  - intros Hp. destruct X as [X _]. by apply X, Ht.
  - intros Hp. by eapply given_extends, Hs.
  - intros k v Hk Hv. by eapply given_extends, Hn.
Qed.

(** What a point does to the deltas: nothing, or one entry of a series that
    carries its names. *)
Definition lands g (p : point) (r r' : Reducer) : Prop :=
  rd_deltas r' = rd_deltas r \/
  exists key w d, rd_deltas r' = <[(key, w) := d]> (rd_deltas r) /\ names_ok (g_cache g) p key.

Lemma intern_spec g t k v g' id : intern g t k v = (g', id) -> cache_inv (g_cache g) ->
  cache_inv (g_cache g') /\ extends (g_cache g) (g_cache g') /\ (v <> OtherValue -> given (g_cache g') t k v id).
Proof.
  unfold intern. destruct (Intern _ _ _ _) as [c i] eqn:E. intros [= <- <-] Hi. cbn [g_cache set_cache].
  destruct (Intern_keeps _ _ _ _ _ _ E Hi) as [K1 K2]. split_and!; [done|done|]. intros Hv.
  by destruct (Intern_sound _ _ _ _ _ _ E Hv Hi) as (_ & _ & ?).
Qed.

Lemma intern_tenant_spec g name g' o : intern_tenant g name = (g', o) -> cache_inv (g_cache g) ->
  cache_inv (g_cache g') /\ extends (g_cache g) (g_cache g') /\
  (forall id, o = Some id -> name <> OtherValue -> resolves (c_reg (g_cache g')) GlobalTenant KindTenant name = Some id).
Proof.
  unfold intern_tenant. destruct (InternTenant _ _) as [c i] eqn:E. intros [= <- <-] Hi. cbn [g_cache set_cache].
  destruct (InternTenant_keeps _ _ _ _ E Hi) as [K1 K2]. split_and!; [done|done|]. intros id -> Hv.
  destruct (InternTenant_sound _ _ _ _ E Hv Hi) as (_ & _ & Hid). by apply Hid.
Qed.

Lemma admitPoint_deltas r s ts r' o : admitPoint r s ts = (r', o) -> rd_deltas r' = rd_deltas r.
Proof. unfold admitPoint. destruct (Classify _ _) as [w []]; by intros [= <- <-]. Qed.

Lemma identify_deltas g r key w nm : rd_deltas (identify g r key w nm) = rd_deltas r.
Proof. unfold identify. by destruct (_ !! _). Qed.

(** The names of a key whose three IDs were interned one after the other. *)
Lemma names_ok_of g0 g1 g2 g3 p t s n d sig st h m v :
  cache_inv (g_cache g0) -> intern_tenant g0 (p_tenant p) = (g1, Some t) -> intern g1 t KindService (p_service p) = (g2, s) ->
  (forall k x, p_name p = Some (k, x) -> intern g2 t k x = (g3, n)) -> (p_name p = None -> g3 = g2) ->
  cache_inv (g_cache g3) /\ extends (g_cache g0) (g_cache g3) /\ names_ok (g_cache g3) p (mkSeriesKey t s n d sig st h m v).
Proof.
  intros Hi Et Es En Enone.
  destruct (intern_tenant_spec _ _ _ _ Et Hi) as (I1 & X1 & T1).
  destruct (intern_spec _ _ _ _ _ _ Es I1) as (I2 & X2 & S2).
  assert (cache_inv (g_cache g3) /\ extends (g_cache g2) (g_cache g3)) as [I3 X3].
  { destruct (p_name p) as [[k x]|]; [|by rewrite Enone]. by destruct (intern_spec _ _ _ _ _ _ (En k x eq_refl) I2) as (? & ? & _). }
  split_and!; [done|by do 2 (etrans; [eassumption|])|]. constructor; cbn [TenantID ServiceID NameID].
  - intros Hp. pose proof (T1 t eq_refl Hp) as Hr. destruct X2 as [X2 _], X3 as [X3 _]. auto.
  - intros Hp. eapply given_extends; [done|exact X3|by apply S2].
  - intros k x Hk Hx. rewrite Hk in En. destruct (intern_spec _ _ _ _ _ _ (En k x eq_refl) I2) as (_ & _ & ?). auto.
Qed.

Definition sound g (p : point) r g' r' : Prop :=
  cache_inv (g_cache g) -> cache_inv (g_cache g') /\ extends (g_cache g) (g_cache g') /\ lands g' p r r'.

Lemma sound_skip g p r r' : rd_deltas r' = rd_deltas r -> sound g p r g r'.
Proof. intros E Hi. split_and!; [done|done|by left]. Qed.

Lemma sound_tenant g p r g' o r' : intern_tenant g (p_tenant p) = (g', o) -> rd_deltas r' = rd_deltas r -> sound g p r g' r'.
Proof. intros E Ed Hi. destruct (intern_tenant_spec _ _ _ _ E Hi) as (? & ? & _). split_and!; [done|done|by left]. Qed.

(** An accepted span, edge or log. *)
Lemma land_deltas g r key w d nm s : rd_deltas (accept (identify g (observed r key w d) key w nm) s) = <[(key, w) := d]> (rd_deltas r).
Proof. unfold accept, set_stats. cbn [rd_deltas]. by rewrite identify_deltas. Qed.

Lemma ReduceSpan_sound g r i g' r' : ReduceSpan g r i = Some (g', r') -> sound g (PSpan i) r g' r'.
Proof.
  unfold ReduceSpan. destruct (admitPoint _ _ _) as [r1 [w|]] eqn:Ea; apply admitPoint_deltas in Ea; [|by intros [= <- <-]; apply sound_skip].
  destruct (intern_tenant g _) as [g1 [t|]] eqn:Et; [|by intros [= <- <-]; apply (sound_tenant g (PSpan i) r g1 None)].
  destruct (intern g1 t KindService _) as [g2 sid] eqn:Es. destruct (intern g2 t KindOperation _) as [g3 nid] eqn:En.
  set (key := mkSeriesKey _ _ _ _ _ _ _ _ _). destruct (ObserveSpan _ _ _ _) as [d|]; [|done]. cbn [mbind option_bind].
  intros [= <- <-] Hi. destruct (names_ok_of g g1 g2 g3 (PSpan i) t sid nid 0 SignalTraceOp (KStatusClass key) (KHTTPClass key) (KMethod key) (KVariant key) Hi Et Es)
    as (I3 & X3 & N3); [by intros k x [= <- <-]|done|].
  split_and!; [done|done|]. right. exists key, w, d. split; [|done].
  rewrite <- Ea. destruct (_ =? _); [unfold countError, count_other; cbn [rd_deltas set_stats]|]; by rewrite land_deltas.
Qed.

Lemma ReduceEdge_sound g r i g' r' : ReduceEdge g r i = Some (g', r') -> sound g (PEdge i) r g' r'.
Proof.
  unfold ReduceEdge. destruct (_ || _); [by intros [= <- <-]; apply sound_skip|].
  destruct (admitPoint _ _ _) as [r1 [w|]] eqn:Ea; apply admitPoint_deltas in Ea; [|by intros [= <- <-]; apply sound_skip].
  destruct (intern_tenant g _) as [g1 [t|]] eqn:Et; [|by intros [= <- <-]; apply (sound_tenant g (PEdge i) r g1 None)].
  destruct (intern g1 t KindService _) as [g2 sid] eqn:Es. destruct (intern g2 t KindOperation _) as [g3 nid] eqn:En.
  set (key := mkSeriesKey _ _ _ _ _ _ _ _ _). destruct (ObserveSpan _ _ _ _) as [d|]; [|done]. cbn [mbind option_bind].
  intros [= <- <-] Hi. destruct (names_ok_of g g1 g2 g3 (PEdge i) t sid nid 0 SignalServiceEdge (KStatusClass key) (KHTTPClass key) (KMethod key) (KVariant key) Hi Et Es)
    as (I3 & X3 & N3); [by intros k x [= <- <-]|done|].
  split_and!; [done|done|]. right. exists key, w, d. split; [|done]. by rewrite <- Ea, land_deltas.
Qed.

Lemma ReduceLog_sound g r i g' r' : ReduceLog g r i = Some (g', r') -> sound g (PLog i) r g' r'.
Proof.
  unfold ReduceLog. destruct (admitPoint _ _ _) as [r1 [w|]] eqn:Ea; apply admitPoint_deltas in Ea; [|by intros [= <- <-]; apply sound_skip].
  destruct (intern_tenant g _) as [g1 [t|]] eqn:Et; [|by intros [= <- <-]; apply (sound_tenant g (PLog i) r g1 None)].
  destruct (MineAt _ _ _ _ _ _ _) as [[m c] [tid other]] eqn:Em. apply MineAt_keeps in Em.
  destruct (intern _ t KindService _) as [g3 sid] eqn:Es. set (key := mkSeriesKey _ _ _ _ _ _ _ _ _).
  intros [= <- <-] Hi. destruct (intern_tenant_spec _ _ _ _ Et Hi) as (I1 & X1 & T1). destruct (Em I1) as [I2 X2].
  destruct (intern_spec _ _ _ _ _ _ Es I2) as (I3 & X3 & S3). cbn [g_cache set_mining] in X3.
  split_and!; [done|by do 2 (etrans; [eassumption|])|]. right.
  exists key, w, (ObserveLog (delta r1 key w) (lo_Timestamp i) (SeverityTierError <=? SeverityTier (lo_Severity i) (lo_SeverityNumber i))). split.
  - rewrite <- Ea. destruct (_ <=? _); [unfold countError, count_other; cbn [rd_deltas set_stats]|]; by rewrite land_deltas.
  - constructor; [|done|done]. intros Hp. pose proof (T1 t eq_refl Hp) as Hr. destruct X2 as [X2 _], X3 as [X3 _]. auto.
Qed.

(** The key of a metric point. *)
Lemma metricSeriesKey_sound g g1 r p t k x a ra g' r' key :
  cache_inv (g_cache g) -> intern_tenant g (p_tenant p) = (g1, Some t) -> p_name p = Some (KindMetricName, x) -> k = p_service p ->
  metricSeriesKey g1 r t k x a ra = (g', r', key) ->
  cache_inv (g_cache g') /\ extends (g_cache g) (g_cache g') /\ names_ok (g_cache g') p key /\ rd_deltas r' = rd_deltas r.
Proof.
  intros Hi Et Hn -> . unfold metricSeriesKey. destruct (intern g1 t KindService _) as [g2 sid] eqn:Es.
  destruct (intern g2 t KindMetricName _) as [g3 nid] eqn:En. destruct (dimsIDFor g3 r t x a ra) as [[g4 r4] did] eqn:Ed. intros [= <- <- <-].
  destruct (names_ok_of g g1 g2 g3 p t sid nid did SignalMetric 0 0 0 0 Hi Et Es) as (I3 & X3 & N3);
    [intros k0 x0 E0; rewrite Hn in E0; by injection E0 as <- <-|by rewrite Hn|].
  assert (keeps (g_cache g3) (g_cache g4) /\ rd_deltas r4 = rd_deltas r) as [K Er].
  { unfold dimsIDFor in Ed. destruct (_ =? 0); [by injection Ed as <- <- <-|].
    destruct (resolveWith _ _ _) as [[values rejected] ok]. destruct (negb ok); [injection Ed as <- <- <-; by destruct rejected|].
    destruct (InternDimValues _ _ _ _) as [c id] eqn:Ei. injection Ed as <- <- <-. apply InternDimValues_keeps in Ei. split; [done|by destruct rejected]. }
  destruct (K I3) as [I4 X4]. split_and!; [done|by etrans|by eapply names_ok_extends|done].
Qed.

Lemma ReduceMetricPoint_sound g r i g' r' res : ReduceMetricPoint g r i = (g', r', res) -> sound g (PMetric i) r g' r'.
Proof.
  unfold ReduceMetricPoint. destruct (_ || _); [by intros [= <- <- _]; apply sound_skip|].
  destruct (admitPoint _ _ _) as [r1 [w|]] eqn:Ea; apply admitPoint_deltas in Ea; [|by intros [= <- <- _]; apply sound_skip].
  destruct (intern_tenant g _) as [g1 [t|]] eqn:Et; [|by intros [= <- <- _]; apply (sound_tenant g (PMetric i) r g1 None)].
  destruct (metricSeriesKey _ _ _ _ _ _ _) as [[g2 r2] key] eqn:Ek. intros E Hi.
  destruct (metricSeriesKey_sound g g1 r1 (PMetric i) t _ _ _ _ _ _ _ Hi Et eq_refl eq_refl Ek) as (I2 & X2 & N2 & E2). revert E.
  assert (forall g3 d', g_cache g3 = g_cache g2 -> accept_point g3 r2 i key w d' = (g', r', res) ->
    cache_inv (g_cache g') /\ extends (g_cache g) (g_cache g') /\ lands g' (PMetric i) r r') as Hacc.
  { intros g3 d' E3. unfold accept_point. intros [= <- <- _]. rewrite E3. split_and!; [done|done|]. right. exists key, w, d'.
    rewrite land_deltas, E2, Ea, E3. done. }
  destruct (IsGaugeLike _ _); [by apply Hacc|]. destruct (_ =? TemporalityDelta); [by apply Hacc|].
  destruct (ObserveCumulative _ _ _ _ _ _) as [tr out]. destruct (o_Ignored out); [|by apply Hacc].
  intros [= <- <- _]. split_and!; [done|done|]. left. cbn. by rewrite E2, Ea.
Qed.

Lemma reduce_folded_sound g r p (pc : PointNames) f g' r' res : p_tenant p = pn_Tenant pc -> p_service p = pn_Service pc -> p_name p = Some (KindMetricName, pn_Name pc) ->
  reduce_folded g r pc f = Some (g', r', res) -> sound g p r g' r'.
Proof.
  intros Pt Ps Pn. unfold reduce_folded. destruct f as [[f|]|e]; cbn [mbind option_bind]; [|done|by intros [= <- <- _]; apply sound_skip].
  unfold reduceFold. destruct (admitPoint _ _ _) as [r1 [w|]] eqn:Ea; apply admitPoint_deltas in Ea; [|by intros [= <- <- _]; apply sound_skip].
  rewrite <- Pt. destruct (intern_tenant g _) as [g1 [t|]] eqn:Et; [|by intros [= <- <- _]; apply (sound_tenant g p r g1 None)].
  destruct (metricSeriesKey _ _ _ _ _ _ _) as [[g2 r2] key] eqn:Ek. destruct (ObserveHistogram _ _) as [d|]; [|done]. cbn [mbind option_bind].
  intros [= <- <- _] Hi. destruct (metricSeriesKey_sound g g1 r1 p t _ _ _ _ _ _ _ Hi Et Pn (eq_sym Ps) Ek) as (I2 & X2 & N2 & E2).
  split_and!; [done|done|]. right. exists key, w, d. by rewrite land_deltas, E2, Ea.
Qed.

Lemma reduce_point_sound g r p g' r' : reduce_point g r p = Some (g', r') -> sound g p r g' r'.
Proof.
  destruct p as [i|i|i|i|c i|c i]; cbn [reduce_point].
  - apply ReduceSpan_sound.
  - apply ReduceEdge_sound.
  - apply ReduceLog_sound.
  - destruct (ReduceMetricPoint g r i) as [[g1 r1] res] eqn:E. intros [= <- <-]. by eapply ReduceMetricPoint_sound.
  - unfold ReduceHistogramPoint. destruct (checkHistogramTemporality _) as [res []]; [|by intros [= <- <-]; apply sound_skip].
    destruct (reduce_folded _ _ _ _) as [[[g1 r1] res1]|] eqn:E; [|done]. intros [= <- <-]. by eapply reduce_folded_sound; [| | |exact E].
  - unfold ReduceExponentialHistogramPoint. destruct (checkHistogramTemporality _) as [res []]; [|by intros [= <- <-]; apply sound_skip].
    destruct (reduce_folded _ _ _ _) as [[[g1 r1] res1]|] eqn:E; [|done]. intros [= <- <-]. by eapply reduce_folded_sound; [| | |exact E].
Qed.

(** ** Many exports *)

(** One more point, or the next export with a reducer of its own. *)
Inductive ingest_op := OpExport (arrival : time) | OpPoint (p : point).

(** The state, the current reducer, and every point so far with the reducer
    before and after it. *)
Definition ingest_step (s : Ingest R * Reducer * list (point * Reducer * Reducer)) (op : ingest_op)
    : option (Ingest R * Reducer * list (point * Reducer * Reducer)) :=
  let '(g, r, log) := s in
  match op with
  | OpExport arrival => Some (g, NewReducer arrival, log)
  | OpPoint p => '(g', r') ← reduce_point g r p; Some (g', r', log ++ [(p, r, r')])
  end.

Definition ingest_run g (ops : list ingest_op) : option (Ingest R * Reducer * list (point * Reducer * Reducer)) :=
  opt_foldl ingest_step (g, NewReducer 0, []) ops.

(** The point changed the delta of this series and window. *)
Definition changes (e : point * Reducer * Reducer) (swk : SeriesWindow) : Prop := rd_deltas e.2 !! swk <> rd_deltas e.1.2 !! swk.

Definition log_ok c (log : list (point * Reducer * Reducer)) : Prop :=
  Forall (fun e => forall swk, changes e swk -> names_ok c e.1.1 swk.1) log.

Lemma log_ok_extends c c' log : extends c c' -> log_ok c log -> log_ok c' log.
Proof. intros X Hl. eapply Forall_impl; [exact Hl|]. intros e He swk Hc. by eapply names_ok_extends, He. Qed.

Lemma ingest_step_ok s op s' : ingest_step s op = Some s' -> cache_inv (g_cache s.1.1) -> log_ok (g_cache s.1.1) s.2 ->
  cache_inv (g_cache s'.1.1) /\ log_ok (g_cache s'.1.1) s'.2.
Proof.
  destruct s as [[g r] log]. destruct op as [arrival|p]; cbn [ingest_step]; [by intros [= <-]|].
  destruct (reduce_point g r p) as [[g1 r1]|] eqn:E; [|done]. cbn [mbind option_bind]. intros [= <-] Hi Hl. cbn [fst snd] in *.
  destruct (reduce_point_sound _ _ _ _ _ E Hi) as (I1 & X1 & L1). split; [done|].
  apply Forall_app. split; [by eapply log_ok_extends|]. apply Forall_singleton. intros swk. unfold changes. cbn [fst snd].
  destruct L1 as [->|(key & w & d & -> & N)]; [done|]. rewrite lookup_insert. by destruct (decide _) as [<-|].
Qed.

Lemma ingest_run_ok ops : forall s s', opt_foldl ingest_step s ops = Some s' -> cache_inv (g_cache s.1.1) -> log_ok (g_cache s.1.1) s.2 ->
  cache_inv (g_cache s'.1.1) /\ log_ok (g_cache s'.1.1) s'.2.
Proof.
  induction ops as [|op ops IH]; intros s s'; [by intros [= <-]|]. rewrite opt_foldl_cons. intros (s1 & E1 & E2) Hi Hl.
  destruct (ingest_step_ok _ _ _ E1 Hi Hl) as [Hi1 Hl1]. by eapply IH.
Qed.

(** C27: tenants never mix.  Through any exports of any points that run
    without a panic, with any miner and dimension configuration, behind the cache of any registrar that meets
    its contract, take two points that change the delta of the same series and
    window.  They are of the same tenant.  They are of the same service, unless
    the series' service is its tenant's overflow identity or is the unresolved
    ID 0, which the cache answers when the registrar could give no identity.
    Two points named in the same namespace (the operation of a span or an edge,
    the name of a metric) have the same name, with the same two exceptions for
    the series' name.  A log has no such name: its series carries the ID of its
    template, and what lines share a template is the subject of the miner's
    properties.  The reserved value ["__other__"] as a name of a client's own
    is outside the guarantee. *)
Theorem tenants_never_mix g ops g' r' log e1 e2 swk :
  cache_inv (g_cache g) -> ingest_run g ops = Some (g', r', log) ->
  e1 ∈ log -> e2 ∈ log -> changes e1 swk -> changes e2 swk ->
  let p1 := e1.1.1 in let p2 := e2.1.1 in let key := swk.1 in
  (p_tenant p1 <> OtherValue -> p_tenant p2 <> OtherValue -> p_tenant p1 = p_tenant p2) /\
  (p_service p1 <> OtherValue -> p_service p2 <> OtherValue ->
    p_service p1 = p_service p2 \/ overflow_id (c_reg (g_cache g')) (TenantID key) KindService = Some (ServiceID key) \/ ServiceID key = 0) /\
  (forall k v1 v2, p_name p1 = Some (k, v1) -> p_name p2 = Some (k, v2) -> v1 <> OtherValue -> v2 <> OtherValue ->
    v1 = v2 \/ overflow_id (c_reg (g_cache g')) (TenantID key) k = Some (NameID key) \/ NameID key = 0).
Proof.
  intros Hi Hrun M1 M2 C1 C2. cbv zeta.
  destruct (ingest_run_ok _ _ _ Hrun Hi) as [[Hr _] Hl]; [constructor|]. cbn [fst snd] in *.
  unfold log_ok in Hl. rewrite Forall_forall in Hl. destruct (Hl _ M1 _ C1) as [T1 S1 N1]. destruct (Hl _ M2 _ C2) as [T2 S2 N2].
  assert (forall k v1 v2 id, v1 <> OtherValue -> v2 <> OtherValue ->
    given (g_cache g') (TenantID swk.1) k v1 id -> given (g_cache g') (TenantID swk.1) k v2 id ->
    v1 = v2 \/ overflow_id (c_reg (g_cache g')) (TenantID swk.1) k = Some id \/ id = 0) as Hsame.
  { intros k v1 v2 id V1 V2 [?|[G1|G1]] [?|[G2|G2]]; try (by right; left); try (by right; right).
    left. by destruct (resolves_inj _ _ _ _ _ _ _ _ Hr V1 V2 G1 G2) as (_ & _ & ->). }
  split_and!.
  - intros V1 V2. by destruct (resolves_inj _ _ _ _ _ _ _ _ Hr V1 V2 (T1 V1) (T2 V2)) as (_ & _ & ->).
  - intros V1 V2. apply Hsame; auto.
  - intros k v1 v2 E1 E2 V1 V2. apply Hsame; auto.
Qed.

End Naming.

(** ** Two tenants with one service and one route *)

#[local] Existing Instance flat_math.
#[local] Existing Instance demo_texts.

Definition demo_run_ops : list ingest_op := 
  [OpExport demo_arrival; OpPoint (demo_span "acme" "api" 0 950); OpPoint (demo_span "beta" "api" 0 950);
   OpExport demo_arrival; OpPoint (demo_span "acme" "api" 0 955)].

Definition demo_run_result : Ingest MemRegistrar * Reducer * list (point * Reducer * Reducer) :=
  default (demo_ingest, NewReducer 0, []) (ingest_run demo_ingest demo_run_ops).

Definition demo_entry (i : nat) : point * Reducer * Reducer := default (demo_span "" "" 0 0, NewReducer 0, NewReducer 0) (demo_run_result.2 !! i).

Definition demo_series : SeriesWindow := (mkSeriesKey 1 2 3 0 SignalTraceOp 0 2 1 2, 900).

Lemma tenants_never_mix_witness :
  p_tenant (demo_entry 0).1.1 = p_tenant (demo_entry 2).1.1 /\
  (p_service (demo_entry 0).1.1 = p_service (demo_entry 2).1.1 \/
   overflow_id (c_reg (g_cache demo_run_result.1.1)) (TenantID demo_series.1) KindService = Some (ServiceID demo_series.1) \/
   ServiceID demo_series.1 = 0).
Proof.
  assert (ingest_run demo_ingest demo_run_ops = Some (demo_run_result.1.1, demo_run_result.1.2, demo_run_result.2)) as E.
  { assert (holds_value (ingest_run demo_ingest demo_run_ops) = true) as Hh by (by vm_compute).
    rewrite (default_holds _ (demo_ingest, NewReducer 0, []) Hh). unfold demo_run_result. by destruct (default _ _) as [[]]. }
  assert (forall i, (d_Count ∘ d_counts <$> rd_deltas (demo_entry i).2 !! demo_series) <> (d_Count ∘ d_counts <$> rd_deltas (demo_entry i).1.2 !! demo_series) ->
    changes (demo_entry i) demo_series) as Hch.
  { intros i Hne Heq. apply Hne. by rewrite Heq. }
  assert (forall i, holds_value (demo_run_result.2 !! i) = true -> demo_entry i ∈ demo_run_result.2) as Hin.
  { intros i Hh. apply (list_elem_of_lookup_2 _ i). exact (default_holds _ _ Hh). }
  assert (cache_inv (g_cache demo_ingest)) as Hci by apply NewCacheWithBounds_inv, NewMemRegistrar_inv.
  destruct (tenants_never_mix demo_ingest demo_run_ops _ _ _ (demo_entry 0) (demo_entry 2) demo_series Hci E) as (Ht & Hs & _);
    [apply Hin; by vm_compute|apply Hin; by vm_compute|apply Hch; by vm_compute|apply Hch; by vm_compute|].
  split; [apply Ht|apply Hs]; by vm_compute.
Defined.
