(* ===== verification/Topology.v ===== *)
(** * Topology: the topology projection ([internal/aggregate/topology.go])

    The per-tenant service graph: services, operations, edges and metrics with
    their recent windows, folded from the deltas of each export, bounded by
    caps that count what they refuse, and pruned behind a horizon.  The four
    kinds of entity share their entries' type and their window arithmetic.
    Entries are reached through their map only, so writing through the pointer
    is writing the map.  A sketch merge that panics stops the fold: [option]. *)
From stdpp Require Import sorting.
From S2P Require Import Prelude SeriesKey Float64 Dict TopoIdentity Sketch Histogram Delta Limiter Baseline Engine Reducer.
#[local] Open Scope Z_scope.

(** ** Configuration *)

Definition DefaultTopologyMaxServices : Z := 512.
Definition DefaultTopologyMaxOperationsPerService : Z := 64.
Definition DefaultTopologyMaxEdges : Z := 4096.
Definition DefaultTopologyMaxMetrics : Z := 4096.
Definition DefaultTopologyHorizon : Z := 30 * Minute.

(* internal/aggregate/topology.go:49-56 TopologyConfig *)
Record TopologyConfig := mkTopologyConfig {
  MaxServices : Z;
  MaxOperationsPerService : Z;
  MaxEdges : Z;
  MaxMetrics : Z;
  Horizon : Z;
}.

Definition positive_or (x d : Z) : Z := if x <=? 0 then d else x.

(* internal/aggregate/topology.go:58-75 TopologyConfig.withDefaults *)
Definition topo_withDefaults (c : TopologyConfig) : TopologyConfig :=
  mkTopologyConfig (positive_or (MaxServices c) DefaultTopologyMaxServices)
    (positive_or (MaxOperationsPerService c) DefaultTopologyMaxOperationsPerService)
    (positive_or (MaxEdges c) DefaultTopologyMaxEdges) (positive_or (MaxMetrics c) DefaultTopologyMaxMetrics)
    (positive_or (Horizon c) DefaultTopologyHorizon).

(** ** State *)

(* internal/aggregate/topology.go:283-295 topoWindowState *)
Record topoWindowState := mkTopoWindow {
  tw_count : Z;
  tw_errors : Z;
  tw_durCount : Z;
  tw_durSum : f64;
  tw_durMin : f64;
  tw_durMax : f64;
  tw_sketch : option Sketch;
  tw_valueCount : Z;
  tw_valueSum : f64;
  tw_valueMin : f64;
  tw_valueMax : f64;
}.

Definition zero_window : topoWindowState := mkTopoWindow 0 0 0 f_zero f_zero f_zero None 0 f_zero f_zero f_zero.

(* internal/aggregate/topology.go:297-301 topoEntry *)
Record topoEntry := mkTopoEntry { te_first : time; te_last : time; te_windows : gmap Z topoWindowState }.

(* internal/aggregate/topology.go:303-305 newTopoEntry *)
Definition newTopoEntry : topoEntry := mkTopoEntry 0 0 ∅.

Abbreviation topoPair := (string * string)%type (only parsing).

(* internal/aggregate/topology.go:307-322 tenantTopology *)
Record tenantTopology := mkTenantTopology {
  tt_services : gmap string topoEntry;
  tt_ops : gmap topoPair topoEntry;
  tt_edges : gmap topoPair topoEntry;
  tt_metrics : gmap topoPair topoEntry;
  tt_opsPerService : gmap string Z;
  tt_revision : Z;
  tt_droppedServices : Z;
  tt_droppedOperations : Z;
  tt_droppedEdges : Z;
  tt_droppedMetrics : Z;
  tt_identityByWindow : gmap Z IdentityCoverage;
}.

(* internal/aggregate/topology.go:324-333 newTenantTopology *)
Definition newTenantTopology : tenantTopology := mkTenantTopology ∅ ∅ ∅ ∅ ∅ 0 0 0 0 0 ∅.

(* internal/aggregate/topology.go:339-345 topologyProjection *)
Record topologyProjection := mkProjection { tp_cfg : TopologyConfig; tp_epoch : Z; tp_tenants : gmap string tenantTopology }.

(* internal/aggregate/topology.go:347-353 newTopologyProjection *)
Definition newTopologyProjection (cfg : TopologyConfig) (epoch : Z) : topologyProjection :=
  mkProjection (topo_withDefaults cfg) epoch ∅.

Definition set_services (t : tenantTopology) services dropped : tenantTopology :=
  mkTenantTopology services (tt_ops t) (tt_edges t) (tt_metrics t) (tt_opsPerService t) (tt_revision t)
    dropped (tt_droppedOperations t) (tt_droppedEdges t) (tt_droppedMetrics t) (tt_identityByWindow t).
Definition set_ops (t : tenantTopology) ops perService dropped : tenantTopology :=
  mkTenantTopology (tt_services t) ops (tt_edges t) (tt_metrics t) perService (tt_revision t)
    (tt_droppedServices t) dropped (tt_droppedEdges t) (tt_droppedMetrics t) (tt_identityByWindow t).
Definition set_edges (t : tenantTopology) edges dropped : tenantTopology :=
  mkTenantTopology (tt_services t) (tt_ops t) edges (tt_metrics t) (tt_opsPerService t) (tt_revision t)
    (tt_droppedServices t) (tt_droppedOperations t) dropped (tt_droppedMetrics t) (tt_identityByWindow t).
Definition set_metrics (t : tenantTopology) metrics dropped : tenantTopology :=
  mkTenantTopology (tt_services t) (tt_ops t) (tt_edges t) metrics (tt_opsPerService t) (tt_revision t)
    (tt_droppedServices t) (tt_droppedOperations t) (tt_droppedEdges t) dropped (tt_identityByWindow t).
Definition set_identity (t : tenantTopology) identity : tenantTopology :=
  mkTenantTopology (tt_services t) (tt_ops t) (tt_edges t) (tt_metrics t) (tt_opsPerService t) (tt_revision t)
    (tt_droppedServices t) (tt_droppedOperations t) (tt_droppedEdges t) (tt_droppedMetrics t) identity.
Definition set_trevision (t : tenantTopology) revision : tenantTopology :=
  mkTenantTopology (tt_services t) (tt_ops t) (tt_edges t) (tt_metrics t) (tt_opsPerService t) revision
    (tt_droppedServices t) (tt_droppedOperations t) (tt_droppedEdges t) (tt_droppedMetrics t) (tt_identityByWindow t).
Definition set_tenants (p : topologyProjection) tenants : topologyProjection := mkProjection (tp_cfg p) (tp_epoch p) tenants.

(** ** Folding one delta *)

Section Folding.
Context `{GoMath}.

(** The duration part of a window, and the value part. *)
Definition merge_duration (w : topoWindowState) (d : AggregateDelta) (withSketch : bool) : option topoWindowState :=
  let x := d_durations d in
  if 0 <? d_DurationCount x then
    sk ← (if withSketch && match d_Sketch d with Some _ => true | None => false end
          then Some <$> Merge (default NewSketch (tw_sketch w)) (d_Sketch d) else Some (tw_sketch w));
    Some (mkTopoWindow (tw_count w) (tw_errors w) (u64 (tw_durCount w + d_DurationCount x)) (fadd (tw_durSum w) (d_DurationSum x))
      (track_min (tw_durCount w) (d_DurationMin x) (tw_durMin w)) (track_max (tw_durCount w) (d_DurationMax x) (tw_durMax w))
      sk (tw_valueCount w) (tw_valueSum w) (tw_valueMin w) (tw_valueMax w))
  else Some w.

Definition merge_values (w : topoWindowState) (count : Z) (lo hi sum : f64) : topoWindowState :=
  mkTopoWindow (tw_count w) (tw_errors w) (tw_durCount w) (tw_durSum w) (tw_durMin w) (tw_durMax w) (tw_sketch w)
    (u64 (tw_valueCount w + count)) (fadd (tw_valueSum w) sum)
    (track_min (tw_valueCount w) lo (tw_valueMin w)) (track_max (tw_valueCount w) hi (tw_valueMax w)).

(* internal/aggregate/topology.go:520-561 mergeTopoWindow *)
Definition mergeTopoWindow (w : topoWindowState) (d : AggregateDelta) (withSketch : bool) : option topoWindowState :=
  let w := mkTopoWindow (u64 (tw_count w + d_Count (d_counts d))) (u64 (tw_errors w + d_ErrorCount (d_counts d)))
    (tw_durCount w) (tw_durSum w) (tw_durMin w) (tw_durMax w) (tw_sketch w)
    (tw_valueCount w) (tw_valueSum w) (tw_valueMin w) (tw_valueMax w) in
  w ← merge_duration w d withSketch;
  let g := d_gauges d in
  let inc := d_CounterDelta (d_counters d) in
  Some
    (if 0 <? d_GaugeCount g then merge_values w (d_GaugeCount g) (d_GaugeMin g) (d_GaugeMax g) (d_GaugeSum g)
     else if negb (feq inc f_zero) then merge_values w 1 inc inc inc
     else w).

(** The times of an entry after a delta of [window]; [WindowSize] is
    [windowSec] seconds. *)
(* internal/aggregate/topology.go:565-580 touchTimes *)
Definition touchTimes (e : topoEntry) (d : AggregateDelta) (window : Z) : topoEntry :=
  let l := d_logs d in
  let first := if t_IsZero (d_FirstTimestamp l) then t_of_unix window else d_FirstTimestamp l in
  let last := if t_IsZero (d_LastTimestamp l) then t_of_unix (window + windowSec) else d_LastTimestamp l in
  mkTopoEntry
    (if t_IsZero (te_first e) || t_Before first (te_first e) then first else te_first e)
    (if t_After last (te_last e) then last else te_last e)
    (te_windows e).

(* internal/aggregate/topology.go:451-459 foldEntry *)
Definition foldEntry (e : topoEntry) (window : Z) (d : AggregateDelta) (withSketch : bool) : option topoEntry :=
  w ← mergeTopoWindow (default zero_window (te_windows e !! window)) d withSketch;
  Some (touchTimes (mkTopoEntry (te_first e) (te_last e) (<[window := w]> (te_windows e))) d window).

(** [foldEntry] through the pointer a map holds. *)
Definition fold_at {K} `{Countable K} (m : gmap K topoEntry) (k : K) (window : Z) (d : AggregateDelta) (withSketch : bool)
    : option (gmap K topoEntry) :=
  match m !! k with
  | Some e => e ← foldEntry e window d withSketch; Some (<[k := e]> m)
  | None => Some m
  end.

Implicit Types (p : topologyProjection) (t : tenantTopology).

(* internal/aggregate/topology.go:461-472 topologyProjection.serviceEntry *)
Definition serviceEntry (cfg : TopologyConfig) t (service : string) : tenantTopology * bool :=
  match tt_services t !! service with
  | Some _ => (t, true)
  | None =>
      if MaxServices cfg <=? Z.of_nat (size (tt_services t)) then (set_services t (tt_services t) (u64 (tt_droppedServices t + 1)), false)
      else (set_services t (<[service := newTopoEntry]> (tt_services t)) (tt_droppedServices t), true)
  end.

(* internal/aggregate/topology.go:474-487 topologyProjection.operationEntry *)
Definition operationEntry (cfg : TopologyConfig) t (service operation : string) : tenantTopology * bool :=
  match tt_ops t !! (service, operation) with
  | Some _ => (t, true)
  | None =>
      if MaxOperationsPerService cfg <=? mget (tt_opsPerService t) service
      then (set_ops t (tt_ops t) (tt_opsPerService t) (u64 (tt_droppedOperations t + 1)), false)
      else
        (set_ops t (<[(service, operation) := newTopoEntry]> (tt_ops t))
          (<[service := mget (tt_opsPerService t) service + 1]> (tt_opsPerService t)) (tt_droppedOperations t), true)
  end.

(* internal/aggregate/topology.go:489-501 topologyProjection.edgeEntry *)
Definition edgeEntry (cfg : TopologyConfig) t (caller callee : string) : tenantTopology * bool :=
  match tt_edges t !! (caller, callee) with
  | Some _ => (t, true)
  | None =>
      if MaxEdges cfg <=? Z.of_nat (size (tt_edges t)) then (set_edges t (tt_edges t) (u64 (tt_droppedEdges t + 1)), false)
      else (set_edges t (<[(caller, callee) := newTopoEntry]> (tt_edges t)) (tt_droppedEdges t), true)
  end.

(* internal/aggregate/topology.go:503-515 topologyProjection.metricEntry *)
Definition metricEntry (cfg : TopologyConfig) t (service metric : string) : tenantTopology * bool :=
  match tt_metrics t !! (service, metric) with
  | Some _ => (t, true)
  | None =>
      if MaxMetrics cfg <=? Z.of_nat (size (tt_metrics t)) then (set_metrics t (tt_metrics t) (u64 (tt_droppedMetrics t + 1)), false)
      else (set_metrics t (<[(service, metric) := newTopoEntry]> (tt_metrics t)) (tt_droppedMetrics t), true)
  end.

(** The signal under which a kind's points with a lost name are counted. *)
Definition signal_of_kind (k : topoKind) : Z :=
  match k with topoTrace => SignalTraceOp | topoEdge => SignalServiceEdge | topoMetric => SignalMetric | topoLog => SignalLog end.

Definition count_identity t (id : topoIdentity) (window : Z) (d : AggregateDelta) : tenantTopology :=
  if ti_IdentityLimited id then
    set_identity t (<[window := coverage_add (default no_coverage (tt_identityByWindow t !! window))
      (signal_of_kind (ti_Kind id)) (d_Count (d_counts d))]> (tt_identityByWindow t))
  else t.

(** The entry, if it was admitted, folds the delta. *)
Definition fold_service (cfg : TopologyConfig) t (a : string) (window : Z) (d : AggregateDelta) : option (tenantTopology * bool) :=
  let '(t, ok) := serviceEntry cfg t a in
  if ok then m ← fold_at (tt_services t) a window d true; Some (set_services t m (tt_droppedServices t), true) else Some (t, false).
Definition fold_operation (cfg : TopologyConfig) t (a b : string) (window : Z) (d : AggregateDelta) : option (tenantTopology * bool) :=
  let '(t, ok) := operationEntry cfg t a b in
  if ok then m ← fold_at (tt_ops t) (a, b) window d false; Some (set_ops t m (tt_opsPerService t) (tt_droppedOperations t), true)
  else Some (t, false).
Definition fold_edge (cfg : TopologyConfig) t (a b : string) (window : Z) (d : AggregateDelta) : option (tenantTopology * bool) :=
  let '(t, ok) := edgeEntry cfg t a b in
  if ok then m ← fold_at (tt_edges t) (a, b) window d false; Some (set_edges t m (tt_droppedEdges t), true) else Some (t, false).
Definition fold_metric (cfg : TopologyConfig) t (a b : string) (window : Z) (d : AggregateDelta) : option (tenantTopology * bool) :=
  let '(t, ok) := metricEntry cfg t a b in
  if ok then m ← fold_at (tt_metrics t) (a, b) window d false; Some (set_metrics t m (tt_droppedMetrics t), true) else Some (t, false).

(* internal/aggregate/topology.go:404-448 topologyProjection.foldOne *)
Definition foldOne (cfg : TopologyConfig) t (id : topoIdentity) (window : Z) (d : AggregateDelta) : option (tenantTopology * bool) :=
  let changed := ti_IdentityLimited id in
  let t := count_identity t id window d in
  match ti_Kind id with
  | topoTrace =>
      '(t, s) ← fold_service cfg t (ti_A id) window d;
      if negb (String.eqb (ti_B id) "") then
        '(t, o) ← fold_operation cfg t (ti_A id) (ti_B id) window d; Some (t, changed || s || o)
      else Some (t, changed || s)
  | topoEdge => '(t, e) ← fold_edge cfg t (ti_A id) (ti_B id) window d; Some (t, changed || e)
  | topoMetric => '(t, m) ← fold_metric cfg t (ti_A id) (ti_B id) window d; Some (t, changed || m)
  | topoLog => Some (t, changed)
  end.

(** ** Pruning *)

(** Some key of the map is behind the cutoff. *)
Definition expires {A} (cutoff : Z) (m : gmap Z A) : bool := existsb (fun e => e.1 <? cutoff) (map_to_list m).

Definition trim (cutoff : Z) (e : topoEntry) : topoEntry :=
  mkTopoEntry (te_first e) (te_last e) (filter (fun '(start, _) => cutoff <= start) (te_windows e)).

(** The entry without its expired windows, whether it is empty, whether it changed. *)
(* internal/aggregate/topology.go:629-637 pruneEntry *)
Definition pruneEntry (e : topoEntry) (cutoff : Z) : topoEntry * bool * bool :=
  (trim cutoff e, bool_decide (size (te_windows (trim cutoff e)) = 0%nat), expires cutoff (te_windows e)).

Definition is_empty (cutoff : Z) (e : topoEntry) : bool := (pruneEntry e cutoff).1.2.

Definition prune_map {K} `{Countable K} (cutoff : Z) (m : gmap K topoEntry) : gmap K topoEntry :=
  omap (fun e => let '(e, empty, _) := pruneEntry e cutoff in if empty then None else Some e) m.

Definition prunes {K} `{Countable K} (cutoff : Z) (m : gmap K topoEntry) : bool :=
  existsb (fun ke => (pruneEntry ke.2 cutoff).2) (map_to_list m).

(** [opsPerService] gives up one operation of the service. *)
Definition refuse_entity (counts : gmap string Z) (service : string) : gmap string Z :=
  let n := mget counts service in
  if 1 <? n then <[service := n - 1]> counts else delete service counts.

Definition prune_counts (cutoff : Z) (ops : gmap topoPair topoEntry) (counts : gmap string Z) : gmap string Z :=
  foldl (fun counts ke => if is_empty cutoff ke.2 then refuse_entity counts ke.1.1 else counts) counts (map_to_list ops).

(* internal/aggregate/topology.go:585-626 topologyProjection.pruneTenantLocked *)
Definition pruneTenantLocked t (cutoff : Z) : tenantTopology * bool :=
  let identity := filter (fun '(window, _) => cutoff <= window) (tt_identityByWindow t) in
  (mkTenantTopology (prune_map cutoff (tt_services t)) (prune_map cutoff (tt_ops t)) (prune_map cutoff (tt_edges t))
     (prune_map cutoff (tt_metrics t)) (prune_counts cutoff (tt_ops t) (tt_opsPerService t)) (tt_revision t)
     (tt_droppedServices t) (tt_droppedOperations t) (tt_droppedEdges t) (tt_droppedMetrics t) identity,
   expires cutoff (tt_identityByWindow t) || prunes cutoff (tt_services t) || prunes cutoff (tt_ops t) ||
   prunes cutoff (tt_edges t) || prunes cutoff (tt_metrics t)).

(* internal/aggregate/topology.go:398-400 topologyProjection.retainCutoff *)
Definition retainCutoff p (now : time) : Z := WindowStart (now - Horizon (tp_cfg p)) - windowSec - latenessSec.

(** ** The whole fold

    [ids] lists the entries of the identity map in the order Go visits them. *)
Definition fold_one_id (cfg : TopologyConfig) (cutoff : Z) (deltas : gmap SeriesWindow AggregateDelta)
    (acc : gmap string tenantTopology * gset string * Z) (e : SeriesWindow * topoIdentity)
    : option (gmap string tenantTopology * gset string * Z) :=
  let '(tenants, touched, folded) := acc in
  let '(swk, id) := e in
  match deltas !! swk with
  | None => Some acc
  | Some d =>
      if swk.2 <? cutoff then Some acc
      else
        let t := default newTenantTopology (tenants !! ti_Tenant id) in
        '(t, landed) ← foldOne cfg t id swk.2 d;
        let tenants := <[ti_Tenant id := t]> tenants in
        Some (if (landed : bool) then (tenants, {[ti_Tenant id]} ∪ touched, folded + 1) else (tenants, touched, folded))
  end.

(** The touched tenants get the revision and are pruned. *)
Definition settle (touched : gset string) (revision cutoff : Z) (tenants : gmap string tenantTopology) : gmap string tenantTopology :=
  map_imap (fun name t => Some (if bool_decide (name ∈ touched) then (pruneTenantLocked (set_trevision t revision) cutoff).1 else t)) tenants.

(* internal/aggregate/topology.go:363-396 topologyProjection.fold *)
Definition fold p (now : time) (revision : Z) (ids : list (SeriesWindow * topoIdentity)) (deltas : gmap SeriesWindow AggregateDelta)
    : option (topologyProjection * Z) :=
  if Z.of_nat (length ids) =? 0 then Some (p, 0)
  else
    let cutoff := retainCutoff p now in
    '(tenants, touched, folded) ← opt_foldl (fold_one_id (tp_cfg p) cutoff deltas) (tp_tenants p, ∅, 0) ids;
    Some (set_tenants p (settle touched revision cutoff tenants), folded).

End Folding.

(** The revision is drawn once, when the first tenant changes; [names] is the
    order in which the tenants are visited. *)
Definition prune_one (cutoff : Z) (next : Z) (acc : gmap string tenantTopology * Z) (name : string) : gmap string tenantTopology * Z :=
  let '(tenants, revision) := acc in
  match tenants !! name with
  | Some t =>
      let '(t, changed) := pruneTenantLocked t cutoff in
      if changed then
        let revision := if revision =? 0 then next else revision in
        (<[name := set_trevision t revision]> tenants, revision)
      else (<[name := t]> tenants, revision)
  | None => (tenants, revision)
  end.

(** [next] is what [nextRevision] would return; the result says whether it was
    called. *)
(* internal/aggregate/topology.go:642-655 topologyProjection.Prune *)
Definition Prune (p : topologyProjection) (now : time) (next : Z) (names : list string) : topologyProjection * bool :=
  let '(tenants, revision) := foldl (prune_one (retainCutoff p now) next) (tp_tenants p, 0) names in
  (set_tenants p tenants, negb (revision =? 0)).

Definition str_le (a b : string) : Prop := String.leb a b = true.
#[global] Instance str_le_dec a b : Decision (str_le a b).
Proof. unfold str_le. apply _. Defined.

(* internal/aggregate/topology.go:658-667 topologyProjection.Tenants *)
Definition tp_Tenants (p : topologyProjection) : list string := merge_sort str_le (fst <$> map_to_list (tp_tenants p)).

(* internal/aggregate/topology.go:672-679 topologyProjection.Revision *)
Definition tp_Revision (p : topologyProjection) (tenant : string) : Z := from_option tt_revision 0 (tp_tenants p !! tenant).
