(* ===== verification/TopologyFacts.v ===== *)
(** * TopologyFacts: the projection counts each fact once and stays bounded

    The four kinds of entity are treated alike: [entry_of] looks one up,
    [concerns] says whether a fact folds into it, and [full] whether its cap
    refuses a new one.  The counts of a fold, the caps through any folds and
    prunes, and what pruning removes follow for all four at once. *)
From S2P Require Import Prelude SeriesKey Float64 Dict TopoIdentity Sketch Histogram Delta Limiter Baseline Engine Reducer Topology.
#[local] Open Scope Z_scope.

(** ** Entities *)

Inductive entity :=
| EService (a : string)
| EOperation (a b : string)
| EEdge (a b : string)
| EMetric (a b : string).

Definition entry_of (t : tenantTopology) (x : entity) : option topoEntry :=
  match x with
  | EService a => tt_services t !! a
  | EOperation a b => tt_ops t !! (a, b)
  | EEdge a b => tt_edges t !! (a, b)
  | EMetric a b => tt_metrics t !! (a, b)
  end.

Definition concerns (id : topoIdentity) (x : entity) : bool :=
  match ti_Kind id, x with
  | topoTrace, EService a => String.eqb (ti_A id) a
  | topoTrace, EOperation a b => negb (String.eqb (ti_B id) "") && String.eqb (ti_A id) a && String.eqb (ti_B id) b
  | topoEdge, EEdge a b | topoMetric, EMetric a b => String.eqb (ti_A id) a && String.eqb (ti_B id) b
  | _, _ => false
  end.

Definition full (cfg : TopologyConfig) (t : tenantTopology) (x : entity) : Prop :=
  match x with
  | EService _ => MaxServices cfg <= Z.of_nat (size (tt_services t))
  | EOperation a _ => MaxOperationsPerService cfg <= mget (tt_opsPerService t) a
  | EEdge _ _ => MaxEdges cfg <= Z.of_nat (size (tt_edges t))
  | EMetric _ _ => MaxMetrics cfg <= Z.of_nat (size (tt_metrics t))
  end.

(** The refusals counted for the entity's kind. *)
Definition dropped_of (t : tenantTopology) (x : entity) : Z :=
  match x with
  | EService _ => tt_droppedServices t
  | EOperation _ _ => tt_droppedOperations t
  | EEdge _ _ => tt_droppedEdges t
  | EMetric _ _ => tt_droppedMetrics t
  end.

Definition has_sketch (x : entity) : bool := match x with EService _ => true | _ => false end.

Section Facts.
Context `{GoMath}.
Implicit Types (t : tenantTopology) (x : entity).

(** A fact that concerns an entity folds into its entry, a new one if there
    was none, or is refused by the cap and counted, with at most [n] refusals;
    other entities keep theirs. *)
Record folded_into (n : Z) (cfg : TopologyConfig) t t' x (hit : bool) (w : Z) (d : AggregateDelta) : Prop := {
  fi_entry : if hit
    then (exists e', foldEntry (default newTopoEntry (entry_of t x)) w d (has_sketch x) = Some e' /\ entry_of t' x = Some e' /\
            (entry_of t x = None -> ~ full cfg t x)) \/
         (entry_of t x = None /\ entry_of t' x = None /\ full cfg t' x)
    else entry_of t' x = entry_of t x;
  fi_full : full cfg t x -> full cfg t' x;
  fi_dropped : exists r, 0 <= r <= n /\ eq64 (dropped_of t' x) (dropped_of t x + r) /\ (hit = true /\ entry_of t' x = None -> 0 < r);
}.

Lemma folded_into_skip cfg t t' x w d : entry_of t' x = entry_of t x -> (full cfg t x -> full cfg t' x) -> dropped_of t' x = dropped_of t x ->
  folded_into 0 cfg t t' x false w d.
Proof. intros E F D. constructor; [done|done|]. exists 0. rewrite D, Z.add_0_r. split_and!; [done|done|done|by intros []]. Qed.

Lemma size_grow {K} `{Countable K} {A} (m : gmap K A) k a : (size m <= size (<[k := a]> m))%nat.
Proof. rewrite map_size_insert. destruct (m !! k); cbn; lia. Qed.

(** The four entry functions with the fold that follows do this to their map. *)
Definition slot {K} `{Countable K} (m : gmap K topoEntry) (refuse : bool) (k : K) (w : Z) (d : AggregateDelta) (sk : bool)
    (m' : gmap K topoEntry) (ok : bool) : Prop :=
  (exists e', foldEntry (default newTopoEntry (m !! k)) w d sk = Some e' /\ m' = <[k := e']> m /\ ok = true /\ (m !! k = None -> refuse = false)) \/
  (m !! k = None /\ refuse = true /\ m' = m /\ ok = false).

Definition count_refusal (ok : bool) (n : Z) : Z := if ok then n else u64 (n + 1).

Lemma count_refusal_spec {K} `{Countable K} (m m' : gmap K topoEntry) refuse k w d sk ok k' n (hit : bool) :
  slot m refuse k w d sk m' ok -> (hit = true -> k = k') ->
  exists r, 0 <= r <= 1 /\ eq64 (count_refusal ok n) (n + r) /\ (hit = true /\ m' !! k' = None -> 0 < r).
Proof.
  intros [(e' & _ & -> & -> & _)|(_ & _ & -> & ->)] Hk; [exists 0|exists 1]; split_and!; try done; cbn [count_refusal].
  - by rewrite Z.add_0_r.
  - intros [-> Hn]. rewrite Hk in Hn by done. by rewrite lookup_insert_eq in Hn.
  - apply u64_eq64.
Qed.

Lemma fold_at_new {K} `{Countable K} (m : gmap K topoEntry) k w d sk m' :
  m !! k = None -> fold_at (<[k := newTopoEntry]> m) k w d sk = Some m' -> slot m false k w d sk m' true.
Proof.
  intros E. unfold fold_at. rewrite lookup_insert_eq. destruct (foldEntry newTopoEntry w d sk) as [e'|] eqn:F; [|done].
  intros [= <-]. left. exists e'. by rewrite E, insert_insert_eq.
Qed.

Lemma fold_at_old {K} `{Countable K} (m : gmap K topoEntry) k w d sk m' refuse e :
  m !! k = Some e -> fold_at m k w d sk = Some m' -> slot m refuse k w d sk m' true.
Proof.
  intros E. unfold fold_at. rewrite E. destruct (foldEntry e w d sk) as [e'|] eqn:F; [|done]. intros [= <-]. left. exists e'. by rewrite E.
Qed.

Lemma fold_service_slot cfg t a w d t' ok : fold_service cfg t a w d = Some (t', ok) ->
  exists m, slot (tt_services t) (MaxServices cfg <=? Z.of_nat (size (tt_services t))) a w d true m ok /\ t' = set_services t m (count_refusal ok (tt_droppedServices t)).
Proof.
  unfold fold_service, serviceEntry. destruct (tt_services t !! a) as [e|] eqn:E.
  - destruct (fold_at _ _ _ _ _) as [m|] eqn:F; [|done]. intros [= <- <-]. eexists. split; [by eapply fold_at_old|done].
  - destruct (_ <=? _) eqn:Ef; [intros [= <- <-]; eexists; split; [by right|done]|].
    cbn [tt_services set_services]. destruct (fold_at _ _ _ _ _) as [m|] eqn:F; [|done]. intros [= <- <-].
    eexists. split; [by apply fold_at_new|done].
Qed.

Lemma fold_edge_slot cfg t a b w d t' ok : fold_edge cfg t a b w d = Some (t', ok) ->
  exists m, slot (tt_edges t) (MaxEdges cfg <=? Z.of_nat (size (tt_edges t))) (a, b) w d false m ok /\ t' = set_edges t m (count_refusal ok (tt_droppedEdges t)).
Proof.
  unfold fold_edge, edgeEntry. destruct (tt_edges t !! (a, b)) as [e|] eqn:E.
  - destruct (fold_at _ _ _ _ _) as [m|] eqn:F; [|done]. intros [= <- <-]. eexists. split; [by eapply fold_at_old|done].
  - destruct (_ <=? _) eqn:Ef; [intros [= <- <-]; eexists; split; [by right|done]|].
    cbn [tt_edges set_edges]. destruct (fold_at _ _ _ _ _) as [m|] eqn:F; [|done]. intros [= <- <-].
    eexists. split; [by apply fold_at_new|done].
Qed.

Lemma fold_metric_slot cfg t a b w d t' ok : fold_metric cfg t a b w d = Some (t', ok) ->
  exists m, slot (tt_metrics t) (MaxMetrics cfg <=? Z.of_nat (size (tt_metrics t))) (a, b) w d false m ok /\ t' = set_metrics t m (count_refusal ok (tt_droppedMetrics t)).
Proof.
  unfold fold_metric, metricEntry. destruct (tt_metrics t !! (a, b)) as [e|] eqn:E.
  - destruct (fold_at _ _ _ _ _) as [m|] eqn:F; [|done]. intros [= <- <-]. eexists. split; [by eapply fold_at_old|done].
  - destruct (_ <=? _) eqn:Ef; [intros [= <- <-]; eexists; split; [by right|done]|].
    cbn [tt_metrics set_metrics]. destruct (fold_at _ _ _ _ _) as [m|] eqn:F; [|done]. intros [= <- <-].
    eexists. split; [by apply fold_at_new|done].
Qed.

Lemma fold_operation_slot cfg t a b w d t' ok : fold_operation cfg t a b w d = Some (t', ok) ->
  exists m, slot (tt_ops t) (MaxOperationsPerService cfg <=? mget (tt_opsPerService t) a) (a, b) w d false m ok /\
    t' = set_ops t m (if bool_decide (tt_ops t !! (a, b) = None) && ok then <[a := mget (tt_opsPerService t) a + 1]> (tt_opsPerService t)
                      else tt_opsPerService t) (count_refusal ok (tt_droppedOperations t)).
Proof.
  unfold fold_operation, operationEntry. destruct (tt_ops t !! (a, b)) as [e|] eqn:E.
  - destruct (fold_at _ _ _ _ _) as [m|] eqn:F; [|done]. intros [= <- <-]. eexists. split; [by eapply fold_at_old|done].
  - destruct (_ <=? _) eqn:Ef; [intros [= <- <-]; eexists; split; [by right|done]|].
    cbn [tt_ops set_ops tt_opsPerService]. destruct (fold_at _ _ _ _ _) as [m|] eqn:F; [|done]. intros [= <- <-].
    eexists. split; [by apply fold_at_new|done].
Qed.

(** The entry of one key, from the slot. *)
Lemma slot_entry {K} `{Countable K} (m m' : gmap K topoEntry) refuse k w d sk ok k' : slot m refuse k w d sk m' ok ->
  if decide (k = k')
  then (exists e', foldEntry (default newTopoEntry (m !! k')) w d sk = Some e' /\ m' !! k' = Some e' /\ (m !! k' = None -> refuse = false)) \/
       (m !! k' = None /\ m' !! k' = None /\ refuse = true)
  else m' !! k' = m !! k'.
Proof.
  intros [(e' & F & -> & _ & Hf)|(E & Hr & -> & _)]; destruct (decide (k = k')) as [<-|Hne]; [left; exists e'; by rewrite lookup_insert_eq|by rewrite lookup_insert_ne|by right|done].
Qed.

Lemma slot_size {K} `{Countable K} (m m' : gmap K topoEntry) refuse k w d sk ok : slot m refuse k w d sk m' ok -> (size m <= size m')%nat.
Proof. intros [(e' & _ & -> & _)|(_ & _ & -> & _)]; [apply size_grow|done]. Qed.

Lemma decide_eqb (a a' : string) {A} (X Y : A) : (if decide (a = a') then X else Y) = (if String.eqb a a' then X else Y).
Proof. destruct (String.eqb_spec a a'); by destruct (decide (a = a')). Qed.

Lemma decide_pair (a b a' b' : string) {A} (X Y : A) :
  (if decide ((a, b) = (a', b')) then X else Y) = (if String.eqb a a' && String.eqb b b' then X else Y).
Proof. destruct (String.eqb_spec a a'), (String.eqb_spec b b'), (decide _); cbn [andb]; congruence. Qed.

Lemma folded_into_le n n' cfg t t' x hit w d : n <= n' -> folded_into n cfg t t' x hit w d -> folded_into n' cfg t t' x hit w d.
Proof. intros Hn [A B (r & Hr & Hd)]. constructor; [done|done|]. exists r. split; [lia|done]. Qed.

Lemma eqb_pair (a b a' b' : string) : String.eqb a a' && String.eqb b b' = true -> (a, b) = (a', b').
Proof. by intros [->%String.eqb_eq ->%String.eqb_eq]%andb_true_iff. Qed.

Lemma fold_service_into cfg t a w d t' ok x : fold_service cfg t a w d = Some (t', ok) ->
  folded_into 1 cfg t t' x (match x with EService a' => String.eqb a a' | _ => false end) w d.
Proof.
  intros (m & Hs & ->)%fold_service_slot. destruct x as [a'|a' b'|a' b'|a' b']; try (by apply (folded_into_le 0); [done|apply folded_into_skip]).
  constructor; cbn [entry_of full dropped_of has_sketch tt_services set_services tt_droppedServices].
  - pose proof (slot_entry _ _ _ _ _ _ _ _ a' Hs) as He. rewrite decide_eqb in He. destruct (String.eqb a a'); [|done].
    destruct He as [(e' & Fe & Le & Re)|(? & ? & Hr%Z.leb_le)]; [left; exists e'; split_and!; [done|done|intros Hno%Re%Z.leb_gt; lia]|right]. apply slot_size in Hs. split_and!; [done|done|lia].
  - apply slot_size in Hs. lia.
  - apply (count_refusal_spec _ _ _ _ _ _ _ _ a' _ _ Hs). apply String.eqb_eq.
Qed.

Lemma fold_edge_into cfg t a b w d t' ok x : fold_edge cfg t a b w d = Some (t', ok) ->
  folded_into 1 cfg t t' x (match x with EEdge a' b' => String.eqb a a' && String.eqb b b' | _ => false end) w d.
Proof.
  intros (m & Hs & ->)%fold_edge_slot. destruct x as [a'|a' b'|a' b'|a' b']; try (by apply (folded_into_le 0); [done|apply folded_into_skip]).
  constructor; cbn [entry_of full dropped_of has_sketch tt_edges set_edges tt_droppedEdges].
  - pose proof (slot_entry _ _ _ _ _ _ _ _ (a', b') Hs) as He. rewrite decide_pair in He. destruct (_ && _); [|done].
    destruct He as [(e' & Fe & Le & Re)|(? & ? & Hr%Z.leb_le)]; [left; exists e'; split_and!; [done|done|intros Hno%Re%Z.leb_gt; lia]|right]. apply slot_size in Hs. split_and!; [done|done|lia].
  - apply slot_size in Hs. lia.
  - apply (count_refusal_spec _ _ _ _ _ _ _ _ (a', b') _ _ Hs). apply eqb_pair.
Qed.

Lemma fold_metric_into cfg t a b w d t' ok x : fold_metric cfg t a b w d = Some (t', ok) ->
  folded_into 1 cfg t t' x (match x with EMetric a' b' => String.eqb a a' && String.eqb b b' | _ => false end) w d.
Proof.
  intros (m & Hs & ->)%fold_metric_slot. destruct x as [a'|a' b'|a' b'|a' b']; try (by apply (folded_into_le 0); [done|apply folded_into_skip]).
  constructor; cbn [entry_of full dropped_of has_sketch tt_metrics set_metrics tt_droppedMetrics].
  - pose proof (slot_entry _ _ _ _ _ _ _ _ (a', b') Hs) as He. rewrite decide_pair in He. destruct (_ && _); [|done].
    destruct He as [(e' & Fe & Le & Re)|(? & ? & Hr%Z.leb_le)]; [left; exists e'; split_and!; [done|done|intros Hno%Re%Z.leb_gt; lia]|right]. apply slot_size in Hs. split_and!; [done|done|lia].
  - apply slot_size in Hs. lia.
  - apply (count_refusal_spec _ _ _ _ _ _ _ _ (a', b') _ _ Hs). apply eqb_pair.
Qed.

Lemma fold_operation_into cfg t a b w d t' ok x : fold_operation cfg t a b w d = Some (t', ok) ->
  folded_into 1 cfg t t' x (match x with EOperation a' b' => String.eqb a a' && String.eqb b b' | _ => false end) w d.
Proof.
  intros (m & Hs & ->)%fold_operation_slot. destruct x as [a'|a' b'|a' b'|a' b']; try (by apply (folded_into_le 0); [done|apply folded_into_skip]).
  assert (forall (c : bool) a0, MaxOperationsPerService cfg <= mget (tt_opsPerService t) a0 -> MaxOperationsPerService cfg <=
    mget (if c then <[a := mget (tt_opsPerService t) a + 1]> (tt_opsPerService t) else tt_opsPerService t) a0) as Hmono.
  { intros [] a0; [|done]. rewrite mget_insert. destruct (decide (a = a0)) as [->|]; lia. }
  constructor; cbn [entry_of full dropped_of has_sketch tt_ops set_ops tt_opsPerService tt_droppedOperations].
  - pose proof (slot_entry _ _ _ _ _ _ _ _ (a', b') Hs) as He. rewrite decide_pair in He. destruct (_ && _) eqn:Eq; [|done].
    apply andb_true_iff in Eq as [<-%String.eqb_eq _]. destruct He as [(e' & Fe & Le & Re)|(? & ? & Hr%Z.leb_le)]; [left; exists e'; split_and!; [done|done|intros Hno%Re%Z.leb_gt; lia]|right]. split_and!; [done|done|]. by apply Hmono.
  - apply Hmono.
  - apply (count_refusal_spec _ _ _ _ _ _ _ _ (a', b') _ _ Hs). apply eqb_pair.
Qed.

Lemma dropped_trans n n' (a b c : Z) (P Q R : Prop) :
  (exists r, 0 <= r <= n /\ eq64 b (a + r) /\ (P -> 0 < r)) -> (exists r, 0 <= r <= n' /\ eq64 c (b + r) /\ (Q -> 0 < r)) -> (R -> P \/ Q) ->
  exists r, 0 <= r <= n + n' /\ eq64 c (a + r) /\ (R -> 0 < r).
Proof.
  intros (r & Hr & E & Hp) (r' & Hr' & E' & Hq) HR. exists (r + r'). split_and!; [lia|lia|rewrite E', E; apply eq64_eq; lia|].
  intros [?%Hp|?%Hq]%HR; lia.
Qed.

Lemma folded_into_trans_r n n' cfg t t1 t' x hit w d :
  folded_into n cfg t t1 x hit w d -> folded_into n' cfg t1 t' x false w d -> folded_into (n + n') cfg t t' x hit w d.
Proof.
  intros [A B D] [A' B' D']. constructor; [|auto|apply (dropped_trans _ _ _ _ _ _ _ _ D D'); rewrite A'; by left].
  destruct hit; [|congruence]. rewrite A'. naive_solver.
Qed.

Lemma folded_into_trans_l n n' cfg t t1 t' x hit w d :
  folded_into n cfg t t1 x false w d -> folded_into n' cfg t1 t' x hit w d -> folded_into (n + n') cfg t t' x hit w d.
Proof.
  intros [A B D] [A' B' D']. constructor; [|auto|apply (dropped_trans _ _ _ _ _ _ _ _ D D'); by right].
  destruct hit; [|congruence]. rewrite A in A'. naive_solver.
Qed.

Lemma count_identity_skip cfg t id w d x w' d' : folded_into 0 cfg t (count_identity t id w d) x false w' d'.
Proof. unfold count_identity. destruct (ti_IdentityLimited id); [|by apply folded_into_skip]. destruct x; by apply folded_into_skip. Qed.

Lemma foldOne_into cfg t id w d t' ok x : foldOne cfg t id w d = Some (t', ok) -> folded_into 2 cfg t t' x (concerns id x) w d.
Proof.
  unfold foldOne, concerns. intros E. apply (folded_into_trans_l 0 2 cfg _ (count_identity t id w d)); [apply count_identity_skip|]. revert E.
  generalize (count_identity t id w d). intros t1. destruct (ti_Kind id).
  - destruct (fold_service _ _ _ _ _) as [[t2 s]|] eqn:E2; [|done]. cbn [mbind option_bind]. apply (fold_service_into _ _ _ _ _ _ _ x) in E2.
    destruct (negb (String.eqb (ti_B id) "")) eqn:Eb; cbn [andb].
    + destruct (fold_operation _ _ _ _ _ _) as [[t3 o]|] eqn:E3; [|done]. cbn [mbind option_bind]. apply (fold_operation_into _ _ _ _ _ _ _ _ x) in E3. intros [= <- _].
      destruct x as [a'|a' b'|a' b'|a' b']; [by apply (folded_into_trans_r 1 1 _ _ t2)|by apply (folded_into_trans_l 1 1 _ _ t2)..].
    + intros [= <- _]. apply (folded_into_le 1); [done|]. by destruct x.
  - destruct (fold_edge _ _ _ _ _ _) as [[t2 s]|] eqn:E2; [|done]. cbn [mbind option_bind]. apply (fold_edge_into _ _ _ _ _ _ _ _ x) in E2. intros [= <- _]. apply (folded_into_le 1); [done|]. by destruct x.
  - destruct (fold_metric _ _ _ _ _ _) as [[t2 s]|] eqn:E2; [|done]. cbn [mbind option_bind]. apply (fold_metric_into _ _ _ _ _ _ _ _ x) in E2. intros [= <- _]. apply (folded_into_le 1); [done|]. by destruct x.
  - intros [= <- _]. apply (folded_into_le 0); [done|]. by apply folded_into_skip.
Qed.

(** ** What a window counts *)

Definition value_at (f : topoWindowState -> Z) (o : option topoEntry) (w : Z) : Z :=
  from_option f 0 (e ← o; te_windows e !! w).

Definition window_at (o : option topoEntry) (w : Z) : option topoWindowState := e ← o; te_windows e !! w.

Lemma foldEntry_windows o w d sk e' w' : foldEntry (default newTopoEntry o) w d sk = Some e' ->
  w = w' \/ is_Some (window_at o w') -> is_Some (window_at (Some e') w').
Proof.
  unfold foldEntry. destruct (mergeTopoWindow _ _ _) as [w1|]; [|done]. intros [= <-] Hw.
  unfold window_at. cbn [te_windows touchTimes mbind option_bind]. rewrite lookup_insert.
  destruct (decide (w = w')); [done|]. destruct Hw as [?|Hw]; [done|]. by destruct o.
Qed.

(** A counter of a window and what a delta adds to it. *)
Inductive tallied : (topoWindowState -> Z) -> (AggregateDelta -> Z) -> Prop :=
| tallied_points : tallied tw_count (fun d => d_Count (d_counts d))
| tallied_errors : tallied tw_errors (fun d => d_ErrorCount (d_counts d)).

Lemma mergeTopoWindow_tally f g w d sk w' : tallied f g -> mergeTopoWindow w d sk = Some w' -> f w' = u64 (f w + g d).
Proof.
  intros Ht. unfold mergeTopoWindow. destruct (merge_duration _ _ _) as [w1|] eqn:E; [|done]. cbn [mbind option_bind]. intros [= <-].
  assert (forall c lo hi s w, f (merge_values w c lo hi s) = f w) as Hv by (by destruct Ht).
  transitivity (f w1); [repeat case_match; by rewrite ?Hv|]. revert E. unfold merge_duration.
  destruct (0 <? _); [|intros [= <-]; by destruct Ht]. intros (s & _ & [= <-])%bind_Some. by destruct Ht.
Qed.

Lemma value_at_default f o w : f zero_window = 0 -> value_at f o w = f (default zero_window (te_windows (default newTopoEntry o) !! w)).
Proof. intros Hz. unfold value_at. destruct o as [e|]; cbn; [by destruct (te_windows e !! w)|done]. Qed.

Lemma foldEntry_tally f g o w d sk e' w' : tallied f g -> foldEntry (default newTopoEntry o) w d sk = Some e' ->
  eq64 (value_at f (Some e') w') (value_at f o w' + if w =? w' then g d else 0).
Proof.
  intros Ht. assert (f zero_window = 0) as Hz by (by destruct Ht). unfold foldEntry.
  destruct (mergeTopoWindow _ _ _) as [w1|] eqn:E; [|done]. cbn [mbind option_bind]. intros [= <-].
  apply (mergeTopoWindow_tally f g) in E; [|done]. rewrite (value_at_default f o) by done.
  unfold value_at. cbn [te_windows touchTimes mbind option_bind]. rewrite lookup_insert.
  destruct (Z.eqb_spec w w') as [<-|Hne].
  - rewrite decide_True by done. cbn [from_option]. by rewrite E, u64_eq64.
  - rewrite decide_False by done. rewrite Z.add_0_r. apply eq64_eq. by destruct (te_windows _ !! w').
Qed.

(** What the facts of a fold add to a counter of window [w] of [x]. *)
Definition fact_hits (cutoff : Z) (tenant : string) x (e : SeriesWindow * topoIdentity) : bool :=
  (cutoff <=? e.1.2) && String.eqb (ti_Tenant e.2) tenant && concerns e.2 x.

Definition fact_sum (g : AggregateDelta -> Z) (deltas : gmap SeriesWindow AggregateDelta) (cutoff : Z) (tenant : string) x (w : Z)
    (ids : list (SeriesWindow * topoIdentity)) : Z :=
  foldr (fun e acc => (match deltas !! e.1 with
    | Some d => if fact_hits cutoff tenant x e && (e.1.2 =? w) then g d else 0
    | None => 0
    end) + acc) 0 ids.

Definition tenant_at (tenants : gmap string tenantTopology) (name : string) : tenantTopology := default newTenantTopology (tenants !! name).

(** One fact against one tenant's entity. *)
Lemma fold_one_id_into cfg cutoff deltas acc e acc' name x : fold_one_id cfg cutoff deltas acc e = Some acc' ->
  exists hit d, folded_into 2 cfg (tenant_at acc.1.1 name) (tenant_at acc'.1.1 name) x hit e.1.2 d /\
    ((hit = true /\ deltas !! e.1 = Some d /\ fact_hits cutoff name x e = true) \/
     (hit = false /\ (deltas !! e.1 = None \/ fact_hits cutoff name x e = false))).
Proof.
  destruct acc as [[tenants touched] n]. destruct e as [swk nm]. unfold fold_one_id, fact_hits. cbn [fst snd].
  destruct (deltas !! swk) as [d|]; [|intros [= <-]; exists false, zero_delta; split; [by apply (folded_into_le 0); [done|apply folded_into_skip]|auto]].
  destruct (Z.ltb_spec swk.2 cutoff) as [Hc|Hc].
  { intros [= <-]. exists false, d. split; [by apply (folded_into_le 0); [done|apply folded_into_skip]|]. right. split; [done|]. right.
    by destruct (Z.leb_spec cutoff swk.2); [lia|]. }
  assert (cutoff <=? swk.2 = true) as -> by (by apply Z.leb_le). cbn [andb].
  destruct (foldOne _ _ _ _ _) as [[t landed]|] eqn:E; [|done]. cbn [mbind option_bind]. intros Hacc.
  assert (acc'.1.1 = <[ti_Tenant nm := t]> tenants) as -> by (destruct landed; by injection Hacc as <-).
  unfold tenant_at. rewrite lookup_insert. destruct (decide (ti_Tenant nm = name)) as [<-|Hne].
  - rewrite String.eqb_refl. cbn [andb from_option id]. exists (concerns nm x), d. split; [by eapply foldOne_into|].
    destruct (concerns nm x); auto.
  - exists false, d. split; [by apply (folded_into_le 0); [done|apply folded_into_skip]|]. right. split; [done|]. right.
    by destruct (String.eqb_spec (ti_Tenant nm) name).
Qed.

Lemma fold_loop f g cfg cutoff deltas name x w ids : tallied f g -> cutoff <= w -> forall acc acc',
  opt_foldl (fold_one_id cfg cutoff deltas) acc ids = Some acc' ->
  let t := tenant_at acc.1.1 name in let t' := tenant_at acc'.1.1 name in
  (entry_of t x <> None -> entry_of t' x <> None) /\
  (entry_of t x = None -> full cfg t x -> entry_of t' x = None) /\
  (entry_of t' x <> None -> eq64 (value_at f (entry_of t' x) w) (value_at f (entry_of t x) w + fact_sum g deltas cutoff name x w ids)) /\
  (exists r, 0 <= r <= 2 * Z.of_nat (length ids) /\ eq64 (dropped_of t' x) (dropped_of t x + r) /\
     (entry_of t' x = None /\ (exists e, e ∈ ids /\ is_Some (deltas !! e.1) /\ fact_hits cutoff name x e = true) -> 0 < r)) /\
  (forall w', entry_of t' x <> None ->
     is_Some (window_at (entry_of t x) w') \/
     (exists e, e ∈ ids /\ is_Some (deltas !! e.1) /\ fact_hits cutoff name x e = true /\ e.1.2 = w') -> is_Some (window_at (entry_of t' x) w')).
Proof.
  intros Ht Hw. induction ids as [|e ids IH]; intros acc acc'.
  { intros [= <-]. cbv zeta. split_and!; [done|done|intros _; cbn; by rewrite Z.add_0_r| |].
    - exists 0. split_and!; [done|done|by rewrite Z.add_0_r|]. by intros (_ & e & ?%elem_of_nil & _).
    - by intros w' _ [?|(e & ?%elem_of_nil & _)]. }
  rewrite opt_foldl_cons. intros (acc1 & E1 & E2). specialize (IH _ _ E2). cbv zeta in IH |- *.
  destruct (fold_one_id_into _ _ _ _ _ _ name x E1) as (hit & d & [Fe Ff Fd] & Hh).
  set (t := tenant_at acc.1.1 name) in *. set (t1 := tenant_at acc1.1.1 name) in *. set (t' := tenant_at acc'.1.1 name) in *.
  destruct IH as (I1 & I2 & I3 & I4 & I5).
  assert (entry_of t x <> None -> entry_of t1 x <> None) as Hkeep.
  { intros Hne. destruct hit; [|congruence]. destruct Fe as [(e' & _ & -> & _)|(? & _)]; done. }
  assert (entry_of t x = None -> full cfg t x -> entry_of t1 x = None) as Hno.
  { intros Hn Hf. destruct hit; [|congruence]. destruct Fe as [(e' & _ & _ & Hnf)|(_ & ? & _)]; [by destruct (Hnf Hn)|done]. }
  split_and!; [auto|auto| | |].
  - intros Hne. rewrite I3 by done. cbn [fact_sum foldr]. fold (fact_sum g deltas cutoff name x w ids).
    destruct Hh as [(-> & Hd & Hf)|(-> & Hf)].
    + rewrite Hd, Hf. destruct Fe as [(e' & Hfold & He & _)|(_ & Hn & Hfull)]; [|by rewrite I2 in Hne].
      rewrite He, (foldEntry_tally f g _ _ _ _ _ _ Ht Hfold). apply eq64_eq. cbn [andb]. lia.
    + rewrite Fe. apply eq64_eq. destruct Hf as [-> | ->]; [lia|]. cbn [andb]. destruct (deltas !! e.1); lia.
  - destruct Fd as (r1 & Hr1 & Er1 & P1), I4 as (r2 & Hr2 & Er2 & P2). exists (r1 + r2).
    cbn [length]. split_and!; [lia|lia|rewrite Er2, Er1; apply eq64_eq; lia|].
    intros (Hn & e0 & [->|Hin]%elem_of_cons & Hd & Hf).
    + assert (0 < r1); [|lia]. apply P1. destruct Hh as [(-> & _)|(_ & [Hd'|Hf'])]; [|by rewrite Hd' in Hd; destruct Hd|congruence].
      split; [done|]. destruct (entry_of t1 x) eqn:E; [|done]. by destruct (I1 ltac:(done)).
    + assert (0 < r2); [|lia]. apply P2. eauto.
  - intros w' Hne Hw'. apply I5; [done|]. destruct hit.
    + destruct Hh as [(_ & Hd & Hf)|(? & _)]; [|done]. destruct Fe as [(e' & Hfold & He & _)|(_ & Hn & Hfull)]; [|by rewrite I2 in Hne].
      rewrite He. destruct Hw' as [Hw'|(e0 & [->|Hin]%elem_of_cons & Hs & Hf' & Ew)]; [left; by eapply foldEntry_windows; eauto|
        left; eapply foldEntry_windows; [exact Hfold|by left]|right; eauto].
    + rewrite Fe. destruct Hw' as [Hw'|(e0 & [->|Hin]%elem_of_cons & Hs & Hf' & Ew)]; [by left| |right; eauto].
      exfalso. destruct Hh as [(? & _)|(_ & [Hd'|Hf''])]; [done|by rewrite Hd' in Hs; destruct Hs|congruence].
Qed.

(** *** Pruning *)

Lemma prune_entry t cutoff x : entry_of (pruneTenantLocked t cutoff).1 x =
  e ← entry_of t x; if is_empty cutoff e then None else Some (trim cutoff e).
Proof.
  destruct x; cbn [entry_of pruneTenantLocked fst tt_services tt_ops tt_edges tt_metrics]; unfold prune_map; rewrite lookup_omap;
    by destruct (_ !! _).
Qed.

Lemma window_at_trim cutoff e w : cutoff <= w -> window_at (Some (trim cutoff e)) w = window_at (Some e) w.
Proof.
  intros Hw. unfold window_at. cbn [mbind option_bind te_windows trim]. rewrite map_lookup_filter.
  destruct (te_windows e !! w) as [s|] eqn:E; cbn [mbind option_bind]; [|done]. by rewrite option_guard_True.
Qed.

Lemma value_at_window f o o' w : window_at o w = window_at o' w -> value_at f o w = value_at f o' w.
Proof. unfold value_at, window_at. by intros ->. Qed.

Lemma is_empty_window cutoff e w : is_empty cutoff e = true -> cutoff <= w -> window_at (Some e) w = None.
Proof.
  intros He Hw. rewrite <- (window_at_trim cutoff) by done. unfold is_empty, pruneEntry in He. cbn [fst snd] in He.
  apply bool_decide_eq_true, map_size_empty_iff in He. unfold window_at. cbn [mbind option_bind]. by rewrite He, lookup_empty.
Qed.

Lemma settle_at touched revision cutoff tenants name x :
  let t := tenant_at tenants name in let t' := tenant_at (settle touched revision cutoff tenants) name in
  dropped_of t' x = dropped_of t x /\
  (entry_of t' x = entry_of t x \/ entry_of t' x = e ← entry_of t x; if is_empty cutoff e then None else Some (trim cutoff e)).
Proof.
  cbv zeta. unfold tenant_at, settle. rewrite map_lookup_imap. destruct (tenants !! name) as [t|]; cbn [mbind option_bind from_option]; [|by destruct x; auto].
  unfold id. destruct (bool_decide _); [|auto]. split; [by destruct x|]. right. rewrite prune_entry. by destruct x.
Qed.

(** C28: a fold counts every fact once.  For every tenant, every service,
    operation, edge or metric that is in the projection after a fold, and
    every window the horizon retains: the window's points (and its errors)
    have grown by exactly the points (errors) of the deltas of this fold that
    name the entity and the window, each once, whatever the order of the
    facts, the caps and the pruning at the end.  And a fact of a retained
    window whose entity is not in the projection afterwards was counted as
    dropped, so the projection is then known to be truncated. *)
Theorem fold_counts p now revision ids deltas p' n name x w f g :
  fold p now revision ids deltas = Some (p', n) -> tallied f g -> retainCutoff p now <= w ->
  let t := tenant_at (tp_tenants p) name in let t' := tenant_at (tp_tenants p') name in
  (entry_of t' x <> None ->
     u64 (value_at f (entry_of t' x) w) =
       u64 (value_at f (entry_of t x) w + fact_sum g deltas (retainCutoff p now) name x w ids)) /\
  (forall e, e ∈ ids -> is_Some (deltas !! e.1) -> fact_hits (retainCutoff p now) name x e = true ->
     2 * Z.of_nat (length ids) < 2 ^ 64 -> entry_of t' x = None -> dropped_of t' x <> dropped_of t x).
Proof.
  intros Hfold Ht Hw. cbv zeta. unfold fold in Hfold. destruct ids as [|e0 ids].
  { injection Hfold as <- <-. split; [intros _; cbn; by rewrite Z.add_0_r|by intros e ?%elem_of_nil]. }
  cbn [length Z.of_nat Z.eqb] in Hfold. set (all := e0 :: ids) in *. set (cutoff := retainCutoff p now) in *.
  destruct (opt_foldl _ _ _) as [[[tenants touched] m]|] eqn:E; [|done]. cbn [mbind option_bind] in Hfold. injection Hfold as <- <-.
  destruct (fold_loop f g _ _ _ name x w _ Ht Hw _ _ E) as (_ & _ & I3 & (r & Hr & Er & Pr) & I5). cbn [fst tp_tenants set_tenants] in *.
  destruct (settle_at touched revision cutoff tenants name x) as [Hd He]. set (t1 := tenant_at tenants name) in *.
  set (t' := tenant_at (settle _ _ _ _) name) in *. set (t := tenant_at (tp_tenants p) name) in *. split.
  - intros Hne. assert (entry_of t1 x <> None /\ window_at (entry_of t' x) w = window_at (entry_of t1 x) w) as [Hne1 Hwin].
    { destruct He as [He|He]; rewrite He in Hne |- *; [done|]. destruct (entry_of t1 x) as [e|]; cbn [mbind option_bind] in *; [|done].
      split; [done|]. destruct (is_empty cutoff e); [done|]. by apply window_at_trim. }
    rewrite (value_at_window f _ _ w Hwin). by apply I3.
  - intros e Hin Hs Hh Hlen Hnone Heq. assert (0 < r) as Hpos.
    { apply Pr. split; [|eauto]. destruct (entry_of t1 x) as [e1|] eqn:E1; [|done]. exfalso.
      destruct (I5 e.1.2 ltac:(done)) as [s Hwin]; [right; by exists e|].
      destruct He as [He|He]; [congruence|]. rewrite He in Hnone. cbn [mbind option_bind] in Hnone.
      destruct (is_empty cutoff e1) eqn:Ee; [|done].
      apply (is_empty_window _ _ e.1.2) in Ee; [congruence|]. unfold fact_hits in Hh. z_bool. lia. }
    rewrite Hd in Heq. rewrite Heq in Er. unfold eq64, wrapu in Er.
    assert (r mod 2 ^ 64 = 0) as Hz.
    { replace r with (dropped_of t x + r - dropped_of t x) by lia. rewrite Zminus_mod, <- Er, Z.sub_diag. done. }
    rewrite Z.mod_small in Hz by lia. lia.
Qed.

End Facts.
