(* ===== verification/TopologyBounds.v ===== *)
(** * TopologyBounds: the caps of the projection, and pruning

    The invariant of a tenant's topology through folds and prunes: every map
    is within its cap, the operations counted per service are those that are
    there, and no entity is without a window.  Pruning removes the windows
    behind the horizon, all of them and nothing else. *)
From S2P Require Import Prelude SeriesKey Float64 Dict TopoIdentity Sketch Histogram Delta Limiter Baseline Engine Reducer Topology TopologyFacts.
#[local] Open Scope Z_scope.

(** The operations of a service. *)
Definition ops_of (ops : gmap (string * string) topoEntry) (service : string) : Z :=
  map_sum (fun k _ => if String.eqb k.1 service then 1 else 0) ops.

Record topo_ok (cfg : TopologyConfig) (t : tenantTopology) : Prop := {
  tk_services : Z.of_nat (size (tt_services t)) <= MaxServices cfg;
  tk_ops : forall s, mget (tt_opsPerService t) s = ops_of (tt_ops t) s /\ ops_of (tt_ops t) s <= MaxOperationsPerService cfg;
  tk_edges : Z.of_nat (size (tt_edges t)) <= MaxEdges cfg;
  tk_metrics : Z.of_nat (size (tt_metrics t)) <= MaxMetrics cfg;
  tk_windows : forall x e, entry_of t x = Some e -> te_windows e <> ∅;
}.

Section Bounds.
Context `{GoMath}.
Implicit Types (t : tenantTopology) (x : entity) (cfg : TopologyConfig).

Lemma slot_bound {K} `{Countable K} (m m' : gmap K topoEntry) cap k w d sk ok :
  slot m (cap <=? Z.of_nat (size m)) k w d sk m' ok -> Z.of_nat (size m) <= cap -> Z.of_nat (size m') <= cap.
Proof.
  intros [(e' & _ & -> & _ & Hn)|(_ & _ & -> & _)] Hc; [|done]. rewrite map_size_insert.
  destruct (m !! k); cbn; [done|]. specialize (Hn eq_refl). z_bool. lia.
Qed.

Lemma foldEntry_nonempty e w d sk e' : foldEntry e w d sk = Some e' -> te_windows e' <> ∅.
Proof.
  unfold foldEntry. destruct (mergeTopoWindow _ _ _) as [w1|]; [|done]. intros [= <-]. cbn. apply insert_non_empty.
Qed.

Lemma slot_nonempty {K} `{Countable K} (m m' : gmap K topoEntry) refuse k w d sk ok : slot m refuse k w d sk m' ok ->
  map_Forall (fun _ e => te_windows e <> ∅) m -> map_Forall (fun _ e => te_windows e <> ∅) m'.
Proof.
  intros [(e' & F & -> & _)|(_ & _ & -> & _)] Hm; [|done]. apply map_Forall_insert_2; [by eapply foldEntry_nonempty|done].
Qed.

(** The windows clause, map by map. *)
Lemma windows_maps t : (forall x e, entry_of t x = Some e -> te_windows e <> ∅) <->
  map_Forall (fun _ e => te_windows e <> ∅) (tt_services t) /\ map_Forall (fun _ e => te_windows e <> ∅) (tt_ops t) /\
  map_Forall (fun _ e => te_windows e <> ∅) (tt_edges t) /\ map_Forall (fun _ e => te_windows e <> ∅) (tt_metrics t).
Proof.
  split.
  - intros Hx. split_and!; [intros a e|intros [a b] e|intros [a b] e|intros [a b] e];
      [apply (Hx (EService a))|apply (Hx (EOperation a b))|apply (Hx (EEdge a b))|apply (Hx (EMetric a b))].
  - intros (H1 & H2 & H3 & H4) [a|a b|a b|a b] e; [apply H1|apply H2|apply H3|apply H4].
Qed.

Lemma ops_of_insert ops k e s : ops_of (<[k := e]> ops) s = ops_of ops s + if decide (ops !! k = None) then (if String.eqb k.1 s then 1 else 0) else 0.
Proof.
  unfold ops_of. rewrite map_sum_set. destruct (ops !! k); cbn [from_option]; [rewrite decide_False by done; lia|rewrite decide_True by done; lia].
Qed.

Lemma foldOne_ok cfg t id w d t' ok : topo_ok cfg t -> foldOne cfg t id w d = Some (t', ok) -> topo_ok cfg t'.
Proof.
  intros Ok. unfold foldOne. assert (topo_ok cfg (count_identity t id w d)) as Ok1.
  { destruct Ok as [A B C D W]. unfold count_identity. destruct (ti_IdentityLimited id); [|done]. constructor; try done; intros [] e; apply W. }
  revert Ok1. generalize (count_identity t id w d). clear Ok t. intros t Ok.
  assert (forall t2 s a, fold_service cfg t a w d = Some (t2, s) -> topo_ok cfg t2) as Hservice.
  { intros t2 s a (m & Hs & ->)%fold_service_slot. destruct Ok as [A B C D W%windows_maps]. destruct W as (W1 & W2 & W3 & W4).
    constructor; try done; [by apply (slot_bound _ _ _ _ _ _ _ _ Hs)|]. apply windows_maps. split_and!; try done. by eapply slot_nonempty. }
  destruct (ti_Kind id).
  - destruct (fold_service _ _ _ _ _) as [[t2 s]|] eqn:E2; [|done]. cbn [mbind option_bind]. apply Hservice in E2. clear Ok Hservice.
    destruct (negb _); [|by intros [= <- _]]. destruct (fold_operation _ _ _ _ _ _) as [[t3 o]|] eqn:E3; [|done]. intros [= <- _].
    apply fold_operation_slot in E3 as (m & Hs & ->). destruct E2 as [A B C D W%windows_maps]. destruct W as (W1 & W2 & W3 & W4).
    constructor; try done; [|apply windows_maps; split_and!; try done; by eapply slot_nonempty].
    intros s'. cbn [tt_opsPerService tt_ops set_ops]. destruct (B s') as [B1 B2], (B (ti_A id)) as [B3 B4].
    destruct Hs as [(e' & _ & -> & -> & Hn)|(_ & _ & -> & ->)]; [|rewrite andb_false_r; done].
    rewrite andb_true_r, ops_of_insert. cbn [fst]. destruct (decide (tt_ops t2 !! (ti_A id, ti_B id) = None)) as [Hnone|Hsome].
    + rewrite bool_decide_true by done. specialize (Hn Hnone). z_bool. rewrite mget_insert.
      destruct (String.eqb_spec (ti_A id) s') as [<-|Hne]; [rewrite decide_True by done|rewrite decide_False by done]; lia.
    + rewrite bool_decide_false by done. lia.
  - destruct (fold_edge _ _ _ _ _ _) as [[t2 s]|] eqn:E2; [|done]. cbn [mbind option_bind]. intros [= <- _].
    apply fold_edge_slot in E2 as (m & Hs & ->). destruct Ok as [A B C D W%windows_maps]. destruct W as (W1 & W2 & W3 & W4).
    constructor; try done; [by apply (slot_bound _ _ _ _ _ _ _ _ Hs)|]. apply windows_maps. split_and!; try done. by eapply slot_nonempty.
  - destruct (fold_metric _ _ _ _ _ _) as [[t2 s]|] eqn:E2; [|done]. cbn [mbind option_bind]. intros [= <- _].
    apply fold_metric_slot in E2 as (m & Hs & ->). destruct Ok as [A B C D W%windows_maps]. destruct W as (W1 & W2 & W3 & W4).
    constructor; try done; [by apply (slot_bound _ _ _ _ _ _ _ _ Hs)|]. apply windows_maps. split_and!; try done. by eapply slot_nonempty.
  - by intros [= <- _].
Qed.

(** ** Pruning keeps the counts exact *)

Definition removed (cutoff : Z) (service : string) (l : list ((string * string) * topoEntry)) : Z :=
  foldr (fun ke acc => (if is_empty cutoff ke.2 && String.eqb ke.1.1 service then 1 else 0) + acc) 0 l.

Lemma removed_nonneg cutoff s l : 0 <= removed cutoff s l.
Proof. induction l as [|ke l IH]; [done|]. cbn [removed foldr]. fold (removed cutoff s l). destruct (_ && _); lia. Qed.

Lemma refuse_entity_spec counts s s' : 1 <= mget counts s -> mget (refuse_entity counts s) s' = mget counts s' - if String.eqb s s' then 1 else 0.
Proof.
  intros Hn. unfold refuse_entity. destruct (Z.ltb_spec 1 (mget counts s)); rewrite ?mget_insert, ?mget_delete;
    destruct (String.eqb_spec s s') as [<-|]; [rewrite decide_True by done|rewrite decide_False by done|rewrite decide_True by done|rewrite decide_False by done]; lia.
Qed.

Lemma prune_counts_list cutoff l : forall counts, (forall s, removed cutoff s l <= mget counts s) -> forall s,
  mget (foldl (fun counts ke => if is_empty cutoff ke.2 then refuse_entity counts ke.1.1 else counts) counts l) s = mget counts s - removed cutoff s l.
Proof.
  induction l as [|ke l IH]; intros counts Hle s; [cbn; lia|]. cbn [foldl]. assert (forall s, removed cutoff s (ke :: l) =
    (if is_empty cutoff ke.2 && String.eqb ke.1.1 s then 1 else 0) + removed cutoff s l) as Hr by done.
  destruct (is_empty cutoff ke.2) eqn:E; cbn [andb] in Hr.
  - pose proof (Hle ke.1.1) as H1. rewrite Hr, String.eqb_refl in H1. pose proof (removed_nonneg cutoff ke.1.1 l).
    rewrite IH; [rewrite refuse_entity_spec, Hr by lia; lia|]. intros s'. rewrite refuse_entity_spec by lia. specialize (Hle s'). rewrite Hr in Hle. lia.
  - rewrite IH; [rewrite Hr; lia|]. intros s'. specialize (Hle s'). rewrite Hr in Hle. lia.
Qed.

Lemma removed_map cutoff s m : removed cutoff s (map_to_list m) =
  map_sum (fun k e => if is_empty cutoff e && String.eqb k.1 s then 1 else 0) m.
Proof.
  unfold removed, map_sum. rewrite map_fold_foldr. induction (map_to_list m) as [|[k e] l IH]; [done|]. cbn [foldr fst snd uncurry]. by rewrite IH.
Qed.

Lemma prune_map_insert {K} `{Countable K} cutoff (m : gmap K topoEntry) k e :
  prune_map cutoff (<[k := e]> m) = if is_empty cutoff e then delete k (prune_map cutoff m) else <[k := trim cutoff e]> (prune_map cutoff m).
Proof. unfold prune_map. rewrite omap_insert. unfold is_empty. cbn [pruneEntry fst snd]. by destruct (bool_decide _). Qed.

Lemma ops_of_prune cutoff m s : ops_of (prune_map cutoff m) s = ops_of m s - removed cutoff s (map_to_list m).
Proof.
  rewrite removed_map. induction m as [|k e m Hk IH] using map_ind; [done|].
  rewrite ops_of_insert, Hk, decide_True by done. rewrite map_sum_insert by done.
  rewrite prune_map_insert. assert (prune_map cutoff m !! k = None) as Hn by (unfold prune_map; by rewrite lookup_omap, Hk).
  destruct (is_empty cutoff e); cbn [andb].
  - rewrite delete_id, IH by done. lia.
  - rewrite ops_of_insert, Hn, decide_True, IH by done. lia.
Qed.

Lemma removed_le cutoff s m : removed cutoff s (map_to_list m) <= ops_of m s.
Proof.
  rewrite removed_map. unfold ops_of. induction m as [|k e m Hk IH] using map_ind; [done|].
  rewrite !map_sum_insert by done. destruct (is_empty cutoff e), (String.eqb k.1 s); cbn [andb]; lia.
Qed.

Lemma prune_size {K} `{Countable K} cutoff (m : gmap K topoEntry) : (size (prune_map cutoff m) <= size m)%nat.
Proof.
  rewrite <- !size_dom. apply subseteq_size. intros k [e He]%elem_of_dom. unfold prune_map in He. rewrite lookup_omap in He.
  apply elem_of_dom. by destruct (m !! k).
Qed.

Lemma prune_ok cfg t cutoff : topo_ok cfg t -> topo_ok cfg (pruneTenantLocked t cutoff).1.
Proof.
  intros [A B C D W]. constructor; cbn [pruneTenantLocked fst tt_services tt_ops tt_edges tt_metrics tt_opsPerService].
  - pose proof (prune_size cutoff (tt_services t)). lia.
  - intros s. destruct (B s) as [B1 B2]. rewrite ops_of_prune. unfold prune_counts. rewrite prune_counts_list.
    + pose proof (removed_nonneg cutoff s (map_to_list (tt_ops t))). lia.
    + intros s'. destruct (B s') as [-> _]. apply removed_le.
  - pose proof (prune_size cutoff (tt_edges t)). lia.
  - pose proof (prune_size cutoff (tt_metrics t)). lia.
  - intros x e. change (entry_of (pruneTenantLocked t cutoff).1 x = Some e -> te_windows e <> ∅). rewrite prune_entry. destruct (entry_of t x) as [e0|]; cbn [mbind option_bind]; [|done].
    destruct (is_empty cutoff e0) eqn:Ee; [done|]. intros [= <-] E. unfold is_empty, pruneEntry in Ee. cbn [fst snd] in Ee.
    rewrite E, map_size_empty in Ee. done.
Qed.

(** ** Reachable projections *)

Inductive projected (cfg : TopologyConfig) (epoch : Z) : topologyProjection -> Prop :=
| projected_new : projected cfg epoch (newTopologyProjection cfg epoch)
| projected_fold p now revision ids deltas p' n : projected cfg epoch p -> fold p now revision ids deltas = Some (p', n) -> projected cfg epoch p'
| projected_prune p now next names : projected cfg epoch p -> projected cfg epoch (Prune p now next names).1.

Definition all_ok cfg (tenants : gmap string tenantTopology) : Prop := map_Forall (fun _ t => topo_ok cfg t) tenants.

Lemma topo_ok_new cfg : topo_ok (topo_withDefaults cfg) newTenantTopology.
Proof.
  assert (forall a d, 0 < d -> 0 <= positive_or a d) as Hp by (intros a d Hd; unfold positive_or; destruct (a <=? 0) eqn:E; z_bool; lia).
  constructor; cbn [newTenantTopology tt_services tt_edges tt_metrics tt_ops tt_opsPerService topo_withDefaults MaxServices MaxEdges MaxMetrics MaxOperationsPerService];
    [by apply Hp|intros s; split; [done|by apply Hp]|by apply Hp|by apply Hp|by intros [] e].
Qed.

Lemma fold_ids_ok cfg cutoff deltas ids : forall acc acc', all_ok (topo_withDefaults cfg) acc.1.1 ->
  opt_foldl (fold_one_id (topo_withDefaults cfg) cutoff deltas) acc ids = Some acc' -> all_ok (topo_withDefaults cfg) acc'.1.1.
Proof.
  induction ids as [|[swk nm] ids IH]; intros [[tenants touched] n] acc' Hok; [by intros [= <-]|].
  rewrite opt_foldl_cons. intros (acc1 & E1 & E2). refine (IH _ _ _ E2). unfold fold_one_id in E1.
  destruct (deltas !! swk) as [d|]; [|by injection E1 as <-]. destruct (_ <? _); [by injection E1 as <-|].
  destruct (foldOne _ _ _ _ _) as [[t landed]|] eqn:E; [|done]. cbn [mbind option_bind] in E1.
  assert (acc1.1.1 = <[ti_Tenant nm := t]> tenants) as -> by (destruct landed; by injection E1 as <-).
  apply map_Forall_insert_2; [|done]. refine (foldOne_ok _ _ _ _ _ _ _ _ E).
  destruct (tenants !! ti_Tenant nm) as [t0|] eqn:Et; [by apply (Hok (ti_Tenant nm))|apply topo_ok_new].
Qed.

Lemma set_trevision_ok cfg t r : topo_ok cfg t -> topo_ok cfg (set_trevision t r).
Proof. intros [A B C D W]. constructor; try done; intros [] e; apply W. Qed.

Lemma projected_ok cfg epoch p : projected cfg epoch p -> tp_cfg p = topo_withDefaults cfg /\ all_ok (topo_withDefaults cfg) (tp_tenants p).
Proof.
  induction 1 as [|p now revision ids deltas p' n Hp [IHc IH] E|p now next names Hp [IHc IH]].
  - split; [done|]. intros name t. cbn. by rewrite lookup_empty.
  - unfold fold in E. destruct (_ =? 0); [by injection E as <- <-|]. rewrite IHc in E.
    destruct (opt_foldl _ _ _) as [[[tenants touched] m]|] eqn:Ef; [|done]. cbn [mbind option_bind] in E. injection E as <- <-. split; [done|].
    apply fold_ids_ok in Ef; [|done]. intros name t. cbn [tp_tenants set_tenants]. unfold settle. rewrite map_lookup_imap.
    destruct (tenants !! name) as [t0|] eqn:Et; [|done]. cbn [mbind option_bind]. specialize (Ef name t0 Et).
    destruct (bool_decide _); intros [= <-]; [|done]. exact (prune_ok _ _ (retainCutoff p now) (set_trevision_ok _ _ revision Ef)).
  - unfold Prune. destruct (foldl _ _ names) as [tenants r] eqn:Ef. cbn [fst tp_cfg tp_tenants set_tenants]. split; [done|].
    revert Ef IH. generalize (retainCutoff p now). intros cutoff. generalize (tp_tenants p) 0. induction names as [|name names IHn]; intros ts r0; cbn [foldl]; [by intros [= <- <-]|].
    intros Ef IH. destruct (prune_one cutoff next (ts, r0) name) as [ts1 r1] eqn:E1. refine (IHn _ _ Ef _). unfold prune_one in E1.
    destruct (ts !! name) as [t|] eqn:Et; [|by injection E1 as <- <-]. pose proof (prune_ok _ _ cutoff (IH name t Et)) as Hok.
    destruct (pruneTenantLocked t cutoff) as [t1 changed]. cbn [fst] in Hok.
    destruct changed; injection E1 as <- <-; (apply map_Forall_insert_2; [|done]); [by apply set_trevision_ok|done].
Qed.

(** C29: the projection is bounded.  Through any folds and prunes, each
    tenant has at most the configured services, edges and metrics, and each
    service at most the configured operations; the table of operations per
    service counts exactly the operations that are there, so that its cap
    neither leaks nor wedges as entities expire; and every entity still holds
    a window. *)
Theorem projection_bounded cfg epoch p name t : projected cfg epoch p -> tp_tenants p !! name = Some t ->
  let cfg := topo_withDefaults cfg in
  Z.of_nat (size (tt_services t)) <= MaxServices cfg /\ Z.of_nat (size (tt_edges t)) <= MaxEdges cfg /\
  Z.of_nat (size (tt_metrics t)) <= MaxMetrics cfg /\
  (forall s, mget (tt_opsPerService t) s = ops_of (tt_ops t) s /\ ops_of (tt_ops t) s <= MaxOperationsPerService cfg) /\
  (forall x e, entry_of t x = Some e -> te_windows e <> ∅).
Proof. intros [_ Hok]%projected_ok Ht. by destruct (Hok name t Ht). Qed.

End Bounds.

(** ** What a prune does *)

Lemma expires_iff {A} cutoff (m : gmap Z A) : expires cutoff m = true <-> exists w, w < cutoff /\ is_Some (m !! w).
Proof.
  unfold expires. rewrite existsb_exists. split.
  - intros ([w a] & Hin%list_elem_of_In%elem_of_map_to_list & Hw). exists w. cbn in Hw. z_bool. eauto.
  - intros (w & Hw & [a Ha]). exists (w, a). split; [by apply list_elem_of_In, elem_of_map_to_list|]. cbn. by apply Z.ltb_lt.
Qed.

Lemma prunes_iff {K} `{Countable K} cutoff (m : gmap K topoEntry) :
  prunes cutoff m = true <-> exists k w, w < cutoff /\ is_Some (window_at (m !! k) w).
Proof.
  unfold prunes. rewrite existsb_exists. split.
  - intros ([k e] & Hin%list_elem_of_In%elem_of_map_to_list & Hw). cbn [snd pruneEntry] in Hw. apply expires_iff in Hw as (w & Hlt & Hs).
    exists k, w. by rewrite Hin.
  - intros (k & w & Hlt & Hs). unfold window_at in Hs. destruct (m !! k) as [e|] eqn:E; cbn [mbind option_bind] in Hs; [|by destruct Hs].
    exists (k, e). split; [by apply list_elem_of_In, elem_of_map_to_list|]. cbn [snd pruneEntry]. apply expires_iff. eauto.
Qed.

(** Something of the tenant is behind the cutoff. *)
Definition stale (t : tenantTopology) (cutoff : Z) : Prop :=
  (exists w, w < cutoff /\ is_Some (tt_identityByWindow t !! w)) \/
  exists x w, w < cutoff /\ is_Some (window_at (entry_of t x) w).

Lemma prune_changed t cutoff : (pruneTenantLocked t cutoff).2 = true <-> stale t cutoff.
Proof.
  unfold stale. cbn [pruneTenantLocked snd]. rewrite !orb_true_iff, expires_iff, !prunes_iff. split.
  - intros [[[[Hi|(k & w & Hw)]|([a b] & w & Hw)]|([a b] & w & Hw)]|([a b] & w & Hw)]; [by left|right..];
      [exists (EService k), w|exists (EOperation a b), w|exists (EEdge a b), w|exists (EMetric a b), w]; done.
  - intros [Hi|([a|a b|a b|a b] & w & Hw & Hs)]; [tauto| | | |]; cbn [entry_of] in Hs; naive_solver.
Qed.

Lemma window_at_prune t cutoff x w :
  window_at (entry_of (pruneTenantLocked t cutoff).1 x) w = if cutoff <=? w then window_at (entry_of t x) w else None.
Proof.
  rewrite prune_entry. destruct (entry_of t x) as [e|]; cbn [mbind option_bind]; [|by destruct (cutoff <=? w)].
  assert (window_at (Some (trim cutoff e)) w = if cutoff <=? w then window_at (Some e) w else None) as Ht.
  { destruct (Z.leb_spec cutoff w); [by apply window_at_trim|]. unfold window_at. cbn [mbind option_bind te_windows trim].
    rewrite map_lookup_filter. destruct (te_windows e !! w); cbn [mbind option_bind]; [|done]. by rewrite option_guard_False by lia. }
  destruct (is_empty cutoff e) eqn:Ee; [|done]. destruct (Z.leb_spec cutoff w); [|done].
  by rewrite (is_empty_window cutoff e w) by done.
Qed.

Definition pruned (cutoff next : Z) (t : tenantTopology) : tenantTopology :=
  if (pruneTenantLocked t cutoff).2 then set_trevision (pruneTenantLocked t cutoff).1 next else (pruneTenantLocked t cutoff).1.

Lemma prune_one_spec cutoff next ts r name : r = 0 \/ r = next ->
  prune_one cutoff next (ts, r) name =
    (alter (pruned cutoff next) name ts, match ts !! name with Some t => if (pruneTenantLocked t cutoff).2 then next else r | None => r end).
Proof.
  intros Hr. unfold prune_one, pruned. destruct (ts !! name) as [t|] eqn:E.
  - assert (alter (pruned cutoff next) name ts = <[name := pruned cutoff next t]> ts) as Ha.
    { apply map_eq. intros k. destruct (decide (name = k)) as [<-|]; [by rewrite lookup_alter_eq, lookup_insert_eq, E|by rewrite lookup_alter_ne, lookup_insert_ne]. }
    unfold pruned in Ha. rewrite Ha. destruct (pruneTenantLocked t cutoff) as [t1 []]; cbn [fst snd]; [|done].
    destruct Hr as [-> | ->]; [done|]. by destruct (next =? 0).
  - by rewrite alter_id by (intros x Hx; congruence).
Qed.

Lemma prune_loop cutoff next names : next <> 0 -> forall ts r, NoDup names -> r = 0 \/ r = next ->
  let res := foldl (prune_one cutoff next) (ts, r) names in
  (forall name, res.1 !! name = if decide (name ∈ names) then pruned cutoff next <$> ts !! name else ts !! name) /\
  (res.2 <> 0 <-> r <> 0 \/ exists name t, name ∈ names /\ ts !! name = Some t /\ stale t cutoff).
Proof.
  intros Hnext. induction names as [|n names IH]; intros ts r Hnd Hr; cbv zeta.
  { cbn [foldl fst snd]. split; [intros name; by rewrite decide_False by apply not_elem_of_nil|].
    split; [by left|]. by intros [?|(? & ? & ?%elem_of_nil & _)]. }
  apply NoDup_cons in Hnd as [Hn Hnd]. cbn [foldl]. rewrite prune_one_spec by done.
  set (r1 := match ts !! n with Some t => _ | None => _ end).
  assert (r1 = 0 \/ r1 = next) as Hr1 by (unfold r1; destruct (ts !! n); [case_match|]; auto).
  destruct (IH (alter (pruned cutoff next) n ts) r1 Hnd Hr1) as [I1 I2]. cbv zeta in I1, I2. split.
  - intros name. rewrite I1. destruct (decide (name = n)) as [->|Hne].
    + rewrite decide_False, decide_True by (done || by left). by rewrite lookup_alter_eq.
    + rewrite lookup_alter_ne by done. destruct (decide (name ∈ names)) as [Hin|Hin]; [by rewrite decide_True by (by right)|].
      rewrite decide_False; [done|]. by intros [|]%elem_of_cons.
  - rewrite I2. assert (r1 <> 0 <-> r <> 0 \/ exists t, ts !! n = Some t /\ stale t cutoff) as Hr1'.
    { unfold r1. destruct (ts !! n) as [t|] eqn:E; [|naive_solver].
      destruct (pruneTenantLocked t cutoff).2 eqn:Ec; [apply prune_changed in Ec; naive_solver|].
      split; [auto|]. intros [?|(t0 & [= <-] & Hs)]; [done|]. apply prune_changed in Hs. congruence. }
    rewrite Hr1'. split.
    + intros [[?|(t & Ht & Hs)]|(m & t & Hm & Ht & Hs)]; [by left|right; exists n, t; split; [by left|done]|right].
      exists m, t. rewrite lookup_alter_ne in Ht by (intros ->; done). split; [by right|done].
    + intros [?|(m & t & [->|Hm]%elem_of_cons & Ht & Hs)]; [by left; left|left; right; eauto|right].
      exists m, t. rewrite lookup_alter_ne by (intros ->; done). done.
Qed.

(** What a prune does.  For a projection with tenants [names], in any
    order: no tenant disappears; of every entity exactly the windows the
    horizon retains remain, unchanged; a tenant gets the next revision if and
    only if something of it expired, so that consumers see every change and
    no change they do not need; and a revision is drawn if and only if some
    tenant changed. *)
Theorem Prune_spec p now next names p' drawn : NoDup names -> (forall n, n ∈ names <-> is_Some (tp_tenants p !! n)) -> next <> 0 ->
  Prune p now next names = (p', drawn) ->
  let cutoff := retainCutoff p now in
  dom (tp_tenants p') = dom (tp_tenants p) /\
  (forall name t, tp_tenants p !! name = Some t -> exists t', tp_tenants p' !! name = Some t' /\
    (forall x w, window_at (entry_of t' x) w = if cutoff <=? w then window_at (entry_of t x) w else None) /\
    (stale t cutoff -> tt_revision t' = next) /\ (~ stale t cutoff -> tt_revision t' = tt_revision t)) /\
  (drawn = true <-> exists name t, tp_tenants p !! name = Some t /\ stale t cutoff).
Proof.
  intros Hnd Hin Hnext. unfold Prune. set (cutoff := retainCutoff p now).
  pose proof (prune_loop cutoff next names Hnext (tp_tenants p) 0 Hnd (or_introl eq_refl)) as [L1 L2]. cbv zeta in L1, L2 |- *.
  destruct (foldl _ _ names) as [tenants r]. cbn [fst snd] in L1, L2. intros [= <- <-]. cbn [tp_tenants set_tenants].
  assert (forall n, tenants !! n = pruned cutoff next <$> tp_tenants p !! n) as L.
  { intros n. rewrite L1. destruct (decide (n ∈ names)) as [|Hn]; [done|]. rewrite Hin in Hn. by apply eq_None_not_Some in Hn as ->. }
  split_and!.
  - apply set_eq. intros n. rewrite !elem_of_dom, L. by destruct (tp_tenants p !! n).
  - intros name t Ht. exists (pruned cutoff next t). rewrite L, Ht. split_and!; [done| | |]; unfold pruned.
    + intros x w. rewrite <- window_at_prune. by destruct (pruneTenantLocked t cutoff).2, x.
    + intros Hs%prune_changed. by rewrite Hs.
    + intros Hs. rewrite <- prune_changed in Hs. by apply not_true_is_false in Hs as ->.
  - rewrite negb_true_iff, Z.eqb_neq, L2. split.
    + intros [?|(n & t & _ & Ht & Hs)]; [done|eauto].
    + intros (n & t & Ht & Hs). right. exists n, t. split; [apply Hin; by rewrite Ht|done].
Qed.

(** ** Examples *)

#[local] Existing Instance flat_math.

Definition demo_topo_cfg : TopologyConfig := mkTopologyConfig 1 1 0 0 0.

Definition demo_now : time := t_of_unix 10000.

Definition demo_fact (service op : string) (w : Z) : SeriesWindow * topoIdentity :=
  (mkSeriesKey 1 (Z.of_nat (String.length service)) 2 0 SignalTraceOp 0 0 0 0, w, mkTopoIdentity topoTrace "acme" service op false).

Definition demo_delta (n : Z) : AggregateDelta := set_counts zero_delta (mkCounts n 1 0 0).

Definition demo_ids : list (SeriesWindow * topoIdentity) := [demo_fact "a" "op" 9900; demo_fact "bb" "op" 9900; demo_fact "ccc" "op" 9900].

Definition demo_topo_deltas : gmap SeriesWindow AggregateDelta := list_to_map ((fun e => (e.1, demo_delta 3)) <$> demo_ids).

Definition demo_projection : topologyProjection := newTopologyProjection demo_topo_cfg 1.

Definition demo_folded : topologyProjection * Z :=
  default (demo_projection, 0) (fold demo_projection demo_now 7 demo_ids demo_topo_deltas).

Definition demo_tenant : tenantTopology := tenant_at (tp_tenants demo_folded.1) "acme".

Lemma demo_fold : fold demo_projection demo_now 7 demo_ids demo_topo_deltas = Some (demo_folded.1, demo_folded.2).
Proof.
  assert (holds_value (fold demo_projection demo_now 7 demo_ids demo_topo_deltas) = true) as Hh by (by vm_compute).
  rewrite (default_holds _ (demo_projection, 0) Hh). unfold demo_folded. by destruct (default _ _).
Qed.

(** One service is admitted and two refused, and three operations of three
    services are folded: the operations are bounded by service only. *)
Lemma ops_of_refused_services :
  size (tt_services demo_tenant) = 1%nat /\ tt_droppedServices demo_tenant = 2 /\ size (tt_ops demo_tenant) = 3%nat /\
  tt_droppedOperations demo_tenant = 0 /\ demo_folded.2 = 3.
Proof. split_and!; by vm_compute. Qed.

Lemma fold_counts_witness :
  u64 (value_at tw_count (entry_of demo_tenant (EService "a")) 9900) = u64 3 /\
  dropped_of demo_tenant (EService "bb") <> dropped_of newTenantTopology (EService "bb").
Proof.
  split.
  - destruct (fold_counts _ _ _ _ _ _ _ "acme" (EService "a") 9900 _ _ demo_fold tallied_points) as [Hc _]; [by vm_compute|].
    etrans; [apply Hc; by vm_compute|by vm_compute].
  - destruct (fold_counts _ _ _ _ _ _ _ "acme" (EService "bb") 9900 _ _ demo_fold tallied_points) as [_ Hd]; [by vm_compute|].
    apply (Hd (demo_fact "bb" "op" 9900)); [right; left|apply (bool_decide_unpack _); by vm_compute|by vm_compute|by vm_compute|by vm_compute].
Defined.

Lemma projection_bounded_witness :
  mget (tt_opsPerService demo_tenant) "bb" = ops_of (tt_ops demo_tenant) "bb" /\ ops_of (tt_ops demo_tenant) "bb" <= 1.
Proof.
  assert (tp_tenants demo_folded.1 !! "acme" = Some demo_tenant) as Ht.
  { assert (holds_value (tp_tenants demo_folded.1 !! "acme") = true) as Hh by (by vm_compute). exact (default_holds _ _ Hh). }
  destruct (projection_bounded demo_topo_cfg 1 demo_folded.1 "acme" demo_tenant) as (_ & _ & _ & Ho & _); [|exact Ht|exact (Ho "bb")].
  eapply projected_fold; [apply projected_new|exact demo_fold].
Defined.

Lemma Prune_spec_witness :
  window_at (entry_of (tenant_at (tp_tenants (Prune demo_folded.1 (demo_now + 7200 * Second) 8 ["acme"]).1) "acme") (EService "a")) 9900 = None.
Proof.
  assert (tp_tenants demo_folded.1 !! "acme" = Some demo_tenant) as Ht.
  { assert (holds_value (tp_tenants demo_folded.1 !! "acme") = true) as Hh by (by vm_compute). exact (default_holds _ _ Hh). }
  destruct (Prune demo_folded.1 (demo_now + 7200 * Second) 8 ["acme"]) as [p' drawn] eqn:E.
  assert (dom (tp_tenants demo_folded.1) = {["acme"]}) as Hdom by (apply (bool_decide_unpack _); by vm_compute).
  assert (forall n, n ∈ ["acme"] <-> is_Some (tp_tenants demo_folded.1 !! n)) as Hin.
  { intros n. rewrite list_elem_of_singleton, <- elem_of_dom, Hdom. by rewrite elem_of_singleton. }
  destruct (Prune_spec demo_folded.1 (demo_now + 7200 * Second) 8 ["acme"] p' drawn (NoDup_singleton "acme") Hin ltac:(lia) E) as (_ & Hw & _).
  destruct (Hw "acme" demo_tenant Ht) as (t' & Ht' & Hx & _).
  unfold tenant_at. cbn [fst]. rewrite Ht'. cbn [from_option]. unfold id. rewrite (Hx (EService "a") 9900). by vm_compute.
Defined.
