(* ===== verification/TopologySnapshot.v ===== *)
(** * TopologySnapshot: rendering one tenant's topology ([internal/aggregate/topology.go])

    The snapshot lists every entity of a tenant in the order of its names, with
    its windows oldest first and the flags by which a reader tells a window
    that is still filling from one that is closed or final.  Percentiles carry
    their provenance ([internal/latency], [internal/aggregate/query.go]).  A
    quantile that panics stops the rendering: [option]. *)
From stdpp Require Import sorting.
From S2P Require Import Prelude SeriesKey Float64 Dict TopoIdentity Sketch Histogram Delta Limiter Baseline Engine Reducer.
From S2P Require Import Topology TopologyFacts TopologyBounds.
#[local] Open Scope Z_scope.

(** ** Provenance of a percentile *)

Definition StatusApproximate : string := "approximate".
Definition StatusUnavailable : string := "unavailable".
Definition MethodDDSketch : string := "ddsketch".
Definition ReasonNoObservations : string := "no_observations".
Definition ReasonSketchCollapsed : string := "sketch_collapsed".
Definition ReasonSketchSaturated : string := "sketch_saturated".
Definition ReasonSketchCollapsedSaturated : string := "sketch_collapsed_and_saturated".
Definition LowSampleThreshold : Z := 100.

(* internal/latency/provenance.go:47-61 Percentile *)
Record Percentile := mkPercentile {
  pc_Status : string;
  pc_Method : string;
  pc_SampleCount : Z;
  pc_PopulationCount : Z;
  pc_SampleLimit : Z;
  pc_LowSample : bool;
  pc_SketchScale : Z;
  pc_RelativeErrorBound : f64;
  pc_Degraded : bool;
  pc_Collapsed : bool;
  pc_Saturations : Z;
  pc_EstimateFactor : f64;
  pc_Reason : string;
}.

(* internal/latency/provenance.go:40-44 Provenance *)
Record Provenance := mkProvenance { pv_P50 : option Percentile; pv_P95 : option Percentile; pv_P99 : option Percentile }.

Section Rendering.
Context `{GoMath}.

(* internal/aggregate/query.go:166-197 PercentileFromSketch *)
Definition PercentileFromSketch (s : option Sketch) : Percentile :=
  match s with
  | Some s =>
      if sk_count s =? 0 then mkPercentile StatusUnavailable MethodDDSketch 0 0 0 false 0 f_zero false false 0 f_zero ReasonNoObservations
      else
        let collapsed := sk_collapsed s in
        let saturations := sk_saturations s in
        let reason :=
          if collapsed && (0 <? saturations) then ReasonSketchCollapsedSaturated
          else if collapsed then ReasonSketchCollapsed
          else if 0 <? saturations then ReasonSketchSaturated
          else "" in
        mkPercentile StatusApproximate MethodDDSketch (sk_count s) 0 0 (sk_count s <? LowSampleThreshold) (sk_scale s) (RelativeError s)
          (collapsed || (0 <? saturations)) collapsed saturations f_zero reason
  | None => mkPercentile StatusUnavailable MethodDDSketch 0 0 0 false 0 f_zero false false 0 f_zero ReasonNoObservations
  end.

(** ** Windows *)

(* internal/aggregate/topology.go:85-113 TopologyWindow *)
Record TopologyWindow := mkTopologyWindow {
  w_Start : time;
  w_End : time;
  w_Closed : bool;
  w_Final : bool;
  w_Elapsed : Z;
  w_Count : Z;
  w_ErrorCount : Z;
  w_DurationCount : Z;
  w_DurationSumMicros : f64;
  w_DurationMinMicros : f64;
  w_DurationMaxMicros : f64;
  w_P95Micros : f64;
  w_P99Micros : f64;
  w_LatencyProvenance : option Provenance;
  w_ValueCount : Z;
  w_ValueSum : f64;
  w_ValueMin : f64;
  w_ValueMax : f64;
}.

(* internal/aggregate/topology.go:116-121 TopologyWindow.Mean *)
Definition Mean (w : TopologyWindow) : f64 := if w_ValueCount w =? 0 then f_zero else fdiv (w_ValueSum w) (f_of_Z (w_ValueCount w)).

(* internal/aggregate/topology.go:124-129 TopologyWindow.ErrorRate *)
Definition ErrorRate (w : TopologyWindow) : f64 :=
  if w_Count w =? 0 then f_zero else fdiv (f_of_Z (w_ErrorCount w)) (f_of_Z (w_Count w)).

(* internal/aggregate/topology.go:133-138 TopologyWindow.AvgLatencyMs *)
Definition AvgLatencyMs (w : TopologyWindow) : f64 :=
  if w_DurationCount w =? 0 then f_zero else fdiv (fdiv (w_DurationSumMicros w) (f_of_Z (w_DurationCount w))) (f_of_Z 1000).

Definition q95 : f64 := fdiv (f_of_Z 95) (f_of_Z 100).
Definition q99 : f64 := fdiv (f_of_Z 99) (f_of_Z 100).

(** One window of an entry; [WindowSize] is [windowSec] seconds. *)
Definition render_window (now : time) (start : Z) (w : topoWindowState) : option TopologyWindow :=
  let t_start := t_of_unix start in
  let t_end := t_of_unix (start + windowSec) in
  let closed := negb (t_Before now t_end) in
  let final := start + windowSec + latenessSec <=? t_Unix now in
  let el := t_Sub now t_start in
  let elapsed := if closed then windowSec * Second else if 0 <? el then el else 0 in
  let sampled := match tw_sketch w with Some s => 0 <? sk_count s | None => false end in
  p95 ← (if sampled then Quantile (default NewSketch (tw_sketch w)) q95 else Some f_zero);
  p99 ← (if sampled then Quantile (default NewSketch (tw_sketch w)) q99 else Some f_zero);
  let provenance :=
    if sampled then Some (mkProvenance None (Some (PercentileFromSketch (tw_sketch w))) (Some (PercentileFromSketch (tw_sketch w)))) else None in
  Some (mkTopologyWindow t_start t_end closed final elapsed (tw_count w) (tw_errors w) (tw_durCount w) (tw_durSum w) (tw_durMin w) (tw_durMax w)
    p95 p99 provenance (tw_valueCount w) (tw_valueSum w) (tw_valueMin w) (tw_valueMax w)).

(** The starts of an entry's windows, oldest first. *)
Definition starts_of (e : topoEntry) : list Z := merge_sort Z.le (fst <$> map_to_list (te_windows e)).

(* internal/aggregate/topology.go:780-821 renderWindows *)
Definition renderWindows (e : topoEntry) (now : time) : option (list TopologyWindow) :=
  opt_map (fun start => render_window now start (default zero_window (te_windows e !! start))) (starts_of e).

(** ** The snapshot *)

(** A service has one name, the other entities two; the fields of the four
    kinds are otherwise the same. *)
(* internal/aggregate/topology.go:141-146 TopologyService *)
Record TopologyService := mkTopologyService { ts_Name : string; ts_FirstSeen : time; ts_LastSeen : time; ts_Windows : list TopologyWindow }.

(* internal/aggregate/topology.go:149-155 TopologyOperation *)
Record TopologyOperation := mkTopologyOperation { to_Service : string; to_Operation : string; to_FirstSeen : time; to_LastSeen : time; to_Windows : list TopologyWindow }.

(* internal/aggregate/topology.go:158-164 SnapshotEdge *)
Record SnapshotEdge := mkSnapshotEdge { se_Caller : string; se_Callee : string; se_FirstSeen : time; se_LastSeen : time; se_Windows : list TopologyWindow }.

(* internal/aggregate/topology.go:167-173 TopologyMetric *)
Record TopologyMetric := mkTopologyMetric { tm_Service : string; tm_Metric : string; tm_FirstSeen : time; tm_LastSeen : time; tm_Windows : list TopologyWindow }.

(* internal/aggregate/topology.go:182-202 TopologySnapshot *)
Record TopologySnapshot := mkTopologySnapshot {
  ss_Tenant : string;
  ss_Epoch : Z;
  ss_Revision : Z;
  ss_Now : time;
  ss_Horizon : Z;
  ss_Services : list TopologyService;
  ss_Operations : list TopologyOperation;
  ss_Edges : list SnapshotEdge;
  ss_Metrics : list TopologyMetric;
  ss_DroppedServices : Z;
  ss_DroppedOperations : Z;
  ss_DroppedEdges : Z;
  ss_DroppedMetrics : Z;
  ss_IdentityCoverage : IdentityCoverage;
}.

(* internal/aggregate/topology.go:206-208 TopologySnapshot.Truncated *)
Definition Truncated (s : TopologySnapshot) : bool :=
  0 <? u64 (u64 (u64 (ss_DroppedServices s + ss_DroppedOperations s) + ss_DroppedEdges s) + ss_DroppedMetrics s).

(* internal/aggregate/topology.go:211-213 TopologySnapshot.Empty *)
Definition Empty (s : TopologySnapshot) : bool :=
  (Z.of_nat (length (ss_Services s)) =? 0) && (Z.of_nat (length (ss_Operations s)) =? 0) &&
  (Z.of_nat (length (ss_Edges s)) =? 0) && (Z.of_nat (length (ss_Metrics s)) =? 0).

(** The order of pairs: first name, then second. *)
Definition pair_order (a b : string * string) : Prop :=
  if negb (String.eqb a.1 b.1) then String.ltb a.1 b.1 = true else String.leb a.2 b.2 = true.
#[global] Instance pair_order_dec a b : Decision (pair_order a b).
Proof. unfold pair_order. case_match; apply _. Defined.

(** The entries of a map in the order of their names.  Go collects them in
    the map's order and sorts; no two have one name, so the result is the
    same. *)
Definition rendered {K B} `{Countable K} (le : K -> K -> Prop) `{!forall a b, Decision (le a b)} (m : gmap K topoEntry)
    (make : K -> topoEntry -> option B) : option (list B) :=
  opt_map (fun k => make k (default newTopoEntry (m !! k))) (merge_sort le (fst <$> map_to_list m)).

(* internal/aggregate/topology.go:684-776 topologyProjection.Snapshot *)
Definition topo_Snapshot (p : topologyProjection) (tenant : string) (now : time) : option TopologySnapshot :=
  match tp_tenants p !! tenant with
  | None => Some (mkTopologySnapshot tenant (tp_epoch p) 0 now (Horizon (tp_cfg p)) [] [] [] [] 0 0 0 0 no_coverage)
  | Some t =>
      services ← rendered str_le (tt_services t)
        (fun name e => ws ← renderWindows e now; Some (mkTopologyService name (te_first e) (te_last e) ws));
      operations ← rendered pair_order (tt_ops t)
        (fun k e => ws ← renderWindows e now; Some (mkTopologyOperation k.1 k.2 (te_first e) (te_last e) ws));
      edges ← rendered pair_order (tt_edges t)
        (fun k e => ws ← renderWindows e now; Some (mkSnapshotEdge k.1 k.2 (te_first e) (te_last e) ws));
      metrics ← rendered pair_order (tt_metrics t)
        (fun k e => ws ← renderWindows e now; Some (mkTopologyMetric k.1 k.2 (te_first e) (te_last e) ws));
      Some (mkTopologySnapshot tenant (tp_epoch p) (tt_revision t) now (Horizon (tp_cfg p)) services operations edges metrics
        (tt_droppedServices t) (tt_droppedOperations t) (tt_droppedEdges t) (tt_droppedMetrics t)
        (map_fold (fun _ c acc => coverage_sum acc c) no_coverage (tt_identityByWindow t)))
  end.

End Rendering.

(** ** What a reader of the snapshot is told *)

Lemma opt_map_elem {A B} (f : A -> option B) l l' b : opt_map f l = Some l' -> b ∈ l' -> exists a, a ∈ l /\ f a = Some b.
Proof.
  intros E%opt_map_Forall2 Hb. apply list_elem_of_lookup in Hb as [i Hi]. destruct (Forall2_lookup_r _ _ _ _ _ E Hi) as (a & Ha & Hf).
  exists a. split; [by eapply list_elem_of_lookup_2|done].
Qed.

Lemma opt_map_key {A B} (f : A -> option B) (key : B -> A) l l' :
  (forall a b, f a = Some b -> key b = a) -> opt_map f l = Some l' -> key <$> l' = l.
Proof. intros Hk E%opt_map_Forall2. induction E as [|a b l l' Hf E IH]; [done|]. cbn. by rewrite IH, (Hk _ _ Hf). Qed.

#[local] Instance str_le_total : Total str_le.
Proof. intros a b. apply String.leb_total. Qed.

#[local] Instance pair_order_total : Total pair_order.
Proof.
  intros [a b] [a' b']. unfold pair_order. cbn [fst snd].
  destruct (String.eqb_spec a a') as [<-|Hne]; [rewrite String.eqb_refl; cbn [negb]; apply String.leb_total|].
  assert (String.eqb a' a = false) as -> by (by apply String.eqb_neq). cbn [negb].
  destruct (String.leb_total a a') as [Hl|Hl]; [left|right]; unfold String.leb, String.ltb in *;
    destruct (String.compare _ _) eqn:E; try done; by apply String.compare_eq_iff in E.
Qed.

(** A list shows a map: one item for each entry, in the order of the keys. *)
Record shows {K B} `{Countable K} (le : K -> K -> Prop) (m : gmap K topoEntry) (now : time) `{GoMath}
    (key : B -> K) (first last : B -> time) (windows : B -> list TopologyWindow) (l : list B) : Prop := {
  sh_sorted : Sorted le (key <$> l);
  sh_nodup : NoDup (key <$> l);
  sh_keys : forall k, k ∈ key <$> l <-> is_Some (m !! k);
  sh_items : forall b, b ∈ l -> exists e, m !! key b = Some e /\ first b = te_first e /\ last b = te_last e /\ renderWindows e now = Some (windows b);
}.

Section Reading.
Context `{GoMath}.

Lemma keys_elem {K A} `{Countable K} (m : gmap K A) k : k ∈ fst <$> map_to_list m <-> is_Some (m !! k).
Proof.
  rewrite list_elem_of_fmap. split.
  - intros ([k' a] & -> & Hin%elem_of_map_to_list). by exists a.
  - intros [a Ha]. exists (k, a). split; [done|]. by apply elem_of_map_to_list.
Qed.

Lemma rendered_shows {K B} `{Countable K} (le : K -> K -> Prop) `{!forall a b, Decision (le a b)} `{!Total le} (m : gmap K topoEntry) now
    (mk : K -> time -> time -> list TopologyWindow -> B) key first last windows l :
  (forall k f t ws, key (mk k f t ws) = k /\ first (mk k f t ws) = f /\ last (mk k f t ws) = t /\ windows (mk k f t ws) = ws) ->
  rendered le m (fun k e => ws ← renderWindows e now; Some (mk k (te_first e) (te_last e) ws)) = Some l ->
  shows le m now key first last windows l.
Proof.
  intros Hmk E. unfold rendered in E. set (ks := merge_sort le (fst <$> map_to_list m)) in *.
  assert (ks ≡ₚ fst <$> map_to_list m) as Hp by apply merge_sort_Permutation.
  assert (key <$> l = ks) as Hk.
  { eapply opt_map_key; [|exact E]. intros k b (ws & _ & [= <-])%bind_Some. apply Hmk. }
  constructor; rewrite ?Hk.
  - by apply Sorted_merge_sort.
  - rewrite Hp. apply NoDup_fst_map_to_list.
  - intros k. rewrite Hp. apply keys_elem.
  - intros b Hb. destruct (opt_map_elem _ _ _ _ E Hb) as (k & Hin & (ws & Hr & [= <-])%bind_Some).
    destruct (Hmk k (te_first (default newTopoEntry (m !! k))) (te_last (default newTopoEntry (m !! k))) ws) as (-> & -> & -> & ->).
    rewrite Hp in Hin. apply keys_elem in Hin as [e He]. exists e. by rewrite He in *.
Qed.

(** The flags of a rendered window against the admission of points. *)
Record window_told (now : time) (start : Z) (s : topoWindowState) (w : TopologyWindow) : Prop := {
  wt_span : w_Start w = t_of_unix start /\ w_End w = t_of_unix (start + windowSec);
  wt_counts : w_Count w = tw_count s /\ w_ErrorCount w = tw_errors s /\ w_DurationCount w = tw_durCount s /\ w_ValueCount w = tw_valueCount s;
  wt_closed : w_Closed w = true <-> w_End w <= now;
  wt_elapsed : 0 <= w_Elapsed w <= windowSec * Second /\ (w_Closed w = true <-> w_Elapsed w = windowSec * Second);
  wt_final_closed : w_Final w = true -> w_Closed w = true;
  wt_final : w_Final w = true -> forall ts, WindowStart ts = start -> (Classify now ts).2 <> PointAccepted;
  wt_not_final : w_Final w = false -> forall ts, WindowStart ts = start -> ts - now <= MaxFutureSkew -> Classify now ts = (start, PointAccepted);
}.

Lemma render_window_told now start s w : render_window now start s = Some w -> window_told now start s w.
Proof.
  unfold render_window. intros (p95 & _ & (p99 & _ & [= <-])%bind_Some)%bind_Some.
  assert (t_of_unix (start + windowSec) = t_of_unix start + windowSec * Second) as Hend by (unfold t_of_unix; lia).
  assert (windowSec * Second = 300000000000) as Hw by done.
  assert (forall x, x <= t_Unix now <-> t_of_unix x <= now) as Hu by (intros x; unfold t_Unix, t_of_unix, Second; zlia).
  constructor; cbn [w_Start w_End w_Closed w_Final w_Elapsed w_Count w_ErrorCount w_DurationCount w_ValueCount].
  - done.
  - done.
  - unfold t_Before. rewrite negb_true_iff, Z.ltb_ge. done.
  - unfold t_Before, t_Sub. rewrite Hend. destruct (Z.ltb_spec now (t_of_unix start + windowSec * Second)); cbn [negb]; [|lia].
    change MaxDuration with 9223372036854775807. change MinDuration with (-9223372036854775808).
    destruct (0 <? _) eqn:E; z_bool; (split; [lia|split; [done|intros; lia]]).
  - intros Hf%Z.leb_le%Hu. unfold t_Before. rewrite negb_true_iff, Z.ltb_ge. unfold t_of_unix in *. change latenessSec with 600 in Hf. unfold Second in *. lia.
  - intros Hf ts Hts. unfold Classify. destruct (_ <? _); [done|]. by rewrite Hts, Hf.
  - intros Hf ts Hts Hs. unfold Classify. rewrite Hts, Hf. unfold t_Sub.
    change MaxDuration with 9223372036854775807. change MinDuration with (-9223372036854775808). change MaxFutureSkew with 120000000000 in *.
    destruct (_ <? _) eqn:E; z_bool; [lia|done].
Qed.

(** C30: the snapshot of a tenant.  It lists exactly the tenant's services,
    operations, edges and metrics, each once and in the order of their names,
    with the drop counters and the revision; and the windows of any entity
    are exactly its retained windows, oldest first, with their counts, where
    [Closed] says that the window's end has passed, [Elapsed] is full exactly
    then, and [Final] says that admission refuses every point of the window,
    as long as it is unset every point of the window that is not in the
    future is accepted. *)
Theorem Snapshot_spec p tenant now t s : tp_tenants p !! tenant = Some t -> topo_Snapshot p tenant now = Some s ->
  shows str_le (tt_services t) now ts_Name ts_FirstSeen ts_LastSeen ts_Windows (ss_Services s) /\
  shows pair_order (tt_ops t) now (fun o => (to_Service o, to_Operation o)) to_FirstSeen to_LastSeen to_Windows (ss_Operations s) /\
  shows pair_order (tt_edges t) now (fun e => (se_Caller e, se_Callee e)) se_FirstSeen se_LastSeen se_Windows (ss_Edges s) /\
  shows pair_order (tt_metrics t) now (fun m => (tm_Service m, tm_Metric m)) tm_FirstSeen tm_LastSeen tm_Windows (ss_Metrics s) /\
  ss_Revision s = tt_revision t /\
  (ss_DroppedServices s, ss_DroppedOperations s, ss_DroppedEdges s, ss_DroppedMetrics s) =
    (tt_droppedServices t, tt_droppedOperations t, tt_droppedEdges t, tt_droppedMetrics t) /\
  forall e ws, renderWindows e now = Some ws ->
    Forall2 (fun start w => exists st, te_windows e !! start = Some st /\ window_told now start st w) (starts_of e) ws /\
    StronglySorted Z.lt (starts_of e) /\ (forall start, start ∈ starts_of e <-> is_Some (te_windows e !! start)).
Proof.
  intros Ht. unfold topo_Snapshot. rewrite Ht.
  intros (sv & Esv & (op & Eop & (ed & Eed & (me & Eme & [= <-])%bind_Some)%bind_Some)%bind_Some)%bind_Some.
  cbn [ss_Services ss_Operations ss_Edges ss_Metrics ss_Revision ss_DroppedServices ss_DroppedOperations ss_DroppedEdges ss_DroppedMetrics].
  split_and!; [by apply (rendered_shows _ _ _ mkTopologyService)
    |by apply (rendered_shows _ _ _ (fun k => mkTopologyOperation k.1 k.2)); [intros []|]
    |by apply (rendered_shows _ _ _ (fun k => mkSnapshotEdge k.1 k.2)); [intros []|]
    |by apply (rendered_shows _ _ _ (fun k => mkTopologyMetric k.1 k.2)); [intros []|]
    |done|done|].
  intros e ws E. assert (starts_of e ≡ₚ fst <$> map_to_list (te_windows e)) as Hp by apply merge_sort_Permutation.
  assert (forall start, start ∈ starts_of e <-> is_Some (te_windows e !! start)) as Hin by (intros start; rewrite Hp; apply keys_elem).
  split_and!; [| |done].
  - unfold renderWindows in E. apply opt_map_Forall2 in E. assert (Forall (fun start => is_Some (te_windows e !! start)) (starts_of e)) as Hall
      by (apply Forall_forall; intros start; apply Hin).
    revert Hall E. generalize (starts_of e). intros l Hall E. induction E as [|start w l ws Hr E IH]; [constructor|].
    apply Forall_cons in Hall as [[st Hst] Hall]. constructor; [|by apply IH].
    rewrite Hst in Hr. exists st. split; [done|]. by apply render_window_told.
  - assert (StronglySorted Z.le (starts_of e)) as Hs by (unfold starts_of; apply (StronglySorted_merge_sort Z.le)).
    assert (NoDup (starts_of e)) as Hnd by (rewrite Hp; apply NoDup_fst_map_to_list).
    revert Hs Hnd. generalize (starts_of e). induction l as [|x l IH]; intros Hs Hnd; constructor; inversion Hs; inversion Hnd; subst; [by apply IH|].
    apply Forall_forall. intros y Hy. rewrite Forall_forall in H3. specialize (H3 y Hy). assert (x <> y) by (by intros ->). lia.
Qed.

End Reading.

#[local] Existing Instance flat_math.

Definition demo_snapshot : TopologySnapshot :=
  default (mkTopologySnapshot "" 0 0 0 0 [] [] [] [] 0 0 0 0 no_coverage) (topo_Snapshot demo_folded.1 "acme" demo_now).

Lemma Snapshot_spec_witness :
  ("a" ∈ ts_Name <$> ss_Services demo_snapshot <-> is_Some (tt_services demo_tenant !! "a")) /\ ss_Revision demo_snapshot = 7 /\
  Truncated demo_snapshot = true.
Proof.
  assert (tp_tenants demo_folded.1 !! "acme" = Some demo_tenant) as Ht.
  { assert (holds_value (tp_tenants demo_folded.1 !! "acme") = true) as Hh by (by vm_compute). exact (default_holds _ _ Hh). }
  assert (topo_Snapshot demo_folded.1 "acme" demo_now = Some demo_snapshot) as E.
  { assert (holds_value (topo_Snapshot demo_folded.1 "acme" demo_now) = true) as Hh by (by vm_compute). exact (default_holds _ _ Hh). }
  destruct (Snapshot_spec _ _ _ _ _ Ht E) as (Hs & _ & _ & _ & Hr & _). split_and!; [exact (sh_keys _ _ _ _ _ _ _ _ Hs "a")|by rewrite Hr; vm_compute|by vm_compute].
Defined.
