(* ===== verification/EngineTotals.v ===== *)
(** * EngineTotals: what a batch does to the engine's totals

    Conservation of the per-signal counts through admission, overflow routing
    and commit, for [Engine.Snapshot] and [Snapshot.Totals]. *)
From stdpp Require Import sorting.
From S2P Require Import Prelude Float64 SeriesKey Sketch Delta Limiter Baseline Engine.

(** ** Conservation of counts *)

Section Conservation.
  Variable g : AggregateDelta -> Z.
  Hypothesis g_merge : forall a b c, DeltaMerge a (Some b) = Some c -> eq64 (g c) (g a + g b).
  Hypothesis g_zero : g zero_delta = 0.
  Variable s : Z.

(** The contribution of one cell to the total of a signal. *)
Definition weight_at (key : SeriesWindowKey) (d : AggregateDelta) : Z :=
  if KSignal (fst key) =? s then g d else 0.

Lemma weight_merge key a b c : DeltaMerge a (Some b) = Some c -> eq64 (weight_at key c) (weight_at key a + weight_at key b).
Proof. intros E. unfold weight_at. destruct (_ =? _); [by apply g_merge|done]. Qed.

Lemma merge_memory_sum batch : forall mem mem',
  merge_memory mem batch mem' -> (forall key, is_Some (batch !! key) -> is_Some (mem' !! key)) ->
  eq64 (map_sum weight_at mem') (map_sum weight_at mem + map_sum weight_at batch).
Proof.
  induction batch as [|key d batch Hn IH] using map_ind; intros mem mem' HM HS.
  { assert (mem' = mem) as ->; [|rewrite map_sum_empty, Z.add_0_r; done].
    apply map_eq. intros key. rewrite HM, lookup_empty. done. }
  rewrite map_sum_insert by done.
  pose proof (HM key) as Hk. rewrite lookup_insert_eq in Hk.
  destruct (HS key) as [x Hx]; [rewrite lookup_insert_eq; by eexists|].
  set (mem1 := partial_alter (fun _ => mem !! key) key mem').
  assert (merge_memory mem batch mem1) as HM1.
  { intros key'. unfold mem1. destruct (decide (key = key')) as [<-|Hne].
    - rewrite lookup_partial_alter_eq, Hn. done.
    - rewrite lookup_partial_alter_ne by done. rewrite HM, lookup_insert_ne by done. done. }
  assert (mem' = <[key := x]> mem1) as E1.
  { apply map_eq. intros key'. unfold mem1. destruct (decide (key = key')) as [<-|Hne].
    - by rewrite lookup_insert_eq.
    - by rewrite lookup_insert_ne, lookup_partial_alter_ne by done. }
  assert (eq64 (map_sum weight_at mem1) (map_sum weight_at mem + map_sum weight_at batch)) as IH1.
  { apply IH; [done|]. intros key' Hs. assert (key <> key') as Hne by (intros ->; rewrite Hn in Hs; by destruct Hs).
    unfold mem1. rewrite lookup_partial_alter_ne by done. apply HS. by rewrite lookup_insert_ne. }
  rewrite E1, map_sum_set, IH1. unfold mem1 at 1. rewrite lookup_partial_alter_eq.
  rewrite Hx in Hk. destruct (mem !! key) as [y|]; cbn [merge_cell from_option] in *.
  - rewrite (weight_merge key y d x) by done. apply eq_subrelation; [apply _|]. lia.
  - injection Hk as ->. apply eq_subrelation; [apply _|]. lia.
Qed.

(** The part of a batch that lies above the cutoff. *)
Definition batch_sum (cutoff : Z) (m : DeltaMap) : Z :=
  foldr (fun entry acc => (if snd (fst entry) <=? cutoff then 0 else weight_at (fst entry) (snd entry)) + acc) 0 m.

Lemma plan_one_sum cutoff l dis plan entry l' dis' plan' :
  plan_one cutoff (l, dis, plan) entry = Some (l', dis', plan') ->
  eq64 (map_sum weight_at (Resolved plan')) (map_sum weight_at (Resolved plan) + batch_sum cutoff [entry]).
Proof.
  destruct entry as [[key w] d]. unfold plan_one. cbn [batch_sum foldr fst snd]. rewrite Z.add_0_r.
  destruct (w <=? cutoff); [intros [= <- <- <-]; by rewrite Z.add_0_r|].
  pose proof (admit_present l key w) as HA. destruct (Admit l key w) as [l1 adm]. destruct HA as (_ & _ & _ & HS).
  assert (forall d, weight_at (adm_Key adm, w) d = weight_at (key, w) d) as HW by (intros; unfold weight_at; cbn [fst]; by rewrite HS).
  pose proof (map_sum_set weight_at (Resolved plan) (adm_Key adm, w)) as Hset.
  destruct (Resolved plan !! (adm_Key adm, w)) as [ex|] eqn:Er; cbn [from_option] in Hset.
  - destruct (DeltaMerge zero_delta (Some ex)) as [m1|] eqn:E1; [|done]. cbn [mbind option_bind].
    destruct (DeltaMerge m1 (Some d)) as [m2|] eqn:E2; [|done]. intros [= <- <- <-]. cbn [Resolved].
    rewrite Hset, (weight_merge _ _ _ _ E2), (weight_merge _ _ _ _ E1), <- (HW d).
    assert (weight_at (adm_Key adm, w) zero_delta = 0) as -> by (unfold weight_at; rewrite g_zero; by destruct (_ =? _)).
    apply eq_subrelation; [apply _|]. lia.
  - intros [= <- <- <-]. cbn [Resolved]. rewrite Hset, HW.
    apply eq_subrelation; [apply _|]. lia.
Qed.

Lemma plan_sum cutoff m : forall l dis plan l' dis' plan',
  opt_foldl (plan_one cutoff) (l, dis, plan) m = Some (l', dis', plan') ->
  eq64 (map_sum weight_at (Resolved plan')) (map_sum weight_at (Resolved plan) + batch_sum cutoff m).
Proof.
  induction m as [|entry m IH]; intros l dis plan l' dis' plan' E.
  { injection E as <- <- <-. cbn [batch_sum foldr]. by rewrite Z.add_0_r. }
  apply opt_foldl_cons in E as ([[l1 dis1] plan1] & E1 & E). rewrite (IH _ _ _ _ _ _ E), (plan_one_sum _ _ _ _ _ _ _ _ E1).
  apply eq_subrelation; [apply _|]. unfold batch_sum. cbn [foldr]. lia.
Qed.

Lemma apply_sum e m now now' e' rev :
  engine_ok e -> m <> [] -> ApplyCommitted e m now now' = Some (e', rev) ->
  eq64 (map_sum weight_at (memory e'))
    (map_sum weight_at (memory (fst (Rollover e now))) + batch_sum (FinalizeCutoff now') m).
Proof.
  intros Hok Hm E. unfold ApplyCommitted in E.
  assert ((length m =? 0)%nat = false) as Hl by (apply Nat.eqb_neq; by destruct m). rewrite Hl in E.
  destruct (PlanAdmission e m now now') as [[e1 p]|] eqn:EP; [|done]. cbn [mbind option_bind] in E.
  destruct (plan_keeps _ _ _ _ _ _ Hok EP) as (Hok1 & _ & G1).
  destruct (commit_keeps _ _ _ _ Hok1 E) as (Hok2 & _ & G2 & S2).
  unfold PlanAdmission in EP. rewrite Hl in EP.
  destruct (opt_foldl _ _ _) as [[[l dis] plan]|] eqn:EL; [|done]. injection EP as <- <-.
  pose proof (plan_sum _ _ _ _ _ _ _ _ EL) as HS. cbn [Resolved] in HS. rewrite map_sum_empty, Z.add_0_l in HS.
  rewrite (merge_memory_sum (Resolved plan) (memory (fst (Rollover e now)))), HS; [done| |].
  - intros [k w]. destruct (rollover_keeps e now Hok) as (Hokr & _). rewrite !memory_at by (by apply eo_shards). apply G2.
  - intros [k w] Hs. rewrite memory_at by (by apply eo_shards). apply S2. by right.
Qed.

End Conservation.

(** ** [Totals] is the sum over the memory *)

Section Totals.
  Variable s : Z.

Definition count_of (k : SeriesKey) (d : AggregateDelta) : Z := if KSignal k =? s then d_Count (d_counts d) else 0.
Definition error_of (k : SeriesKey) (d : AggregateDelta) : Z := if KSignal k =? s then d_ErrorCount (d_counts d) else 0.

Definition total_step (key : SeriesKey) (d : AggregateDelta) (acc : Z * Z) : Z * Z :=
  if KSignal key =? s
  then (u64 (fst acc + d_Count (d_counts d)), u64 (snd acc + d_ErrorCount (d_counts d))) else acc.

Lemma total_step_comm k1 d1 k2 d2 acc :
  total_step k1 d1 (total_step k2 d2 acc) = total_step k2 d2 (total_step k1 d1 acc).
Proof.
  unfold total_step. destruct (KSignal k1 =? s), (KSignal k2 =? s); try done. cbn [fst snd].
  rewrite !wrapu_add_l. f_equal; f_equal; lia.
Qed.

Lemma window_total win a b :
  map_fold total_step (u64 a, u64 b) win = (u64 (a + map_sum count_of win), u64 (b + map_sum error_of win)).
Proof.
  induction win as [|k d win Hn IH] using map_ind; [by rewrite map_fold_empty, !map_sum_empty, !Z.add_0_r|].
  rewrite map_fold_insert_L; [|intros; apply total_step_comm|done].
  rewrite IH, !map_sum_insert by done. 
  change (count_of k d) with (if KSignal k =? s then d_Count (d_counts d) else 0).
  change (error_of k d) with (if KSignal k =? s then d_ErrorCount (d_counts d) else 0).
  unfold total_step. destruct (KSignal k =? s); [|by rewrite !Z.add_0_l]. cbn [fst snd]. rewrite !wrapu_add_l. f_equal; f_equal; lia.
Qed.

Lemma windows_total {A} (f : A -> gmap SeriesKey AggregateDelta) (l : list A) : forall a b,
  foldl (fun acc x => map_fold total_step acc (f x)) (u64 a, u64 b) l =
  (u64 (a + list_sum (fun x => map_sum count_of (f x)) l), u64 (b + list_sum (fun x => map_sum error_of (f x)) l)).
Proof.
  unfold list_sum. induction l as [|x l IH]; intros a b; [by cbn; rewrite !Z.add_0_r|].
  cbn [foldl foldr]. rewrite window_total, IH. f_equal; f_equal; lia.
Qed.

Lemma map_sum_starts (h : gmap SeriesKey AggregateDelta -> Z) (m : gmap Z (gmap SeriesKey AggregateDelta)) l :
  l ≡ₚ elements (dom m) -> list_sum (fun w => h (default ∅ (m !! w))) l = map_sum (fun _ => h) m.
Proof.
  intros HP. rewrite (list_sum_perm _ _ _ HP). clear HP.
  assert (elements (dom m) ≡ₚ (map_to_list m).*1) as HE.
  { apply NoDup_Permutation; [apply NoDup_elements|apply NoDup_fst_map_to_list|]. intros w.
    rewrite elem_of_elements, elem_of_dom, list_elem_of_fmap. split.
    - intros [win Hw]. exists (w, win). split; [done|]. by apply elem_of_map_to_list.
    - intros ([w' win] & -> & Hw). apply elem_of_map_to_list in Hw. by eexists. }
  rewrite (list_sum_perm _ _ _ HE). unfold map_sum. rewrite map_fold_foldr.
  assert (forall l, (forall w win, (w, win) ∈ l -> m !! w = Some win) ->
    list_sum (fun w => h (default ∅ (m !! w))) l.*1 = foldr (uncurry (fun _ x acc => h x + acc)) 0 l) as HL.
  { clear. induction l as [|[w win] l IH]; intros Hl; [done|]. unfold list_sum in *. cbn [fmap list_fmap foldr uncurry fst].
    rewrite IH by (intros; apply Hl; by right). rewrite (Hl w win) by left. done. }
  apply HL. intros w win. apply elem_of_map_to_list.
Qed.

(** Summing window by window is summing over the memory. *)
Lemma memory_sum (f : SeriesKey -> AggregateDelta -> Z) e :
  map_sum (fun key => f (fst key)) (memory e) = map_sum (fun _ win => map_sum f win) (by_window (e_shards e)).
Proof.
  unfold memory. generalize (by_window (e_shards e)) as M.
  assert (forall M : gmap (Z * SeriesKey) AggregateDelta,
    map_sum (fun key => f (fst key)) (kmap (M2 := gmap (SeriesKey * Z)) swap_key M) = map_sum (fun key => f (snd key)) M) as HK.
  { intros M. induction M as [|[w k] d M Hn IH] using map_ind; [by rewrite kmap_empty|].
    rewrite kmap_insert by apply swap_inj. rewrite !map_sum_insert; [|done|by rewrite lookup_kmap by apply swap_inj].
    rewrite IH. done. }
  intros M. rewrite HK. clear HK. induction M as [|w win M Hn IH] using map_ind; [done|].
  rewrite map_sum_insert by done. rewrite <- IH. clear IH.
  induction win as [|k d win Hk IH] using map_ind.
  - rewrite map_sum_empty, Z.add_0_l. f_equal. apply map_eq. intros [w' k']. rewrite !lookup_map_uncurry, lookup_insert.
    case_decide as D; [subst w'|done]. rewrite Hn. done.
  - rewrite map_sum_insert by done.
    assert (map_uncurry (M12 := gmap (Z * SeriesKey)) (<[w := <[k := d]> win]> M) =
      <[(w, k) := d]> (map_uncurry (M12 := gmap (Z * SeriesKey)) (<[w := win]> M))) as ->.
    { apply map_eq. intros [w' k']. rewrite lookup_map_uncurry, !lookup_insert, lookup_map_uncurry, lookup_insert.
      destruct (decide (w = w')) as [<-|D]; cbn [mbind option_bind].
      - rewrite lookup_insert. destruct (decide (k = k')) as [<-|D']; [by rewrite decide_True|].
        by rewrite decide_False by congruence.
      - by rewrite decide_False by congruence. }
    rewrite map_sum_insert; [cbn [snd]; lia|]. rewrite lookup_map_uncurry, lookup_insert_eq. done.
Qed.

Lemma Totals_memory e :
  Totals (Snapshot e) s =
  (u64 (map_sum (weight_at (fun d => d_Count (d_counts d)) s) (memory e)),
   u64 (map_sum (weight_at (fun d => d_ErrorCount (d_counts d)) s) (memory e))).
Proof.
  unfold Totals, Snapshot. cbn [s_Windows]. rewrite foldl_fmap. fold total_step. cbn [ws_Series].
  change (0, 0) with (u64 0, u64 0).
  rewrite (windows_total (fun start => default ∅ (by_window (e_shards e) !! start))), !Z.add_0_l.
  rewrite (map_sum_starts (map_sum count_of)), (map_sum_starts (map_sum error_of))
    by (unfold sort_Z; apply merge_sort_Permutation).
  rewrite <- !memory_sum. done.
Qed.

End Totals.

Lemma count_merge a b c : DeltaMerge a (Some b) = Some c -> eq64 (d_Count (d_counts c)) (d_Count (d_counts a) + d_Count (d_counts b)).
Proof. unfold DeltaMerge. destruct (merge_sketch _ _); [|done]. intros [= <-]. apply u64_eq64. Qed.

Lemma error_merge a b c :
  DeltaMerge a (Some b) = Some c -> eq64 (d_ErrorCount (d_counts c)) (d_ErrorCount (d_counts a) + d_ErrorCount (d_counts b)).
Proof. unfold DeltaMerge. destruct (merge_sketch _ _); [|done]. intros [= <-]. apply u64_eq64. Qed.

(** C4: nothing is lost or counted twice by admission: after a batch is applied
    the engine's totals of a signal are those the rollover left plus the
    contribution of every delta of the batch whose window is still open, whatever
    cap rerouted it to an overflow series and in whatever order the batch is
    visited; and a rollover that forces no window out leaves the totals
    unchanged. *)
Theorem totals_conserved (e e' : Engine) (m : DeltaMap) (now now' : time) (rev s : Z) :
  engine_ok e -> m <> [] -> ApplyCommitted e m now now' = Some (e', rev) ->
  let e1 := fst (Rollover e now) in
  let '(c, x) := Totals (Snapshot e') s in
  let '(c1, x1) := Totals (Snapshot e1) s in
  c = u64 (c1 + batch_sum (fun d => d_Count (d_counts d)) s (FinalizeCutoff now') m) /\
  x = u64 (x1 + batch_sum (fun d => d_ErrorCount (d_counts d)) s (FinalizeCutoff now') m) /\
  (forced_at e now = [] -> Totals (Snapshot e1) s = Totals (Snapshot e) s).
Proof.
  intros Hok Hm E. cbv zeta. rewrite !Totals_memory.
  pose proof (apply_sum _ count_merge eq_refl s e m now now' e' rev Hok Hm E) as H1.
  pose proof (apply_sum _ error_merge eq_refl s e m now now' e' rev Hok Hm E) as H2.
  unfold eq64 in H1, H2. rewrite H1, H2. rewrite !wrapu_add_l. split_and!; [done|done|].
  intros HF. destruct (rollover_keeps e now Hok) as (Hok1 & HG & _). rewrite HF in HG.
  by rewrite (memory_drop e _ [] Hok Hok1 HG), drop_windows_nil.
Qed.

Lemma demo_applies : ApplyCommitted demo_engine demo_batch demo_now demo_now = Some (demo_applied, snd demo_committed).
Proof.
  unfold ApplyCommitted. rewrite demo_plans. cbn [length Nat.eqb demo_batch mbind option_bind]. exact demo_commits.
Qed.

Lemma totals_conserved_witness : fst (Totals (Snapshot demo_applied) SignalTraceOp) = 2.
Proof.
  pose proof (totals_conserved demo_engine demo_applied demo_batch demo_now demo_now (snd demo_committed) SignalTraceOp
    demo_engine_ok ltac:(discriminate) demo_applies) as H.
  cbv zeta in H. destruct (Totals (Snapshot demo_applied) SignalTraceOp) as [c x].
  destruct (Totals (Snapshot (fst (Rollover demo_engine demo_now))) SignalTraceOp) as [c1 x1] eqn:E1.
  assert (c1 = 0) as -> by (apply (f_equal fst) in E1; cbn [fst] in E1; rewrite <- E1; vm_compute; reflexivity).
  destruct H as [H _]. cbn [fst]. rewrite H. vm_compute. reflexivity.
Defined.
