(* ===== verification/EngineReads.v ===== *)
(** * EngineReads: rollover, queries and progress of the engine

    The closed-window cap of [Rollover], the two sources of a query
    ([planStore]) and the totality of the apply path. *)
From stdpp Require Import sorting.
From S2P Require Import Prelude Float64 SeriesKey Sketch Delta Limiter Baseline Engine.

(** ** The closed-window cap *)

Lemma sort_Z_strict l : NoDup l -> StronglySorted Z.lt (sort_Z l).
Proof.
  intros Hl. assert (NoDup (sort_Z l)) as Hn by (unfold sort_Z; by rewrite merge_sort_Permutation).
  assert (StronglySorted Z.le (sort_Z l)) as HS by (unfold sort_Z; apply (StronglySorted_merge_sort Z.le)).
  induction HS as [|x l' HS IH Hx]; constructor; apply NoDup_cons in Hn as [Hx' Hn]; [by apply IH|].
  rewrite Forall_forall in *. intros y Hy. specialize (Hx y Hy). assert (x <> y) by (by intros ->). lia.
Qed.

Lemma sort_Z_split l n : NoDup l ->
  (forall x y, x ∈ take n (sort_Z l) -> y ∈ drop n (sort_Z l) -> x < y) /\
  (forall x, x ∈ l <-> x ∈ take n (sort_Z l) \/ x ∈ drop n (sort_Z l)) /\
  NoDup (drop n (sort_Z l)) /\ length (drop n (sort_Z l)) = (length l - n)%nat.
Proof.
  intros Hnd. assert (sort_Z l ≡ₚ l) as HP by (unfold sort_Z; apply merge_sort_Permutation).
  assert (StronglySorted Z.le (sort_Z l)) as HS by (unfold sort_Z; apply (StronglySorted_merge_sort Z.le)).
  assert (NoDup (sort_Z l)) as Hnd' by (by rewrite HP).
  assert (sort_Z l = take n (sort_Z l) ++ drop n (sort_Z l)) as EQ by (symmetry; apply take_drop).
  split_and!.
  - intros x y Hx Hy. rewrite EQ in HS, Hnd'. apply NoDup_app in Hnd' as (_ & Hd & _).
    pose proof (StronglySorted_app_1_elem_of _ _ _ _ _ HS Hx Hy). assert (x <> y); [|lia]. intros ->. by apply (Hd y).
  - intros x. rewrite <- elem_of_app, <- EQ. symmetry. apply elem_of_sort_Z.
  - rewrite EQ in Hnd'. by apply NoDup_app in Hnd' as (_ & _ & ?).
  - rewrite length_drop. by rewrite HP.
Qed.

Lemma forced_split cap closed : 0 <= cap ->
  let forced := overCapClosedLocked cap closed in
  (forall x, x ∈ forced -> x ∈ closed) /\
  (forall x y, x ∈ forced -> y ∈ closed ∖ list_to_set forced -> x < y) /\
  Z.of_nat (size (closed ∖ list_to_set forced)) <= cap /\
  (forced = [] <-> Z.of_nat (size closed) <= cap).
Proof.
  intros Hcap. cbv zeta. unfold overCapClosedLocked. destruct (cap <? 0) eqn:E0; z_bool; [lia|].
  destruct (_ <=? 0) eqn:E; z_bool.
  { assert (closed ∖ list_to_set [] = closed) as -> by set_solver. split_and!; try set_solver; try lia. split; [lia|done]. }
  set (n := Z.to_nat (Z.of_nat (size closed) - cap)).
  destruct (sort_Z_split (elements closed) n (NoDup_elements _)) as (H1 & H2 & HN & H3).
  set (forced := take n (sort_Z (elements closed))) in *. set (kept := drop n _) in *.
  assert (closed ∖ list_to_set forced ⊆ list_to_set kept) as HK.
  { intros x [Hx Hn]%elem_of_difference. apply elem_of_elements, H2 in Hx as [Hx|Hx]; [|by apply elem_of_list_to_set].
    exfalso. apply Hn. by apply elem_of_list_to_set. }
  split_and!.
  - intros x Hx. apply elem_of_elements, H2. by left.
  - intros x y Hx Hy. apply H1; [done|]. by apply HK, elem_of_list_to_set in Hy.
  - etrans; [apply Nat2Z.inj_le, subseteq_size, HK|]. rewrite size_list_to_set by done.
    rewrite H3. change (length (elements closed)) with (size closed). unfold n. lia.
  - split; [|lia]. intros HF. exfalso. assert (length forced = 0%nat) as HL by (by rewrite HF). revert HL. unfold forced.
    rewrite length_take. unfold sort_Z. rewrite merge_sort_Permutation. change (length (elements closed)) with (size closed).
    unfold n. lia.
Qed.

(** Memory behind a stalled finalizer is bounded and loss is confined to
    the oldest windows: after a rollover at most [maxClosedWindows] windows are
    closed; the windows forced out are the oldest closed ones, they number
    exactly what is counted, and the watermark covers them; every other window,
    in particular every one still accepting points, keeps its contents; and
    while the backlog is within the cap nothing is dropped at all. *)
Theorem rollover_bounded (e : Engine) (now : time) :
  engine_ok e -> 0 <= e_maxClosedWindows e ->
  let '(e', forced) := Rollover e now in
  Z.of_nat (size (own_closed (e_own e'))) <= e_maxClosedWindows e /\
  forced = Z.of_nat (length (forced_at e now)) /\ e_closedForced e' = (if 0 <? forced then u64 (e_closedForced e + forced) else e_closedForced e) /\
  (forall w, w ∈ forced_at e now -> w ∈ closed_at e now /\ w ∉ own_mutable (e_own e') /\ w <= own_watermark (e_own e')) /\
  (forall w w', w ∈ forced_at e now -> w' ∈ own_closed (e_own e') -> w < w') /\
  (forall k w, w ∉ forced_at e now -> stored e' k w = stored e k w) /\
  (forced_at e now = [] <-> Z.of_nat (size (closed_at e now)) <= e_maxClosedWindows e).
Proof.
  intros Hok Hcap. destruct (rollover_keeps e now Hok) as (_ & HG & _).
  pose proof (forced_split _ (closed_at e now) Hcap) as (F1 & F2 & F3 & F4). cbv zeta in *.
  set (o := mkOwn (own_mutable (e_own e)) (closed_at e now) (own_watermark (e_own e)) (own_epoch (e_own e))).
  pose proof (evict_all_spec (forced_at e now) (e_shards e) o [] (eo_shards e Hok)) as HE.
  unfold forced_at, closed_at, o in *. unfold Rollover in *.
  destruct (foldl force_one _ _) as [[shards o'] released]. cbn [fst] in HG.
  destruct HE as (_ & _ & _ & HM & HC & _ & _ & HW). cbn [own_closed own_mutable] in HM, HC.
  assert (forall (b : bool) ei x y z, e_own (if b then add_discarded ei x y z else ei) = e_own ei) as HO by (by intros []).
  rewrite HO. cbn [e_own set_limiter set_memory]. rewrite HM, HC. split_and!; try done.
  - by destruct (0 <? _).
  - intros w Hw. split_and!; [by apply F1| |by apply HW]. rewrite elem_of_difference, elem_of_list_to_set. tauto.
  - intros k w Hw. rewrite HG. by rewrite decide_False.
Qed.

(** ** Queries *)

Lemma fold_store_end start ws : forall end_,
  let r := foldl (fun storeEnd w => if (start <=? w) && (w <? storeEnd) then w else storeEnd) end_ ws in
  r <= end_ /\ (forall w, w ∈ ws -> start <= w -> r <= w) /\ (r = end_ \/ (r ∈ ws /\ start <= r)).
Proof.
  induction ws as [|w0 ws IH]; intros end_; cbn [foldl]; cbv zeta.
  { split_and!; [lia|by intros w ?%not_elem_of_nil|by left]. }
  specialize (IH (if (start <=? w0) && (w0 <? end_) then w0 else end_)). cbv zeta in IH. destruct IH as (I1 & I2 & I3).
  destruct (start <=? w0) eqn:E1, (w0 <? end_) eqn:E2; cbn [andb] in *; z_bool; split_and!; try lia.
  all: try (intros w [->|Hw]%elem_of_cons Hs; [lia|by apply I2]).
  - destruct I3 as [I3|[I3 ?]]; right; [rewrite I3; split; [by left|done]|split; [by right|done]].
  - destruct I3 as [I3|[I3 ?]]; [by left|right; split; [by right|done]].
  - destruct I3 as [I3|[I3 ?]]; [by left|right; split; [by right|done]].
Qed.

Lemma elem_of_readMutable e tid start end_ signal w k d : engine_ok e ->
  (w, k, d) ∈ snd (readMutable e tid start end_ signal) <->
  start <= w < end_ /\ stored e k w = Some d /\ TenantID k = tid /\ (signal = SignalUnspecified \/ KSignal k = signal).
Proof.
  intros Hok. unfold readMutable. cbn [snd Mutable ownershipLocked].
  assert (forall sh p, (w, k, d) ∈ (let '(key, d0) := p : SeriesKey * AggregateDelta in
      if negb (TenantID key =? tid) then []
      else if negb (signal =? SignalUnspecified) && negb (KSignal key =? signal) then [] else [(w, key, d0)]) /\
      p ∈ map_to_list (default ∅ ((sh : gmap Z (gmap SeriesKey AggregateDelta)) !! w)) <->
    p = (k, d) /\ sh_get sh w k = Some d /\ TenantID k = tid /\ (signal = SignalUnspecified \/ KSignal k = signal)) as HP.
  { intros sh [key d0]. rewrite elem_of_map_to_list. unfold sh_get. split.
    - intros [H1 H2]. destruct (TenantID key =? tid) eqn:E1; [|by apply not_elem_of_nil in H1]. cbn [negb] in H1.
      destruct (negb (signal =? SignalUnspecified) && negb (KSignal key =? signal)) eqn:E2; [by apply not_elem_of_nil in H1|].
      apply list_elem_of_singleton in H1. injection H1 as -> ->. z_bool.
      split_and!; [done| |done|destruct_or!; z_bool; tauto]. by destruct (sh !! w).
    - intros ([= -> ->] & H2 & <- & Hs). rewrite Z.eqb_refl. cbn [negb].
      destruct (negb (signal =? SignalUnspecified) && negb (KSignal k =? signal)) eqn:E2.
      + z_bool. destruct Hs; contradiction.
      + split; [by apply list_elem_of_singleton|]. by destruct (sh !! w). }
  rewrite list_elem_of_bind. split.
  - intros (w0 & Hin & Hw0). apply elem_of_sort_Z, elem_of_elements in Hw0.
    destruct ((w0 <? start) || (end_ <=? w0)) eqn:Eb; [by apply not_elem_of_nil in Hin|]. z_bool.
    apply list_elem_of_bind in Hin as (sh & Hin & Hsh). apply list_elem_of_bind in Hin as ([key d0] & Hin & Hp).
    assert (w0 = w) as ->.
    { destruct (negb (TenantID key =? tid)); [by apply not_elem_of_nil in Hin|].
      destruct (negb (signal =? SignalUnspecified) && negb (KSignal key =? signal)); [by apply not_elem_of_nil in Hin|].
      apply list_elem_of_singleton in Hin. by injection Hin. }
    destruct (proj1 (HP sh (key, d0)) (conj Hin Hp)) as (_ & Hg & Ht & Hs). split; [lia|]. split; [|by split].
    apply list_elem_of_lookup_1 in Hsh as [n Hn].
    pose proof (so_placed _ _ (ss_ok _ (eo_shards e Hok) n sh Hn) w k ltac:(by rewrite Hg)) as Hk.
    unfold stored, at_shards. by rewrite Hk, Nat2Z.id, Hn.
  - intros (Hr & Hst & Ht & Hs). exists w. split.
    2: { apply elem_of_sort_Z, elem_of_elements, (eo_mutable e Hok). exists k. by rewrite Hst. }
    destruct ((w <? start) || (end_ <=? w)) eqn:Eb; [z_bool; lia|].
    unfold stored, at_shards in Hst. destruct (e_shards e !! Z.to_nat (shardIndex k)) as [sh|] eqn:En; [|done]. cbn in Hst.
    apply list_elem_of_bind. exists sh. split; [|by eapply list_elem_of_lookup_2].
    apply list_elem_of_bind. exists (k, d). apply (HP sh (k, d)). done.
Qed.

(** The windows a query asks for. *)
Definition query_start (qStart : time) : Z := WindowStart qStart.
Definition query_end (qStart qEnd : time) : Z :=
  let end_ := WindowStart (qEnd + (WindowSize - Second)) in
  if end_ <=? query_start qStart then query_start qStart + windowSec else end_.

(** A query never counts a window twice: it fails exactly on a missing
    tenant, an empty range or a rejected tenant; otherwise memory serves exactly
    the matching cells of the windows it owns in the range, the range left to
    the store contains no window memory owns, and every requested window below
    all the owned ones is in that range. *)
Theorem query_sources_disjoint (intern : string -> option Z) (e : Engine) (tenant : string) (qStart qEnd : time) (signal : Z)
    (has_store : bool) :
  engine_ok e ->
  let start := query_start qStart in
  let end_ := query_end qStart qEnd in
  match planStore intern e tenant qStart qEnd signal has_store with
  | Err x => x = ErrTenantRequired /\ tenant = EmptyString \/ x = ErrUnboundedRange /\ qEnd <= qStart \/
      x = ErrTenantIdentity /\ intern tenant = None
  | Ok (own, visits, range) =>
      tenant <> EmptyString /\ qStart < qEnd /\ start < end_ /\
      exists tid, intern tenant = Some tid /\
      (forall w k d, (w, k, d) ∈ visits <-> start <= w < end_ /\ stored e k w = Some d /\ TenantID k = tid /\
         (signal = SignalUnspecified \/ KSignal k = signal)) /\
      (forall lo hi, range = Some (lo, hi) -> has_store = true /\ lo = start /\ hi <= end_ /\
         forall w, lo <= w < hi -> forall k, stored e k w = None) /\
      (has_store = true -> forall w, start <= w < end_ ->
         (forall k w', start <= w' -> is_Some (stored e k w') -> w < w') ->
         exists hi, range = Some (start, hi) /\ w < hi)
  end.
Proof.
  intros Hok. cbv zeta. unfold planStore. destruct (String.eqb tenant "") eqn:Et.
  { left. split; [done|]. by apply String.eqb_eq. }
  destruct (t_After qEnd qStart) eqn:Eq; unfold t_After in Eq; z_bool; cbn [negb]; [|right; left; by split].
  destruct (intern tenant) as [tid|] eqn:Ei; [|right; right; by split].
  assert (tenant <> EmptyString) as Hne by (intros ->; done).
  fold (query_start qStart). change (let end_ := WindowStart (qEnd + (WindowSize - Second)) in
    if end_ <=? query_start qStart then query_start qStart + windowSec else end_) with (query_end qStart qEnd).
  pose proof (elem_of_readMutable e tid (query_start qStart) (query_end qStart qEnd) signal) as HV.
  pose proof (fold_store_end (query_start qStart) (Mutable (ownershipLocked e)) (query_end qStart qEnd)) as HF.
  cbv zeta in *. unfold readMutable in *. cbn [snd] in HV.
  assert (query_start qStart < query_end qStart qEnd) as Hlt.
  { unfold query_end. change windowSec with 300. go_cases. }
  fold (query_end qStart qEnd). 
  change (if WindowStart (qEnd + (WindowSize - Second)) <=? query_start qStart then query_start qStart + windowSec
    else WindowStart (qEnd + (WindowSize - Second))) with (query_end qStart qEnd) in *.
  set (r := foldl _ (query_end qStart qEnd) _) in *. destruct HF as (F1 & F2 & F3).
  assert (forall w, w ∈ Mutable (ownershipLocked e) <-> exists k, is_Some (stored e k w)) as HM.
  { intros w. cbn [Mutable ownershipLocked]. rewrite elem_of_sort_Z, elem_of_elements. apply (eo_mutable e Hok). }
  split_and!; [done|done|done|]. exists tid. split; [done|]. split; [intros; by apply HV|]. split.
  - intros lo hi. destruct ((r <=? query_start qStart) || negb has_store) eqn:Eb; [done|]. intros [= <- <-].
    apply orb_false_iff in Eb as [_ Eh]. apply negb_false_iff in Eh. split_and!; try done.
    intros w Hw k. apply eq_None_not_Some. intros Hs. assert (r <= w) by (apply F2; [apply HM; by exists k|lia]). lia.
  - intros -> w Hw Hbelow. assert (w < r) as Hr.
    { destruct F3 as [->|[F3 F4]]; [lia|]. apply HM in F3 as [k Hk]. by apply (Hbelow k). }
    destruct (r <=? query_start qStart) eqn:Er; z_bool; [lia|]. cbn [orb negb]. by exists r.
Qed.

(** ** Progress: the apply path only fails when a merge does *)

Section Progress.
  (** A family of deltas closed under merging without panic. *)
  Variable G : AggregateDelta -> Prop.
  Hypothesis G_zero : G zero_delta.
  Hypothesis G_merge : forall a b, G a -> G b -> exists c, DeltaMerge a (Some b) = Some c /\ G c.

Lemma plan_total cutoff m : Forall (fun entry => G (snd entry)) m -> forall l dis plan,
  map_Forall (fun _ => G) (Resolved plan) ->
  exists l' dis' plan', opt_foldl (plan_one cutoff) (l, dis, plan) m = Some (l', dis', plan') /\
    map_Forall (fun _ => G) (Resolved plan').
Proof.
  induction 1 as [|[[key w] d] m Hd Hm IH]; intros l dis plan HP; [by exists l, dis, plan|].
  cbn [snd] in Hd. assert (exists l1 dis1 plan1, plan_one cutoff (l, dis, plan) (key, w, d) = Some (l1, dis1, plan1) /\
    map_Forall (fun _ => G) (Resolved plan1)) as (l1 & dis1 & plan1 & E1 & HP1).
  { unfold plan_one. destruct (w <=? cutoff); [by eauto|]. destruct (Admit l key w) as [l1 adm].
    destruct (Resolved plan !! (adm_Key adm, w)) as [ex|] eqn:Er.
    - destruct (G_merge zero_delta ex G_zero (HP _ _ Er)) as (m1 & E1 & G1). rewrite E1. cbn [mbind option_bind].
      destruct (G_merge m1 d G1 Hd) as (m2 & E2 & G2). rewrite E2. cbn [mbind option_bind].
      do 3 eexists. split; [done|]. by apply map_Forall_insert_2.
    - do 3 eexists. split; [done|]. by apply map_Forall_insert_2. }
  destruct (IH l1 dis1 plan1 HP1) as (l' & dis' & plan' & E & HG). exists l', dis', plan'. split; [|done].
  apply opt_foldl_cons. eauto.
Qed.

Definition shard_all (sh : gmap Z (gmap SeriesKey AggregateDelta)) : Prop := forall w k d, sh_get sh w k = Some d -> G d.

Lemma apply_entries_total i l : Forall (fun entry => G (snd entry)) l -> forall sh, shard_all sh ->
  exists sh', opt_foldl (apply_entry i) sh l = Some sh' /\ shard_all sh'.
Proof.
  induction 1 as [|[[k w] d] l Hd Hl IH]; intros sh Hsh; [by exists sh|]. cbn [snd] in Hd.
  assert (exists sh1, apply_entry i sh (k, w, d) = Some sh1 /\ shard_all sh1) as (sh1 & E1 & H1).
  { assert (forall d', G d' -> shard_all (<[w := <[k := d']> (default ∅ (sh !! w))]> sh)) as HI.
    { intros d' Hd' w' k' x. rewrite sh_get_insert. case_decide; [by intros [= <-]|apply Hsh]. }
    unfold apply_entry. destruct (shardIndex k =? i); [|by exists sh]. rewrite sh_get_default.
    destruct (sh_get sh w k) as [cur|] eqn:Ec; [|eexists; split; [done|by apply HI]].
    destruct (G_merge cur d (Hsh _ _ _ Ec) Hd) as (d' & E & Gd). rewrite E. cbn [mbind option_bind].
    eexists. split; [done|by apply HI]. }
  destruct (IH sh1 H1) as (sh' & E & H'). exists sh'. split; [|done]. apply opt_foldl_cons. eauto.
Qed.

Lemma apply_shards_progress resolved shards : map_Forall (fun _ => G) resolved -> Forall shard_all shards -> forall j,
  exists shards', apply_shards j shards resolved = Some shards' /\ Forall shard_all shards'.
Proof.
  intros HR. induction 1 as [|sh shards Hsh Hs IH]; intros j; [by exists []|]. cbn [apply_shards].
  destruct (apply_entries_total j (map_to_list resolved)) with (sh := sh) as (sh' & E & H'); [|done|].
  { apply Forall_forall. intros [key d] Hin. apply elem_of_map_to_list in Hin. by apply (HR key). }
  unfold applyShard. rewrite E. cbn [mbind option_bind]. destruct (IH (j + 1)) as (rest & E2 & HR2). rewrite E2.
  cbn [mbind option_bind]. eexists. split; [done|by constructor].
Qed.

Lemma stored_all shards : shards_ok shards -> Forall shard_all shards <-> forall k w d, at_shards shards k w = Some d -> G d.
Proof.
  intros Hok. rewrite Forall_forall. split.
  - intros H k w d. unfold at_shards. destruct (shards !! _) as [sh|] eqn:E; [|done]. cbn. apply H.
    by eapply list_elem_of_lookup_2.
  - intros H sh Hin w k d Hd. apply list_elem_of_lookup_1 in Hin as [n Hn].
    pose proof (so_placed _ _ (ss_ok _ Hok n sh Hn) w k ltac:(by rewrite Hd)) as Hp.
    apply (H k w). unfold at_shards. by rewrite Hp, Nat2Z.id, Hn.
Qed.

End Progress.

(** The apply path always completes: for any family of deltas that merge
    without panic, an engine holding such deltas applies any batch of them: it
    returns, the revision advances by one or (when nothing is left to apply)
    stays, and the engine again holds only such deltas. *)
Theorem apply_completes (G : AggregateDelta -> Prop) (e : Engine) (m : DeltaMap) (now now' : time) :
  G zero_delta -> (forall a b, G a -> G b -> exists c, DeltaMerge a (Some b) = Some c /\ G c) ->
  engine_ok e -> (forall k w d, stored e k w = Some d -> G d) -> Forall (fun entry => G (snd entry)) m ->
  exists e' rev, ApplyCommitted e m now now' = Some (e', rev) /\ rev = e_revision e' /\
    (rev = e_revision e \/ rev = u64 (e_revision e + 1)) /\
    engine_ok e' /\ forall k w d, stored e' k w = Some d -> G d.
Proof.
  intros G0 GM Hok HS Hm. unfold ApplyCommitted. destruct (length m =? 0)%nat eqn:El.
  { exists e, (e_revision e). split_and!; try done. by left. }
  unfold PlanAdmission. rewrite El. destruct (rollover_keeps e now Hok) as (Hok1 & HG1 & _).
  assert (e_revision (fst (Rollover e now)) = e_revision e) as Hrev.
  { unfold Rollover. destruct (foldl force_one _ _) as [[? ?] ?]. by destruct (0 <? _). }
  set (e1 := fst (Rollover e now)) in *.
  destruct (plan_total G G0 GM (FinalizeCutoff now') m Hm (e_limiter e1) 0 (mkPlan ∅ []) (map_Forall_empty _))
    as (l & dis & plan & E & HP).
  rewrite E. cbn [mbind option_bind]. set (e2 := add_discarded (set_limiter e1 l) 0 dis 0).
  assert (engine_ok e2) as Hok2 by (destruct Hok1; by constructor).
  assert (Forall (shard_all G) (e_shards e2)) as HA.
  { apply (stored_all G (e_shards e2)); [apply eo_shards, Hok2|]. intros k w d. change (at_shards (e_shards e2) k w) with (stored e1 k w).
    rewrite HG1. case_decide; [done|apply HS]. }
  assert (exists e' rev, CommitAdmission e2 plan = Some (e', rev) /\ rev = e_revision e' /\
    (rev = e_revision e \/ rev = u64 (e_revision e + 1)) /\ Forall (shard_all G) (e_shards e')) as (e' & rev & EC & R1 & R2 & R3).
  { unfold CommitAdmission. destruct (size (Resolved plan) =? 0)%nat.
    - exists e2, (e_revision e2). split_and!; try done. left. exact Hrev.
    - destruct (apply_shards_progress G GM (Resolved plan) (e_shards e2) HP HA 0) as (shards' & E' & HA'). rewrite E'.
      cbn [mbind option_bind]. do 2 eexists. split; [done|]. split_and!; try done. right.
      change (e_revision e2) with (e_revision e1). by rewrite Hrev. }
  exists e', rev. split_and!; try done; destruct (commit_keeps _ _ _ _ Hok2 EC) as (Hok' & _); [done|].
  intros k w d. apply (stored_all G (e_shards e')); [apply eo_shards, Hok'|done].
Qed.

Lemma rollover_bounded_witness :
  Z.of_nat (size (own_closed (e_own (fst (Rollover demo_applied (t_of_unix 5000)))))) <= 12.
Proof.
  pose proof (rollover_bounded demo_applied (t_of_unix 5000) demo_applied_ok) as H.
  assert (e_maxClosedWindows demo_applied = 12) as E by (vm_compute; reflexivity). rewrite E in H.
  specialize (H ltac:(lia)). destruct (Rollover demo_applied (t_of_unix 5000)) as [e' forced]. exact (proj1 H).
Defined.

Lemma query_sources_disjoint_witness :
  match planStore (fun _ => Some 1) demo_applied "t" (t_of_unix 300) (t_of_unix 1200) 0 true with
  | Ok _ => True
  | Err x => False
  end.
Proof.
  pose proof (query_sources_disjoint (fun _ => Some 1) demo_applied "t" (t_of_unix 300) (t_of_unix 1200) 0 true demo_applied_ok) as H.
  cbv zeta in H. destruct (planStore _ _ _ _ _ _ _) as [x|x]; [exact I|].
  destruct H as [[_ H]|[[_ H]|[_ H]]]; [discriminate|revert H; vm_compute; tauto|discriminate].
Defined.

Lemma apply_completes_witness :
  exists e' rev, ApplyCommitted demo_engine demo_batch demo_now demo_now = Some (e', rev) /\ rev = e_revision e'.
Proof.
  destruct (apply_completes (fun d => d_Sketch d = None) demo_engine demo_batch demo_now demo_now) as (e' & rev & E & R & _).
  - reflexivity.
  - exact no_sketch_merges.
  - exact demo_engine_ok.
  - exact demo_engine_empty.
  - repeat constructor.
  - exists e', rev. split; [exact E|exact R].
Defined.
