(* ===== verification/Writer.v ===== *)
(** * Writer: the group-commit writer ([internal/aggregate/writer.go])

    One Export submits its deltas, the commit goroutine coalesces submissions
    into one transaction, applies it to the engine and answers the waiters.
    Deltas are shared by pointer between a submission, the pre-merged batch and
    the Export's reducer, so they live in a heap and a [DeltaMap] maps to
    locations.  The store's outcomes are arguments ([commit_group], the listed
    windows and [finalize_ok]); the registries drained into the same transaction
    and the metrics are other components.  Between steps the channel [w_queue]
    holds every submission in flight. *)
From S2P Require Import Prelude Float64 SeriesKey Sketch SketchCodec Delta Limiter Baseline Engine.

(* internal/aggregate/writer.go:36-62 DefaultCommitCoalesceMs *)
Definition DefaultCommitCoalesceMs : Z := 25.
Definition DefaultCommitMaxDeltas : Z := 5000.
Definition DefaultCommitMaxBytes : Z := Z.shiftl 8 20.
Definition DefaultCommitMaxPendingBytes : Z := Z.shiftl 64 20.
Definition DefaultCommitMaxWaiters : Z := 1024.
Definition DefaultCommitMaxPendingDeltas : Z := 200000.
Definition DefaultFinalizeIntervalSec : Z := 30.
Definition finalizeWindowsPerPass : Z := 32.

(** [deltaRowBytes], from [store_sqlite.go]. *)
Definition deltaRowBytes : Z := 96.
Definition Millisecond : Z := 1000000.

(** The knobs of the configuration; store, engine, registrar, metrics and clock
    are wired separately. *)
(* internal/aggregate/writer.go:65-94 WriterConfig *)
Record WriterConfig := mkWriterConfig {
  CoalesceWindow : Z;
  MaxBatchDeltas : Z;
  MaxBatchBytes : Z;
  MaxPendingBytes : Z;
  MaxWaiters : Z;
  MaxPendingDeltas : Z;
  FinalizeInterval : Z;
}.

(** [if x <= 0 { x = d }] *)
Definition or_positive (x d : Z) : Z := if x <=? 0 then d else x.

(* internal/aggregate/writer.go:97-126 WriterConfig.withDefaults *)
Definition writerDefaults (c : WriterConfig) : WriterConfig :=
  mkWriterConfig
    (or_positive (CoalesceWindow c) (DefaultCommitCoalesceMs * Millisecond))
    (or_positive (MaxBatchDeltas c) DefaultCommitMaxDeltas)
    (or_positive (MaxBatchBytes c) DefaultCommitMaxBytes)
    (or_positive (MaxPendingBytes c) DefaultCommitMaxPendingBytes)
    (or_positive (MaxWaiters c) DefaultCommitMaxWaiters)
    (or_positive (MaxPendingDeltas c) DefaultCommitMaxPendingDeltas)
    (if FinalizeInterval c =? 0 then DefaultFinalizeIntervalSec * Second else FinalizeInterval c).

(** Locations of deltas. *)
Abbreviation loc := nat (only parsing).
Abbreviation heap := (list AggregateDelta) (only parsing).
Abbreviation PtrMap := (list (SeriesWindowKey * loc)) (only parsing).

(** The reply channel [done] is the position of the submission in its batch. *)
(* internal/aggregate/writer.go:135-140 submission *)
Record submission := mkSubmission { sub_deltas : PtrMap; sub_bytes : Z; sub_count : Z }.

Inductive writer_error := ErrStoreClosed | ErrCommit | ErrSaturated (bound : string) (current limit : Z).

(* internal/aggregate/writer.go:129-132 commitResult *)
Record commitResult := mkCommitResult { cr_revision : Z; cr_err : option writer_error }.

(** The writer's counters ([atomic.Uint64]s and the cached backlog sample). *)
(* internal/aggregate/writer.go:143-185 WriterStats *)
Record WriterStats := mkWriterStats {
  Commits : Z; CommitErrors : Z; Deltas : Z; Rejections : Z;
  PendingBytes : Z; PendingDeltas : Z; Waiters : Z; Finalized : Z;
  CommitFailureStreak : Z; FinalizeFailureStreak : Z; FinalizeErrors : Z;
  st_MaxPendingBytes : Z; st_MaxPendingDeltas : Z; st_MaxWaiters : Z;
  DeltaLogRows : Z; DeltaLogAgeSeconds : f64; BacklogSampledAt : time;
}.

(* internal/aggregate/writer.go:227-273 Writer *)
Record Writer := mkWriter {
  w_cfg : WriterConfig;
  w_engine : Engine;
  w_heap : heap;
  w_queue : list submission;
  w_closed : bool;
  w_pendingBytes : Z;
  w_pendingDeltas : Z;
  w_waiters : Z;
  w_commits : Z;
  w_commitErrors : Z;
  w_deltas : Z;
  w_rejections : Z;
  w_finalized : Z;
  w_commitFailStreak : Z;
  w_finalizeErrors : Z;
  w_finalizeFailStreak : Z;
}.

(** The parts of the writer an operation replaces. *)
Definition set_pending (w : Writer) (bytes deltas waiters : Z) : Writer :=
  mkWriter (w_cfg w) (w_engine w) (w_heap w) (w_queue w) (w_closed w) bytes deltas waiters
    (w_commits w) (w_commitErrors w) (w_deltas w) (w_rejections w) (w_finalized w)
    (w_commitFailStreak w) (w_finalizeErrors w) (w_finalizeFailStreak w).
Definition set_queue (w : Writer) (q : list submission) : Writer :=
  mkWriter (w_cfg w) (w_engine w) (w_heap w) q (w_closed w) (w_pendingBytes w) (w_pendingDeltas w) (w_waiters w)
    (w_commits w) (w_commitErrors w) (w_deltas w) (w_rejections w) (w_finalized w)
    (w_commitFailStreak w) (w_finalizeErrors w) (w_finalizeFailStreak w).
Definition reject (w : Writer) : Writer :=
  mkWriter (w_cfg w) (w_engine w) (w_heap w) (w_queue w) (w_closed w) (w_pendingBytes w) (w_pendingDeltas w) (w_waiters w)
    (w_commits w) (w_commitErrors w) (w_deltas w) (u64 (w_rejections w + 1)) (w_finalized w)
    (w_commitFailStreak w) (w_finalizeErrors w) (w_finalizeFailStreak w).
Definition set_engine (w : Writer) (e : Engine) (h : heap) : Writer :=
  mkWriter (w_cfg w) e h (w_queue w) (w_closed w) (w_pendingBytes w) (w_pendingDeltas w) (w_waiters w)
    (w_commits w) (w_commitErrors w) (w_deltas w) (w_rejections w) (w_finalized w)
    (w_commitFailStreak w) (w_finalizeErrors w) (w_finalizeFailStreak w).
(** [commits], [commitErrors], [deltas] and the failure streak of one commit. *)
Definition count_commit (w : Writer) (failed : bool) (rows : Z) : Writer :=
  mkWriter (w_cfg w) (w_engine w) (w_heap w) (w_queue w) (w_closed w) (w_pendingBytes w) (w_pendingDeltas w) (w_waiters w)
    (u64 (w_commits w + 1)) (if failed then u64 (w_commitErrors w + 1) else w_commitErrors w)
    (if failed then w_deltas w else u64 (w_deltas w + rows)) (w_rejections w) (w_finalized w)
    (if failed then u64 (w_commitFailStreak w + 1) else 0) (w_finalizeErrors w) (w_finalizeFailStreak w).
(** [finalizeErrors] and [finalizeFailStreak] of a failure; [finalized] and the
    streak reset of a success. *)
Definition count_finalize (w : Writer) (failed : bool) : Writer :=
  mkWriter (w_cfg w) (w_engine w) (w_heap w) (w_queue w) (w_closed w) (w_pendingBytes w) (w_pendingDeltas w) (w_waiters w)
    (w_commits w) (w_commitErrors w) (w_deltas w) (w_rejections w)
    (if failed then w_finalized w else u64 (w_finalized w + 1)) (w_commitFailStreak w)
    (if failed then u64 (w_finalizeErrors w + 1) else w_finalizeErrors w)
    (if failed then u64 (w_finalizeFailStreak w + 1) else 0).

(** [closed.Store(true)] of [Shutdown]. *)
Definition close_writer (w : Writer) : Writer :=
  mkWriter (w_cfg w) (w_engine w) (w_heap w) (w_queue w) true (w_pendingBytes w) (w_pendingDeltas w) (w_waiters w)
    (w_commits w) (w_commitErrors w) (w_deltas w) (w_rejections w) (w_finalized w)
    (w_commitFailStreak w) (w_finalizeErrors w) (w_finalizeFailStreak w).

(* internal/aggregate/writer.go:276-303 NewWriter *)
Definition NewWriter (cfg : WriterConfig) (e : Engine) : Writer :=
  mkWriter (writerDefaults cfg) e [] [] false 0 0 0 0 0 0 0 0 0 0 0.

(** ** Admission *)

(* internal/aggregate/writer.go:757-770 estimateDeltaBytes *)
Definition estimateDeltaBytes (h : heap) (m : PtrMap) : option Z :=
  opt_foldl (fun n entry =>
    let n := n + deltaRowBytes in
    match h !! snd entry with
    | Some d =>
        match d_Sketch d with
        | None => Some n
        | Some s => bins ← PopulatedBins s; Some (n + 16 + Z.min bins SketchMaxSerializedBins * 3)
        end
    | None => Some n
    end) 0 m.

(* internal/aggregate/writer.go:500-521 Writer.admit *)
Definition admitSubmission (w : Writer) (s : submission) : Writer * option writer_error :=
  let c := w_cfg w in
  let err :=
    if MaxWaiters c <=? w_waiters w then Some (ErrSaturated "waiters" (w_waiters w) (MaxWaiters c))
    else if MaxPendingBytes c <? w_pendingBytes w + sub_bytes s
    then Some (ErrSaturated "bytes" (w_pendingBytes w + sub_bytes s) (MaxPendingBytes c))
    else if MaxPendingDeltas c <? w_pendingDeltas w + sub_count s
    then Some (ErrSaturated "deltas" (w_pendingDeltas w + sub_count s) (MaxPendingDeltas c))
    else None in
  match err with
  | Some _ => (reject w, err)
  | None =>
      (set_pending w (w_pendingBytes w + sub_bytes s) (w_pendingDeltas w + sub_count s) (w_waiters w + 1), None)
  end.

(* internal/aggregate/writer.go:524-530 Writer.release *)
Definition release (w : Writer) (s : submission) : Writer :=
  set_pending w (w_pendingBytes w - sub_bytes s) (w_pendingDeltas w - sub_count s) (w_waiters w - 1).

(** [ApplyErr] up to the wait for [done]: an answer at once ([inl]), or the
    submission is queued ([inr]).  [stopped] is the race of the send with the
    shutdown. *)
(* internal/aggregate/writer.go:471-497 Writer.ApplyErr *)
Definition ApplyErr (w : Writer) (m : PtrMap) (stopped : bool) : option (Writer * (commitResult + submission)) :=
  if (length m =? 0)%nat then Some (w, inl (mkCommitResult (e_revision (w_engine w)) None))
  else if w_closed w then Some (w, inl (mkCommitResult (e_revision (w_engine w)) (Some ErrStoreClosed)))
  else
    bytes ← estimateDeltaBytes (w_heap w) m;
    let s := mkSubmission m bytes (Z.of_nat (length m)) in
    match admitSubmission w s with
    | (w, Some err) => Some (w, inl (mkCommitResult (e_revision (w_engine w)) (Some err)))
    | (w, None) =>
        if stopped then Some (release w s, inl (mkCommitResult (e_revision (w_engine w)) (Some ErrStoreClosed)))
        else Some (set_queue w (w_queue w ++ [s]), inr s)
    end.

(** ** The commit *)

(** One entry of the pre-merge: the first location seen for a key is merged
    into in place. *)
Definition premerge_one (acc : heap * gmap SeriesWindowKey loc) (entry : SeriesWindowKey * loc)
    : option (heap * gmap SeriesWindowKey loc) :=
  let '(h, merged) := acc in
  let '(swk, p) := entry in
  match merged !! swk with
  | Some cur =>
      c ← h !! cur;
      d ← h !! p;
      c' ← DeltaMerge c (Some d);
      Some (<[cur := c']> h, merged)
  | None => Some (h, <[swk := p]> merged)
  end.

Definition premerge (h : heap) (batch : list submission) : option (heap * gmap SeriesWindowKey loc) :=
  opt_foldl premerge_one (h, ∅) (mjoin (sub_deltas <$> batch)).

(** The deltas a map of locations denotes. *)
Definition deref (h : heap) (merged : gmap SeriesWindowKey loc) : gmap SeriesWindowKey AggregateDelta :=
  omap (fun p => h !! p) merged.

(** The rows of [CommitGroup] that carry deltas and baselines. *)
Record GroupBatch := mkGroupBatch {
  gb_Deltas : gmap SeriesWindowKey AggregateDelta;
  gb_Baselines : list DirtyBaseline;
}.

(* internal/aggregate/writer.go:674-679 Writer.finish *)
Definition finish (w : Writer) (batch : list submission) (res : commitResult) : Writer * list commitResult :=
  (foldl release w batch, (fun _ => res) <$> batch).

(* internal/aggregate/writer.go:586-671 Writer.commit *)
Definition commit (commit_group : GroupBatch -> bool) (w : Writer) (batch : list submission) (now now' : time)
    : option (Writer * list commitResult) :=
  '(h, merged) ← premerge (w_heap w) batch;
  '(e, plan) ← PlanAdmission (w_engine w) (map_to_list (deref h merged)) now now';
  let '(baselines, dirty) := DrainDirty (e_baselines e) in
  let e := set_baselines e baselines in
  let gb := mkGroupBatch (Resolved plan) dirty in
  if commit_group gb then
    '(e, rev) ← CommitAdmission e plan;
    let w := count_commit (set_engine w e h) false (Z.of_nat (size (gb_Deltas gb))) in
    Some (finish w batch (mkCommitResult rev None))
  else
    let e := RollbackAdmission e plan in
    let e := set_baselines e (Rollback (e_baselines e) dirty) in
    let w := count_commit (set_engine w e h) true 0 in
    Some (finish w batch (mkCommitResult (e_revision e) (Some ErrCommit))).

(** The collection loop: submissions received before the timer fires ([limit]
    of them at most) join the batch until a target is reached. *)
Fixpoint collect (c : WriterConfig) (limit : nat) (count bytes : Z) (queue : list submission)
    : list submission * list submission :=
  match limit, queue with
  | S limit', s :: rest =>
      if (count <? MaxBatchDeltas c) && (bytes <? MaxBatchBytes c) then
        let '(b, q) := collect c limit' (count + sub_count s) (bytes + sub_bytes s) rest in
        (s :: b, q)
      else ([], queue)
  | _, _ => ([], queue)
  end.

(* internal/aggregate/writer.go:564-582 Writer.collectAndCommit *)
Definition collectAndCommit (commit_group : GroupBatch -> bool) (w : Writer) (limit : nat) (now now' : time)
    : option (Writer * list commitResult) :=
  match w_queue w with
  | [] => Some (w, [])
  | first :: rest =>
      let '(more, rest) := collect (w_cfg w) limit (sub_count first) (sub_bytes first) rest in
      commit commit_group (set_queue w rest) (first :: more) now now'
  end.

(** [drain]: the loop ends because every round consumes the head of the queue;
    the fuel is the queue's length. *)
Fixpoint drain_from (commit_group : GroupBatch -> bool) (fuel : nat) (limit : nat) (now : time) (w : Writer)
    : option Writer :=
  match fuel, w_queue w with
  | _, [] => Some w
  | O, _ => Some w
  | S fuel', _ => '(w', _) ← collectAndCommit commit_group w limit now now; drain_from commit_group fuel' limit now w'
  end.

(* internal/aggregate/writer.go:551-560 Writer.drain *)
Definition drain (commit_group : GroupBatch -> bool) (limit : nat) (now : time) (w : Writer) : option Writer :=
  drain_from commit_group (length (w_queue w)) limit now w.

(** What the topology folds for an Export after its commit: its own deltas, as
    the heap holds them then ([ApplyReducerErr]). *)
Definition topology_input (h : heap) (s : submission) : list (SeriesWindowKey * AggregateDelta) :=
  omap (fun entry => d ← h !! snd entry; Some (fst entry, d)) (sub_deltas s).

(** ** Finalization *)

(** One iteration of the loop: the store's transaction commits or fails. *)
Definition finalize_one (finalize_ok : Z -> bool) (acc : Writer * Z) (window : Z) : Writer * Z :=
  let '(w, done) := acc in
  if finalize_ok window
  then (count_finalize (set_engine w (MarkFinalized (w_engine w) window) (w_heap w)) false, done + 1)
  else (count_finalize w true, done).

(** [FinalizeDue] over the windows the store lists; [finalize_ok] says which
    [FinalizeWindow] transactions commit. *)
(* internal/aggregate/writer.go:704-728 Writer.FinalizeDue *)
Definition FinalizeDue (listed : option (list Z)) (finalize_ok : Z -> bool) (w : Writer) : Writer * Z :=
  match listed with
  | None => (count_finalize w true, 0)
  | Some windows => foldl (finalize_one finalize_ok) (w, 0) windows
  end.

(** ** Statistics *)

(* internal/aggregate/writer.go:428-457 Writer.Stats *)
Definition WriterStats_of (w : Writer) (rows : Z) (age : f64) (sampledAt : time) : WriterStats :=
  mkWriterStats (w_commits w) (w_commitErrors w) (w_deltas w) (w_rejections w)
    (w_pendingBytes w) (w_pendingDeltas w) (w_waiters w) (w_finalized w)
    (w_commitFailStreak w) (w_finalizeFailStreak w) (w_finalizeErrors w)
    (MaxPendingBytes (w_cfg w)) (MaxPendingDeltas (w_cfg w)) (MaxWaiters (w_cfg w)) rows age sampledAt.

(** [math.Max] on numbers that are not NaN or signed zeros. *)
Definition math_Max (x y : f64) : f64 := if fgt x y then x else y.

(* internal/aggregate/writer.go:191-203 WriterStats.AdmissionRatio *)
Definition AdmissionRatio (s : WriterStats) : f64 :=
  let use (limit current : Z) (r : f64) :=
    if 0 <? limit then math_Max r (fdiv (f_of_Z current) (f_of_Z limit)) else r in
  use (st_MaxWaiters s) (Waiters s)
    (use (st_MaxPendingDeltas s) (PendingDeltas s)
       (use (st_MaxPendingBytes s) (PendingBytes s) f_zero)).

(** [Duration.Seconds] *)
Definition d_Seconds (d : Z) : f64 :=
  fadd (f_of_Z (Z.quot d Second)) (fdiv (f_of_Z (Z.rem d Second)) (f_of_Z 1000000000)).

(* internal/aggregate/writer.go:212-223 WriterStats.DeltaLogAge *)
Definition DeltaLogAge (s : WriterStats) (now : time) : f64 :=
  if fle (DeltaLogAgeSeconds s) f_zero then f_zero
  else
    let age := DeltaLogAgeSeconds s in
    if negb (t_IsZero (BacklogSampledAt s)) then
      let elapsed := d_Seconds (t_Sub now (BacklogSampledAt s)) in
      if fgt elapsed f_zero then fadd age elapsed else age
    else age.

(** ** The admission budget *)

Definition sum_bytes (q : list submission) : Z := foldr (fun s acc => sub_bytes s + acc) 0 q.
Definition sum_count (q : list submission) : Z := foldr (fun s acc => sub_count s + acc) 0 q.

(** The pending counters are those of the submissions in flight, within the
    configured bounds. *)
Record admitted (w : Writer) : Prop := {
  ad_waiters : w_waiters w = Z.of_nat (length (w_queue w));
  ad_bytes : w_pendingBytes w = sum_bytes (w_queue w);
  ad_count : w_pendingDeltas w = sum_count (w_queue w);
  ad_pos : Forall (fun s => 0 <= sub_bytes s /\ 0 <= sub_count s) (w_queue w);
  ad_max_waiters : w_waiters w <= MaxWaiters (w_cfg w);
  ad_max_bytes : w_pendingBytes w <= MaxPendingBytes (w_cfg w);
  ad_max_count : w_pendingDeltas w <= MaxPendingDeltas (w_cfg w);
}.

Lemma sum_bytes_app q1 q2 : sum_bytes (q1 ++ q2) = sum_bytes q1 + sum_bytes q2.
Proof. induction q1 as [|s q1 IH]; [done|]. unfold sum_bytes in *. cbn [app foldr]. lia. Qed.

Lemma sum_count_app q1 q2 : sum_count (q1 ++ q2) = sum_count q1 + sum_count q2.
Proof. induction q1 as [|s q1 IH]; [done|]. unfold sum_count in *. cbn [app foldr]. lia. Qed.

Lemma sums_nonneg q : Forall (fun s => 0 <= sub_bytes s /\ 0 <= sub_count s) q -> 0 <= sum_bytes q /\ 0 <= sum_count q.
Proof. unfold sum_bytes, sum_count. induction 1; cbn [foldr]; lia. Qed.

Lemma estimate_nonneg h m n : estimateDeltaBytes h m = Some n -> 0 <= n.
Proof.
  unfold estimateDeltaBytes. assert (0 <= 0) as H0 by lia. revert H0. generalize 0 at 2 3 as a.
  induction m as [|[k p] m IH]; intros a Ha E; [by injection E as <-|].
  apply opt_foldl_cons in E as (a' & E1 & E). apply (IH a'); [|done]. cbn [snd] in E1.
  unfold deltaRowBytes in E1. destruct (h !! p) as [d|]; [|injection E1 as <-; lia].
  destruct (d_Sketch d) as [s|]; [|injection E1 as <-; lia].
  destruct (PopulatedBins s) as [b|] eqn:Eb; [|done]. cbn [mbind option_bind] in E1. injection E1 as <-.
  assert (0 <= b); [|unfold SketchMaxSerializedBins; lia].
  unfold PopulatedBins in Eb. destruct (negb _); [by injection Eb as <-|].
  destruct (window s) as [wd panic]. destruct panic; [done|]. injection Eb as <-. lia.
Qed.

Lemma finish_pending w batch res :
  let w' := fst (finish w batch res) in
  w_waiters w' = w_waiters w - Z.of_nat (length batch) /\ w_pendingBytes w' = w_pendingBytes w - sum_bytes batch /\
  w_pendingDeltas w' = w_pendingDeltas w - sum_count batch /\ w_cfg w' = w_cfg w /\ w_queue w' = w_queue w /\
  w_engine w' = w_engine w /\ w_heap w' = w_heap w.
Proof.
  unfold finish. cbn [fst]. revert w. induction batch as [|s batch IH]; intros w; cbv zeta.
  { cbn. split_and!; try done; lia. }
  destruct (IH (release w s)) as (H1 & H2 & H3 & H4 & H5 & H6 & H7). cbn [foldl].
  unfold sum_bytes, sum_count in *. cbn [foldr length]. cbn [release set_pending w_waiters w_pendingBytes w_pendingDeltas] in *.
  split_and!; (done || lia).
Qed.

Lemma finish_result w batch res w' rs :
  Some (finish w batch res) = Some (w', rs) ->
  w_waiters w' = w_waiters w - Z.of_nat (length batch) /\ w_pendingBytes w' = w_pendingBytes w - sum_bytes batch /\
  w_pendingDeltas w' = w_pendingDeltas w - sum_count batch /\ w_cfg w' = w_cfg w /\ w_queue w' = w_queue w /\
  w_engine w' = w_engine w /\ w_heap w' = w_heap w /\ rs = (fun _ => res) <$> batch.
Proof.
  intros E. pose proof (finish_pending w batch res) as HF. cbv zeta in HF. apply (inj Some) in E.
  assert (w' = fst (finish w batch res)) as -> by (by rewrite E).
  assert (rs = snd (finish w batch res)) as -> by (by rewrite E).
  destruct HF as (H1 & H2 & H3 & H4 & H5 & H6 & H7). by split_and!.
Qed.

(** What a commit leaves of the writer, whatever its outcome. *)
Lemma commit_frame cg w batch now now' w' rs :
  commit cg w batch now now' = Some (w', rs) ->
  w_waiters w' = w_waiters w - Z.of_nat (length batch) /\ w_pendingBytes w' = w_pendingBytes w - sum_bytes batch /\
  w_pendingDeltas w' = w_pendingDeltas w - sum_count batch /\ w_cfg w' = w_cfg w /\ w_queue w' = w_queue w /\
  length rs = length batch.
Proof.
  unfold commit. destruct (premerge _ _) as [[h merged]|]; [|done]. cbn [mbind option_bind].
  destruct (PlanAdmission _ _ _ _) as [[e plan]|]; [|done]. cbn [mbind option_bind].
  destruct (DrainDirty _) as [b dirty]. destruct (cg _).
  - destruct (CommitAdmission _ _) as [[e2 rev]|]; [|done]. cbn [mbind option_bind]. intros E.
    apply finish_result in E as (H1 & H2 & H3 & H4 & H5 & _ & _ & ->). split_and!; try done. by rewrite length_fmap.
  - intros E.
    apply finish_result in E as (H1 & H2 & H3 & H4 & H5 & _ & _ & ->). split_and!; try done. by rewrite length_fmap.
Qed.

Lemma collect_split c limit q : forall count bytes b r, collect c limit count bytes q = (b, r) -> q = b ++ r.
Proof.
  revert q. induction limit as [|limit IH]; intros q count bytes b r E; cbn [collect] in E.
  { by injection E as <- <-. }
  destruct q as [|s q]; [by injection E as <- <-|]. destruct (_ && _); [|by injection E as <- <-].
  destruct (collect _ _ _ _ _) as [b' r'] eqn:E'. injection E as <- <-. cbn [app]. f_equal. by eapply IH.
Qed.

Lemma commit_round cg w limit now now' w' rs :
  admitted w -> collectAndCommit cg w limit now now' = Some (w', rs) ->
  admitted w' /\ exists batch, w_queue w = batch ++ w_queue w' /\ length rs = length batch /\
    (w_queue w <> [] -> batch <> []).
Proof.
  intros HA E. unfold collectAndCommit in E. destruct (w_queue w) as [|first rest] eqn:Eq.
  { injection E as <- <-. split; [done|]. exists []. by rewrite Eq. }
  destruct (collect _ _ _ _ _) as [more rest'] eqn:Ec. apply collect_split in Ec. subst rest.
  apply commit_frame in E as (H1 & H2 & H3 & H4 & H5 & H6). cbn [set_queue w_waiters w_pendingBytes w_pendingDeltas w_cfg w_queue] in *.
  destruct HA as [A1 A2 A3 A4 A5 A6 A7]. rewrite Eq in *. change (first :: more ++ rest') with ((first :: more) ++ rest') in *.
  rewrite length_app, Nat2Z.inj_add in A1. rewrite sum_bytes_app in A2. rewrite sum_count_app in A3.
  apply Forall_app in A4 as [P1 P2]. destruct (sums_nonneg _ P1). split.
  - constructor; rewrite ?H4, ?H5; try done; lia.
  - exists (first :: more). by rewrite H5.
Qed.

(** The writer's runs: Exports submitting, commit rounds of any outcome,
    finalization passes, shutdown. *)
Inductive writer_step : Writer -> Writer -> Prop :=
| ws_submit w m stopped w' r : ApplyErr w m stopped = Some (w', r) -> writer_step w w'
| ws_alloc w d : writer_step w (set_engine w (w_engine w) (w_heap w ++ [d]))
| ws_commit cg w limit now now' w' rs : collectAndCommit cg w limit now now' = Some (w', rs) -> writer_step w w'
| ws_finalize listed finalize_ok w : writer_step w (fst (FinalizeDue listed finalize_ok w))
| ws_close w : writer_step w (close_writer w).

Inductive writer_run (cfg : WriterConfig) (e : Engine) : Writer -> Prop :=
| wr_new : writer_run cfg e (NewWriter cfg e)
| wr_step w w' : writer_run cfg e w -> writer_step w w' -> writer_run cfg e w'.

Lemma defaults_positive c :
  0 < MaxWaiters (writerDefaults c) /\ 0 < MaxPendingBytes (writerDefaults c) /\ 0 < MaxPendingDeltas (writerDefaults c).
Proof.
  unfold writerDefaults, or_positive. cbn [MaxWaiters MaxPendingBytes MaxPendingDeltas].
  unfold DefaultCommitMaxWaiters, DefaultCommitMaxPendingDeltas. change DefaultCommitMaxPendingBytes with 67108864. go_cases.
Qed.

Lemma submit_admitted w m stopped w' r : admitted w -> ApplyErr w m stopped = Some (w', r) -> admitted w'.
Proof.
  intros HA E. unfold ApplyErr in E. destruct (length m =? 0)%nat; [by injection E as <- _|].
  destruct (w_closed w); [by injection E as <- _|].
  destruct (estimateDeltaBytes _ _) as [b|] eqn:Eb; [|done]. cbn [mbind option_bind] in E. apply estimate_nonneg in Eb.
  set (s := mkSubmission m b (Z.of_nat (length m))) in *. unfold admitSubmission in E.
  destruct HA as [A1 A2 A3 A4 A5 A6 A7].
  destruct (MaxWaiters (w_cfg w) <=? w_waiters w) eqn:B1; [injection E as <- _; by constructor|].
  destruct (MaxPendingBytes (w_cfg w) <? _) eqn:B2; [injection E as <- _; by constructor|].
  destruct (MaxPendingDeltas (w_cfg w) <? _) eqn:B3; [injection E as <- _; by constructor|]. z_bool.
  assert (0 <= sub_bytes s /\ 0 <= sub_count s) as [Hb Hc] by (cbn; lia).
  clearbody s. destruct stopped; injection E as <- _.
  - constructor; cbn [release set_pending w_waiters w_pendingBytes w_pendingDeltas w_cfg w_queue]; (done || lia).
  - constructor; cbn [set_queue set_pending w_waiters w_pendingBytes w_pendingDeltas w_cfg w_queue];
      rewrite ?length_app, ?sum_bytes_app, ?sum_count_app; change (length [s]) with 1%nat;
      change (sum_bytes [s]) with (sub_bytes s + 0); change (sum_count [s]) with (sub_count s + 0); try lia.
    apply Forall_app. split; [done|]. by constructor.
Qed.

Lemma finalize_frame listed ok w :
  let w' := fst (FinalizeDue listed ok w) in
  w_cfg w' = w_cfg w /\ w_queue w' = w_queue w /\ w_waiters w' = w_waiters w /\
  w_pendingBytes w' = w_pendingBytes w /\ w_pendingDeltas w' = w_pendingDeltas w.
Proof.
  unfold FinalizeDue. destruct listed as [ws|]; [|done]. generalize 0 as n. revert w.
  induction ws as [|x ws IH]; intros w n; [done|]. cbn [foldl]. unfold finalize_one at 2 4 6 8 10. destruct (ok x).
  - destruct (IH (count_finalize (set_engine w (MarkFinalized (w_engine w) x) (w_heap w)) false) (n + 1)) as (H1 & H2 & H3 & H4 & H5).
    cbv zeta. by rewrite H1, H2, H3, H4, H5.
  - destruct (IH (count_finalize w true) n) as (H1 & H2 & H3 & H4 & H5). cbv zeta. by rewrite H1, H2, H3, H4, H5.
Qed.

Lemma run_admitted cfg e w : writer_run cfg e w -> admitted w /\ w_cfg w = writerDefaults cfg.
Proof.
  induction 1 as [|w w' _ [IH IHc] Hs].
  - destruct (defaults_positive cfg) as (? & ? & ?). split; [|done].
    constructor; cbn [NewWriter w_waiters w_pendingBytes w_pendingDeltas w_cfg w_queue]; try done; lia.
  - destruct Hs as [w m st w' r E|w d|cg w limit now now' w' rs E|listed ok w|w].
    + split; [by eapply submit_admitted|]. rewrite <- IHc. unfold ApplyErr in E. repeat case_match; simplify_eq; try done.
      all: destruct (estimateDeltaBytes _ _); [|done]; cbn [mbind option_bind] in E; unfold admitSubmission in E; repeat case_match; simplify_eq; done.
    + split; [|done]. by destruct IH; constructor.
    + split; [by eapply commit_round|]. rewrite <- IHc. unfold collectAndCommit in E. destruct (w_queue w); [by injection E as <- _|].
      destruct (collect _ _ _ _ _). by apply commit_frame in E as (_ & _ & _ & -> & _).
    + destruct (finalize_frame listed ok w) as (H1 & H2 & H3 & H4 & H5). split; [|by rewrite H1].
      destruct IH. constructor; rewrite ?H1, ?H2, ?H3, ?H4, ?H5; done.
    + split; [|done]. by destruct IH; constructor.
Qed.

Lemma drain_from_spec cg limit now fuel : forall w w',
  (length (w_queue w) <= fuel)%nat -> admitted w -> drain_from cg fuel limit now w = Some w' ->
  w_queue w' = [] /\ admitted w'.
Proof.
  induction fuel as [|fuel IH]; intros w w' Hf HA E; cbn [drain_from] in E.
  { destruct (w_queue w) as [|s q] eqn:Eq; [|simpl in Hf; lia]. injection E as <-. done. }
  destruct (w_queue w) as [|s q] eqn:Eq; [by injection E as <-|].
  destruct (collectAndCommit cg w limit now now) as [[w1 rs]|] eqn:E1; [|done]. cbn [mbind option_bind] in E.
  destruct (commit_round _ _ _ _ _ _ _ HA E1) as (HA1 & batch & Hq & _ & Hne).
  apply (IH w1); try done. specialize (Hne ltac:(by rewrite Eq)). rewrite Eq in Hq.
  apply (f_equal length) in Hq. rewrite length_app in Hq. destruct batch; [done|]. simpl in *. lia.
Qed.

(** The admission budget is exact: in every run of the writer the pending
    counters are the number, the bytes and the deltas of the submissions in
    flight and never exceed the configured bounds; a submission is refused
    exactly when it would break one of the three, the answer names the first
    bound broken and nothing is charged; and draining at shutdown answers every
    waiter and leaves all three counters at zero. *)
Theorem admission_exact (cfg : WriterConfig) (e : Engine) (w : Writer) (s : submission) :
  writer_run cfg e w ->
  admitted w /\
  (let '(w', err) := admitSubmission w s in
   let c := w_cfg w in
   let over_waiters := MaxWaiters c < w_waiters w + 1 in
   let over_bytes := MaxPendingBytes c < w_pendingBytes w + sub_bytes s in
   let over_deltas := MaxPendingDeltas c < w_pendingDeltas w + sub_count s in
   match err with
   | None => ~ over_waiters /\ ~ over_bytes /\ ~ over_deltas /\ release w' s = w
   | Some (ErrSaturated bound current limit) =>
       limit <= current /\ w_waiters w' = w_waiters w /\ w_pendingBytes w' = w_pendingBytes w /\
       w_pendingDeltas w' = w_pendingDeltas w /\ w_queue w' = w_queue w /\
       (bound = "waiters" /\ over_waiters \/ bound = "bytes" /\ ~ over_waiters /\ over_bytes \/
        bound = "deltas" /\ ~ over_waiters /\ ~ over_bytes /\ over_deltas)
   | Some _ => False
   end) /\
  (forall cg limit now w', drain cg limit now w = Some w' ->
     w_queue w' = [] /\ w_waiters w' = 0 /\ w_pendingBytes w' = 0 /\ w_pendingDeltas w' = 0).
Proof.
  intros H. destruct (run_admitted _ _ _ H) as [HA _]. split_and!; [done| |].
  - unfold admitSubmission. destruct (MaxWaiters (w_cfg w) <=? w_waiters w) eqn:B1; z_bool; [split_and!; try done; left; split; [done|lia]|].
    destruct (MaxPendingBytes (w_cfg w) <? _) eqn:B2; z_bool; [split_and!; try done; [lia|right; left; split_and!; (done || lia)]|].
    destruct (MaxPendingDeltas (w_cfg w) <? _) eqn:B3; z_bool; [split_and!; try done; [lia|right; right; split_and!; (done || lia)]|].
    split_and!; try lia. unfold release, set_pending. destruct w; cbn in *. f_equal; lia.
  - intros cg limit now w' E. destruct (drain_from_spec _ _ _ _ _ _ (le_n _) HA E) as [Hq [D1 D2 D3 _ _ _ _]].
    rewrite D1, D2, D3, Hq. done.
Qed.

Lemma admission_exact_witness :
  let w := NewWriter (mkWriterConfig 0 0 0 0 0 0 0) demo_engine in
  admitted w /\ snd (admitSubmission w (mkSubmission [] 96 1)) = None.
Proof.
  intros w. destruct (admission_exact (mkWriterConfig 0 0 0 0 0 0 0) demo_engine w (mkSubmission [] 96 1) (wr_new _ _)) as [H _].
  split; [exact H|reflexivity].
Defined.
