(* ===== verification/WriterCommit.v ===== *)
(** * WriterCommit: what one group commit does

    The outcome of [Writer.commit] on the engine and on the waiters, the
    conservation of counts from the submissions to the committed windows, and
    the behaviours the sharing of deltas and the second goroutine cause. *)
From S2P Require Import Prelude Float64 SeriesKey Sketch SketchCodec Delta Limiter Baseline Engine EngineTotals Writer.

Lemma set_baselines_ok e b pend :
  (engine_ok e -> engine_ok (set_baselines e b)) /\ (accounted e pend -> accounted (set_baselines e b) pend).
Proof. split; intros []; constructor; done. Qed.

Lemma plan_revision e m now now' e' p :
  PlanAdmission e m now now' = Some (e', p) -> e_revision e' = e_revision e /\ e_baselines e' = e_baselines e.
Proof.
  unfold PlanAdmission. destruct (length m =? 0)%nat; [by intros [= <- <-]|].
  destruct (opt_foldl _ _ _) as [[[l dis] plan]|]; [|done]. intros [= <- <-].
  cbn [add_discarded set_limiter e_revision e_baselines].
  unfold Rollover. destruct (foldl force_one _ _) as [[? ?] ?]. by destruct (0 <? _).
Qed.

Lemma commit_revision e p e' rev :
  CommitAdmission e p = Some (e', rev) -> rev = e_revision e' /\ e_baselines e' = e_baselines e /\
  e_revision e' = if (size (Resolved p) =? 0)%nat then e_revision e else u64 (e_revision e + 1).
Proof.
  unfold CommitAdmission. destruct (size (Resolved p) =? 0)%nat; [by intros [= <- <-]|].
  destruct (apply_shards _ _ _); [|done]. by intros [= <- <-].
Qed.

Lemma rollback_fields e p :
  e_revision (RollbackAdmission e p) = e_revision e /\ e_baselines (RollbackAdmission e p) = e_baselines e.
Proof. unfold RollbackAdmission. by destruct (_ =? 0)%nat. Qed.

(** C5: a group commit is all or nothing, for memory, for the cardinality
    budget and for the cumulative baselines: when the transaction commits,
    memory is the old memory merged with the planned batch, every waiter gets
    the new revision and the baselines are drained; when it fails, memory is
    exactly what the rollover left, nothing is charged beyond what memory holds,
    the drained baselines are rolled back, the revision has not moved and every
    waiter gets the error. *)
Theorem commit_atomic (cg : GroupBatch -> bool) (w w' : Writer) (batch : list submission) (now now' : time)
    (rs : list commitResult) :
  engine_ok (w_engine w) -> accounted (w_engine w) None ->
  commit cg w batch now now' = Some (w', rs) ->
  let e := w_engine w in
  let e' := w_engine w' in
  let '(drained, dirty) := DrainDirty (e_baselines e) in
  engine_ok e' /\ accounted e' None /\
  exists h merged e1 plan,
    premerge (w_heap w) batch = Some (h, merged) /\
    PlanAdmission e (map_to_list (deref h merged)) now now' = Some (e1, plan) /\
    if cg (mkGroupBatch (Resolved plan) dirty) then
      rs = (fun _ => mkCommitResult (e_revision e') None) <$> batch /\
      e_revision e' = (if (size (Resolved plan) =? 0)%nat then e_revision e else u64 (e_revision e + 1)) /\
      merge_memory (memory e1) (Resolved plan) (memory e') /\ e_baselines e' = drained
    else
      rs = (fun _ => mkCommitResult (e_revision e) (Some ErrCommit)) <$> batch /\ e_revision e' = e_revision e /\
      memory e' = memory e1 /\ e_baselines e' = Rollback drained dirty /\
      (forall k t, (k, t) ∈ l_present (e_limiter e') <-> is_Some (memory e' !! (k, t))).
Proof.
  intros Hok HA E. cbv zeta. unfold commit in E.
  destruct (premerge (w_heap w) batch) as [[h merged]|] eqn:EP; [|done]. cbn [mbind option_bind] in E.
  destruct (PlanAdmission _ _ now now') as [[e1 plan]|] eqn:EA; [|done]. cbn [mbind option_bind] in E.
  destruct (plan_keeps _ _ _ _ _ _ Hok EA) as (Hok1 & HA1 & _). destruct (HA1 HA) as [HA1' _].
  destruct (plan_revision _ _ _ _ _ _ EA) as [R1 B1]. rewrite B1 in E.
  destruct (DrainDirty (e_baselines (w_engine w))) as [drained dirty].
  destruct (set_baselines_ok e1 drained (Some plan)) as [Hok2 HA2]. specialize (Hok2 Hok1). specialize (HA2 HA1').
  destruct (cg (mkGroupBatch (Resolved plan) dirty)) eqn:Eg.
  - destruct (CommitAdmission _ _) as [[e2 rev]|] eqn:EC; [|done]. cbn [mbind option_bind] in E.
    apply finish_result in E as (_ & _ & _ & _ & _ & HE & _ & ->). rewrite HE. cbn [count_commit set_engine w_engine].
    destruct (commit_keeps _ _ _ _ Hok2 EC) as (Hok3 & HA3 & HG & _). destruct (commit_revision _ _ _ _ EC) as (-> & B2 & R2).
    split_and!; [done|by apply HA3|]. exists h, merged, e1, plan. split_and!; [done|done|]. rewrite Eg. split_and!.
    + done.
    + rewrite R2. cbn [set_baselines e_revision]. by rewrite R1.
    + intros [k t]. rewrite !memory_at by (by apply eo_shards). apply HG.
    + by rewrite B2.
  - apply finish_result in E as (_ & _ & _ & _ & _ & HE & _ & ->). rewrite HE. cbn [count_commit set_engine w_engine].
    destruct (rollback_keeps _ plan Hok2) as (Hok3 & HA3 & HG). specialize (HA3 HA2).
    destruct (rollback_fields (set_baselines e1 drained) plan) as [R2 B2].
    set (e3 := RollbackAdmission (set_baselines e1 drained) plan) in *.
    destruct (set_baselines_ok e3 (Rollback (e_baselines e3) dirty) None) as [Hok4 HA4]. specialize (Hok4 Hok3). specialize (HA4 HA3).
    split_and!; [done|done|]. exists h, merged, e1, plan. split_and!; [done|done|]. rewrite Eg. split_and!.
    + cbn [set_baselines e_revision]. rewrite R2. cbn [set_baselines e_revision]. by rewrite R1.
    + cbn [set_baselines e_revision]. rewrite R2. cbn [set_baselines e_revision]. by rewrite R1.
    + apply map_eq. intros [k t]. rewrite !memory_at by (by apply eo_shards). apply HG.
    + cbn [set_baselines e_baselines]. by rewrite B2.
    + intros k t. rewrite memory_at by (by apply eo_shards). rewrite (ac_present _ _ HA4).
      split; [intros [?|(? & ? & _)]; done|by left].
Qed.

(** ** From submissions to the merged batch *)

Section Premerge.
  (** An additive measure of a delta under its key. *)
  Variable f : SeriesWindowKey -> AggregateDelta -> Z.
  Hypothesis f_merge : forall key a b c, DeltaMerge a (Some b) = Some c -> eq64 (f key c) (f key a + f key b).

Definition entries_sum (h : heap) (l : PtrMap) : Z :=
  foldr (fun entry acc => from_option (f (fst entry)) 0 (h !! snd entry) + acc) 0 l.

Lemma entries_sum_ext h h' l : (forall p, p ∈ l.*2 -> h !! p = h' !! p) -> entries_sum h l = entries_sum h' l.
Proof.
  unfold entries_sum. induction l as [|[k p] l IH]; intros HE; [done|]. cbn [foldr fst snd].
  rewrite IH by (intros q Hq; apply HE; by right). by rewrite (HE p) by left.
Qed.

(** The merged map names live locations, each under one key. *)
Record merged_ok (h : heap) (merged : gmap SeriesWindowKey loc) : Prop := {
  mo_live : forall k p, merged !! k = Some p -> is_Some (h !! p);
  mo_inj : forall k1 k2 p, merged !! k1 = Some p -> merged !! k2 = Some p -> k1 = k2;
}.

Lemma deref_at h merged k : deref h merged !! k = merged !! k ≫= fun p => h !! p.
Proof. unfold deref. by rewrite lookup_omap. Qed.

Lemma deref_insert h merged k p d : h !! p = Some d -> deref h (<[k := p]> merged) = <[k := d]> (deref h merged).
Proof.
  intros Hp. apply map_eq. intros k'. rewrite deref_at, !lookup_insert. case_decide; [done|]. by rewrite deref_at.
Qed.

Lemma deref_update h merged k p d : merged_ok h merged -> merged !! k = Some p ->
  deref (<[p := d]> h) merged = <[k := d]> (deref h merged).
Proof.
  intros [H1 H2] Hk. apply map_eq. intros k'. rewrite deref_at, lookup_insert. destruct (H1 _ _ Hk) as [x Hx].
  assert (p < length h)%nat as Hlt by (by eapply lookup_lt_Some). case_decide as D.
  - subst k'. rewrite Hk. cbn. by rewrite list_lookup_insert_eq.
  - rewrite deref_at. destruct (merged !! k') as [p'|] eqn:E; [|done]. cbn.
    rewrite list_lookup_insert_ne; [done|]. intros <-. apply D. by eapply H2.
Qed.

Lemma premerge_sum l : forall h merged h' merged',
  opt_foldl premerge_one (h, merged) l = Some (h', merged') -> merged_ok h merged ->
  NoDup l.*2 -> (forall p, p ∈ l.*2 -> is_Some (h !! p) /\ forall k, merged !! k <> Some p) ->
  merged_ok h' merged' /\
  eq64 (map_sum f (deref h' merged')) (map_sum f (deref h merged) + entries_sum h l).
Proof.
  induction l as [|[swk p] l IH]; intros h merged h' merged' E Hok Hnd Hf.
  { injection E as <- <-. split; [done|]. cbn. by rewrite Z.add_0_r. }
  apply opt_foldl_cons in E as ([h1 merged1] & E1 & E). rewrite fmap_cons in Hnd. apply NoDup_cons in Hnd as [Hn Hnd].
  cbn [snd] in Hn. destruct (Hf p) as [[d Hd] Hp]; [by left|].
  assert (forall p', p' ∈ l.*2 -> p' <> p) as Hne by (intros p' Hp' ->; done).
  unfold premerge_one in E1. destruct (merged !! swk) as [cur|] eqn:Em.
  - destruct (mo_live _ _ Hok _ _ Em) as [c Hc]. rewrite Hc, Hd in E1. cbn [mbind option_bind] in E1.
    destruct (DeltaMerge c (Some d)) as [c'|] eqn:Ec; [|done]. injection E1 as <- <-.
    assert (cur < length h)%nat as Hlt by (by eapply lookup_lt_Some).
    assert (merged_ok (<[cur := c']> h) merged) as Hok1.
    { destruct Hok as [H1 H2]. split; [|done]. intros k q Hq. apply lookup_lt_is_Some_2. rewrite length_insert.
      apply lookup_lt_is_Some_1. by eapply H1. }
    assert (forall p', p' ∈ l.*2 -> (<[cur := c']> h) !! p' = h !! p') as Hsame.
    { intros p' Hp'. rewrite list_lookup_insert_ne; [done|]. intros <-. destruct (Hf cur) as [_ Hc']; [by right|].
      by apply (Hc' swk). }
    destruct (IH _ _ _ _ E Hok1 Hnd) as [Hok' HS].
    { intros p' Hp'. rewrite Hsame by done. apply Hf. by right. }
    split; [done|]. rewrite HS, (deref_update _ _ _ _ _ Hok Em), map_sum_set, deref_at, Em. cbn [mbind option_bind].
    rewrite Hc. cbn [from_option]. rewrite (f_merge swk _ _ _ Ec), (entries_sum_ext _ h l) by done.
    apply eq_subrelation; [apply _|]. unfold entries_sum. cbn [foldr fst snd]. rewrite Hd. cbn [from_option]. lia.
  - injection E1 as <- <-. assert (merged_ok h (<[swk := p]> merged)) as Hok1.
    { destruct Hok as [H1 H2]. split.
      - intros k q. rewrite lookup_insert. case_decide; [intros [= <-]; by eexists|apply H1].
      - intros k1 k2 q. rewrite !lookup_insert. repeat case_decide; try congruence; intros; simplify_eq;
          (by eapply H2) || (exfalso; by eapply Hp). }
    destruct (IH _ _ _ _ E Hok1 Hnd) as [Hok' HS].
    { intros p' Hp'. destruct (Hf p') as [? Hp'']; [by right|]. split; [done|]. intros k. rewrite lookup_insert.
      case_decide; [|apply Hp'']. intros [= <-]. by apply (Hne p). }
    split; [done|]. rewrite HS, (deref_insert _ _ _ _ _ Hd), map_sum_set, deref_at, Em. cbn [mbind option_bind from_option].
    apply eq_subrelation; [apply _|]. unfold entries_sum. cbn [foldr fst snd]. rewrite Hd. cbn [from_option]. lia.
Qed.

End Premerge.

(** The contribution of a delta whose window is still open. *)
Definition open_weight (g : AggregateDelta -> Z) (s cutoff : Z) (key : SeriesWindowKey) (d : AggregateDelta) : Z :=
  if snd key <=? cutoff then 0 else weight_at g s key d.

Lemma open_weight_merge g s cutoff :
  (forall a b c, DeltaMerge a (Some b) = Some c -> eq64 (g c) (g a + g b)) ->
  forall key a b c, DeltaMerge a (Some b) = Some c ->
  eq64 (open_weight g s cutoff key c) (open_weight g s cutoff key a + open_weight g s cutoff key b).
Proof. intros Hg key a b c E. unfold open_weight. destruct (_ <=? _); [done|]. by apply weight_merge. Qed.

Lemma batch_sum_map (g : AggregateDelta -> Z) (s cutoff : Z) (m : gmap SeriesWindowKey AggregateDelta) :
  batch_sum g s cutoff (map_to_list m) = map_sum (open_weight g s cutoff) m.
Proof.
  unfold map_sum, batch_sum. rewrite map_fold_foldr. induction (map_to_list m) as [|[key d] l IH]; [done|].
  cbn [foldr uncurry]. rewrite IH. done.
Qed.

Lemma commit_sum g s w batch now now' h merged e1 plan e' rev :
  (forall a b c, DeltaMerge a (Some b) = Some c -> eq64 (g c) (g a + g b)) -> g zero_delta = 0 ->
  engine_ok (w_engine w) ->
  premerge (w_heap w) batch = Some (h, merged) ->
  PlanAdmission (w_engine w) (map_to_list (deref h merged)) now now' = Some (e1, plan) ->
  CommitAdmission e1 plan = Some (e', rev) ->
  NoDup (mjoin (sub_deltas <$> batch)).*2 ->
  (forall p, p ∈ (mjoin (sub_deltas <$> batch)).*2 -> is_Some (w_heap w !! p)) ->
  eq64 (map_sum (weight_at g s) (memory e'))
    (map_sum (weight_at g s) (memory e1) +
     entries_sum (open_weight g s (FinalizeCutoff now')) (w_heap w) (mjoin (sub_deltas <$> batch))).
Proof.
  intros Hg Hz Hok EP EA EC Hnd Hlive.
  destruct (plan_keeps _ _ _ _ _ _ Hok EA) as (Hok1 & _ & _).
  destruct (commit_keeps _ _ _ _ Hok1 EC) as (Hok2 & _ & HG & HS).
  rewrite (merge_memory_sum g Hg s (Resolved plan) (memory e1)).
  2: { intros [k t]. rewrite !memory_at by (by apply eo_shards). apply HG. }
  2: { intros [k t] Hr. rewrite memory_at by (by apply eo_shards). apply HS. by right. }
  unfold premerge in EP.
  destruct (premerge_sum (open_weight g s (FinalizeCutoff now')) (open_weight_merge _ _ _ Hg) _ _ _ _ _ EP) as [_ HP].
  { split; [by intros k p ?|by intros k1 k2 p ?]. }
  { done. }
  { intros p Hp. split; [by apply Hlive|done]. }
  assert (deref (w_heap w) (∅ : gmap SeriesWindowKey loc) = ∅) as HD by (apply map_eq; intros k; by rewrite deref_at).
  rewrite HD, map_sum_empty, Z.add_0_l in HP. rewrite <- HP, <- batch_sum_map.
  assert (eq64 (map_sum (weight_at g s) (Resolved plan)) (batch_sum g s (FinalizeCutoff now') (map_to_list (deref h merged)))) as ->; [|done].
  unfold PlanAdmission in EA. destruct (length _ =? 0)%nat eqn:El.
  { apply Nat.eqb_eq, length_zero_iff_nil in El. rewrite El. injection EA as <- <-. done. }
  destruct (opt_foldl (plan_one _) _ _) as [[[l dis] plan']|] eqn:EL; [|done]. injection EA as _ <-.
  rewrite (plan_sum g Hg Hz s _ _ _ _ _ _ _ _ EL). cbn [Resolved]. by rewrite map_sum_empty, Z.add_0_l.
Qed.

Lemma commit_baselines e b p e' rev :
  CommitAdmission (set_baselines e b) p = Some (e', rev) ->
  exists e2, CommitAdmission e p = Some (e2, rev) /\ e' = set_baselines e2 b.
Proof.
  unfold CommitAdmission. destruct (size (Resolved p) =? 0)%nat; [intros [= <- <-]; eauto|].
  cbn [set_baselines e_shards]. destruct (apply_shards _ _ _); [|done]. cbn [mbind option_bind]. intros [= <- <-].
  eexists. split; [done|]. done.
Qed.

(** C6: every acknowledged point is counted exactly once: when Exports whose
    deltas are distinct objects are acknowledged by one commit, the engine's
    totals of every signal grow from what planning left by exactly the sum of
    the submitted deltas of windows still open, however the pre-merge collapsed
    and the caps rerouted them. *)
Theorem acknowledged_once (cg : GroupBatch -> bool) (w w' : Writer) (batch : list submission) (now now' : time)
    (rs : list commitResult) (s : Z) :
  engine_ok (w_engine w) -> commit cg w batch now now' = Some (w', rs) -> (exists r, r ∈ rs /\ cr_err r = None) ->
  NoDup (mjoin (sub_deltas <$> batch)).*2 ->
  (forall p, p ∈ (mjoin (sub_deltas <$> batch)).*2 -> is_Some (w_heap w !! p)) ->
  exists h merged e1 plan,
    premerge (w_heap w) batch = Some (h, merged) /\
    PlanAdmission (w_engine w) (map_to_list (deref h merged)) now now' = Some (e1, plan) /\
    let '(c, x) := Totals (Snapshot (w_engine w')) s in
    let '(c1, x1) := Totals (Snapshot e1) s in
    let sum g := entries_sum (open_weight g s (FinalizeCutoff now')) (w_heap w) (mjoin (sub_deltas <$> batch)) in
    c = u64 (c1 + sum (fun d => d_Count (d_counts d))) /\ x = u64 (x1 + sum (fun d => d_ErrorCount (d_counts d))).
Proof.
  intros Hok E (r & Hr & Herr) Hnd Hlive. unfold commit in E.
  destruct (premerge (w_heap w) batch) as [[h merged]|] eqn:EP; [|done]. cbn [mbind option_bind] in E.
  destruct (PlanAdmission _ _ now now') as [[e1 plan]|] eqn:EA; [|done]. cbn [mbind option_bind] in E.
  exists h, merged, e1, plan. split_and!; [done|done|].
  destruct (DrainDirty (e_baselines e1)) as [drained dirty]. destruct (cg _).
  2: { apply finish_result in E as (_ & _ & _ & _ & _ & _ & _ & ->).
       apply list_elem_of_fmap in Hr as (? & -> & _). done. }
  destruct (CommitAdmission _ _) as [[e2 rev]|] eqn:EC; [|done]. cbn [mbind option_bind] in E.
  apply finish_result in E as (_ & _ & _ & _ & _ & HE & _ & _). rewrite HE. cbn [count_commit set_engine w_engine].
  destruct (commit_baselines _ _ _ _ _ EC) as (e3 & EC3 & ->).
  assert (memory (set_baselines e3 drained) = memory e3) as HM by done. rewrite !Totals_memory, HM.
  pose proof (commit_sum _ s w batch now now' h merged e1 plan e3 rev count_merge eq_refl Hok EP EA EC3 Hnd Hlive) as H1.
  pose proof (commit_sum _ s w batch now now' h merged e1 plan e3 rev error_merge eq_refl Hok EP EA EC3 Hnd Hlive) as H2.
  unfold eq64 in H1, H2. cbv zeta. rewrite H1, H2, !wrapu_add_l. done.
Qed.

(** ** Two Exports with a point of the same series and window *)

Definition demo_key_600 : SeriesWindowKey := (demo_key 7 1, 600).
Definition demo_log_600 : AggregateDelta := logs_delta [(t_of_unix 600, false)].
Definition demo_exports : list submission :=
  [mkSubmission [(demo_key_600, 0%nat)] 96 1; mkSubmission [(demo_key_600, 1%nat)] 96 1].
Definition demo_writer : Writer :=
  set_engine (NewWriter (mkWriterConfig 0 0 0 0 0 0 0) demo_engine) demo_engine [demo_log_600; demo_log_600].
Definition demo_result : Writer * list commitResult :=
  default (demo_writer, []) (commit (fun _ => true) demo_writer demo_exports demo_now demo_now).

Lemma demo_commit : commit (fun _ => true) demo_writer demo_exports demo_now demo_now = Some (fst demo_result, snd demo_result).
Proof. rewrite <- surjective_pairing. apply default_holds. vm_compute. reflexivity. Qed.

Lemma demo_results : snd demo_result = [mkCommitResult 1 None; mkCommitResult 1 None].
Proof. vm_compute. reflexivity. Qed.

Lemma commit_atomic_witness :
  engine_ok (w_engine (fst demo_result)) /\ accounted (w_engine (fst demo_result)) None.
Proof.
  pose proof (commit_atomic (fun _ => true) demo_writer (fst demo_result) demo_exports demo_now demo_now (snd demo_result)
    demo_engine_ok (proj2 (new_engine_ok _ _ _ demo_engine_new)) demo_commit) as H.
  cbv zeta in H. destruct (DrainDirty _). destruct H as (H1 & H2 & _). split; [exact H1|exact H2].
Defined.

Lemma demo_locations :
  NoDup (mjoin (sub_deltas <$> demo_exports)).*2 /\
  forall p, p ∈ (mjoin (sub_deltas <$> demo_exports)).*2 -> is_Some (w_heap demo_writer !! p).
Proof.
  split; [apply (bool_decide_unpack _); vm_compute; exact I|]. change ((mjoin (sub_deltas <$> demo_exports)).*2) with [0%nat; 1%nat].
  intros p. rewrite !elem_of_cons, elem_of_nil. intros [->|[->|[]]]; by eexists.
Qed.

Lemma acknowledged_once_witness : fst (Totals (Snapshot (w_engine (fst demo_result))) SignalTraceOp) = 2.
Proof.
  destruct (acknowledged_once (fun _ => true) demo_writer (fst demo_result) demo_exports demo_now demo_now (snd demo_result)
    SignalTraceOp demo_engine_ok demo_commit) as (h & merged & e1 & plan & EP & EA & H).
  - rewrite demo_results. exists (mkCommitResult 1 None). split; [by left|reflexivity].
  - exact (proj1 demo_locations).
  - exact (proj2 demo_locations).
  - pose proof (f_equal (fun o => match o with Some (e, _) => fst (Totals (Snapshot e) SignalTraceOp) | None => 1 end) EA) as H0.
    cbv beta iota in H0. assert (premerge (w_heap demo_writer) demo_exports =
      Some (default ([], ∅) (premerge (w_heap demo_writer) demo_exports))) as EP' by (apply default_holds; vm_compute; reflexivity).
    assert ((h, merged) = default ([], ∅) (premerge (w_heap demo_writer) demo_exports)) as EQ
      by (apply (inj Some); etrans; [symmetry; exact EP|exact EP']). clear EP'. rename EQ into EP'.
    assert (h = fst (default ([], ∅) (premerge (w_heap demo_writer) demo_exports))) as Eh by (by rewrite <- EP').
    assert (merged = snd (default ([], ∅) (premerge (w_heap demo_writer) demo_exports))) as Em by (by rewrite <- EP').
    rewrite Eh, Em in H0. destruct (Totals (Snapshot e1) SignalTraceOp) as [c1 x1]. cbn [fst] in H0.
    destruct (Totals (Snapshot (w_engine (fst demo_result))) SignalTraceOp) as [c x]. destruct H as [-> _].
    rewrite <- H0. vm_compute. reflexivity.
Defined.

Definition count_input (l : list (SeriesWindowKey * AggregateDelta)) : Z :=
  list_sum (fun p => d_Count (d_counts (snd p))) l.

(** Finding: the pre-merge merges into the first submission's own delta, which
    that Export's reducer still holds: after two Exports of one point each for
    the same series and window, the engine counts two points, but the topology,
    which every Export feeds with its own deltas after the commit, is handed
    three. *)
Theorem premerge_double_counts_topology :
  exists w batch w' rs,
    engine_ok (w_engine w) /\ NoDup (mjoin (sub_deltas <$> batch)).*2 /\
    commit (fun _ => true) w batch demo_now demo_now = Some (w', rs) /\ Forall (fun r => cr_err r = None) rs /\
    count_input (mjoin (topology_input (w_heap w) <$> batch)) = 2 /\
    fst (Totals (Snapshot (w_engine w')) SignalTraceOp) = 2 /\
    count_input (mjoin (topology_input (w_heap w') <$> batch)) = 3.
Proof.
  exists demo_writer, demo_exports, (fst demo_result), (snd demo_result).
  split_and!; [exact demo_engine_ok|exact (proj1 demo_locations)|exact demo_commit| | | |].
  - rewrite demo_results. by repeat constructor.
  - vm_compute. reflexivity.
  - vm_compute. reflexivity.
  - vm_compute. reflexivity.
Qed.

(** ** Finalization *)

(** Finding: when finalizing one window fails and a later one succeeds, the later
    one disappears from every query that starts at or before the first: memory
    has handed it over, and the range left to the store ends at the oldest window
    memory still owns.  The mutable set is not a contiguous suffix. *)
Theorem finalized_window_vanishes :
  exists e w',
    engine_run true demo_other demo_engine_cfg (e, None) /\
    w' = fst (FinalizeDue (Some [300; 600]) (fun window => negb (window =? 300))
                (set_engine (NewWriter (mkWriterConfig 0 0 0 0 0 0 0) e) e [])) /\
    (exists k, is_Some (stored e k 600)) /\ own_watermark (e_own (w_engine w')) = 600 /\
    (forall k, stored (w_engine w') k 600 = None) /\
    match planStore (fun _ => Some 1) (w_engine w') "t" (t_of_unix 300) (t_of_unix 1200) SignalUnspecified true with
    | Ok (_, visits, range) => range = None /\ (fun v => fst (fst v)) <$> visits = [300]
    | Err _ => False
    end.
Proof.
  exists demo_applied. eexists. split; [exact (demo_run true)|]. split; [reflexivity|]. split_and!.
  - apply (eo_mutable _ demo_applied_ok). apply (bool_decide_unpack _). vm_compute. exact I.
  - vm_compute. reflexivity.
  - intros k. cbn [FinalizeDue foldl]. change (negb (300 =? 300)) with false. change (negb (600 =? 300)) with true. cbv iota.
    cbn [fst count_finalize set_engine w_engine].
    destruct (finalized_keeps demo_applied 600 None demo_applied_ok) as (_ & HG & _). rewrite HG. by rewrite decide_True.
  - vm_compute. split; reflexivity.
Qed.

Definition demo_late : DeltaMap := [demo_point 9 300].
Definition demo_late_plan : Engine * AdmissionPlan :=
  default (demo_engine, mkPlan ∅ []) (PlanAdmission demo_applied demo_late (t_of_unix 1100) (t_of_unix 1100)).
Definition demo_late_commit : Engine * Z :=
  default (demo_engine, 0) (CommitAdmission (MarkFinalized (fst demo_late_plan) 300) (snd demo_late_plan)).

(** Finding: a window finalized between the plan and the commit of a batch is
    owned twice: the commit puts the batch's delta back into memory, which then
    answers alone for a window whose other points are in the store. *)
Theorem late_commit_resurrects :
  exists e k, engine_run false demo_other demo_engine_cfg (e, None) /\
    300 <= own_watermark (e_own e) /\ OwnsInMemory (ownershipLocked e) 300 = true /\
    is_Some (stored demo_applied k 300) /\ stored e k 300 = None.
Proof.
  exists (fst demo_late_commit), (demo_key 7 1). split_and!.
  - apply (run_step _ _ _ (MarkFinalized (fst demo_late_plan) 300, Some (snd demo_late_plan))).
    2: { apply (step_commit _ _ _ _ (snd demo_late_commit)). rewrite <- surjective_pairing. apply default_holds.
         vm_compute. reflexivity. }
    apply (run_step _ _ _ (fst demo_late_plan, Some (snd demo_late_plan))).
    2: { apply (step_finalize _ (fst demo_late_plan) (Some (snd demo_late_plan)) 300). intros H. discriminate H. }
    apply (run_step _ _ _ (demo_applied, None)); [exact (demo_run false)|].
    apply (step_plan _ _ demo_late (t_of_unix 1100) (t_of_unix 1100)).
    rewrite <- surjective_pairing. apply default_holds. vm_compute. reflexivity.
  - vm_compute. discriminate.
  - vm_compute. reflexivity.
  - vm_compute. eauto.
  - vm_compute. reflexivity.
Qed.

Lemma drop_windows_app a b mem : drop_windows b (drop_windows a mem) = drop_windows (a ++ b) mem.
Proof.
  apply map_eq. intros [k w]. rewrite !drop_windows_at.
  destruct (decide (w ∈ b)), (decide (w ∈ a)), (decide (w ∈ a ++ b)); set_solver.
Qed.

Lemma filter_cons_bool (ok : Z -> bool) x ws :
  filter (fun y => ok y = true) (x :: ws) = (if ok x then [x] else []) ++ filter (fun y => ok y = true) ws.
Proof. rewrite filter_cons. destruct (ok x); case_decide; done. Qed.

Lemma finalize_loop ok ws : forall w n,
  engine_ok (w_engine w) ->
  let '(w', n') := foldl (finalize_one ok) (w, n) ws in
  let good := filter (fun x => ok x = true) ws in
  n' = n + Z.of_nat (length good) /\ engine_ok (w_engine w') /\
  memory (w_engine w') = drop_windows good (memory (w_engine w)) /\
  (forall x, x ∈ good -> x <= own_watermark (e_own (w_engine w'))) /\
  own_watermark (e_own (w_engine w)) <= own_watermark (e_own (w_engine w')) /\
  u64 (w_finalizeErrors w') = u64 (w_finalizeErrors w + Z.of_nat (length ws) - Z.of_nat (length good)).
Proof.
  induction ws as [|x ws IH]; intros w n Hok; cbn [foldl].
  { cbv zeta. rewrite filter_nil. cbn [length]. split_and!; try done; try lia; [by rewrite drop_windows_nil|by intros x ?%not_elem_of_nil|]. f_equal. lia. }
  unfold finalize_one at 2. destruct (ok x) eqn:Ex.
  - set (w1 := count_finalize (set_engine w (MarkFinalized (w_engine w) x) (w_heap w)) false).
    destruct (finalized_keeps (w_engine w) x None Hok) as (Hok1 & HG & _).
    specialize (IH w1 (n + 1) Hok1). destruct (foldl _ (w1, n + 1) ws) as [w' n'].
    cbv zeta in *. rewrite filter_cons_bool, Ex. destruct IH as (I1 & I2 & I3 & I4 & I5 & I6).
    assert (memory (w_engine w1) = drop_windows [x] (memory (w_engine w))) as HM.
    { apply memory_drop; [done|done|]. intros k t. change (stored (w_engine w1) k t) with (stored (MarkFinalized (w_engine w) x) k t).
      rewrite HG. destruct (decide (t = x)) as [->|]; [by rewrite decide_True by set_solver|by rewrite decide_False by set_solver]. }
    assert (own_watermark (e_own (w_engine w)) <= own_watermark (e_own (w_engine w1)) /\ x <= own_watermark (e_own (w_engine w1))) as [W1 W2].
    { cbn [w1 count_finalize set_engine w_engine]. unfold MarkFinalized. destruct (evictWindowLocked _ _) as [sh rel].
      destruct (0 <? length rel)%nat; cbn [add_discarded set_limiter set_memory e_own hand_over own_watermark];
        destruct (_ <? x) eqn:El; z_bool; lia. }
    split_and!; try done.
    + rewrite I1, length_app. cbn [length]. lia.
    + by rewrite I3, HM, drop_windows_app.
    + intros y [->%list_elem_of_singleton|Hy]%elem_of_app; [lia|by apply I4].
    + lia.
    + rewrite I6, length_app. cbn [length w1 count_finalize set_engine w_finalizeErrors]. f_equal. lia.
  - set (w1 := count_finalize w true). specialize (IH w1 n Hok). destruct (foldl _ (w1, n) ws) as [w' n'].
    cbv zeta in *. rewrite filter_cons_bool, Ex. cbn [app]. destruct IH as (I1 & I2 & I3 & I4 & I5 & I6).
    split_and!; try done. rewrite I6. cbn [length w1 count_finalize w_finalizeErrors].
    rewrite <- Z.add_sub_assoc, wrapu_add_l. f_equal. lia.
Qed.

(** The fields of the writer that a finalization has no part in. *)
Definition no_finalize (w : Writer) :=
  (w_cfg w, w_heap w, w_queue w, w_closed w, (w_pendingBytes w, w_pendingDeltas w, w_waiters w),
   (w_commits w, w_commitErrors w, w_deltas w, w_rejections w, w_commitFailStreak w)).

Lemma finalize_loop_frame ok ws : forall w n,
  let '(w', _) := foldl (finalize_one ok) (w, n) ws in
  no_finalize w' = no_finalize w /\
  u64 (w_finalized w') = u64 (w_finalized w + Z.of_nat (length (filter (fun x => ok x = true) ws))).
Proof.
  induction ws as [|x ws IH]; intros w n; [cbn; by rewrite Z.add_0_r|]. cbn [foldl]. rewrite filter_cons_bool. unfold finalize_one at 2. destruct (ok x).
  - specialize (IH (count_finalize (set_engine w (MarkFinalized (w_engine w) x) (w_heap w)) false) (n + 1)). destruct (foldl _ _ ws) as [w' n'].
    destruct IH as [-> ->]. split; [done|]. cbn [count_finalize set_engine w_finalized app length]. rewrite wrapu_add_l. f_equal. lia.
  - specialize (IH (count_finalize w true) n). destruct (foldl _ _ ws) as [w' n']. destruct IH as [-> ->]. by split.
Qed.

(** C36: a finalization pass hands over exactly the windows whose store
    transaction committed: their contents leave memory, the watermark covers
    them and they are counted; a window whose transaction failed keeps its
    contents and is counted as an error; the queue, what is pending and the
    commit counters are as they were; and a failed listing changes nothing but
    the error counter and the failure streak. *)
Theorem FinalizeDue_spec (listed : option (list Z)) (finalize_ok : Z -> bool) (w : Writer) :
  engine_ok (w_engine w) ->
  let '(w', n) := FinalizeDue listed finalize_ok w in
  no_finalize w' = no_finalize w /\
  match listed with
  | None => n = 0 /\ w_engine w' = w_engine w /\ w_finalized w' = w_finalized w /\
      w_finalizeErrors w' = u64 (w_finalizeErrors w + 1) /\ w_finalizeFailStreak w' = u64 (w_finalizeFailStreak w + 1)
  | Some windows =>
      let good := filter (fun x => finalize_ok x = true) windows in
      n = Z.of_nat (length good) /\ engine_ok (w_engine w') /\
      memory (w_engine w') = drop_windows good (memory (w_engine w)) /\
      (forall x, x ∈ good -> x <= own_watermark (e_own (w_engine w'))) /\
      u64 (w_finalized w') = u64 (w_finalized w + Z.of_nat (length good)) /\
      u64 (w_finalizeErrors w') = u64 (w_finalizeErrors w + Z.of_nat (length windows) - Z.of_nat (length good))
  end.
Proof.
  intros Hok. unfold FinalizeDue. destruct listed as [ws|]; [|done].
  pose proof (finalize_loop finalize_ok ws w 0 Hok) as H. pose proof (finalize_loop_frame finalize_ok ws w 0) as HF. destruct (foldl _ (w, 0) ws) as [w' n].
  cbv zeta in *. destruct H as (H1 & H2 & H3 & H4 & _ & H6). destruct HF as [F1 F2]. by split_and!.
Qed.

Lemma FinalizeDue_spec_witness :
  snd (FinalizeDue (Some [300; 600]) (fun _ => true) (set_engine demo_writer demo_applied [])) = 2.
Proof.
  pose proof (FinalizeDue_spec (Some [300; 600]) (fun _ => true) (set_engine demo_writer demo_applied []) demo_applied_ok) as H.
  destruct (FinalizeDue _ _ _) as [w' n]. destruct H as (_ & -> & _). reflexivity.
Defined.
