(* ===== verification/StoreRows.v ===== *)
(** * StoreRows: the rows of the aggregate store ([internal/aggregate/store_sqlite.go])

    A delta, a series key and a baseline become lists of bound values, and the
    columns read back become Go values.  SQLite is a parameter: what a REAL
    column keeps of a float64 ([Sqlite]); the columns of a delta are declared
    NOT NULL but for the sketch. *)
From S2P Require Import Prelude Float64 SeriesKey Sketch Varint SketchCodec Histogram Delta Baseline.

(** ** Values bound to a statement *)

Inductive sql_value := VNull | VInt (z : Z) | VReal (x : f64) | VBlob (b : bytes).
Abbreviation sql_row := (list sql_value) (only parsing).

(** A float64 every column keeps as it is: not a NaN and not a negative zero. *)
Definition plain (x : f64) : bool :=
  match x with S754_nan | S754_zero true => false | _ => true end.

(** What a REAL column keeps of a bound float64: SQLite stores a NaN as NULL,
    and the sign of a negative zero need not survive. *)
Class Sqlite := {
  real_column : f64 -> option f64;
  real_column_nan x : f_is_nan x = true -> real_column x = None;
  real_column_keeps x : plain x = true -> real_column x = Some x;
}.

#[refine] Instance SqliteFile : Sqlite := {|
  real_column x := if f_is_nan x then None else if feq x f_zero then Some f_zero else Some x
|}.
Proof. - by intros x ->. - by intros [[]|[]| |[] m e]. Defined.

Inductive store_error :=
| ErrDriver                       (** the driver answered an error *)
| ErrConstraint                   (** a NOT NULL, UNIQUE or PRIMARY KEY constraint *)
| ErrScan                         (** a column of another type *)
| ErrDecode (e : codec_error)     (** decode sketch *)
| ErrCopied                       (** copied other than validated *)
| ErrSelectorUnbounded
| ErrWatermark
| ErrRollupInvalidated            (** a rollup whose source or token changed *)
| ErrVersion                      (** derived tables of another version *)
| ErrSummaryInput.                (** a source a service summary refuses *)

(** Go code on a transaction returns a value or an error, or panics. *)
Abbreviation exec A := (option (result store_error A)).

Definition ebind {A B} (m : exec A) (k : A -> exec B) : exec B :=
  match m with
  | Some (Ok a) => k a
  | Some (Err e) => Some (Err e)
  | None => None
  end.

Notation "'let!' x := m 'in' k" := (ebind m (fun x => k))
  (at level 10, x pattern, m at level 100, k at level 200) : go_scope.

Definition fine {A} (a : A) : exec A := Some (Ok a).
Definition oops {A} (e : store_error) : exec A := Some (Err e).

(** A loop whose body may fail. *)
Definition exec_foldl {S A} (f : S -> A -> exec S) (s : S) (l : list A) : exec S :=
  foldl (fun acc x => ebind acc (fun s => f s x)) (fine s) l.

Lemma ebind_Ok {A B} (m : exec A) (k : A -> exec B) b :
  ebind m k = fine b <-> exists a, m = fine a /\ k a = fine b.
Proof. unfold fine. destruct m as [[a|e]|]; cbn; naive_solver. Qed.

Lemma exec_foldl_stuck {S A} (f : S -> A -> exec S) (m : exec S) l :
  (forall s, m <> fine s) -> foldl (fun acc x => ebind acc (fun s => f s x)) m l = m.
Proof.
  intros Hm. induction l as [|x l IH]; [done|]. cbn [foldl].
  assert (ebind m (fun s => f s x) = m) as ->; [|done]. destruct m as [[s|e]|]; [by destruct (Hm s)|done|done].
Qed.

Lemma exec_foldl_cons {S A} (f : S -> A -> exec S) s x l :
  exec_foldl f s (x :: l) = ebind (f s x) (fun s => exec_foldl f s l).
Proof.
  unfold exec_foldl, fine. cbn [foldl ebind]. destruct (f s x) as [[s'|e]|] eqn:E; [done| |]; by apply exec_foldl_stuck.
Qed.

(** ** Times, producers, classes *)

(* internal/aggregate/store_sqlite.go:2284-2289 nanosOf *)
Definition nanosOf (t : time) : Z := if t_IsZero t then 0 else i64 (t - unixToInternal * Second).

(* internal/aggregate/store_sqlite.go:2292-2297 timeFromNanos *)
Definition timeFromNanos (n : Z) : time := if n =? 0 then 0 else n + unixToInternal * Second.

(** The loop fills the eight bytes from the last to the first. *)
(* internal/aggregate/store_sqlite.go:2300-2308 producerBytes *)
Definition producerBytes (p : ProducerID) : bytes := reverse (le_put 8 (u64 p)).

(* internal/aggregate/store_sqlite.go:2311-2317 producerFromBytes *)
Definition producerFromBytes (b : bytes) : ProducerID := foldl (fun v c => Z.lor (u64 (Z.shiftl v 8)) c) 0 b.

(* internal/aggregate/store_sqlite.go:814-819 splitStatus *)
Definition splitStatus (k : SeriesKey) : Z * Z :=
  if KSignal k =? SignalLog then (0, KStatusClass k) else (KStatusClass k, 0).

(* internal/aggregate/store_sqlite.go:822-827 joinStatus *)
Definition joinStatus (signal statusClass severity : Z) : Z := if signal =? SignalLog then severity else statusClass.

(* internal/aggregate/store_sqlite.go:2369-2374 clampUint64 *)
Definition clampUint64 (n : Z) : Z := if n <? 0 then 0 else n.

(* internal/aggregate/store_sqlite.go:2377-2382 boolToInt *)
Definition boolToInt (b : bool) : Z := if b then 1 else 0.

(** ** Deltas *)

(* internal/aggregate/store_sqlite.go:2225-2244 deltaArgs *)
Definition deltaArgs (d : option AggregateDelta) (sketch : bytes) : sql_row :=
  let d := default zero_delta d in
  let c := d_counts d in
  let t := d_durations d in
  let g := d_gauges d in
  let h := d_hist d in
  [ VInt (i64 (d_Count c)); VInt (i64 (d_ErrorCount c)); VInt (i64 (d_DurationCount t));
    VReal (d_DurationSum t); VReal (d_DurationMin t); VReal (d_DurationMax t);
    VInt (i64 (d_GaugeCount g)); VReal (d_GaugeSum g); VReal (d_GaugeMin g); VReal (d_GaugeMax g);
    VReal (d_GaugeLast g); VInt (nanosOf (d_GaugeLastTime g));
    VReal (d_CounterDelta (d_counters d)); VInt (i64 (d_ResetCount (d_counters d))); VInt (i64 (d_LogCount (d_logs d)));
    VInt (nanosOf (d_FirstTimestamp (d_logs d))); VInt (nanosOf (d_LastTimestamp (d_logs d)));
    (if (0 <? length sketch)%nat then VBlob sketch else VNull);
    VInt (i64 (d_RequestCount c)); VInt (i64 (d_ErrorRequestCount c));
    VInt (i64 (d_HistogramCount h)); VReal (d_HistogramSum h); VReal (d_HistogramMin h); VReal (d_HistogramMax h);
    VInt (i64 (d_HistogramFlags h)); VReal (d_HistogramSourceError h);
    VReal (d_HistogramTailBound h); VInt (i64 (d_HistogramTailCount h)) ].

(** [if len(sketch) > 0 { DecodeSketch }] on the blob column. *)
Definition scanSketch (blob : sql_value) : exec (option Sketch) :=
  match blob with
  | VNull | VBlob [] => fine None
  | VBlob b =>
      match DecodeSketch b with
      | Some (Ok s) => fine (Some s)
      | Some (Err e) => oops (ErrDecode e)
      | None => None
      end
  | _ => oops ErrScan
  end.

(* internal/aggregate/store_sqlite.go:2160-2222 scanDelta *)
Definition scanDelta (row : sql_row) : exec AggregateDelta :=
  match row with
  | [ VInt pointCount; VInt errCnt; VInt durCount; VReal durSum; VReal durMin; VReal durMax;
      VInt gaugeCnt; VReal gaugeSum; VReal gaugeMin; VReal gaugeMax; VReal gaugeLast; VInt gaugeLastTS;
      VReal counterD; VInt resetCount; VInt logCnt; VInt firstTS; VInt lastTS; sketch;
      VInt reqCount; VInt errReqCnt;
      VInt histCount; VReal histSum; VReal histMin; VReal histMax; VInt histFlags; VReal histSrcErr;
      VReal histTailBound; VInt histTailCount ] =>
      let! sk := scanSketch sketch in
      fine
        (mkDelta (mkCounts (u64 pointCount) (u64 errCnt) (u64 reqCount) (u64 errReqCnt))
           (mkDurations (u64 durCount) durSum durMin durMax) sk
           (mkGauges (u64 gaugeCnt) gaugeSum gaugeMin gaugeMax gaugeLast (timeFromNanos gaugeLastTS))
           (mkCounters counterD (u64 resetCount))
           (mkHistograms (u64 histCount) histSum histMin histMax (u32 histFlags) histSrcErr histTailBound (u64 histTailCount))
           (mkLogs (u64 logCnt) (timeFromNanos firstTS) (timeFromNanos lastTS)))
  | _ => oops ErrScan
  end.

(** ** Series *)

(* internal/aggregate/store.go:329-332 SeriesInfo *)
Record SeriesInfo := mkSeriesInfo { si_ID : Z; si_Key : SeriesKey }.

(** The values [insertSeries] binds after the ID. *)
(* internal/aggregate/store_sqlite.go:786-810 insertSeries *)
Definition seriesArgs (key : SeriesKey) : list Z :=
  let '(statusClass, severity) := splitStatus key in
  [ TenantID key; ServiceID key; NameID key; DimsID key; KSignal key; statusClass;
    KHTTPClass key; KMethod key; KVariant key; severity ].

(* internal/aggregate/store_sqlite.go:2247-2272 scanSeries *)
Definition scanSeries (id : Z) (row : list Z) : exec SeriesInfo :=
  match row with
  | [tenant; service; name; dims; signal; statusClass; httpClass; method; spanKind; severity] =>
      fine (mkSeriesInfo id
        (mkSeriesKey (u32 tenant) (u32 service) (u32 name) (u32 dims) (u8 signal)
           (joinStatus (u8 signal) (u8 statusClass) (u8 severity)) (u8 httpClass) (u8 method) (u8 spanKind)))
  | _ => oops ErrScan
  end.

Section Rows.
Context `{Sqlite}.

(** A bound value in its column: a NaN becomes NULL, which NOT NULL refuses. *)
Definition bind_column (v : sql_value) : option sql_value :=
  match v with
  | VReal x => VReal <$> real_column x
  | _ => Some v
  end.

(** The INSERT of a row; the only column that may be NULL is the sketch, which
    is bound as NULL or as a blob. *)
Definition put_row (args : sql_row) : exec sql_row :=
  match mapM bind_column args with Some row => fine row | None => oops ErrConstraint end.

(** [d.Sketch.AppendTo(scratch[:0])] when there is a sketch. *)
Definition sketch_blob (d : AggregateDelta) : option bytes :=
  match d_Sketch d with Some s => Encode s | None => Some [] end.

End Rows.

(** ** Round trips *)

Lemma u_i64 w x : 0 < w <= 64 -> in_u w x -> wrapu w (i64 x) = x.
Proof.
  intros Hw Hx. unfold wraps, wrapu, in_u in *. change (2 ^ (64 - 1)) with (2 ^ 63).
  rewrite (Z.mod_eq (x + 2 ^ 63) (2 ^ 64)) by lia. set (q := (x + 2 ^ 63) / 2 ^ 64).
  replace (x + 2 ^ 63 - 2 ^ 64 * q - 2 ^ 63) with (x + (- q * 2 ^ (64 - w)) * 2 ^ w).
  - rewrite Z.mod_add by lia. by apply Z.mod_small.
  - assert (2 ^ 64 = 2 ^ (64 - w) * 2 ^ w) as -> by (rewrite <- Z.pow_add_r by lia; f_equal; lia). ring.
Qed.

(** A time the store can keep: unset, or within [int64] nanoseconds of the
    epoch and not the epoch itself, which reads back as unset. *)
Definition time_ok (t : time) : Prop :=
  t = 0 \/ in_s 64 (t - unixToInternal * Second) /\ t <> unixToInternal * Second.

Lemma nanos_roundtrip t : time_ok t -> timeFromNanos (nanosOf t) = t.
Proof.
  intros [->|[Ht Hne]]; [done|]. unfold nanosOf, t_IsZero. destruct (t =? 0) eqn:E; z_bool; [by subst|].
  rewrite wraps_small by (done || lia). unfold timeFromNanos. destruct (_ =? 0) eqn:E2; z_bool; lia.
Qed.

Lemma foldl_reverse {A B} (f : B -> A -> B) b l : foldl f b (reverse l) = foldr (fun x acc => f acc x) b l.
Proof. induction l as [|x l IH]; [done|]. by rewrite reverse_cons, foldl_app, IH. Qed.

Lemma producer_roundtrip p : in_u 64 p -> producerFromBytes (producerBytes p) = p.
Proof.
  intros Hp. unfold producerFromBytes, producerBytes. rewrite foldl_reverse, u64_small by exact Hp.
  enough (forall n z, (n <= 8)%nat -> 0 <= z < 256 ^ Z.of_nat n ->
    foldr (fun c v => Z.lor (u64 (Z.shiftl v 8)) c) 0 (le_put n z) = z) as HE by (by apply (HE 8%nat)).
  clear. induction n as [|n IH]; intros z Hn Hz; [change (256 ^ Z.of_nat 0) with 1 in Hz; cbn; lia|].
  rewrite Nat2Z.inj_succ, Z.pow_succ_r in Hz by lia. cbn [le_put foldr].
  pose proof (Z.mod_pos_bound z 256 ltac:(lia)). pose proof (Z.div_mod z 256 ltac:(lia)).
  assert (0 <= z / 256 < 256 ^ Z.of_nat n) as Hd by (split; [by apply Z.div_pos; lia|apply Z.div_lt_upper_bound; lia]).
  rewrite IH by (done || lia).
  assert (256 ^ Z.of_nat n <= 256 ^ 7) as H7 by (apply Z.pow_le_mono_r; lia). change (256 ^ 7) with 72057594037927936 in H7.
  rewrite u64_small by (rewrite Z.shiftl_mul_pow2 by done; lia).
  rewrite Z.lor_comm, lor_disjoint by (done || lia). lia.
Qed.

Lemma series_roundtrip id k : wf_key k -> scanSeries id (seriesArgs k) = fine (mkSeriesInfo id k).
Proof.
  intros (H1 & H2 & H3 & H4 & H5 & H6 & H7 & H8 & H9). destruct k as [t s n d sg st h m v]. cbn in *.
  unfold seriesArgs, splitStatus. cbn. unfold scanSeries.
  destruct (sg =? SignalLog) eqn:E; unfold joinStatus;
    rewrite !u32_small, !u8_small, E by (done || lia); done.
Qed.

(** ** Deltas that can be stored *)

Definition tallies (d : AggregateDelta) : list Z :=
  [ d_Count (d_counts d); d_ErrorCount (d_counts d); d_RequestCount (d_counts d); d_ErrorRequestCount (d_counts d);
    d_DurationCount (d_durations d); d_GaugeCount (d_gauges d); d_ResetCount (d_counters d); d_LogCount (d_logs d);
    d_HistogramCount (d_hist d); d_HistogramTailCount (d_hist d) ].

Definition reals (d : AggregateDelta) : list f64 :=
  [ d_DurationSum (d_durations d); d_DurationMin (d_durations d); d_DurationMax (d_durations d);
    d_GaugeSum (d_gauges d); d_GaugeMin (d_gauges d); d_GaugeMax (d_gauges d); d_GaugeLast (d_gauges d);
    d_CounterDelta (d_counters d);
    d_HistogramSum (d_hist d); d_HistogramMin (d_hist d); d_HistogramMax (d_hist d);
    d_HistogramSourceError (d_hist d); d_HistogramTailBound (d_hist d) ].

Definition stamps (d : AggregateDelta) : list time :=
  [d_GaugeLastTime (d_gauges d); d_FirstTimestamp (d_logs d); d_LastTimestamp (d_logs d)].

(** Counters and flags in their width, times within the nanosecond range,
    plain floats; [storable_sketch] adds a sketch the codec can read back. *)
Record columns_ok (d : AggregateDelta) : Prop := {
  co_tallies : Forall (in_u 64) (tallies d);
  co_flags : in_u 32 (d_HistogramFlags (d_hist d));
  co_reals : Forall (fun x => plain x = true) (reals d);
  co_stamps : Forall time_ok (stamps d);
}.

Definition storable_sketch (s : Sketch) : Prop :=
  encodable s /\ ((length (nzw s) <= 256)%nat \/ bsum (sk_bins s) 512 <= MaxUint32).

Definition storable (d : AggregateDelta) : Prop :=
  columns_ok d /\ forall s, d_Sketch d = Some s -> storable_sketch s.

(** What the encoding of a sketch keeps in any case, and exactly when it has at
    most 256 populated bins. *)
Record read_back (s r : Sketch) : Prop := {
  rb_scale : sk_scale r = sk_scale s;
  rb_count : sk_count r = sk_count s;
  rb_zero : sk_zeroCount r = sk_zeroCount s;
  rb_sum : sk_sum r = sk_sum s;
  rb_total : sk_binTotal r = sk_binTotal s;
  rb_exact : (length (nzw s) <= 256)%nat -> same_value s r;
}.

Lemma sketch_roundtrip s : storable_sketch s ->
  exists data r, Encode s = Some data /\ data <> [] /\ DecodeSketch data = Some (Ok r) /\ read_back s r.
Proof.
  intros [He Hs]. destruct (decide (length (nzw s) <= 256)%nat) as [Hl|Hl].
  - destruct (decode_encode_small s He Hl) as (r & E & _ & Hv & _).
    exists (encoding_of s), r. split_and!; [by apply Encode_small; [apply He|]|done|done|]. by destruct Hv; constructor.
  - assert (bsum (sk_bins s) 512 <= MaxUint32) as Hsum by (destruct Hs; lia).
    set (n := (length (nzw s) - 256)%nat).
    destruct (nzw s !! n) as [[i c]|] eqn:En; [|apply lookup_ge_None in En; unfold n in En; lia].
    pose proof (take_drop_middle _ _ _ En) as Em.
    destruct (collapseToBinCap_spec s (take n (nzw s)) i c (drop (S n) (nzw s)) He Hsum) as
      (s' & EC & He' & HN & S1 & S2 & S3 & S4 & S5 & _); [done| |].
    { intros E%(f_equal length). rewrite length_take in E. cbn in E. unfold n in E. lia. }
    rewrite length_drop in EC. replace (S (length (nzw s) - S n)) with 256%nat in EC by (unfold n; lia).
    assert (length (nzw s') <= 256)%nat as Hl' by (rewrite HN; cbn; rewrite length_drop; unfold n; lia).
    destruct (decode_encode_small s' He' Hl') as (r & E & _ & [V1 V2 V3 V4 V5 V6 V7] & _).
    exists (encoding_of s'), r. split_and!; [|done|done|constructor; try congruence; lia].
    rewrite <- (Encode_small s') by (done || apply He'). unfold Encode, AppendTo.
    rewrite (PopulatedBins_spec s), (PopulatedBins_spec s') by (apply He || apply He'). cbn [mbind option_bind].
    destruct (_ <? _) eqn:E1; z_bool; [|unfold SketchMaxSerializedBins in E1; lia].
    destruct (SketchMaxSerializedBins <? Z.of_nat (length (nzw s'))) eqn:E2; z_bool; [unfold SketchMaxSerializedBins in E2; lia|].
    change (Z.of_nat 256) with SketchMaxSerializedBins in EC. rewrite EC. cbn [mbind option_bind].
    by rewrite (PopulatedBins_spec s') by apply He'.
Qed.

Section RoundTrip.
Context `{Sqlite}.

Lemma mapM_same {A} (f : A -> option A) l : (forall x, x ∈ l -> f x = Some x) -> mapM f l = Some l.
Proof. intros Hf. apply mapM_Some_2. rewrite Forall2_same_length_lookup. split; [done|]. intros i x y Hx Hy. simplify_eq. by eapply Hf, list_elem_of_lookup_2. Qed.

Definition real_of (v : sql_value) : option f64 := match v with VReal x => Some x | _ => None end.

Lemma reals_args d b : omap real_of (deltaArgs (Some d) b) = reals d.
Proof. unfold deltaArgs. cbn [default]. by destruct (0 <? length b)%nat. Qed.

(** A row of plain floats is stored as it was bound; a NaN refuses it. *)
Lemma put_row_plain d b : Forall (fun x => plain x = true) (reals d) ->
  put_row (deltaArgs (Some d) b) = fine (deltaArgs (Some d) b).
Proof.
  intros Hp. unfold put_row. rewrite mapM_same; [done|]. intros v Hv. unfold bind_column. destruct v as [|z|x|bl]; try done.
  rewrite real_column_keeps; [done|]. rewrite Forall_forall in Hp. apply Hp. rewrite <- (reals_args d b).
  apply list_elem_of_omap. by exists (VReal x).
Qed.

Lemma put_row_nan d b : Exists (fun x => f_is_nan x = true) (reals d) -> put_row (deltaArgs (Some d) b) = oops ErrConstraint.
Proof.
  intros Hn. unfold put_row. destruct (mapM _ _) as [row|] eqn:E; [|done]. exfalso.
  apply Exists_exists in Hn as (x & Hx & Hnan). rewrite <- (reals_args d b) in Hx.
  apply list_elem_of_omap in Hx as (v & Hv & Ev). destruct v as [| |y|]; try done. injection Ev as ->.
  apply mapM_Some_1 in E. apply list_elem_of_lookup in Hv as (i & Hi).
  destruct (Forall2_lookup_l _ _ _ _ _ E Hi) as (r & _ & Hr). cbn in Hr. by rewrite real_column_nan in Hr.
Qed.

(** What a scan of a bound row gives: the delta, with the sketch decoded. *)
Lemma scan_args d b : columns_ok d ->
  scanDelta (deltaArgs (Some d) b) = (let! sk := scanSketch (if (0 <? length b)%nat then VBlob b else VNull) in fine (set_sketch d sk)).
Proof.
  intros [Ht Hf _ Hs]. unfold tallies in Ht. unfold stamps in Hs. rewrite !Forall_cons in Ht. rewrite !Forall_cons in Hs.
  destruct Ht as (T1 & T2 & T3 & T4 & T5 & T6 & T7 & T8 & T9 & T10 & _). destruct Hs as (S1 & S2 & S3 & _).
  unfold deltaArgs, scanDelta. cbn [default].
  rewrite !nanos_roundtrip by done. unfold set_sketch. destruct (scanSketch _) as [[sk|e]|]; [|done|done]. cbn [ebind].
  rewrite !(u_i64 64) by (done || lia). rewrite (u_i64 32) by (done || lia).
  by destruct d as [[] [] sk0 [] [] [] []].
Qed.

(** C37: round trip of a stored delta: every counter, float, flag and time of a
    storable delta comes back as it was bound, and its sketch with its scale,
    totals and sum, exactly when it has at most 256 populated bins. *)
Theorem row_roundtrip d : storable d ->
  exists blob row sk, sketch_blob d = Some blob /\ put_row (deltaArgs (Some d) blob) = fine row /\
    scanDelta row = fine (set_sketch d sk) /\
    match d_Sketch d, sk with
    | None, None => True
    | Some s, Some r => read_back s r
    | _, _ => False
    end.
Proof.
  intros [Hc Hs]. unfold sketch_blob. destruct (d_Sketch d) as [s|] eqn:E.
  - destruct (sketch_roundtrip s (Hs s eq_refl)) as (data & r & EE & Hne & ED & Hr).
    exists data, (deltaArgs (Some d) data), (Some r). split_and!; [done|apply put_row_plain, Hc| |done].
    rewrite scan_args by done. destruct data as [|z data]; [done|]. cbn [length Nat.ltb Nat.leb scanSketch]. by rewrite ED.
  - exists [], (deltaArgs (Some d) []), None. split_and!; [done|apply put_row_plain, Hc|by rewrite scan_args|done].
Qed.

(** A sketch whose running sum overflowed is written like any other, and no
    read of the row succeeds. *)
Lemma unreadable_row d s neg : columns_ok d -> d_Sketch d = Some s -> wf_sketch s -> (length (nzw s) <= 256)%nat ->
  0 <= sk_scale s <= SketchMaxScale -> in_u 64 (sk_zeroCount s) -> in_u 64 (sk_count s) -> sk_sum s = S754_infinity neg ->
  exists blob, sketch_blob d = Some blob /\ put_row (deltaArgs (Some d) blob) = fine (deltaArgs (Some d) blob) /\
    scanDelta (deltaArgs (Some d) blob) = oops (ErrDecode ErrSketchCorrupt).
Proof.
  intros Hc Hs Hwf Hl Hsc Hz Hct Hinf. exists (encoding_of s). unfold sketch_blob. rewrite Hs.
  split_and!; [by apply Encode_small|apply put_row_plain, Hc|].
  rewrite scan_args by done. unfold encoding_of, encoding. cbn [length Nat.ltb Nat.leb app scanSketch].
  unfold DecodeSketch, DecodeSketchInto.
  destruct (valid_header (sk_scale s) (if sk_collapsed s then 1 else 0)) as (-> & -> & ->); [done|destruct (sk_collapsed s); auto|].
  rewrite !r_uvarint_put by done. cbn [rbind]. rewrite r_uvarint_put by done. cbn [rbind].
  rewrite Hinf, r_uint64_put by (by apply Float64bits_range). cbn [rbind].
  rewrite Float64frombits_bits by done. done.
Qed.

End RoundTrip.

Lemma row_roundtrip_witness :
  exists row, put_row (H := SqliteFile) (deltaArgs (Some (logs_delta [(t_of_unix 600, true)])) []) = fine row /\
    scanDelta row = fine (logs_delta [(t_of_unix 600, true)]).
Proof.
  set (d := logs_delta [(t_of_unix 600, true)]).
  destruct (row_roundtrip (H := SqliteFile) d) as (blob & row & sk & Hb & Hp & Hs & Hk).
  - split; [|done]. constructor; [repeat constructor; done|unfold in_u; cbn; lia|repeat constructor|].
    apply (bool_decide_unpack _). by vm_compute.
  - injection Hb as <-. exists row. split; [exact Hp|]. rewrite Hs. destruct sk; [done|reflexivity].
Defined.
