(* ===== verification/StoreTables.v ===== *)
(** * StoreTables: the aggregate store ([internal/aggregate/store_sqlite.go])

    The tables of the SQLite file and every operation of the store that reads
    or writes them: the group commit, the finalization of a window, retention,
    and what recovery, the registrars and the collector load.  A transaction is
    one step: it answers the new file, or an error and the file as it was.
    [io] says that the driver refused one of its statements or the COMMIT. *)
From stdpp Require Import sorting.
From S2P Require Import Prelude Float64 SeriesKey Dict Registrar Identity Gc.
From S2P Require Import Sketch SketchCodec Histogram Delta Baseline StoreRows.
#[local] Open Scope Z_scope.

(** ** Rows and limits *)

(** A Go pointer that may be nil is an [option]. *)
(* internal/aggregate/store.go:173-180 DeltaRow *)
Record DeltaRow := mkDeltaRow { dr_SeriesID : Z; dr_WindowStart : Z; dr_Delta : option AggregateDelta }.

(* internal/aggregate/store.go:185-189 BaselineRow *)
Record BaselineRow := mkBaselineRow { br_SeriesID : Z; br_Producer : ProducerID; br_Baseline : Baseline }.

(* internal/aggregate/store.go:203-215 GroupBatch *)
Record GroupBatch := mkGroup {
  gb_Dicts : list DictRow;
  gb_Series : list SeriesInfo;
  gb_Deltas : list DeltaRow;
  gb_Baselines : list BaselineRow;
  gb_Templates : list TemplateRow;
}.

(* internal/aggregate/store.go:218-221 GroupBatch.Empty *)
Definition Empty (b : GroupBatch) : bool :=
  (length (gb_Dicts b) =? 0)%nat && (length (gb_Series b) =? 0)%nat && (length (gb_Deltas b) =? 0)%nat &&
  (length (gb_Baselines b) =? 0)%nat && (length (gb_Templates b) =? 0)%nat.

(* internal/aggregate/store.go:494-501 MaxReadRows *)
Definition MaxReadRows : Z := 20000.
(* internal/aggregate/store_sqlite.go:59-61 purgeWindowsPerPass *)
Definition purgeWindowsPerPass : Z := 4096.
(* internal/aggregate/store_sqlite.go:916-918 mergeReadChunk *)
Definition mergeReadChunk : nat := 500.
(* internal/aggregate/store_sqlite.go:967-969 deltaRowBytes *)
Definition deltaRowBytes : Z := 96.

(** The tables; the two watermarks are the rows of [aggregate_meta] the store
    changes.  A window's rows are keyed by window and series. *)
(* internal/aggregate/store_sqlite.go:380-489 schemaDDL *)
Record StoreFile := mkFile {
  sf_dict : dict_table;
  sf_series : gmap Z (list Z);
  sf_log : gmap (Z * Z) (list sql_value);
  sf_buckets : gmap (Z * Z) (list sql_value);
  sf_baselines : gmap (Z * bytes) (list sql_value);
  sf_templates : gmap Z TemplateRow;
  sf_dictWM : Z;
  sf_seriesWM : Z;
}.

Definition emptyFile : StoreFile := mkFile ∅ ∅ ∅ ∅ ∅ ∅ 0 0.

Definition set_windows (f : StoreFile) log buckets : StoreFile :=
  mkFile (sf_dict f) (sf_series f) log buckets (sf_baselines f) (sf_templates f) (sf_dictWM f) (sf_seriesWM f).
Definition set_baseline_table (f : StoreFile) b : StoreFile :=
  mkFile (sf_dict f) (sf_series f) (sf_log f) (sf_buckets f) b (sf_templates f) (sf_dictWM f) (sf_seriesWM f).
Definition set_templates (f : StoreFile) t : StoreFile :=
  mkFile (sf_dict f) (sf_series f) (sf_log f) (sf_buckets f) (sf_baselines f) t (sf_dictWM f) (sf_seriesWM f).

(** A computation that may panic, inside one that may fail. *)
Definition lift {A} (m : option A) : exec A := a ← m; fine a.
Definition constraint {A} (m : option A) : exec A := match m with Some a => fine a | None => oops ErrConstraint end.

(** ** Listing a table in the order of a query *)

Definition key_le (a b : Z * Z) : Prop := a.1 < b.1 \/ a.1 = b.1 /\ a.2 <= b.2.

#[global] Instance key_le_dec a b : Decision (key_le a b).
Proof. unfold key_le. apply _. Defined.

(** ORDER BY window_start, series_id *)
Definition ordered (m : gmap (Z * Z) (list sql_value)) : list (Z * Z) := merge_sort key_le (elements (dom m)).

(** The series of a window, ORDER BY series_id *)
Definition series_in (m : gmap (Z * Z) (list sql_value)) (window : Z) : list Z :=
  snd <$> filter (fun k => k.1 = window) (ordered m).

(** SELECT DISTINCT window_start ... ORDER BY window_start *)
Definition windows_in (m : gmap (Z * Z) (list sql_value)) (P : Z -> bool) : list Z :=
  merge_sort Z.le (elements (filter (fun w => P w = true) (set_map fst (dom m) : gset Z))).

Section Store.
Context `{Sqlite}.

(** ** The group commit *)

(** UNIQUE over all identity columns, and the primary key. *)
(* internal/aggregate/store_sqlite.go:786-810 insertSeries *)
Definition insertSeries (db : gmap Z (list Z)) (rows : list SeriesInfo) : exec (gmap Z (list Z)) :=
  exec_foldl (fun db r =>
    if bool_decide (is_Some (db !! si_ID r)) || existsb (fun p => bool_decide (p.2 = seriesArgs (si_Key r))) (map_to_list db)
    then oops ErrConstraint
    else fine (<[si_ID r := seriesArgs (si_Key r)]> db)) db rows.

(** The rows of the chunk that are there; SQLite answers them in some order,
    here the chunk's. *)
(* internal/aggregate/store_sqlite.go:947-965 scanDeltaRows *)
Definition scanDeltaRows (log : gmap (Z * Z) (list sql_value)) (window : Z) (out : gmap (Z * Z) AggregateDelta) (chunk : list Z)
    : exec (gmap (Z * Z) AggregateDelta) :=
  exec_foldl (fun out id =>
    match log !! (window, id) with
    | Some row => let! d := scanDelta row in fine (<[(window, id) := d]> out)
    | None => fine out
    end) out chunk.

(** [for len(ids) > 0]: the fuel is the number of IDs. *)
Fixpoint chunks (fuel : nat) (ids : list Z) : list (list Z) :=
  match fuel, ids with
  | O, _ | _, [] => []
  | S fuel, _ => let n := Nat.min (length ids) mergeReadChunk in take n ids :: chunks fuel (drop n ids)
  end.

Definition by_window (rows : list DeltaRow) : gmap Z (list Z) :=
  foldl (fun m r => <[dr_WindowStart r := default [] (m !! dr_WindowStart r) ++ [dr_SeriesID r]]> m) ∅ rows.

(* internal/aggregate/store_sqlite.go:922-945 readDeltaRows *)
Definition readDeltaRows (log : gmap (Z * Z) (list sql_value)) (rows : list DeltaRow) : exec (gmap (Z * Z) AggregateDelta) :=
  exec_foldl (fun out p => exec_foldl (scanDeltaRows log p.1) out (chunks (length p.2) p.2)) ∅ (map_to_list (by_window rows)).

(** One row of the loop: the deltas read or written so far, the log, the bytes. *)
Definition merge_one (st : gmap (Z * Z) (option AggregateDelta) * gmap (Z * Z) (list sql_value) * Z) (r : DeltaRow)
    : exec (gmap (Z * Z) (option AggregateDelta) * gmap (Z * Z) (list sql_value) * Z) :=
  let '(existing, log, n) := st in
  let key := (dr_WindowStart r, dr_SeriesID r) in
  let! d :=
    match existing !! key with
    | Some (Some cur) => let! m := lift (DeltaMerge cur (dr_Delta r)) in fine (Some m)
    | _ => fine (dr_Delta r)
    end in
  let! sketch := lift (match d with Some d => sketch_blob d | None => Some [] end) in
  let! row := put_row (deltaArgs d sketch) in
  fine (<[key := d]> existing, <[key := row]> log, n + (deltaRowBytes + Z.of_nat (length sketch))).

(* internal/aggregate/store_sqlite.go:854-908 mergeDeltas *)
Definition mergeDeltas (log : gmap (Z * Z) (list sql_value)) (rows : list DeltaRow)
    : exec (gmap (Z * Z) (list sql_value) * Z) :=
  if (length rows =? 0)%nat then fine (log, 0)
  else
    let! existing := readDeltaRows log rows in
    let! (_, log, n) := exec_foldl merge_one (Some <$> existing, log, 0) rows in
    fine (log, n).

(* internal/aggregate/store_sqlite.go:973-994 upsertBaselines *)
Definition upsertBaselines (db : gmap (Z * bytes) (list sql_value)) (rows : list BaselineRow) : exec (gmap (Z * bytes) (list sql_value)) :=
  exec_foldl (fun db r =>
    let b := br_Baseline r in
    let! row := put_row [VInt (nanosOf (StartTime b)); VInt (nanosOf (LastTimestamp b)); VReal (Value b)] in
    fine (<[(br_SeriesID r, producerBytes (br_Producer r)) := row]> db)) db rows.

(** The row of a template as SQLite keeps it: the [uint64] columns as int64. *)
Definition template_row (r : TemplateRow) : TemplateRow :=
  mkTemplateRow (tr_ID r) (tr_Tenant r) (tr_Service r) (tr_PatternVersion r) (tr_Tokens r) (i64 (tr_Seq r)) (tr_IsOther r)
    (tr_AliasOf r) (i64 (tr_Count r)) (tr_FirstSeen r) (tr_LastSeen r).

(** ON CONFLICT(template_id) DO UPDATE ... WHERE the version is not older *)
Definition upsert_template (db : gmap Z TemplateRow) (r : TemplateRow) : gmap Z TemplateRow :=
  let r := template_row r in
  match db !! tr_ID r with
  | None => <[tr_ID r := r]> db
  | Some c =>
      if tr_PatternVersion c <=? tr_PatternVersion r then
        <[tr_ID r := mkTemplateRow (tr_ID c) (tr_Tenant c) (tr_Service c) (tr_PatternVersion r) (tr_Tokens r) (tr_Seq c)
            (tr_IsOther c) (tr_AliasOf r) (Z.max (tr_Count c) (tr_Count r)) (tr_FirstSeen c) (Z.max (tr_LastSeen c) (tr_LastSeen r))]> db
      else db
  end.

(* internal/aggregate/store_sqlite.go:2334-2364 upsertTemplates *)
Definition upsertTemplates (db : gmap Z TemplateRow) (rows : list TemplateRow) : gmap Z TemplateRow := foldl upsert_template db rows.

Definition one_past (ids : list Z) : Z := foldl (fun acc id => if acc <? id + 1 then id + 1 else acc) 0 ids.
Definition bump (wm value : Z) : Z := if value <=? 0 then wm else if wm <? value then value else wm.

(* internal/aggregate/store_sqlite.go:2386-2418 bumpWatermarks *)
Definition bumpWatermarks (f : StoreFile) (b : GroupBatch) : StoreFile :=
  mkFile (sf_dict f) (sf_series f) (sf_log f) (sf_buckets f) (sf_baselines f) (sf_templates f)
    (bump (sf_dictWM f) (one_past ((de_ID <$> gb_Dicts b) ++ (tr_ID <$> gb_Templates b))))
    (bump (sf_seriesWM f) (one_past (si_ID <$> gb_Series b))).

(* internal/aggregate/store_sqlite.go:715-757 SQLiteStore.commitGroup *)
Definition commitGroup (io : bool) (f : StoreFile) (b : GroupBatch) : exec (StoreFile * Z) :=
  let! dict := constraint (insertDicts (sf_dict f) (gb_Dicts b)) in
  let! series := insertSeries (sf_series f) (gb_Series b) in
  let! (log, n) := mergeDeltas (sf_log f) (gb_Deltas b) in
  let! baselines := upsertBaselines (sf_baselines f) (gb_Baselines b) in
  let templates := upsertTemplates (sf_templates f) (gb_Templates b) in
  if io then oops ErrDriver
  else fine (bumpWatermarks (mkFile dict series log (sf_buckets f) baselines templates (sf_dictWM f) (sf_seriesWM f)) b, n).

(* internal/aggregate/store_sqlite.go:705-713 SQLiteStore.CommitGroup *)
Definition CommitGroup (io : bool) (f : StoreFile) (b : GroupBatch) : option (StoreFile * option store_error) :=
  if Empty b then Some (f, None)
  else match commitGroup io f b with
       | Some (Ok (f', _)) => Some (f', None)
       | Some (Err e) => Some (f, Some e)
       | None => None
       end.

(** ** Finalization *)

(* internal/aggregate/store_sqlite.go:999-1019 SQLiteStore.FinalizableWindows *)
Definition FinalizableWindows (f : StoreFile) (cutoff limit : Z) : list Z :=
  let limit := if (limit <=? 0) || (purgeWindowsPerPass <? limit) then purgeWindowsPerPass else limit in
  take (Z.to_nat limit) (windows_in (sf_log f) (fun w => w <=? cutoff)).

(* internal/aggregate/store.go:535-544 FinalizeStats *)
Record FinalizeStats := mkFinalizeStats { fs_Buckets : Z; fs_DeltaRows : Z }.

(** One delta row of the window: decoded, and merged into its bucket when the
    window has buckets already. *)
Definition materialize_one (log : gmap (Z * Z) (list sql_value)) (window : Z) (rewrite : bool)
    (st : gmap (Z * Z) (list sql_value) * FinalizeStats) (id : Z) : exec (gmap (Z * Z) (list sql_value) * FinalizeStats) :=
  let '(buckets, stats) := st in
  match log !! (window, id) with
  | None => fine st
  | Some row =>
      let! d := scanDelta row in
      if negb rewrite then fine (buckets, mkFinalizeStats (fs_Buckets stats) (fs_DeltaRows stats + 1))
      else
        let! d :=
          match buckets !! (window, id) with
          | Some b => let! existing := scanDelta b in lift (DeltaMerge existing (Some d))
          | None => fine d
          end in
        let! scratch := lift (sketch_blob d) in
        let! row := put_row (deltaArgs (Some d) scratch) in
        fine (<[(window, id) := row]> buckets, mkFinalizeStats (fs_Buckets stats + 1) (fs_DeltaRows stats + 1))
  end.

(** INSERT INTO aggregate_buckets SELECT ... FROM aggregate_delta_log *)
Definition copy_window (log buckets : gmap (Z * Z) (list sql_value)) (window : Z) : gmap (Z * Z) (list sql_value) :=
  foldl (fun b id => match log !! (window, id) with Some row => <[(window, id) := row]> b | None => b end)
    buckets (series_in log window).

(* internal/aggregate/store_sqlite.go:1085-1199 SQLiteStore.materializeWindow *)
Definition materializeWindow (f : StoreFile) (window : Z) : exec (gmap (Z * Z) (list sql_value) * FinalizeStats) :=
  let rewrite := negb (length (series_in (sf_buckets f) window) =? 0)%nat in
  let! (buckets, stats) :=
    exec_foldl (materialize_one (sf_log f) window rewrite) (sf_buckets f, mkFinalizeStats 0 0) (series_in (sf_log f) window) in
  if negb rewrite && (0 <? fs_DeltaRows stats) then
    let copied := Z.of_nat (length (series_in (sf_log f) window)) in
    if negb (copied =? fs_DeltaRows stats) then oops ErrCopied
    else fine (copy_window (sf_log f) buckets window, mkFinalizeStats (fs_DeltaRows stats) (fs_DeltaRows stats))
  else fine (buckets, stats).

(** DELETE ... WHERE window_start = window *)
Definition delete_window (m : gmap (Z * Z) (list sql_value)) (window : Z) : gmap (Z * Z) (list sql_value) :=
  filter (fun p => p.1.1 <> window) m.

(* internal/aggregate/store_sqlite.go:1047-1079 SQLiteStore.finalizeWindow *)
Definition finalizeWindow (io : bool) (f : StoreFile) (window : Z) : exec (StoreFile * FinalizeStats) :=
  let! (buckets, stats) := materializeWindow f window in
  if fs_DeltaRows stats =? 0 then (if io then oops ErrDriver else fine (f, stats))
  else if io then oops ErrDriver
  else fine (set_windows f (delete_window (sf_log f) window) buckets, stats).

(* internal/aggregate/store_sqlite.go:1038-1045 SQLiteStore.FinalizeWindow *)
Definition FinalizeWindow (io : bool) (f : StoreFile) (window : Z) : option (StoreFile * option store_error) :=
  match finalizeWindow io f window with
  | Some (Ok (f', _)) => Some (f', None)
  | Some (Err e) => Some (f, Some e)
  | None => None
  end.

(** ** Retention *)

(* internal/aggregate/store_sqlite.go:1250-1270 SQLiteStore.purgeableWindows *)
Definition purgeableWindows (f : StoreFile) (cutoff : Z) : list Z :=
  take (Z.to_nat purgeWindowsPerPass)
    (merge_sort Z.le (remove_dups (windows_in (sf_buckets f) (fun w => w <? cutoff) ++ windows_in (sf_log f) (fun w => w <? cutoff)))).

Definition rows_in (m : gmap (Z * Z) (list sql_value)) (window : Z) : Z := Z.of_nat (length (series_in m window)).

(* internal/aggregate/store_sqlite.go:1273-1299 purgeWindow *)
Definition purgeWindow (f : StoreFile) (window : Z) : StoreFile * (Z * Z) :=
  (set_windows f (delete_window (sf_log f) window) (delete_window (sf_buckets f) window),
   (rows_in (sf_buckets f) window, rows_in (sf_log f) window)).

(* internal/aggregate/store.go:547-556 PurgeStats *)
Record PurgeStats := mkPurgeStats { ps_Buckets : Z; ps_Deltas : Z; ps_Baselines : Z }.

(** The windows are deleted one transaction each; the baselines of the purge
    in a last one; [io window] is the outcome of a window's transaction. *)
(* internal/aggregate/store_sqlite.go:1214-1242 SQLiteStore.purgeBefore *)
Fixpoint purge_windows (io : Z -> bool) (f : StoreFile) (stats : PurgeStats) (windows : list Z) : StoreFile * PurgeStats * bool :=
  match windows with
  | [] => (f, stats, true)
  | w :: windows =>
      if io w then (f, stats, false)
      else
        let '(f, (buckets, deltas)) := purgeWindow f w in
        purge_windows io f (mkPurgeStats (ps_Buckets stats + buckets) (ps_Deltas stats + deltas) (ps_Baselines stats)) windows
  end.

(** The rows whose [last_ts] is at or above the cutoff stay. *)
Definition recent (cutoff : Z) (row : list sql_value) : bool :=
  match row with [_; VInt last; _] => cutoff <=? last | _ => true end.

(* internal/aggregate/store_sqlite.go:1214-1242 SQLiteStore.purgeBefore *)
Definition purgeBefore (io : Z -> bool) (io_baselines : bool) (f : StoreFile) (cutoff : Z) : StoreFile * PurgeStats * bool :=
  let '(f, stats, ok) := purge_windows io f (mkPurgeStats 0 0 0) (purgeableWindows f cutoff) in
  if negb ok || io_baselines then (f, stats, false)
  else
    let kept := filter (fun p => recent (i64 (cutoff * Second)) p.2 = true) (sf_baselines f) in
    (set_baseline_table f kept,
     mkPurgeStats (ps_Buckets stats) (ps_Deltas stats) (Z.of_nat (size (sf_baselines f)) - Z.of_nat (size kept)), true).

(** ** What is loaded *)

(** Rows decoded in order; the first that does not decode is the error. *)
Definition scan_rows (m : gmap (Z * Z) (list sql_value)) (keys : list (Z * Z)) : exec (list DeltaRow) :=
  exec_foldl (fun out key =>
    match m !! key with
    | Some row => let! d := scanDelta row in fine (out ++ [mkDeltaRow key.2 key.1 (Some d)])
    | None => fine out
    end) [] keys.

(* internal/aggregate/store_sqlite.go:1904-1924 SQLiteStore.ReplayMutable *)
Definition ReplayMutable (f : StoreFile) (since : Z) : exec (list DeltaRow) :=
  scan_rows (sf_log f) (filter (fun k => since <= k.1) (ordered (sf_log f))).

(* internal/aggregate/store.go:366-372 FinalizedPage *)
Record FinalizedPage := mkPage { fp_Buckets : list DeltaRow; fp_Truncated : bool }.

(** A join with the series of the given signals. *)
Definition has_signal (f : StoreFile) (signals : list Z) (id : Z) : bool :=
  match sf_series f !! id with
  | Some args => (length signals =? 0)%nat || bool_decide (default (-1) (args !! 4%nat) ∈ signals)
  | None => false
  end.

Definition newest_le (a b : Z * Z) : Prop := b.1 < a.1 \/ a.1 = b.1 /\ a.2 <= b.2.

#[global] Instance newest_le_dec a b : Decision (newest_le a b).
Proof. unfold newest_le. apply _. Defined.

(* internal/aggregate/store_sqlite.go:1933-1985 SQLiteStore.ReadFinalizedSince *)
Definition ReadFinalizedSince (f : StoreFile) (since : Z) (signals : list Z) (limit : Z) : exec FinalizedPage :=
  let limit := Z.to_nat (if (limit <=? 0) || (MaxReadRows <? limit) then MaxReadRows else limit) in
  let keys := merge_sort newest_le (filter (fun k => since <= k.1 /\ has_signal f signals k.2 = true) (elements (dom (sf_buckets f)))) in
  let! rows := scan_rows (sf_buckets f) (take (S limit) keys) in
  fine (mkPage (take limit rows) (limit <? length rows)%nat).

(** LIMIT without ORDER BY: some of the rows. *)
(* internal/aggregate/store_sqlite.go:1988-2020 SQLiteStore.LoadBaselines *)
Definition LoadBaselines (f : StoreFile) (max : Z) : exec (list BaselineRow) :=
  let max := if max <=? 0 then MaxReadRows else max in
  exec_foldl (fun out p =>
    match p.2 with
    | [VInt start; VInt last; VReal value] =>
        fine (out ++ [mkBaselineRow p.1.1 (producerFromBytes p.1.2) (mkBaseline (timeFromNanos start) (timeFromNanos last) value)])
    | _ => oops ErrScan
    end) [] (take (Z.to_nat max) (map_to_list (sf_baselines f))).

(* internal/aggregate/store_sqlite.go:2023-2052 SQLiteStore.ResolveSeries *)
Definition ResolveSeries (f : StoreFile) (ids : list Z) : exec (list SeriesInfo) :=
  if (length ids =? 0)%nat then fine []
  else if MaxReadRows <? Z.of_nat (length ids) then oops ErrSelectorUnbounded
  else exec_foldl (fun out id =>
    match sf_series f !! id with
    | Some args => let! info := scanSeries id args in fine (out ++ [info])
    | None => fine out
    end) [] (remove_dups ids).

(* internal/aggregate/store_sqlite.go:2421-2449 SQLiteStore.Watermarks *)
Definition Watermarks (f : StoreFile) : exec (Z * Z) :=
  if MaxUint32 <? sf_dictWM f then oops ErrWatermark else fine (sf_dictWM f, sf_seriesWM f).

(* internal/aggregate/store.go:560-567 BacklogStats *)
Record BacklogStats := mkBacklog { bl_Rows : Z; bl_OldestWindow : Z; bl_Bytes : Z }.

(* internal/aggregate/store_sqlite.go:2136-2150 SQLiteStore.Backlog *)
Definition Backlog (f : StoreFile) : BacklogStats :=
  let rows := Z.of_nat (size (sf_log f)) in
  mkBacklog rows (default 0 (head (windows_in (sf_log f) (fun _ => true)))) (rows * deltaRowBytes).

(** A template row as it is read back. *)
(* internal/aggregate/store_sqlite.go:2522-2554 scanTemplateRows *)
Definition scanTemplateRow (r : TemplateRow) : TemplateRow :=
  mkTemplateRow (u32 (tr_ID r)) (tr_Tenant r) (tr_Service r) (u32 (tr_PatternVersion r)) (tr_Tokens r)
    (clampUint64 (tr_Seq r)) (tr_IsOther r) (u32 (tr_AliasOf r)) (clampUint64 (tr_Count r)) (tr_FirstSeen r) (tr_LastSeen r).

(* internal/aggregate/store_sqlite.go:2558-2591 SQLiteStore.SaveTemplateStats *)
Definition SaveTemplateStats (io : bool) (f : StoreFile) (rows : list (Z * Z * Z * Z)) : StoreFile * option store_error :=
  if (length rows =? 0)%nat then (f, None)
  else if io then (f, Some ErrDriver)
  else
    (set_templates f
       (foldl (fun db '(id, count, first, last) =>
          match db !! id with
          | Some c => <[id := mkTemplateRow (tr_ID c) (tr_Tenant c) (tr_Service c) (tr_PatternVersion c) (tr_Tokens c) (tr_Seq c)
              (tr_IsOther c) (tr_AliasOf c) (i64 count) first last]> db
          | None => db
          end) (sf_templates f) rows), None).

(** The series the tables refer to. *)
(* internal/aggregate/store_sqlite.go:2492-2506 collectSeriesIDs *)
Definition referenced (f : StoreFile) : gset Z :=
  set_map snd (dom (sf_buckets f)) ∪ set_map snd (dom (sf_log f)) ∪ set_map fst (dom (sf_baselines f)).

End Store.
