(* ===== verification/StoreFacts.v ===== *)
(** * StoreFacts: what a commit adds and a finalization moves

    The counters of a delta are columns of its row, and merging deltas adds
    them; so a group commit adds each of its deltas to the log once, and a
    finalization moves a window from the log to the buckets without a change
    of any total. *)
From stdpp Require Import sorting.
From S2P Require Import Prelude Float64 SeriesKey Dict Registrar Identity Gc.
From S2P Require Import Sketch SketchCodec Histogram Delta Baseline StoreRows StoreTables.
#[local] Open Scope Z_scope.

(** ** Loops that may fail *)

Lemma exec_foldl_prefix {S A} (P : list A -> S -> Prop) (f : S -> A -> exec S) s l s' :
  P [] s ->
  (forall done_ x rest s1 s2, l = done_ ++ x :: rest -> P done_ s1 -> f s1 x = fine s2 -> P (done_ ++ [x]) s2) ->
  exec_foldl f s l = fine s' -> P l s'.
Proof.
  intros H0 Hstep.
  enough (forall todo done_ s, P done_ s -> l = done_ ++ todo -> exec_foldl f s todo = fine s' -> P l s') as HE by (by apply (HE l [])).
  clear s H0. intros todo. induction todo as [|x todo IH]; intros done_ s Hd El E.
  - injection E as <-. by rewrite El, app_nil_r.
  - rewrite exec_foldl_cons in E. apply ebind_Ok in E as (s1 & E1 & E).
    apply (IH (done_ ++ [x]) s1); [|by rewrite <- app_assoc|done]. by eapply Hstep.
Qed.

Lemma exec_foldl_ind {S A} (P : list A -> S -> Prop) (f : S -> A -> exec S) s l s' :
  P [] s ->
  (forall done_ x s1 s2, x ∈ l -> P done_ s1 -> f s1 x = fine s2 -> P (done_ ++ [x]) s2) ->
  exec_foldl f s l = fine s' -> P l s'.
Proof.
  intros H0 Hstep. apply exec_foldl_prefix; [done|]. intros done_ x rest s1 s2 El. apply Hstep. rewrite El. set_solver.
Qed.

Lemma exec_foldl_total {S A} (P : S -> Prop) (f : S -> A -> exec S) s l :
  P s -> (forall s x, x ∈ l -> P s -> exists s', f s x = fine s' /\ P s') -> exists s', exec_foldl f s l = fine s' /\ P s'.
Proof.
  revert s. induction l as [|x l IH]; intros s Hs Hstep; [by exists s|].
  rewrite exec_foldl_cons. destruct (Hstep s x) as (s1 & E1 & P1); [by left|done|]. rewrite E1. cbn [ebind fine].
  apply IH; [done|]. intros s2 y Hy. apply Hstep. by right.
Qed.

(** The key of a series in the store's table. *)
Definition stored_key (f : StoreFile) (sid : Z) : option SeriesKey :=
  match sf_series f !! sid with
  | Some args => match scanSeries sid args with Some (Ok info) => Some (si_Key info) | _ => None end
  | None => None
  end.

(** ** Counters as columns *)

(** A counter of a delta and the column of its row. *)
Record tally := mkTally { ta_get : AggregateDelta -> Z; ta_col : nat }.

(** The counters a merge always adds. *)
Definition plain_columns : list tally :=
  [ mkTally (fun d => d_Count (d_counts d)) 0; mkTally (fun d => d_ErrorCount (d_counts d)) 1;
    mkTally (fun d => d_ResetCount (d_counters d)) 13; mkTally (fun d => d_LogCount (d_logs d)) 14;
    mkTally (fun d => d_RequestCount (d_counts d)) 18; mkTally (fun d => d_ErrorRequestCount (d_counts d)) 19 ].

Definition tail_count : tally := mkTally (fun d => d_HistogramTailCount (d_hist d)) 27.

(** All ten counters of a delta. *)
Definition tally_columns : list tally :=
  plain_columns ++
  [ mkTally (fun d => d_DurationCount (d_durations d)) 2; mkTally (fun d => d_GaugeCount (d_gauges d)) 6;
    mkTally (fun d => d_HistogramCount (d_hist d)) 20; tail_count ].

(** [Merge] skips a histogram without observations and flags, and the count of
    its tail with it.  A tail never comes without them. *)
Definition tail_ok (d : AggregateDelta) : Prop :=
  d_HistogramCount (d_hist d) = 0 -> d_HistogramFlags (d_hist d) = 0 -> d_HistogramTailCount (d_hist d) = 0.

(** Counters that are unsigned, with a tail only beside a histogram. *)
Definition adds (t : tally) (d : AggregateDelta) : Prop :=
  Forall (fun z => 0 <= z) (tallies d) /\ (t = tail_count -> tail_ok d).

(** The rows of a table that decode have a tail only beside a histogram. *)
Definition rows_add `{Sqlite} (t : tally) (m : gmap (Z * Z) (list sql_value)) : Prop :=
  t = tail_count -> forall key row d, m !! key = Some row -> scanDelta row = fine d -> tail_ok d.

Definition row_tally (t : tally) (row : list sql_value) : Z :=
  match row !! ta_col t with Some (VInt z) => u64 z | _ => 0 end.

(** The counter of a row of a table; 0 when the row is not there. *)
Definition table_tally (t : tally) (m : gmap (Z * Z) (list sql_value)) (key : Z * Z) : Z := from_option (row_tally t) 0 (m !! key).

Definition row_key (r : DeltaRow) : Z * Z := (dr_WindowStart r, dr_SeriesID r).

(** What rows contribute to a window and series. *)
Definition contribution (t : tally) (rows : list DeltaRow) (key : Z * Z) : Z :=
  foldr (fun r acc => (if bool_decide (row_key r = key) then from_option (ta_get t) 0 (dr_Delta r) else 0) + acc) 0 rows.

(** One goal per counter. *)
Ltac tally_cases Hc :=
  unfold tally_columns, plain_columns in Hc; cbn [app] in Hc; rewrite !elem_of_cons, elem_of_nil in Hc; destruct_or? Hc; subst.

Section Columns.
Context `{Sqlite}.

Lemma put_row_col args row : put_row args = fine row -> forall i z, args !! i = Some (VInt z) -> row !! i = Some (VInt z).
Proof.
  unfold put_row. destruct (mapM _ _) as [r|] eqn:E; [|done]. intros [= ->] i z Hi. apply mapM_Some_1 in E.
  destruct (Forall2_lookup_l _ _ _ _ _ E Hi) as (v & Hv & Ev). cbn in Ev. by simplify_eq.
Qed.

Lemma u64_i64 x : u64 (i64 x) = u64 x.
Proof. unfold wraps, wrapu. change (2 ^ (64 - 1)) with (2 ^ 63). rewrite Zminus_mod_idemp_l. f_equal. lia. Qed.

Lemma args_tally t d b : t ∈ tally_columns ->
  exists z, deltaArgs d b !! ta_col t = Some (VInt z) /\ u64 z = u64 (from_option (ta_get t) 0 d).
Proof. intros Hc. tally_cases Hc; (eexists; split; [reflexivity|rewrite u64_i64; by destruct d]). Qed.

Lemma row_tally_put t d b row : t ∈ tally_columns -> put_row (deltaArgs d b) = fine row ->
  eq64 (row_tally t row) (from_option (ta_get t) 0 d).
Proof.
  intros Hc E. destruct (args_tally t d b Hc) as (z & Hz & Ez). pose proof (put_row_col _ _ E _ _ Hz) as Hr.
  unfold row_tally, eq64. rewrite Hr, <- Ez. apply u64_eq64.
Qed.

Lemma scanDelta_tally t row d : t ∈ tally_columns -> scanDelta row = fine d -> ta_get t d = row_tally t row.
Proof.
  intros Hc. unfold scanDelta. repeat (case_match; try done). intros (sk & _ & [= <-])%ebind_Ok. by tally_cases Hc.
Qed.

Lemma plain_tally t : t ∈ plain_columns -> t ∈ tally_columns.
Proof. intros. apply elem_of_app. by left. Qed.

Lemma plain_merge t a b c : t ∈ plain_columns -> DeltaMerge a (Some b) = Some c -> eq64 (ta_get t c) (ta_get t a + ta_get t b).
Proof.
  intros Hc. unfold DeltaMerge. intros (sk & _ & [= <-])%bind_Some. unfold plain_columns in Hc.
  rewrite !elem_of_cons, elem_of_nil in Hc; destruct_or? Hc; subst; cbn; apply u64_eq64.
Qed.

Lemma tally_merge t a b c : t ∈ tally_columns -> adds t b -> DeltaMerge a (Some b) = Some c -> eq64 (ta_get t c) (ta_get t a + ta_get t b).
Proof.
  intros [Hc|Hc]%elem_of_app [Hb Ht]; [intros; by apply plain_merge|]. unfold tallies in Hb. rewrite !Forall_cons in Hb. destruct Hb as (_ & _ & _ & _ & B1 & B2 & _ & _ & B3 & _).
  unfold DeltaMerge. intros (sk & _ & [= <-])%bind_Some. rewrite !elem_of_cons, elem_of_nil in Hc; destruct_or? Hc; subst; cbn.
  - unfold merge_durations. destruct (0 <? _) eqn:E; z_bool; [apply u64_eq64|apply eq64_eq; lia].
  - unfold merge_gauges. destruct (0 <? _) eqn:E; z_bool; [apply u64_eq64|apply eq64_eq; lia].
  - unfold merge_hist. destruct (0 <? d_HistogramCount (d_hist b)) eqn:E; z_bool; cbn [orb]; [apply u64_eq64|].
    destruct (negb _); [apply u64_eq64|apply eq64_eq; lia].
  - unfold merge_hist. destruct (0 <? d_HistogramCount (d_hist b)) eqn:E; z_bool; cbn [orb]; [apply u64_eq64|].
    destruct (d_HistogramFlags (d_hist b) =? 0) eqn:Ef; z_bool; cbn [negb]; [|apply u64_eq64]. apply eq64_eq. rewrite (Ht eq_refl); [lia|lia|done].
Qed.

Lemma scan_unsigned row d : scanDelta row = fine d -> Forall (fun z => 0 <= z) (tallies d).
Proof.
  unfold scanDelta. repeat (case_match; try done). intros (sk & _ & [= <-])%ebind_Ok. unfold tallies. cbn.
  repeat constructor; apply (wrapu_range 64); done.
Qed.

Lemma rows_add_at t m key row d : rows_add t m -> m !! key = Some row -> scanDelta row = fine d -> adds t d.
Proof. intros Hr Hk Hs. split; [by eapply scan_unsigned|]. intros Ht. by eapply Hr. Qed.

End Columns.

(** ** Reading the rows a batch merges into *)

Section Reading.
Context `{Sqlite}.
Implicit Types log : gmap (Z * Z) (list sql_value).

(** What was read is in the log, and everything asked for and there was read. *)
Definition reads log (out : gmap (Z * Z) AggregateDelta) (asked : list (Z * Z)) : Prop :=
  (forall key d, out !! key = Some d -> exists row, log !! key = Some row /\ scanDelta row = fine d) /\
  (forall key, key ∈ asked -> is_Some (log !! key) -> is_Some (out !! key)).

Lemma reads_one log out asked key row d :
  reads log out asked -> log !! key = Some row -> scanDelta row = fine d -> reads log (<[key := d]> out) (asked ++ [key]).
Proof.
  intros [R1 R2] Hl Hs. split.
  - intros k e. rewrite lookup_insert. case_decide; [intros [= <-]; subst; eauto|apply R1].
  - intros k Hk Hin. rewrite lookup_insert. case_decide; [by eauto|]. apply R2; [|done]. set_solver.
Qed.

Lemma reads_none log out asked key : reads log out asked -> log !! key = None -> reads log out (asked ++ [key]).
Proof. intros [R1 R2] Hl. split; [done|]. intros k [Hk|Hk%list_elem_of_singleton]%elem_of_app Hin; [by apply R2|]. subst k. rewrite Hl in Hin. by destruct Hin. Qed.

Lemma scanDeltaRows_reads log window out chunk out' asked :
  reads log out asked -> scanDeltaRows log window out chunk = fine out' -> reads log out' (asked ++ (pair window <$> chunk)).
Proof.
  intros R E. unfold scanDeltaRows in E. revert E.
  apply (exec_foldl_ind (fun done_ o => reads log o (asked ++ (pair window <$> done_)))); [by rewrite app_nil_r|].
  intros done_ id s1 s2 _ R1 E. rewrite fmap_app, app_assoc. destruct (log !! (window, id)) as [row|] eqn:El.
  - apply ebind_Ok in E as (d & Ed & [= <-]). by eapply reads_one.
  - injection E as <-. by apply reads_none.
Qed.

Lemma chunks_all n ids : (length ids <= n)%nat -> mjoin (chunks n ids) = ids.
Proof.
  revert ids. induction n as [|n IH]; intros [|id ids] Hl; try done; [cbn in Hl; lia|].
  cbn [chunks]. cbv zeta. cbn [mjoin list_join]. fold (mjoin (M := list) (A := Z)). rewrite IH, take_drop; [done|].
  rewrite length_drop. unfold mergeReadChunk. cbn [length] in *. lia.
Qed.

Lemma by_window_elem rows w sid : sid ∈ default [] (by_window rows !! w) <-> (w, sid) ∈ row_key <$> rows.
Proof.
  unfold by_window. induction rows as [|r rows IH] using rev_ind; [cbn; by rewrite !elem_of_nil|].
  rewrite foldl_app, fmap_app, elem_of_app, <- IH. cbn [foldl fmap list_fmap]. rewrite lookup_insert, list_elem_of_singleton. unfold row_key.
  case_decide as Hw; cbn [from_option]; [unfold id; subst; rewrite elem_of_app, list_elem_of_singleton; naive_solver|].
  split; [auto|]. by intros [?|[= -> ->]].
Qed.

Lemma readDeltaRows_reads log rows out : readDeltaRows log rows = fine out -> reads log out (row_key <$> rows).
Proof.
  intros E. unfold readDeltaRows in E.
  apply (exec_foldl_ind (fun done_ o => reads log o (done_ ≫= fun p => pair p.1 <$> p.2))) in E.
  - destruct E as [R1 R2]. split; [done|]. intros [w id] Hk. apply R2. apply by_window_elem in Hk.
    destruct (by_window rows !! w) as [ids|] eqn:El; [|by apply elem_of_nil in Hk].
    apply list_elem_of_bind. exists (w, ids). split; [|by apply elem_of_map_to_list]. apply list_elem_of_fmap. by exists id.
  - split; [intros k d; by rewrite lookup_empty|by intros k ?%elem_of_nil].
  - intros done_ [w ids] s1 s2 _ R E1. cbn [fst snd] in E1. rewrite bind_app. cbn [mbind list_bind fst snd]. rewrite app_nil_r.
    rewrite <- (chunks_all (length ids) ids) at 1 by done. revert E1.
    apply (exec_foldl_ind (fun cs o => reads log o ((done_ ≫= fun p => pair p.1 <$> p.2) ++ (pair w <$> mjoin cs)))).
    + cbn. by rewrite app_nil_r.
    + intros cs c t1 t2 _ Rc E2. rewrite join_app, fmap_app, app_assoc. cbn [mjoin list_join]. rewrite app_nil_r. by eapply scanDeltaRows_reads.
Qed.

End Reading.

(** ** Merging a batch into the log *)

Lemma contribution_snoc t rows r key :
  contribution t (rows ++ [r]) key =
  contribution t rows key + (if bool_decide (row_key r = key) then from_option (ta_get t) 0 (dr_Delta r) else 0).
Proof. unfold contribution. rewrite foldr_app. cbn [foldr]. induction rows as [|x rows IH]; cbn [foldr]; [lia|]. rewrite IH. lia. Qed.

Section Merging.
Context `{Sqlite}.
Implicit Types log : gmap (Z * Z) (list sql_value).

Lemma table_tally_insert t log key row k :
  table_tally t (<[key := row]> log) k = if decide (key = k) then row_tally t row else table_tally t log k.
Proof. unfold table_tally. rewrite lookup_insert. by case_decide. Qed.

(** The log after some rows of the batch, beside the deltas in memory. *)
Record merging (t : tally) log0 (keys : list (Z * Z)) (done_ : list DeltaRow) (ex : gmap (Z * Z) (option AggregateDelta)) log : Prop := {
  mg_sum key : eq64 (table_tally t log key) (table_tally t log0 key + contribution t done_ key);
  mg_held key od : ex !! key = Some od -> eq64 (table_tally t log key) (from_option (ta_get t) 0 od);
  mg_fresh key : key ∈ keys -> ex !! key = None -> log !! key = None;
}.

Lemma merge_one_sum t log0 keys done_ st r st' : t ∈ tally_columns -> (forall d, dr_Delta r = Some d -> adds t d) -> row_key r ∈ keys ->
  merging t log0 keys done_ st.1.1 st.1.2 -> merge_one st r = fine st' -> merging t log0 keys (done_ ++ [r]) st'.1.1 st'.1.2.
Proof.
  destruct st as [[ex log] n]. cbn [fst snd]. intros Hc Hadd Hk [M1 M2 M3] E. unfold merge_one in E. fold (row_key r) in E.
  apply ebind_Ok in E as (d & Ed & E). apply ebind_Ok in E as (sk & _ & E). apply ebind_Ok in E as (row & Er & [= <-]). cbn [fst snd].
  assert (eq64 (row_tally t row) (table_tally t log (row_key r) + from_option (ta_get t) 0 (dr_Delta r))) as Hnew.
  { rewrite (row_tally_put t d sk row Hc Er). destruct (ex !! row_key r) as [[cur|]|] eqn:Ex.
    - apply ebind_Ok in Ed as (m & Em & [= <-]). rewrite (M2 _ _ Ex). cbn [from_option].
      destruct (DeltaMerge cur (dr_Delta r)) as [m'|] eqn:Eg; [|done]. cbn in Em. injection Em as <-.
      destruct (dr_Delta r) as [o|]; [by apply tally_merge; [|apply Hadd|]|]. injection Eg as <-. apply eq64_eq. cbn. lia.
    - injection Ed as <-. by rewrite (M2 _ _ Ex).
    - injection Ed as <-. apply eq64_eq. unfold table_tally. by rewrite (M3 _ Hk Ex). }
  constructor.
  - intros key. rewrite table_tally_insert, contribution_snoc. destruct (decide (row_key r = key)) as [<-|Hne].
    + rewrite bool_decide_eq_true_2 by done. rewrite Hnew, M1. apply eq64_eq. lia.
    + rewrite bool_decide_eq_false_2 by done. rewrite M1. apply eq64_eq. lia.
  - intros key od. rewrite lookup_insert, table_tally_insert. case_decide; [|apply M2]. intros [= <-]. by apply row_tally_put with sk.
  - intros key Hin. rewrite !lookup_insert. case_decide; [done|]. by apply M3.
Qed.

Lemma mergeDeltas_sum t log rows log' n key : t ∈ tally_columns -> (forall r d, r ∈ rows -> dr_Delta r = Some d -> adds t d) -> mergeDeltas log rows = fine (log', n) ->
  eq64 (table_tally t log' key) (table_tally t log key + contribution t rows key).
Proof.
  intros Hc Hadd E. unfold mergeDeltas in E. destruct (length rows =? 0)%nat eqn:El.
  { injection E as <- <-. apply Nat.eqb_eq, nil_length_inv in El as ->. apply eq64_eq. cbn. lia. }
  apply ebind_Ok in E as (ex & Ex & E). apply ebind_Ok in E as ([[ex' l'] n'] & Em & [= <- <-]).
  apply readDeltaRows_reads in Ex as [R1 R2].
  assert (merging t log (row_key <$> rows) [] (Some <$> ex) log) as M0.
  { constructor.
    - intros k. apply eq64_eq. cbn. lia.
    - intros k od. rewrite lookup_fmap. intros (d & Hd & ->)%fmap_Some. destruct (R1 _ _ Hd) as (row & Hr & Hs).
      apply eq64_eq. unfold table_tally. rewrite Hr. cbn [from_option]. by rewrite (scanDelta_tally t row d).
    - intros k Hk Hn. rewrite lookup_fmap in Hn. apply fmap_None in Hn. destruct (log !! k) as [row|] eqn:Ek; [|done].
      destruct (R2 k Hk) as [d Hd]; [by rewrite Ek|]. by rewrite Hd in Hn. }
  assert (merging t log (row_key <$> rows) rows (ex', l', n').1.1 (ex', l', n').1.2) as [M _ _]; [|apply M].
  revert Em. apply (exec_foldl_ind (fun done_ st => merging t log (row_key <$> rows) done_ st.1.1 st.1.2)); [done|].
  intros done_ r s1 s2 Hr. apply merge_one_sum; [done|intros d; by apply Hadd|]. by apply list_elem_of_fmap_2.
Qed.

End Merging.

(** ** Tables listed in order *)

Lemma elem_of_ordered m key : key ∈ ordered m <-> is_Some (m !! key).
Proof. unfold ordered. by rewrite merge_sort_Permutation, elem_of_elements, elem_of_dom. Qed.

Lemma elem_of_series_in m window sid : sid ∈ series_in m window <-> is_Some (m !! (window, sid)).
Proof.
  unfold series_in. rewrite list_elem_of_fmap. split.
  - intros ([w i] & -> & [Hw Hi]%list_elem_of_filter). cbn in Hw. subst w. by apply elem_of_ordered.
  - intros Hs. exists (window, sid). split; [done|]. apply list_elem_of_filter. split; [done|]. by apply elem_of_ordered.
Qed.

Lemma NoDup_series_in m window : NoDup (series_in m window).
Proof.
  unfold series_in. apply NoDup_fmap_2_strong.
  - intros [w i] [w' i'] [Hw _]%list_elem_of_filter [Hw' _]%list_elem_of_filter E. cbn in *. by subst.
  - apply NoDup_filter. unfold ordered. rewrite merge_sort_Permutation. apply NoDup_elements.
Qed.

Lemma elem_of_windows_in m P w : w ∈ windows_in m P <-> P w = true /\ exists sid, is_Some (m !! (w, sid)).
Proof.
  unfold windows_in. rewrite merge_sort_Permutation, elem_of_elements, elem_of_filter, elem_of_map. apply and_iff_compat_l. split.
  - intros ([w' sid] & -> & Hk%elem_of_dom). by exists sid.
  - intros (sid & Hs). exists (w, sid). split; [done|]. by apply elem_of_dom.
Qed.

Lemma delete_window_lookup m window key : delete_window m window !! key = if decide (key.1 = window) then None else m !! key.
Proof.
  unfold delete_window. case_decide as Hw.
  - apply map_lookup_filter_None. right. intros x _. cbn. tauto.
  - destruct (m !! key) as [x|] eqn:E; [apply map_lookup_filter_Some; by cbn|apply map_lookup_filter_None; by left].
Qed.

(** ** Finalizing a window *)

Lemma table_tally_delete t m window key :
  table_tally t (delete_window m window) key = if decide (key.1 = window) then 0 else table_tally t m key.
Proof. unfold table_tally. rewrite delete_window_lookup. by case_decide. Qed.

Section Finalizing.
Context `{Sqlite}.
Implicit Types log buckets : gmap (Z * Z) (list sql_value).

(** The part of the log that a finalization adds to the buckets. *)
Definition moved (t : tally) log (window : Z) (ids : list Z) (key : Z * Z) : Z :=
  if bool_decide (key.1 = window /\ key.2 ∈ ids) then table_tally t log key else 0.

Lemma moved_snoc t log window ids sid key : sid ∉ ids ->
  moved t log window (ids ++ [sid]) key = moved t log window ids key + (if bool_decide ((window, sid) = key) then table_tally t log key else 0).
Proof.
  intros Hn. unfold moved. destruct key as [w i]. cbn [fst snd]. destruct (decide (w = window)) as [->|Hw]; destruct (decide (i = sid)) as [->|Hi].
  - rewrite bool_decide_eq_true_2 by set_solver. rewrite bool_decide_eq_false_2 by tauto. by rewrite bool_decide_eq_true_2.
  - rewrite (bool_decide_eq_false_2 ((window, sid) = _)) by congruence. rewrite (bool_decide_ext _ (window = window /\ i ∈ ids)) by set_solver. lia.
  - rewrite !bool_decide_eq_false_2 by (tauto || congruence). lia.
  - rewrite !bool_decide_eq_false_2 by (tauto || congruence). lia.
Qed.

Lemma moved_all t log window key : moved t log window (series_in log window) key = if decide (key.1 = window) then table_tally t log key else 0.
Proof.
  unfold moved. destruct key as [w i]. cbn [fst snd]. case_decide as Hw; [subst w|by rewrite bool_decide_eq_false_2 by tauto].
  destruct (log !! (window, i)) as [row|] eqn:E.
  - rewrite bool_decide_eq_true_2; [done|]. split; [done|]. apply elem_of_series_in. by rewrite E.
  - unfold table_tally. rewrite E. by case_bool_decide.
Qed.

Record materialized (t : tally) log buckets (window : Z) (rewrite : bool) (ids : list Z) (b : gmap (Z * Z) (list sql_value)) (stats : FinalizeStats) : Prop := {
  mt_rows : fs_DeltaRows stats = Z.of_nat (length ids);
  mt_copy : rewrite = false -> b = buckets;
  mt_sum key : rewrite = true -> eq64 (table_tally t b key) (table_tally t buckets key + moved t log window ids key);
  mt_other key : key.1 <> window -> b !! key = buckets !! key;
}.

Lemma materialize_step t log buckets window rewrite ids sid b stats b' stats' : t ∈ tally_columns -> rows_add t log -> sid ∉ ids -> is_Some (log !! (window, sid)) ->
  materialized t log buckets window rewrite ids b stats ->
  materialize_one log window rewrite (b, stats) sid = fine (b', stats') ->
  materialized t log buckets window rewrite (ids ++ [sid]) b' stats'.
Proof.
  intros Hc Hadd Hn [row Hrow] [M1 M2 M3 M4] E. unfold materialize_one in E. rewrite Hrow in E.
  apply ebind_Ok in E as (d & Ed & E). destruct rewrite; cbn [negb] in E.
  - apply ebind_Ok in E as (m & Em & E). apply ebind_Ok in E as (sk & _ & E). apply ebind_Ok in E as (r & Er & [= <- <-]).
    assert (eq64 (row_tally t r) (table_tally t b (window, sid) + table_tally t log (window, sid))) as Hr.
    { rewrite (row_tally_put t _ _ _ Hc Er). cbn [from_option].
      assert (table_tally t log (window, sid) = ta_get t d) as -> by (unfold table_tally; rewrite Hrow; by rewrite (scanDelta_tally t row d)).
      unfold table_tally. destruct (b !! (window, sid)) as [br|] eqn:Eb; cbn [from_option].
      - apply ebind_Ok in Em as (e & Ee & Em). rewrite <- (scanDelta_tally t br e) by done. apply bind_Some in Em as (m' & Em & [= <-]).
        apply tally_merge; [done|by eapply rows_add_at|done].
      - injection Em as <-. by apply eq64_eq. }
    constructor; [cbn; rewrite M1, length_app; cbn; lia|done| |].
    + intros key _. rewrite table_tally_insert, moved_snoc by done. case_decide as Hk.
      * subst key. rewrite bool_decide_eq_true_2 by done. rewrite Hr, (M3 _ eq_refl). apply eq64_eq. lia.
      * rewrite bool_decide_eq_false_2 by done. rewrite (M3 _ eq_refl). apply eq64_eq. lia.
    + intros key Hk. rewrite lookup_insert_ne by (intros <-; done). by apply M4.
  - injection E as <- <-. constructor; [cbn; rewrite M1, length_app; cbn; lia|done|done|done].
Qed.

(** The copy of a window that had no buckets. *)
Lemma copy_window_lookup log buckets window key : series_in buckets window = [] ->
  copy_window log buckets window !! key = if decide (key.1 = window) then log !! key else buckets !! key.
Proof.
  intros He. unfold copy_window. destruct key as [w i]. cbn [fst].
  enough (forall ids b, foldl (fun b sid => match log !! (window, sid) with Some row => <[(window, sid) := row]> b | None => b end) b ids !! (w, i) =
    if bool_decide (w = window /\ i ∈ ids /\ is_Some (log !! (w, i))) then log !! (w, i) else b !! (w, i)) as ->.
  { case_decide as Hw.
    - subst w. destruct (log !! (window, i)) as [row|] eqn:El.
      + rewrite bool_decide_eq_true_2; [done|]. split_and!; [done| |by eauto]. apply elem_of_series_in. by rewrite El.
      + rewrite bool_decide_eq_false_2 by (intros (_ & _ & []%is_Some_None)). destruct (buckets !! (window, i)) eqn:Eb; [|done].
        assert (i ∈ series_in buckets window) as Hi by (apply elem_of_series_in; by rewrite Eb). rewrite He in Hi. by apply elem_of_nil in Hi.
    - by rewrite bool_decide_eq_false_2 by tauto. }
  intros ids. induction ids as [|sid ids IH]; intros b; cbn [foldl]; [by rewrite bool_decide_eq_false_2 by set_solver|]. rewrite IH.
  destruct (decide (w = window /\ i ∈ ids /\ is_Some (log !! (w, i)))) as [Hd|Hd].
  - by rewrite !bool_decide_eq_true_2 by set_solver.
  - rewrite bool_decide_eq_false_2 by done. destruct (decide ((window, sid) = (w, i))) as [[= -> ->]|Hne].
    + destruct (log !! (w, i)) as [row|] eqn:El.
      * rewrite bool_decide_eq_true_2 by (split_and!; [done|by left|by eauto]). by rewrite lookup_insert_eq.
      * by rewrite bool_decide_eq_false_2 by (intros (_ & _ & []%is_Some_None)).
    + rewrite bool_decide_eq_false_2; [by destruct (log !! (window, sid)); rewrite ?lookup_insert_ne|].
      intros (-> & [->|?]%elem_of_cons & ?); [done|]. by apply Hd.
Qed.

Lemma materializeWindow_spec t f window b stats : t ∈ tally_columns -> rows_add t (sf_log f) -> materializeWindow f window = fine (b, stats) ->
  fs_DeltaRows stats = rows_in (sf_log f) window /\
  (forall key, key.1 <> window -> b !! key = sf_buckets f !! key) /\
  (forall key, eq64 (table_tally t b key)
    (table_tally t (sf_buckets f) key + if decide (key.1 = window) then table_tally t (sf_log f) key else 0)).
Proof.
  intros Hc Hadd E. unfold materializeWindow in E. set (rewrite := negb (length (series_in (sf_buckets f) window) =? 0)%nat) in *.
  apply ebind_Ok in E as ([b1 st1] & E1 & E).
  assert (materialized t (sf_log f) (sf_buckets f) window rewrite (series_in (sf_log f) window) b1 st1) as [M1 M2 M3 M4].
  { change b1 with (b1, st1).1. change st1 with (b1, st1).2. revert E1.
    apply (exec_foldl_prefix (fun ids st => materialized t (sf_log f) (sf_buckets f) window rewrite ids st.1 st.2)).
    - constructor; [done|done| |done]. intros key _. apply eq64_eq. unfold moved. rewrite bool_decide_eq_false_2 by set_solver. cbn. lia.
    - intros ids sid rest [ba sa] [bb sb] El M Eo. cbn [fst snd] in *.
      pose proof (NoDup_series_in (sf_log f) window) as Hnd. rewrite El in Hnd. apply NoDup_app in Hnd as (_ & Hnd & _).
      eapply materialize_step; [done|done| | |done|done]; [intros Hin; by destruct (Hnd sid Hin); left|].
      apply elem_of_series_in. rewrite El. set_solver. }
  destruct rewrite eqn:Er; cbn [negb andb] in E.
  - injection E as <- <-. split_and!; [done|done|]. intros key. rewrite (M3 _ eq_refl), moved_all. reflexivity.
  - specialize (M2 eq_refl). subst b1. unfold rewrite in Er. apply negb_false_iff, Nat.eqb_eq, nil_length_inv in Er.
    assert (forall w i, w = window -> table_tally t (sf_buckets f) (w, i) = 0) as Hz.
    { intros w i ->. unfold table_tally. destruct (sf_buckets f !! (window, i)) eqn:Eb; [|done].
      assert (i ∈ series_in (sf_buckets f) window) as Hi by (apply elem_of_series_in; by rewrite Eb). rewrite Er in Hi. by apply elem_of_nil in Hi. }
    destruct (0 <? fs_DeltaRows st1) eqn:E0; z_bool.
    + destruct (_ =? fs_DeltaRows st1); cbn [negb] in E; [|done]. injection E as <- <-. split_and!; [done| |].
      * intros key Hk. rewrite copy_window_lookup by done. by case_decide.
      * intros [w i]. apply eq64_eq. unfold table_tally at 1. rewrite copy_window_lookup by done. cbn [fst].
        case_decide as Hw; [rewrite Hz by done; unfold table_tally; lia|unfold table_tally; lia].
    + injection E as <- <-. split_and!; [done|done|]. intros [w i]. apply eq64_eq. case_decide as Hw; [cbn [fst] in Hw; subst w|lia].
      assert (series_in (sf_log f) window = []) as Hl by (apply nil_length_inv; lia). unfold table_tally at 3.
      destruct (sf_log f !! (window, i)) eqn:Eb; [|cbn; lia].
      assert (i ∈ series_in (sf_log f) window) as Hi by (apply elem_of_series_in; by rewrite Eb). rewrite Hl in Hi. by apply elem_of_nil in Hi.
Qed.

(** Everything but the log and the buckets. *)
Definition other_tables (f : StoreFile) :=
  (sf_series f, sf_baselines f, sf_dict f, sf_templates f, sf_dictWM f, sf_seriesWM f).

Lemma finalized_window io f window f' err t : t ∈ tally_columns -> rows_add t (sf_log f) ->
  FinalizeWindow io f window = Some (f', err) ->
  match err with
  | Some _ => f' = f
  | None =>
      (forall sid, sf_log f' !! (window, sid) = None) /\
      (forall key, eq64 (table_tally t (sf_buckets f') key + table_tally t (sf_log f') key)
        (table_tally t (sf_buckets f) key + table_tally t (sf_log f) key)) /\
      (forall key, key.1 <> window -> sf_buckets f' !! key = sf_buckets f !! key /\ sf_log f' !! key = sf_log f !! key) /\
      other_tables f' = other_tables f
  end.
Proof.
  intros Hc Hadd. unfold FinalizeWindow. destruct (finalizeWindow io f window) as [[[f1 st]|e]|] eqn:E; [|by intros [= <- <-]|done].
  intros [= <- <-]. unfold finalizeWindow in E. apply ebind_Ok in E as ([b stats] & Em & E).
  destruct (materializeWindow_spec t _ _ _ _ Hc Hadd Em) as (M1 & M2 & M3). destruct (fs_DeltaRows stats =? 0) eqn:E0; z_bool.
  - destruct io; [done|]. injection E as <- <-. split_and!; try done. intros sid. destruct (sf_log f !! (window, sid)) eqn:El; [|done].
    assert (sid ∈ series_in (sf_log f) window) as Hi by (apply elem_of_series_in; by rewrite El).
    unfold rows_in in M1. destruct (series_in (sf_log f) window); [by apply elem_of_nil in Hi|cbn [length] in M1; lia].
  - destruct io; [done|]. injection E as <- <-. cbn [sf_log sf_buckets set_windows]. split_and!; try done.
    + intros sid. rewrite delete_window_lookup. by case_decide.
    + intros key. rewrite M3, table_tally_delete. case_decide; apply eq64_eq; lia.
    + intros key Hk. rewrite delete_window_lookup. split; [by apply M2|by case_decide].
Qed.


Lemma FinalizeWindow_other io f window f' err key : FinalizeWindow io f window = Some (f', err) -> key.1 <> window ->
  sf_buckets f' !! key = sf_buckets f !! key /\ sf_log f' !! key = sf_log f !! key.
Proof.
  intros E Hk. pose proof (finalized_window io f window f' err (mkTally (fun d => d_Count (d_counts d)) 0) ltac:(by left) ltac:(done) E) as Hs.
  destruct err; [by subst|]. by apply Hs.
Qed.

(** A window whose rows all decode and that was not finalized before can be
    finalized. *)
Lemma finalize_succeeds f window :
  (forall sid row, sf_log f !! (window, sid) = Some row -> exists d, scanDelta row = fine d) ->
  series_in (sf_buckets f) window = [] -> exists f', FinalizeWindow false f window = Some (f', None).
Proof.
  intros Hd Hb. unfold FinalizeWindow, finalizeWindow, materializeWindow. rewrite Hb. cbn [length Nat.eqb negb].
  destruct (exec_foldl_total (fun _ => True) (materialize_one (sf_log f) window false) (sf_buckets f, mkFinalizeStats 0 0) (series_in (sf_log f) window))
    as ([b st] & E & _); [done| |].
  - intros [b st] sid Hs%elem_of_series_in _. destruct Hs as [row Hr]. destruct (Hd _ _ Hr) as [d Es].
    unfold materialize_one. rewrite Hr, Es. cbn. eauto.
  - rewrite E. cbn [ebind fine]. destruct (0 <? fs_DeltaRows st) eqn:E0; cbn [andb]; [|cbn [ebind fine]; destruct (fs_DeltaRows st =? 0); eauto].
    assert (fs_DeltaRows st = Z.of_nat (length (series_in (sf_log f) window))) as ->.
    { change st with (b, st).2. revert E.
      apply (exec_foldl_ind (fun ids s => fs_DeltaRows s.2 = Z.of_nat (length ids))); [done|].
      intros ids sid [b1 s1] [b2 s2] [row Hr]%elem_of_series_in Hi Eo. unfold materialize_one in Eo. rewrite Hr in Eo.
      apply ebind_Ok in Eo as (d & _ & [= <- <-]). cbn [snd fs_DeltaRows] in *. rewrite Hi, length_app. cbn. lia. }
    rewrite Z.eqb_refl. cbn [negb fine ebind fs_DeltaRows].
    destruct (Z.of_nat (length (series_in (sf_log f) window)) =? 0); eauto.
Qed.

End Finalizing.

(** ** A group commit *)

Section Committing.
Context `{Sqlite}.

Lemma insertDicts_spec rows : forall db db', insertDicts db rows = Some db' ->
  db ⊆ db' /\ forall r, r ∈ rows -> db' !! de_ID r = Some r.
Proof.
  induction rows as [|r rows IH]; intros db db'; cbn [insertDicts].
  - intros [= <-]. split; [done|]. by intros r ?%elem_of_nil.
  - destruct (conflicts db r) eqn:Ec; [done|]. intros E. destruct (IH _ _ E) as [S1 S2]. unfold conflicts in Ec.
    apply orb_false_iff in Ec as [Ec _]. apply orb_false_iff in Ec as [_ Ec]. apply bool_decide_eq_false in Ec.
    assert (db !! de_ID r = None) as Hn by (destruct (db !! de_ID r) eqn:El; [by destruct Ec|done]). split.
    + etrans; [by apply insert_subseteq|done].
    + intros x [->|Hx]%elem_of_cons; [|by apply S2]. eapply lookup_weaken; [|done]. apply lookup_insert_eq.
Qed.

Lemma insertSeries_spec rows db db' : insertSeries db rows = fine db' ->
  db ⊆ db' /\ forall r, r ∈ rows -> db' !! si_ID r = Some (seriesArgs (si_Key r)).
Proof.
  unfold insertSeries. apply (exec_foldl_ind (fun done_ db' => db ⊆ db' /\ forall r, r ∈ done_ -> db' !! si_ID r = Some (seriesArgs (si_Key r)))).
  - split; [done|]. by intros r ?%elem_of_nil.
  - intros done_ r s1 s2 _ [S1 S2]. destruct (bool_decide (is_Some (s1 !! si_ID r))) eqn:Ec; [done|]. cbn [orb].
    destruct (existsb _ _); [done|]. intros [= <-]. apply bool_decide_eq_false in Ec.
    assert (s1 !! si_ID r = None) as Hn by (destruct (s1 !! si_ID r) eqn:El; [by destruct Ec|done]).
    assert (s1 ⊆ <[si_ID r := seriesArgs (si_Key r)]> s1) as Hs by (by apply insert_subseteq). split; [by etrans|].
    intros x [Hx| ->%list_elem_of_singleton]%elem_of_app; [|apply lookup_insert_eq]. eapply lookup_weaken; [by apply S2|done].
Qed.

Lemma one_past_spec ids x : x ∈ ids -> x < one_past ids.
Proof.
  unfold one_past. assert (forall acc, acc <= foldl (fun acc id => if acc <? id + 1 then id + 1 else acc) acc ids /\
    (x ∈ ids -> x < foldl (fun acc id => if acc <? id + 1 then id + 1 else acc) acc ids)) as HE; [|intros Hx; by apply HE].
  induction ids as [|y ids IH]; intros acc; cbn [foldl]; [split; [done|by intros ?%elem_of_nil]|].
  destruct (IH (if acc <? y + 1 then y + 1 else acc)) as [I1 I2]. destruct (acc <? y + 1) eqn:E; z_bool; (split; [lia|intros [->|Hx]%elem_of_cons; [lia|auto]]).
Qed.

Lemma bump_spec wm v : wm <= bump wm v /\ (0 <= wm -> v <= bump wm v).
Proof. unfold bump. destruct (v <=? 0) eqn:E1; destruct (wm <? v) eqn:E2; z_bool; lia. Qed.

(** C7: a group commit is atomic and adds.  When it fails the file is as it
    was.  When it succeeds, for every window, series and each of the ten
    counters of a delta the log has grown by what the batch's deltas carry for
    them (modulo 2^64), however often a key occurs in the batch and whatever an
    earlier commit left behind; the buckets are untouched; every dictionary and
    series row of the batch is there beside the old ones; and the watermarks,
    which never fall, cover every dictionary, template and series ID of the
    batch.  (The batch's counters are unsigned; for the histogram tail count
    they have a tail only beside a histogram, as a merge skips an empty
    histogram with its tail.) *)
Theorem CommitGroup_spec io f b f' err t : t ∈ tally_columns -> (forall r d, r ∈ gb_Deltas b -> dr_Delta r = Some d -> adds t d) ->
  CommitGroup io f b = Some (f', err) ->
  match err with
  | Some _ => f' = f
  | None =>
      (forall key, eq64 (table_tally t (sf_log f') key) (table_tally t (sf_log f) key + contribution t (gb_Deltas b) key)) /\
      sf_buckets f' = sf_buckets f /\
      sf_series f ⊆ sf_series f' /\ (forall r, r ∈ gb_Series b -> sf_series f' !! si_ID r = Some (seriesArgs (si_Key r))) /\
      sf_dict f ⊆ sf_dict f' /\ (forall r, r ∈ gb_Dicts b -> sf_dict f' !! de_ID r = Some r) /\
      sf_dictWM f <= sf_dictWM f' /\ sf_seriesWM f <= sf_seriesWM f' /\
      (0 <= sf_dictWM f -> (forall r, r ∈ gb_Dicts b -> de_ID r < sf_dictWM f') /\ (forall r, r ∈ gb_Templates b -> tr_ID r < sf_dictWM f')) /\
      (0 <= sf_seriesWM f -> forall r, r ∈ gb_Series b -> si_ID r < sf_seriesWM f')
  end.
Proof.
  intros Hc Hadd. unfold CommitGroup. destruct (Empty b) eqn:Ee.
  { intros [= <- <-]. unfold Empty in Ee. rewrite !andb_true_iff, !Nat.eqb_eq in Ee. destruct Ee as [[[[->%nil_length_inv ->%nil_length_inv] ->%nil_length_inv] _] ->%nil_length_inv].
    split_and!; try done; try (by intros; set_solver). intros key. apply eq64_eq. cbn. lia. }
  destruct (commitGroup io f b) as [[[f1 n]|e]|] eqn:E; [|by intros [= <- <-]|done]. intros [= <- <-]. unfold commitGroup in E.
  apply ebind_Ok in E as (dict & Ed & E). apply ebind_Ok in E as (series & Es & E). apply ebind_Ok in E as ([log n'] & El & E).
  apply ebind_Ok in E as (bl & _ & E). destruct io; [done|]. injection E as <- <-.
  destruct (insertDicts _ _) as [d|] eqn:Edd; [|done]. injection Ed as ->. apply insertDicts_spec in Edd as [D1 D2]. apply insertSeries_spec in Es as [S1 S2].
  destruct (bump_spec (sf_dictWM f) (one_past ((de_ID <$> gb_Dicts b) ++ (tr_ID <$> gb_Templates b)))) as [B1 B2].
  destruct (bump_spec (sf_seriesWM f) (one_past (si_ID <$> gb_Series b))) as [B3 B4].
  cbn [bumpWatermarks sf_dict sf_series sf_log sf_buckets sf_dictWM sf_seriesWM]. split_and!; try done.
  - intros key. by eapply mergeDeltas_sum.
  - intros H0'. split; (intros r Hr; eapply Z.lt_le_trans; [|by apply B2]; apply one_past_spec, elem_of_app).
    + left. by apply list_elem_of_fmap_2.
    + right. by apply list_elem_of_fmap_2.
  - intros H0' r Hr. eapply Z.lt_le_trans; [|by apply B4]. apply one_past_spec. by apply list_elem_of_fmap_2.
Qed.

End Committing.

(** ** A file with two commits *)

Definition demo_count : tally := mkTally (fun d => d_Count (d_counts d)) 0.
Definition demo_stored_key : SeriesKey := mkSeriesKey 1 2 3 0 SignalLog 0 0 0 0.
Definition demo_stored_delta : AggregateDelta := logs_delta [(t_of_unix 600, false); (t_of_unix 601, true)].
Definition demo_group : GroupBatch :=
  mkGroup [mkDictEntry 5 0 0 "acme"] [mkSeriesInfo 7 demo_stored_key]
    [mkDeltaRow 7 600 (Some demo_stored_delta); mkDeltaRow 7 600 (Some demo_stored_delta)] [] [].
Definition demo_file : StoreFile := (default (emptyFile, None) (CommitGroup (H := SqliteFile) false emptyFile demo_group)).1.

Lemma CommitGroup_spec_witness :
  eq64 (table_tally demo_count (sf_log demo_file) (600, 7)) 4 /\ sf_dictWM emptyFile <= sf_dictWM demo_file.
Proof.
  destruct (CommitGroup_spec (H := SqliteFile) false emptyFile demo_group demo_file None demo_count) as (Hs & _ & _ & _ & _ & _ & Hw & _);
    [by left|intros r d Hr Hd; split; [|done]|by vm_compute|]; [|split; [|exact Hw]].
  { cbn [demo_group gb_Deltas] in Hr. rewrite !elem_of_cons, elem_of_nil in Hr. destruct Hr as [->|[->|[]]]; injection Hd as <-; by repeat constructor. } etrans; [apply (Hs (600, 7))|by vm_compute].
Defined.

