(* ===== verification/StoreErrors.v ===== *)
(** * StoreErrors: a row that does not decode

    The store reads a row back before it merges, finalizes or replays it.  A
    row whose sketch does not decode therefore refuses every one of these for
    its window, and no other operation but retention removes it. *)
From stdpp Require Import sorting.
From S2P Require Import Prelude Float64 SeriesKey Dict Registrar Identity Gc.
From S2P Require Import Sketch SketchCodec Histogram Delta Baseline StoreRows StoreTables StoreFacts.
#[local] Open Scope Z_scope.

(** ** Reading never panics *)

Definition calm {A} (m : exec A) : Prop := m <> None.

Lemma calm_bind {A B} (m : exec A) (k : A -> exec B) : calm m -> (forall a, calm (k a)) -> calm (ebind m k).
Proof. destruct m as [[a|e]|]; cbn; intros Hm Hk; [apply Hk|done|done]. Qed.

Lemma calm_foldl {S A} (f : S -> A -> exec S) l : (forall s x, calm (f s x)) -> forall s, calm (exec_foldl f s l).
Proof.
  intros Hf. induction l as [|x l IH]; intros s; [done|]. rewrite exec_foldl_cons. by apply calm_bind.
Qed.

Lemma calm_scan row : calm (scanDelta row).
Proof.
  unfold scanDelta. repeat (case_match; try done). apply calm_bind; [|done]. unfold scanSketch. repeat (case_match; try done).
  destruct (decode_total NewSketch b (wf_empty_sketch _)) as (r & _ & Er). congruence.
Qed.

Lemma calm_error {A} (m : exec A) : calm m -> (forall a, m <> fine a) -> exists e, m = oops e.
Proof. destruct m as [[a|e]|]; [|by exists e|done]. intros _ Hm. by destruct (Hm a). Qed.

Section Errors.
Context `{Sqlite}.

Lemma calm_read log rows : calm (readDeltaRows log rows).
Proof.
  apply calm_foldl. intros out p. apply calm_foldl. intros o c. apply calm_foldl. intros o' sid.
  destruct (log !! _) as [row|]; [|done]. apply calm_bind; [apply calm_scan|done].
Qed.

Lemma calm_insert db rows : calm (insertSeries db rows).
Proof. apply calm_foldl. intros s r. by destruct (_ || _). Qed.

(** A merge leaves the rows it does not name. *)
Lemma mergeDeltas_other log rows log' n key : mergeDeltas log rows = fine (log', n) -> key ∉ row_key <$> rows -> log' !! key = log !! key.
Proof.
  unfold mergeDeltas. destruct (length rows =? 0)%nat; [by intros [= <- <-]|].
  intros (ex & _ & ([[ex' l'] n'] & Em & [= <- <-])%ebind_Ok)%ebind_Ok Hk. change l' with (ex', l', n').1.2. revert Em.
  apply (exec_foldl_ind (fun _ st => st.1.2 !! key = log !! key)); [done|].
  intros done_ r [[e1 l1] n1] [[e2 l2] n2] Hr Hl E. cbn [fst snd] in *. unfold merge_one in E.
  apply ebind_Ok in E as (d & _ & E). apply ebind_Ok in E as (sk & _ & E). apply ebind_Ok in E as (row & _ & [= _ <- _]).
  rewrite lookup_insert_ne; [done|]. intros Ek. apply Hk, list_elem_of_fmap. by exists r.
Qed.

Section Undecodable.
Variables (window sid : Z) (bad : list sql_value).
Hypothesis Hbad : forall d, scanDelta bad <> fine d.
Implicit Types f : StoreFile.

Definition holds_bad f : Prop := sf_log f !! (window, sid) = Some bad.

Definition decodes (m : gmap (Z * Z) (list sql_value)) (key : Z * Z) : Prop := forall row, m !! key = Some row -> exists d, scanDelta row = fine d.

Lemma merge_refused f rows : holds_bad f -> (exists r, r ∈ rows /\ row_key r = (window, sid)) -> exists e, mergeDeltas (sf_log f) rows = oops e.
Proof.
  intros Hf (r & Hr & Hk). unfold mergeDeltas.
  destruct (length rows =? 0)%nat eqn:El; [apply Nat.eqb_eq, nil_length_inv in El; subst; by apply elem_of_nil in Hr|].
  destruct (calm_error (readDeltaRows (sf_log f) rows)) as [e ->]; [apply calm_read| |by exists e].
  intros out [R1 R2]%readDeltaRows_reads. destruct (R2 (window, sid)) as [d Hd]; [|by rewrite Hf|].
  - apply list_elem_of_fmap. by exists r.
  - destruct (R1 _ _ Hd) as (row & Hrow & Hs). rewrite Hf in Hrow. injection Hrow as <-. by destruct (Hbad d).
Qed.

Lemma commit_refused io f b : holds_bad f -> (exists r, r ∈ gb_Deltas b /\ row_key r = (window, sid)) ->
  exists e, CommitGroup io f b = Some (f, Some e).
Proof.
  intros Hf Hr. destruct (merge_refused f _ Hf Hr) as [e Em]. unfold CommitGroup. assert (Empty b = false) as ->.
  { destruct Hr as (r & Hr & _). unfold Empty. destruct (gb_Deltas b); [by apply elem_of_nil in Hr|]. cbn. by rewrite andb_false_r. }
  unfold commitGroup. rewrite Em. destruct (insertDicts _ _); cbn [constraint fine oops ebind]; [|by eexists].
  pose proof (calm_insert (sf_series f) (gb_Series b)) as Hc. destruct (insertSeries _ _) as [[?|?]|]; [by eexists|by eexists|done].
Qed.

Lemma finalize_refused io f f' : holds_bad f -> FinalizeWindow io f window <> Some (f', None).
Proof.
  intros Hf. unfold FinalizeWindow. destruct (finalizeWindow io f window) as [[[f1 st]|e]|] eqn:E; [|done..]. exfalso.
  unfold finalizeWindow in E. apply ebind_Ok in E as ([b stats] & E & _). unfold materializeWindow in E. apply ebind_Ok in E as (st1 & E & _).
  apply (exec_foldl_ind (fun ids _ => Forall (fun x => decodes (sf_log f) (window, x)) ids)) in E; [|done|].
  - rewrite Forall_forall in E. destruct (E sid) with bad as [d Hd]; [|done|by destruct (Hbad d)].
    apply elem_of_series_in. by rewrite Hf.
  - intros ids x [b1 s1] s2 _ IH Eo. apply Forall_app. split; [done|]. apply Forall_singleton. intros row Hrow. unfold materialize_one in Eo.
    rewrite Hrow in Eo. apply ebind_Ok in Eo as (d & Ed & _). by exists d.
Qed.

Lemma replay_refused f since : holds_bad f -> since <= window -> exists e, ReplayMutable f since = oops e.
Proof.
  intros Hf Hs. apply calm_error; unfold ReplayMutable, scan_rows.
  - apply calm_foldl. intros s x. destruct (sf_log f !! x); [|done]. apply calm_bind; [apply calm_scan|done].
  - intros rows E. apply (exec_foldl_ind (fun keys _ => Forall (decodes (sf_log f)) keys)) in E; [|done|].
    + rewrite Forall_forall in E. destruct (E (window, sid)) with bad as [d Hd]; [|done|by destruct (Hbad d)].
      apply list_elem_of_filter. split; [done|]. apply elem_of_ordered. by rewrite Hf.
    + intros keys x s1 s2 _ IH Eo. apply Forall_app. split; [done|]. apply Forall_singleton. intros row Hrow.
      rewrite Hrow in Eo. apply ebind_Ok in Eo as (d & Ed & _). by exists d.
Qed.

(** What the writer, the scheduler and the miner do to the file. *)
Inductive store_step : StoreFile -> StoreFile -> Prop :=
| ss_commit io f b f' err : CommitGroup io f b = Some (f', err) -> store_step f f'
| ss_finalize io f w f' err : FinalizeWindow io f w = Some (f', err) -> store_step f f'
| ss_stats io f rows : store_step f (SaveTemplateStats io f rows).1.

Lemma store_step_bad f f' : holds_bad f -> store_step f f' -> holds_bad f'.
Proof.
  intros Hf Hs. destruct Hs as [io f b f' err E|io f w f' err E|io f rows].
  - destruct (decide ((window, sid) ∈ row_key <$> gb_Deltas b)) as [Hin|Hout].
    { apply list_elem_of_fmap in Hin as (r & Hk & Hr). destruct (commit_refused io f b Hf) as [e Er]; [by exists r|]. rewrite Er in E. by injection E as <- _. }
    unfold CommitGroup in E. destruct (Empty b); [by injection E as <- _|]. destruct (commitGroup io f b) as [[[f1 n]|e]|] eqn:Ec; [|by injection E as <- _|done].
    injection E as <- _. unfold commitGroup in Ec. apply ebind_Ok in Ec as (dict & _ & Ec). apply ebind_Ok in Ec as (series & _ & Ec).
    apply ebind_Ok in Ec as ([log n'] & El & Ec). apply ebind_Ok in Ec as (bl & _ & Ec). destruct io; [done|]. injection Ec as <- _.
    unfold holds_bad. cbn [sf_log bumpWatermarks]. by rewrite (mergeDeltas_other _ _ _ _ _ El).
  - destruct (decide (w = window)) as [->|Hw].
    + destruct err as [e|]; [|by apply finalize_refused in E]. unfold FinalizeWindow in E. repeat case_match; simplify_eq; done.
    + destruct (FinalizeWindow_other io f w f' err (window, sid) E) as [_ El]; [done|]. unfold holds_bad. by rewrite El.
  - unfold SaveTemplateStats. by repeat case_match.
Qed.

End Undecodable.

(** C15: a row that does not decode stays and blocks its window.  Whatever
    batches are committed, whatever windows are finalized and whether or not
    the driver fails: the row stays in the log as it is; every commit with a
    delta for its window and series is refused as a whole, with the other
    series of the batch; its window is never finalized; and a replay from that
    window or before fails, which is what a restart runs. *)
Theorem undecodable_row_blocks window sid bad f f' :
  (forall d, scanDelta bad <> fine d) -> sf_log f !! (window, sid) = Some bad -> rtc store_step f f' ->
  sf_log f' !! (window, sid) = Some bad /\
  (forall io b, (exists r, r ∈ gb_Deltas b /\ row_key r = (window, sid)) -> exists e, CommitGroup io f' b = Some (f', Some e)) /\
  (forall io f'', FinalizeWindow io f' window <> Some (f'', None)) /\
  (forall since, since <= window -> exists e, ReplayMutable f' since = oops e).
Proof.
  intros Hbad Hf Hr. assert (sf_log f' !! (window, sid) = Some bad) as Hf' by (induction Hr as [|f f1 f2 Hs _ IH]; [done|]; by eapply IH, store_step_bad).
  split_and!; [done| | |]; intros; [by eapply commit_refused|by eapply finalize_refused|by eapply replay_refused].
Qed.

End Errors.

(** ** An accepted point whose row does not decode *)

(** Ten observations in the bucket (0, 1e308]: the midpoint is 5e307, and the
    running sum of the sketch overflows. *)
Definition poison_input : HistogramInput := mkHistogramInput (demo_common 10) [f_zero; f_of_Z (10 ^ 308)] [0; 10; 0].
Definition poison_fold : HistogramFold := fold_of (FoldHistogram (H := flat_math) poison_input).
Definition poison_delta : AggregateDelta := default zero_delta (ObserveHistogram zero_delta poison_fold).
Definition poison_batch : GroupBatch := mkGroup [] [] [mkDeltaRow 7 300 (Some poison_delta)] [] [].
Definition poison_file : StoreFile := (default (emptyFile, None) (CommitGroup (H := SqliteFile) false emptyFile poison_batch)).1.
Definition poison_row : list sql_value := default [] (sf_log poison_file !! (300, 7)).

Lemma poison_undecodable d : scanDelta poison_row <> fine d.
Proof. assert (scanDelta poison_row = oops (ErrDecode ErrSketchCorrupt)) as -> by (by vm_compute). done. Qed.

Lemma poison_stored : sf_log poison_file !! (300, 7) = Some poison_row.
Proof. by vm_compute. Qed.

(** Finding: one histogram point that passes every check, folds with
    percentiles available and is committed leaves a row no read accepts: the
    sketch's sum is infinite, which the encoder writes and the decoder refuses. *)
Theorem accepted_point_poisons :
  FoldHistogram (H := flat_math) poison_input = Ok (Some poison_fold) /\ hf_PercentilesUnavailable poison_fold = false /\
  ObserveHistogram zero_delta poison_fold = Some poison_delta /\
  CommitGroup (H := SqliteFile) false emptyFile poison_batch = Some (poison_file, None) /\
  sf_log poison_file !! (300, 7) = Some poison_row /\ scanDelta poison_row = oops (ErrDecode ErrSketchCorrupt).
Proof. split_and!; by vm_compute. Qed.

Lemma undecodable_row_blocks_witness :
  rtc (store_step (H := SqliteFile)) poison_file poison_file /\
  exists e, CommitGroup (H := SqliteFile) false poison_file poison_batch = Some (poison_file, Some e).
Proof.
  split; [done|]. destruct (undecodable_row_blocks (H := SqliteFile) 300 7 poison_row poison_file poison_file poison_undecodable poison_stored (rtc_refl _ _)) as (_ & Hc & _).
  apply Hc. exists (mkDeltaRow 7 300 (Some poison_delta)). split; [by left|reflexivity].
Defined.
