(* ===== verification/Recovery.v ===== *)
(** * Recovery: what a restart rebuilds ([internal/aggregate/recovery.go])

    The store file, the engine, the topology projection and the writer's series
    registry at startup.  [io] says which calls the driver refuses; the engine's
    clock is read by each admission.  A window that expired is finalized in the
    file, the rows of the others are merged and applied to the shards, baselines
    are seeded, and the projection is folded from durable rows. *)
From stdpp Require Import sorting.
From S2P Require Import Prelude Float64 SeriesKey Dict Registrar Identity Gc.
From S2P Require Import Sketch SketchCodec Histogram Delta Limiter Baseline Engine TopoIdentity Topology EngineTotals Writer WriterCommit.
From S2P Require Import StoreRows StoreTables StoreFacts.
#[local] Open Scope Z_scope.

(** The calls of the store a recovery makes. *)
Inductive store_call := CallFinalizable | CallFinalize (window : Z) | CallReplay | CallBaselines | CallResolve | CallFinalized.

(** The wall time is left out. *)
(* internal/aggregate/recovery.go:39-66 RecoveryStats *)
Record RecoveryStats := mkRecoveryStats {
  FinalizedWindows : Z;
  ReplayedRows : Z;
  ReplayedSeries : Z;
  SeededBaselines : Z;
  RestoredTopologyRows : Z;
  RestoredTopologyWindows : Z;
  RestoredTopologyTruncated : bool;
  SkippedSeries : Z;
}.

(* internal/aggregate/recovery.go:70-80 RecoverOptions *)
Record RecoverOptions := mkRecoverOptions { TopologyHorizon : Z; TopologyMaxRows : Z }.

(* internal/aggregate/recovery.go:84-88 DefaultTopologyRestoreMaxRows *)
Definition DefaultTopologyRestoreMaxRows : Z := 20000.

(* internal/aggregate/recovery.go:90-93 topologyRestoreSignals *)
Definition topologyRestoreSignals : list Z := [SignalTraceOp; SignalServiceEdge; SignalMetric; SignalLog].

(** [nil] is a gate that is open. *)
(* internal/aggregate/recovery.go:95-97 RecoveryGate *)
Definition RecoveryGate : Type := option bool.
(* internal/aggregate/recovery.go:100-100 NewRecoveryGate *)
Definition NewRecoveryGate : RecoveryGate := Some false.
(* internal/aggregate/recovery.go:103-108 RecoveryGate.Done *)
Definition Done (g : RecoveryGate) : bool := default true g.
(* internal/aggregate/recovery.go:111-115 RecoveryGate.Complete *)
Definition Complete (g : RecoveryGate) : RecoveryGate := (fun _ => true) <$> g.

(** The deltas of rows as objects: rows point into a heap, as the replay merges
    in place what the topology restore reads again. *)
Definition row_heap (rows : list DeltaRow) : list AggregateDelta := (fun r => default zero_delta (dr_Delta r)) <$> rows.

(* internal/aggregate/recovery.go:332-343 distinctSeriesIDs *)
Definition distinctSeriesIDs (rows : list DeltaRow) : list Z :=
  foldl (fun out r => if bool_decide (dr_SeriesID r ∈ out) then out else out ++ [dr_SeriesID r]) [] rows.

Section Recovering.
Context `{Sqlite}.
Variable io : store_call -> bool.

(** A call that the driver may refuse. *)
Definition call {A} (c : store_call) (m : exec A) : exec A := if io c then oops ErrDriver else m.

(** ** Finalizing what expired *)

Fixpoint finalize_windows (f : StoreFile) (done_ : Z) (windows : list Z) : option (StoreFile * Z * option store_error) :=
  match windows with
  | [] => Some (f, done_, None)
  | w :: windows =>
      '(f, err) ← FinalizeWindow (io (CallFinalize w)) f w;
      match err with
      | Some e => Some (f, done_, Some e)
      | None => finalize_windows f (done_ + 1) windows
      end
  end.

(** The loop; the fuel is one more than the windows to finalize. *)
Fixpoint finalize_passes (fuel : nat) (f : StoreFile) (now : time) (done_ : Z) : option (StoreFile * Z * option store_error) :=
  match fuel with
  | O => Some (f, done_, None)
  | S fuel =>
      if io CallFinalizable then Some (f, done_, Some ErrDriver)
      else
        let windows := FinalizableWindows f (FinalizeCutoff now) finalizeWindowsPerPass in
        if (length windows =? 0)%nat then Some (f, done_, None)
        else
          '(f, done_, err) ← finalize_windows f done_ windows;
          match err with
          | Some e => Some (f, done_, Some e)
          | None => if Z.of_nat (length windows) <? finalizeWindowsPerPass then Some (f, done_, None) else finalize_passes fuel f now done_
          end
  end.

(* internal/aggregate/recovery.go:252-272 finalizeExpired *)
Definition finalizeExpired (f : StoreFile) (now : time) : option (StoreFile * Z * option store_error) :=
  finalize_passes (S (length (windows_in (sf_log f) (fun w => w <=? FinalizeCutoff now)))) f now 0.

(** ** Resolving series *)

(** [missing[start:end]] for every start; the fuel is the number of IDs. *)
Fixpoint read_chunks (fuel : nat) (ids : list Z) : list (list Z) :=
  match fuel, ids with
  | O, _ | _, [] => []
  | S fuel, _ => take (Z.to_nat MaxReadRows) ids :: read_chunks fuel (drop (Z.to_nat MaxReadRows) ids)
  end.

(** [reg] is the writer's registry, if there is a writer. *)
(* internal/aggregate/recovery.go:348-374 seriesKeys *)
Definition seriesKeys (f : StoreFile) (reg : option (gmap Z SeriesKey)) (ids : list Z) : exec (gmap Z SeriesKey) :=
  let known sid := r ← reg; (r : gmap Z SeriesKey) !! sid in
  let out := foldl (fun out sid => match known sid with Some key => <[sid := key]> out | None => out end) ∅ ids in
  let missing := filter (fun sid => known sid = None) ids in
  exec_foldl (fun out chunk =>
    let! infos := call CallResolve (ResolveSeries f chunk) in
    fine (foldl (fun out info => <[si_ID info := si_Key info]> out) out infos)) out (read_chunks (length missing) missing).

(** ** Replaying *)

(** One row of the loop: the heap, the merged map, the rows skipped. *)
Definition replay_one (keys : gmap Z SeriesKey) (acc : list AggregateDelta * gmap SeriesWindowKey nat * Z) (entry : nat * DeltaRow)
    : option (list AggregateDelta * gmap SeriesWindowKey nat * Z) :=
  let '(h, m, skipped) := acc in
  match keys !! dr_SeriesID entry.2 with
  | None => Some (h, m, skipped + 1)
  | Some key => '(h, m) ← premerge_one (h, m) ((key, dr_WindowStart entry.2), entry.1); Some (h, m, skipped)
  end.

(** The engine, the rows' heap, what was replayed and what was skipped; the
    clock of the admission is read as [now1] and [now2]. *)
(* internal/aggregate/recovery.go:277-300 replayRows *)
Definition replayRows (f : StoreFile) (reg : option (gmap Z SeriesKey)) (e : Engine) (rows : list DeltaRow) (now1 now2 : time)
    : exec (Engine * list AggregateDelta * Z * Z) :=
  let! keys := seriesKeys f reg (distinctSeriesIDs rows) in
  let! (h, m, skipped) := lift (opt_foldl (replay_one keys) (row_heap rows, ∅, 0) (imap pair rows)) in
  let! e :=
    if (0 <? size m)%nat then lift ('(e, _) ← ApplyCommitted e (map_to_list (deref h m)) now1 now2; Some e)
    else fine e in
  fine (e, h, Z.of_nat (size m), skipped).

(** ** Baselines *)

(* internal/aggregate/recovery.go:303-329 seedBaselines *)
Definition seedBaselines (f : StoreFile) (reg : option (gmap Z SeriesKey)) (e : Engine) : exec (Engine * Z) :=
  let! rows := call CallBaselines (LoadBaselines f 0) in
  if (length rows =? 0)%nat then fine (e, 0)
  else
    let! keys := seriesKeys f reg (br_SeriesID <$> rows) in
    fine (foldl (fun '(e, seeded) r =>
      match keys !! br_SeriesID r with
      | Some key => (set_baselines e (Seed (e_baselines e) key (br_Producer r) (br_Baseline r)), seeded + 1)
      | None => (e, seeded)
      end) (e, 0) rows).

(** ** Topology *)

Section Naming.
Context {R : Type} `{Dict.Registrar R} `{Resolver R} `{identityFinder R}.

(** One durable row: its delta by location; a second row of the same series and
    window is merged into a fresh delta. *)
Definition restore_one (c : Cache R) (keys : gmap Z SeriesKey)
    (acc : gmap SeriesWindowKey topoIdentity * gmap SeriesWindowKey AggregateDelta) (entry : DeltaRow * AggregateDelta)
    : option (gmap SeriesWindowKey topoIdentity * gmap SeriesWindowKey AggregateDelta) :=
  let '(ids, deltas) := acc in
  let '(row, d) := entry in
  match keys !! dr_SeriesID row with
  | None => Some acc
  | Some key =>
      match topoIdentityFor c key with
      | None => Some acc
      | Some ident =>
          let swk := (key, dr_WindowStart row) in
          match deltas !! swk with
          | Some cur =>
              merged ← DeltaMerge zero_delta (Some cur);
              merged ← DeltaMerge merged (Some d);
              Some (ids, <[swk := merged]> deltas)
          | None => Some (<[swk := ident]> ids, <[swk := d]> deltas)
          end
      end
  end.

(** The projection, the three restore statistics and the error; [mutable] are
    the replayed rows with what the heap holds for them by then, [now1] the
    engine's clock. *)
(* internal/aggregate/recovery.go:178-249 restoreTopology *)
Definition restoreTopology (f : StoreFile) (reg : option (gmap Z SeriesKey)) (c : Cache R) (revision : Z) (p : topologyProjection)
    (now now1 : time) (mutable : list (DeltaRow * AggregateDelta)) (opts : RecoverOptions)
    : option (topologyProjection * (Z * Z * bool) * option store_error) :=
  let horizon := TopologyHorizon opts in
  if horizon <=? 0 then Some (p, (0, 0, false), None)
  else
    let horizon := if Horizon (tp_cfg p) <? horizon then Horizon (tp_cfg p) else horizon in
    let limit := if TopologyMaxRows opts <=? 0 then DefaultTopologyRestoreMaxRows else TopologyMaxRows opts in
    match call CallFinalized (ReadFinalizedSince f (WindowStart (now - horizon)) topologyRestoreSignals limit) with
    | None => None
    | Some (Err er) => Some (p, (0, 0, false), Some er)
    | Some (Ok page) =>
        let rows := omap (fun b => d ← dr_Delta b; Some (b, d)) (fp_Buckets page) ++ mutable in
        let read := Z.of_nat (length rows) in
        if (length rows =? 0)%nat then Some (p, (0, 0, fp_Truncated page), None)
        else
          match seriesKeys f reg (distinctSeriesIDs (fst <$> rows)) with
          | None => None
          | Some (Err er) => Some (p, (read, 0, fp_Truncated page), Some er)
          | Some (Ok keys) =>
              '(ids, deltas) ← opt_foldl (restore_one c keys) (∅, ∅) rows;
              '(p, folded) ← fold p now1 revision (map_to_list ids) deltas;
              Some (p, (read, folded, fp_Truncated page), None)
          end
    end.

(** ** The recovery *)

(** The state a recovery leaves: the file, the engine, the projection, the
    statistics so far and the error that stopped it. *)
Record recovered := mkRecovered {
  rv_file : StoreFile;
  rv_engine : Engine;
  rv_topology : topologyProjection;
  rv_stats : RecoveryStats;
  rv_err : option store_error;
}.

(** A step that may stop the recovery with its error. *)
Definition or_stop {A} (m : exec A) (stopped : store_error -> recovered) (k : A -> option recovered) : option recovered :=
  match m with
  | Some (Ok a) => k a
  | Some (Err e) => Some (stopped e)
  | None => None
  end.

(** [configured] is [store != nil && engine != nil]. *)
(* internal/aggregate/recovery.go:119-165 Recover *)
Definition Recover (configured : bool) (f : StoreFile) (e : Engine) (p : topologyProjection) (c : Cache R) (reg : option (gmap Z SeriesKey))
    (now now1 now2 now3 : time) (opts : RecoverOptions) : option recovered :=
  let stats := mkRecoveryStats 0 0 0 0 0 0 false 0 in
  if negb configured then Some (mkRecovered f e p stats None)
  else
    '(f, finalized, err) ← finalizeExpired f now;
    match err with
    | Some er => Some (mkRecovered f e p stats (Some er))
    | None =>
        let stats := mkRecoveryStats finalized 0 0 0 0 0 false 0 in
        or_stop (call CallReplay (ReplayMutable f (MutableSince now))) (fun er => mkRecovered f e p stats (Some er)) (fun rows =>
        let stats := mkRecoveryStats finalized (Z.of_nat (length rows)) 0 0 0 0 false 0 in
        or_stop (if (0 <? length rows)%nat then replayRows f reg e rows now1 now2 else fine (e, [], 0, 0))
          (fun er => mkRecovered f e p stats (Some er)) (fun '(e, h, replayed, skipped) =>
        let stats := mkRecoveryStats finalized (Z.of_nat (length rows)) replayed 0 0 0 false skipped in
        or_stop (seedBaselines f reg e) (fun er => mkRecovered f e p stats (Some er)) (fun '(e, seeded) =>
        let stats := mkRecoveryStats finalized (Z.of_nat (length rows)) replayed seeded 0 0 false skipped in
        '(p, (restored, folded, truncated), err) ← restoreTopology f reg c (e_revision e) p now now3 (zip rows h) opts;
        Some (mkRecovered f e p (mkRecoveryStats finalized (Z.of_nat (length rows)) replayed seeded restored folded truncated skipped) err))))
    end.

End Naming.
End Recovering.
