(* ===== verification/RecoveryFacts.v ===== *)
(** * RecoveryFacts: a restart keeps what was acknowledged

    The expired windows are finalized and the loop ends; the shards get back
    the durable counts of the windows that are still open; a row that does not
    decode stops every recovery. *)
From stdpp Require Import sorting.
From S2P Require Import Prelude Float64 SeriesKey Dict Registrar Identity Gc.
From S2P Require Import Sketch SketchCodec Histogram Delta Limiter Baseline Engine TopoIdentity Topology EngineTotals Writer WriterCommit.
From S2P Require Import StoreRows StoreTables StoreFacts StoreErrors Recovery.
#[local] Open Scope Z_scope.

Section Expired.
Context `{Sqlite}.
Variable io : store_call -> bool.
Implicit Types f : StoreFile.

(** The windows at or below the cutoff that the log still has. *)
Definition expired (cutoff : Z) f : gset Z := list_to_set (windows_in (sf_log f) (fun w => w <=? cutoff)).

Lemma elem_of_expired cutoff f w : w ∈ expired cutoff f <-> w <= cutoff /\ exists sid, is_Some (sf_log f !! (w, sid)).
Proof. unfold expired. rewrite elem_of_list_to_set, elem_of_windows_in. by rewrite Z.leb_le. Qed.

Lemma NoDup_windows_in m P : NoDup (windows_in m P).
Proof. unfold windows_in. rewrite merge_sort_Permutation. apply NoDup_elements. Qed.

Lemma size_expired cutoff f : size (expired cutoff f) = length (windows_in (sf_log f) (fun w => w <=? cutoff)).
Proof. unfold expired. apply size_list_to_set, NoDup_windows_in. Qed.

(** What finalizations up to a cutoff leave as it was: every durable total of
    the ten counters, every newer window, and all other tables; and they only
    take rows out of the log. *)
Record kept_file (cutoff : Z) f f' : Prop := {
  kf_sum t key : t ∈ tally_columns -> rows_add t (sf_log f) ->
    eq64 (table_tally t (sf_buckets f') key + table_tally t (sf_log f') key) (table_tally t (sf_buckets f) key + table_tally t (sf_log f) key);
  kf_newer key : cutoff < key.1 -> sf_buckets f' !! key = sf_buckets f !! key /\ sf_log f' !! key = sf_log f !! key;
  kf_rest : other_tables f' = other_tables f;
  kf_log key row : sf_log f' !! key = Some row -> sf_log f !! key = Some row;
}.

Lemma kept_series cutoff f f' : kept_file cutoff f f' -> sf_series f' = sf_series f.
Proof. intros [_ _ E _]. by injection E. Qed.

Lemma kept_file_refl cutoff f : kept_file cutoff f f.
Proof. by split. Qed.

Lemma kept_file_trans cutoff f1 f2 f3 : kept_file cutoff f1 f2 -> kept_file cutoff f2 f3 -> kept_file cutoff f1 f3.
Proof.
  intros [A1 A2 A3 A4] [B1 B2 B3 B4]. split.
  - intros t key Hc Ha. rewrite B1, A1; [done|done|done|done|]. intros Ht k row d Hk. by apply (Ha Ht k), A4.
  - intros key Hk. destruct (A2 key Hk) as [<- <-]. by apply B2.
  - congruence.
  - intros key row Hk. by apply A4, B4.
Qed.

Lemma finalize_one_window cutoff iow f w f' : w <= cutoff -> FinalizeWindow iow f w = Some (f', None) ->
  kept_file cutoff f f' /\ expired cutoff f' = expired cutoff f ∖ {[w]}.
Proof.
  intros Hw E. assert (forall t, t ∈ tally_columns -> rows_add t (sf_log f) -> _) as Hs by (intros t Hc Ha; exact (finalized_window iow f w f' None t Hc Ha E)). cbn in Hs.
  destruct (Hs (mkTally (fun d => d_Count (d_counts d)) 0) ltac:(by left) ltac:(done)) as (H1 & _ & H3 & H4). split.
  - split; [intros t key Hc Ha; by apply Hs|intros key Hk; apply H3; lia|done|].
    intros [x sid] row Hk. destruct (decide (x = w)) as [->|Hne]; [by rewrite H1 in Hk|]. by destruct (H3 (x, sid) Hne) as [_ <-].
  - apply set_eq. intros x. rewrite elem_of_difference, not_elem_of_singleton, !elem_of_expired. split.
    + intros (Hx & sid & Hsid). assert (x <> w) as Hne by (intros ->; rewrite H1 in Hsid; by destruct Hsid).
      destruct (H3 (x, sid) Hne) as [_ Hl]. rewrite Hl in Hsid. eauto.
    + intros ((Hx & sid & Hsid) & Hne). split; [done|]. exists sid. by destruct (H3 (x, sid) Hne) as [_ ->].
Qed.

Lemma finalize_windows_spec cutoff ws : forall f n f' n' err, Forall (fun w => w <= cutoff) ws ->
  finalize_windows io f n ws = Some (f', n', err) ->
  kept_file cutoff f f' /\ expired cutoff f' ⊆ expired cutoff f /\
  (err = None -> n' = n + Z.of_nat (length ws) /\ expired cutoff f' = expired cutoff f ∖ list_to_set ws).
Proof.
  induction ws as [|w ws IH]; intros f n f' n' err Hws; cbn [finalize_windows].
  - intros [= <- <- <-]. split_and!; [apply kept_file_refl|done|]. intros _. split; [cbn; lia|set_solver].
  - apply Forall_cons in Hws as [Hw Hws]. intros ([f1 e1] & E1 & E)%bind_Some. destruct e1 as [e1|].
    + injection E as <- <- <-. unfold FinalizeWindow in E1. repeat case_match; simplify_eq. split_and!; [apply kept_file_refl|done|done].
    + destruct (finalize_one_window _ _ _ _ _ Hw E1) as [K1 X1]. destruct (IH _ _ _ _ _ Hws E) as (K2 & X2 & X3).
      split_and!; [by eapply kept_file_trans|rewrite X1 in X2; set_solver|]. intros He. destruct (X3 He) as [-> ->]. rewrite X1. split; [cbn [length]; lia|set_solver].
Qed.

Lemma finalize_passes_spec now fuel : forall f n f' n' err,
  (size (expired (FinalizeCutoff now) f) < fuel)%nat -> finalize_passes io fuel f now n = Some (f', n', err) ->
  kept_file (FinalizeCutoff now) f f' /\ expired (FinalizeCutoff now) f' ⊆ expired (FinalizeCutoff now) f /\
  (err = None -> n' = n + Z.of_nat (size (expired (FinalizeCutoff now) f)) /\ expired (FinalizeCutoff now) f' = ∅).
Proof.
  induction fuel as [|fuel IH]; intros f n f' n' err Hf; [lia|]. cbn [finalize_passes]. set (cutoff := FinalizeCutoff now) in *.
  destruct (io CallFinalizable); [intros [= <- <- <-]; split_and!; [apply kept_file_refl|done|done]|].
  set (all := windows_in (sf_log f) (fun w => w <=? cutoff)). assert (FinalizableWindows f cutoff finalizeWindowsPerPass = take 32 all) as -> by done.
  pose proof (size_expired cutoff f) as Hsize. fold all in Hsize. destruct (length (take 32 all) =? 0)%nat eqn:E0.
  { intros [= <- <- <-]. apply Nat.eqb_eq in E0. rewrite length_take in E0. assert (length all = 0%nat) as Ha by lia.
    assert (expired cutoff f = ∅) as He by (apply leibniz_equiv, size_empty_inv; lia). rewrite He, size_empty. split_and!; [apply kept_file_refl|done|intros _; split; [lia|done]]. }
  apply Nat.eqb_neq in E0. intros ([[f1 n1] e1] & E1 & E)%bind_Some.
  assert (Forall (fun w => w <= cutoff) (take 32 all)) as Hold.
  { apply Forall_take, Forall_forall. intros w [Hw _]%elem_of_windows_in. by apply Z.leb_le. }
  destruct (finalize_windows_spec cutoff _ _ _ _ _ _ Hold E1) as (K1 & X1 & X2).
  destruct e1 as [e1|]; [injection E as <- <- <-; split_and!; done|]. destruct (X2 eq_refl) as [-> X3]. clear X2.
  assert (list_to_set (take 32 all) ⊆ expired cutoff f) as Hsub.
  { intros w [i Hi]%elem_of_list_to_set%list_elem_of_lookup. apply lookup_take_Some in Hi as [Hi _]. apply elem_of_list_to_set. by eapply list_elem_of_lookup_2. }
  assert (size (list_to_set (take 32 all) : gset Z) = length (take 32 all)) as Htake.
  { apply size_list_to_set. pose proof (NoDup_windows_in (sf_log f) (fun w => w <=? cutoff)) as Hnd. fold all in Hnd.
    rewrite <- (take_drop 32 all) in Hnd. by apply NoDup_app in Hnd as [Hnd _]. }
  pose proof (size_difference _ _ Hsub) as Hd. rewrite <- X3, Htake in Hd. unfold finalizeWindowsPerPass in E.
  pose proof (length_take all 32) as Hlt. destruct (_ <? 32) eqn:El; z_bool.
  - injection E as <- <- <-. split_and!; [done|done|]. intros _. split; [lia|]. apply leibniz_equiv, size_empty_inv. lia.
  - apply IH in E as (K2 & X4 & X5); [|lia]. split_and!; [by eapply kept_file_trans|set_solver|].
    intros He. destruct (X5 He) as [-> ->]. split; [lia|done].
Qed.

(** Windows a finalization accepts: not finalized before, and readable. *)
Definition clean (cutoff : Z) f : Prop := forall w, w ∈ expired cutoff f ->
  series_in (sf_buckets f) w = [] /\ forall sid row, sf_log f !! (w, sid) = Some row -> exists d, scanDelta row = fine d.

Lemma series_in_none (m : gmap (Z * Z) (list sql_value)) w : series_in m w = [] <-> forall sid, m !! (w, sid) = None.
Proof.
  split.
  - intros E sid. destruct (m !! (w, sid)) eqn:El; [|done]. assert (sid ∈ series_in m w) as Hs by (apply elem_of_series_in; by rewrite El).
    rewrite E in Hs. by apply elem_of_nil in Hs.
  - intros E. destruct (series_in m w) as [|sid l] eqn:El; [done|]. assert (sid ∈ series_in m w) as Hs by (rewrite El; by left).
    apply elem_of_series_in in Hs. rewrite E in Hs. by destruct Hs.
Qed.

Lemma finalize_one_clean cutoff f w : w ∈ expired cutoff f -> clean cutoff f ->
  exists f', FinalizeWindow false f w = Some (f', None) /\ clean cutoff f' /\ expired cutoff f' = expired cutoff f ∖ {[w]}.
Proof.
  intros Hw Hc. destruct (Hc w Hw) as [Hb Hd]. destruct (finalize_succeeds f w Hd Hb) as [f' E]. exists f'. split; [done|].
  pose proof Hw as [Hle _]%elem_of_expired. destruct (finalize_one_window _ _ _ _ _ Hle E) as [_ X]. split; [|done].
  intros x. rewrite X. intros [Hx Hne]%elem_of_difference. rewrite elem_of_singleton in Hne. destruct (Hc x Hx) as [B D].
  rewrite series_in_none in B |- *. split.
  - intros sid. destruct (FinalizeWindow_other _ _ _ _ _ (x, sid) E Hne) as [-> _]. apply B.
  - intros sid row. destruct (FinalizeWindow_other _ _ _ _ _ (x, sid) E Hne) as [_ ->]. apply D.
Qed.

Lemma finalize_windows_clean cutoff ws : (forall c, io c = false) -> forall f n, NoDup ws -> (forall w, w ∈ ws -> w ∈ expired cutoff f) -> clean cutoff f ->
  exists f' n', finalize_windows io f n ws = Some (f', n', None) /\ clean cutoff f'.
Proof.
  intros Hio. induction ws as [|w ws IH]; intros f n Hnd Hin Hc; cbn [finalize_windows]; [eauto|].
  apply NoDup_cons in Hnd as [Hn Hnd]. destruct (finalize_one_clean cutoff f w) as (f1 & E & C1 & X1); [by apply Hin; left|done|].
  rewrite Hio, E. cbn [mbind option_bind]. apply IH; [done| |done]. intros x Hx. rewrite X1. apply elem_of_difference.
  split; [by apply Hin; right|]. rewrite elem_of_singleton. by intros ->.
Qed.

Lemma finalize_passes_clean now fuel : (forall c, io c = false) -> forall f n, clean (FinalizeCutoff now) f ->
  exists f' n', finalize_passes io fuel f now n = Some (f', n', None).
Proof.
  intros Hio. induction fuel as [|fuel IH]; intros f n Hc; cbn [finalize_passes]; [eauto|]. rewrite Hio.
  set (ws := FinalizableWindows f (FinalizeCutoff now) finalizeWindowsPerPass). destruct (length ws =? 0)%nat; [eauto|].
  destruct (finalize_windows_clean (FinalizeCutoff now) ws Hio f n) as (f1 & n1 & E & C1).
  - unfold ws, FinalizableWindows. eapply sublist_NoDup; [apply NoDup_windows_in|apply sublist_take].
  - intros w Hw. unfold expired. apply elem_of_list_to_set. unfold ws, FinalizableWindows in Hw. apply elem_of_take in Hw as (i & Hi & _).
    by eapply list_elem_of_lookup_2.
  - done.
  - rewrite E. cbn [mbind option_bind]. destruct (_ <? _); [eauto|by apply IH].
Qed.

(** C14: the startup finalization ends and keeps everything.  Whatever the
    driver refuses on the way: every durable total (log and buckets together,
    modulo 2^64, for each of the ten counters of a delta; for the histogram
    tail count, if the log's rows have a tail only beside a histogram) and
    every newer window are as they were, and the series, baselines, dictionary,
    templates and watermarks did not change.  When it reports no error it has finalized as
    many windows as were expired, and none is left, however many passes of at
    most 32 windows that took.  And when the driver refuses nothing and every
    expired window is readable and was not finalized before, it does report no
    error. *)
Theorem finalizeExpired_spec f now :
  (forall f' n err, finalizeExpired io f now = Some (f', n, err) ->
    kept_file (FinalizeCutoff now) f f' /\
    (err = None -> n = Z.of_nat (size (expired (FinalizeCutoff now) f)) /\ expired (FinalizeCutoff now) f' = ∅)) /\
  ((forall c, io c = false) -> clean (FinalizeCutoff now) f ->
    exists f', finalizeExpired io f now = Some (f', Z.of_nat (size (expired (FinalizeCutoff now) f)), None) /\
      expired (FinalizeCutoff now) f' = ∅).
Proof.
  assert (forall f' n err, finalizeExpired io f now = Some (f', n, err) -> kept_file (FinalizeCutoff now) f f' /\
    (err = None -> n = Z.of_nat (size (expired (FinalizeCutoff now) f)) /\ expired (FinalizeCutoff now) f' = ∅)) as HA.
  { intros f' n err E. unfold finalizeExpired in E. rewrite <- size_expired in E.
    apply finalize_passes_spec in E as (K & _ & X); [|lia]. split; [done|]. intros He. by destruct (X He). }
  split; [done|]. intros Hio Hc.
  destruct (finalize_passes_clean now (S (length (windows_in (sf_log f) (fun w => w <=? FinalizeCutoff now)))) Hio f 0 Hc) as (f' & n' & E).
  destruct (HA f' n' None E) as [_ X]. destruct (X eq_refl) as [-> Hx]. by exists f'.
Qed.

End Expired.

(** ** Resolving and replaying *)

(** A sum over a table in the order of a query. *)
Lemma ordered_sum (phi : Z * Z -> list sql_value -> Z) m :
  list_sum (fun k => from_option (phi k) 0 (m !! k)) (ordered m) = map_sum phi m.
Proof.
  assert (ordered m ≡ₚ (map_to_list m).*1) as HP.
  { unfold ordered. rewrite merge_sort_Permutation. apply NoDup_Permutation; [apply NoDup_elements|apply NoDup_fst_map_to_list|].
    intros k. rewrite elem_of_elements, elem_of_dom, list_elem_of_fmap. split.
    - intros [row Hr]. exists (k, row). split; [done|]. by apply elem_of_map_to_list.
    - intros ([k' row] & -> & Hr). apply elem_of_map_to_list in Hr. by eexists. }
  rewrite (list_sum_perm _ _ _ HP). unfold map_sum. rewrite map_fold_foldr.
  assert (forall l, (forall k row, (k, row) ∈ l -> m !! k = Some row) ->
    list_sum (fun k => from_option (phi k) 0 (m !! k)) l.*1 = foldr (uncurry (fun k row acc => phi k row + acc)) 0 l) as HL.
  { unfold list_sum. induction l as [|[k row] l IH]; intros Hl; [done|]. cbn [fmap list_fmap foldr uncurry fst].
    rewrite IH by (intros; apply Hl; by right). by rewrite (Hl k row) by left. }
  apply HL. intros k row. apply elem_of_map_to_list.
Qed.

(** The writer's registry knows no series under another key. *)
Definition agrees (f : StoreFile) (reg : option (gmap Z SeriesKey)) : Prop :=
  forall r sid key, reg = Some r -> r !! sid = Some key -> stored_key f sid = Some key.

Section Replay.
Context `{Sqlite}.
Variable io : store_call -> bool.
Implicit Types f : StoreFile.

(** What was resolved is what the table says, and covers the IDs asked for. *)
Definition resolves f (out : gmap Z SeriesKey) (asked : list Z) : Prop :=
  (forall sid key, out !! sid = Some key -> stored_key f sid = Some key) /\
  (forall sid key, sid ∈ asked -> stored_key f sid = Some key -> out !! sid = Some key).

Lemma scanSeries_id sid args info : scanSeries sid args = fine info -> si_ID info = sid.
Proof. unfold scanSeries. repeat (case_match; try done). by intros [= <-]. Qed.

Lemma ResolveSeries_spec f ids infos : ResolveSeries f ids = fine infos ->
  (forall info, info ∈ infos -> stored_key f (si_ID info) = Some (si_Key info)) /\
  (forall sid key, sid ∈ ids -> stored_key f sid = Some key -> exists info, info ∈ infos /\ si_ID info = sid /\ si_Key info = key).
Proof.
  unfold ResolveSeries. destruct (length ids =? 0)%nat eqn:El.
  { apply Nat.eqb_eq, nil_length_inv in El as ->. intros [= <-]. split; [by intros i ?%elem_of_nil|by intros i k ?%elem_of_nil]. }
  destruct (_ <? _); [done|]. intros E.
  assert ((forall info, info ∈ infos -> stored_key f (si_ID info) = Some (si_Key info)) /\
    (forall sid key, sid ∈ remove_dups ids -> stored_key f sid = Some key -> exists info, info ∈ infos /\ si_ID info = sid /\ si_Key info = key)) as [H1 H2].
  2: { split; [done|]. intros sid key Hs. apply H2. by apply elem_of_remove_dups. }
  revert E. apply (exec_foldl_ind (fun asked out => (forall info, info ∈ out -> stored_key f (si_ID info) = Some (si_Key info)) /\
    (forall sid key, sid ∈ asked -> stored_key f sid = Some key -> exists info, info ∈ out /\ si_ID info = sid /\ si_Key info = key))).
  - split; [by intros i ?%elem_of_nil|by intros i k ?%elem_of_nil].
  - intros asked sid s1 s2 _ [A1 A2] Eo. destruct (sf_series f !! sid) as [args|] eqn:Ea.
    + apply ebind_Ok in Eo as (info & Ei & [= <-]). pose proof (scanSeries_id _ _ _ Ei) as Hid.
      assert (stored_key f sid = Some (si_Key info)) as Hk by (unfold stored_key; by rewrite Ea, Ei). split.
      * intros i [Hi|Hi%list_elem_of_singleton]%elem_of_app; [by apply A1|]. subst i. by rewrite Hid.
      * intros x key [Hx|Hx%list_elem_of_singleton]%elem_of_app Hkey.
        -- destruct (A2 _ _ Hx Hkey) as (i & ? & ?). exists i. split; [set_solver|done].
        -- subst x. exists info. rewrite Hk in Hkey. split_and!; [set_solver|done|congruence].
    + injection Eo as <-. split; [done|]. intros x key [Hx|Hx%list_elem_of_singleton]%elem_of_app Hkey; [by apply A2|].
      subst x. unfold stored_key in Hkey. by rewrite Ea in Hkey.
Qed.

Lemma put_infos infos : forall out : gmap Z SeriesKey,
  (forall sid key, foldl (fun out info => <[si_ID info := si_Key info]> out) out infos !! sid = Some key ->
    out !! sid = Some key \/ exists info, info ∈ infos /\ si_ID info = sid /\ si_Key info = key) /\
  (forall sid, (is_Some (out !! sid) \/ exists info, info ∈ infos /\ si_ID info = sid) ->
    is_Some (foldl (fun out info => <[si_ID info := si_Key info]> out) out infos !! sid)).
Proof.
  induction infos as [|i infos IH]; intros out; cbn [foldl].
  - split; [auto|]. intros sid [?|(i & ?%elem_of_nil & _)]; done.
  - destruct (IH (<[si_ID i := si_Key i]> out)) as [I1 I2]. split.
    + intros sid key Hl. destruct (I1 _ _ Hl) as [Hi|(x & ? & ?)]; [|right; exists x; split; [by right|done]].
      rewrite lookup_insert in Hi. case_decide; [|by left]. right. exists i. split; [by left|]. split; [done|congruence].
    + intros sid Hs. apply I2. rewrite lookup_insert. case_decide; [left; by eexists|].
      destruct Hs as [?|(x & [->|?]%elem_of_cons & ?)]; [by left|done|right; by exists x].
Qed.

Lemma read_chunks_all n ids : (length ids <= n)%nat -> mjoin (read_chunks n ids) = ids.
Proof.
  revert ids. induction n as [|n IH]; intros [|x ids] Hl; try done; [cbn in Hl; lia|].
  cbn [read_chunks mjoin list_join]. fold (mjoin (M := list) (A := Z)). rewrite IH, take_drop; [done|].
  rewrite length_drop. cbn [length] in *. change (Z.to_nat MaxReadRows) with (S (Z.to_nat 19999)). lia.
Qed.

Lemma seriesKeys_spec f reg ids keys : agrees f reg -> seriesKeys io f reg ids = fine keys ->
  forall sid, sid ∈ ids -> keys !! sid = stored_key f sid.
Proof.
  intros Hag E. unfold seriesKeys in E. set (known := fun sid => r ← reg; (r : gmap Z SeriesKey) !! sid) in *.
  set (out0 := foldl _ ∅ ids) in *.
  assert (forall (l : list Z) (out : gmap Z SeriesKey), (forall sid key, out !! sid = Some key -> stored_key f sid = Some key) ->
    let o : gmap Z SeriesKey := foldl (fun out sid => match known sid with Some key => <[sid := key]> out | None => out end) out l in
    (forall sid key, o !! sid = Some key -> stored_key f sid = Some key) /\
    (forall sid, is_Some (out !! sid) \/ sid ∈ l /\ is_Some (known sid) -> is_Some (o !! sid))) as Hout0.
  { induction l as [|x l IH]; intros out Ho; cbn [foldl]; [split; [done|intros sid [?|[?%elem_of_nil _]]; done]|].
    destruct (known x) as [key|] eqn:Ek.
    - destruct (IH (<[x := key]> out)) as [I1 I2].
      + intros sid k. rewrite lookup_insert. case_decide; [|apply Ho]. intros [= <-]. subst. unfold known in Ek.
        apply bind_Some in Ek as (r & Hr & Ek). by eapply Hag.
      + split; [done|]. intros sid Hs. apply I2. rewrite lookup_insert. case_decide; [left; by eexists|].
        destruct Hs as [?|[[->|?]%elem_of_cons ?]]; [by left|done|by right].
    - destruct (IH out Ho) as [I1 I2]. split; [done|]. intros sid Hs. apply I2.
      destruct Hs as [?|[[->|?]%elem_of_cons Hk]]; [by left| |by right]. rewrite Ek in Hk. by destruct Hk. }
  destruct (Hout0 ids ∅) as [O1 O2]; [by intros sid key; rewrite lookup_empty|]. fold out0 in O1, O2. cbv beta in O2.
  set (missing := filter (fun sid => known sid = None) ids) in *.
  assert ((forall sid key, keys !! sid = Some key -> stored_key f sid = Some key) /\ (forall sid, is_Some (out0 !! sid) -> is_Some (keys !! sid)) /\
    forall sid key, sid ∈ mjoin (read_chunks (length missing) missing) -> stored_key f sid = Some key -> is_Some (keys !! sid)) as (K1 & K2 & K3).
  { revert E. apply (exec_foldl_ind (fun cs keys => (forall sid key, keys !! sid = Some key -> stored_key f sid = Some key) /\
      (forall sid, is_Some (out0 !! sid) -> is_Some (keys !! sid)) /\
      forall sid key, sid ∈ mjoin cs -> stored_key f sid = Some key -> is_Some (keys !! sid))).
    - split_and!; [done|done|by intros sid key ?%elem_of_nil].
    - intros cs c s1 s2 _ (A1 & A2 & A3) Eo. apply ebind_Ok in Eo as (infos & Ei & [= <-]). unfold call in Ei. destruct (io _); [done|].
      destruct (ResolveSeries_spec _ _ _ Ei) as [R1 R2]. destruct (put_infos infos s1) as [P1 P2]. split_and!.
      + intros sid key Hl. destruct (P1 _ _ Hl) as [?|(i & Hi & <- & <-)]; [by apply A1|by apply R1].
      + intros sid Hs. apply P2. left. by apply A2.
      + intros sid key Hs Hk. apply P2. rewrite join_app in Hs. apply elem_of_app in Hs as [Hs|Hs]; [left; by eapply A3|].
        cbn in Hs. rewrite app_nil_r in Hs. right. destruct (R2 _ _ Hs Hk) as (i & ? & ? & _). by exists i. }
  intros sid Hin. destruct (stored_key f sid) as [key|] eqn:Es.
  - assert (is_Some (keys !! sid)) as [k Hk].
    { destruct (known sid) as [k|] eqn:Ek; [apply K2, O2; right; split; [done|by rewrite Ek]|].
      eapply K3; [|done]. rewrite read_chunks_all by done. by apply list_elem_of_filter. }
    rewrite Hk. pose proof (K1 _ _ Hk). congruence.
  - destruct (keys !! sid) as [k|] eqn:Ek; [|done]. pose proof (K1 _ _ Ek). congruence.
Qed.

End Replay.

(** ** The file with one expired window *)

Lemma demo_log_one : map_to_list (sf_log demo_file) = [((600, 7), default [] (sf_log demo_file !! (600, 7)))].
Proof. by vm_compute. Qed.

Lemma finalizeExpired_spec_witness :
  exists f', finalizeExpired (H := SqliteFile) (fun _ => false) demo_file (t_of_unix 2000) = Some (f', 1, None) /\
    expired (FinalizeCutoff (t_of_unix 2000)) f' = ∅.
Proof.
  destruct (finalizeExpired_spec (H := SqliteFile) (fun _ => false) demo_file (t_of_unix 2000)) as [_ Hc].
  destruct Hc as (f' & E & X); [done| |exists f'; split; [exact E|exact X]].
  intros w _. split.
  - apply series_in_none. intros sid. by vm_compute.
  - intros sid row Hr%elem_of_map_to_list. rewrite demo_log_one in Hr. apply list_elem_of_singleton in Hr as [= -> -> ->].
    eexists. vm_compute. reflexivity.
Defined.
