(* ===== verification/RecoveryTotals.v ===== *)
(** * RecoveryTotals: a restart gives the engine its durable counts back

    The merged replay carries what the log holds for the windows that are open,
    and applying it to an empty engine makes the engine's totals exactly that,
    through pre-merge, limiter and shards. *)
From stdpp Require Import sorting.
From S2P Require Import Prelude Float64 SeriesKey Dict Registrar Identity Gc.
From S2P Require Import Sketch SketchCodec Histogram Delta Limiter Baseline Engine TopoIdentity Topology EngineTotals Writer WriterCommit.
From S2P Require Import StoreRows StoreTables StoreFacts StoreErrors Recovery RecoveryFacts.
#[local] Open Scope Z_scope.

(** ** The rows read and the rows merged *)

Section Rows.
Context `{Sqlite}.












End Rows.

(** ** The engine after a restart *)

Section Restart.
Context `{Sqlite}.
Variable io : store_call -> bool.
Implicit Types f : StoreFile.








(** Every aligned window is either expired or replayed. *)
Lemma MutableSince_covers now w : w mod 300 = 0 -> FinalizeCutoff now < w -> MutableSince now <= w.
Proof.
  rewrite FinalizeCutoff_eq. unfold MutableSince. rewrite WindowStart_eq. change latenessSec with 600. intros Hw Hlt.
  pose proof (Z.div_mod w 300 ltac:(lia)). pose proof (Z.div_mod (t_Unix now) 300 ltac:(lia)). pose proof (Z.mod_pos_bound (t_Unix now) 300 ltac:(lia)). lia.
Qed.


Section Recover.
Context {R : Type} `{Dict.Registrar R} `{Resolver R} `{identityFinder R}.




End Recover.
(** ** A restart with a row that does not decode *)

Section Undecodable.
Variables (window sid : Z) (bad : list sql_value).
Hypothesis Hbad : forall d, scanDelta bad <> fine d.

Lemma finalize_windows_bad ws : forall f n f' n' err,
  finalize_windows io f n ws = Some (f', n', err) -> holds_bad window sid bad f -> holds_bad window sid bad f'.
Proof.
  induction ws as [|w ws IH]; intros f n f' n' err; cbn [finalize_windows]; [by intros [= <- <- <-]|].
  intros ([f1 e1] & E1 & E)%bind_Some Hf. assert (holds_bad window sid bad f1) as Hf1 by (eapply (store_step_bad window sid bad Hbad f); [done|by eapply ss_finalize]).
  destruct e1; [by injection E as <- _ _|by eapply IH].
Qed.

Lemma finalize_passes_bad now fuel : forall f n f' n' err,
  finalize_passes io fuel f now n = Some (f', n', err) -> holds_bad window sid bad f -> holds_bad window sid bad f'.
Proof.
  induction fuel as [|fuel IH]; intros f n f' n' err; cbn [finalize_passes]; [by intros [= <- <- <-]|].
  destruct (io _); [by intros [= <- <- <-]|]. destruct (_ =? _)%nat; [by intros [= <- <- <-]|].
  intros ([[f1 n1] e1] & E1 & E)%bind_Some Hf. pose proof (finalize_windows_bad _ _ _ _ _ _ E1 Hf) as Hf1.
  destruct e1; [by injection E as <- _ _|]. destruct (_ <? _); [by injection E as <- _ _|by eapply IH].
Qed.

(** Finding: one row of an aligned window that does not decode stops every
    restart, whether the window is expired or open; the caller exits the
    process on that error. *)
Theorem undecodable_row_stops_restart {R : Type} `{Dict.Registrar R} `{Resolver R} `{identityFinder R} (c : Cache R) f (e : Engine) p reg now now1 now2 now3 opts rv :
  window mod 300 = 0 -> sf_log f !! (window, sid) = Some bad ->
  Recover io true f e p c reg now now1 now2 now3 opts = Some rv -> rv_err rv <> None.
Proof.
  intros Hw Hf E. unfold Recover in E. cbn [negb] in E. apply bind_Some in E as ([[f1 fin] err] & E1 & E).
  destruct err as [er|]; [by injection E as <-|]. unfold finalizeExpired in E1. rewrite <- size_expired in E1.
  pose proof (finalize_passes_bad _ _ _ _ _ _ _ E1 Hf) as Hf1. apply finalize_passes_spec in E1 as (_ & _ & X); [|lia]. destruct (X eq_refl) as [_ Xe].
  assert (FinalizeCutoff now < window) as Hlt.
  { destruct (Z.leb_spec window (FinalizeCutoff now)); [|done]. exfalso. assert (window ∈ expired (FinalizeCutoff now) f1) as Hin; [|rewrite Xe in Hin; by apply elem_of_empty in Hin].
    apply elem_of_expired. split; [done|]. exists sid. unfold holds_bad in Hf1. by rewrite Hf1. }
  destruct (replay_refused window sid bad Hbad f1 (MutableSince now) Hf1 (MutableSince_covers _ _ Hw Hlt)) as [er Er].
  unfold or_stop, call in E. rewrite Er in E. by destruct (io CallReplay); injection E as <-.
Qed.

End Undecodable.

End Restart.

(** ** A restart while the window is open *)



