(* ===== verification/StoreReads.v ===== *)
(** * StoreReads: the bounded reads of the store ([store.go], [store_sqlite.go])

    A selector names a tenant and a range of windows.  [ReadBuckets] pages
    through the rows in a total order; [readSumBuckets] lets the database sum
    them by group; [visit_sketches] streams the sketches of services.  Both
    durable tables are read: what finalization materialized and what it has not
    incorporated yet.  How SQLite adds REAL values is a parameter. *)
From stdpp Require Import sorting.
From S2P Require Import Prelude Float64 SeriesKey Dict Registrar Identity Gc.
From S2P Require Import Sketch SketchCodec Histogram Delta Limiter Baseline Engine StoreRows StoreTables.
#[local] Open Scope Z_scope.

(** ** Selectors *)

(* internal/aggregate/store.go:378-378 BucketSource *)
Inductive BucketSource := SourceFinalized | SourceDelta.

#[global] Instance BucketSource_eq_dec : EqDecision BucketSource.
Proof. solve_decision. Defined.

Definition source_rank (s : BucketSource) : Z := match s with SourceFinalized => 0 | SourceDelta => 1 end.

(* internal/aggregate/store.go:391-395 BucketCursor *)
Record BucketCursor := mkCursor { cu_WindowStart : Z; cu_SeriesID : Z; cu_Source : BucketSource }.

(* internal/aggregate/store.go:398-400 BucketCursor.zero *)
Definition cursor_zero (c : BucketCursor) : bool :=
  (cu_WindowStart c =? 0) && (cu_SeriesID c =? 0) && bool_decide (cu_Source c = SourceFinalized).

(* internal/aggregate/store.go:405-413 BucketCursor.After *)
Definition cursor_After (c : BucketCursor) (window id : Z) (src : BucketSource) : bool :=
  if negb (window =? cu_WindowStart c) then cu_WindowStart c <? window
  else if negb (id =? cu_SeriesID c) then cu_SeriesID c <? id
  else source_rank (cu_Source c) <? source_rank src.

(* internal/aggregate/store.go:418-446 Selector *)
Record Selector := mkSelector {
  sel_TenantID : Z;
  sel_Start : Z;
  sel_End : Z;
  sel_Signal : Z;
  sel_Signals : list Z;
  sel_SeriesIDs : list Z;
  sel_ServiceIDs : list Z;
  sel_Limit : Z;
  sel_After : BucketCursor;
  sel_SketchOnly : bool;
}.

Definition set_range (s : Selector) (lo hi : Z) : Selector :=
  mkSelector (sel_TenantID s) lo hi (sel_Signal s) (sel_Signals s) (sel_SeriesIDs s) (sel_ServiceIDs s) (sel_Limit s) (sel_After s) (sel_SketchOnly s).
Definition set_after (s : Selector) (c : BucketCursor) : Selector :=
  mkSelector (sel_TenantID s) (sel_Start s) (sel_End s) (sel_Signal s) (sel_Signals s) (sel_SeriesIDs s) (sel_ServiceIDs s) (sel_Limit s) c (sel_SketchOnly s).
Definition set_signal (s : Selector) (signal : Z) : Selector :=
  mkSelector (sel_TenantID s) (sel_Start s) (sel_End s) signal (sel_Signals s) (sel_SeriesIDs s) (sel_ServiceIDs s) (sel_Limit s) (sel_After s) (sel_SketchOnly s).
Definition set_signals (s : Selector) (signals : list Z) : Selector :=
  mkSelector (sel_TenantID s) (sel_Start s) (sel_End s) (sel_Signal s) signals (sel_SeriesIDs s) (sel_ServiceIDs s) (sel_Limit s) (sel_After s) (sel_SketchOnly s).
Definition set_services (s : Selector) (ids : list Z) : Selector :=
  mkSelector (sel_TenantID s) (sel_Start s) (sel_End s) (sel_Signal s) (sel_Signals s) (sel_SeriesIDs s) ids (sel_Limit s) (sel_After s) (sel_SketchOnly s).
Definition set_sketchOnly (s : Selector) : Selector :=
  mkSelector (sel_TenantID s) (sel_Start s) (sel_End s) (sel_Signal s) (sel_Signals s) (sel_SeriesIDs s) (sel_ServiceIDs s) (sel_Limit s) (sel_After s) true.

(** The retention of 168 hours and one window of slack. *)
(* internal/aggregate/store.go:505-505 MaxReadWindowSpan *)
Definition MaxReadWindowSpan : Z := 168 * 3600 + windowSec.

(** The effective row limit. *)
(* internal/aggregate/store.go:508-532 Selector.Validate *)
Definition Validate (s : Selector) : exec Z :=
  if (sel_TenantID s =? 0) && (sel_Start s =? 0) && (sel_End s =? 0) then oops ErrSelectorUnbounded
  else if (sel_Start s <=? 0) || (sel_End s <=? 0) || (sel_End s <=? sel_Start s) then oops ErrSelectorUnbounded
  else if MaxReadWindowSpan <? sel_End s - sel_Start s then oops ErrSelectorUnbounded
  else if MaxReadRows <? Z.of_nat (length (sel_SeriesIDs s)) then oops ErrSelectorUnbounded
  else if MaxReadRows <? Z.of_nat (length (sel_ServiceIDs s)) then oops ErrSelectorUnbounded
  else if negb (sel_Signal s =? SignalUnspecified) && (0 <? length (sel_Signals s))%nat then oops ErrSelectorUnbounded
  else fine (if (sel_Limit s <=? 0) || (MaxReadRows <? sel_Limit s) then MaxReadRows else sel_Limit s).

(** Columns of a series row, as [insertSeries] binds them. *)
Definition series_col (args : list Z) (i : nat) : Z := default 0 (args !! i).

(* internal/aggregate/store_sqlite.go:1866-1886 appendSeriesFilter *)
Definition appendSeriesFilter (s : Selector) (args : list Z) : bool :=
  (series_col args 0 =? sel_TenantID s) &&
  (if negb (sel_Signal s =? SignalUnspecified) then series_col args 4 =? sel_Signal s
   else if (0 <? length (sel_Signals s))%nat then bool_decide (series_col args 4 ∈ sel_Signals s) else true) &&
  (if (0 <? length (sel_ServiceIDs s))%nat then bool_decide (series_col args 1 ∈ sel_ServiceIDs s) else true).

(** The series of the file that pass, and the row predicates on top. *)
(* internal/aggregate/store_sqlite.go:1850-1864 appendBucketScope *)
Definition appendBucketScope (f : StoreFile) (s : Selector) (id : Z) (row : list sql_value) : bool :=
  match sf_series f !! id with Some args => appendSeriesFilter s args | None => false end &&
  (if (0 <? length (sel_SeriesIDs s))%nat then bool_decide (id ∈ sel_SeriesIDs s) else true) &&
  (if sel_SketchOnly s then match row !! 17%nat with Some VNull | None => false | Some _ => true end else true).

(* internal/aggregate/store_sqlite.go:1844-1848 appendBucketFilter *)
Definition appendBucketFilter (f : StoreFile) (s : Selector) (key : Z * Z) (row : list sql_value) : bool :=
  (sel_Start s <=? key.1) && (key.1 <? sel_End s) && appendBucketScope f s key.2 row.

(** The rows of a table that pass, by window and series. *)
Definition selected (f : StoreFile) (s : Selector) (m : gmap (Z * Z) (list sql_value)) : list ((Z * Z) * list sql_value) :=
  omap (fun key => row ← m !! key; if appendBucketFilter f s key row then Some (key, row) else None) (ordered m).

(** ** Pages of rows *)

(* internal/aggregate/store.go:335-343 Bucket *)
Record Bucket := mkBucket { bk_WindowStart : Z; bk_SeriesID : Z; bk_Delta : AggregateDelta; bk_Source : BucketSource }.

(* internal/aggregate/store.go:346-358 BucketPage *)
Record BucketPage := mkBucketPage { bp_Buckets : list Bucket; bp_Limit : Z; bp_Truncated : bool; bp_Next : BucketCursor }.

Abbreviation source_row := ((Z * Z) * BucketSource * list sql_value)%type (only parsing).

(** (window, series, source), the order of the pages. *)
Definition row_before (a b : Z * Z * BucketSource) : Prop :=
  a.1.1 < b.1.1 \/ a.1.1 = b.1.1 /\ (a.1.2 < b.1.2 \/ a.1.2 = b.1.2 /\ source_rank a.2 <= source_rank b.2).

#[global] Instance row_before_dec a b : Decision (row_before a b).
Proof. unfold row_before. apply _. Defined.

(* internal/aggregate/store_sqlite.go:1816-1829 appendBucketUnion *)
Definition appendBucketUnion (f : StoreFile) (s : Selector) : list source_row :=
  ((fun p => (p.1, SourceFinalized, p.2)) <$> selected f s (sf_buckets f)) ++ ((fun p => (p.1, SourceDelta, p.2)) <$> selected f s (sf_log f)).

(** What the statement answers before its LIMIT. *)
Definition page_rows (f : StoreFile) (s : Selector) : list source_row :=
  let rows := merge_sort (fun a b => row_before a.1 b.1) (appendBucketUnion f s) in
  if cursor_zero (sel_After s) then rows else filter (fun r => cursor_After (sel_After s) r.1.1.1 r.1.1.2 r.1.2 = true) rows.

Definition cursor_of (b : Bucket) : BucketCursor := mkCursor (bk_WindowStart b) (bk_SeriesID b) (bk_Source b).

(** The loop over the rows; the row past the limit is decoded, not returned. *)
Fixpoint page_loop (limit : nat) (rows : list source_row) (out : list Bucket) : exec (list Bucket * bool * BucketCursor) :=
  match rows with
  | [] => fine (out, false, mkCursor 0 0 SourceFinalized)
  | (key, src, row) :: rows =>
      let! d := scanDelta row in
      if (length out =? limit)%nat then
        fine (out, true, from_option cursor_of (mkCursor 0 0 SourceFinalized) (last out))
      else page_loop limit rows (out ++ [mkBucket key.1 key.2 d src])
  end.

(** A live context and a driver that answers. *)
(* internal/aggregate/store_sqlite.go:1324-1401 SQLiteStore.ReadBuckets *)
Definition ReadBuckets (f : StoreFile) (s : Selector) : exec BucketPage :=
  let! limit := Validate s in
  let! (out, truncated, next) := page_loop (Z.to_nat limit) (take (Z.to_nat (limit + 1)) (page_rows f s)) [] in
  fine (mkBucketPage out limit truncated next).

(** ** Sums by group *)

Definition GroupByWindow : Z := 1.
Definition GroupByService : Z := 2.
Definition GroupByName : Z := 4.
Definition GroupBySignal : Z := 8.

Definition by_has (by_ flag : Z) : bool := negb (Z.land by_ flag =? 0).

(* internal/aggregate/store.go:474-492 SumRow *)
Record SumRow := mkSumRow {
  sr_WindowStart : Z;
  sr_ServiceID : Z;
  sr_NameID : Z;
  sr_Signal : Z;
  sr_Count : Z;
  sr_ErrorCount : Z;
  sr_RequestCount : Z;
  sr_ErrorRequestCount : Z;
  sr_DurationCount : Z;
  sr_DurationSum : f64;
  sr_LogCount : Z;
  sr_IdentityCount : Z;
}.

(** Window, service, name and signal; a key that is not grouped by is 0. *)
Abbreviation group_key := (Z * Z * Z * Z)%type (only parsing).

(* internal/aggregate/rollup.go:14-14 rollupHour *)
Definition rollupHour : Z := 3600.

(** The hour of a second, rounded towards minus infinity. *)
(* internal/aggregate/rollup.go:23-23 hourStart *)
Definition hourStart (t : Z) : Z := t - Z.rem (Z.rem t rollupHour + rollupHour) rollupHour.

(** How SQLite adds REAL values. *)
Class SqlSum := { sum_real : list f64 -> f64 }.

(** SUM over INTEGER values: an error on overflow. *)
Definition sql_sum (l : list Z) : option Z :=
  foldl (fun acc z => s ← acc; if (- 2 ^ 63 <=? s + z) && (s + z <? 2 ^ 63) then Some (s + z) else None) (Some 0) l.

Definition col_int (row : list sql_value) (i : nat) : Z := match row !! i with Some (VInt z) => z | _ => 0 end.
Definition col_real (row : list sql_value) (i : nat) : f64 := match row !! i with Some (VReal x) => x | _ => f_zero end.

(** The values one row adds: points, errors, requests, failed requests,
    durations, logs, and the points of an overflow identity. *)
Record sum_values := mkSumValues { sv_ints : list Z; sv_real : f64 }.

(** [sumColumnList] *)
Definition sum_columns : list nat := [0; 1; 18; 19; 2; 14]%nat.

Definition row_values (row : list sql_value) : sum_values := mkSumValues (col_int row <$> sum_columns) (col_real row 3).

(** The rows of a group, in the order they come. *)
Definition grouped {K} `{Countable K} {A} (key : A -> K) (l : list A) : gmap K (list A) :=
  foldl (fun m x => <[key x := default [] (m !! key x) ++ [x]]> m) ∅ l.

Section Sums.
Context `{SqlSum}.

Definition add_up (columns : nat) (l : list sum_values) : exec sum_values :=
  match mapM (fun i => sql_sum ((fun v => default 0 (sv_ints v !! i)) <$> l)) (seq 0 columns) with
  | Some ints => fine (mkSumValues ints (match l with [] => f_zero | _ => sum_real (sv_real <$> l) end))
  | None => oops ErrDriver
  end.

(** SELECT keys, SUM(...) ... GROUP BY keys, with its groups in order. *)
Definition sum_groups {K} `{Countable K} (columns : nat) (l : list (K * sum_values)) : exec (list (K * sum_values)) :=
  exec_foldl (fun out p => let! v := add_up columns (snd <$> p.2) in fine (out ++ [(p.1, v)])) [] (map_to_list (grouped fst l)).

(** A service, a name or a dimension tuple whose value is [OtherValue]. *)
Definition other_identity (f : StoreFile) (args : list Z) : bool :=
  let other id := bool_decide (de_Value <$> sf_dict f !! id = Some OtherValue) in
  other (series_col args 1) || other (series_col args 2) || other (series_col args 3).

Definition group_of (by_ : Z) (window : Z) (args : list Z) : group_key :=
  (if by_has by_ GroupByWindow then window else 0, if by_has by_ GroupByService then series_col args 1 else 0,
   if by_has by_ GroupByName then series_col args 2 else 0, if by_has by_ GroupBySignal then series_col args 4 else 0).

(** The values of a row in its group, with the identity count. *)
Definition keyed (f : StoreFile) (by_ : Z) (p : (Z * Z) * sum_values) : option (group_key * sum_values) :=
  args ← sf_series f !! p.1.2;
  let points := default 0 (sv_ints p.2 !! 0%nat) in
  Some (group_of by_ p.1.1 args,
    mkSumValues (sv_ints p.2 ++ [if other_identity f args then points else 0]) (sv_real p.2)).

(** One table; but for the hourly one its rows are summed by series first,
    unless windows are asked for. *)
Definition sum_branch (f : StoreFile) (s : Selector) (by_ : Z) (src : bool * gmap (Z * Z) (list sql_value)) : exec (list (group_key * sum_values)) :=
  let '(hourly, m) := src in
  let rows := (fun p => (p.1, row_values p.2)) <$> selected f s m in
  let joinSeries := by_has by_ GroupByService || by_has by_ GroupByName || by_has by_ GroupBySignal in
  let! rows :=
    if joinSeries && negb (by_has by_ GroupByWindow) && negb hourly
    then sum_groups 6 ((fun p => ((0, p.1.2), p.2)) <$> rows)
    else fine rows in
  sum_groups 7 (omap (keyed f by_) rows).

(** The two tables read: a complete hour that was rolled up is read from the
    hourly table. *)
Definition history_sources (f : StoreFile) (hourly : gmap (Z * Z) (list sql_value)) (s : Selector) (by_ : Z) (rolled : bool) : list (bool * gmap (Z * Z) (list sql_value)) :=
  let rolled := rolled && negb (by_has by_ GroupByWindow) && negb (sel_SketchOnly s) &&
    (sel_Start s =? hourStart (sel_Start s)) && (sel_End s - sel_Start s =? rollupHour) in
  [if rolled then (true, hourly) else (false, sf_buckets f); (false, sf_log f)].

(** Both tables, and the sums of their groups; without a group one row. *)
(* internal/aggregate/store_sqlite.go:1412-1532 sumHistoryQuery *)
Definition sumHistoryQuery (f : StoreFile) (hourly : gmap (Z * Z) (list sql_value)) (s : Selector) (by_ : Z) (rolled : bool) : exec (list (group_key * sum_values)) :=
  let! branches := exec_foldl (fun out src => let! b := sum_branch f s by_ src in fine (out ++ b)) [] (history_sources f hourly s by_ rolled) in
  if by_ =? 0 then let! v := add_up 7 (snd <$> branches) in fine [((0, 0, 0, 0), v)]
  else sum_groups 7 branches.

Definition sum_row (p : group_key * sum_values) : SumRow :=
  let '((window, service, name, signal), v) := p in
  let at_ i := default 0 (sv_ints v !! i) in
  mkSumRow window (u32 service) (u32 name) (u8 signal) (u64 (at_ 0%nat)) (u64 (at_ 1%nat)) (u64 (at_ 2%nat)) (u64 (at_ 3%nat))
    (u64 (at_ 4%nat)) (sv_real v) (u64 (at_ 5%nat)) (clampUint64 (at_ 6%nat)).

(* internal/aggregate/store_sqlite.go:1620-1666 readSumQuery *)
Definition readSumQuery (rows : exec (list (group_key * sum_values))) : exec (list SumRow) :=
  let! rows := rows in fine (sum_row <$> rows).

(* internal/aggregate/store_sqlite.go:1615-1618 readSumBuckets *)
Definition readSumBuckets (f : StoreFile) (hourly : gmap (Z * Z) (list sql_value)) (s : Selector) (by_ : Z) (rolled : bool) : exec (list SumRow) :=
  readSumQuery (sumHistoryQuery f hourly s by_ rolled).

End Sums.
