(* ===== verification/Query.v ===== *)
(** * Query: the engine's query facade ([internal/aggregate/query.go])

    A query plans which windows memory serves and which the store, folds the
    cells of the first and the grouped rows of the second into accumulators,
    and renders them in order.  The store is an interface ([QueryStore]); the
    SQLite store answers from one snapshot, any other is read in chunks.  The
    context is live; a quantile or merge that panics is [None]. *)
From stdpp Require Import sorting.
From S2P Require Import Prelude Float64 SeriesKey Dict Registrar Identity Gc TopoIdentity.
From S2P Require Import Sketch SketchCodec Histogram Delta Limiter Baseline Engine Topology TopologySnapshot.
From S2P Require Import StoreRows StoreTables StoreReads.
#[local] Open Scope Z_scope.

(** ** Coverage and accuracy *)

(* internal/aggregate/query.go:32-32 Coverage *)
Inductive Coverage := CoverageFull | CoverageLimited | CoverageSampled | CoverageExemplar.

#[global] Instance Coverage_eq_dec : EqDecision Coverage.
Proof. solve_decision. Defined.

Definition SampledCoverageNote : string :=
  "counts and rates are exact for accepted telemetry; parts of this response are derived from retained exemplars and are not complete".
Definition ExemplarCoverageNote : string :=
  "results come from retained raw exemplars only; a missing exemplar does not mean zero matching events occurred".
Definition LimitedCoverageNote : string :=
  "unfiltered counts include all accepted telemetry; some names or dimensions were merged into __other__; named results may be incomplete".

(* internal/aggregate/query.go:68-79 Coverage.Note *)
Definition Note (c : Coverage) : string :=
  match c with
  | CoverageLimited => LimitedCoverageNote
  | CoverageSampled => SampledCoverageNote
  | CoverageExemplar => ExemplarCoverageNote
  | CoverageFull => ""
  end.

(* internal/aggregate/identity_coverage.go:31-36 IdentityCoverage.coverage *)
Definition coverage (c : IdentityCoverage) : Coverage := if Limited c then CoverageLimited else CoverageFull.

(* internal/aggregate/query.go:85-119 AccuracyMetadata *)
Record AccuracyMetadata := mkAccuracy {
  am_Approximate : bool;
  am_SketchScale : Z;
  am_RelativeErrorBound : f64;
  am_Degraded : bool;
  am_SourceBucketError : f64;
  am_UnboundedTail : bool;
  am_UnboundedTailBound : f64;
  am_PercentilesUnavailable : bool;
  am_PercentilesUnavailableReason : string;
}.

(** ** Requests and answers *)

(* internal/aggregate/query.go:201-210 Query *)
Record Query := mkQuery { q_Tenant : string; q_Start : time; q_End : time; q_Services : list string; q_Signal : Z }.

(* internal/aggregate/query.go:217-225 TrafficPoint *)
Record TrafficPoint := mkPoint {
  tp_WindowStart : time;
  tp_RequestCount : Z;
  tp_ErrorRequestCount : Z;
  tp_SpanCount : Z;
  tp_SpanErrorCount : Z;
}.

(* internal/aggregate/query.go:228-234 BucketsResult *)
Record BucketsResult := mkBucketsResult {
  br_Points : list TrafficPoint;
  br_Coverage : Coverage;
  br_Epoch : string;
  br_Revision : Z;
  br_IdentityCoverage : IdentityCoverage;
}.

(* internal/aggregate/query.go:242-252 ServiceStat *)
Record ServiceStat := mkServiceStat {
  ss_Service : string;
  ss_Count : Z;
  ss_ErrorCount : Z;
  ss_ErrorRate : f64;
  ss_AvgLatencyMs : f64;
  ss_P99LatencyMicros : f64;
  ss_LatencyProvenance : Provenance;
  ss_RequestCount : Z;
  ss_ErrorRequestCount : Z;
}.

(* internal/aggregate/query.go:260-284 DashboardResult *)
Record DashboardResult := mkDashboard {
  db_RequestCount : Z;
  db_ErrorRequestCount : Z;
  db_RequestErrorRate : f64;
  db_SpanCount : Z;
  db_SpanErrorCount : Z;
  db_SpanErrorRate : f64;
  db_TotalLogs : Z;
  db_AvgLatencyMs : f64;
  db_ActiveServices : Z;
  db_P99LatencyMicros : f64;
  db_LatencyProvenance : Provenance;
  db_TopFailing : list ServiceStat;
  db_Accuracy : AccuracyMetadata;
  db_Coverage : Coverage;
  db_Epoch : string;
  db_Revision : Z;
  db_IdentityCoverage : IdentityCoverage;
}.

(* internal/aggregate/query.go:287-292 TopologyEdge *)
Record TopologyEdge := mkEdge { te_Source : string; te_Target : string; te_CallCount : Z; te_AvgLatencyMs : f64; te_ErrorRate : f64 }.

(* internal/aggregate/query.go:301-308 TopologyResult *)
Record TopologyResult := mkTopologyResult {
  tr_Nodes : list ServiceStat;
  tr_Edges : list TopologyEdge;
  tr_Coverage : Coverage;
  tr_Epoch : string;
  tr_Revision : Z;
  tr_IdentityCoverage : IdentityCoverage;
}.

(** [math.MaxInt64] *)
Definition MaxInt64 : Z := 2 ^ 63 - 1.

(* internal/aggregate/query.go:314-319 asInt64 *)
Definition asInt64 (v : Z) : Z := if MaxInt64 <? v then MaxInt64 else v.

(* internal/aggregate/query.go:731-740 serviceFilter *)
Definition serviceFilter (services : list string) : option (gset string) :=
  if (length services =? 0)%nat then None else Some (list_to_set services).

(** Membership in the filter, when there is one. *)
Definition in_filter (filter : option (gset string)) (name : string) : bool :=
  match filter with None => true | Some set => bool_decide (name ∈ set) end.

(** ** The store *)

(** What a query asks of a store: grouped sums, the traffic projection of
    them, sketches by service, and the dictionary of its snapshot. *)
Class QueryStore (S : Type) := {
  qs_sqlite : bool;                                            (** st is a SQLiteStore *)
  qs_SumBuckets : S -> Selector -> Z -> exec (list SumRow);
  qs_traffic : S -> Selector -> Z -> exec (list SumRow);
  qs_VisitSketches : S -> Selector -> exec (list (Z * Sketch));
  qs_service : S -> Z -> string -> option Z;                   (** tenant and service name to ID *)
  qs_name : S -> Z -> string;                                  (** the value of an ID, or the empty string *)
}.

(* internal/aggregate/query.go:448-455 storeReadFanout *)
Definition storeReadFanout : Z := 4.
Definition storeReadChunkMinWindows : Z := 6.

(** The chunks from [start] on; the fuel is one more than the parts. *)
Fixpoint split_from (fuel : nat) (sel : Selector) (start step : Z) : list Selector :=
  match fuel with
  | O => []
  | S fuel =>
      if start <? sel_End sel
      then set_range sel start (Z.min (start + step) (sel_End sel)) :: split_from fuel sel (start + step) step
      else []
  end.

(* internal/aggregate/query.go:460-479 splitSelector *)
Definition splitSelector (sel : Selector) : list Selector :=
  let windows := Z.quot (sel_End sel - sel_Start sel) windowSec in
  let parts := Z.quot windows storeReadChunkMinWindows in
  let parts := if storeReadFanout <? parts then storeReadFanout else parts in
  if parts <=? 1 then [sel]
  else
    let per := Z.quot (windows + parts - 1) parts in
    split_from (S (Z.to_nat parts)) sel (sel_Start sel) (per * windowSec).

(* internal/aggregate/query.go:536-540 sumGroupKey *)
Definition sumGroupKey (r : SumRow) : group_key := (sr_WindowStart r, sr_ServiceID r, sr_NameID r, sr_Signal r).

Definition add_sums (acc r : SumRow) : SumRow :=
  mkSumRow (sr_WindowStart acc) (sr_ServiceID acc) (sr_NameID acc) (sr_Signal acc)
    (u64 (sr_Count acc + sr_Count r)) (u64 (sr_ErrorCount acc + sr_ErrorCount r))
    (u64 (sr_RequestCount acc + sr_RequestCount r)) (u64 (sr_ErrorRequestCount acc + sr_ErrorRequestCount r))
    (u64 (sr_DurationCount acc + sr_DurationCount r)) (fadd (sr_DurationSum acc) (sr_DurationSum r))
    (u64 (sr_LogCount acc + sr_LogCount r)) (u64 (sr_IdentityCount acc + sr_IdentityCount r)).

(* internal/aggregate/query.go:542-559 mergeSumRow *)
Definition mergeSumRow (st : list SumRow * gmap group_key nat) (r : SumRow) : list SumRow * gmap group_key nat :=
  let '(out, groups) := st in
  match groups !! sumGroupKey r with
  | None => (out ++ [r], <[sumGroupKey r := length out]> groups)
  | Some i => (match out !! i with Some acc => <[i := add_sums acc r]> out | None => out end, groups)
  end.

(** One accumulator. *)
(* internal/aggregate/query.go:895-903 dashAccum *)
Record dashAccum := mkDash {
  da_count : Z;
  da_errors : Z;
  da_requests : Z;
  da_errRequests : Z;
  da_durCount : Z;
  da_durSum : f64;
  da_sketch : option Sketch;
}.

Definition empty_accum : dashAccum := mkDash 0 0 0 0 0 f_zero None.

(** A sketch merged into one that may not be there yet. *)
Definition merge_into (acc : option Sketch) (s : option Sketch) : option (option Sketch) :=
  match s with
  | None => Some acc
  | Some s' => m ← Merge (default (NewSketchAtScaleUnchecked (sk_scale s')) acc) s; Some (Some m)
  end.

(* internal/aggregate/query.go:905-913 dashAccum.mergeSketch *)
Definition mergeSketch (a : dashAccum) (s : option Sketch) : option dashAccum :=
  sk ← merge_into (da_sketch a) s;
  Some (mkDash (da_count a) (da_errors a) (da_requests a) (da_errRequests a) (da_durCount a) (da_durSum a) sk).

(* internal/aggregate/query.go:916-924 dashAccum.addDelta *)
Definition addDelta (a : dashAccum) (d : AggregateDelta) : option dashAccum :=
  let c := d_counts d in
  mergeSketch
    (mkDash (u64 (da_count a + d_Count c)) (u64 (da_errors a + d_ErrorCount c)) (u64 (da_requests a + d_RequestCount c))
      (u64 (da_errRequests a + d_ErrorRequestCount c)) (u64 (da_durCount a + d_DurationCount (d_durations d)))
      (fadd (da_durSum a) (d_DurationSum (d_durations d))) (da_sketch a)) (d_Sketch d).

(* internal/aggregate/query.go:927-934 dashAccum.addSum *)
Definition addSum (a : dashAccum) (r : SumRow) : dashAccum :=
  mkDash (u64 (da_count a + sr_Count r)) (u64 (da_errors a + sr_ErrorCount r)) (u64 (da_requests a + sr_RequestCount r))
    (u64 (da_errRequests a + sr_ErrorRequestCount r)) (u64 (da_durCount a + sr_DurationCount r))
    (fadd (da_durSum a) (sr_DurationSum r)) (da_sketch a).

(** The four counts of a window, as int64. *)
(* internal/aggregate/query.go:743-746 trafficCounters *)
Record trafficCounters := mkTraffic { tc_requests : Z; tc_errRequests : Z; tc_spans : Z; tc_spanErrors : Z }.

(* internal/aggregate/query.go:749-754 trafficCounters.add *)
Definition traffic_add (c : trafficCounters) (d : AggregateDelta) : trafficCounters :=
  let n := d_counts d in
  mkTraffic (i64 (tc_requests c + asInt64 (d_RequestCount n))) (i64 (tc_errRequests c + asInt64 (d_ErrorRequestCount n)))
    (i64 (tc_spans c + asInt64 (d_Count n))) (i64 (tc_spanErrors c + asInt64 (d_ErrorCount n))).

(* internal/aggregate/query.go:757-762 trafficCounters.addSum *)
Definition traffic_addSum (c : trafficCounters) (r : SumRow) : trafficCounters :=
  mkTraffic (i64 (tc_requests c + asInt64 (sr_RequestCount r))) (i64 (tc_errRequests c + asInt64 (sr_ErrorRequestCount r)))
    (i64 (tc_spans c + asInt64 (sr_Count r))) (i64 (tc_spanErrors c + asInt64 (sr_ErrorCount r))).

Definition no_traffic : trafficCounters := mkTraffic 0 0 0 0.

(* internal/aggregate/query.go:766-771 trafficSumRow *)
Record trafficSumRow := mkTrafficRow { tsr_window : Z; tsr_service : Z; tsr_identity : Z; tsr_counts : trafficCounters }.

(* internal/aggregate/query.go:773-781 trafficRows *)
Definition trafficRows (rows : list SumRow) : list trafficSumRow :=
  (fun r => mkTrafficRow (sr_WindowStart r) (sr_ServiceID r) (sr_IdentityCount r) (traffic_addSum no_traffic r)) <$> rows.

Section Queries.
Context {R : Type} `{Dict.Registrar R} `{Resolver R} `{identityFinder R} `{GoMath}.
Context {St : Type} `{!QueryStore St}.
Implicit Types c : Cache R.

(* internal/aggregate/query.go:145-160 AccuracyFromSketch *)
Definition AccuracyFromSketch (s : option Sketch) : AccuracyMetadata :=
  match s with
  | None =>
      let gamma := sketchBase SketchDefaultScale in
      mkAccuracy true SketchDefaultScale (fdiv (fsub gamma f_one) (fadd gamma f_one)) false f_zero false f_zero false ""
  | Some s => mkAccuracy true (sk_scale s) (RelativeError s) (sk_collapsed s || (0 <? sk_saturations s)) f_zero false f_zero false ""
  end.

(* internal/aggregate/query.go:125-140 AccuracyFromHistogramDelta *)
Definition AccuracyFromHistogramDelta (d : option AggregateDelta) : AccuracyMetadata :=
  match d with
  | None => AccuracyFromSketch None
  | Some d =>
      let acc := AccuracyFromSketch (d_Sketch d) in
      let flags := d_HistogramFlags (d_hist d) in
      let tail := negb (Z.land flags HistUnboundedTail =? 0) in
      let unavailable := negb (Z.land flags HistPercentilesUnavailable =? 0) in
      mkAccuracy (am_Approximate acc) (am_SketchScale acc) (am_RelativeErrorBound acc) (am_Degraded acc)
        (d_HistogramSourceError (d_hist d)) tail (if tail then d_HistogramTailBound (d_hist d) else f_zero)
        unavailable (if unavailable then SketchDropReason_String (histReason flags) else "")
  end.

(** ** Planning *)

(** The cache is asked for the tenant only when the bounds are in order; the
    plan of a store that is no SQLite store has its services selected from it. *)
(* internal/aggregate/query.go:349-401 Engine.planStore *)
Definition plan_query c (e : Engine) (st : option St) (q : Query) (signal : Z)
    : Cache R * exec (Ownership * list (Z * SeriesKey * AggregateDelta) * option Selector) :=
  if String.eqb (q_Tenant q) "" || negb (t_After (q_End q) (q_Start q)) then (c, oops ErrSelectorUnbounded)
  else
    let '(c, tenant) := InternTenant c (q_Tenant q) in
    match planStore (fun _ => tenant) e (q_Tenant q) (q_Start q) (q_End q) signal (match st with Some _ => true | None => false end) with
    | Err _ => (c, oops ErrSelectorUnbounded)
    | Ok (own, visits, None) => (c, fine (own, visits, None))
    | Ok (own, visits, Some (lo, hi)) =>
        let tenantID := default 0 tenant in
        let '(c, ids) := if qs_sqlite then (c, None) else selectedServiceIDs c tenantID (q_Services q) in
        (c, fine (own, visits, Some (mkSelector tenantID lo hi signal [] [] (default [] ids) 0 (mkCursor 0 0 SourceFinalized) false)))
    end.

(** ** Reading the store *)

(* internal/aggregate/query.go:483-488 historySelectors *)
Definition historySelectors (sel : Selector) : list Selector := if qs_sqlite then [sel] else splitSelector sel.

(** The chunks are read beside each other; the first error in order. *)
(* internal/aggregate/query.go:496-534 sumStoreFrom *)
Definition sumStoreFrom (st : option St) (sel : Selector) (by_ : Z) : exec (list SumRow) :=
  match st with
  | None => fine []
  | Some st =>
      match historySelectors sel with
      | [_] => qs_SumBuckets st sel by_
      | chunks =>
          let! results := exec_foldl (fun out chunk => let! rows := qs_SumBuckets st chunk by_ in fine (out ++ [rows])) [] chunks in
          fine (foldl mergeSumRow ([], ∅) (mjoin results)).1
      end
  end.

(** The verdict of each service is computed once; a name is a function of its ID. *)
(* internal/aggregate/query.go:664-693 collectStoreSketchesNamed *)
Definition collectStoreSketchesNamed (st : St) (sel : Selector) (filter : option (gset string)) (name : Z -> string) : exec (gmap Z Sketch) :=
  let! rows := qs_VisitSketches st sel in
  exec_foldl (fun out '(sid, sk) =>
    if in_filter filter (name sid) then
      let acc := default (NewSketchAtScaleUnchecked (sk_scale sk)) (out !! sid) in
      let! m := lift (Merge acc (Some sk)) in
      fine (<[sid := m]> out)
    else fine out) ∅ rows.

(** One sketch of a chunk; a service new to the result is visited last. *)
Definition gather_one (acc : gmap Z Sketch * list Z) (p : Z * Sketch) : exec (gmap Z Sketch * list Z) :=
  let '(byService, order) := acc in
  match byService !! p.1 with
  | None => fine (<[p.1 := p.2]> byService, order ++ [p.1])
  | Some cur => let! m := lift (Merge cur (Some p.2)) in fine (<[p.1 := m]> byService, order)
  end.

(** The services and sketches in the order they are visited. *)
(* internal/aggregate/query.go:581-655 visitStoreSketchesFrom *)
Definition visitStoreSketchesFrom (st : option St) (name : Z -> string) (sel : Selector) (filter : option (gset string)) : exec (list (Z * Sketch)) :=
  match st with
  | None => fine []
  | Some st =>
      let sel := set_sketchOnly (set_signal sel SignalTraceOp) in
      let! perChunk := exec_foldl (fun out chunk => let! m := collectStoreSketchesNamed st chunk filter name in fine (out ++ [m])) [] (splitSelector sel) in
      let! (byService, order) := exec_foldl (fun acc m => exec_foldl gather_one acc (map_to_list m)) (∅, []) perChunk in
      fine (omap (fun sid => sk ← byService !! sid; Some (sid, sk)) order)
  end.

(** One service name of the selection of a snapshot. *)
Definition snapshot_one (st : St) (tenant : Z) (acc : list Z * gset Z) (value : string) : list Z * gset Z :=
  match qs_service st tenant value with
  | None => acc
  | Some sid => if bool_decide (sid ∈ acc.2) then acc else (acc.1 ++ [sid], {[sid]} ∪ acc.2)
  end.

(** The selector narrowed to the services asked for, when SQLite answers. *)
(* internal/aggregate/query.go:1329-1361 beginEndpointSnapshot *)
Definition beginEndpointSnapshot (st : St) (sel : Selector) (services : list string) : Selector :=
  if qs_sqlite && (0 <? length services)%nat
  then set_services sel (foldl (snapshot_one st (sel_TenantID sel)) ([0], ∅) (services ++ [OtherValue])).1
  else sel.

(** The name of an ID in a row of the store; a snapshot does not look up 0. *)
(* internal/aggregate/query.go:1373-1389 endpointSnapshot.name *)
Definition snapshot_name c (st : St) (sid : Z) : string :=
  if qs_sqlite then (if sid =? 0 then "" else qs_name st sid) else nameByID c sid.

(** The sums of a query with a snapshot, and of one without. *)
Definition sums_for (st : St) (sel : Selector) (by_ : Z) : exec (list SumRow) :=
  if qs_sqlite then qs_SumBuckets st sel by_ else sumStoreFrom (Some st) sel by_.

Definition traffic_for (st : St) (sel : Selector) (by_ : Z) : exec (list trafficSumRow) :=
  let! rows := (if qs_sqlite then let! _ := Validate sel in qs_traffic st sel by_ else sumStoreFrom (Some st) sel by_) in
  fine (trafficRows rows).

(** ** Traffic *)

Definition traffic_state : Type := IdentityCoverage * gmap Z trafficCounters.

Definition at_window (m : gmap Z trafficCounters) (w : Z) (f : trafficCounters -> trafficCounters) : gmap Z trafficCounters :=
  <[w := f (default no_traffic (m !! w))]> m.

(** A cell of memory. *)
Definition visit_traffic c (filter : option (gset string)) (st : traffic_state) (cell : Z * SeriesKey * AggregateDelta) : traffic_state :=
  let '(identity, byWindow) := st in
  let '(windowStart, key, d) := cell in
  let name := serviceName c key in
  (if identityMatchesFilter name filter && identityLimited c key then coverage_add identity (KSignal key) (d_Count (d_counts d)) else identity,
   if in_filter filter name then at_window byWindow windowStart (fun t => traffic_add t d) else byWindow).

(** A row of the store. *)
Definition row_traffic (name : Z -> string) (filter : option (gset string)) (signal : Z) (st : traffic_state) (r : trafficSumRow) : traffic_state :=
  let '(identity, byWindow) := st in
  let n := name (tsr_service r) in
  (if identityMatchesFilter n filter then coverage_add identity signal (tsr_identity r) else identity,
   if in_filter filter n then
     at_window byWindow (tsr_window r) (fun t =>
       mkTraffic (i64 (tc_requests t + tc_requests (tsr_counts r))) (i64 (tc_errRequests t + tc_errRequests (tsr_counts r)))
         (i64 (tc_spans t + tc_spans (tsr_counts r))) (i64 (tc_spanErrors t + tc_spanErrors (tsr_counts r))))
   else byWindow).

(** [time.Unix(start, 0).UTC()] orders as its seconds do. *)
Definition traffic_points (m : gmap Z trafficCounters) : list TrafficPoint :=
  (fun w => let t := default no_traffic (m !! w) in
     mkPoint (t_of_unix w) (tc_requests t) (tc_errRequests t) (tc_spans t) (tc_spanErrors t)) <$> sort_Z (elements (dom m)).

(* internal/aggregate/query.go:789-892 Engine.QueryBuckets *)
Definition QueryBuckets c (e : Engine) (st : option St) (q : Query) : Cache R * exec BucketsResult :=
  let signal := if q_Signal q =? SignalUnspecified then SignalTraceOp else q_Signal q in
  let filter := serviceFilter (q_Services q) in
  let '(c, planned) := plan_query c e st q signal in
  (c,
   let! (own, visits, range) := planned in
   let acc := foldl (visit_traffic c filter) (no_coverage, ∅) visits in
   let! (identity, byWindow) :=
     match st, range with
     | Some st, Some sel =>
         let sel := beginEndpointSnapshot st sel (q_Services q) in
         let by_ := match filter with None => GroupByWindow | Some _ => Z.lor GroupByWindow GroupByService end in
         let! sums := traffic_for st sel by_ in
         fine (foldl (row_traffic (snapshot_name c st) filter signal) acc sums)
     | _, _ => fine acc
     end in
   fine (mkBucketsResult (traffic_points byWindow) (coverage identity) (Epoch own) (Revision own) identity)).

(** ** Dashboard *)

Record dash_state := mkDashState {
  ds_total : dashAccum;
  ds_logs : Z;
  ds_merged : option Sketch;
  ds_perSvc : gmap string dashAccum;
  ds_services : gset Z;
  ds_identity : IdentityCoverage;
}.

Definition set_identity_of (s : dash_state) (i : IdentityCoverage) : dash_state :=
  mkDashState (ds_total s) (ds_logs s) (ds_merged s) (ds_perSvc s) (ds_services s) i.
Definition add_logs (s : dash_state) (n : Z) : dash_state :=
  mkDashState (ds_total s) (u64 (ds_logs s + n)) (ds_merged s) (ds_perSvc s) (ds_services s) (ds_identity s).
Definition merge_dash (s : dash_state) (sk : option Sketch) : option dash_state :=
  m ← merge_into (ds_merged s) sk;
  Some (mkDashState (ds_total s) (ds_logs s) m (ds_perSvc s) (ds_services s) (ds_identity s)).

(** The closure [accumulate]. *)
Definition accumulate (s : dash_state) (serviceID : Z) (name : string) (r : SumRow) : dash_state :=
  mkDashState (addSum (ds_total s) r) (ds_logs s) (ds_merged s)
    (if String.eqb name "" then ds_perSvc s else <[name := addSum (default empty_accum (ds_perSvc s !! name)) r]> (ds_perSvc s))
    ({[serviceID]} ∪ ds_services s) (ds_identity s).

(** The row a delta in memory stands for. *)
Definition row_of_delta (d : AggregateDelta) : SumRow :=
  let n := d_counts d in
  mkSumRow 0 0 0 0 (d_Count n) (d_ErrorCount n) (d_RequestCount n) (d_ErrorRequestCount n)
    (d_DurationCount (d_durations d)) (d_DurationSum (d_durations d)) 0 0.

Definition is_trace_or (s other : Z) : bool := (s =? SignalTraceOp) || (s =? other).

Definition visit_dash c (filter : option (gset string)) (s : dash_state) (cell : Z * SeriesKey * AggregateDelta) : option dash_state :=
  let '(_, key, d) := cell in
  let name := serviceName c key in
  let s := if is_trace_or (KSignal key) SignalLog && identityMatchesFilter name filter && identityLimited c key
           then set_identity_of s (coverage_add (ds_identity s) (KSignal key) (d_Count (d_counts d))) else s in
  if negb (in_filter filter name) then Some s
  else if KSignal key =? SignalLog then Some (add_logs s (d_LogCount (d_logs d)))
  else if KSignal key =? SignalTraceOp then
    s ← merge_dash s (d_Sketch d);
    Some (accumulate s (ServiceID key) name (row_of_delta d))
  else Some s.

Definition row_dash (name : Z -> string) (filter : option (gset string)) (s : dash_state) (r : SumRow) : dash_state :=
  let n := name (sr_ServiceID r) in
  let s := if identityMatchesFilter n filter then set_identity_of s (coverage_add (ds_identity s) (sr_Signal r) (sr_IdentityCount r)) else s in
  if negb (in_filter filter n) then s
  else if sr_Signal r =? SignalLog then add_logs s (sr_LogCount r)
  else if sr_Signal r =? SignalTraceOp then accumulate s (sr_ServiceID r) n r
  else s.

(** More errors first, then by name. *)
Definition worse (a b : ServiceStat) : Prop := ss_ErrorCount b < ss_ErrorCount a \/ ss_ErrorCount a = ss_ErrorCount b /\ str_le (ss_Service a) (ss_Service b).

#[global] Instance worse_dec a b : Decision (worse a b).
Proof. unfold worse. apply _. Defined.

Definition no_provenance : Provenance := mkProvenance None None None.
Definition rate (n d : Z) : f64 := if 0 <? d then fdiv (f_of_Z n) (f_of_Z d) else f_zero.

Definition failing_stat (p : string * dashAccum) : option ServiceStat :=
  let '(name, acc) := p in
  if da_errors acc =? 0 then None
  else Some (mkServiceStat name (asInt64 (da_count acc)) (asInt64 (da_errors acc)) (rate (da_errors acc) (da_count acc)) f_zero f_zero no_provenance
    (asInt64 (da_requests acc)) (asInt64 (da_errRequests acc))).

(* internal/aggregate/query.go:1092-1121 topFailing *)
Definition topFailing (perSvc : gmap string dashAccum) (limit : nat) : list ServiceStat :=
  take limit (merge_sort worse (omap failing_stat (map_to_list perSvc))).

Definition average_ms (sum : f64) (n : Z) : f64 := if 0 <? n then fdiv (fdiv sum (f_of_Z n)) (f_of_Z 1000) else f_zero.

(* internal/aggregate/query.go:945-1089 Engine.QueryDashboard *)
Definition QueryDashboard c (e : Engine) (st : option St) (q : Query) : Cache R * exec DashboardResult :=
  let filter := serviceFilter (q_Services q) in
  let '(c, planned) := plan_query c e st q SignalUnspecified in
  (c,
   let! (own, visits, range) := planned in
   let! s := lift (opt_foldl (visit_dash c filter) (mkDashState empty_accum 0 None ∅ ∅ no_coverage) visits) in
   let! s :=
     match st, range with
     | Some st, Some sel =>
         let sel := beginEndpointSnapshot st sel (q_Services q) in
         let! sums := sums_for st (set_signals sel [SignalTraceOp; SignalLog]) (Z.lor GroupByService GroupBySignal) in
         let s := foldl (row_dash (snapshot_name c st) filter) s sums in
         let! sketches := visitStoreSketchesFrom (Some st) (snapshot_name c st) sel filter in
         let! s := lift (opt_foldl (fun s p => merge_dash s (Some p.2)) s sketches) in
         fine s
     | _, _ => fine s
     end in
   let t := ds_total s in
   let! p99 := lift (match ds_merged s with Some m => Quantile m q99 | None => Some f_zero end) in
   let percent n d := if 0 <? d then fmul (rate n d) (f_of_Z 100) else f_zero in
   fine (mkDashboard (asInt64 (da_requests t)) (asInt64 (da_errRequests t)) (percent (da_errRequests t) (da_requests t))
     (asInt64 (da_count t)) (asInt64 (da_errors t)) (percent (da_errors t) (da_count t))
     (asInt64 (ds_logs s)) (average_ms (da_durSum t) (da_durCount t)) (Z.of_nat (size (ds_services s))) p99
     (mkProvenance None None (Some (PercentileFromSketch (ds_merged s)))) (topFailing (ds_perSvc s) 5) (AccuracyFromSketch (ds_merged s))
     (coverage (ds_identity s)) (Epoch own) (Revision own) (ds_identity s))).

(** ** Topology *)

Record graph_state := mkGraph { gs_nodes : gmap string dashAccum; gs_edges : gmap topoPair dashAccum; gs_identity : IdentityCoverage }.

(** The closure [keep]. *)
Definition keep (filter : option (gset string)) (name : string) : bool := negb (String.eqb name "") && in_filter filter name.

Definition with_identity (g : graph_state) (i : IdentityCoverage) : graph_state := mkGraph (gs_nodes g) (gs_edges g) i.

Definition update_node (g : graph_state) (name : string) (a : dashAccum) : graph_state :=
  mkGraph (<[name := a]> (gs_nodes g)) (gs_edges g) (gs_identity g).
Definition update_edge (g : graph_state) (p : topoPair) (a : dashAccum) : graph_state :=
  mkGraph (gs_nodes g) (<[p := a]> (gs_edges g)) (gs_identity g).
Definition node_at (g : graph_state) (name : string) : dashAccum := default empty_accum (gs_nodes g !! name).
Definition edge_at (g : graph_state) (p : topoPair) : dashAccum := default empty_accum (gs_edges g !! p).

Definition visit_graph c (filter : option (gset string)) (g : graph_state) (cell : Z * SeriesKey * AggregateDelta) : option graph_state :=
  let '(_, key, d) := cell in
  let g := if is_trace_or (KSignal key) SignalServiceEdge && identityMatchesFilter (serviceName c key) filter && identityLimited c key
           then with_identity g (coverage_add (gs_identity g) (KSignal key) (d_Count (d_counts d))) else g in
  if KSignal key =? SignalTraceOp then
    let name := serviceName c key in
    if negb (keep filter name) then Some g else a ← addDelta (node_at g name) d; Some (update_node g name a)
  else if KSignal key =? SignalServiceEdge then
    let ends := edgeEnds c key in
    if negb (keep filter ends.1) || negb (keep filter ends.2) then Some g
    else a ← addDelta (edge_at g ends) d; Some (update_edge g ends a)
  else Some g.

Definition row_node (name : Z -> string) (filter : option (gset string)) (g : graph_state) (r : SumRow) : graph_state :=
  let n := name (sr_ServiceID r) in
  let g := if identityMatchesFilter n filter then with_identity g (coverage_add (gs_identity g) SignalTraceOp (sr_IdentityCount r)) else g in
  if keep filter n then update_node g n (addSum (node_at g n) r) else g.

Definition sketch_node (name : Z -> string) (filter : option (gset string)) (g : graph_state) (p : Z * Sketch) : option graph_state :=
  let n := name p.1 in
  if keep filter n then a ← mergeSketch (node_at g n) (Some p.2); Some (update_node g n a) else Some g.

Definition row_edge (name : Z -> string) (filter : option (gset string)) (g : graph_state) (r : SumRow) : graph_state :=
  let ends := (name (sr_ServiceID r), name (sr_NameID r)) in
  let g := if identityMatchesFilter ends.1 filter then with_identity g (coverage_add (gs_identity g) SignalServiceEdge (sr_IdentityCount r)) else g in
  if keep filter ends.1 && keep filter ends.2 then update_edge g ends (addSum (edge_at g ends) r) else g.

Definition node_stat (p : string * dashAccum) : option ServiceStat :=
  let '(name, a) := p in
  p99 ← (match da_sketch a with Some sk => Quantile sk q99 | None => Some f_zero end);
  Some (mkServiceStat name (asInt64 (da_count a)) (asInt64 (da_errors a)) (rate (da_errors a) (da_count a)) (average_ms (da_durSum a) (da_durCount a)) p99
    (mkProvenance None None (Some (PercentileFromSketch (da_sketch a)))) (asInt64 (da_requests a)) (asInt64 (da_errRequests a))).

Definition edge_stat (p : topoPair * dashAccum) : TopologyEdge :=
  let '(ends, a) := p in
  mkEdge ends.1 ends.2 (asInt64 (da_count a)) (average_ms (da_durSum a) (da_durCount a)) (rate (da_errors a) (da_count a)).

Definition edge_le (a b : TopologyEdge) : Prop := String.ltb (te_Source a) (te_Source b) = true \/ te_Source a = te_Source b /\ str_le (te_Target a) (te_Target b).

#[global] Instance edge_le_dec a b : Decision (edge_le a b).
Proof. unfold edge_le. apply _. Defined.

(* internal/aggregate/query.go:1296-1319 topologyEdges *)
Definition topologyEdges (acc : gmap topoPair dashAccum) : list TopologyEdge := merge_sort edge_le (edge_stat <$> map_to_list acc).

Definition stat_le (a b : ServiceStat) : Prop := str_le (ss_Service a) (ss_Service b).

#[global] Instance stat_le_dec a b : Decision (stat_le a b).
Proof. unfold stat_le. apply _. Defined.

(** The store's part of a graph. *)
Definition graph_of_store c (filter : option (gset string)) (st : St) (sel : Selector) (g : graph_state) : exec graph_state :=
  let name := snapshot_name c st in
  let! sums := sums_for st (set_signal sel SignalTraceOp) GroupByService in
  let g := foldl (row_node name filter) g sums in
  let! sketches := visitStoreSketchesFrom (Some st) name sel filter in
  let! g := lift (opt_foldl (sketch_node name filter) g sketches) in
  let! edges := sums_for st (set_signal sel SignalServiceEdge) (Z.lor GroupByService GroupByName) in
  fine (foldl (row_edge name filter) g edges).

(* internal/aggregate/query.go:1134-1291 Engine.QueryTopology *)
Definition QueryTopology c (e : Engine) (st : option St) (q : Query) : Cache R * exec TopologyResult :=
  let filter := serviceFilter (q_Services q) in
  let '(c, planned) := plan_query c e st q SignalUnspecified in
  (c,
   let! (own, visits, range) := planned in
   let! g := lift (opt_foldl (visit_graph c filter) (mkGraph ∅ ∅ no_coverage) visits) in
   let! g :=
     match st, range with
     | Some st, Some sel => graph_of_store c filter st (beginEndpointSnapshot st sel (q_Services q)) g
     | _, _ => fine g
     end in
   let! nodes := lift (mapM node_stat (map_to_list (gs_nodes g))) in
   fine (mkTopologyResult (merge_sort stat_le nodes) (topologyEdges (gs_edges g)) (coverage (gs_identity g)) (Epoch own) (Revision own) (gs_identity g))).

End Queries.
