(* ===== verification/QueryFacts.v ===== *)
(** * QueryFacts: queries count everything once

    The contract of a store's sums ([QueryStoreLaws]), its chunked reads, and
    the plan's memory cells as a sum over the engine's memory.  Then the
    traffic, the dashboard and the graph of a query are the sums of the cells
    of memory and store that match it. *)
From stdpp Require Import sorting.
From S2P Require Import Prelude Float64 SeriesKey Dict Registrar Identity Gc TopoIdentity.
From S2P Require Import Sketch SketchCodec Histogram Delta Limiter Baseline Engine EngineTotals EngineReads Topology TopologySnapshot.
From S2P Require Import StoreRows StoreTables StoreFacts StoreReads Query.
#[local] Open Scope Z_scope.

(** ** The contract of a store *)

(** The counts of a row. *)
Inductive sum_field := FCount | FErrors | FRequests | FErrRequests | FDurations | FLogs.

Definition row_field (fld : sum_field) (r : SumRow) : Z :=
  match fld with
  | FCount => sr_Count r | FErrors => sr_ErrorCount r | FRequests => sr_RequestCount r | FErrRequests => sr_ErrorRequestCount r
  | FDurations => sr_DurationCount r | FLogs => sr_LogCount r
  end.

(** One durable cell: a window and a series with its counts. *)
Record stored_cell := mkCell { ce_window : Z; ce_key : SeriesKey; ce_count : sum_field -> Z }.

(** The cell is in the range of the selector and passes its filters. *)
Definition matches (sel : Selector) (x : stored_cell) : bool :=
  (TenantID (ce_key x) =? sel_TenantID sel) && (sel_Start sel <=? ce_window x) && (ce_window x <? sel_End sel) &&
  (if negb (sel_Signal sel =? SignalUnspecified) then KSignal (ce_key x) =? sel_Signal sel
   else if (0 <? length (sel_Signals sel))%nat then bool_decide (KSignal (ce_key x) ∈ sel_Signals sel) else true) &&
  (if (0 <? length (sel_ServiceIDs sel))%nat then bool_decide (ServiceID (ce_key x) ∈ sel_ServiceIDs sel) else true).

(** The group of a cell. *)
Definition cell_group (by_ : Z) (x : stored_cell) : group_key :=
  (if by_has by_ GroupByWindow then ce_window x else 0, if by_has by_ GroupByService then ServiceID (ce_key x) else 0,
   if by_has by_ GroupByName then NameID (ce_key x) else 0, if by_has by_ GroupBySignal then KSignal (ce_key x) else 0).

(** The counts of the rows and of the cells of chosen groups. *)
Definition rows_sum (fld : sum_field) (psi : group_key -> bool) (rows : list SumRow) : Z :=
  list_sum (fun r => if psi (sumGroupKey r) then row_field fld r else 0) rows.
Definition cells_sum (fld : sum_field) (sel : Selector) (by_ : Z) (psi : group_key -> bool) (cells : list stored_cell) : Z :=
  list_sum (fun x => if matches sel x && psi (cell_group by_ x) then ce_count x fld else 0) cells.

(** Rows that answer a grouped sum: one per group that occurs, with the counts
    of all its cells (modulo 2^64). *)
Record answers (cells : list stored_cell) (sel : Selector) (by_ : Z) (rows : list SumRow) : Prop := {
  an_distinct : NoDup (sumGroupKey <$> rows);
  an_groups g : g ∈ sumGroupKey <$> rows <-> exists x, x ∈ cells /\ matches sel x = true /\ cell_group by_ x = g;
  an_sums fld psi : eq64 (rows_sum fld psi rows) (cells_sum fld sel by_ psi cells);
  an_range fld r : r ∈ rows -> 0 <= row_field fld r < 2 ^ 64;
}.

(** What the queries rely on: sums answer the selector, and the dictionary of
    the snapshot finds a service by the name it gives. *)
Class QueryStoreLaws (St : Type) `{QueryStore St} := {
  qs_cells : St -> list stored_cell;
  qs_sums st sel by_ rows : by_ <> 0 -> sel_SeriesIDs sel = [] -> sel_SketchOnly sel = false ->
    qs_SumBuckets st sel by_ = fine rows -> answers (qs_cells st) sel by_ rows;
  qs_traffic_sums st sel by_ rows : by_has by_ GroupByWindow = true -> sel_SeriesIDs sel = [] -> sel_SketchOnly sel = false ->
    qs_traffic st sel by_ = fine rows -> answers (qs_cells st) sel by_ rows;
  qs_service_found st x v : x ∈ qs_cells st -> v <> EmptyString -> qs_name st (ServiceID (ce_key x)) = v ->
    qs_service st (TenantID (ce_key x)) v = Some (ServiceID (ce_key x));
}.

(** ** Merging grouped rows *)

Lemma add_sums_field fld a r : eq64 (row_field fld (add_sums a r)) (row_field fld a + row_field fld r).
Proof. destruct fld; cbn; apply u64_eq64. Qed.

Lemma add_sums_range fld a r : 0 <= row_field fld (add_sums a r) < 2 ^ 64.
Proof. destruct fld; cbn; unfold wrapu; apply Z.mod_pos_bound; lia. Qed.

(** The index knows where the row of each group is. *)
Definition indexed (out : list SumRow) (groups : gmap group_key nat) : Prop :=
  forall g i, groups !! g = Some i <-> exists r, out !! i = Some r /\ sumGroupKey r = g.

(** The merged rows after some rows. *)
Record merged_rows (rows out : list SumRow) (groups : gmap group_key nat) : Prop := {
  mr_indexed : indexed out groups;
  mr_distinct : NoDup (sumGroupKey <$> out);
  mr_groups g : g ∈ sumGroupKey <$> out <-> g ∈ sumGroupKey <$> rows;
  mr_sums fld psi : eq64 (rows_sum fld psi out) (rows_sum fld psi rows);
  mr_range : (forall fld r, r ∈ rows -> 0 <= row_field fld r < 2 ^ 64) -> forall fld r, r ∈ out -> 0 <= row_field fld r < 2 ^ 64;
}.

Lemma merge_row_new rows out groups r : merged_rows rows out groups -> groups !! sumGroupKey r = None ->
  merged_rows (rows ++ [r]) (out ++ [r]) (<[sumGroupKey r := length out]> groups).
Proof.
  intros [M1 M2 M3 M4 M5] Hn.
  assert (sumGroupKey r ∉ sumGroupKey <$> out) as Hfresh.
  { intros (x & Hx & [i Hi]%list_elem_of_lookup)%list_elem_of_fmap. assert (groups !! sumGroupKey r = Some i) as Hg; [|congruence].
    apply M1. by exists x. }
  constructor.
  - intros g i. rewrite lookup_insert. split.
    + case_decide as Hg; [intros [= <-]; subst g; exists r; split; [by apply list_lookup_middle|done]|]. intros (x & Hx & Hk)%M1.
      exists x. split; [by apply lookup_app_l_Some|done].
    + intros (x & [Hx|[Hl Hx]]%lookup_app_Some & Hk).
      * assert (groups !! g = Some i) as Hg by (apply M1; by exists x). case_decide; [subst; congruence|done].
      * apply list_lookup_singleton_Some in Hx as [Hi <-]. case_decide; [f_equal; lia|congruence].
  - rewrite fmap_app. apply NoDup_app. split_and!; [done| |apply NoDup_singleton]. intros g Hg ->%list_elem_of_singleton. done.
  - intros g. rewrite !fmap_app, !elem_of_app, M3. done.
  - intros fld psi. unfold rows_sum in *. by rewrite !list_sum_app, M4.
  - intros Hr fld x [Hx|Hx%list_elem_of_singleton]%elem_of_app; [eapply M5; [intros; apply Hr; by apply elem_of_app; left|done]|subst; apply Hr; set_solver].
Qed.

Lemma merge_row_old rows out groups r i acc : merged_rows rows out groups -> groups !! sumGroupKey r = Some i -> out !! i = Some acc -> sumGroupKey acc = sumGroupKey r ->
  merged_rows (rows ++ [r]) (<[i := add_sums acc r]> out) groups.
Proof.
  intros [M1 M2 M3 M4 M5] Hg Hi Hk. assert (sumGroupKey <$> <[i := add_sums acc r]> out = sumGroupKey <$> out) as Hkeys.
  { rewrite list_fmap_insert. apply list_insert_id. rewrite list_lookup_fmap, Hi. done. }
  constructor.
  - intros g j. rewrite (M1 g j). split; intros (x & Hx & Hgx).
    + destruct (decide (i = j)) as [<-|Hne]; [exists (add_sums acc r)|exists x]; (split; [|by simplify_eq]).
      * apply list_lookup_insert_eq. by eapply lookup_lt_Some.
      * by rewrite list_lookup_insert_ne.
    + apply list_lookup_insert_Some in Hx as [(<- & <- & _)|[Hne Hx]]; [exists acc|exists x]; done.
  - by rewrite Hkeys.
  - intros g. rewrite Hkeys, fmap_app, elem_of_app, M3. split; [by left|]. intros [?|Hr%list_elem_of_singleton]; [done|]. subst g.
    apply M3. rewrite <- Hk. apply list_elem_of_fmap_2. by eapply list_elem_of_lookup_2.
  - intros fld psi. unfold rows_sum in *. rewrite (list_sum_insert _ _ _ _ _ Hi), list_sum_app, <- M4, list_sum_cons.
    assert (sumGroupKey (add_sums acc r) = sumGroupKey acc) as -> by done. rewrite Hk. destruct (psi (sumGroupKey r)); [|apply eq64_eq; cbn; lia].
    rewrite add_sums_field. apply eq64_eq. cbn. lia.
  - intros Hr fld x Hx. apply list_elem_of_lookup in Hx as [j Hj]. apply list_lookup_insert_Some in Hj as [(_ & <- & _)|[_ Hj]]; [apply add_sums_range|].
    eapply M5; [intros; apply Hr; by apply elem_of_app; left|by eapply list_elem_of_lookup_2].
Qed.

Lemma merge_rows rows : merged_rows rows (foldl mergeSumRow ([], ∅) rows).1 (foldl mergeSumRow ([], ∅) rows).2.
Proof.
  induction rows as [|r rows IH] using rev_ind.
  { constructor; try done; [|apply NoDup_nil_2]. intros g i. cbn. rewrite lookup_empty, lookup_nil. split; [done|by intros (? & ? & _)]. }
  rewrite foldl_app. cbn [foldl]. destruct (foldl mergeSumRow ([], ∅) rows) as [out groups]. cbn [fst snd] in *. unfold mergeSumRow.
  destruct (groups !! sumGroupKey r) as [i|] eqn:Eg; cbn [fst snd]; [|by apply merge_row_new].
  apply (mr_indexed _ _ _ IH) in Eg as (acc & Ea & Hk). rewrite Ea. apply merge_row_old; [done| |done|done].
  apply (mr_indexed _ _ _ IH). by exists acc.
Qed.

(** ** Chunks *)

(** Consecutive ranges from [lo] to [hi]. *)
Inductive chain (sel : Selector) : Z -> Z -> list Selector -> Prop :=
| chain_one lo hi : lo < hi -> chain sel lo hi [set_range sel lo hi]
| chain_cons lo mid hi rest : lo < mid -> chain sel mid hi rest -> chain sel lo hi (set_range sel lo mid :: rest).

Lemma split_from_chain sel step : 0 < step -> forall fuel start, start < sel_End sel -> sel_End sel - start <= Z.of_nat fuel * step ->
  chain sel start (sel_End sel) (split_from fuel sel start step).
Proof.
  intros Hs. induction fuel as [|fuel IH]; intros start Hlt Hf; [lia|]. cbn [split_from].
  destruct (start <? sel_End sel) eqn:E; z_bool; [|lia]. destruct (Z.leb_spec (sel_End sel) (start + step)) as [Hle|Hgt].
  - rewrite Z.min_r by lia. assert (split_from fuel sel (start + step) step = []) as ->; [|by constructor].
    destruct fuel; [done|]. cbn [split_from]. destruct (_ <? _) eqn:E2; z_bool; [lia|done].
  - rewrite Z.min_l by lia. constructor; [lia|]. apply IH; lia.
Qed.

Lemma split_from_length sel step n : 0 < step -> forall fuel start, sel_End sel - start <= Z.of_nat n * step ->
  (length (split_from fuel sel start step) <= n)%nat.
Proof.
  intros Hs fuel. revert n. induction fuel as [|fuel IH]; intros n start Hn; cbn [split_from]; [cbn; lia|].
  destruct (start <? sel_End sel) eqn:E; z_bool; [|cbn; lia]. destruct n as [|n]; [lia|]. cbn [length]. apply le_n_S, IH. lia.
Qed.

(** The chunks cover the range without a gap or an overlap; for a range of
    whole windows there are at most [storeReadFanout]. *)
Lemma splitSelector_chain sel : sel_Start sel < sel_End sel ->
  chain sel (sel_Start sel) (sel_End sel) (splitSelector sel) /\
  ((sel_End sel - sel_Start sel) mod windowSec = 0 -> Z.of_nat (length (splitSelector sel)) <= storeReadFanout).
Proof.
  intros Hlt. assert (chain sel (sel_Start sel) (sel_End sel) [sel]) as Hself by (destruct sel; by constructor). unfold splitSelector.
  change windowSec with 300. change storeReadFanout with 4. change storeReadChunkMinWindows with 6.
  set (windows := Z.quot _ 300). set (parts := if _ <? _ then _ else _). destruct (parts <=? 1) eqn:E; z_bool; [by split; [|cbn; lia]|].
  assert (0 <= windows /\ windows = (sel_End sel - sel_Start sel) / 300) as [Hw1 Hw2] by (unfold windows; rewrite Z.quot_div_nonneg by lia; split; [apply Z.div_pos; lia|done]).
  pose proof (Z.div_mod (sel_End sel - sel_Start sel) 300 ltac:(lia)) as Hdm. pose proof (Z.mod_pos_bound (sel_End sel - sel_Start sel) 300 ltac:(lia)).
  assert (2 <= parts <= 4 /\ parts <= windows) as (Hp1 & Hp2).
  { unfold parts in *. rewrite Z.quot_div_nonneg in * by lia. pose proof (Z.div_mod windows 6 ltac:(lia)).
    pose proof (Z.mod_pos_bound windows 6 ltac:(lia)). destruct (4 <? windows / 6) eqn:E4; z_bool; lia. }
  set (per := Z.quot (windows + parts - 1) parts).
  assert (1 <= per /\ windows <= per * parts) as [Hq1 Hq2].
  { unfold per. rewrite Z.quot_div_nonneg by lia. pose proof (Z.div_mod (windows + parts - 1) parts ltac:(lia)).
    pose proof (Z.mod_pos_bound (windows + parts - 1) parts ltac:(lia)). split; nia. }
  split; [apply split_from_chain; [lia|done|nia]|]. intros Hal.
  pose proof (split_from_length sel (per * 300) (Z.to_nat parts) ltac:(lia) (S (Z.to_nat parts)) (sel_Start sel)) as HL. rewrite Z2Nat.id in HL by lia.
  specialize (HL ltac:(nia)). lia.
Qed.

Lemma matches_range sel lo hi x :
  matches (set_range sel lo hi) x = (lo <=? ce_window x) && (ce_window x <? hi) && matches (set_range sel (ce_window x) (ce_window x + 1)) x.
Proof.
  unfold matches. cbn [sel_TenantID sel_Start sel_End sel_Signal sel_Signals sel_ServiceIDs set_range]. rewrite Z.leb_refl.
  destruct (_ =? sel_TenantID sel), (lo <=? ce_window x), (ce_window x <? hi); cbn [andb]; try done.
  all: destruct (Z.ltb_spec (ce_window x) (ce_window x + 1)); try lia; done.
Qed.

Lemma matches_split sel lo mid hi x : lo <= mid <= hi ->
  matches (set_range sel lo hi) x = matches (set_range sel lo mid) x || matches (set_range sel mid hi) x /\
  (matches (set_range sel lo mid) x && matches (set_range sel mid hi) x = false).
Proof.
  intros Hm. rewrite (matches_range _ lo hi), (matches_range _ lo mid), (matches_range _ mid hi).
  destruct (Z.leb_spec lo (ce_window x)), (Z.ltb_spec (ce_window x) mid), (Z.leb_spec mid (ce_window x)), (Z.ltb_spec (ce_window x) hi);
    try lia; cbn [andb orb]; rewrite ?orb_false_r; try done; by rewrite ?andb_false_r.
Qed.

Lemma cells_sum_split cells fld sel by_ psi lo mid hi : lo <= mid <= hi ->
  cells_sum fld (set_range sel lo hi) by_ psi cells = cells_sum fld (set_range sel lo mid) by_ psi cells + cells_sum fld (set_range sel mid hi) by_ psi cells.
Proof.
  intros Hm. unfold cells_sum. rewrite <- list_sum_plus. apply list_sum_ext. intros x _. destruct (matches_split sel lo mid hi x Hm) as [-> Hx].
  destruct (matches (set_range sel lo mid) x), (matches (set_range sel mid hi) x), (psi (cell_group by_ x)); cbn in *; done || lia.
Qed.

(** Rows that answer but for several rows of a group. *)
Record gathers (cells : list stored_cell) (sel : Selector) (by_ : Z) (rows : list SumRow) : Prop := {
  ga_groups g : g ∈ sumGroupKey <$> rows <-> exists x, x ∈ cells /\ matches sel x = true /\ cell_group by_ x = g;
  ga_sums fld psi : eq64 (rows_sum fld psi rows) (cells_sum fld sel by_ psi cells);
  ga_range fld r : r ∈ rows -> 0 <= row_field fld r < 2 ^ 64;
}.

Lemma chain_gathers cells by_ sel lo hi chunks : chain sel lo hi chunks -> forall results,
  Forall2 (fun chunk rows => answers cells chunk by_ rows) chunks results -> lo < hi /\ gathers cells (set_range sel lo hi) by_ (mjoin results).
Proof.
  induction 1 as [lo hi Hlt|lo mid hi rest Hlt Hch IH]; intros results HF.
  - apply Forall2_cons_inv_l in HF as (rows & rest' & HA & HF & ->). apply Forall2_nil_inv_l in HF as ->. cbn [mjoin list_join]. rewrite app_nil_r.
    split; [done|]. by destruct HA.
  - apply Forall2_cons_inv_l in HF as (rows & rest' & [A1 A2 A3 A4] & HF & ->). destruct (IH _ HF) as [Hlt' [I1 I2 I3]]. split; [lia|].
    cbn [mjoin list_join]. fold (mjoin (M := list) (A := SumRow)). constructor.
    + intros g. rewrite fmap_app, elem_of_app, A2, I1. assert (lo <= mid <= hi) as Hm by lia. split.
      * intros [(x & Hx & Hmx & Hg)|(x & Hx & Hmx & Hg)]; exists x; (split_and!; [done| |done]);
          destruct (matches_split sel lo mid hi x Hm) as [-> _]; rewrite Hmx; by rewrite ?orb_true_r.
      * intros (x & Hx & Hmx & Hg). destruct (matches_split sel lo mid hi x Hm) as [He _]. rewrite He in Hmx.
        apply orb_true_iff in Hmx as [?|?]; [left|right]; by exists x.
    + intros fld psi. unfold rows_sum in *. rewrite list_sum_app, A3, I2. rewrite (cells_sum_split _ _ _ _ _ lo mid hi) by lia. done.
    + intros fld r [?|?]%elem_of_app; [by apply A4|by apply I3].
Qed.

Section Store.
Context {St : Type} `{QueryStoreLaws St}.

(** A selector without a choice of series or sketches. *)
Definition plain_selector (sel : Selector) : Prop := sel_SeriesIDs sel = [] /\ sel_SketchOnly sel = false.

Lemma chain_plain sel lo hi chunks : plain_selector sel -> chain sel lo hi chunks -> Forall plain_selector chunks.
Proof. intros Hp. induction 1; by constructor. Qed.

(** C12: reading in chunks changes no answer.  Whether the store is SQLite and
    read in one piece or any other and read in up to four chunks beside each
    other: the rows are one per group that occurs in the range, each with the
    counts of all cells of its group (modulo 2^64), as one read of the whole
    range answers. *)
Theorem sumStoreFrom_answers (st : St) sel by_ rows : by_ <> 0 -> plain_selector sel -> sel_Start sel < sel_End sel ->
  sumStoreFrom (Some st) sel by_ = fine rows -> answers (qs_cells st) sel by_ rows.
Proof.
  intros Hby Hp Hlt E. unfold sumStoreFrom in E. unfold historySelectors in E.
  destruct qs_sqlite; [destruct Hp; by apply qs_sums|]. destruct (splitSelector_chain sel Hlt) as [Hch _].
  assert (forall chunks, Forall plain_selector chunks -> forall results,
    exec_foldl (fun out chunk => let! rows := qs_SumBuckets st chunk by_ in fine (out ++ [rows])) [] chunks = fine results ->
    Forall2 (fun chunk rows => answers (qs_cells st) chunk by_ rows) chunks results) as Hread.
  { intros chunks Hpl results Er. rewrite Forall_forall in Hpl. revert Er. apply (exec_foldl_ind (fun done_ out => Forall2 (fun chunk rows => answers (qs_cells st) chunk by_ rows) done_ out)); [by constructor|].
    intros done_ chunk s1 s2 Hin HF (rs & Ers & [= <-])%ebind_Ok. apply Forall2_app; [done|]. constructor; [|constructor].
    destruct (Hpl chunk Hin). by apply qs_sums. }
  pose proof (chain_plain _ _ _ _ Hp Hch) as Hpl. destruct (splitSelector sel) as [|ch1 [|ch2 chunks]] eqn:Es; [by inversion Hch| |].
  - destruct Hp. by apply qs_sums.
  - apply ebind_Ok in E as (results & Er & [= <-]). apply Hread in Er; [|done]. destruct (chain_gathers _ _ _ _ _ _ Hch _ Er) as [_ [G1 G2 G3]].
    assert (set_range sel (sel_Start sel) (sel_End sel) = sel) as Hself by (by destruct sel). rewrite Hself in G1, G2. destruct (merge_rows (mjoin results)) as [_ M2 M3 M4 M5].
    constructor; [done| | |].
    + intros g. by rewrite M3, G1.
    + intros fld psi. by rewrite M4, G2.
    + by apply M5.
Qed.

End Store.

(** ** The cells of memory a query visits *)

Lemma NoDup_bind_index {A B} (f : A -> list B) l :
  (forall i j x1 x2 y, l !! i = Some x1 -> l !! j = Some x2 -> y ∈ f x1 -> y ∈ f x2 -> i = j) -> (forall x, x ∈ l -> NoDup (f x)) -> NoDup (l ≫= f).
Proof.
  induction l as [|x l IH]; intros Hd Hn; [by constructor|]. cbn [mbind list_bind]. apply NoDup_app. split_and!.
  - apply Hn. by left.
  - intros y Hy (x2 & Hy2 & [j Hj]%list_elem_of_lookup)%list_elem_of_bind. by specialize (Hd 0%nat (S j) x x2 y eq_refl Hj Hy Hy2).
  - apply IH; [|intros; apply Hn; by right]. intros i j x1 x2 y H1 H2 Hy1 Hy2. specialize (Hd (S i) (S j) x1 x2 y H1 H2 Hy1 Hy2). lia.
Qed.

Lemma readMutable_NoDup e tid start end_ signal : engine_ok e -> NoDup (snd (readMutable e tid start end_ signal)).
Proof.
  intros Hok. unfold readMutable. cbn [snd Mutable ownershipLocked].
  assert (forall w sh w' k d, (w', k, d) ∈ (p ← map_to_list (default ∅ ((sh : gmap Z (gmap SeriesKey AggregateDelta)) !! w));
    let '(key, d0) := p : SeriesKey * AggregateDelta in
    if negb (TenantID key =? tid) then [] else if negb (signal =? SignalUnspecified) && negb (KSignal key =? signal) then [] else [(w, key, d0)]) ->
    w' = w /\ sh_get sh w k = Some d) as Hin.
  { intros w sh w' k d ([key d0] & Hx & Hp)%list_elem_of_bind. apply elem_of_map_to_list in Hp.
    destruct (negb (TenantID key =? tid)); [by apply elem_of_nil in Hx|]. destruct (negb _ && negb _); [by apply elem_of_nil in Hx|].
    apply list_elem_of_singleton in Hx as [= -> -> ->]. split; [done|]. unfold sh_get. by destruct (sh !! w). }
  apply NoDup_bind.
  - intros w1 w2 [[w k] d] _ _ H1 H2. destruct ((w1 <? start) || (end_ <=? w1)); [by apply elem_of_nil in H1|].
    destruct ((w2 <? start) || (end_ <=? w2)); [by apply elem_of_nil in H2|].
    apply list_elem_of_bind in H1 as (sh1 & [-> _]%Hin & _). apply list_elem_of_bind in H2 as (sh2 & [-> _]%Hin & _). done.
  - intros w _. destruct ((w <? start) || (end_ <=? w)); [by constructor|]. apply NoDup_bind_index.
    + intros i j sh1 sh2 [[w' k] d] Hi Hj [_ H1]%Hin [_ H2]%Hin.
      pose proof (so_placed _ _ (ss_ok _ (eo_shards e Hok) i sh1 Hi) w k ltac:(by rewrite H1)).
      pose proof (so_placed _ _ (ss_ok _ (eo_shards e Hok) j sh2 Hj) w k ltac:(by rewrite H2)). lia.
    + intros sh _. apply NoDup_bind; [|intros [key d] _; repeat case_match; first [apply NoDup_nil_2|apply NoDup_singleton]|apply NoDup_map_to_list].
      intros [k1 d1] [k2 d2] y _ _ H1 H2. destruct (negb (TenantID k1 =? tid)); [by apply elem_of_nil in H1|]. destruct (negb (TenantID k2 =? tid)); [by apply elem_of_nil in H2|].
      destruct (negb _ && negb (KSignal k1 =? signal)); [by apply elem_of_nil in H1|]. destruct (negb _ && negb (KSignal k2 =? signal)); [by apply elem_of_nil in H2|].
      apply list_elem_of_singleton in H1. apply list_elem_of_singleton in H2. congruence.
  - unfold sort_Z. rewrite merge_sort_Permutation. apply NoDup_elements.
Qed.

(** The cell is in the range asked for, of the tenant and the signal. *)
Definition asked (tid start end_ signal : Z) (k : SeriesKey) (w : Z) : bool :=
  (start <=? w) && (w <? end_) && (TenantID k =? tid) && ((signal =? SignalUnspecified) || (KSignal k =? signal)).

Lemma visits_sum e tid start end_ signal (f : Z -> SeriesKey -> AggregateDelta -> Z) : engine_ok e ->
  list_sum (fun x => f x.1.1 x.1.2 x.2) (snd (readMutable e tid start end_ signal)) =
  map_sum (fun kw d => if asked tid start end_ signal kw.1 kw.2 then f kw.2 kw.1 d else 0) (memory e).
Proof.
  intros Hok. set (M := filter (fun p : SeriesWindowKey * AggregateDelta => asked tid start end_ signal p.1.1 p.1.2 = true) (map_to_list (memory e))).
  assert (snd (readMutable e tid start end_ signal) ≡ₚ (fun p => (p.1.2, p.1.1, p.2)) <$> M) as HP.
  { apply NoDup_Permutation.
    - by apply readMutable_NoDup.
    - apply NoDup_fmap; [intros [[k1 w1] d1] [[k2 w2] d2]; cbn; congruence|]. apply NoDup_filter, NoDup_map_to_list.
    - intros [[w k] d]. rewrite (elem_of_readMutable e tid start end_ signal w k d Hok), list_elem_of_fmap. unfold M, asked. split.
      + intros (Hr & Hs & Ht & Hg). exists ((k, w), d). split; [done|]. apply list_elem_of_filter. cbn [fst snd]. split.
        * rewrite !andb_true_iff, orb_true_iff, Z.leb_le, Z.ltb_lt, !Z.eqb_eq. intuition lia.
        * apply elem_of_map_to_list. by rewrite memory_at by (by apply eo_shards).
      + intros ([[k' w'] d'] & [= -> -> ->] & [Hm Hin]%list_elem_of_filter). cbn [fst snd] in Hm. apply elem_of_map_to_list in Hin.
        rewrite memory_at in Hin by (by apply eo_shards). rewrite !andb_true_iff, orb_true_iff, Z.leb_le, Z.ltb_lt, !Z.eqb_eq in Hm. intuition lia. }
  rewrite (list_sum_perm _ _ _ HP), list_sum_fmap. unfold M. rewrite list_sum_filter, map_sum_list. apply list_sum_ext. intros [[k w] d] _. cbn [fst snd].
  by destruct (asked tid start end_ signal k w).
Qed.

(** ** Plans *)

(** The counts of a delta. *)
Definition delta_field (fld : sum_field) (d : AggregateDelta) : Z :=
  match fld with
  | FCount => d_Count (d_counts d) | FErrors => d_ErrorCount (d_counts d) | FRequests => d_RequestCount (d_counts d)
  | FErrRequests => d_ErrorRequestCount (d_counts d) | FDurations => d_DurationCount (d_durations d) | FLogs => d_LogCount (d_logs d)
  end.

Lemma asInt64_small v : 0 <= v < 2 ^ 63 -> asInt64 v = v.
Proof. intros Hv. unfold asInt64, MaxInt64. destruct (_ <? v) eqn:E; z_bool; lia. Qed.

Lemma eq64_i64 x : eq64 (i64 x) x.
Proof. unfold eq64. apply u64_i64. Qed.

(** A signed counter that is congruent to a small count is that count. *)
Lemma i64_exact v t : eq64 v t -> - 2 ^ 63 <= v < 2 ^ 63 -> 0 <= t < 2 ^ 63 -> v = t.
Proof.
  unfold eq64, wrapu. intros He Hv Ht. rewrite (Z.mod_small t) in He by lia. destruct (Z.leb_spec 0 v); [rewrite Z.mod_small in He; lia|].
  replace v with (v + 2 ^ 64 + (-1) * 2 ^ 64) in He by lia. rewrite Z.mod_add, Z.mod_small in He by lia. lia.
Qed.

Lemma u64_exact v t : eq64 v t -> 0 <= v < 2 ^ 64 -> 0 <= t < 2 ^ 64 -> v = t.
Proof. unfold eq64, wrapu. intros He Hv Ht. by rewrite !Z.mod_small in He by lia. Qed.

(** ** Traffic *)

Definition tc_field (fld : sum_field) (t : trafficCounters) : Z :=
  match fld with FRequests => tc_requests t | FErrRequests => tc_errRequests t | FCount => tc_spans t | FErrors => tc_spanErrors t | _ => 0 end.

Definition traffic_fields : list sum_field := [FCount; FErrors; FRequests; FErrRequests].

Lemma traffic_add_field fld t d : fld ∈ traffic_fields -> tc_field fld (traffic_add t d) = i64 (tc_field fld t + asInt64 (delta_field fld d)).
Proof. unfold traffic_fields. rewrite !elem_of_cons, elem_of_nil. intros [->|[->|[->|[->|[]]]]]; done. Qed.

Definition add_counts (t : trafficCounters) (r : trafficSumRow) : trafficCounters :=
  mkTraffic (i64 (tc_requests t + tc_requests (tsr_counts r))) (i64 (tc_errRequests t + tc_errRequests (tsr_counts r)))
    (i64 (tc_spans t + tc_spans (tsr_counts r))) (i64 (tc_spanErrors t + tc_spanErrors (tsr_counts r))).

Lemma add_counts_field fld t r : fld ∈ traffic_fields -> tc_field fld (add_counts t r) = i64 (tc_field fld t + tc_field fld (tsr_counts r)).
Proof. unfold traffic_fields. rewrite !elem_of_cons, elem_of_nil. intros [->|[->|[->|[->|[]]]]]; done. Qed.

Definition at_w (m : gmap Z trafficCounters) (w : Z) : trafficCounters := default no_traffic (m !! w).

(** A fold that adds to the window of every element that is kept. *)
Lemma window_fold {A} (step : gmap Z trafficCounters -> A -> gmap Z trafficCounters) (kept : A -> bool) (win : A -> Z) (amount : A -> Z) fld l :
  (forall m x, dom (step m x) = if kept x then {[win x]} ∪ dom m else dom m) ->
  (forall m x w, tc_field fld (at_w (step m x) w) = if kept x && (win x =? w) then i64 (tc_field fld (at_w m w) + amount x) else tc_field fld (at_w m w)) ->
  forall m, (forall w, - 2 ^ 63 <= tc_field fld (at_w m w) < 2 ^ 63) ->
  let m' := foldl step m l in
  (forall w, w ∈ dom m' <-> w ∈ dom m \/ exists x, x ∈ l /\ kept x = true /\ win x = w) /\
  (forall w, - 2 ^ 63 <= tc_field fld (at_w m' w) < 2 ^ 63) /\
  (forall w, eq64 (tc_field fld (at_w m' w)) (tc_field fld (at_w m w) + list_sum (fun x => if kept x && (win x =? w) then amount x else 0) l)).
Proof.
  intros Hdom Hfld. induction l as [|x l IH]; intros m Hm; cbn [foldl]; cbv zeta.
  - split_and!; [|done|intros w; apply eq64_eq; cbn; lia]. intros w. split; [by left|]. by intros [?|(x & ?%elem_of_nil & _)].
  - destruct (IH (step m x)) as (I1 & I2 & I3).
    { intros w. rewrite Hfld. case_match; [|done]. unfold wraps, wrapu. pose proof (Z.mod_pos_bound (tc_field fld (at_w m w) + amount x + 2 ^ (64 - 1)) (2 ^ 64) ltac:(lia)). lia. }
    split_and!; [|done|].
    + intros w. rewrite I1, Hdom. assert (w ∈ (if kept x then {[win x]} ∪ dom m else dom m) <-> w ∈ dom m \/ kept x = true /\ win x = w) as ->.
      { destruct (kept x); [rewrite elem_of_union, elem_of_singleton|]; intuition congruence. }
      split.
      * intros [[?|[Hk Hw]]|(y & Hy & ?)]; [by left|right; exists x; split; [by left|done]|right; exists y; split; [by right|done]].
      * intros [?|(y & [->|Hy]%elem_of_cons & ?)]; [by left; left|by left; right|right; by exists y].
    + intros w. rewrite I3, Hfld, list_sum_cons. destruct (kept x && (win x =? w)); [|done]. rewrite eq64_i64. apply eq64_eq. lia.
Qed.

Section Exact.
Context {R : Type} `{Dict.Registrar R} `{Resolver R} `{identityFinder R} `{GoMath}.
Context {St : Type} `{QueryStoreLaws St}.
Implicit Types c : Cache R.

Lemma snd_foldl {A B X} (f : A * B -> X -> A * B) (g : B -> X -> B) l :
  (forall s x, (f s x).2 = g s.2 x) -> forall s, (foldl f s l).2 = foldl g s.2 l.
Proof. intros Hf. induction l as [|x l IH]; intros s; [done|]. cbn [foldl]. by rewrite IH, Hf. Qed.

(** The windows a query asks for. *)
Definition q_lo (q : Query) : Z := query_start (q_Start q).
Definition q_hi (q : Query) : Z := query_end (q_Start q) (q_End q).

(** The windows below [hi] are the store's: memory has none of them, and every
    asked window below all of memory's is one. *)
Definition store_until (e : Engine) (q : Query) (hi : Z) : Prop :=
  q_lo q <= hi <= q_hi q /\ (forall w k, q_lo q <= w < hi -> stored e k w = None) /\
  (forall w, q_lo q <= w < q_hi q -> (forall k w', q_lo q <= w' -> is_Some (stored e k w') -> w < w') -> w < hi).

Lemma plan_query_spec c (e : Engine) (st : St) q signal c' own visits range : engine_ok e -> qs_sqlite = true ->
  plan_query c e (Some st) q signal = (c', fine (own, visits, range)) ->
  exists tid hi, (InternTenant c (q_Tenant q)).2 = Some tid /\ c' = (InternTenant c (q_Tenant q)).1 /\
    visits = snd (readMutable e tid (q_lo q) (q_hi q) signal) /\ store_until e q hi /\
    (range = None /\ hi = q_lo q \/
     range = Some (mkSelector tid (q_lo q) hi signal [] [] [] 0 (mkCursor 0 0 SourceFinalized) false) /\ q_lo q < hi).
Proof.
  intros Hok Hsq. unfold plan_query. rewrite Hsq. destruct (_ || _); [by intros [= _ ?]|]. destruct (InternTenant c (q_Tenant q)) as [c1 tenant]. cbn [fst snd].
  pose proof (query_sources_disjoint (fun _ => tenant) e (q_Tenant q) (q_Start q) (q_End q) signal true Hok) as HQ. cbv zeta in HQ. fold (q_lo q) (q_hi q) in HQ.
  destruct (planStore _ _ _ _ _ _ _) as [[[own' visits'] range']|] eqn:Ep; [|by intros [= _ ?]].
  destruct HQ as (_ & _ & Hlt & tid & -> & _ & HR & HB).
  assert (visits' = snd (readMutable e tid (q_lo q) (q_hi q) signal)) as Hv.
  { unfold planStore in Ep. destruct (String.eqb _ _); [done|]. destruct (negb _); [done|].
    change (WindowStart (q_Start q)) with (q_lo q) in Ep.
    change (if WindowStart (q_End q + (WindowSize - Second)) <=? q_lo q then q_lo q + windowSec else WindowStart (q_End q + (WindowSize - Second))) with (q_hi q) in Ep.
    destruct (readMutable e tid (q_lo q) (q_hi q) signal) as [o vs]. by injection Ep as <- <- <-. }
  destruct range' as [[lo hi]|]; intros [= <- <- <- <-]; cbn [default].
  - destruct (HR lo hi eq_refl) as (_ & -> & Hhi & HN). exists tid, hi.
    assert (q_lo q < hi) as Hlo.
    { unfold planStore in Ep. destruct (String.eqb _ _); [done|]. destruct (negb _); [done|]. destruct (readMutable _ _ _ _ _). 
      match type of Ep with Ok (_, _, if ?b then _ else _) = _ => destruct b eqn:Eb; [done|] end. injection Ep as _ _ <-.
      apply orb_false_iff in Eb as [Eb _]. z_bool. exact Eb. }
    split_and!; try done; [|by right]. split_and!; [lia|lia| |].
    + intros w k Hw. by apply HN.
    + intros w Hw Hb. by destruct (HB eq_refl w Hw Hb) as (hi' & [= ->] & ?).
  - exists tid, (q_lo q). split_and!; try done; [|by left]. split_and!; [lia|lia|lia|].
    intros w Hw Hb. by destruct (HB eq_refl w Hw Hb) as (hi' & ? & ?).
Qed.

(** ** A snapshot's narrowing loses nothing *)

Lemma snapshot_ids (st : St) tid l : forall acc, (forall s, s ∈ acc.2 -> s ∈ acc.1) ->
  let acc' := foldl (snapshot_one st tid) acc l in
  (forall s, s ∈ acc.1 -> s ∈ acc'.1) /\ (forall v s, v ∈ l -> qs_service st tid v = Some s -> s ∈ acc'.1).
Proof.
  induction l as [|v l IH]; intros acc Hacc; cbn [foldl]; cbv zeta; [split; [done|by intros ?? ?%elem_of_nil]|].
  assert ((forall s, s ∈ (snapshot_one st tid acc v).2 -> s ∈ (snapshot_one st tid acc v).1) /\
    (forall s, s ∈ acc.1 -> s ∈ (snapshot_one st tid acc v).1) /\ (forall s, qs_service st tid v = Some s -> s ∈ (snapshot_one st tid acc v).1)) as (I1 & I2 & I3).
  { unfold snapshot_one. destruct (qs_service st tid v) as [s0|]; [|by split_and!]. case_bool_decide as Hs.
    - split_and!; [done|done|]. intros s [= <-]. by apply Hacc.
    - cbn [fst snd]. split_and!; [| |intros s [= <-]; apply elem_of_app; right; by left].
      + intros s [->%elem_of_singleton|Hin]%elem_of_union; apply elem_of_app; [right; by left|left; by apply Hacc].
      + intros s Hin. apply elem_of_app. by left. }
  destruct (IH _ I1) as [J1 J2]. split; [intros s Hs; by apply J1, I2|]. intros v' s [->|Hv]%elem_of_cons Hq; [by apply J1, I3|by eapply J2].
Qed.

(** A cell that a query keeps passes the narrowed selector if it passes the selector. *)
Lemma snapshot_matches c (st : St) sel services x : qs_sqlite = true -> sel_ServiceIDs sel = [] -> x ∈ qs_cells st -> EmptyString ∉ services ->
  matches (beginEndpointSnapshot st sel services) x && in_filter (serviceFilter services) (snapshot_name c st (ServiceID (ce_key x))) =
  matches sel x && in_filter (serviceFilter services) (snapshot_name c st (ServiceID (ce_key x))).
Proof.
  intros Hsq Hsel Hx Hne. unfold beginEndpointSnapshot, serviceFilter, snapshot_name. rewrite Hsq. destruct services as [|v0 rest] eqn:Es; [done|]. cbn [length Nat.ltb Nat.leb Nat.eqb andb].
  rewrite <- Es in *. unfold in_filter. case_bool_decide as Hin; [|by rewrite !andb_false_r]. rewrite !andb_true_r. apply elem_of_list_to_set in Hin.
  destruct (ServiceID (ce_key x) =? 0) eqn:E0; [done|]. set (v := qs_name st (ServiceID (ce_key x))) in *.
  unfold matches. cbn [sel_TenantID sel_Start sel_End sel_Signal sel_Signals sel_ServiceIDs set_services]. rewrite Hsel. cbn [length Nat.ltb Nat.leb].
  destruct (TenantID (ce_key x) =? sel_TenantID sel) eqn:Et; [|done]. z_bool. cbn [andb].
  destruct (snapshot_ids st (sel_TenantID sel) (services ++ [OtherValue]) ([0], ∅)) as [_ HI]; [by intros s ?%not_elem_of_empty|].
  assert (ServiceID (ce_key x) ∈ (foldl (snapshot_one st (sel_TenantID sel)) ([0], ∅) (services ++ [OtherValue])).1) as Hs.
  { apply (HI v); [apply elem_of_app; by left|]. rewrite <- Et. apply qs_service_found; [done| |done]. intros Hv. by rewrite Hv in Hin. }
  match goal with |- _ && (if ?b then bool_decide ?P else true) = _ => assert ((if b then bool_decide P else true) = true) as ->; [|done] end.
  case_match; [by apply bool_decide_eq_true_2|done].
Qed.

Lemma snapshot_plain st sel services : plain_selector sel -> plain_selector (beginEndpointSnapshot st sel services).
Proof. intros [? ?]. unfold beginEndpointSnapshot. by destruct (_ && _). Qed.

(** ** Rows of small sums *)

Lemma rows_sum_one fld rows r : NoDup (sumGroupKey <$> rows) -> r ∈ rows -> rows_sum fld (fun g => bool_decide (g = sumGroupKey r)) rows = row_field fld r.
Proof.
  induction rows as [|r' rows IH]; [by intros _ ?%elem_of_nil|]. cbn [fmap list_fmap]. intros [Hn Hnd]%NoDup_cons Hr. unfold rows_sum in *. rewrite list_sum_cons.
  apply elem_of_cons in Hr as [->|Hr].
  - case_bool_decide; [|done]. rewrite list_sum_zero; [lia|]. intros y Hy. case_bool_decide as He; [|done]. exfalso. apply Hn. rewrite <- He. by apply list_elem_of_fmap_2.
  - rewrite IH by done. case_bool_decide as He; [|lia]. exfalso. apply Hn. rewrite He. by apply list_elem_of_fmap_2.
Qed.

(** Counts that do not wrap over all cells do not wrap in a row. *)
Lemma answers_exact cells sel by_ rows fld bound : answers cells sel by_ rows -> bound <= 2 ^ 64 ->
  (forall x, x ∈ cells -> 0 <= ce_count x fld) -> list_sum (fun x => ce_count x fld) cells < bound ->
  (forall psi, cells_sum fld sel by_ psi cells <= list_sum (fun x => ce_count x fld) cells) /\ (forall r, r ∈ rows -> 0 <= row_field fld r < bound).
Proof.
  intros [A1 A2 A3 A4] Hb Hpos Hsum.
  assert (forall psi, 0 <= cells_sum fld sel by_ psi cells <= list_sum (fun x => ce_count x fld) cells) as HC.
  { intros psi. unfold cells_sum. clear - Hpos. induction cells as [|x cells IH]; [cbn; lia|]. rewrite !list_sum_cons.
    specialize (IH ltac:(intros y Hy; apply Hpos; by right)). pose proof (Hpos x ltac:(by left)). destruct (_ && _); lia. }
  split; [intros psi; apply HC|]. intros r Hr. pose proof (A3 fld (fun g => bool_decide (g = sumGroupKey r))) as He. rewrite (rows_sum_one _ _ _ A1 Hr) in He.
  specialize (HC (fun g => bool_decide (g = sumGroupKey r))). pose proof (A4 fld r Hr). apply u64_exact in He; [lia|done|lia].
Qed.

(** ** The traffic of a query *)

Definition point_field (fld : sum_field) (p : TrafficPoint) : Z :=
  match fld with FRequests => tp_RequestCount p | FErrRequests => tp_ErrorRequestCount p | FCount => tp_SpanCount p | FErrors => tp_SpanErrorCount p | _ => 0 end.

(** The counts of memory's cells and of the store's cells at a window, of the
    tenant, signal and services asked for. *)
Definition kept_memory c (q : Query) tid signal (kw : SeriesWindowKey) : bool :=
  asked tid (q_lo q) (q_hi q) signal kw.1 kw.2 && in_filter (serviceFilter (q_Services q)) (serviceName c kw.1).
Definition kept_store c (st : St) (q : Query) hi tid signal (x : stored_cell) : bool :=
  asked tid (q_lo q) hi signal (ce_key x) (ce_window x) && in_filter (serviceFilter (q_Services q)) (snapshot_name c st (ServiceID (ce_key x))).
Definition memory_part c (e : Engine) (q : Query) tid signal fld w : Z :=
  map_sum (fun kw d => if kept_memory c q tid signal kw && (kw.2 =? w) then delta_field fld d else 0) (memory e).
Definition store_part c (st : St) (q : Query) hi tid signal fld w : Z :=
  list_sum (fun x => if kept_store c st q hi tid signal x && (ce_window x =? w) then ce_count x fld else 0) (qs_cells st).

(** Unsigned counts whose total over memory and store fits an int64. *)
Record small_counts (e : Engine) (st : St) (fld : sum_field) : Prop := {
  sc_memory kw d : memory e !! kw = Some d -> 0 <= delta_field fld d;
  sc_store x : x ∈ qs_cells st -> 0 <= ce_count x fld;
  sc_total : map_sum (fun _ d => delta_field fld d) (memory e) + list_sum (fun x => ce_count x fld) (qs_cells st) < 2 ^ 63;
}.

Lemma at_window_dom m w f : dom (at_window m w f) = {[w]} ∪ dom m.
Proof. unfold at_window. by rewrite dom_insert_L. Qed.

Lemma at_window_at m w f w' : at_w (at_window m w f) w' = if w =? w' then f (at_w m w) else at_w m w'.
Proof. unfold at_window, at_w. rewrite lookup_insert. destruct (w =? w') eqn:E; z_bool; case_decide; done. Qed.

Lemma visits_fold c (e : Engine) (q : Query) tid signal i fld : engine_ok e -> fld ∈ traffic_fields ->
  (forall kw d, memory e !! kw = Some d -> 0 <= delta_field fld d < 2 ^ 63) ->
  let m := (foldl (visit_traffic c (serviceFilter (q_Services q))) (i, ∅) (snd (readMutable e tid (q_lo q) (q_hi q) signal))).2 in
  (forall w, w ∈ dom m <-> exists k d, stored e k w = Some d /\ kept_memory c q tid signal (k, w) = true) /\
  (forall w, - 2 ^ 63 <= tc_field fld (at_w m w) < 2 ^ 63) /\ (forall w, eq64 (tc_field fld (at_w m w)) (memory_part c e q tid signal fld w)).
Proof.
  intros Hok Hfld Hd. cbv zeta. set (filter := serviceFilter (q_Services q)).
  set (kept := fun x : Z * SeriesKey * AggregateDelta => in_filter filter (serviceName c x.1.2)).
  set (step := fun (m : gmap Z trafficCounters) x => if kept x then at_window m x.1.1 (fun t => traffic_add t x.2) else m).
  assert (forall l, (foldl (visit_traffic c filter) (i, ∅) l).2 = foldl step ∅ l) as Hfold by (intros l; apply (snd_foldl (visit_traffic c filter) step l); by intros [? ?] [[w k] d]).
  rewrite Hfold. clear Hfold.
  destruct (window_fold step kept (fun x => x.1.1) (fun x => asInt64 (delta_field fld x.2)) fld (readMutable e tid (q_lo q) (q_hi q) signal).2) with (m := ∅ : gmap Z trafficCounters) as (I1 & I2 & I3).
  { intros m x. unfold step. destruct (kept x); [apply at_window_dom|done]. }
  { intros m x w. unfold step. destruct (kept x); [|done]. rewrite at_window_at. cbn [andb]. destruct (_ =? w) eqn:E; z_bool; [|done]. rewrite traffic_add_field by done. by rewrite E. }
  { intros w. unfold at_w. rewrite lookup_empty. destruct fld; cbn; lia. }
  split_and!; [|done|].
  - intros w. rewrite I1, dom_empty_L. split.
    + intros [?%elem_of_empty|([[w' k] d] & Hx & Hk & <-)]; [done|]. apply (elem_of_readMutable e tid _ _ signal _ k d Hok) in Hx as (Hr & Hs & Ht & Hg).
      exists k, d. split; [done|]. unfold kept_memory, asked. cbn [fst snd]. rewrite !andb_true_iff, orb_true_iff, Z.leb_le, Z.ltb_lt, !Z.eqb_eq. unfold kept in Hk. cbn [fst snd] in *. tauto.
    + intros (k & d & Hs & Hk). right. exists (w, k, d). unfold kept_memory, asked in Hk. cbn [fst snd] in Hk.
      rewrite !andb_true_iff, orb_true_iff, Z.leb_le, Z.ltb_lt, !Z.eqb_eq in Hk. split; [|split; [by apply Hk|done]].
      apply (elem_of_readMutable e tid _ _ signal _ k d Hok). tauto.
  - intros w. rewrite I3. apply eq64_eq. unfold at_w. rewrite lookup_empty.
    replace (tc_field fld (default no_traffic None)) with 0 by (by destruct fld). rewrite Z.add_0_l.
    etrans; [exact (visits_sum e tid (q_lo q) (q_hi q) signal (fun w' k d => if in_filter filter (serviceName c k) && (w' =? w) then asInt64 (delta_field fld d) else 0) Hok)|].
    unfold memory_part. apply map_sum_agree. intros [k w']. destruct (memory e !! (k, w')) as [d|] eqn:Hm; [|done]. unfold kept_memory. cbn [fst snd from_option].
    fold filter. destruct (asked tid (q_lo q) (q_hi q) signal k w'); [|done]. cbn [andb]. destruct (in_filter _ _ && _); [|done]. by apply asInt64_small, (Hd (k, w')).
Qed.

(** The group is of a window and of services that are kept. *)
Definition kept_group (filter : option (gset string)) (name : Z -> string) (w : Z) (g : group_key) : bool :=
  in_filter filter (name g.1.1.2) && (g.1.1.1 =? w).

Lemma traffic_row_field fld r : fld ∈ traffic_fields -> 0 <= row_field fld r < 2 ^ 63 -> tc_field fld (traffic_addSum no_traffic r) = row_field fld r.
Proof.
  unfold traffic_fields. rewrite !elem_of_cons, elem_of_nil. intros Hf Hr.
  assert (forall v, 0 <= v < 2 ^ 63 -> i64 (0 + asInt64 v) = v) as HE by (intros v Hv; rewrite asInt64_small, Z.add_0_l by done; apply wraps_small; [lia|]; unfold in_s; cbn in *; lia).
  destruct Hf as [->|[->|[->|[->|[]]]]]; apply HE, Hr.
Qed.

Lemma rows_fold (filter : option (gset string)) (name : Z -> string) signal acc rows fld : fld ∈ traffic_fields ->
  (forall r, r ∈ rows -> 0 <= row_field fld r < 2 ^ 63) -> (forall w, - 2 ^ 63 <= tc_field fld (at_w acc.2 w) < 2 ^ 63) ->
  let m := (foldl (row_traffic name filter signal) acc (trafficRows rows)).2 in
  (forall w, w ∈ dom m <-> w ∈ dom acc.2 \/ exists r, r ∈ rows /\ kept_group filter name w (sumGroupKey r) = true) /\
  (forall w, - 2 ^ 63 <= tc_field fld (at_w m w) < 2 ^ 63) /\
  (forall w, eq64 (tc_field fld (at_w m w)) (tc_field fld (at_w acc.2 w) + rows_sum fld (kept_group filter name w) rows)).
Proof.
  intros Hfld Hr Hacc. cbv zeta. set (kept := fun r : trafficSumRow => in_filter filter (name (tsr_service r))).
  set (step := fun (m : gmap Z trafficCounters) r => if kept r then at_window m (tsr_window r) (fun t => add_counts t r) else m).
  assert (forall l, (foldl (row_traffic name filter signal) acc l).2 = foldl step acc.2 l) as Hfold by (intros l; apply (snd_foldl (row_traffic name filter signal) step l); by intros [? ?] r).
  rewrite Hfold. clear Hfold.
  destruct (window_fold step kept tsr_window (fun r => tc_field fld (tsr_counts r)) fld (trafficRows rows)) with (m := acc.2) as (I1 & I2 & I3); [| |done|].
  { intros m x. unfold step. destruct (kept x); [apply at_window_dom|done]. }
  { intros m x w. unfold step. destruct (kept x); [|done]. rewrite at_window_at. cbn [andb]. destruct (_ =? w) eqn:E; z_bool; [|done]. rewrite add_counts_field by done. by rewrite E. }
  split_and!; [|done|].
  - intros w. rewrite I1. apply or_iff_compat_l. unfold kept_group. split.
    + intros (x & (r & -> & Hin)%list_elem_of_fmap & Hk & <-). exists r. split; [done|]. unfold kept in Hk. cbn in *. by rewrite Hk, Z.eqb_refl.
    + intros (r & Hin & [Hk Hw]%andb_true_iff). eexists. split; [apply list_elem_of_fmap_2, Hin|]. unfold kept. cbn in *. z_bool. by split.
  - intros w. rewrite I3. apply eq64_eq. f_equal. unfold trafficRows, rows_sum. rewrite list_sum_fmap. apply list_sum_ext. intros r Hin. unfold kept, kept_group. cbn.
    destruct (in_filter filter (name (sr_ServiceID r)) && _); [|done]. by apply traffic_row_field; [|apply Hr].
Qed.

(** The grouping of the traffic keeps what the filter looks at. *)
Lemma traffic_group services name w x :
  kept_group (serviceFilter services) name w (cell_group (match serviceFilter services with None => GroupByWindow | Some _ => Z.lor GroupByWindow GroupByService end) x) =
  in_filter (serviceFilter services) (name (ServiceID (ce_key x))) && (ce_window x =? w).
Proof. unfold serviceFilter. by destruct (_ =? 0)%nat. Qed.

Lemma kept_cell c (st : St) (q : Query) tid hi signal x : qs_sqlite = true -> EmptyString ∉ q_Services q -> signal <> SignalUnspecified -> x ∈ qs_cells st ->
  let sel := mkSelector tid (q_lo q) hi signal [] [] [] 0 (mkCursor 0 0 SourceFinalized) false in
  matches (beginEndpointSnapshot st sel (q_Services q)) x && in_filter (serviceFilter (q_Services q)) (snapshot_name c st (ServiceID (ce_key x))) =
  kept_store c st q hi tid signal x.
Proof.
  intros Hsq Hne Hs Hx. cbv zeta. rewrite snapshot_matches by done. unfold kept_store, matches, asked. cbn [sel_TenantID sel_Start sel_End sel_Signal sel_Signals sel_ServiceIDs length].
  rewrite (proj2 (Z.eqb_neq signal SignalUnspecified) Hs). cbn [negb orb Nat.ltb Nat.leb andb]. rewrite !andb_true_r. f_equal.
  destruct (TenantID (ce_key x) =? tid), (q_lo q <=? ce_window x), (ce_window x <? hi); done.
Qed.

(** What the store's rows of the traffic add. *)
Lemma store_rows c (st : St) (q : Query) tid hi signal rows fld : qs_sqlite = true -> EmptyString ∉ q_Services q -> signal <> SignalUnspecified ->
  let sel := mkSelector tid (q_lo q) hi signal [] [] [] 0 (mkCursor 0 0 SourceFinalized) false in
  let by_ := match serviceFilter (q_Services q) with None => GroupByWindow | Some _ => Z.lor GroupByWindow GroupByService end in
  answers (qs_cells st) (beginEndpointSnapshot st sel (q_Services q)) by_ rows ->
  (forall w, eq64 (rows_sum fld (kept_group (serviceFilter (q_Services q)) (snapshot_name c st) w) rows) (store_part c st q hi tid signal fld w)) /\
  (forall w, (exists r, r ∈ rows /\ kept_group (serviceFilter (q_Services q)) (snapshot_name c st) w (sumGroupKey r) = true) <->
     exists x, x ∈ qs_cells st /\ kept_store c st q hi tid signal x = true /\ ce_window x = w).
Proof.
  intros Hsq Hne Hs. cbv zeta. set (sel := mkSelector _ _ _ _ _ _ _ _ _ _). set (by_ := match serviceFilter _ with None => _ | Some _ => _ end).
  intros [A1 A2 A3 A4]. split; intros w.
  - rewrite A3. apply eq64_eq. unfold cells_sum, store_part. apply list_sum_ext. intros x Hx. unfold by_. rewrite traffic_group, andb_assoc.
    unfold sel. by rewrite (kept_cell c) by done.
  - split.
    + intros (r & Hr & Hk). destruct (proj1 (A2 (sumGroupKey r)) ltac:(by apply list_elem_of_fmap_2)) as (x & Hx & Hm & Hg). exists x. split; [done|].
      rewrite <- Hg in Hk. unfold by_ in Hk. rewrite traffic_group in Hk. apply andb_true_iff in Hk as [Hf Hw]. z_bool. split; [|done].
      rewrite <- (kept_cell c) by done. unfold sel in Hm. by rewrite Hm, Hf.
    + intros (x & Hx & Hk & <-). rewrite <- (kept_cell c) in Hk by done. apply andb_true_iff in Hk as [Hm Hf].
      pose proof (proj2 (A2 (cell_group by_ x)) ltac:(by exists x)) as (r & Hg & Hr)%list_elem_of_fmap. exists r. split; [done|]. rewrite <- Hg. unfold by_. by rewrite traffic_group, Hf, Z.eqb_refl.
Qed.

Lemma parts_bounds c (e : Engine) (st : St) (q : Query) tid hi signal fld w : small_counts e st fld ->
  0 <= memory_part c e q tid signal fld w + store_part c st q hi tid signal fld w < 2 ^ 63.
Proof.
  intros [S1 S2 S3]. unfold memory_part, store_part.
  assert (0 <= map_sum (fun kw d => if kept_memory c q tid signal kw && (kw.2 =? w) then delta_field fld d else 0) (memory e)) by (apply map_sum_pos; intros kw d Hd; case_match; [by apply (S1 kw)|lia]).
  assert (map_sum (fun kw d => if kept_memory c q tid signal kw && (kw.2 =? w) then delta_field fld d else 0) (memory e) <= map_sum (fun _ d => delta_field fld d) (memory e)).
  { apply map_sum_le. intros kw d Hd. case_match; [lia|by apply (S1 kw)]. }
  assert (0 <= list_sum (fun x => if kept_store c st q hi tid signal x && (ce_window x =? w) then ce_count x fld else 0) (qs_cells st)).
  { apply list_sum_nonneg. intros x Hx. case_match; [by apply S2|lia]. }
  assert (list_sum (fun x => if kept_store c st q hi tid signal x && (ce_window x =? w) then ce_count x fld else 0) (qs_cells st) <= list_sum (fun x => ce_count x fld) (qs_cells st)); [|lia].
  apply list_sum_le. intros x Hx. case_match; [lia|by apply S2].
Qed.

Lemma small_memory (e : Engine) (st : St) fld kw d : small_counts e st fld -> memory e !! kw = Some d -> 0 <= delta_field fld d < 2 ^ 63.
Proof.
  intros [S1 S2 S3] Hd. split; [by eapply S1|]. pose proof (list_sum_nonneg (fun x => ce_count x fld) _ S2).
  pose proof (map_sum_delete (fun _ d => delta_field fld d) (memory e) kw) as Hdel. rewrite Hd in Hdel. cbn in Hdel.
  pose proof (map_sum_pos (fun _ d => delta_field fld d) (delete kw (memory e))
    ltac:(intros k x Hx; apply lookup_delete_Some in Hx as [_ Hx]; by eapply S1)). lia.
Qed.

(** The tables of counters a query renders: the kept cells of memory and store. *)
Definition traffic_exact c (e : Engine) (st : St) (q : Query) tid hi signal (m : gmap Z trafficCounters) : Prop :=
  (forall w, w ∈ dom m <-> (exists k d, stored e k w = Some d /\ kept_memory c q tid signal (k, w) = true) \/
     (exists x, x ∈ qs_cells st /\ kept_store c st q hi tid signal x = true /\ ce_window x = w)) /\
  (forall w fld, fld ∈ traffic_fields -> tc_field fld (at_w m w) = memory_part c e q tid signal fld w + store_part c st q hi tid signal fld w).

Lemma traffic_points_exact c (e : Engine) (st : St) (q : Query) tid hi signal m : traffic_exact c e st q tid hi signal m ->
  let points := traffic_points m in
  StronglySorted (fun a b => tp_WindowStart a < tp_WindowStart b) points /\
  (forall w, t_of_unix w ∈ tp_WindowStart <$> points <-> (exists k d, stored e k w = Some d /\ kept_memory c q tid signal (k, w) = true) \/
     (exists x, x ∈ qs_cells st /\ kept_store c st q hi tid signal x = true /\ ce_window x = w)) /\
  (forall p, p ∈ points -> exists w, tp_WindowStart p = t_of_unix w /\
     forall fld, fld ∈ traffic_fields -> point_field fld p = memory_part c e q tid signal fld w + store_part c st q hi tid signal fld w).
Proof.
  intros [E1 E2]. cbv zeta. unfold traffic_points. set (ws := sort_Z (elements (dom m))).
  assert (forall w, w ∈ ws <-> w ∈ dom m) as Hws by (intros w; unfold ws; by rewrite elem_of_sort_Z, elem_of_elements).
  assert (forall a b, t_of_unix a < t_of_unix b <-> a < b) as Hlt by (intros; unfold t_of_unix, Second; lia).
  split_and!.
  - assert (StronglySorted Z.lt ws) as Hs.
    { apply sort_Z_strict, NoDup_elements. }
    clear - Hs Hlt. induction Hs as [|x l Hs IH Hx]; cbn [fmap list_fmap]; constructor; [done|]. rewrite Forall_fmap. eapply Forall_impl; [exact Hx|]. intros y Hy. by apply Hlt.
  - intros w. rewrite <- E1, <- Hws. split.
    + intros (p & Hp & (y & -> & Hin)%list_elem_of_fmap)%list_elem_of_fmap. cbn in Hp. assert (w = y) as ->; [|done]. apply (f_equal t_Unix) in Hp. by rewrite !t_Unix_of_unix in Hp.
    + intros Hin. apply list_elem_of_fmap. eexists. split; [|apply list_elem_of_fmap_2, Hin]. done.
  - intros p (w & -> & Hin)%list_elem_of_fmap. exists w. split; [done|]. intros fld Hf. rewrite <- E2 by done. unfold at_w, traffic_fields in *.
    rewrite !elem_of_cons, elem_of_nil in Hf. by destruct Hf as [->|[->|[->|[->|[]]]]].
Qed.

(** C11: the traffic chart is exact.  On the SQLite store, when every total fits
    an int64, no count is negative and the empty name is not among the services
    asked for, a successful query of an engine that meets its invariant yields the points in strictly ascending order of window; a window has
    a point exactly when, for the tenant, signal and services asked for, memory
    holds a cell of it or the store holds one and it lies below [hi]; and each
    of its four counts is the sum over exactly those cells.  [hi] is the oldest
    asked window memory holds a cell of, of whatever tenant, or the end of the
    range when it holds none: the store answers for the windows below it and memory for the rest,
    so no window is counted twice.  A cell the store holds of a window at or
    above [hi] is not shown; that there can be one is the finding
    [WriterCommit.finalized_window_vanishes]. *)
Theorem QueryBuckets_exact c (e : Engine) (st : St) (q : Query) c' result :
  engine_ok e -> qs_sqlite = true -> EmptyString ∉ q_Services q -> (forall fld, fld ∈ traffic_fields -> small_counts e st fld) ->
  QueryBuckets c e (Some st) q = (c', fine result) ->
  let signal := if q_Signal q =? SignalUnspecified then SignalTraceOp else q_Signal q in
  exists tid hi, (InternTenant c (q_Tenant q)).2 = Some tid /\ store_until e q hi /\
    StronglySorted (fun a b => tp_WindowStart a < tp_WindowStart b) (br_Points result) /\
    (forall w, t_of_unix w ∈ tp_WindowStart <$> br_Points result <->
       (exists k d, stored e k w = Some d /\ kept_memory c' q tid signal (k, w) = true) \/
       (exists x, x ∈ qs_cells st /\ kept_store c' st q hi tid signal x = true /\ ce_window x = w)) /\
    (forall p, p ∈ br_Points result -> exists w, tp_WindowStart p = t_of_unix w /\
       forall fld, fld ∈ traffic_fields -> point_field fld p = memory_part c' e q tid signal fld w + store_part c' st q hi tid signal fld w).
Proof.
  intros Hok Hsq Hne Hsmall E. cbv zeta. unfold QueryBuckets in E. set (signal := if q_Signal q =? SignalUnspecified then _ else _) in *.
  assert (signal <> SignalUnspecified) as Hsig by (unfold signal; destruct (q_Signal q =? SignalUnspecified) eqn:Es; z_bool; done).
  destruct (plan_query c e (Some st) q signal) as [c1 planned] eqn:Ep. injection E as <- E. apply ebind_Ok in E as ([[own visits] range] & -> & E).
  destruct (plan_query_spec _ _ _ _ _ _ _ _ _ Hok Hsq Ep) as (tid & hi & Ht & -> & -> & Hu & Hr). clear Ep. set (c' := (InternTenant c (q_Tenant q)).1) in *.
  exists tid, hi. split; [done|]. split; [done|]. apply ebind_Ok in E as ([identity byWindow] & E & [= <-]). cbn [br_Points].
  apply traffic_points_exact.
  assert (forall fld, fld ∈ traffic_fields -> forall kw d, memory e !! kw = Some d -> 0 <= delta_field fld d < 2 ^ 63) as Hmem by (intros fld Hf kw d; by apply (small_memory e st), Hsmall).
  assert (forall fld, fld ∈ traffic_fields -> _) as HV by (intros fld Hf; exact (visits_fold c' e q tid signal no_coverage fld Hok Hf (Hmem fld Hf))). cbv zeta in HV.
  set (acc := foldl (visit_traffic c' (serviceFilter (q_Services q))) (no_coverage, ∅) (readMutable e tid (q_lo q) (q_hi q) signal).2) in *.
  assert (FCount ∈ traffic_fields) as HF0 by (by left). destruct Hr as [[-> ->]|[-> Hlt]].
  - injection E as E. assert (byWindow = acc.2) as -> by (by rewrite E). 
    assert (forall x, kept_store c' st q (q_lo q) tid signal x = false) as Hno.
    { intros x. unfold kept_store, asked. destruct (q_lo q <=? ce_window x) eqn:E1, (ce_window x <? q_lo q) eqn:E2; z_bool; try done; lia. }
    split.
    + intros w. destruct (HV FCount HF0) as (-> & _ & _). split; [by left|]. intros [?|(x & _ & Hx & _)]; [done|]. by rewrite Hno in Hx.
    + intros w fld Hf. destruct (HV fld Hf) as (_ & V2 & V3). pose proof (parts_bounds c' e st q tid (q_lo q) signal fld w (Hsmall fld Hf)) as HB.
      assert (store_part c' st q (q_lo q) tid signal fld w = 0) as Hz by (apply list_sum_zero; intros x _; by rewrite Hno).
      apply i64_exact; [rewrite V3, Hz; apply eq64_eq; lia|apply V2|done].
  - apply ebind_Ok in E as (sums & Es & E). injection E as E. unfold traffic_for in Es. rewrite Hsq in Es. apply ebind_Ok in Es as (rows & Es & [= <-]). apply ebind_Ok in Es as (_ & _ & Es).
    apply qs_traffic_sums in Es; [|by destruct (serviceFilter _)|by apply snapshot_plain|by apply snapshot_plain].
    assert (forall fld r, fld ∈ traffic_fields -> r ∈ rows -> 0 <= row_field fld r < 2 ^ 63) as Hrow.
    { intros fld r Hf Hr. destruct (answers_exact _ _ _ _ fld (2 ^ 63) Es) as [_ HR]; [lia|apply Hsmall, Hf| |by apply HR]. pose proof (Hsmall fld Hf) as [S1 S2 S3].
      pose proof (map_sum_pos (fun _ d => delta_field fld d) (memory e) S1). lia. }
    assert (byWindow = (foldl (row_traffic (snapshot_name c' st) (serviceFilter (q_Services q)) signal) acc (trafficRows rows)).2) as -> by (by rewrite E).
    assert (forall fld, fld ∈ traffic_fields -> _) as HR by (intros fld Hf; exact (rows_fold (serviceFilter (q_Services q)) (snapshot_name c' st) signal acc rows fld Hf
      (fun r Hr => Hrow fld r Hf Hr) (proj1 (proj2 (HV fld Hf))))). cbv zeta in HR.
    pose proof (fun fld => store_rows c' st q tid hi signal rows fld Hsq Hne Hsig Es) as HS. cbv zeta in HS. split.
    + intros w. destruct (HR FCount HF0) as (-> & _ & _). destruct (HV FCount HF0) as (-> & _ & _). by rewrite (proj2 (HS FCount)).
    + intros w fld Hf. destruct (HR fld Hf) as (_ & R2 & R3). destruct (HV fld Hf) as (_ & V2 & V3). apply i64_exact; [|apply R2|by apply parts_bounds, Hsmall].
      by rewrite R3, V3, (proj1 (HS fld)).
Qed.

End Exact.
