(* ===== verification/SumFacts.v ===== *)
(** * SumFacts: what the database sums is what the rows hold

    GROUP BY as a fold: every group that occurs once, with exact sums; then the
    sums of the two authoritative tables, summed by series first or not,
    answer a selector as the contract of [QueryFacts] asks. *)
From stdpp Require Import sorting.
From S2P Require Import Prelude Float64 SeriesKey Dict Registrar Identity Gc.
From S2P Require Import Sketch SketchCodec Histogram Delta Limiter Baseline Engine.
From S2P Require Import StoreRows StoreTables StoreFacts StoreReads Query QueryFacts.
#[local] Open Scope Z_scope.

(** ** GROUP BY *)

Lemma exec_collect {A B C} (f : A -> exec B) (g : A -> B -> C) l out :
  exec_foldl (fun out x => let! v := f x in fine (out ++ [g x v])) [] l = fine out ->
  Forall2 (fun x y => exists v, f x = fine v /\ y = g x v) l out.
Proof.
  apply (exec_foldl_ind (fun done_ out => Forall2 (fun x y => exists v, f x = fine v /\ y = g x v) done_ out)); [constructor|].
  intros done_ x s1 s2 _ HF (v & Ev & [= <-])%ebind_Ok. apply Forall2_app; [done|]. constructor; [by exists v|constructor].
Qed.

(** Column [i] of some values, and its sum over the rows of chosen groups. *)
Definition sv_at (i : nat) (v : sum_values) : Z := default 0 (sv_ints v !! i).
Definition gsum {K} (i : nat) (psi : K -> bool) (l : list (K * sum_values)) : Z :=
  list_sum (fun p => if psi p.1 then sv_at i p.2 else 0) l.

Lemma sql_sum_exact l s : sql_sum l = Some s -> s = list_sum (fun z => z) l.
Proof.
  unfold sql_sum. enough (forall acc, foldl (fun acc z => s ← acc; if (- 2 ^ 63 <=? s + z) && (s + z <? 2 ^ 63) then Some (s + z) else None) acc l = Some s ->
    exists a, acc = Some a /\ s = a + list_sum (fun z => z) l) as HE by (intros (a & [= <-] & ->)%HE; lia).
  induction l as [|z l IH]; intros acc; cbn [foldl]; [intros ->; exists s; split; [done|cbn; lia]|].
  intros (a & Ea & ->)%IH. apply bind_Some in Ea as (a0 & -> & Ea). destruct (_ && _); [|done]. injection Ea as <-. exists a0. split; [done|]. rewrite list_sum_cons. lia.
Qed.

Lemma add_up_at `{SqlSum} n l v : add_up n l = fine v -> length (sv_ints v) = n /\ forall i, (i < n)%nat -> sv_at i v = list_sum (sv_at i) l.
Proof.
  unfold add_up. destruct (mapM _ _) as [ints|] eqn:E; [|done]. intros [= <-]. apply mapM_Some_1 in E. cbn [sv_ints].
  split; [by rewrite <- (Forall2_length _ _ _ E), length_seq|]. intros i Hi. unfold sv_at at 1. cbn [sv_ints].
  destruct (Forall2_lookup_l _ _ _ i i E) as (s & Hs & Es); [by apply lookup_seq; split|]. rewrite Hs. cbn. apply sql_sum_exact in Es. by rewrite Es, list_sum_fmap.
Qed.

Lemma grouped_spec {K} `{Countable K} {A} (key : A -> K) (l : list A) :
  (forall g : K -> A -> Z, map_sum (fun k xs => list_sum (g k) xs) (grouped key l) = list_sum (fun x => g (key x) x) l) /\
  (forall k, is_Some (grouped key l !! k) <-> k ∈ key <$> l).
Proof.
  unfold grouped. induction l as [|x l [IH1 IH2]] using rev_ind; [split; [done|]; intros k; cbn; rewrite lookup_empty, elem_of_nil; split; [by intros []|done]|].
  rewrite foldl_app. cbn [foldl]. set (m := foldl _ ∅ l) in *. split.
  - intros g. rewrite map_sum_set, IH1, list_sum_app, list_sum_cons. destruct (m !! key x) as [xs|]; cbn [default from_option]; unfold id; rewrite list_sum_app, list_sum_cons; cbn; lia.
  - intros k. rewrite fmap_app, elem_of_app, <- IH2, lookup_insert. cbn [fmap list_fmap]. rewrite list_elem_of_singleton.
    case_decide; [split; [by right|by eexists]|]. split; [by left|]. intros [?|?]; [done|congruence].
Qed.

Lemma sum_groups_spec `{SqlSum} {K} `{Countable K} n (l out : list (K * sum_values)) : sum_groups n l = fine out ->
  NoDup out.*1 /\ (forall k, k ∈ out.*1 <-> k ∈ l.*1) /\ (forall i psi, (i < n)%nat -> gsum i psi out = gsum i psi l) /\
  (forall p, p ∈ out -> length (sv_ints p.2) = n).
Proof.
  intros E. unfold sum_groups in E. apply (exec_collect (fun p => add_up n (snd <$> p.2)) (fun p v => (p.1, v))) in E.
  destruct (grouped_spec fst l) as [G1 G2]. assert (out.*1 = (map_to_list (grouped fst l)).*1) as Hk.
  { revert E. generalize (map_to_list (grouped fst l)). intros ps E. induction E as [|p y ps ys (v & _ & ->) E IH]; [done|]. by rewrite !fmap_cons, IH. }
  split_and!.
  - rewrite Hk. apply NoDup_fst_map_to_list.
  - intros k. rewrite Hk, <- G2. split.
    + intros ([k' xs] & -> & Hin%elem_of_map_to_list)%list_elem_of_fmap. by exists xs.
    + intros [xs Hxs]. apply list_elem_of_fmap. exists (k, xs). split; [done|]. by apply elem_of_map_to_list.
  - intros i psi Hi. unfold gsum. rewrite <- (G1 (fun k p => if psi k then sv_at i p.2 else 0)), map_sum_list. clear Hk G1 G2.
    induction E as [|p y ps ys (v & Ev & ->) E IH]; [done|]. rewrite !list_sum_cons, IH. f_equal. cbn [fst snd].
    rewrite (proj2 (add_up_at _ _ _ Ev) i Hi), list_sum_fmap. destruct (psi p.1); [done|]. by rewrite list_sum_zero.
  - intros y [j Hj]%list_elem_of_lookup. destruct (Forall2_lookup_r _ _ _ _ _ E Hj) as (p & _ & v & Ev & ->). by apply add_up_at in Ev as [? _].
Qed.

(** ** The cells of the tables *)

(** Every series row is a well-formed key. *)
Definition series_ok (f : StoreFile) : Prop := forall id args, sf_series f !! id = Some args -> exists k, wf_key k /\ args = seriesArgs k.

Definition col_of (fld : sum_field) : nat := match fld with FCount => 0 | FErrors => 1 | FRequests => 2 | FErrRequests => 3 | FDurations => 4 | FLogs => 5 end.
Definition column_of (fld : sum_field) : nat := match fld with FCount => 0 | FErrors => 1 | FRequests => 18 | FErrRequests => 19 | FDurations => 2 | FLogs => 14 end.
Definition row_count (row : list sql_value) (fld : sum_field) : Z := u64 (col_int row (column_of fld)).

Definition cell_of (f : StoreFile) (p : (Z * Z) * list sql_value) : option stored_cell :=
  k ← stored_key f p.1.2; Some (mkCell p.1.1 k (row_count p.2)).
Definition table_cells (f : StoreFile) (m : gmap (Z * Z) (list sql_value)) : list stored_cell := omap (cell_of f) (map_to_list m).

Lemma list_sum_omap {A B} (g : A -> option B) (h : B -> Z) l : list_sum h (omap g l) = list_sum (fun x => from_option h 0 (g x)) l.
Proof. induction l as [|x l IH]; [done|]. cbn [omap list_omap]. rewrite list_sum_cons. destruct (g x); cbn [from_option]; rewrite ?list_sum_cons; by rewrite IH. Qed.

Lemma ordered_perm (m : gmap (Z * Z) (list sql_value)) : ordered m ≡ₚ (map_to_list m).*1.
Proof.
  unfold ordered. rewrite merge_sort_Permutation. apply NoDup_Permutation; [apply NoDup_elements|apply NoDup_fst_map_to_list|].
  intros k. rewrite elem_of_elements, elem_of_dom. split.
  - intros [x Hx]. apply list_elem_of_fmap. exists (k, x). split; [done|]. by apply elem_of_map_to_list.
  - intros ([k' x] & -> & Hx%elem_of_map_to_list)%list_elem_of_fmap. by exists x.
Qed.

Lemma list_omap_perm {A B} (g : A -> option B) l l' : l ≡ₚ l' -> omap g l ≡ₚ omap g l'.
Proof.
  induction 1 as [|x l l' _ IH|x y l|l1 l2 l3 _ IH1 _ IH2]; cbn [omap list_omap]; [done| | |by etrans].
  - destruct (g x); by rewrite IH.
  - destruct (g x), (g y); done || by constructor.
Qed.

Lemma selected_perm (f : StoreFile) (s : Selector) (m : gmap (Z * Z) (list sql_value)) : selected f s m ≡ₚ filter (fun p => appendBucketFilter f s p.1 p.2 = true) (map_to_list m).
Proof.
  unfold selected. etrans; [apply list_omap_perm, ordered_perm|]. assert (forall p, p ∈ map_to_list m -> m !! p.1 = Some p.2) as Hin by (intros [k x]; apply elem_of_map_to_list).
  revert Hin. generalize (map_to_list m). induction l as [|p l IH]; intros Hin; [done|]. cbn [fmap list_fmap omap list_omap]. rewrite (Hin p) by (by left). cbn [mbind option_bind].
  specialize (IH ltac:(intros q Hq; apply Hin; by right)). rewrite filter_cons. destruct p as [k x]. cbn [fst snd].
  destruct (appendBucketFilter f s k x); [rewrite decide_True by done; by constructor|by rewrite decide_False].
Qed.

(** A row is selected exactly when its cell matches. *)
Lemma selected_matches f s key row : series_ok f -> plain_selector s ->
  appendBucketFilter f s key row = from_option (matches s) false (cell_of f (key, row)).
Proof.
  intros Hok [Hp1 Hp2]. unfold appendBucketFilter, appendBucketScope, cell_of, stored_key. rewrite Hp1, Hp2. cbn [fst snd length Nat.ltb Nat.leb].
  destruct (sf_series f !! key.2) as [args|] eqn:Es; [|cbn; by rewrite !andb_false_r]. destruct (Hok _ _ Es) as (k & Hk & ->). rewrite (series_roundtrip _ _ Hk).
  unfold fine. cbn [mbind option_bind from_option si_Key]. unfold matches. cbn [ce_window ce_key]. unfold appendSeriesFilter.
  assert (series_col (seriesArgs k) 0 = TenantID k /\ series_col (seriesArgs k) 1 = ServiceID k /\ series_col (seriesArgs k) 4 = KSignal k) as (-> & -> & ->) by (unfold seriesArgs; by destruct (splitStatus k)).
  rewrite !andb_true_r. destruct (TenantID k =? _), (_ <=? key.1), (key.1 <? _); cbn [andb]; try done; by rewrite ?andb_false_r.
Qed.

Section Branch.
Context `{SqlSum}.
Variable f : StoreFile.
Hypothesis Hok : series_ok f.

(** The group of a row of the tables. *)
Definition key_group by_ (key : Z * Z) : option group_key := args ← sf_series f !! key.2; Some (group_of by_ key.1 args).

Lemma key_group_cell by_ key row x : cell_of f (key, row) = Some x -> key_group by_ key = Some (cell_group by_ x).
Proof.
  unfold cell_of, key_group, stored_key. cbn [fst snd]. destruct (sf_series f !! key.2) as [args|] eqn:Es; [|done]. destruct (Hok _ _ Es) as (k & Hk & ->).
  rewrite (series_roundtrip _ _ Hk). cbn [mbind option_bind]. intros [= <-]. unfold group_of, cell_group. cbn [ce_window ce_key si_Key].
  unfold seriesArgs, series_col. destruct (splitStatus k). done.
Qed.

(** Rows with the cell's window forgotten or not: their groups and sums. *)
Lemma keyed_sum by_ i psi (rows : list ((Z * Z) * sum_values)) : (i < 6)%nat -> (forall p, p ∈ rows -> length (sv_ints p.2) = 6%nat) ->
  gsum i psi (omap (keyed f by_) rows) = gsum i (fun key => from_option psi false (key_group by_ key)) rows.
Proof.
  intros Hi Hl. unfold gsum. rewrite list_sum_omap. apply list_sum_ext. intros [[w id] v] Hin. unfold keyed, key_group. cbn [fst snd].
  destruct (sf_series f !! id) as [args|]; [|done]. cbn [mbind option_bind from_option fst snd]. destruct (psi _); [|done].
  unfold sv_at. cbn [sv_ints]. rewrite lookup_app_l; [done|]. pose proof (Hl _ Hin) as HL; cbn in HL; by rewrite HL.
Qed.

Lemma keyed_groups by_ (rows : list ((Z * Z) * sum_values)) g :
  g ∈ (omap (keyed f by_) rows).*1 <-> exists key, key ∈ rows.*1 /\ key_group by_ key = Some g.
Proof.
  split.
  - intros ([g' v'] & -> & ([[w id] v] & Hin & E)%list_elem_of_omap)%list_elem_of_fmap. unfold keyed in E. cbn [fst snd] in E.
    apply bind_Some in E as (args & Ea & [= <- _]). exists (w, id). split; [by apply (list_elem_of_fmap_2 fst _ ((w, id), v))|]. unfold key_group. cbn. by rewrite Ea.
  - intros (key & ([[w id] v] & -> & Hin)%list_elem_of_fmap & E). unfold key_group in E. cbn [fst snd] in E. apply bind_Some in E as (args & Ea & [= <-]).
    apply list_elem_of_fmap. eexists (_, _). split; [|apply list_elem_of_omap; exists ((w, id), v); split; [done|]; unfold keyed; cbn [fst snd]; by rewrite Ea]. done.
Qed.

(** Rows grouped at once, or by series first when no window is asked for:
    their groups and, modulo 2^64, the sums of their cells.  [tr] may change the
    sums of durations. *)
Lemma regroup_spec s by_ (reduce : bool) m b (tr : sum_values -> sum_values) : plain_selector s -> (reduce = true -> by_has by_ GroupByWindow = false) ->
  (forall v, sv_ints (tr v) = sv_ints v) ->
  (let! rows := if reduce then sum_groups 6 ((fun p => ((0, p.1.2), p.2)) <$> ((fun p => (p.1, tr (row_values p.2))) <$> selected f s m))
                else fine ((fun p => (p.1, tr (row_values p.2))) <$> selected f s m) in
   sum_groups 7 (omap (keyed f by_) rows)) = fine b ->
  (forall g, g ∈ b.*1 <-> exists x, x ∈ table_cells f m /\ matches s x = true /\ cell_group by_ x = g) /\
  (forall fld psi, eq64 (gsum (col_of fld) psi b) (cells_sum fld s by_ psi (table_cells f m))).
Proof.
  intros Hp Hred Hints E. set (rows := (fun p => (p.1, tr (row_values p.2))) <$> selected f s m) in *.
  assert (forall fld, (col_of fld < 6)%nat) as Hcol by (intros []; cbn; lia).
  assert (forall p, p ∈ rows -> length (sv_ints p.2) = 6%nat) as Hlen by (intros p (q & -> & _)%list_elem_of_fmap; cbn [snd]; by rewrite Hints).
  apply ebind_Ok in E as (rows' & E1 & E2). destruct (sum_groups_spec _ _ _ E2) as (_ & B2 & B3 & _).
  assert ((forall p, p ∈ rows' -> length (sv_ints p.2) = 6%nat) /\
    (forall g, (exists key, key ∈ rows'.*1 /\ key_group by_ key = Some g) <-> exists key, key ∈ rows.*1 /\ key_group by_ key = Some g) /\
    (forall i psi, (i < 6)%nat -> gsum i (fun key => from_option psi false (key_group by_ key)) rows' = gsum i (fun key => from_option psi false (key_group by_ key)) rows)) as (R1 & R2 & R3).
  { destruct reduce; [|by injection E1 as <-]. pose proof (Hred eq_refl) as Hw.
    destruct (sum_groups_spec _ _ _ E1) as (_ & S2 & S3 & S4). assert (forall w w' id, key_group by_ (w, id) = key_group by_ (w', id)) as Hkg.
    { intros w w' id. unfold key_group, group_of. cbn [fst snd]. by rewrite Hw. }
    split_and!; [done| |].
    - intros g. split; intros ([w id] & Hin & Hg).
      + apply S2 in Hin as (p & Ep & (q & -> & Hq)%list_elem_of_fmap)%list_elem_of_fmap. cbn in Ep. injection Ep as -> ->. exists q.1. split; [by apply list_elem_of_fmap_2|].
        destruct q as [[w0 id0] v]. cbn in *. by rewrite (Hkg w0 0).
      + apply list_elem_of_fmap in Hin as (q & Eq & Hq). exists (0, id). split; [|by rewrite (Hkg 0 w)]. apply S2. apply list_elem_of_fmap. exists ((0, q.1.2), q.2).
        split; [by rewrite <- Eq|]. by apply (list_elem_of_fmap_2 (fun p => ((0, p.1.2), p.2))).
    - intros i psi Hi. rewrite S3 by done. unfold gsum. rewrite list_sum_fmap. apply list_sum_ext. intros [[w id] v] _. cbn [fst snd]. by rewrite (Hkg 0 w). }
  assert (forall key row, (key, row) ∈ selected f s m <-> exists x, m !! key = Some row /\ cell_of f (key, row) = Some x /\ matches s x = true) as Hsel.
  { intros key row. rewrite (selected_perm f s m), list_elem_of_filter, elem_of_map_to_list. cbn [fst snd]. rewrite (selected_matches f s key row Hok Hp).
    destruct (cell_of f (key, row)) as [x|]; cbn [from_option]; split; [by intros [? ?]; exists x|intros (y & ? & [= <-] & ?); done|by intros []|by intros (? & _ & ? & _)]. }
  split.
  - intros g. rewrite B2, keyed_groups, R2. split.
    + intros (key & (q & -> & (p & -> & Hp')%list_elem_of_fmap)%list_elem_of_fmap & Hg). destruct p as [key row]. apply Hsel in Hp' as (x & Hm & Hx & Hmx).
      exists x. cbn [fst] in Hg. rewrite (key_group_cell _ _ _ _ Hx) in Hg. injection Hg as <-. split_and!; [|done|done].
      apply list_elem_of_omap. exists (key, row). split; [by apply elem_of_map_to_list|done].
    + intros (x & ([key row] & Hm%elem_of_map_to_list & Hx)%list_elem_of_omap & Hmx & <-). exists key. split; [|by eapply key_group_cell].
      apply list_elem_of_fmap. exists (key, tr (row_values row)). split; [done|]. apply list_elem_of_fmap. exists (key, row). split; [done|]. apply Hsel. by exists x.
  - intros fld psi. rewrite B3 by (pose proof (Hcol fld); lia). rewrite keyed_sum, R3 by done. unfold gsum, rows. rewrite list_sum_fmap, (list_sum_perm _ _ _ (selected_perm f s m)), list_sum_filter.
    unfold cells_sum, table_cells. rewrite list_sum_omap. generalize (map_to_list m). intros l. induction l as [|[key row] l IH]; [done|].
    rewrite !list_sum_cons, IH. apply eq64_add; [|done]. cbn [fst snd]. rewrite (selected_matches f s key row Hok Hp).
    destruct (cell_of f (key, row)) as [x|] eqn:Ex; [|done]. cbn [from_option]. rewrite (key_group_cell _ _ _ _ Ex). cbn [from_option].
    destruct (matches s x); [|done]. cbn [andb]. rewrite decide_True by done. destruct (psi _); [|done]. apply bind_Some in Ex as (k & _ & [= <-]). cbn [ce_count].
    unfold row_count. rewrite u64_eq64. unfold sv_at. rewrite Hints. by destruct fld.
Qed.

(** One table. *)
Lemma branch_spec s by_ hourly m b : plain_selector s -> sum_branch f s by_ (hourly, m) = fine b ->
  (forall g, g ∈ b.*1 <-> exists x, x ∈ table_cells f m /\ matches s x = true /\ cell_group by_ x = g) /\
  (forall fld psi, eq64 (gsum (col_of fld) psi b) (cells_sum fld s by_ psi (table_cells f m))).
Proof.
  intros Hp E. unfold sum_branch in E.
  refine (regroup_spec s by_ ((by_has by_ GroupByService || by_has by_ GroupByName || by_has by_ GroupBySignal) && negb (by_has by_ GroupByWindow) && negb hourly) m b (fun v => v) Hp _ _ E); [|done].
  by intros [[_ Hw%negb_true_iff]%andb_true_iff _]%andb_true_iff.
Qed.

Definition sources_cells (srcs : list (bool * gmap (Z * Z) (list sql_value))) : list stored_cell := srcs ≫= fun src => table_cells f src.2.

Lemma cells_sum_app fld s by_ psi l1 l2 : cells_sum fld s by_ psi (l1 ++ l2) = cells_sum fld s by_ psi l1 + cells_sum fld s by_ psi l2.
Proof. apply list_sum_app. Qed.

Lemma branches_spec s by_ srcs b : plain_selector s ->
  exec_foldl (fun out src => let! b := sum_branch f s by_ src in fine (out ++ b)) [] srcs = fine b ->
  (forall g, g ∈ b.*1 <-> exists x, x ∈ sources_cells srcs /\ matches s x = true /\ cell_group by_ x = g) /\
  (forall fld psi, eq64 (gsum (col_of fld) psi b) (cells_sum fld s by_ psi (sources_cells srcs))).
Proof.
  intros Hp. apply (exec_foldl_ind (fun srcs b => (forall g, g ∈ b.*1 <-> exists x, x ∈ sources_cells srcs /\ matches s x = true /\ cell_group by_ x = g) /\
    (forall fld psi, eq64 (gsum (col_of fld) psi b) (cells_sum fld s by_ psi (sources_cells srcs))))).
  { split; [|done]. intros g. split; [by intros ?%elem_of_nil|by intros (x & ?%elem_of_nil & _)]. }
  intros done_ [hourly m] b1 b2 _ [I1 I2] (b' & Eb & [= <-])%ebind_Ok. destruct (branch_spec _ _ _ _ _ Hp Eb) as [B1 B2].
  assert (sources_cells (done_ ++ [(hourly, m)]) = sources_cells done_ ++ table_cells f m) as Hc by (unfold sources_cells; rewrite bind_app; cbn; by rewrite app_nil_r).
  rewrite Hc. split.
  - intros g. rewrite fmap_app, elem_of_app, I1, B1. split.
    + intros [(x & Hx & ?)|(x & Hx & ?)]; exists x; rewrite elem_of_app; tauto.
    + intros (x & [Hx|Hx]%elem_of_app & ?); [left|right]; by exists x.
  - intros fld psi. rewrite cells_sum_app. unfold gsum in *. rewrite list_sum_app. by rewrite I2, B2.
Qed.

Lemma cell_group_small s by_ x srcs : x ∈ sources_cells srcs -> matches s x = true ->
  let g := cell_group by_ x in (g.1.1.1, u32 g.1.1.2, u32 g.1.2, u8 g.2) = g.
Proof.
  intros (src & Hx & _)%list_elem_of_bind _. apply list_elem_of_omap in Hx as ([key row] & _ & Hx). apply bind_Some in Hx as (k & Hk & [= <-]).
  unfold stored_key in Hk. cbn [fst snd] in Hk. destruct (sf_series f !! key.2) as [args|] eqn:Es; [|done]. destruct (Hok _ _ Es) as (k' & Hw & ->).
  rewrite (series_roundtrip _ _ Hw) in Hk. injection Hk as <-. destruct Hw as (_ & H2 & H3 & _ & H5 & _). unfold cell_group. cbn [fst snd ce_key].
  f_equal; [f_equal; [f_equal|]|].
  - destruct (by_has _ _); [by apply u32_small|done].
  - destruct (by_has _ _); [by apply u32_small|done].
  - destruct (by_has _ _); [by apply u8_small|done].
Qed.

(** Reading the tables a sum is answered from answers the selector over their cells. *)
Lemma history_answers hourly s by_ rolled rows : by_ <> 0 -> plain_selector s -> readSumBuckets f hourly s by_ rolled = fine rows ->
  answers (sources_cells (history_sources f hourly s by_ rolled)) s by_ rows.
Proof.
  intros Hby Hp E. unfold readSumBuckets, readSumQuery, sumHistoryQuery in E. apply ebind_Ok in E as (out & E & [= <-]). apply ebind_Ok in E as (b & Eb & E).
  destruct (branches_spec _ _ _ _ Hp Eb) as [B1 B2]. destruct (by_ =? 0) eqn:E0; z_bool; [done|]. destruct (sum_groups_spec _ _ _ E) as (S1 & S2 & S3 & _). clear E Eb E0.
  assert (sumGroupKey <$> (sum_row <$> out) = out.*1) as Hkeys.
  { rewrite <- list_fmap_compose. apply list_fmap_ext. intros i [g v] Hi. cbn [compose fst]. assert (g ∈ out.*1) as Hin by (apply (list_elem_of_fmap_2 fst _ (g, v)); by eapply list_elem_of_lookup_2).
    apply S2, B1 in Hin as (x & Hx & Hm & <-). pose proof (cell_group_small _ by_ _ _ Hx Hm) as Hs. destruct (cell_group by_ x) as [[[w sv] nm] sg]. exact Hs. }
  constructor; rewrite ?Hkeys; [done| | |].
  - intros g. by rewrite S2, B1.
  - intros fld psi. rewrite <- B2, <- S3 by (destruct fld; cbn; lia). unfold rows_sum, gsum. rewrite list_sum_fmap. clear - out Hkeys.
    revert Hkeys. induction out as [|[g v] out IH]; [done|]. rewrite !fmap_cons. intros Hkeys. assert (sumGroupKey (sum_row (g, v)) = g) as Hg by exact (f_equal (fun l => default g (head l)) Hkeys). apply (f_equal tail) in Hkeys. cbn [tail] in Hkeys. rewrite !list_sum_cons.
    rewrite (IH Hkeys). apply eq64_add; [|done]. rewrite Hg. cbn [fst snd]. destruct (psi g); [|done]. destruct g as [[[w sv] nm] sg]. destruct fld; cbn; apply u64_eq64.
  - intros fld r ([[[[w sv] nm] sg] v] & -> & _)%list_elem_of_fmap. destruct fld; cbn; unfold wrapu; apply Z.mod_pos_bound; lia.
Qed.

End Branch.
