(* ===== verification/Rollup.v ===== *)
(** * Rollup: complete hours of five-minute rows ([internal/aggregate/rollup.go])

    A background worker folds the bucket rows of an hour into one row per
    series.  The tables derived from the buckets have their own: the hours with
    their state and build token, and the hourly rows.  Triggers on the buckets
    delete the mark of an hour that changes, so a build that was overtaken finds
    its token gone.  Every transaction is one step; a build reads a snapshot of
    the file in between. *)
From stdpp Require Import sorting strings.
From S2P Require Import Prelude Float64 SeriesKey Dict Registrar Identity Gc.
From S2P Require Import Sketch SketchCodec Histogram Delta Limiter Baseline Engine StoreRows StoreTables StoreReads.
#[local] Open Scope Z_scope.

(* internal/aggregate/rollup.go:13-17 rollupBatch *)
Definition rollupBatch : Z := 128.
Definition rollupVersion : string := "1".

(** ** The derived tables *)

(** States: 0 pending, 1 building, 2 complete. *)
Record RollupHour := mkHour { rh_state : Z; rh_build : string; rh_safe : bool }.

#[global] Instance RollupHour_eq_dec : EqDecision RollupHour.
Proof. solve_decision. Defined.

(** The store's file, its UUID, and the tables of the extension. *)
(* internal/aggregate/rollup.go:55-66 SQLiteStore.ensureRollupSchema *)
Record RollupFile := mkRollup {
  ru_file : StoreFile;
  ru_uuid : string;
  ru_version : option string;
  ru_owner : option string;
  ru_hours : gmap Z RollupHour;
  ru_hourly : gmap (Z * Z) (list sql_value);
}.

Definition set_file (r : RollupFile) f : RollupFile := mkRollup f (ru_uuid r) (ru_version r) (ru_owner r) (ru_hours r) (ru_hourly r).
Definition set_hours (r : RollupFile) h : RollupFile := mkRollup (ru_file r) (ru_uuid r) (ru_version r) (ru_owner r) h (ru_hourly r).
Definition set_hourly (r : RollupFile) t : RollupFile := mkRollup (ru_file r) (ru_uuid r) (ru_version r) (ru_owner r) (ru_hours r) t.

(** A table that had to be created and triggers that had to be replaced void
    the completion marks, as another owner does. *)
(* internal/aggregate/rollup.go:48-117 SQLiteStore.ensureRollupSchema *)
Definition ensureRollupSchema (hourlyExists intact : bool) (r : RollupFile) : exec RollupFile :=
  if match ru_version r with Some v => negb (String.eqb v rollupVersion) | None => false end then oops ErrVersion
  else
    let owned := String.eqb (default "" (ru_owner r)) (ru_uuid r) in
    let invalidate := negb hourlyExists || negb owned || negb intact in
    fine (mkRollup (ru_file r) (ru_uuid r) (Some rollupVersion) (Some (ru_uuid r))
      (if invalidate then (fun _ => mkHour 0 "" false) <$> ru_hours r else ru_hours r) (if hourlyExists then ru_hourly r else ∅)).

(** ** Triggers on the buckets *)

(** The rows written or deleted are all of the window [w]. *)
(* internal/aggregate/rollup.go:30-43 rollupTriggerDDL *)
Definition fire_triggers (w rows : Z) (hours : gmap Z RollupHour) : gmap Z RollupHour :=
  if 0 <? rows then delete (hourStart w) hours else hours.

Section Writes.
Context `{Sqlite}.

(** The operations of the store that write buckets, with their triggers. *)
Definition rollup_finalize (io : bool) (r : RollupFile) (w : Z) : exec RollupFile :=
  let! (f, stats) := finalizeWindow io (ru_file r) w in
  fine (set_hours (set_file r f) (fire_triggers w (fs_Buckets stats) (ru_hours r))).

Definition rollup_purge (r : RollupFile) (w : Z) : RollupFile :=
  let '(f, (buckets, _)) := purgeWindow (ru_file r) w in
  set_hours (set_file r f) (fire_triggers w buckets (ru_hours r)).

(** ** Discovery *)

(** INSERT OR IGNORE *)
Definition discover_one (r : RollupFile) (hour : Z) : RollupFile :=
  match ru_hours r !! hour with Some _ => r | None => set_hours r (<[hour := mkHour 0 "" false]> (ru_hours r)) end.

(** The hours of a table from [after] on: seek the next row, skip its hour. *)
Fixpoint discover_from (fuel : nat) (m : gmap (Z * Z) (list sql_value)) (after : Z) : list Z :=
  match fuel with
  | O => []
  | S fuel =>
      match filter (fun k => after <= k.1) (ordered m) with
      | [] => []
      | k :: _ =>
          let hour := hourStart k.1 in
          hour :: if 2 ^ 63 - 1 - rollupHour <? hour then [] else discover_from fuel m (hour + rollupHour)
      end
  end.

(* internal/aggregate/rollup.go:198-227 SQLiteStore.discoverRollupHours *)
Definition discoverRollupHours (r : RollupFile) : RollupFile :=
  let hours m := discover_from (S (size m)) m (- 2 ^ 63) in
  foldl discover_one r (hours (sf_buckets (ru_file r)) ++ hours (ru_hourly r)).

(** ** Building an hour *)

(** INSERT ... ON CONFLICT DO UPDATE ... WHERE state<>2 *)
(* internal/aggregate/rollup.go:272-283 SQLiteStore.buildRollupHour *)
Definition claim (r : RollupFile) (hour : Z) (token : string) : exec RollupFile :=
  match ru_hours r !! hour with
  | Some h => if rh_state h =? 2 then oops ErrRollupInvalidated else fine (set_hours r (<[hour := mkHour 1 token false]> (ru_hours r)))
  | None => fine (set_hours r (<[hour := mkHour 1 token false]> (ru_hours r)))
  end.

(* internal/aggregate/rollup.go:251-258 checkRollupBuild *)
Definition checkRollupBuild (r : RollupFile) (hour : Z) (token : string) : exec unit :=
  match ru_hours r !! hour with
  | Some h => if (rh_state h =? 1) && String.eqb (rh_build h) token then fine tt else oops ErrRollupInvalidated
  | None => oops ErrRollupInvalidated
  end.

(** Up to [rollupBatch] rows of the hour are deleted, and how many. *)
(* internal/aggregate/rollup.go:289-300 SQLiteStore.buildRollupHour *)
Definition clean_batch (r : RollupFile) (hour : Z) (token : string) : exec (RollupFile * Z) :=
  let! _ := checkRollupBuild r hour token in
  let ids := take (Z.to_nat rollupBatch) (series_in (ru_hourly r) hour) in
  fine (set_hourly r (foldl (fun t sid => delete (hour, sid) t) (ru_hourly r) ids), Z.of_nat (length ids)).

(** SELECT id ... WHERE id > after ORDER BY id LIMIT rollupBatch *)
(* internal/aggregate/rollup.go:386-401 rollupSeriesBatch *)
Definition rollupSeriesBatch (f : StoreFile) (after : Z) : list Z :=
  take (Z.to_nat rollupBatch) (filter (fun sid => after < sid) (sort_Z (elements (dom (sf_series f))))).

(** The windows of the hour the series has a bucket in, in order. *)
Definition windows_of (f : StoreFile) (hour sid : Z) : list Z :=
  fst <$> filter (fun k => hour <= k.1 /\ k.1 < hour + rollupHour /\ k.2 = sid) (ordered (sf_buckets f)).

(** Nothing was lost in the sketch. *)
Definition lossless (s : option Sketch) : bool :=
  match s with None => true | Some s => negb (sk_collapsed s || negb (sk_saturations s =? 0)) end.

Definition source_safe (s : option Sketch) : bool :=
  match s with None => true | Some s => (sk_scale s =? SketchDefaultScale) && lossless (Some s) end.

(** [DurationSum] is added even when a row has no duration. *)
Definition roll_delta (acc d : AggregateDelta) : option AggregateDelta :=
  m ← DeltaMerge acc (Some d);
  let t := d_durations m in
  Some (set_durations m (mkDurations (d_DurationCount t) (fadd (d_DurationSum (d_durations acc)) (d_DurationSum (d_durations d))) (d_DurationMin t) (d_DurationMax t))).

(** One bucket row: the first of its series starts a row of the batch. *)
Definition roll_row (st : list (Z * AggregateDelta) * bool) (p : Z * list sql_value) : exec (list (Z * AggregateDelta) * bool) :=
  let '(batch, safe) := st in
  let! d := scanDelta p.2 in
  let safe := safe && source_safe (d_Sketch d) in
  match last batch with
  | Some (sid, acc) =>
      if sid =? p.1
      then let! m := lift (roll_delta acc d) in fine (removelast batch ++ [(sid, m)], safe)
      else fine (batch ++ [(p.1, d)], safe)
  | None => fine (batch ++ [(p.1, d)], safe)
  end.

(** The rows of the series, ORDER BY series_id, window_start *)
Definition bucket_rows (f : StoreFile) (hour : Z) (ids : list Z) : list (Z * list sql_value) :=
  sid ← ids; omap (fun w => row ← sf_buckets f !! (w, sid); Some (sid, row)) (windows_of f hour sid).

(* internal/aggregate/rollup.go:403-441 readRollupBatch *)
Definition readRollupBatch (f : StoreFile) (hour : Z) (ids : list Z) : exec (list (Z * AggregateDelta) * bool) :=
  exec_foldl roll_row ([], true) (bucket_rows f hour ids).

(** INSERT of one hourly row *)
(* internal/aggregate/rollup.go:347-355 SQLiteStore.buildRollupHour *)
Definition insert_hourly (hour : Z) (t : gmap (Z * Z) (list sql_value)) (p : Z * AggregateDelta) : exec (gmap (Z * Z) (list sql_value)) :=
  let! blob := lift (sketch_blob p.2) in
  let! row := put_row (deltaArgs (Some p.2) blob) in
  if bool_decide (is_Some (t !! (hour, p.1))) then oops ErrConstraint else fine (<[(hour, p.1) := row]> t).

(** What the build keeps between its transactions. *)
Record rollup_progress := mkProgress { rp_after : Z; rp_total : Z; rp_safe : bool }.

(** One batch: [None] when no series is left. *)
(* internal/aggregate/rollup.go:319-364 SQLiteStore.buildRollupHour *)
Definition roll_batch (r : RollupFile) (snapshot : StoreFile) (hour : Z) (token : string) (p : rollup_progress)
    : exec (RollupFile * option rollup_progress) :=
  match rollupSeriesBatch snapshot (rp_after p) with
  | [] => fine (r, None)
  | ids =>
      let! (batch, sourceSafe) := readRollupBatch snapshot hour ids in
      let safe := rp_safe p && sourceSafe && forallb (fun row => lossless (d_Sketch row.2)) batch in
      let next := mkProgress (default 0 (last ids)) (rp_total p + Z.of_nat (length batch)) safe in
      if (length batch =? 0)%nat then fine (r, Some next)
      else
        let! _ := checkRollupBuild r hour token in
        let! hourly := exec_foldl (insert_hourly hour) (ru_hourly r) batch in
        fine (set_hourly r hourly, Some next)
  end.

(* internal/aggregate/rollup.go:373-383 SQLiteStore.buildRollupHour *)
Definition publish (r : RollupFile) (hour : Z) (token : string) (p : rollup_progress) : exec RollupFile :=
  let! _ := checkRollupBuild r hour token in
  fine (set_hours r (if rp_total p =? 0 then delete hour (ru_hours r) else <[hour := mkHour 2 token (rp_safe p)]> (ru_hours r))).

(** The loops of one build with nothing in between; each transaction that was
    committed stays when a later one fails. *)
(* internal/aggregate/rollup.go:287-310 SQLiteStore.buildRollupHour *)
Fixpoint clean_loop (fuel : nat) (r : RollupFile) (hour : Z) (token : string) : option (RollupFile * option store_error) :=
  match fuel with
  | O => Some (r, None)
  | S fuel =>
      match clean_batch r hour token with
      | Some (Ok (r, deleted)) => if deleted <? rollupBatch then Some (r, None) else clean_loop fuel r hour token
      | Some (Err e) => Some (r, Some e)
      | None => None
      end
  end.

Fixpoint batch_loop (fuel : nat) (r : RollupFile) (snapshot : StoreFile) (hour : Z) (token : string) (p : rollup_progress)
    : option (RollupFile * result store_error rollup_progress) :=
  match fuel with
  | O => Some (r, Ok p)
  | S fuel =>
      match roll_batch r snapshot hour token p with
      | Some (Ok (r, Some p)) => batch_loop fuel r snapshot hour token p
      | Some (Ok (r, None)) => Some (r, Ok p)
      | Some (Err e) => Some (r, Err e)
      | None => None
      end
  end.

(* internal/aggregate/rollup.go:263-384 SQLiteStore.buildRollupHour *)
Definition buildRollupHour (r : RollupFile) (hour : Z) (token : string) : option (RollupFile * option store_error) :=
  match claim r hour token with
  | Some (Err e) => Some (r, Some e)
  | None => None
  | Some (Ok r) =>
      match clean_loop (S (size (ru_hourly r))) r hour token with
      | Some (r, None) =>
          match batch_loop (S (size (sf_series (ru_file r)))) r (ru_file r) hour token (mkProgress 0 0 true) with
          | Some (r, Ok p) =>
              match publish r hour token p with
              | Some (Ok r) => Some (r, None)
              | Some (Err e) => Some (r, Some e)
              | None => None
              end
          | Some (r, Err e) => Some (r, Some e)
          | None => None
          end
      | other => other
      end
  end.

(** The hours to build, oldest first, each once a pass; [token] is the UUID
    minted for an hour. *)
Fixpoint build_from (fuel : nat) (r : RollupFile) (token : Z -> string) (cutoff after : Z) : option (RollupFile * option store_error) :=
  match fuel with
  | O => Some (r, None)
  | S fuel =>
      match filter (fun h => after <= h <= cutoff /\ rh_state (default (mkHour 2 "" false) (ru_hours r !! h)) <> 2) (sort_Z (elements (dom (ru_hours r)))) with
      | [] => Some (r, None)
      | hour :: _ =>
          match buildRollupHour r hour (token hour) with
          | Some (r, None) | Some (r, Some ErrRollupInvalidated) => build_from fuel r token cutoff (hour + rollupHour)
          | other => other
          end
      end
  end.

(* internal/aggregate/rollup.go:229-249 SQLiteStore.buildPendingRollups *)
Definition buildPendingRollups (r : RollupFile) (token : Z -> string) (now : time) : option (RollupFile * option store_error) :=
  let cutoff := t_Unix now - latenessSec - rollupHour in
  build_from (S (size (ru_hours r))) r token cutoff (- 2 ^ 63).

End Writes.
