(* ===== verification/RollupFacts.v ===== *)
(** * RollupFacts: a published hour is exactly its buckets

    What one batch of a build writes; then writers, triggers and any number of
    builds as a step relation, whose invariant is that the hourly rows of every
    complete hour are the folds of the bucket rows that are in the file. *)
From stdpp Require Import sorting strings.
From S2P Require Import Prelude Float64 SeriesKey Dict Registrar Identity Gc.
From S2P Require Import Sketch SketchCodec Histogram Delta Limiter Baseline Engine EngineReads StoreRows StoreTables StoreFacts StoreReads Rollup.
#[local] Open Scope Z_scope.

(** ** Hours *)

Lemma hourStart_eq t : hourStart t = t - t mod rollupHour.
Proof. unfold hourStart. change rollupHour with 3600. zlia. Qed.

Lemma hourStart_bounds t : hourStart t <= t < hourStart t + rollupHour /\ hourStart (hourStart t) = hourStart t.
Proof. rewrite !hourStart_eq. change rollupHour with 3600. zlia. Qed.

Lemma hourStart_in h w : hourStart h = h -> h <= w < h + rollupHour -> hourStart w = h.
Proof. rewrite !hourStart_eq. change rollupHour with 3600. zlia. Qed.

(** ** The fold of one series *)

Lemma exec_foldl_app {S A} (f : S -> A -> exec S) s l1 l2 : exec_foldl f s (l1 ++ l2) = ebind (exec_foldl f s l1) (fun s => exec_foldl f s l2).
Proof.
  revert s. induction l1 as [|x l1 IH]; intros s; [done|]. cbn [app]. rewrite !exec_foldl_cons. destruct (f s x) as [[s'|e]|]; cbn [ebind]; [apply IH|done|done].
Qed.

Definition roll_next (acc : option AggregateDelta) (row : list sql_value) : exec (option AggregateDelta) :=
  let! d := scanDelta row in
  match acc with None => fine (Some d) | Some a => let! m := lift (roll_delta a d) in fine (Some m) end.
Definition roll_series (rows : list (list sql_value)) : exec (option AggregateDelta) := exec_foldl roll_next None rows.

(** The bucket rows of a series in an hour, in the order of their windows. *)
Definition series_rows (f : StoreFile) (hour sid : Z) : list (list sql_value) := omap (fun w => sf_buckets f !! (w, sid)) (windows_of f hour sid).

Definition source_ok (row : list sql_value) : Prop := forall d, scanDelta row = fine d -> source_safe (d_Sketch d) = true.

Lemma lift_Ok {A} (m : option A) a : lift m = fine a -> m = Some a.
Proof. unfold lift, fine. destruct m; cbn; congruence. Qed.

Lemma bucket_rows_series f hour ids : bucket_rows f hour ids = sid ← ids; pair sid <$> series_rows f hour sid.
Proof.
  unfold bucket_rows, series_rows. induction ids as [|sid ids IH]; [done|]. cbn [mbind list_bind]. f_equal; [|exact IH].
  induction (windows_of f hour sid) as [|w ws IHw]; [done|]. cbn [omap list_omap]. destruct (sf_buckets f !! (w, sid)); cbn [mbind option_bind fmap list_fmap]; by rewrite IHw.
Qed.

(** Rows of a series whose row is the last of the batch. *)
Lemma roll_rows_last sid rows : forall batch a safe out safe', exec_foldl roll_row (batch ++ [(sid, a)], safe) (pair sid <$> rows) = fine (out, safe') ->
  exists a', out = batch ++ [(sid, a')] /\ exec_foldl roll_next (Some a) rows = fine (Some a') /\ (safe' = true -> safe = true /\ Forall source_ok rows).
Proof.
  induction rows as [|row rows IH]; intros batch a safe out safe'; cbn [fmap list_fmap].
  { intros [= <- <-]. exists a. split_and!; [done|done|]. intros ->. split; [done|constructor]. }
  rewrite !exec_foldl_cons. intros ([o s] & E1 & E2)%ebind_Ok. unfold roll_row in E1. cbn [fst snd] in E1. apply ebind_Ok in E1 as (d & Ed & E1).
  rewrite last_snoc, Z.eqb_refl in E1. apply ebind_Ok in E1 as (m & Em & [= <- <-]). rewrite removelast_last in E2.
  destruct (IH _ _ _ _ _ E2) as (a' & -> & Ea & Hs). exists a'. split_and!; [done| |].
  - unfold roll_next at 1. rewrite Ed. cbn [ebind fine]. fold (fine (A := AggregateDelta)). rewrite Em. cbn [ebind]. exact Ea.
  - intros HT. destruct (Hs HT) as [[Hsafe Hd]%andb_true_iff Hf]. split; [done|]. constructor; [|done]. intros d' Ed'. rewrite Ed in Ed'. by injection Ed' as <-.
Qed.

Lemma roll_rows_new sid rows batch safe out safe' : sid ∉ batch.*1 -> exec_foldl roll_row (batch, safe) (pair sid <$> rows) = fine (out, safe') ->
  (rows = [] /\ out = batch \/ exists d, out = batch ++ [(sid, d)] /\ roll_series rows = fine (Some d)) /\ (safe' = true -> safe = true /\ Forall source_ok rows).
Proof.
  intros Hn. destruct rows as [|row rows]; cbn [fmap list_fmap].
  { intros [= <- <-]. split; [by left|]. intros ->. split; [done|constructor]. }
  rewrite exec_foldl_cons. intros ([o s] & E1 & E2)%ebind_Ok. unfold roll_row in E1. cbn [fst snd] in E1. apply ebind_Ok in E1 as (d & Ed & E1).
  assert (o = batch ++ [(sid, d)] /\ s = safe && source_safe (d_Sketch d)) as [-> ->].
  { destruct (last batch) as [[sid' acc]|] eqn:El; [|by injection E1 as <- <-]. destruct (sid' =? sid) eqn:Es; z_bool; [|by injection E1 as <- <-].
    exfalso. apply Hn. subst sid'. apply last_Some in El as [l' ->]. rewrite fmap_app. apply elem_of_app. right. by left. }
  apply roll_rows_last in E2 as (a' & -> & Ea & Hs). split.
  - right. exists a'. split; [done|]. unfold roll_series. rewrite exec_foldl_cons. unfold roll_next at 1. rewrite Ed. exact Ea.
  - intros HT. destruct (Hs HT) as [[Hsafe Hd]%andb_true_iff Hf]. split; [done|]. constructor; [|done]. intros d' Ed'. rewrite Ed in Ed'. by injection Ed' as <-.
Qed.

(** A batch has one row for every series of its IDs with buckets in the hour. *)
Lemma readRollupBatch_spec f hour ids batch safe : NoDup ids -> readRollupBatch f hour ids = fine (batch, safe) ->
  NoDup batch.*1 /\ (forall sid d, (sid, d) ∈ batch -> sid ∈ ids /\ roll_series (series_rows f hour sid) = fine (Some d)) /\
  (forall sid, sid ∈ ids -> sid ∈ batch.*1 \/ series_rows f hour sid = []) /\
  (safe = true -> forall sid, sid ∈ ids -> Forall source_ok (series_rows f hour sid)).
Proof.
  intros Hids. unfold readRollupBatch. rewrite bucket_rows_series.
  enough (forall b0 s0, NoDup b0.*1 -> (forall sid, sid ∈ ids -> sid ∉ b0.*1) -> exec_foldl roll_row (b0, s0) (sid ← ids; pair sid <$> series_rows f hour sid) = fine (batch, safe) ->
    NoDup batch.*1 /\ (forall sid d, (sid, d) ∈ batch -> (sid, d) ∈ b0 \/ sid ∈ ids /\ roll_series (series_rows f hour sid) = fine (Some d)) /\
    (forall sid, sid ∈ b0.*1 -> sid ∈ batch.*1) /\ (forall sid, sid ∈ ids -> sid ∈ batch.*1 \/ series_rows f hour sid = []) /\
    (safe = true -> s0 = true /\ forall sid, sid ∈ ids -> Forall source_ok (series_rows f hour sid))) as HE.
  { intros E. destruct (HE [] true ltac:(constructor) ltac:(intros sid _; apply not_elem_of_nil) E) as (E1 & E2 & _ & E4 & E5). split_and!; [done| |done|intros HT; exact (proj2 (E5 HT))].
    intros sid d Hin. by destruct (E2 sid d Hin) as [?%elem_of_nil|?]. }
  induction ids as [|sid ids IH]; intros b0 s0 Hb Hd E.
  { injection E as <- <-. split_and!; try done; [by left|by intros ? ?%elem_of_nil|]. intros ->. split; [done|]. by intros ? ?%elem_of_nil. }
  apply NoDup_cons in Hids as [Hsid Hids]. cbn [mbind list_bind] in E. rewrite exec_foldl_app in E. apply ebind_Ok in E as ([b1 s1] & E1 & E2).
  pose proof (Hd sid ltac:(by left)) as Hns. apply roll_rows_new in E1 as [E1 Hs1]; [|done].
  assert (NoDup b1.*1 /\ (forall x, x ∈ b1.*1 <-> x ∈ b0.*1 \/ x = sid /\ series_rows f hour sid <> []) /\
    (forall x d, (x, d) ∈ b1 -> (x, d) ∈ b0 \/ x = sid /\ roll_series (series_rows f hour sid) = fine (Some d))) as (B1 & B2 & B3).
  { destruct E1 as [[Hr ->]|(d & -> & Hr)].
    - rewrite Hr. split_and!; [done| |by left]. intros x. split; [by left|]. by intros [?|[_ ?]].
    - rewrite fmap_app. split_and!.
      + apply NoDup_app. split_and!; [done| |apply NoDup_singleton]. intros x Hx ->%list_elem_of_singleton. done.
      + intros x. rewrite elem_of_app. cbn. rewrite list_elem_of_singleton. assert (series_rows f hour sid <> []); [|tauto]. intros Hn. by rewrite Hn in Hr.
      + intros x d' [?|[= -> ->]%list_elem_of_singleton]%elem_of_app; [by left|by right]. }
  destruct (IH Hids b1 s1 B1) as (I1 & I2 & I3 & I4 & I5); [|done|].
  { intros x Hx [Hb0|[-> _]]%B2; [|done]. by apply (Hd x); [right|]. }
  split_and!; [done| | | |].
  - intros x d Hin. destruct (I2 x d Hin) as [[?|[-> ?]]%B3|[? ?]]; [by left|right; by split; [left|]|right; by split; [right|]].
  - intros x Hx. apply I3, B2. by left.
  - intros x [->|Hx]%elem_of_cons; [|by apply I4]. destruct (series_rows f hour sid) as [|r0 rs] eqn:Er; [by right|]. left. apply I3, B2. by right.
  - intros HT. destruct (I5 HT) as [Hs Hf]. destruct (Hs1 Hs) as [? ?]. split; [done|]. intros x [->|Hx]%elem_of_cons; [done|by apply Hf].
Qed.

(** The bucket rows of an hour depend on the buckets of that hour alone. *)
Lemma elem_of_windows_of f hour sid w : w ∈ windows_of f hour sid <-> hour <= w < hour + rollupHour /\ is_Some (sf_buckets f !! (w, sid)).
Proof.
  unfold windows_of. rewrite list_elem_of_fmap. split.
  - intros ([w' sid'] & -> & [(? & ? & Hs) Hin]%list_elem_of_filter). cbn [fst snd] in *. subst sid'. split; [tauto|]. by apply elem_of_ordered.
  - intros [? Hs]. exists (w, sid). split; [done|]. apply list_elem_of_filter. split; [cbn [fst snd]; tauto|]. by apply elem_of_ordered.
Qed.

#[local] Instance key_le_trans : Transitive key_le.
Proof. intros [a1 a2] [b1 b2] [c1 c2]. unfold key_le. cbn. lia. Qed.
#[local] Instance key_le_total : Total key_le.
Proof. intros [a1 a2] [b1 b2]. unfold key_le. cbn. lia. Qed.

Lemma windows_of_sorted f hour sid : StronglySorted Z.lt (windows_of f hour sid).
Proof.
  assert (StronglySorted key_le (ordered (sf_buckets f))) as Hs.
  { unfold ordered. apply (StronglySorted_merge_sort key_le). }
  assert (NoDup (ordered (sf_buckets f))) as Hn by (unfold ordered; rewrite merge_sort_Permutation; apply NoDup_elements).
  unfold windows_of. induction Hs as [|k l Hs IH Hk]; [constructor|]. apply NoDup_cons in Hn as [Hnk Hn]. rewrite filter_cons. case_decide as Hd; [|by apply IH].
  cbn [fmap list_fmap]. constructor; [by apply IH|]. apply Forall_forall. intros w ([w' s'] & -> & [Hd' Hin]%list_elem_of_filter)%list_elem_of_fmap.
  rewrite Forall_forall in Hk. specialize (Hk _ Hin). destruct k as [w0 s0]. unfold key_le in Hk. cbn in *. destruct Hk as [?|[Hw ?]]; [lia|].
  exfalso. apply Hnk. destruct Hd as (_ & _ & ->), Hd' as (_ & _ & ->). by subst w'.
Qed.

Lemma sorted_lt_unique l1 : forall l2, StronglySorted Z.lt l1 -> StronglySorted Z.lt l2 -> (forall x, x ∈ l1 <-> x ∈ l2) -> l1 = l2.
Proof.
  induction l1 as [|x l1 IH]; intros [|y l2] H1 H2 He; [done| | |].
  - by pose proof (proj2 (He y) ltac:(by left)) as Hy%elem_of_nil.
  - by pose proof (proj1 (He x) ltac:(by left)) as Hx%elem_of_nil.
  - apply StronglySorted_inv in H1 as [S1 F1], H2 as [S2 F2]. rewrite Forall_forall in F1, F2.
    assert (x = y) as <-.
    { pose proof (proj1 (He x) ltac:(by left)) as Hx. pose proof (proj2 (He y) ltac:(by left)) as Hy.
      apply elem_of_cons in Hx as [?|Hx], Hy as [?|Hy]; try done. pose proof (F1 y Hy). pose proof (F2 x Hx). lia. }
    f_equal. apply IH; [done|done|]. intros z. pose proof (He z) as Hz. rewrite !elem_of_cons in Hz. split; intros Hin.
    + destruct (proj1 Hz ltac:(by right)) as [->|?]; [|done]. pose proof (F1 x Hin). lia.
    + destruct (proj2 Hz ltac:(by right)) as [->|?]; [|done]. pose proof (F2 x Hin). lia.
Qed.

Definition same_hour (f1 f2 : StoreFile) (hour : Z) : Prop :=
  forall w sid, hour <= w < hour + rollupHour -> sf_buckets f1 !! (w, sid) = sf_buckets f2 !! (w, sid).

Lemma same_hour_rows f1 f2 hour sid : same_hour f1 f2 hour -> series_rows f1 hour sid = series_rows f2 hour sid.
Proof.
  intros Hs. unfold series_rows. assert (windows_of f1 hour sid = windows_of f2 hour sid) as ->.
  { apply sorted_lt_unique; [apply windows_of_sorted..|]. intros w. rewrite !elem_of_windows_of. split; intros [Hr ?]; (split; [done|]); pose proof (Hs w sid Hr) as He; congruence. }
  assert (forall w, w ∈ windows_of f2 hour sid -> hour <= w < hour + rollupHour) as Hr by (intros w; rewrite elem_of_windows_of; tauto).
  revert Hr. generalize (windows_of f2 hour sid). intros ws. induction ws as [|w ws IH]; intros Hr; [done|]. cbn [omap list_omap].
  rewrite (Hs w sid) by (apply Hr; by left). by rewrite IH by (intros; apply Hr; by right).
Qed.

Section Builds.
Context `{Sqlite}.

(** The hourly row of a series is the fold of its buckets. *)
Definition rolls (f : StoreFile) (hour sid : Z) (row : option (list sql_value)) : Prop :=
  match row with
  | None => series_rows f hour sid = []
  | Some row => exists d blob, roll_series (series_rows f hour sid) = fine (Some d) /\ sketch_blob d = Some blob /\ put_row (deltaArgs (Some d) blob) = fine row
  end.

(** No source and no fold of a series lost precision. *)
Definition rolls_safe (f : StoreFile) (hour sid : Z) : Prop :=
  Forall source_ok (series_rows f hour sid) /\ forall d, roll_series (series_rows f hour sid) = fine (Some d) -> lossless (d_Sketch d) = true.

Lemma same_hour_rolls f1 f2 hour sid row : same_hour f1 f2 hour -> rolls f1 hour sid row <-> rolls f2 hour sid row.
Proof. intros Hs. unfold rolls. by rewrite (same_hour_rows _ _ _ sid Hs). Qed.

Lemma same_hour_safe f1 f2 hour sid : same_hour f1 f2 hour -> rolls_safe f1 hour sid <-> rolls_safe f2 hour sid.
Proof. intros Hs. unfold rolls_safe. by rewrite (same_hour_rows _ _ _ sid Hs). Qed.

Lemma insert_hourly_spec hour batch : forall t t', NoDup batch.*1 -> exec_foldl (insert_hourly hour) t batch = fine t' ->
  (forall sid d, (sid, d) ∈ batch -> exists blob row, sketch_blob d = Some blob /\ put_row (deltaArgs (Some d) blob) = fine row /\ t' !! (hour, sid) = Some row) /\
  (forall key, (key.1 <> hour \/ key.2 ∉ batch.*1) -> t' !! key = t !! key).
Proof.
  induction batch as [|[sid d] batch IH]; intros t t' Hn E; [injection E as <-; split; [by intros ?? ?%elem_of_nil|done]|].
  apply NoDup_cons in Hn as [Hsid Hn]. rewrite exec_foldl_cons in E. apply ebind_Ok in E as (t1 & E1 & E). unfold insert_hourly in E1. cbn [fst snd] in E1.
  apply ebind_Ok in E1 as (blob & Eb%lift_Ok & E1). apply ebind_Ok in E1 as (row & Er & E1). destruct (bool_decide _); [done|]. injection E1 as <-.
  destruct (IH _ _ Hn E) as [I1 I2]. split.
  - intros sid' d' [[= -> ->]|Hin]%elem_of_cons; [|by apply I1]. exists blob, row. split_and!; [done|done|]. rewrite I2 by (by right). by rewrite lookup_insert_eq.
  - intros [h s] Hk. cbn [fst snd fmap list_fmap] in Hk. rewrite elem_of_cons in Hk. rewrite I2 by (cbn; tauto). apply lookup_insert_ne. intros [= -> ->]. tauto.
Qed.

(** ** The system: one file, many builds *)

Inductive phase := PCleaning | PReady | PReading (snapshot : StoreFile) (p : rollup_progress).

Record rsys := mkSys {
  ry_file : RollupFile;
  ry_builds : gmap string (Z * phase);          (** by token: the hour and how far the build is *)
  ry_used : gset string;                        (** every token minted so far *)
}.

(** Rows are of registered series, whose IDs are positive. *)
Definition owned_rows (m : gmap (Z * Z) (list sql_value)) (f : StoreFile) : Prop := forall key, is_Some (m !! key) -> is_Some (sf_series f !! key.2) /\ 0 < key.2.
Definition owned (f : StoreFile) : Prop := owned_rows (sf_log f) f /\ owned_rows (sf_buckets f) f.

(** Everything that changes the file or the derived tables, one transaction at
    a time: group commits, finalizations, retention, a rebuild of the store
    under a new UUID and the opening of the extension; discovery; and the
    transactions of any number of builds, which may stop anywhere.  Tokens are
    random UUIDs: a claim mints one that was never used. *)
Inductive rstep : rsys -> rsys -> Prop :=
| rs_commit r bs used io b f' n : commitGroup io (ru_file r) b = fine (f', n) -> owned f' -> rstep (mkSys r bs used) (mkSys (set_file r f') bs used)
| rs_finalize r bs used io w r' : rollup_finalize io r w = fine r' -> rstep (mkSys r bs used) (mkSys r' bs used)
| rs_purge r bs used w : rstep (mkSys r bs used) (mkSys (rollup_purge r w) bs used)
| rs_rebuild r bs used uuid : uuid <> "" -> ru_owner r <> Some uuid ->
    rstep (mkSys r bs used) (mkSys (mkRollup emptyFile uuid (ru_version r) (ru_owner r) (ru_hours r) (ru_hourly r)) bs used)
| rs_open r bs used hourlyExists intact r' : ensureRollupSchema hourlyExists intact r = fine r' -> rstep (mkSys r bs used) (mkSys r' bs used)
| rs_discover r bs used : rstep (mkSys r bs used) (mkSys (discoverRollupHours r) bs used)
| rs_claim r bs used hour token r' : token ∉ used -> hourStart hour = hour -> claim r hour token = fine r' ->
    rstep (mkSys r bs used) (mkSys r' (<[token := (hour, PCleaning)]> bs) ({[token]} ∪ used))
| rs_clean r bs used hour token r' n : bs !! token = Some (hour, PCleaning) -> clean_batch r hour token = fine (r', n) ->
    rstep (mkSys r bs used) (mkSys r' (<[token := (hour, if n <? rollupBatch then PReady else PCleaning)]> bs) used)
| rs_snapshot r bs used hour token : bs !! token = Some (hour, PReady) ->
    rstep (mkSys r bs used) (mkSys r (<[token := (hour, PReading (ru_file r) (mkProgress 0 0 true))]> bs) used)
| rs_batch r bs used hour token snapshot p r' p' : bs !! token = Some (hour, PReading snapshot p) -> roll_batch r snapshot hour token p = fine (r', Some p') ->
    rstep (mkSys r bs used) (mkSys r' (<[token := (hour, PReading snapshot p')]> bs) used)
| rs_publish r bs used hour token snapshot p r' : bs !! token = Some (hour, PReading snapshot p) -> roll_batch r snapshot hour token p = fine (r, None) ->
    publish r hour token p = fine r' -> rstep (mkSys r bs used) (mkSys r' (delete token bs) used)
| rs_stop r bs used token : rstep (mkSys r bs used) (mkSys r (delete token bs) used).

Inductive rreach (s0 : rsys) : rsys -> Prop :=
| rr_init : rreach s0 s0
| rr_step s s' : rreach s0 s -> rstep s s' -> rreach s0 s'.

(** The hour is being built under the token. *)
Definition current (r : RollupFile) (hour : Z) (token : string) : Prop :=
  exists h, ru_hours r !! hour = Some h /\ rh_state h = 1 /\ rh_build h = token.

(** What a build relies on while its token is the hour's. *)
Definition build_ok (r : RollupFile) (hour : Z) (ph : phase) : Prop :=
  match ph with
  | PCleaning => True
  | PReady => forall sid, ru_hourly r !! (hour, sid) = None
  | PReading snapshot p =>
      same_hour snapshot (ru_file r) hour /\ owned snapshot /\
      (forall sid, if sid <=? rp_after p then rolls snapshot hour sid (ru_hourly r !! (hour, sid)) else ru_hourly r !! (hour, sid) = None) /\
      (rp_safe p = true -> forall sid, sid <= rp_after p -> rolls_safe snapshot hour sid)
  end.

(** The hour's rows are the folds of the buckets, and marked safe only when
    nothing was lost. *)
Definition complete_ok (r : RollupFile) (hour : Z) (h : RollupHour) : Prop :=
  (forall sid, rolls (ru_file r) hour sid (ru_hourly r !! (hour, sid))) /\
  (rh_safe h = true -> forall sid, rolls_safe (ru_file r) hour sid).

Record rsys_ok (s : rsys) : Prop := {
  ro_uuid : ru_uuid (ry_file s) <> "";
  ro_owned : owned (ru_file (ry_file s));
  ro_aligned hour h : ru_hours (ry_file s) !! hour = Some h -> hourStart hour = hour;
  ro_build_aligned token hour ph : ry_builds s !! token = Some (hour, ph) -> hourStart hour = hour;
  ro_used token b : ry_builds s !! token = Some b -> token ∈ ry_used s;
  ro_used_hours hour h : ru_hours (ry_file s) !! hour = Some h -> rh_state h = 1 -> rh_build h ∈ ry_used s;
  ro_hourly key : is_Some (ru_hourly (ry_file s) !! key) -> hourStart key.1 = key.1;
  ro_builds token hour ph : ru_owner (ry_file s) = Some (ru_uuid (ry_file s)) -> ry_builds s !! token = Some (hour, ph) ->
    current (ry_file s) hour token -> build_ok (ry_file s) hour ph;
  ro_complete hour h : ru_owner (ry_file s) = Some (ru_uuid (ry_file s)) -> ru_hours (ry_file s) !! hour = Some h -> rh_state h = 2 -> complete_ok (ry_file s) hour h;
}.

(** ** Writers *)

Lemma materialize_dom f w b stats : materializeWindow f w = fine (b, stats) ->
  (forall key, is_Some (b !! key) -> is_Some (sf_buckets f !! key) \/ is_Some (sf_log f !! key)) /\ (fs_Buckets stats <= 0 -> b = sf_buckets f).
Proof.
  unfold materializeWindow. intros ([b1 st1] & E1 & E2)%ebind_Ok. set (rewrite_ := negb (length (series_in (sf_buckets f) w) =? 0)%nat) in *.
  assert ((forall key, is_Some (b1 !! key) -> is_Some (sf_buckets f !! key) \/ is_Some (sf_log f !! key)) /\ 0 <= fs_Buckets st1 /\ (fs_Buckets st1 <= 0 -> b1 = sf_buckets f)) as (M1 & M2 & M3).
  { change b1 with (b1, st1).1. change st1 with (b1, st1).2. revert E1.
    apply (exec_foldl_ind (fun _ st => (forall key, is_Some (st.1 !! key) -> is_Some (sf_buckets f !! key) \/ is_Some (sf_log f !! key)) /\ 0 <= fs_Buckets st.2 /\ (fs_Buckets st.2 <= 0 -> st.1 = sf_buckets f))).
    { split_and!; [by left|cbn; lia|done]. }
    intros _ sid [b2 st2] [b3 st3] _ (I1 & I2 & I3) Em. cbn [fst snd] in *. unfold materialize_one in Em. destruct (sf_log f !! (w, sid)) as [row|] eqn:El; [|by injection Em as <- <-].
    apply ebind_Ok in Em as (d & _ & Em). destruct (negb rewrite_); [by injection Em as <- <-|]. apply ebind_Ok in Em as (d' & _ & Em).
    apply ebind_Ok in Em as (blob & _ & Em). apply ebind_Ok in Em as (row' & _ & [= <- <-]). cbn [fst snd fs_Buckets]. split_and!; [|lia|lia].
    intros key. rewrite lookup_insert. case_decide as Hk; [|apply I1]. intros _. right. rewrite <- Hk, El. by eexists. }
  destruct (negb rewrite_ && (0 <? fs_DeltaRows st1)) eqn:Ec; [|injection E2 as <- <-; by split].
  destruct (negb (_ =? _)); [done|]. injection E2 as <- <-. apply andb_true_iff in Ec as [_ Ec]. z_bool. cbn [fs_Buckets]. split; [|lia].
  unfold copy_window. assert (forall ids (b0 : gmap (Z * Z) (list sql_value)), (forall key, is_Some (b0 !! key) -> is_Some (sf_buckets f !! key) \/ is_Some (sf_log f !! key)) ->
    forall key, is_Some (foldl (fun b id => match sf_log f !! (w, id) with Some row => <[(w, id) := row]> b | None => b end) b0 ids !! key) -> is_Some (sf_buckets f !! key) \/ is_Some (sf_log f !! key)) as HC; [|by apply HC].
  induction ids as [|sid ids IH]; intros b0 Hb0 key; [apply Hb0|]. cbn [foldl]. apply IH. intros key' Hk. destruct (sf_log f !! (w, sid)) as [row|] eqn:El; [|by apply Hb0].
  rewrite lookup_insert in Hk. case_decide as Hd; [|by apply Hb0]. right. rewrite <- Hd, El. by eexists.
Qed.

(** A writer of one window keeps every hour whose mark its triggers left. *)
Definition writes_window (r r' : RollupFile) (w rows : Z) : Prop :=
  ru_uuid r' = ru_uuid r /\ ru_owner r' = ru_owner r /\ ru_hourly r' = ru_hourly r /\ ru_hours r' = fire_triggers w rows (ru_hours r) /\
  (forall key, key.1 <> w -> sf_buckets (ru_file r') !! key = sf_buckets (ru_file r) !! key) /\
  (rows <= 0 -> sf_buckets (ru_file r') = sf_buckets (ru_file r)) /\ (owned (ru_file r) -> owned (ru_file r')).

Lemma finalize_writes io r w r' : rollup_finalize io r w = fine r' -> exists rows, writes_window r r' w rows.
Proof.
  unfold rollup_finalize. intros ([f stats] & E & [= <-])%ebind_Ok. exists (fs_Buckets stats). unfold writes_window. cbn [ru_uuid ru_owner ru_hourly ru_hours ru_file set_hours set_file].
  assert (FinalizeWindow io (ru_file r) w = Some (f, None)) as EF by (unfold FinalizeWindow; by rewrite E).
  split_and!; [done..| | |].
  - intros key Hk. by apply (FinalizeWindow_other _ _ _ _ _ _ EF Hk).
  - unfold finalizeWindow in E. apply ebind_Ok in E as ([b st] & Em & E). destruct (materialize_dom _ _ _ _ Em) as [_ M2].
    destruct (_ =? 0), io; try done; injection E as <- <-; [done|]. cbn. apply M2.
  - intros [O1 O2]. unfold finalizeWindow in E. apply ebind_Ok in E as ([b st] & Em & E). destruct (materialize_dom _ _ _ _ Em) as [M1 _].
    destruct (_ =? 0), io; try done; injection E as <- <-; [done|]. split; intros key Hk; cbn in *.
    + rewrite delete_window_lookup in Hk. case_decide; [by destruct Hk|]. by apply O1.
    + destruct (M1 key Hk); [by apply O2|by apply O1].
Qed.

Lemma purge_writes r w : exists rows, writes_window r (rollup_purge r w) w rows.
Proof.
  exists (rows_in (sf_buckets (ru_file r)) w). unfold rollup_purge, purgeWindow, writes_window. cbn [ru_uuid ru_owner ru_hourly ru_hours ru_file set_hours set_file sf_buckets set_windows].
  split_and!; [done..| | |].
  - intros key Hk. rewrite delete_window_lookup. by case_decide.
  - intros Hn. apply map_eq. intros key. rewrite delete_window_lookup. case_decide as Hk; [|done]. symmetry. apply eq_None_not_Some. intros Hs.
    unfold rows_in in Hn. destruct key as [w' sid]. cbn in Hk. subst w'. apply elem_of_series_in in Hs. destruct (series_in _ w); [by apply elem_of_nil in Hs|cbn [length] in Hn; lia].
  - intros [O1 O2]. split; intros key Hk; cbn in *; rewrite delete_window_lookup in Hk; case_decide; try (by destruct Hk); [by apply O1|by apply O2].
Qed.

(** Nothing a build or a complete hour relies on changes. *)
Lemma frame_keeps r r' bs used : rsys_ok (mkSys r bs used) -> ru_uuid r' = ru_uuid r -> ru_owner r' = ru_owner r -> ru_hourly r' = ru_hourly r ->
  ru_hours r' ⊆ ru_hours r -> owned (ru_file r') -> (forall hour, is_Some (ru_hours r' !! hour) -> same_hour (ru_file r) (ru_file r') hour) -> rsys_ok (mkSys r' bs used).
Proof.
  intros [K1 K2 K3 K4 K5 K6 K9 K7 K8] Eu Eo Eh Hsub Hown Hsame. cbn [ry_file ry_builds ry_used] in *.
  assert (forall hour h, ru_hours r' !! hour = Some h -> ru_hours r !! hour = Some h) as Hin by (intros hour h Hh; by eapply lookup_weaken).
  constructor; cbn [ry_file ry_builds ry_used]; rewrite ?Eu, ?Eo, ?Eh; try done; eauto.
  - intros token hour ph Ho Hb (h & Hh & Hst & Ht). assert (build_ok r hour ph) as Hok by (eapply K7; [done|done|]; exists h; eauto).
    pose proof (Hsame hour ltac:(by rewrite Hh)) as Hs. destruct ph as [| |snap p]; cbn in *; rewrite ?Eh; [done|done|]. destruct Hok as (P1 & P2 & P3 & P4). split_and!; try done.
    intros w sid Hw. by rewrite <- Hs, P1.
  - intros hour h Ho Hh Hst. destruct (K8 hour h Ho (Hin _ _ Hh) Hst) as [C1 C2]. pose proof (Hsame hour ltac:(by rewrite Hh)) as Hs. split.
    + intros sid. rewrite Eh. by apply (same_hour_rolls _ _ _ _ _ Hs).
    + intros Hsafe sid. by apply (same_hour_safe _ _ _ _ Hs), C2.
Qed.

Lemma writes_keeps r r' bs used w rows : rsys_ok (mkSys r bs used) -> writes_window r r' w rows -> rsys_ok (mkSys r' bs used).
Proof.
  intros Hok (Eu & Eo & Eh & Ehs & Hother & Hnone & Hown). apply (frame_keeps r r' bs used Hok); try done.
  - rewrite Ehs. unfold fire_triggers. destruct (0 <? rows); [apply delete_subseteq|done].
  - by apply Hown, Hok.
  - intros hour [h Hh]. rewrite Ehs in Hh. unfold fire_triggers in Hh. destruct (0 <? rows) eqn:Er; z_bool.
    + apply lookup_delete_Some in Hh as [Hne Hh]. intros w' sid Hw. symmetry. apply Hother. cbn. intros ->. apply Hne.
      apply hourStart_in; [|done]. by eapply (ro_aligned _ Hok).
    + intros w' sid _. by rewrite Hnone.
Qed.

(** ** Builds *)

Lemma check_current r hour token : checkRollupBuild r hour token = fine tt -> current r hour token.
Proof.
  unfold checkRollupBuild. destruct (ru_hours r !! hour) as [h|] eqn:Eh; [|done]. destruct (_ && _) eqn:Ec; [|done]. intros _.
  apply andb_true_iff in Ec as [Es Et]. z_bool. apply String.eqb_eq in Et. by exists h.
Qed.

Lemma current_unique r hour t1 t2 : current r hour t1 -> current r hour t2 -> t1 = t2.
Proof. intros (h1 & H1 & _ & <-) (h2 & H2 & _ & <-). congruence. Qed.

(** A transaction of a build writes rows of its own hour, and only under its token. *)
Lemma build_keeps r bs used hour token ph ph' hourly : rsys_ok (mkSys r bs used) -> bs !! token = Some (hour, ph) ->
  (forall key, key.1 <> hour -> hourly !! key = ru_hourly r !! key) -> (hourly = ru_hourly r \/ current r hour token) ->
  (ru_owner r = Some (ru_uuid r) -> current r hour token -> build_ok (set_hourly r hourly) hour ph') ->
  rsys_ok (mkSys (set_hourly r hourly) (<[token := (hour, ph')]> bs) used).
Proof.
  intros [K1 K2 K3 K4 K5 K6 K9 K7 K8] Hb Hother Hcur Hph. cbn [ry_file ry_builds ry_used] in *. constructor; cbn [ry_file ry_builds ry_used ru_uuid ru_file ru_hours ru_owner set_hourly]; try done.
  - intros t hr p. rewrite lookup_insert. case_decide as Ht; [intros [= <- <-]; by eapply K4|apply K4].
  - intros t b. rewrite lookup_insert. case_decide as Ht; [intros _; subst t; by eapply K5|apply K5].
  - intros key Hk. cbn [ru_hourly] in Hk. destruct (decide (key.1 = hour)) as [->|Hne]; [by eapply K4|]. rewrite Hother in Hk by done. by apply K9.
  - intros t hr p Ho. rewrite lookup_insert. case_decide as Ht; [intros [= <- <-] Hc; subst t; by apply Hph|]. intros Hp Hc. specialize (K7 _ _ _ Ho Hp Hc).
    assert (hourly = ru_hourly r \/ hr <> hour) as Hsame by (destruct Hcur as [?|Hcur]; [by left|right; intros ->; by eapply Ht, current_unique]).
    assert (forall sid, hourly !! (hr, sid) = ru_hourly r !! (hr, sid)) as He by (destruct Hsame as [->|Hne]; [done|intros sid; by apply Hother]).
    destruct p as [| |snap p]; cbn in *; [done|intros sid; by rewrite He|]. destruct K7 as (P1 & P2 & P3 & P4). split_and!; try done. intros sid. rewrite He. apply P3.
  - intros hr h Ho Hh Hst. destruct (K8 hr h Ho Hh Hst) as [C1 C2]. split; [|done]. intros sid. cbn [ru_hourly].
    assert (hourly = ru_hourly r \/ hr <> hour) as [->|Hne]; [|done|rewrite Hother by done; apply C1].
    destruct Hcur as [?|(h' & Hh' & Hs' & _)]; [by left|right]. intros ->. rewrite Hh in Hh'. injection Hh' as <-. lia.
Qed.

Lemma clean_batch_spec r hour token r' n : clean_batch r hour token = fine (r', n) ->
  current r hour token /\ exists hourly, r' = set_hourly r hourly /\ (forall key, key.1 <> hour -> hourly !! key = ru_hourly r !! key) /\
    ((n <? rollupBatch) = true -> forall sid, hourly !! (hour, sid) = None).
Proof.
  unfold clean_batch. intros ([] & Ec & [= <- <-])%ebind_Ok. split; [by apply check_current|]. eexists. split; [done|].
  assert (forall ids (t : gmap (Z * Z) (list sql_value)) key, foldl (fun t sid => delete (hour, sid) t) t ids !! key = if bool_decide (key.1 = hour /\ key.2 ∈ ids) then None else t !! key) as HD.
  { induction ids as [|i ids IH]; intros t [h s]; cbn [foldl fst snd]; [rewrite bool_decide_false; [done|]; by intros [_ ?%elem_of_nil]|]. rewrite IH. cbn [fst snd].
    destruct (decide (h = hour /\ s ∈ ids)) as [Hd|Hd]; [rewrite !bool_decide_true; [done|split; [tauto|right; tauto]|done]|]. rewrite (bool_decide_false _ Hd), lookup_delete.
    case_decide as Hk; [injection Hk as -> ->; rewrite bool_decide_true; [done|]; split; [done|by left]|]. rewrite bool_decide_false; [done|]. intros [-> [->|?]%elem_of_cons]; [done|]. by apply Hd. }
  split.
  - intros key Hk. rewrite HD, bool_decide_false; [done|]. by intros [? _].
  - intros Hn%Z.ltb_lt sid. rewrite HD. cbn [fst snd]. case_bool_decide as Hd; [done|]. apply eq_None_not_Some. intros Hs. apply Hd. split; [done|].
    rewrite length_take in Hn. rewrite take_ge by lia. by apply elem_of_series_in.
Qed.

Lemma elem_of_series_batch f after : exists rest, filter (fun sid => after < sid) (sort_Z (elements (dom (sf_series f)))) = rollupSeriesBatch f after ++ rest /\
  StronglySorted Z.lt (rollupSeriesBatch f after ++ rest) /\ (forall sid, sid ∈ rollupSeriesBatch f after ++ rest <-> after < sid /\ is_Some (sf_series f !! sid)) /\
  (rollupSeriesBatch f after = [] -> rest = []).
Proof.
  unfold rollupSeriesBatch. set (l := filter _ _). exists (drop (Z.to_nat rollupBatch) l). rewrite !take_drop. split_and!; [done| | |].
  - unfold l. assert (StronglySorted Z.lt (sort_Z (elements (dom (sf_series f))))) as Hs by apply sort_Z_strict, NoDup_elements.
    induction Hs as [|x l' Hs IH Hx]; [constructor|]. rewrite filter_cons. case_decide; [|done]. constructor; [done|]. rewrite Forall_forall in *. intros y [_ Hy]%list_elem_of_filter. by apply Hx.
  - intros sid. unfold l. rewrite list_elem_of_filter, elem_of_sort_Z, elem_of_elements, elem_of_dom. done.
  - destruct l; [done|]. by destruct (Z.to_nat rollupBatch) eqn:E.
Qed.

Lemma no_rows f hour sid : owned f -> sf_series f !! sid = None -> series_rows f hour sid = [].
Proof.
  intros [_ Ho] Hn. unfold series_rows. assert (windows_of f hour sid = []) as ->; [|done]. destruct (windows_of f hour sid) as [|w ws] eqn:Ew; [done|].
  assert (w ∈ windows_of f hour sid) as [_ Hs]%elem_of_windows_of by (rewrite Ew; by left). destruct (Ho _ Hs) as [Hs' _]. cbn in Hs'. rewrite Hn in Hs'. by destruct Hs'.
Qed.

Lemma no_rows_low f hour sid : owned f -> sid <= 0 -> series_rows f hour sid = [].
Proof.
  intros [_ Ho] Hs. unfold series_rows. destruct (windows_of f hour sid) as [|w ws] eqn:Ew; [done|].
  assert (w ∈ windows_of f hour sid) as [_ Hin]%elem_of_windows_of by (rewrite Ew; by left). destruct (Ho _ Hin) as [_ Hp]. cbn in Hp. lia.
Qed.

(** One batch: the hourly rows of the next series are the folds of their buckets. *)
Lemma roll_batch_ok r snapshot hour token p r' p' : roll_batch r snapshot hour token p = fine (r', Some p') ->
  exists hourly, r' = set_hourly r hourly /\ (forall key, key.1 <> hour -> hourly !! key = ru_hourly r !! key) /\ (hourly = ru_hourly r \/ current r hour token) /\
    (build_ok r hour (PReading snapshot p) -> build_ok r' hour (PReading snapshot p')).
Proof.
  unfold roll_batch. destruct (elem_of_series_batch snapshot (rp_after p)) as (rest & _ & Hsort & Helem & _).
  destruct (rollupSeriesBatch snapshot (rp_after p)) as [|i0 ids0] eqn:Ei; [done|]. set (ids := i0 :: ids0) in *. intros ([batch safe] & Eb & E)%ebind_Ok.
  assert (NoDup ids) as Hnd.
  { pose proof (StronglySorted_app_1_l _ _ _ Hsort) as HS. clear -HS. induction HS as [|x l Hs IH Hx]; constructor; [|done]. intros Hin. rewrite Forall_forall in Hx. specialize (Hx x Hin). lia. }
  destruct (readRollupBatch_spec _ _ _ _ _ Hnd Eb) as (B1 & B2 & B3 & B4).
  set (p1 := mkProgress (default 0 (last ids)) (rp_total p + Z.of_nat (length batch)) (rp_safe p && safe && forallb (fun row => lossless (d_Sketch row.2)) batch)) in *.
  assert (exists hourly, r' = set_hourly r hourly /\ p' = p1 /\ (hourly = ru_hourly r \/ current r hour token) /\
    (forall sid d, (sid, d) ∈ batch -> exists blob row, sketch_blob d = Some blob /\ put_row (deltaArgs (Some d) blob) = fine row /\ hourly !! (hour, sid) = Some row) /\
    (forall key, (key.1 <> hour \/ key.2 ∉ batch.*1) -> hourly !! key = ru_hourly r !! key)) as (hourly & -> & -> & Hcur & H1 & H2).
  { destruct (length batch =? 0)%nat eqn:El; z_bool.
    - injection E as <- <-. exists (ru_hourly r). split_and!; [by destruct r|done|by left| |done]. apply Nat.eqb_eq, nil_length_inv in El. subst batch. by intros ?? ?%elem_of_nil.
    - apply ebind_Ok in E as ([] & Ec & E). apply ebind_Ok in E as (t & Et & [= <- <-]). destruct (insert_hourly_spec _ _ _ _ B1 Et) as [I1 I2].
      exists t. split_and!; [done|done|right; by apply check_current|done|done]. }
  exists hourly. split_and!; [done|intros key Hk; apply H2; by left|done|]. intros (P1 & P2 & P3 & P4).
  assert (exists lst, last ids = Some lst /\ lst ∈ ids) as (lst & Hlast & Hlin) by (destruct (last ids) as [lst|] eqn:El; [exists lst; split; [done|]; by apply last_Some_elem_of|by apply last_None in El]).
  assert (forall sid, sid ∈ ids -> rp_after p < sid <= lst) as Hr1.
  { intros sid Hin. split; [apply (Helem sid), elem_of_app; by left|]. apply last_Some in Hlast as [l' El']. rewrite El' in Hsort, Hin.
    apply elem_of_app in Hin as [Hin| ->%list_elem_of_singleton]; [|lia]. rewrite <- app_assoc in Hsort. pose proof (StronglySorted_app_1_elem_of _ _ _ _ _ Hsort Hin ltac:(by left)). lia. }
  assert (forall sid, rp_after p < sid <= lst -> sid ∉ ids -> sf_series snapshot !! sid = None) as Hr2.
  { intros sid [Hlo Hhi] Hn. apply eq_None_not_Some. intros Hs. assert (sid ∈ ids ++ rest) as [?|Hrest]%elem_of_app by (by apply Helem); [done|].
    pose proof (StronglySorted_app_1_elem_of _ _ _ _ _ Hsort Hlin Hrest). lia. }
  assert (forall sid, sid ∈ batch.*1 -> sid ∈ ids) as Hbi by (intros sid ([s d] & -> & Hin)%list_elem_of_fmap; by eapply B2).
  unfold p1. cbn [build_ok rp_after rp_safe ru_hourly ru_file set_hourly]. rewrite Hlast. cbn [default]. unfold id.
  split_and!; [done|done| |].
  - intros sid. specialize (P3 sid). destruct (decide (sid ∈ batch.*1)) as [Hin|Hnin].
    + pose proof (Hr1 _ (Hbi _ Hin)). destruct (Z.leb_spec sid lst); [|lia]. apply list_elem_of_fmap in Hin as ([s d] & -> & Hin). cbn [fst].
      destruct (H1 _ _ Hin) as (blob & row & Hblob & Hput & ->). exists d, blob. split_and!; [by apply B2|done|done].
    + rewrite H2 by (by right). destruct (Z.leb_spec sid (rp_after p)) as [Hle|Hgt].
      * destruct (Z.leb_spec sid lst); [done|]. pose proof (Hr1 _ Hlin). lia.
      * rewrite P3. destruct (Z.leb_spec sid lst) as [Hlt|?]; [|done]. cbn. destruct (decide (sid ∈ ids)) as [Hid|Hid]; [by destruct (B3 _ Hid)|].
        apply no_rows; [done|]. by apply Hr2.
  - intros [[S1 S2]%andb_true_iff S3]%andb_true_iff sid Hle. destruct (Z.leb_spec sid (rp_after p)); [by apply P4|].
    destruct (decide (sid ∈ ids)) as [Hid|Hid].
    + split; [by apply B4|]. intros d Hd. destruct (B3 _ Hid) as [([s d'] & -> & Hin)%list_elem_of_fmap|Hnil]; [|by rewrite Hnil in Hd].
      cbn [fst] in Hd. destruct (B2 _ _ Hin) as [_ Hd']. rewrite Hd in Hd'. injection Hd' as <-. rewrite forallb_forall in S3. apply (S3 (s, d)). by apply list_elem_of_In.
    + assert (series_rows snapshot hour sid = []) as Hnil by (apply no_rows; [done|]; by apply Hr2). split; rewrite Hnil; [constructor|done].
Qed.

(** A build whose series are exhausted has the folds of the whole hour. *)
Lemma exhausted_ok r snapshot hour token p safe : build_ok r hour (PReading snapshot p) -> roll_batch r snapshot hour token p = fine (r, None) ->
  (safe = true -> rp_safe p = true) ->
  (forall sid, rolls (ru_file r) hour sid (ru_hourly r !! (hour, sid))) /\ (safe = true -> forall sid, rolls_safe (ru_file r) hour sid).
Proof.
  intros (P1 & P2 & P3 & P4) E Hsafe. destruct (elem_of_series_batch snapshot (rp_after p)) as (rest & _ & _ & Helem & Hrest). unfold roll_batch in E.
  destruct (rollupSeriesBatch snapshot (rp_after p)) as [|i ids] eqn:Ei.
  2: { apply ebind_Ok in E as ([batch s] & _ & E). destruct (_ =? 0)%nat; [done|]. apply ebind_Ok in E as (_ & _ & E). by apply ebind_Ok in E as (t & _ & E). }
  rewrite (Hrest eq_refl) in Helem. cbn [app] in Helem.
  assert (forall sid, rp_after p < sid -> series_rows snapshot hour sid = []) as Hnil.
  { intros sid Hs. apply no_rows; [done|]. apply eq_None_not_Some. intros Hi. by apply (elem_of_nil sid), Helem. }
  split.
  - intros sid. apply (same_hour_rolls _ _ _ _ _ P1). specialize (P3 sid). destruct (Z.leb_spec sid (rp_after p)); [done|]. rewrite P3. by apply Hnil.
  - intros HT sid. apply (same_hour_safe _ _ _ _ P1). destruct (Z.leb_spec sid (rp_after p)); [by apply P4; [apply Hsafe|]|].
    split; rewrite Hnil by done; [constructor|done].
Qed.

(** Marks change, the file and the rows do not. *)
Lemma marks_keep r bs bs' used used' hours : rsys_ok (mkSys r bs used) ->
  (forall hour h, hours !! hour = Some h -> hourStart hour = hour) ->
  (forall token hour ph, bs' !! token = Some (hour, ph) -> hourStart hour = hour /\ token ∈ used') ->
  (forall hour h, hours !! hour = Some h -> rh_state h = 1 -> rh_build h ∈ used') ->
  (forall token hour ph, ru_owner r = Some (ru_uuid r) -> bs' !! token = Some (hour, ph) -> current (set_hours r hours) hour token ->
     ph = PCleaning \/ bs !! token = Some (hour, ph) /\ current r hour token) ->
  (forall hour h, ru_owner r = Some (ru_uuid r) -> hours !! hour = Some h -> rh_state h = 2 -> ru_hours r !! hour = Some h \/ complete_ok r hour h) ->
  rsys_ok (mkSys (set_hours r hours) bs' used').
Proof.
  intros [K1 K2 K3 K4 K5 K6 K9 K7 K8] H1 H2 H3 H4 H5. cbn [ry_file ry_builds ry_used] in *. constructor; cbn [ry_file ry_builds ry_used ru_uuid ru_file ru_hours ru_owner set_hours]; try done.
  - intros t h ph Hb. by apply (H2 t h ph).
  - intros t [h ph] Hb. by apply (H2 t h ph).
  - intros t h ph Ho Hb Hc. destruct (H4 _ _ _ Ho Hb Hc) as [->|[Hb' Hc']]; [done|]. by apply (K7 t h ph Ho Hb' Hc').
  - intros hr h Ho Hh Hs. destruct (H5 _ _ Ho Hh Hs) as [Hh'|Hc]; [|done]. by apply (K8 hr h Ho Hh' Hs).
Qed.

Lemma discover_hours m fuel : forall after hour, hour ∈ discover_from fuel m after -> hourStart hour = hour.
Proof.
  induction fuel as [|fuel IH]; intros after hour; cbn [discover_from]; [by intros ?%elem_of_nil|]. destruct (filter _ _) as [|k l]; [by intros ?%elem_of_nil|].
  intros [->|Hin]%elem_of_cons; [apply hourStart_bounds|]. destruct (_ <? _); [by apply elem_of_nil in Hin|]. by eapply IH.
Qed.

Lemma discover_keeps r bs used : rsys_ok (mkSys r bs used) -> rsys_ok (mkSys (discoverRollupHours r) bs used).
Proof.
  unfold discoverRollupHours. set (hs := _ ++ _). assert (forall hour, hour ∈ hs -> hourStart hour = hour) as Hhs by (intros hour [?|?]%elem_of_app; by eapply discover_hours).
  clearbody hs. revert r Hhs. induction hs as [|hour hs IH]; intros r Hhs Hok; [done|]. cbn [foldl]. apply IH; [intros; apply Hhs; by right|].
  unfold discover_one. destruct (ru_hours r !! hour) eqn:Eh; [done|].
  assert (forall hr h, <[hour := mkHour 0 "" false]> (ru_hours r) !! hr = Some h -> rh_state h <> 0 -> ru_hours r !! hr = Some h) as Hold.
  { intros hr h. rewrite lookup_insert. case_decide; [|done]. by intros [= <-] ?. }
  apply (marks_keep r bs bs used used _ Hok).
  - intros hr h. rewrite lookup_insert. case_decide as Hd; [intros _; subst hr; apply Hhs; by left|apply (ro_aligned _ Hok)].
  - intros t hr ph Hb. split; [by apply (ro_build_aligned _ Hok t hr ph)|by apply (ro_used _ Hok t (hr, ph))].
  - intros hr h Hh Hs. apply (ro_used_hours _ Hok hr h); [|done]. apply Hold; [done|lia].
  - intros t hr ph _ Hb (h & Hh & Hs & Ht). right. split; [done|]. exists h. split_and!; [|done|done]. apply Hold; [done|lia].
  - intros hr h _ Hh Hs. left. apply Hold; [done|lia].
Qed.

Lemma claim_keeps r bs used hour token r' : rsys_ok (mkSys r bs used) -> token ∉ used -> hourStart hour = hour -> claim r hour token = fine r' ->
  rsys_ok (mkSys r' (<[token := (hour, PCleaning)]> bs) ({[token]} ∪ used)).
Proof.
  intros Hok Hf Ha E. assert (r' = set_hours r (<[hour := mkHour 1 token false]> (ru_hours r))) as ->.
  { unfold claim in E. destruct (ru_hours r !! hour) as [h|]; [|by injection E as <-]. destruct (_ =? 2); [done|by injection E as <-]. }
  apply (marks_keep r bs _ used _ _ Hok).
  - intros hr h. rewrite lookup_insert. case_decide as Hd; [intros _; by subst hr|apply (ro_aligned _ Hok)].
  - intros t hr ph. rewrite lookup_insert. case_decide as Hd; [intros [= <- <-]; split; [done|set_solver]|]. intros Hb.
    split; [by apply (ro_build_aligned _ Hok t hr ph)|]. pose proof (ro_used _ Hok t (hr, ph) Hb). cbn in *. set_solver.
  - intros hr h. rewrite lookup_insert. case_decide as Hd; [intros [= <-] _; set_solver|]. intros Hh Hs. pose proof (ro_used_hours _ Hok hr h Hh Hs). cbn in *. set_solver.
  - intros t hr ph _. rewrite lookup_insert. case_decide as Hd; [intros [= <- <-] _; by left|]. intros Hb (h & Hh & Hs & Ht). right. split; [done|].
    cbn [ru_hours set_hours] in Hh. rewrite lookup_insert in Hh. case_decide as Hd'; [injection Hh as <-; by cbn in Ht|]. exists h. done.
  - intros hr h _. rewrite lookup_insert. case_decide as Hd; [by intros [= <-]|by left].
Qed.

Lemma publish_keeps r bs used hour token snapshot p r' : rsys_ok (mkSys r bs used) -> bs !! token = Some (hour, PReading snapshot p) ->
  roll_batch r snapshot hour token p = fine (r, None) -> publish r hour token p = fine r' -> rsys_ok (mkSys r' (delete token bs) used).
Proof.
  intros Hok Hb Hend E. unfold publish in E. apply ebind_Ok in E as ([] & Ec%check_current & [= <-]).
  set (hours := if rp_total p =? 0 then delete hour (ru_hours r) else <[hour := mkHour 2 token (rp_safe p)]> (ru_hours r)).
  assert (forall hr h, hours !! hr = Some h -> ru_hours r !! hr = Some h \/ hr = hour /\ h = mkHour 2 token (rp_safe p)) as Hh.
  { intros hr h. unfold hours. destruct (_ =? 0); [intros [_ ?]%lookup_delete_Some; by left|]. rewrite lookup_insert. case_decide; [intros [= <-]; by right|by left]. }
  apply (marks_keep r bs _ used used hours Hok).
  - intros hr h [?|[-> _]]%Hh; [by eapply (ro_aligned _ Hok)|]. by apply (ro_build_aligned _ Hok token hour (PReading snapshot p)).
  - intros t hr ph [_ Hb']%lookup_delete_Some. split; [by apply (ro_build_aligned _ Hok t hr ph)|by apply (ro_used _ Hok t (hr, ph))].
  - intros hr h [?|[-> ->]]%Hh Hs; [by apply (ro_used_hours _ Hok hr h)|done].
  - intros t hr ph _ [_ Hb']%lookup_delete_Some (h & Hl & Hs & Ht). right. split; [done|]. cbn [ru_hours set_hours] in Hl. apply Hh in Hl as [Hl|[-> ->]]; [by exists h|done].
  - intros hr h Ho [?|[-> ->]]%Hh Hs; [by left|right]. apply (exhausted_ok r snapshot hour token p (rp_safe p)); [|done|done]. by apply (ro_builds _ Hok token hour).
Qed.

Lemma open_keeps r bs used hourlyExists intact r' : rsys_ok (mkSys r bs used) -> ensureRollupSchema hourlyExists intact r = fine r' -> rsys_ok (mkSys r' bs used).
Proof.
  intros Hok. unfold ensureRollupSchema. destruct (match ru_version r with Some v => _ | None => false end); [done|]. intros [= <-].
  destruct (negb hourlyExists || negb (String.eqb (default "" (ru_owner r)) (ru_uuid r)) || negb intact) eqn:Ei.
  - assert (forall hour h, ((fun _ : RollupHour => mkHour 0 "" false) <$> ru_hours r) !! hour = Some h -> h = mkHour 0 "" false /\ is_Some (ru_hours r !! hour)) as Hz.
    { intros hour h. rewrite lookup_fmap. destruct (ru_hours r !! hour); [|done]. intros [= <-]. by split; [|eexists]. }
    destruct Hok as [K1 K2 K3 K4 K5 K6 K9 K7 K8]. constructor; cbn [ry_file ry_builds ry_used ru_uuid ru_file ru_hours ru_owner]; try done.
    + intros hour h [_ [h' Hh]]%Hz. by eapply K3.
    + by intros hour h [-> _]%Hz.
    + intros key Hk. cbn [ru_hourly] in Hk. destruct hourlyExists; [by apply K9|]. rewrite lookup_empty in Hk. by destruct Hk.
    + intros t hour ph _ _ (h & [-> _]%Hz & Hs & _). done.
    + by intros hour h _ [-> _]%Hz.
  - apply orb_false_iff in Ei as [[Ee%negb_false_iff Eo%negb_false_iff]%orb_false_iff _]. subst hourlyExists. apply String.eqb_eq in Eo.
    assert (ru_owner r = Some (ru_uuid r)) as Hown by (destruct (ru_owner r); cbn in Eo; [by f_equal|]; by destruct (ro_uuid _ Hok)).
    apply (frame_keeps r _ bs used Hok); cbn [ru_uuid ru_owner ru_hourly ru_hours ru_file]; try done. apply Hok.
Qed.

Lemma rstep_keeps s s' : rstep s s' -> rsys_ok s -> rsys_ok s'.
Proof.
  intros Hs Hok. destruct Hs as [r bs used io b f' n E Ho|r bs used io w r' E|r bs used w|r bs used uuid Hu Hne|r bs used he it r' E|r bs used|r bs used hour token r' Hf Ha E
    |r bs used hour token r' n Hb E|r bs used hour token Hb|r bs used hour token snap p r' p' Hb E|r bs used hour token snap p r' Hb E1 E2|r bs used token].
  - apply (frame_keeps r _ bs used Hok); try done. intros hour _ w sid _. unfold commitGroup in E. cbn [ru_file set_file].
    apply ebind_Ok in E as (dict & _ & E). apply ebind_Ok in E as (series & _ & E). apply ebind_Ok in E as ([log k] & _ & E). apply ebind_Ok in E as (bl & _ & E). destruct io; [done|]. by injection E as <- <-.
  - destruct (finalize_writes _ _ _ _ E) as (rows & Hw). by eapply writes_keeps.
  - destruct (purge_writes r w) as (rows & Hw). by eapply writes_keeps.
  - destruct Hok as [K1 K2 K3 K4 K5 K6 K9 K7 K8]. constructor; cbn [ry_file ry_builds ry_used ru_uuid ru_file ru_hours ru_owner]; try done.
    split; intros key; cbn; rewrite lookup_empty; by intros [].
  - by eapply open_keeps.
  - by apply discover_keeps.
  - by eapply claim_keeps.
  - destruct (clean_batch_spec _ _ _ _ _ E) as (Hc & hourly & -> & H1 & H2). eapply (build_keeps r bs used hour token PCleaning); [done|done|done|by right|].
    intros _ _. destruct (n <? rollupBatch) eqn:En; [|done]. intros sid. by apply H2.
  - enough (rsys_ok (mkSys (set_hourly r (ru_hourly r)) (<[token := (hour, PReading (ru_file r) (mkProgress 0 0 true))]> bs) used)) as HG by (by destruct r).
    eapply (build_keeps r bs used hour token PReady); [done|done|done|by left|].
    intros Ho Hc. pose proof (ro_builds _ Hok token hour PReady Ho Hb Hc) as HR. cbn in HR. cbn [build_ok rp_after rp_safe ru_file ru_hourly set_hourly]. split_and!; [done|apply (ro_owned _ Hok)| |].
    + intros sid. rewrite HR. destruct (Z.leb_spec sid 0); [|done]. apply no_rows_low; [apply (ro_owned _ Hok)|done].
    + intros _ sid Hle. assert (series_rows (ru_file r) hour sid = []) as Hnil by (apply no_rows_low; [apply (ro_owned _ Hok)|done]). split; rewrite Hnil; [constructor|done].
  - destruct (roll_batch_ok _ _ _ _ _ _ _ E) as (hourly & -> & H1 & Hc & H2). eapply (build_keeps r bs used hour token (PReading snap p)); [done|done|done|done|].
    intros Ho Hcur. apply H2. by apply (ro_builds _ Hok token hour).
  - by eapply publish_keeps.
  - replace r with (set_hours r (ru_hours r)) by (by destruct r). apply (marks_keep r bs _ used used _ Hok); [apply (ro_aligned _ Hok)| |apply (ro_used_hours _ Hok)| |by left].
    + intros t hr ph [_ Hb]%lookup_delete_Some. split; [by apply (ro_build_aligned _ Hok t hr ph)|by apply (ro_used _ Hok t (hr, ph))].
    + intros t hr ph _ [_ Hb]%lookup_delete_Some (h & Hh & Hst). right. split; [done|]. by exists h.
Qed.

Lemma rreach_keeps s0 s : rreach s0 s -> rsys_ok s0 -> rsys_ok s.
Proof. intros Hr H0. induction Hr as [|s s' Hr IH Hs]; [done|by eapply rstep_keeps]. Qed.

(** C10: a complete hour is exactly its buckets.  Whatever the interleaving of
    group commits, finalizations, retention, rebuilds of the store, openings,
    discovery and any number of builds that stop anywhere: while the derived
    tables are the store's own, the hourly row of every series of an hour
    marked complete is the encoding of the fold of the bucket rows that are in
    the file now (no row when there are none), and an hour is marked safe only
    if no source and no fold lost precision.  A writer that changes an hour in
    the middle of its build, or after it, takes the mark away. *)
Theorem complete_hours_exact (s0 s : rsys) : rsys_ok s0 -> rreach s0 s ->
  ru_owner (ry_file s) = Some (ru_uuid (ry_file s)) ->
  forall hour h, ru_hours (ry_file s) !! hour = Some h -> rh_state h = 2 ->
  (forall sid, rolls (ru_file (ry_file s)) hour sid (ru_hourly (ry_file s) !! (hour, sid))) /\
  (rh_safe h = true -> forall sid, rolls_safe (ru_file (ry_file s)) hour sid).
Proof.
  intros H0 Hr Ho hour h Hh Hst. pose proof (rreach_keeps s0 s Hr H0) as Hok. by apply (ro_complete s Hok hour h).
Qed.

End Builds.

(** ** A build from start to end *)

Definition ok_or {A} (d : A) (m : exec A) : A := match m with Some (Ok a) => a | _ => d end.

Definition demo_points (n : Z) : AggregateDelta := set_counts zero_delta (mkCounts n 0 n 0).
Definition demo_row (n : Z) : list sql_value := ok_or [] (put_row (deltaArgs (Some (demo_points n)) [])).
Definition demo_span_key : SeriesKey := mkSeriesKey 1 2 3 0 SignalTraceOp 0 0 0 0.

(** Two windows of one hour finalized, one of the next hour still in the log. *)
Definition demo_store : StoreFile :=
  mkFile {[1 := mkDictEntry 1 0 KindTenant "acme"; 2 := mkDictEntry 2 1 KindService "api"; 3 := mkDictEntry 3 1 KindOperation "GET /"]} {[7 := seriesArgs demo_span_key]}
    {[(7200, 7) := demo_row 4]} {[(3600, 7) := demo_row 2; (3900, 7) := demo_row 3]} ∅ ∅ 4 8.

Definition demo_rollup : RollupFile := mkRollup demo_store "u" (Some "1") (Some "u") {[3600 := mkHour 0 "" false]} ∅.
Definition demo_claimed : RollupFile := ok_or demo_rollup (claim demo_rollup 3600 "t").
Definition demo_progress : rollup_progress := mkProgress 7 1 true.
Definition demo_batched : RollupFile := match roll_batch demo_claimed demo_store 3600 "t" (mkProgress 0 0 true) with Some (Ok (r, _)) => r | _ => demo_claimed end.
Definition demo_published : RollupFile := ok_or demo_batched (publish demo_batched 3600 "t" demo_progress).

Lemma demo_owned : owned demo_store.
Proof.
  split; intros key [row Hk].
  - assert (map_Forall (fun key (_ : list sql_value) => is_Some (sf_series demo_store !! key.2) /\ 0 < key.2) (sf_log demo_store)) as HF by (apply (bool_decide_unpack _); vm_compute; exact I). by apply (HF key row).
  - assert (map_Forall (fun key (_ : list sql_value) => is_Some (sf_series demo_store !! key.2) /\ 0 < key.2) (sf_buckets demo_store)) as HF by (apply (bool_decide_unpack _); vm_compute; exact I). by apply (HF key row).
Qed.

Lemma demo_hours hour h : ru_hours demo_rollup !! hour = Some h -> hour = 3600 /\ h = mkHour 0 "" false.
Proof. cbn [ru_hours demo_rollup]. by intros [<- <-]%lookup_singleton_Some. Qed.

Lemma demo_sys_ok : rsys_ok (mkSys demo_rollup ∅ ∅).
Proof.
  constructor.
  - discriminate.
  - apply demo_owned.
  - intros hour h [-> _]%demo_hours. reflexivity.
  - intros token hour ph Hb. discriminate Hb.
  - intros token b Hb. discriminate Hb.
  - intros hour h [_ ->]%demo_hours Hs. discriminate.
  - intros key [row Hk]. discriminate Hk.
  - intros token hour ph _ Hb. discriminate Hb.
  - intros hour h _ [_ ->]%demo_hours Hs. discriminate.
Qed.

Lemma demo_reach : rreach (mkSys demo_rollup ∅ ∅) (mkSys demo_published (delete "t" (<["t" := (3600, PReading demo_store demo_progress)]> (<["t" := (3600, PReading demo_store (mkProgress 0 0 true))]> (<["t" := (3600, PReady)]> (<["t" := (3600, PCleaning)]> ∅))))) ({["t"]} ∪ ∅)).
Proof.
  eapply rr_step; [|apply (rs_publish demo_batched _ _ 3600 "t" demo_store demo_progress); [apply lookup_insert_eq|vm_compute; reflexivity|vm_compute; reflexivity]].
  eapply rr_step; [|apply (rs_batch demo_claimed _ _ 3600 "t" demo_store (mkProgress 0 0 true)); [apply lookup_insert_eq|vm_compute; reflexivity]].
  eapply rr_step; [|apply (rs_snapshot demo_claimed _ _ 3600 "t"); apply lookup_insert_eq].
  eapply rr_step; [|apply (rs_clean demo_claimed _ _ 3600 "t" demo_claimed 0); [apply lookup_insert_eq|vm_compute; reflexivity]].
  eapply rr_step; [constructor|]. apply rs_claim; [set_solver|done|vm_compute; reflexivity].
Qed.

Lemma complete_hours_exact_witness :
  ru_hourly demo_published !! (3600, 7) = Some (demo_row 5) /\ rolls demo_store 3600 7 (Some (demo_row 5)).
Proof.
  assert (ru_hourly demo_published !! (3600, 7) = Some (demo_row 5)) as E by (vm_compute; reflexivity). split; [exact E|]. rewrite <- E.
  apply (complete_hours_exact _ _ demo_sys_ok demo_reach eq_refl 3600 (mkHour 2 "t" true) eq_refl eq_refl).
Defined.
