(* ===== verification/ServiceSummary.v ===== *)
(** * ServiceSummary: totals by service of complete hours ([internal/aggregate/service_summary.go])

    On top of the hourly rows the worker keeps, per hour, tenant and service,
    one cell per window of the trace points, one cell per hour of the trace
    points, the logs and each edge, and the merged sketch of the hour in up to
    two parts.  A read uses them when their source is still the published
    rollup, and adds what is in the log of deltas; sums of durations only when
    any order of addition is exact. *)
From stdpp Require Import sorting strings.
From S2P Require Import Prelude Float64 SeriesKey Dict Registrar Identity Gc.
From S2P Require Import Sketch SketchCodec Histogram Delta Limiter Baseline Engine StoreRows StoreTables StoreReads Rollup.
#[local] Open Scope Z_scope.

(** ** Sketches in two parts *)

(** The populated bins, [s.bins[:span+1]]. *)
Definition summary_bins (s : Sketch) : list Z := if sk_hasBins s then take (Z.to_nat (sk_maxIdx s - sk_minIdx s + 1)) (sk_bins s) else [].

(* internal/aggregate/service_summary.go:15-30 summarySketchSafe *)
Definition summarySketchSafe (s : option Sketch) : bool :=
  match s with
  | None => false
  | Some s =>
      if negb (sk_scale s =? SketchDefaultScale) || sk_collapsed s || negb (sk_saturations s =? 0) || f_is_nan (sk_sum s) || f_is_inf (sk_sum s) then false
      else
        let span := sk_maxIdx s - sk_minIdx s in
        if sk_hasBins s && ((span <? 0) || (SketchMaxBins <=? span) || (sk_maxIdx s =? 2 ^ 31 - 1)) then false
        else
          let bins := foldl (fun acc n => u64 (acc + n)) 0 (summary_bins s) in
          (bins =? sk_binTotal s) && (sk_zeroCount s <=? sk_count s) && (u64 (sk_count s - sk_zeroCount s) =? bins)
  end.

(** The populated bins in order, with their indices. *)
Definition populated (s : Sketch) : list (Z * Z) :=
  filter (fun p => p.2 <> 0) (imap (fun offset n => (i32 (sk_minIdx s + Z.of_nat offset), n)) (summary_bins s)).

Definition add_bins (s : Sketch) (l : list (Z * Z)) : option Sketch := opt_foldl (fun s p => add s p.1 p.2) s l.

Definition set_count (s : Sketch) : Sketch := set_totals s (sk_sum s) (u64 (sk_zeroCount s + sk_binTotal s)) (sk_zeroCount s) (sk_saturations s).

(* internal/aggregate/service_summary.go:35-61 encodeSummarySketch *)
Definition encodeSummarySketch (s : option Sketch) : option (option bytes * option bytes * bool) :=
  match s with
  | None => Some (None, None, true)
  | Some s =>
      if negb (summarySketchSafe (Some s)) then Some (None, None, false)
      else
        let limit := Z.to_nat SketchMaxSerializedBins in
        p0 ← add_bins (set_totals NewSketch (sk_sum s) 0 (sk_zeroCount s) 0) (take limit (populated s));
        p1 ← add_bins NewSketch (drop limit (populated s));
        low ← Encode (set_count p0);
        if SketchMaxSerializedBins <? Z.of_nat (length (populated s))
        then high ← Encode (set_count p1); Some (Some low, Some high, true)
        else Some (Some low, None, true)
  end.

Definition corrupt {A} : exec A := oops (ErrDecode ErrSketchCorrupt).

Definition decode_part (data : bytes) : exec Sketch :=
  match DecodeSketch data with Some (Ok s) => fine s | Some (Err e) => oops (ErrDecode e) | None => None end.

Definition MaxUint64 : Z := 2 ^ 64 - 1.

(** What is refused of a second part. *)
Definition high_refused (s h : Sketch) : bool :=
  negb (summarySketchSafe (Some h)) || negb (sk_hasBins s) || negb (sk_hasBins h) || (sk_minIdx h <=? sk_maxIdx s) ||
  (SketchMaxBins <=? sk_maxIdx h - sk_minIdx s) || negb (sk_zeroCount h =? 0) || negb (feq (sk_sum h) f_zero) || (MaxUint64 - sk_count s <? sk_count h).

(* internal/aggregate/service_summary.go:63-93 decodeSummarySketch *)
Definition decodeSummarySketch (low high : option bytes) : exec (option Sketch) :=
  match low with
  | None => match high with Some _ => corrupt | None => fine None end
  | Some low =>
      let! s := decode_part low in
      if negb (summarySketchSafe (Some s)) then corrupt
      else
        match high with
        | None => fine (Some s)
        | Some high =>
            let! h := decode_part high in
            if high_refused s h then corrupt
            else
              let! m := lift (Merge s (Some h)) in
              let m := set_totals m (sk_sum s) (sk_count m) (sk_zeroCount m) (sk_saturations m) in
              if negb (summarySketchSafe (Some m)) then corrupt else fine (Some m)
        end
  end.

(** ** Exact sums *)

(* internal/aggregate/service_summary.go:146-149 summarySumLimit *)
Definition summarySumLimit : Z := 2 ^ 52.
(* internal/aggregate/service_summary.go:141-144 summaryArithmeticFallback *)
Definition summaryArithmeticFallback : Z := 4.

(** A value that is an integer between 0 and [summarySumLimit]. *)
Definition exact_value (value : f64) : bool :=
  fle f_zero value && fle value (f_of_Z summarySumLimit) && feq (f_of_Z (f_trunc value)) value.

(** The total after the value, if it may be added. *)
(* internal/aggregate/service_summary.go:151-161 summaryExactSum *)
Definition summaryExactSum (total : Z) (value : f64) : option Z :=
  if negb (exact_value value) then None
  else
    let n := f_trunc value in
    if u64 (summarySumLimit - total) <? n then None else Some (u64 (total + n)).

(** ** The tables *)

(** States: 0 void, 1 building, 2 complete, 3 cleaning, 4 complete but for sums. *)
Record SummaryHour := mkSummaryHour { mh_state : Z; mh_build : string; mh_source : string }.

#[global] Instance SummaryHour_eq_dec : EqDecision SummaryHour.
Proof. solve_decision. Defined.

(* internal/aggregate/service_summary.go:133-133 summaryKeyColumns *)
Record summary_key := mkSummaryKey { ck_hour : Z; ck_resolution : Z; ck_tenant : Z; ck_signal : Z; ck_service : Z; ck_name : Z; ck_window : Z }.

#[global] Instance summary_key_eq_dec : EqDecision summary_key.
Proof. solve_decision. Defined.
#[global] Instance summary_key_countable : Countable summary_key.
Proof.
  apply (inj_countable' (fun k => (ck_hour k, ck_resolution k, ck_tenant k, ck_signal k, ck_service k, ck_name k, ck_window k))
    (fun '(h, r, t, sg, sv, n, w) => mkSummaryKey h r t sg sv n w)). by intros [].
Defined.

(** The seven counts (points, errors, requests, failed requests, durations,
    logs, points of an overflow identity) and the sum of durations. *)
(* internal/aggregate/service_summary.go:220-224 summaryScalar *)
Record summaryScalar := mkScalar { sc_counts : list Z; sc_sum : f64; sc_present : bool }.

Definition no_scalar : summaryScalar := mkScalar (replicate 7 0) f_zero false.

(** A row of [aggregate_service_summary] *)
(* internal/aggregate/service_summary.go:248-253 summaryCell *)
Record summary_row := mkSummaryRow { sr_scalar : sum_values; sr_sketchState : Z; sr_low : option bytes; sr_high : option bytes }.

(* internal/aggregate/service_summary.go:180-184 aggregate_service_summary *)
Record SummaryFile := mkSummary {
  su_rollup : RollupFile;
  su_version : option string;
  su_owner : option string;
  su_hours : gmap Z SummaryHour;
  su_cells : gmap summary_key summary_row;
}.

Definition su_file (m : SummaryFile) : StoreFile := ru_file (su_rollup m).
Definition set_su_hours (m : SummaryFile) h : SummaryFile := mkSummary (su_rollup m) (su_version m) (su_owner m) h (su_cells m).
Definition set_su_cells (m : SummaryFile) c : SummaryFile := mkSummary (su_rollup m) (su_version m) (su_owner m) (su_hours m) c.

(** [exists]: the table of cells was there. *)
(* internal/aggregate/service_summary.go:163-214 SQLiteStore.ensureServiceSummarySchema *)
Definition ensureServiceSummarySchema (existed : bool) (m : SummaryFile) : exec SummaryFile :=
  if match su_version m with Some v => negb (String.eqb v "1") | None => false end then oops ErrVersion
  else
    let void := negb existed || negb (String.eqb (default "" (su_owner m)) (ru_uuid (su_rollup m))) in
    fine (mkSummary (su_rollup m) (Some "1") (Some (ru_uuid (su_rollup m)))
      (if void then (fun _ => mkSummaryHour 0 "" "") <$> su_hours m else su_hours m) (if existed then su_cells m else ∅)).

(** [summaryCurrentSQL]: the source is the published rollup and both extensions are this store's. *)
(* internal/aggregate/service_summary.go:135-137 summaryCurrentSQL *)
Definition summary_current (m : SummaryFile) (hour : Z) (h : SummaryHour) : bool :=
  match ru_hours (su_rollup m) !! hour with
  | Some r => (rh_state r =? 2) && String.eqb (mh_source h) (rh_build r)
  | None => false
  end && bool_decide (su_owner m = Some (ru_uuid (su_rollup m))) && bool_decide (ru_owner (su_rollup m) = Some (ru_uuid (su_rollup m))).

(* internal/aggregate/service_summary.go:138-139 summaryReadySQL *)
Definition ready_state (counts_only : bool) (state : Z) : bool := (state =? 2) || counts_only && (state =? summaryArithmeticFallback).

(* internal/aggregate/service_summary.go:839-847 summaryEligible *)
Definition summaryEligible (m : SummaryFile) (hour : Z) (counts_only : bool) : bool :=
  match su_hours m !! hour with Some h => ready_state counts_only (mh_state h) && summary_current m hour h | None => false end.

(** ** Reading sums *)

(* internal/aggregate/service_summary.go:794-799 summarySignals *)
Definition summarySignals (s : Selector) : list Z := if negb (sel_Signal s =? SignalUnspecified) then [sel_Signal s] else sel_Signals s.

(** 0 when a selection cannot be answered from cells. *)
(* internal/aggregate/service_summary.go:800-834 summaryResolution *)
Definition summaryResolution (s : Selector) (by_ : Z) : Z :=
  let known := Z.lor GroupByWindow (Z.lor GroupByService (Z.lor GroupByName GroupBySignal)) in
  if (0 <? length (sel_SeriesIDs s))%nat || sel_SketchOnly s || negb (cursor_zero (sel_After s)) || negb (Z.ldiff by_ known =? 0) then 0
  else
    let signals := summarySignals s in
    if (length signals =? 0)%nat then 0
    else
      let only signal := forallb (fun s => s =? signal) signals in
      if by_has by_ GroupByWindow then (if negb (by_has by_ GroupByName) && only SignalTraceOp then windowSec else 0)
      else if only SignalServiceEdge then rollupHour
      else if by_has by_ GroupByName then 0
      else if forallb (fun s => (s =? SignalTraceOp) || (s =? SignalLog)) signals then rollupHour else 0.

Section Sums.
Context `{SqlSum}.

(** Each row of the log that the selector names is an integer in range, and so
    is their sum. *)
(* internal/aggregate/service_summary.go:962-983 summaryDeltaSumSafe *)
Definition summaryDeltaSumSafe (f : StoreFile) (s : Selector) : bool :=
  let sums := (fun p => col_real p.2 3) <$> filter (fun p => (sel_Start s <=? p.1.1) && (p.1.1 <? sel_End s) &&
    match sf_series f !! p.1.2 with Some args => appendSeriesFilter s args | None => false end = true) (map_to_list (sf_log f)) in
  forallb exact_value sums && fle (match sums with [] => f_zero | _ => sum_real sums end) (f_of_Z summarySumLimit).

(** A cell passes the filters of a series row: tenant, signal and service. *)
Definition cell_selected (s : Selector) (resolution : Z) (k : summary_key) : bool :=
  (ck_hour k =? hourStart (sel_Start s)) && (ck_resolution k =? resolution) &&
  appendSeriesFilter s [ck_tenant k; ck_service k; ck_name k; 0; ck_signal k] && (sel_Start s <=? ck_window k) && (ck_window k <? sel_End s).

Definition cell_group_of (by_ : Z) (k : summary_key) : group_key := group_of by_ (ck_window k) [ck_tenant k; ck_service k; ck_name k; 0; ck_signal k].

(** A sum of durations that is not asked for reads 0. *)
Definition mask (trafficOnly : bool) (v : sum_values) : sum_values := if trafficOnly then mkSumValues (sv_ints v) f_zero else v.

(** The cells and the log of deltas, and the sums of their groups. *)
(* internal/aggregate/service_summary.go:858-960 summarySumQueryFor *)
Definition summarySumQueryFor (m : SummaryFile) (s : Selector) (by_ resolution : Z) (trafficOnly : bool) : exec (list (group_key * sum_values)) :=
  let f := su_file m in
  let cells := (fun p => (cell_group_of by_ p.1, mask trafficOnly (sr_scalar p.2))) <$> filter (fun p => cell_selected s resolution p.1 = true) (map_to_list (su_cells m)) in
  let! cells := sum_groups 7 cells in
  let rows := (fun p => (p.1, mask trafficOnly (row_values p.2))) <$> selected f s (sf_log f) in
  let! rows :=
    if negb (by_ =? 0) && negb (by_has by_ GroupByWindow) then sum_groups 6 ((fun p => ((0, p.1.2), p.2)) <$> rows) else fine rows in
  let! deltas := sum_groups 7 (omap (keyed f by_) rows) in
  let! sums := if by_ =? 0 then let! v := add_up 7 (snd <$> cells ++ deltas) in fine [((0, 0, 0, 0), v)] else sum_groups 7 (cells ++ deltas) in
  fine ((fun p => (p.1, mask trafficOnly p.2)) <$> sums).

(** [None] when the cells cannot answer. *)
(* internal/aggregate/service_summary.go:989-1013 readSummaryProjection *)
Definition readSummaryProjection (m : SummaryFile) (s : Selector) (by_ : Z) (trafficOnly : bool) : exec (option (list SumRow)) :=
  if trafficOnly && negb (by_ =? GroupByWindow) && negb (by_ =? Z.lor GroupByWindow GroupByService) then fine None
  else
    let resolution := summaryResolution s by_ in
    if (resolution =? 0) || (resolution =? rollupHour) && (negb (sel_Start s =? hourStart (sel_Start s)) || negb (sel_End s - sel_Start s =? rollupHour)) then fine None
    else if negb (summaryEligible m (hourStart (sel_Start s)) trafficOnly) then fine None
    else if negb trafficOnly && negb (summaryDeltaSumSafe (su_file m) s) then fine None
    else let! rows := readSumQuery (summarySumQueryFor m s by_ resolution trafficOnly) in fine (Some rows).

(* internal/aggregate/service_summary.go:985-987 readSummarySums *)
Definition readSummarySums (m : SummaryFile) (s : Selector) (by_ : Z) : exec (option (list SumRow)) := readSummaryProjection m s by_ false.

(** Cells when they can answer, or else the tables. *)
Definition sums_of (m : SummaryFile) (s : Selector) (by_ : Z) (trafficOnly : bool) : exec (list SumRow) :=
  let! part := readSummaryProjection m s by_ trafficOnly in
  match part with Some rows => fine rows | None => readSumBuckets (su_file m) (ru_hourly (su_rollup m)) s by_ false end.

End Sums.
