(* ===== verification/RollupReads.v ===== *)
(** * RollupReads: one snapshot, several sources ([store_sqlite.go], [rollup.go], [service_summary.go])

    How a read of the store chooses, hour by hour, between the cells of a
    service summary, the hourly rows and the authoritative tables; sums and
    sketches. *)
From stdpp Require Import sorting strings.
From S2P Require Import Prelude Float64 SeriesKey Dict Registrar Identity Gc TopoIdentity.
From S2P Require Import Sketch SketchCodec Histogram Delta Limiter Baseline Engine Topology TopologySnapshot.
From S2P Require Import StoreRows StoreTables StoreReads Query Rollup ServiceSummary.
#[local] Open Scope Z_scope.

(** ** Ranges *)

Record interval := mkInterval { iv_lo : Z; iv_hi : Z; iv_rolled : bool }.

(** The hours from [h] on that start before the end. *)
Fixpoint hours_from (fuel : nat) (h end_ : Z) : list Z :=
  match fuel with
  | O => []
  | S fuel => h :: if h + rollupHour <? end_ then hours_from fuel (h + rollupHour) end_ else []
  end.

(** Enough for every hour of the range. *)
Definition hours_of (lo hi : Z) : list Z := hours_from (S (Z.to_nat ((hi - lo) / rollupHour + 1))) (hourStart lo) hi.

(** Whether a complete hour inside the range is this store's. *)
Definition hour_rolled (r : RollupFile) (s : Selector) (sketches : bool) (h : Z) : bool :=
  match ru_hours r !! h with
  | Some m => (rh_state m =? 2) && (negb sketches || rh_safe m)
  | None => false
  end && (sel_Start s <=? h) && (h + rollupHour <=? sel_End s) && bool_decide (ru_owner r = Some (ru_uuid r)).

(* internal/aggregate/rollup.go:447-460 appendRollupRanges *)
Definition rollup_ranges (r : RollupFile) (s : Selector) (sketches : bool) : list interval :=
  (fun h => mkInterval (Z.max h (sel_Start s)) (Z.min (h + rollupHour) (sel_End s)) (hour_rolled r s sketches h)) <$> hours_of (sel_Start s) (sel_End s).

(** Neighbours that are not rolled up are read as one. *)
Definition join_interval (ranges : list interval) (r : interval) : list interval :=
  match last ranges with
  | Some p => if negb (iv_rolled r) && negb (iv_rolled p) then removelast ranges ++ [mkInterval (iv_lo p) (iv_hi r) false] else ranges ++ [r]
  | None => ranges ++ [r]
  end.

Section Sums.
Context `{SqlSum}.

(** The rows of one range. *)
Definition range_sums (m : SummaryFile) (s : Selector) (by_ : Z) (r : interval) : exec (list SumRow) :=
  let chunk := set_range s (iv_lo r) (iv_hi r) in
  let! part := if iv_rolled r then readSummarySums m chunk by_ else fine None in
  match part with
  | Some rows => fine rows
  | None => readSumBuckets (su_file m) (ru_hourly (su_rollup m)) chunk by_ (iv_rolled r)
  end.

(* internal/aggregate/rollup.go:502-553 sumRollupSnapshot *)
Definition sumRollupSnapshot (m : SummaryFile) (s : Selector) (by_ : Z) : exec (list SumRow) :=
  let ranges := foldl join_interval [] (rollup_ranges (su_rollup m) s false) in
  let! out := exec_foldl (fun acc r => let! part := range_sums m s by_ r in fine (foldl mergeSumRow acc part)) ([], ∅) ranges in
  fine out.1.

(** Hour by hour; [Compare before adding]. *)
Fixpoint window_chunks (fuel : nat) (s : Selector) (start : Z) : list Selector :=
  match fuel with
  | O => []
  | S fuel =>
      if start <? sel_End s then
        let end_ := if rollupHour <? sel_End s - hourStart start then hourStart start + rollupHour else sel_End s in
        set_range s start end_ :: window_chunks fuel s end_
      else []
  end.

Definition chunks_of (s : Selector) : list Selector := window_chunks (S (Z.to_nat ((sel_End s - sel_Start s) / rollupHour + 2))) s (sel_Start s).

(* internal/aggregate/store_sqlite.go:1582-1608 sumWindowSnapshotFor *)
Definition sumWindowSnapshotFor (m : SummaryFile) (s : Selector) (by_ : Z) (trafficOnly : bool) : exec (list SumRow) :=
  exec_foldl (fun out chunk => let! part := sums_of m chunk by_ trafficOnly in fine (out ++ part)) [] (chunks_of s).

(* internal/aggregate/store_sqlite.go:1576-1578 sumWindowSnapshot *)
Definition sumWindowSnapshot (m : SummaryFile) (s : Selector) (by_ : Z) : exec (list SumRow) := sumWindowSnapshotFor m s by_ false.

(* internal/aggregate/store_sqlite.go:1555-1569 sumSQLiteSnapshot *)
Definition sumSQLiteSnapshot (m : SummaryFile) (s : Selector) (by_ : Z) : exec (list SumRow) :=
  let! _ := Validate s in
  if sel_SketchOnly s then readSumBuckets (su_file m) (ru_hourly (su_rollup m)) s by_ false
  else if by_has by_ GroupByWindow then sumWindowSnapshot m s by_
  else sumRollupSnapshot m s by_.

(* internal/aggregate/store_sqlite.go:1544-1554 SQLiteStore.SumBuckets *)
Definition SumBuckets (m : SummaryFile) (s : Selector) (by_ : Z) : exec (list SumRow) :=
  let! _ := Validate s in sumSQLiteSnapshot m s by_.

End Sums.

(** ** Sketches *)

(** A row of the statement: the service of its series and the blob. *)
Definition sketch_row (f : StoreFile) (p : (Z * Z) * list sql_value) : option (Z * bytes) :=
  args ← sf_series f !! p.1.2;
  match p.2 !! 17%nat with Some (VBlob b) => Some (series_col args 1, b) | _ => None end.

(** The selected rows of a table that have a sketch. *)
Definition sketch_rows (f : StoreFile) (s : Selector) (table : gmap (Z * Z) (list sql_value)) : list (Z * bytes) :=
  omap (sketch_row f) (selected f s table).

(** The selected rows of a table in the ranges that are, or are not, rolled up. *)
Definition ranged_rows (f : StoreFile) (s : Selector) (ranges : list interval) (rolled : bool) (table : gmap (Z * Z) (list sql_value)) : list (Z * bytes) :=
  r ← filter (fun r => iv_rolled r = rolled) ranges; sketch_rows f (set_range s (iv_lo r) (iv_hi r)) table.

(* internal/aggregate/rollup.go:475-496 appendRollupSketchUnion *)
Definition sketch_union (r : RollupFile) (s : Selector) (rolled : bool) : list (Z * bytes) :=
  let f := ru_file r in
  if rolled then
    let ranges := rollup_ranges r s true in
    ranged_rows f s ranges false (sf_buckets f) ++ ranged_rows f s ranges true (ru_hourly r) ++ sketch_rows f s (sf_log f)
  else sketch_rows f s (sf_buckets f) ++ sketch_rows f s (sf_log f).

(** The sketches collected so far, and the order of their services. *)
Definition collected : Type := gmap Z Sketch * list Z.

Definition collect_into (c : collected) (sid : Z) (s : Sketch) : option collected :=
  m ← Merge (default NewSketch (c.1 !! sid)) (Some s);
  Some (<[sid := m]> c.1, if c.1 !! sid then c.2 else c.2 ++ [sid]).

Definition deliver (c : collected) : list (Z * Sketch) := omap (fun sid => s ← c.1 !! sid; Some (sid, s)) c.2.

(** The candidate rows: [None] once one of them, or their merge, is unsafe. *)
Definition probe_one (st : option (Sketch * collected)) (row : Z * bytes) : exec (option (Sketch * collected)) :=
  match st with
  | None => fine None
  | Some (probe, c) =>
      let! s := decode_part row.2 in
      if negb (sk_scale s =? SketchDefaultScale) || sk_collapsed s || negb (sk_saturations s =? 0) then fine None
      else
        let! probe := lift (Merge probe (Some s)) in
        if sk_collapsed probe || negb (sk_saturations probe =? 0) then fine None
        else let! c := lift (collect_into c (u32 row.1) s) in fine (Some (probe, c))
  end.

Definition decode_row (out : list (Z * Sketch)) (row : Z * bytes) : exec (list (Z * Sketch)) :=
  let! s := decode_part row.2 in fine (out ++ [(u32 row.1, s)]).

(** What is visited, in order. *)
(* internal/aggregate/store_sqlite.go:1680-1791 visitSQLiteSketches *)
Definition visitSQLiteSketches (r : RollupFile) (s : Selector) : exec (list (Z * Sketch)) :=
  let! _ := Validate s in
  let! probed := exec_foldl probe_one (Some (NewSketch, (∅, []))) (sketch_union r s true) in
  match probed with
  | Some (_, c) => fine (deliver c)
  | None => exec_foldl decode_row [] (sketch_union r s false)
  end.

(** [errUnsafe]: the whole read falls back to the tables. *)
(** The closure [collect]. *)
Definition collect_safe (st : option (Sketch * collected)) (sid : Z) (s : Sketch) : exec (option (Sketch * collected)) :=
  match st with
  | None => fine None
  | Some (probe, c) =>
      if negb (summarySketchSafe (Some s)) || (MaxUint64 - sk_count probe <? sk_count s) then fine None
      else
        let! probe := lift (Merge probe (Some s)) in
        if negb (summarySketchSafe (Some probe)) then fine None
        else let! c := lift (collect_into c sid s) in fine (Some (probe, c))
  end.

(** One row of the hour: a cell with its state and parts, or a delta. *)
Definition summary_sketch (st : option (Sketch * collected)) (row : Z * Z * option bytes * option bytes * bool) : exec (option (Sketch * collected)) :=
  match st with
  | None => fine None
  | Some _ =>
      let '(sid, state, low, high, delta) := row in
      if state =? 2 then fine None
      else if state =? 0 then match low, high with None, None => fine st | _, _ => corrupt end
      else if negb (state =? 1) then corrupt
      else
        let! s :=
          if (delta : bool) then (match low with Some b => let! s := decode_part b in fine (Some s) | None => oops (ErrDecode ErrSketchTruncated) end)
          else match low with None => corrupt | Some _ => decodeSummarySketch low high end in
        match s with Some s => collect_safe st (u32 sid) s | None => fine st end
  end.

(* internal/aggregate/service_summary.go:1103-1172 readSummarySketchHour *)
Definition readSummarySketchHour (m : SummaryFile) (s : Selector) (st : option (Sketch * collected)) : exec (option (Sketch * collected)) :=
  let cells := (fun p => (ck_service p.1, sr_sketchState p.2, sr_low p.2, sr_high p.2, false)) <$>
    filter (fun p => (ck_hour p.1 =? sel_Start s) && (ck_resolution p.1 =? rollupHour) && (ck_tenant p.1 =? sel_TenantID s) && (ck_signal p.1 =? SignalTraceOp) &&
      (if (0 <? length (sel_ServiceIDs s))%nat then bool_decide (ck_service p.1 ∈ sel_ServiceIDs s) else true) = true) (map_to_list (su_cells m)) in
  let deltas := (fun p => (p.1, 1, Some p.2, None, true)) <$> sketch_rows (su_file m) (set_signals (set_signal s SignalTraceOp) []) (sf_log (su_file m)) in
  exec_foldl summary_sketch st (cells ++ deltas).

(** The hours of the range: whether a summary of the hour is complete. *)
Definition sketch_intervals (m : SummaryFile) (s : Selector) : list interval :=
  (fun c => mkInterval (sel_Start c) (sel_End c)
    ((sel_Start c =? hourStart (sel_Start c)) && (sel_End c - sel_Start c =? rollupHour) && summaryEligible m (sel_Start c) true)) <$> chunks_of s.

(** A range without a summary: its rows through the same closure. *)
Definition range_sketches (m : SummaryFile) (s : Selector) (st : option (Sketch * collected)) (r : interval) : exec (option (Sketch * collected)) :=
  let chunk := set_range s (iv_lo r) (iv_hi r) in
  match st with
  | None => fine None
  | Some _ =>
      if iv_rolled r then readSummarySketchHour m chunk st
      else let! rows := visitSQLiteSketches (su_rollup m) chunk in exec_foldl (fun st p => collect_safe st p.1 p.2) st rows
  end.

(* internal/aggregate/service_summary.go:1015-1102 visitServiceSummarySketches *)
Definition visitServiceSummarySketches (m : SummaryFile) (s : Selector) : exec (list (Z * Sketch)) :=
  let! _ := Validate s in
  if (0 <? length (sel_SeriesIDs s))%nat || negb (cursor_zero (sel_After s)) || negb (bool_decide (summarySignals s = [SignalTraceOp]))
  then visitSQLiteSketches (su_rollup m) s
  else
    let ranges := foldl join_interval [] (sketch_intervals m s) in
    if negb (existsb iv_rolled ranges) then visitSQLiteSketches (su_rollup m) s
    else
      let! st := exec_foldl (range_sketches m s) (Some (NewSketch, (∅, []))) ranges in
      match st with
      | Some (_, c) => fine (deliver c)
      | None => visitSQLiteSketches (su_rollup m) s
      end.

(* internal/aggregate/store_sqlite.go:1671-1678 SQLiteStore.VisitSketches *)
Definition VisitSketches (m : SummaryFile) (s : Selector) : exec (list (Z * Sketch)) := visitServiceSummarySketches m s.
