(* ===== verification/RollupSums.v ===== *)
(** * RollupSums: what is read from hours and cells is what the tables hold

    Sums regrouped by a class of rows; then the hourly rows of a complete hour,
    and the cells of a summary, have the groups and the sums of the buckets
    they were folded from, so a read that mixes the sources answers its
    selector over the authoritative tables. *)
From stdpp Require Import sorting strings.
From S2P Require Import Prelude Float64 SeriesKey Dict Registrar Identity Gc TopoIdentity.
From S2P Require Import Sketch SketchCodec Histogram Delta Limiter Baseline Engine EngineReads Topology TopologySnapshot.
From S2P Require Import StoreRows StoreTables StoreFacts StoreReads Query QueryFacts SumFacts Rollup RollupFacts ServiceSummary RollupReads.
#[local] Open Scope Z_scope.

(** ** Sums by class *)

Lemma list_sum_single {A} `{EqDecision A} (h : A -> Z) l c : NoDup l -> c ∈ l -> list_sum (fun x => if decide (c = x) then h x else 0) l = h c.
Proof.
  induction l as [|x l IH]; [by intros _ ?%elem_of_nil|]. intros [Hn Hnd]%NoDup_cons Hc. rewrite list_sum_cons. apply elem_of_cons in Hc as [->|Hc].
  - rewrite decide_True by done. rewrite list_sum_zero; [lia|]. intros y Hy. case_decide as Hd; [by rewrite Hd in Hn|done].
  - rewrite IH by done. case_decide as Hd; [by rewrite Hd in Hc|lia].
Qed.

Lemma list_sum_swap {A B} (F : A -> B -> Z) l1 l2 : list_sum (fun x => list_sum (F x) l2) l1 = list_sum (fun y => list_sum (fun x => F x y) l1) l2.
Proof.
  induction l1 as [|x l1 IH]; [cbn; by rewrite list_sum_zero|]. rewrite list_sum_cons, IH, <- list_sum_plus. by apply list_sum_ext.
Qed.

(** A sum over rows whose class is chosen, class by class. *)
Lemma sum_by_class {X C} `{EqDecision C} (q : X -> C) (h : X -> Z) (phi : C -> bool) l classes : NoDup classes -> (forall x, x ∈ l -> q x ∈ classes) ->
  list_sum (fun x => if phi (q x) then h x else 0) l = list_sum (fun c => if phi c then list_sum (fun x => if decide (q x = c) then h x else 0) l else 0) classes.
Proof.
  intros Hnd Hin. rewrite (list_sum_ext (fun c => if phi c then _ else 0) (fun c => list_sum (fun x => if decide (q x = c) then (if phi c then h x else 0) else 0) l)).
  2: { intros c _. destruct (phi c); [done|]. rewrite list_sum_zero; [done|]. intros x _. by case_decide. }
  rewrite <- list_sum_swap. apply list_sum_ext. intros x Hx. symmetry. apply (list_sum_single (fun c => if phi c then h x else 0)); [done|]. by apply Hin.
Qed.

(** Rows with the same sums in every class have the same sums of chosen classes. *)
Lemma class_sums {X Y C} `{EqDecision C} (qx : X -> C) (qy : Y -> C) (hx : X -> Z) (hy : Y -> Z) (phi : C -> bool) (lx : list X) (ly : list Y) :
  (forall c, eq64 (list_sum (fun x => if decide (qx x = c) then hx x else 0) lx) (list_sum (fun y => if decide (qy y = c) then hy y else 0) ly)) ->
  eq64 (list_sum (fun x => if phi (qx x) then hx x else 0) lx) (list_sum (fun y => if phi (qy y) then hy y else 0) ly).
Proof.
  intros Hc. set (classes := remove_dups ((qx <$> lx) ++ (qy <$> ly))).
  assert (NoDup classes) as Hnd by apply NoDup_remove_dups.
  assert (forall c, c ∈ classes <-> c ∈ qx <$> lx \/ c ∈ qy <$> ly) as Hin by (intros c; unfold classes; by rewrite elem_of_remove_dups, elem_of_app).
  rewrite (sum_by_class qx hx phi lx classes), (sum_by_class qy hy phi ly classes); try done.
  2: { intros y Hy. apply Hin. right. by apply list_elem_of_fmap_2. }
  2: { intros x Hx. apply Hin. left. by apply list_elem_of_fmap_2. }
  clear Hnd Hin. induction classes as [|c classes IH]; [done|]. rewrite !list_sum_cons. apply eq64_add; [|done]. by destruct (phi c).
Qed.

(** ** The counts of a fold *)

Lemma scan_count row d fld : scanDelta row = fine d -> delta_field fld d = row_count row fld.
Proof. unfold scanDelta. repeat (case_match; try done). intros (sk & _ & [= <-])%ebind_Ok. by destruct fld. Qed.

Lemma put_count `{Sqlite} d blob row fld : put_row (deltaArgs (Some d) blob) = fine row -> eq64 (row_count row fld) (delta_field fld d).
Proof.
  intros E. pose proof (put_row_col _ _ E) as Hc. unfold row_count, col_int.
  assert (exists z, deltaArgs (Some d) blob !! column_of fld = Some (VInt z) /\ eq64 z (delta_field fld d)) as (z & Hz & He).
  { destruct fld; (eexists; split; [reflexivity|apply eq64_i64]). }
  rewrite (Hc _ _ Hz). by rewrite u64_eq64.
Qed.

Lemma roll_delta_count acc d m fld : 0 <= d_DurationCount (d_durations d) -> roll_delta acc d = Some m ->
  eq64 (delta_field fld m) (delta_field fld acc + delta_field fld d).
Proof.
  intros Hd. unfold roll_delta, DeltaMerge. intros (m0 & (sk & _ & [= <-])%bind_Some & [= <-])%bind_Some.
  destruct fld; cbn; try apply u64_eq64. unfold merge_durations. destruct (0 <? _) eqn:E; z_bool; cbn; [apply u64_eq64|]. apply eq64_eq. lia.
Qed.

Lemma roll_series_count rows d fld : roll_series rows = fine (Some d) -> eq64 (delta_field fld d) (list_sum (fun row => row_count row fld) rows).
Proof.
  unfold roll_series. destruct rows as [|row rows]; [done|]. rewrite exec_foldl_cons. intros (acc & Ea & E)%ebind_Ok.
  unfold roll_next in Ea. apply ebind_Ok in Ea as (d0 & Ed & [= <-]). rewrite list_sum_cons, <- (scan_count _ _ fld Ed). clear Ed row.
  revert d0 E. induction rows as [|row rows IH]; intros d0 E; [injection E as <-; apply eq64_eq; cbn; lia|]. rewrite exec_foldl_cons in E. apply ebind_Ok in E as (acc & Ea & E).
  unfold roll_next in Ea. apply ebind_Ok in Ea as (d1 & Ed & Ea). apply ebind_Ok in Ea as (m & Em%lift_Ok & [= <-]). rewrite (IH _ E), list_sum_cons, <- (scan_count _ _ fld Ed).
  assert (0 <= d_DurationCount (d_durations d1)) as Hp by (pose proof (scan_count _ _ FDurations Ed) as Hs; cbn in Hs; rewrite Hs; unfold row_count, wrapu; apply Z.mod_pos_bound; lia).
  rewrite (roll_delta_count _ _ _ fld Hp Em). apply eq64_eq. lia.
Qed.

Lemma rolls_count `{Sqlite} f hour sid row fld : rolls f hour sid row ->
  eq64 (from_option (fun row => row_count row fld) 0 row) (list_sum (fun row => row_count row fld) (series_rows f hour sid)).
Proof.
  destruct row as [row|]; cbn [rolls from_option]; [|by intros ->]. intros (d & blob & Ed & _ & Ep). by rewrite (put_count _ _ _ fld Ep), (roll_series_count _ _ fld Ed).
Qed.

(** The rows of a series in an hour, as part of the table. *)
Definition in_hour (hour : Z) (key : Z * Z) : bool := (hour <=? key.1) && (key.1 <? hour + rollupHour).

Lemma series_rows_sum f hour sid (h : list sql_value -> Z) :
  list_sum h (series_rows f hour sid) = list_sum (fun p => if in_hour hour p.1 && (p.1.2 =? sid) then h p.2 else 0) (map_to_list (sf_buckets f)).
Proof.
  unfold series_rows, windows_of. rewrite list_sum_omap, list_sum_fmap, list_sum_filter, (list_sum_perm _ _ _ (ordered_perm _)), list_sum_fmap.
  apply list_sum_ext. intros [[w s] row] Hin. cbn [fst snd]. apply elem_of_map_to_list in Hin. unfold in_hour. cbn [fst snd].
  destruct (Z.leb_spec hour w), (Z.ltb_spec w (hour + rollupHour)), (Z.eqb_spec s sid); cbn [andb]; case_decide as Hd; try done; try (exfalso; lia).
  subst s. by rewrite Hin.
Qed.

(** ** Complete hours *)

(** The selector is exactly the hour. *)
Definition exact_hour (s : Selector) (hour : Z) : Prop := sel_Start s = hour /\ sel_End s = hour + rollupHour /\ hourStart hour = hour.

(** A series of the tables, as a cell at the hour without counts. *)
Definition hour_cell (hour : Z) (k : SeriesKey) : stored_cell := mkCell hour k (fun _ => 0).

Lemma matches_hour s hour w k c : exact_hour s hour -> matches s (mkCell w k c) = in_hour hour (w, 0) && matches s (hour_cell hour k).
Proof.
  intros (H1 & H2 & _). unfold matches, in_hour, hour_cell. cbn [ce_window ce_key fst]. rewrite H1, H2. change rollupHour with 3600.
  destruct (TenantID k =? _), (Z.leb_spec hour w), (Z.ltb_spec w (hour + 3600)); cbn [andb]; try done; rewrite ?Z.leb_refl; destruct (Z.ltb_spec hour (hour + 3600)); try lia; done.
Qed.

Lemma group_hour by_ hour w k c : by_has by_ GroupByWindow = false -> cell_group by_ (mkCell w k c) = cell_group by_ (hour_cell hour k).
Proof. intros Hw. unfold cell_group. cbn. by rewrite Hw. Qed.

(** The series whose cells are selected and in a chosen group. *)
Definition chosen_series (f : StoreFile) (s : Selector) (by_ hour : Z) (psi : group_key -> bool) (sid : Z) : bool :=
  match stored_key f sid with Some k => matches s (hour_cell hour k) && psi (cell_group by_ (hour_cell hour k)) | None => false end.

Lemma hour_sum f s by_ hour m fld psi : exact_hour s hour -> by_has by_ GroupByWindow = false ->
  cells_sum fld s by_ psi (table_cells f m) =
  list_sum (fun p => if chosen_series f s by_ hour psi p.1.2 then (if in_hour hour p.1 then row_count p.2 fld else 0) else 0) (map_to_list m).
Proof.
  intros Hs Hw. unfold cells_sum, table_cells. rewrite list_sum_omap. apply list_sum_ext. intros [[w sid] row] _. unfold cell_of, chosen_series. cbn [fst snd].
  destruct (stored_key f sid) as [k|]; [|done]. cbn [mbind option_bind from_option]. rewrite (matches_hour s hour w k _ Hs), (group_hour by_ hour w k _ Hw).
  change (in_hour hour (w, 0)) with (in_hour hour (w, sid)). destruct (in_hour hour (w, sid)), (matches s (hour_cell hour k)), (psi _); done.
Qed.

Lemma hour_groups f s by_ hour m g : exact_hour s hour -> by_has by_ GroupByWindow = false ->
  (exists x, x ∈ table_cells f m /\ matches s x = true /\ cell_group by_ x = g) <->
  exists sid, (exists w, is_Some (m !! (w, sid)) /\ in_hour hour (w, sid) = true) /\ chosen_series f s by_ hour (fun g' => bool_decide (g' = g)) sid = true.
Proof.
  intros Hs Hw. split.
  - intros (x & ([[w sid] row] & Hin%elem_of_map_to_list & Hx)%list_elem_of_omap & Hm & Hg). unfold cell_of in Hx. cbn [fst snd] in Hx.
    apply bind_Some in Hx as (k & Hk & [= <-]). rewrite (matches_hour s hour w k _ Hs) in Hm. rewrite (group_hour by_ hour w k _ Hw) in Hg. apply andb_true_iff in Hm as [Hh Hm].
    exists sid. split; [exists w; split; [by eexists|done]|]. unfold chosen_series. rewrite Hk, Hm. by apply bool_decide_eq_true_2.
  - intros (sid & (w & [row Hr] & Hh) & Hc). unfold chosen_series in Hc. destruct (stored_key f sid) as [k|] eqn:Ek; [|done]. apply andb_true_iff in Hc as [Hm Hg%bool_decide_eq_true].
    exists (mkCell w k (row_count row)). split_and!; [|rewrite (matches_hour s hour w k _ Hs), Hm; change (in_hour hour (w, 0)) with (in_hour hour (w, sid)); by rewrite Hh|by rewrite (group_hour by_ hour w k _ Hw)].
    apply list_elem_of_omap. exists ((w, sid), row). split; [by apply elem_of_map_to_list|]. unfold cell_of. cbn [fst snd]. by rewrite Ek.
Qed.

(** Hourly rows are at the start of their hour. *)
Definition hourly_aligned (r : RollupFile) : Prop := forall key, is_Some (ru_hourly r !! key) -> hourStart key.1 = key.1.

Lemma hourly_one r hour sid (h : list sql_value -> Z) : hourly_aligned r -> hourStart hour = hour ->
  list_sum (fun p => if decide (p.1.2 = sid) then (if in_hour hour p.1 then h p.2 else 0) else 0) (map_to_list (ru_hourly r)) = from_option h 0 (ru_hourly r !! (hour, sid)).
Proof.
  intros Ha Hh. etrans; [symmetry; exact (map_sum_list (fun key row => if decide (key.2 = sid) then (if in_hour hour key then h row else 0) else 0) (ru_hourly r))|].
  pose proof (map_sum_delete (fun key row => if decide (key.2 = sid) then (if in_hour hour key then h row else 0) else 0) (ru_hourly r) (hour, sid)) as Hd.
  assert (in_hour hour (hour, sid) = true) as Hin by (unfold in_hour; cbn; change rollupHour with 3600; destruct (Z.leb_spec hour hour), (Z.ltb_spec hour (hour + 3600)); done || lia).
  assert (map_sum (fun key row => if decide (key.2 = sid) then (if in_hour hour key then h row else 0) else 0) (delete (hour, sid) (ru_hourly r)) = 0) as Hz.
  { apply map_sum_zero. intros [w s]. rewrite lookup_delete. destruct (decide ((hour, sid) = (w, s))) as [_|Hk]; [done|]. destruct (ru_hourly r !! (w, s)) as [row|] eqn:Er; [|done]. cbn [from_option fst snd].
    case_decide as Hs; [|done]. subst s. destruct (in_hour hour (w, sid)) eqn:Ei; [|done]. exfalso. apply Hk. f_equal.
    unfold in_hour in Ei. cbn [fst] in Ei. apply andb_true_iff in Ei as [E1 E2]. z_bool. pose proof (Ha (w, sid) ltac:(by rewrite Er)) as Hw. cbn in Hw. rewrite <- Hw. symmetry. by apply hourStart_in. }
  rewrite Hz in Hd. destruct (ru_hourly r !! (hour, sid)) as [row|]; cbn [from_option fst snd] in *; [|lia]. rewrite decide_True in Hd by done. rewrite Hin in Hd. lia.
Qed.

(** The hourly rows of a complete hour and the buckets of the hour answer the same. *)
Lemma hourly_cells `{Sqlite} r s by_ hour : hourly_aligned r -> exact_hour s hour -> by_has by_ GroupByWindow = false ->
  (forall sid, rolls (ru_file r) hour sid (ru_hourly r !! (hour, sid))) ->
  (forall fld psi, eq64 (cells_sum fld s by_ psi (table_cells (ru_file r) (ru_hourly r))) (cells_sum fld s by_ psi (table_cells (ru_file r) (sf_buckets (ru_file r))))) /\
  (forall g, (exists x, x ∈ table_cells (ru_file r) (ru_hourly r) /\ matches s x = true /\ cell_group by_ x = g) <->
     exists x, x ∈ table_cells (ru_file r) (sf_buckets (ru_file r)) /\ matches s x = true /\ cell_group by_ x = g).
Proof.
  intros Ha Hs Hw Hr. pose proof Hs as (_ & _ & Hh). split.
  - intros fld psi. rewrite !(hour_sum _ _ _ hour) by done. apply (class_sums (fun p : (Z * Z) * list sql_value => p.1.2) (fun p : (Z * Z) * list sql_value => p.1.2)). intros sid.
    rewrite (hourly_one r hour sid (fun row => row_count row fld) Ha Hh), (rolls_count _ _ _ _ fld (Hr sid)), series_rows_sum. apply eq64_eq, list_sum_ext.
    intros [[w sid'] row] _. cbn [fst snd]. destruct (in_hour hour (w, sid')); cbn [andb]; [|by case_decide]. destruct (Z.eqb_spec sid' sid); by case_decide.
  - intros g. rewrite !(hour_groups _ _ _ hour) by done. assert (forall sid, (exists w, is_Some (ru_hourly r !! (w, sid)) /\ in_hour hour (w, sid) = true) <->
      exists w, is_Some (sf_buckets (ru_file r) !! (w, sid)) /\ in_hour hour (w, sid) = true) as He.
    { intros sid. assert (is_Some (ru_hourly r !! (hour, sid)) <-> series_rows (ru_file r) hour sid <> []) as Hrow.
      { pose proof (Hr sid) as HR. destruct (ru_hourly r !! (hour, sid)) as [row|]; cbn in HR; [|by rewrite HR; split; [intros []|]].
        destruct HR as (d & _ & Hd & _). split; [|by eexists]. intros _ Hn. by rewrite Hn in Hd. }
      assert (series_rows (ru_file r) hour sid <> [] <-> exists w, is_Some (sf_buckets (ru_file r) !! (w, sid)) /\ in_hour hour (w, sid) = true) as <-.
      { unfold in_hour. cbn [fst]. unfold series_rows. split.
        - intros Hn. destruct (windows_of (ru_file r) hour sid) as [|w ws] eqn:Ew; [done|]. exists w.
          assert (w ∈ windows_of (ru_file r) hour sid) as [Hrg ?]%elem_of_windows_of by (rewrite Ew; by left). split; [done|]. apply andb_true_iff. rewrite Z.leb_le, Z.ltb_lt. lia.
        - intros (w & [row Hrow'] & [E1 E2]%andb_true_iff) Hn. z_bool. assert (w ∈ windows_of (ru_file r) hour sid) as Hin by (apply elem_of_windows_of; split; [lia|by eexists]).
          assert (row ∈ omap (fun w => sf_buckets (ru_file r) !! (w, sid)) (windows_of (ru_file r) hour sid)) as Hin2 by (apply list_elem_of_omap; by exists w). rewrite Hn in Hin2. by apply elem_of_nil in Hin2. }
      rewrite <- Hrow. split.
      - intros (w & Hsome & Hi). assert (w = hour) as ->; [|done]. unfold in_hour in Hi. cbn [fst] in Hi. apply andb_true_iff in Hi as [E1 E2]. z_bool.
        pose proof (Ha _ Hsome) as Hal. cbn in Hal. rewrite <- Hal. by apply hourStart_in.
      - intros Hsome. exists hour. split; [done|]. unfold in_hour. cbn [fst]. change rollupHour with 3600. apply andb_true_iff. rewrite Z.leb_le, Z.ltb_lt. lia. }
    split; intros (sid & Hex & Hc); exists sid; (split; [by apply He|done]).
Qed.

(** ** Ranges beside each other *)

(** The cells of the authoritative tables. *)
Definition tables_cells (f : StoreFile) : list stored_cell := table_cells f (sf_buckets f) ++ table_cells f (sf_log f).

Inductive spans : Z -> Z -> list interval -> Prop :=
| spans_nil lo : spans lo lo []
| spans_cons r hi rest : iv_lo r < iv_hi r -> spans (iv_hi r) hi rest -> spans (iv_lo r) hi (r :: rest).

Lemma spans_le lo hi l : spans lo hi l -> lo <= hi.
Proof. induction 1; lia. Qed.

Lemma spans_snoc lo mid hi l r : spans lo mid l -> iv_lo r = mid -> iv_hi r = hi -> mid < hi -> spans lo hi (l ++ [r]).
Proof.
  induction 1 as [lo|r0 hi0 rest Hlt Hs IH]; intros <- <- Hm; cbn [app].
  - constructor; [done|constructor].
  - constructor; [done|]. by apply IH.
Qed.

Lemma spans_snoc_inv lo hi l r : spans lo hi (l ++ [r]) -> exists mid, spans lo mid l /\ iv_lo r = mid /\ iv_hi r = hi /\ mid < hi.
Proof.
  revert lo. induction l as [|r0 l IH]; intros lo Hs; cbn [app] in Hs; inversion Hs as [|r1 hi1 rest Hlt Hs1]; subst.
  - inversion Hs1; subst. exists (iv_lo r). split_and!; [constructor|done|done|done].
  - destruct (IH _ Hs1) as (mid & Hm & ? & ? & ?). exists mid. split_and!; [by constructor|done|done|done].
Qed.

(** Joining keeps the ranges covered and the rolled ones as they are. *)
Lemma join_spans l : forall lo mid hi acc, spans lo mid acc -> spans mid hi l ->
  spans lo hi (foldl join_interval acc l) /\ (forall r, r ∈ foldl join_interval acc l -> iv_rolled r = true -> r ∈ acc \/ r ∈ l).
Proof.
  induction l as [|r l IH]; intros lo mid hi acc Ha Hl; cbn [foldl].
  { inversion Hl; subst. split; [done|]. by left. }
  inversion Hl as [|r1 hi1 rest Hlt Hs]; subst.
  assert (spans lo (iv_hi r) (join_interval acc r) /\ (forall x, x ∈ join_interval acc r -> iv_rolled x = true -> x ∈ acc \/ x = r)) as [Hj1 Hj2].
  { unfold join_interval. destruct (last acc) as [p|] eqn:El.
    - apply last_Some in El as [l' ->]. destruct (negb (iv_rolled r) && negb (iv_rolled p)) eqn:Er.
      + rewrite removelast_last. apply spans_snoc_inv in Ha as (m & Hm & <- & Hhi & Hmm). split.
        * apply (spans_snoc lo (iv_lo p)); [done|done|done|]. cbn. lia.
        * intros x [Hx| ->%list_elem_of_singleton]%elem_of_app Hr; [left; apply elem_of_app; by left|done].
      + split; [by eapply spans_snoc|]. intros x [Hx| ->%list_elem_of_singleton]%elem_of_app _; [by left|by right].
    - apply last_None in El as ->. split; [by eapply spans_snoc|]. intros x [Hx| ->%list_elem_of_singleton]%elem_of_app _; [by left|by right]. }
  destruct (IH _ _ _ _ Hj1 Hs) as [I1 I2]. split; [done|]. intros x Hx Hr. destruct (I2 x Hx Hr) as [Hx'|Hx']; [|right; by right].
  destruct (Hj2 x Hx' Hr) as [?| ->]; [by left|right; by left].
Qed.

Lemma hours_spans (s : Selector) (rolled : Z -> bool) fuel : forall h, sel_Start s < sel_End s -> h < sel_End s -> sel_Start s < h + rollupHour -> sel_End s - h <= Z.of_nat fuel * rollupHour ->
  spans (Z.max h (sel_Start s)) (sel_End s) ((fun h => mkInterval (Z.max h (sel_Start s)) (Z.min (h + rollupHour) (sel_End s)) (rolled h)) <$> hours_from fuel h (sel_End s)).
Proof.
  change rollupHour with 3600. induction fuel as [|fuel IH]; intros h Hlt H1 H2 Hf; [lia|]. cbn [hours_from]. change rollupHour with 3600. destruct (h + 3600 <? sel_End s) eqn:E; z_bool; cbn [fmap list_fmap].
  - apply (spans_cons (mkInterval (Z.max h (sel_Start s)) (Z.min (h + 3600) (sel_End s)) (rolled h))); cbn [iv_lo iv_hi]; [lia|].
    replace (Z.min (h + 3600) (sel_End s)) with (Z.max (h + 3600) (sel_Start s)) by lia. apply IH; lia.
  - apply (spans_cons (mkInterval (Z.max h (sel_Start s)) (Z.min (h + 3600) (sel_End s)) (rolled h))); cbn [iv_lo iv_hi]; [lia|].
    replace (Z.min (h + 3600) (sel_End s)) with (sel_End s) by lia. constructor.
Qed.

Lemma rollup_ranges_spans r s sketches : sel_Start s < sel_End s ->
  spans (sel_Start s) (sel_End s) (rollup_ranges r s sketches) /\
  (forall iv, iv ∈ rollup_ranges r s sketches -> iv_rolled iv = true -> hour_rolled r s sketches (iv_lo iv) = true /\ iv_hi iv = iv_lo iv + rollupHour /\ hourStart (iv_lo iv) = iv_lo iv).
Proof.
  intros Hlt. unfold rollup_ranges, hours_of. pose proof (hourStart_bounds (sel_Start s)) as [Hb Hidem]. split.
  - replace (sel_Start s) with (Z.max (hourStart (sel_Start s)) (sel_Start s)) at 1 by lia. apply hours_spans; [done|lia|lia|].
    change rollupHour with 3600 in *. pose proof (Z.div_mod (sel_End s - sel_Start s) 3600 ltac:(lia)). pose proof (Z.mod_pos_bound (sel_End s - sel_Start s) 3600 ltac:(lia)).
    rewrite Nat2Z.inj_succ, Z2Nat.id by (pose proof (Z.div_pos (sel_End s - sel_Start s) 3600 ltac:(lia) ltac:(lia)); lia). lia.
  - intros iv (h & -> & Hin)%list_elem_of_fmap. cbn [iv_lo iv_hi iv_rolled]. intros Hr. pose proof Hr as Hr'. unfold hour_rolled in Hr'.
    rewrite !andb_true_iff, !Z.leb_le in Hr'. destruct Hr' as [[[_ H1] H2] _]. replace (Z.max h (sel_Start s)) with h by lia. split_and!; [done|lia|].
    assert (forall fuel h0, hourStart h0 = h0 -> h ∈ hours_from fuel h0 (sel_End s) -> hourStart h = h) as HA; [|by eapply HA].
    clear. induction fuel as [|fuel IH]; intros h0 Hh0; cbn [hours_from]; [by intros ?%elem_of_nil|]. intros [->|Hin]%elem_of_cons; [done|].
    destruct (_ <? _); [|by apply elem_of_nil in Hin]. apply (IH (h0 + rollupHour)); [|done]. rewrite !hourStart_eq in *. change rollupHour with 3600 in *. zlia.
Qed.

(** Rows that answer each range, together. *)
Lemma spans_gathers cells by_ sel lo hi l : spans lo hi l -> forall results,
  Forall2 (fun r rows => answers cells (set_range sel (iv_lo r) (iv_hi r)) by_ rows) l results -> gathers cells (set_range sel lo hi) by_ (mjoin results).
Proof.
  induction 1 as [lo|r hi rest Hlt Hs IH]; intros results HF.
  - apply Forall2_nil_inv_l in HF as ->. assert (forall x, matches (set_range sel lo lo) x = false) as Hno.
    { intros x. rewrite matches_range. destruct (Z.leb_spec lo (ce_window x)), (Z.ltb_spec (ce_window x) lo); done || lia. }
    constructor.
    + intros g. split; [by intros ?%elem_of_nil|]. intros (x & _ & Hm & _). by rewrite Hno in Hm.
    + intros fld psi. apply eq64_eq. unfold cells_sum. rewrite list_sum_zero; [done|]. intros x _. by rewrite Hno.
    + by intros fld x ?%elem_of_nil.
  - apply Forall2_cons_inv_l in HF as (rows & rest' & [A1 A2 A3 A4] & HF & ->). destruct (IH _ HF) as [I1 I2 I3]. pose proof (spans_le _ _ _ Hs) as Hle.
    cbn [mjoin list_join]. fold (mjoin (M := list) (A := SumRow)). assert (iv_lo r <= iv_hi r <= hi) as Hm by lia. constructor.
    + intros g. rewrite fmap_app, elem_of_app, A2, I1. split.
      * intros [(x & Hx & Hmx & Hg)|(x & Hx & Hmx & Hg)]; exists x; (split_and!; [done| |done]);
          destruct (matches_split sel (iv_lo r) (iv_hi r) hi x Hm) as [-> _]; rewrite Hmx; by rewrite ?orb_true_r.
      * intros (x & Hx & Hmx & Hg). destruct (matches_split sel (iv_lo r) (iv_hi r) hi x Hm) as [He _]. rewrite He in Hmx.
        apply orb_true_iff in Hmx as [?|?]; [left|right]; by exists x.
    + intros fld psi. unfold rows_sum in *. rewrite list_sum_app, A3, I2. rewrite (cells_sum_split _ _ _ _ _ (iv_lo r) (iv_hi r) hi) by lia. done.
    + intros fld x [?|?]%elem_of_app; [by apply A4|by apply I3].
Qed.

Lemma foldl_mjoin {A B} (f : B -> A -> B) (ls : list (list A)) b : foldl f b (mjoin ls) = foldl (fun b l => foldl f b l) b ls.
Proof. revert b. induction ls as [|l ls IH]; intros b; [done|]. cbn [mjoin list_join foldl]. rewrite foldl_app. apply IH. Qed.

(** Merged by group they answer the whole. *)
Lemma gathers_merged cells sel by_ rows : gathers cells sel by_ rows -> answers cells sel by_ (foldl mergeSumRow ([], ∅) rows).1.
Proof.
  intros [G1 G2 G3]. destruct (merge_rows rows) as [_ M2 M3 M4 M5]. constructor; [done| | |].
  - intros g. by rewrite M3, G1.
  - intros fld psi. by rewrite M4, G2.
  - by apply M5.
Qed.

(** Answers over other cells with the same groups and sums. *)
Lemma answers_same c1 c2 s by_ rows : answers c1 s by_ rows ->
  (forall fld psi, eq64 (cells_sum fld s by_ psi c1) (cells_sum fld s by_ psi c2)) ->
  (forall g, (exists x, x ∈ c1 /\ matches s x = true /\ cell_group by_ x = g) <-> exists x, x ∈ c2 /\ matches s x = true /\ cell_group by_ x = g) -> answers c2 s by_ rows.
Proof.
  intros [A1 A2 A3 A4] Hs Hg. constructor; [done| | |done].
  - intros g. by rewrite A2, Hg.
  - intros fld psi. by rewrite A3, Hs.
Qed.

Lemma exists_app {A} (P : A -> Prop) l1 l2 : (exists x, x ∈ l1 ++ l2 /\ P x) <-> (exists x, x ∈ l1 /\ P x) \/ (exists x, x ∈ l2 /\ P x).
Proof.
  split.
  - intros (x & [Hx|Hx]%elem_of_app & Hp); [left|right]; by exists x.
  - intros [(x & Hx & Hp)|(x & Hx & Hp)]; exists x; (split; [apply elem_of_app|done]); [by left|by right].
Qed.
