(* ===== verification/SummarySums.v ===== *)
(** * SummarySums: the SQLite store keeps the contract of its sums

    The cells of a service summary have the sums of the buckets of their
    classes, so a projection answers its selector; then every path of the
    snapshot reads (tables, hourly rows, cells) answers.  [StoreContract.v]
    makes this the instance of the contract the queries are proved against. *)
From stdpp Require Import sorting strings.
From S2P Require Import Prelude Float64 SeriesKey Dict Registrar Identity Gc TopoIdentity.
From S2P Require Import Sketch SketchCodec Histogram Delta Limiter Baseline Engine EngineReads Topology TopologySnapshot.
From S2P Require Import StoreRows StoreTables StoreFacts StoreReads Query QueryFacts SumFacts Rollup RollupFacts ServiceSummary RollupReads RollupSums.
#[local] Open Scope Z_scope.

(** ** Classes of cells *)

(** Tenant, signal, service, name and window. *)
Abbreviation summary_class := (Z * Z * Z * Z * Z)%type (only parsing).

Definition key_class (k : summary_key) : summary_class := (ck_tenant k, ck_signal k, ck_service k, ck_name k, ck_window k).

(** Per window: the trace points of a service.  Per hour: the trace points and
    the logs of a service, and each edge. *)
Definition cell_class (resolution hour : Z) (x : stored_cell) : summary_class :=
  let k := ce_key x in
  if resolution =? windowSec then (TenantID k, KSignal k, ServiceID k, 0, ce_window x)
  else (TenantID k, KSignal k, ServiceID k, if KSignal k =? SignalServiceEdge then NameID k else 0, hour).

Definition summarized (resolution hour : Z) (x : stored_cell) : bool :=
  in_hour hour (ce_window x, 0) &&
  (if resolution =? windowSec then KSignal (ce_key x) =? SignalTraceOp
   else (KSignal (ce_key x) =? SignalTraceOp) || (KSignal (ce_key x) =? SignalLog) || (KSignal (ce_key x) =? SignalServiceEdge)).

Definition of_hour (resolution hour : Z) (k : summary_key) : bool := (ck_hour k =? hour) && (ck_resolution k =? resolution).

(** The cells of the hour hold, class by class, what the buckets hold. *)
Record summary_exact (m : SummaryFile) (hour resolution : Z) : Prop := {
  se_sums fld c : eq64
    (list_sum (fun p => if decide (key_class p.1 = c) then (if of_hour resolution hour p.1 then sv_at (col_of fld) (sr_scalar p.2) else 0) else 0) (map_to_list (su_cells m)))
    (list_sum (fun x => if decide (cell_class resolution hour x = c) then (if summarized resolution hour x then ce_count x fld else 0) else 0) (table_cells (su_file m) (sf_buckets (su_file m))));
  se_classes c : (exists k, is_Some (su_cells m !! k) /\ of_hour resolution hour k = true /\ key_class k = c) <->
    exists x, x ∈ table_cells (su_file m) (sf_buckets (su_file m)) /\ summarized resolution hour x = true /\ cell_class resolution hour x = c;
}.

(** A class as a cell without counts. *)
Definition class_cell (c : summary_class) : stored_cell :=
  let '(t, sg, sv, n, w) := c in mkCell w (mkSeriesKey t sv n 0 sg 0 0 0 0) (fun _ => 0).

(** Chosen by the selector and the group. *)
Definition chosen_class (s : Selector) (by_ : Z) (psi : group_key -> bool) (c : summary_class) : bool :=
  matches s (class_cell c) && psi (cell_group by_ (class_cell c)).

(** The selector stays in one hour, and is the hour when cells are hourly. *)
Definition within_hour (s : Selector) (resolution hour : Z) : Prop :=
  hourStart hour = hour /\ hour <= sel_Start s /\ sel_Start s < sel_End s <= hour + rollupHour /\
  (resolution = rollupHour -> sel_Start s = hour /\ sel_End s = hour + rollupHour).

Lemma appendSeriesFilter_key s k : appendSeriesFilter s [ck_tenant k; ck_service k; ck_name k; 0; ck_signal k] && (sel_Start s <=? ck_window k) && (ck_window k <? sel_End s) =
  matches s (class_cell (key_class k)).
Proof.
  unfold appendSeriesFilter, matches, class_cell, key_class, series_col. cbn [list_lookup lookup default TenantID ServiceID KSignal ce_key ce_window]. unfold id.
  cbn. destruct (ck_tenant k =? _), (_ <=? ck_window k), (ck_window k <? _); cbn [andb]; try done; by rewrite ?andb_true_r, ?andb_false_r.
Qed.

Lemma cell_selected_class s resolution hour k : hour = hourStart (sel_Start s) ->
  cell_selected s resolution k = of_hour resolution hour k && matches s (class_cell (key_class k)).
Proof. intros ->. unfold cell_selected, of_hour. by rewrite <- appendSeriesFilter_key, !andb_assoc. Qed.

Lemma cell_group_class by_ k : cell_group_of by_ k = cell_group by_ (class_cell (key_class k)).
Proof. done. Qed.

(** Every selection that cells may answer looks at summarized cells only, and
    at nothing but their class. *)
Lemma matches_class s by_ resolution hour x : summaryResolution s by_ = resolution -> resolution <> 0 -> within_hour s resolution hour ->
  matches s x = summarized resolution hour x && matches s (class_cell (cell_class resolution hour x)) /\
  (matches s x = true -> cell_group by_ x = cell_group by_ (class_cell (cell_class resolution hour x))).
Proof.
  unfold summaryResolution. destruct (_ || _ || _ || _); [congruence|]. destruct (length (summarySignals s) =? 0)%nat eqn:El; [congruence|].
  intros Hres Hne (Ha & H1 & H2 & H3).
  assert (forall P : Z -> bool, forallb P (summarySignals s) = true -> forall w k c, matches s (mkCell w k c) = true -> P (KSignal k) = true) as Hsig.
  { intros P HP w k c Hm. unfold matches in Hm. cbn [ce_key ce_window] in Hm. rewrite !andb_true_iff in Hm. destruct Hm as [[_ Hm] _].
    rewrite forallb_forall in HP. apply HP. unfold summarySignals in *. destruct (negb (sel_Signal s =? SignalUnspecified)); [z_bool; left; congruence|].
    destruct (0 <? length (sel_Signals s))%nat eqn:E0; [by apply bool_decide_eq_true, list_elem_of_In in Hm|]. apply Nat.ltb_ge in E0. apply Nat.eqb_neq in El. lia. }
  assert (forall w k c, matches s (mkCell w k c) = true -> in_hour hour (w, 0) = true) as Hin.
  { intros w k c Hm. unfold matches in Hm. cbn [ce_key ce_window] in Hm. rewrite !andb_true_iff in Hm. destruct Hm as [[[[_ Hl] Hh] _] _]. z_bool.
    unfold in_hour. cbn. apply andb_true_iff. rewrite Z.leb_le, Z.ltb_lt. lia. }
  destruct x as [w k cnt]. unfold summarized, cell_class. cbn [ce_window ce_key].
  destruct (by_has by_ GroupByWindow) eqn:Ew.
  - destruct (negb (by_has by_ GroupByName) && forallb (fun s0 => s0 =? SignalTraceOp) (summarySignals s)) eqn:Ec; [|congruence]. subst resolution. rewrite Z.eqb_refl.
    apply andb_true_iff in Ec as [En%negb_true_iff Eonly]. specialize (Hsig _ Eonly). cbn beta in Hsig. split.
    + destruct (matches s (mkCell w k cnt)) eqn:Em.
      * rewrite (Hin _ _ _ Em), (Hsig _ _ _ Em). cbn [andb]. by rewrite <- Em.
      * destruct (in_hour hour (w, 0)); [|done]. destruct (KSignal k =? SignalTraceOp); [|done]. cbn [andb]. by rewrite <- Em.
    + intros _. unfold cell_group, class_cell. cbn [ce_window ce_key ServiceID NameID KSignal]. by rewrite En.
  - assert (resolution = rollupHour /\ forallb (fun sg => (sg =? SignalTraceOp) || (sg =? SignalLog) || (sg =? SignalServiceEdge)) (summarySignals s) = true /\
      (by_has by_ GroupByName = true -> forallb (fun sg => sg =? SignalServiceEdge) (summarySignals s) = true)) as (-> & Hall & Hname).
    { assert (forall P Q : Z -> bool, (forall sg, P sg = true -> Q sg = true) -> forallb P (summarySignals s) = true -> forallb Q (summarySignals s) = true) as Himp.
      { intros P Q HPQ HP. rewrite forallb_forall in *. intros sg Hi. by apply HPQ, HP. }
      destruct (forallb (fun s0 => s0 =? SignalServiceEdge) (summarySignals s)) eqn:Ee.
      - split_and!; [done|by eapply Himp, Ee; intros sg Hg; rewrite Hg, orb_true_r|done].
      - destruct (by_has by_ GroupByName); [congruence|]. destruct (forallb _ (summarySignals s)) eqn:Et in Hres; [|congruence].
        split_and!; [done|by eapply Himp, Et; intros sg Hg; rewrite Hg|done]. }
    destruct (H3 eq_refl) as [Hst Hen]. change (rollupHour =? windowSec) with false. cbn iota.
    assert (forall n c, matches s (mkCell w k c) = in_hour hour (w, 0) && matches s (mkCell hour (mkSeriesKey (TenantID k) (ServiceID k) n 0 (KSignal k) 0 0 0 0) (fun _ => 0))) as Hmh.
    { intros n c. rewrite (matches_hour s hour w k c) by done. done. }
    cbn [class_cell]. split.
    + rewrite (Hmh (if KSignal k =? SignalServiceEdge then NameID k else 0) cnt). destruct (in_hour hour (w, 0)) eqn:Ei; [|done]. cbn [andb].
      destruct (matches s (mkCell hour _ _)) eqn:Em; [|by rewrite andb_false_r]. pose proof (Hsig _ Hall _ _ _ Em) as HS. cbn beta in HS. cbn [KSignal] in HS. by rewrite HS.
    + intros Hm. unfold cell_group. cbn [ce_window ce_key ServiceID NameID KSignal]. rewrite Ew. destruct (by_has by_ GroupByName) eqn:En; [|done].
      specialize (Hsig _ (Hname eq_refl) _ _ _ Hm). cbn beta in Hsig. by rewrite Hsig.
Qed.

(** Cells in place of buckets: the same groups and sums. *)
Lemma summary_cells m s by_ resolution hour : summaryResolution s by_ = resolution -> resolution <> 0 -> within_hour s resolution hour -> summary_exact m hour resolution ->
  (forall fld psi, eq64
     (list_sum (fun p => if chosen_class s by_ psi (key_class p.1) then (if of_hour resolution hour p.1 then sv_at (col_of fld) (sr_scalar p.2) else 0) else 0) (map_to_list (su_cells m)))
     (cells_sum fld s by_ psi (table_cells (su_file m) (sf_buckets (su_file m))))) /\
  (forall g, (exists k, is_Some (su_cells m !! k) /\ of_hour resolution hour k = true /\ chosen_class s by_ (fun g' => bool_decide (g' = g)) (key_class k) = true) <->
     exists x, x ∈ table_cells (su_file m) (sf_buckets (su_file m)) /\ matches s x = true /\ cell_group by_ x = g).
Proof.
  intros Hres Hne Hw [S1 S2]. pose proof (fun x => matches_class s by_ resolution hour x Hres Hne Hw) as HM.
  set (cells := table_cells (su_file m) (sf_buckets (su_file m))) in *. split.
  - intros fld psi. etrans; [apply (class_sums (fun p : summary_key * summary_row => key_class p.1) (cell_class resolution hour)), (S1 fld)|]. apply eq64_eq.
    unfold cells_sum. apply list_sum_ext. intros x _. destruct (HM x) as [Hm Hg]. unfold chosen_class.
    destruct (matches s x) eqn:Em; symmetry in Hm.
    + apply andb_true_iff in Hm as [-> ->]. cbn [andb]. by rewrite (Hg eq_refl).
    + destruct (summarized resolution hour x); cbn [andb] in Hm; [by rewrite Hm|]. by destruct (_ && _).
  - intros g. split.
    + intros (k & Hk & Ho & Hc). destruct (proj1 (S2 (key_class k)) ltac:(by exists k)) as (x & Hx & Hs & Hcl). exists x. destruct (HM x) as [Hm Hg].
      unfold chosen_class in Hc. rewrite <- Hcl in Hc. apply andb_true_iff in Hc as [Hc1 Hc2%bool_decide_eq_true]. rewrite Hs, Hc1 in Hm. split_and!; [done|done|]. by rewrite Hg.
    + intros (x & Hx & Hm & Hg). destruct (HM x) as [Hm' Hg']. rewrite Hm in Hm'. symmetry in Hm'. apply andb_true_iff in Hm' as [Hs Hmc].
      destruct (proj2 (S2 (cell_class resolution hour x)) ltac:(by exists x)) as (k & Hk & Ho & Hc). exists k. split_and!; [done|done|]. unfold chosen_class.
      rewrite Hc, Hmc. cbn [andb]. apply bool_decide_eq_true_2. by rewrite <- Hg', Hg.
Qed.

(** ** Rows of the database as answers *)

(** A grouped sum over rows that have the groups and sums of some cells. *)
Lemma grouped_answers `{SqlSum} f cells s by_ (l out : list (group_key * sum_values)) tr : series_ok f ->
  (forall x, x ∈ cells -> exists src, x ∈ table_cells f src) -> (forall v, sv_ints (tr v) = sv_ints v) ->
  (forall g, g ∈ l.*1 <-> exists x, x ∈ cells /\ matches s x = true /\ cell_group by_ x = g) ->
  (forall fld psi, eq64 (gsum (col_of fld) psi l) (cells_sum fld s by_ psi cells)) ->
  sum_groups 7 l = fine out -> answers cells s by_ (sum_row <$> ((fun p => (p.1, tr p.2)) <$> out)).
Proof.
  intros Hok Hsrc Htr L1 L2 E. destruct (sum_groups_spec _ _ _ E) as (S1 & S2 & S3 & _).
  assert (forall p, p ∈ out -> sumGroupKey (sum_row (p.1, tr p.2)) = p.1) as Hkey.
  { intros [g v] Hp. cbn [fst snd]. assert (g ∈ out.*1) as Hin by (by apply (list_elem_of_fmap_2 fst _ (g, v))). apply S2, L1 in Hin as (x & Hx & Hm & <-).
    destruct (Hsrc x Hx) as [src Hs]. assert (x ∈ sources_cells f [(false, src)]) as Hx' by (apply list_elem_of_bind; exists (false, src); split; [done|by left]).
    pose proof (cell_group_small f Hok s by_ x _ Hx' Hm) as Hs'. destruct (cell_group by_ x) as [[[w sv] nm] sg]. exact Hs'. }
  assert (sumGroupKey <$> (sum_row <$> ((fun p => (p.1, tr p.2)) <$> out)) = out.*1) as Hkeys.
  { rewrite <- !list_fmap_compose. apply list_fmap_ext. intros i p Hi. apply Hkey. by eapply list_elem_of_lookup_2. }
  constructor; rewrite ?Hkeys; [done| | |].
  - intros g. by rewrite S2, L1.
  - intros fld psi. rewrite <- L2, <- S3 by (destruct fld; cbn; lia). unfold rows_sum, gsum. rewrite !list_sum_fmap.
    clear - Hkey Htr. induction out as [|p out IH]; [done|]. rewrite !list_sum_cons. apply eq64_add; [|apply IH; intros q Hq; apply Hkey; by right].
    rewrite (Hkey p) by (by left). destruct (psi p.1); [|done]. destruct p as [[[[w sv] nm] sg] v]. cbn [fst snd]. unfold sv_at. rewrite <- (Htr v). destruct fld; cbn; apply u64_eq64.
  - intros fld r (p & -> & (q & -> & _)%list_elem_of_fmap)%list_elem_of_fmap. destruct q as [[[[w sv] nm] sg] v]. destruct fld; cbn; unfold wrapu; apply Z.mod_pos_bound; lia.
Qed.

(** The selections the endpoints make: no choice of series, no sketches only,
    no cursor. *)
Lemma projection_answers `{SqlSum} m s by_ trafficOnly rows hour : series_ok (su_file m) -> plain_selector s -> by_ <> 0 ->
  hourStart hour = hour -> hour <= sel_Start s -> sel_Start s < sel_End s <= hour + rollupHour ->
  (forall c, summaryEligible m hour c = true -> summary_exact m hour windowSec /\ summary_exact m hour rollupHour) ->
  readSummaryProjection m s by_ trafficOnly = fine (Some rows) -> answers (tables_cells (su_file m)) s by_ rows.
Proof.
  intros Hok Hp Hby Ha H1 H2 Hex E. unfold readSummaryProjection in E. destruct (trafficOnly && _ && _); [done|]. set (resolution := summaryResolution s by_) in *.
  assert (hourStart (sel_Start s) = hour) as Hh by (apply hourStart_in; [done|lia]). rewrite Hh in E.
  destruct ((resolution =? 0) || _) eqn:Er; [done|]. apply orb_false_iff in Er as [Er0 Er1]. z_bool.
  destruct (negb (summaryEligible m hour trafficOnly)) eqn:Ee; [done|]. apply negb_false_iff in Ee. destruct (Hex _ Ee) as [X1 X2].
  destruct (negb trafficOnly && negb _); [done|]. apply ebind_Ok in E as (rows' & E & [= <-]). unfold readSumQuery in E. apply ebind_Ok in E as (out & E & [= <-]).
  unfold summarySumQueryFor in E. apply ebind_Ok in E as (b1 & E1 & E). apply ebind_Ok in E as (rs & Er & E). apply ebind_Ok in E as (b2 & E2 & E). apply ebind_Ok in E as (sums & Es & [= <-]).
  destruct (by_ =? 0) eqn:Eb; z_bool; [done|]. cbn [negb andb] in Er.
  assert (resolution = windowSec \/ resolution = rollupHour) as Hres.
  { unfold resolution, summaryResolution in *. destruct (_ || _ || _ || _); [done|]. destruct (_ =? _)%nat; [done|]. destruct (by_has by_ GroupByWindow); [destruct (_ && _); [by left|done]|].
    destruct (forallb _ _); [by right|]. destruct (by_has by_ GroupByName); [done|]. destruct (forallb _ _); [by right|done]. }
  assert (within_hour s resolution hour) as Hw.
  { split_and!; try done; try lia; intros Hr; rewrite Hr in Er1; change (rollupHour =? rollupHour) with true in Er1; cbn [andb] in Er1;
      apply orb_false_iff in Er1 as [Ea Eb']; apply negb_false_iff in Ea, Eb'; z_bool; lia. }
  assert (summary_exact m hour resolution) as Hx by (destruct Hres as [->| ->]; done).
  destruct (summary_cells m s by_ resolution hour eq_refl Er0 Hw Hx) as [C1 C2].
  assert (forall v, sv_ints (mask trafficOnly v) = sv_ints v) as Hmask by (intros v; by destruct trafficOnly).
  destruct (regroup_spec (su_file m) Hok s by_ (negb (by_has by_ GroupByWindow)) (sf_log (su_file m)) b2 (mask trafficOnly) Hp ltac:(by intros ?%negb_true_iff) Hmask ltac:(by rewrite Er)) as [B1 B2].
  destruct (sum_groups_spec _ _ _ E1) as (_ & S2 & S3 & _).
  apply (grouped_answers (su_file m) (tables_cells (su_file m)) s by_ (b1 ++ b2) sums (mask trafficOnly) Hok); [by intros x [?|?]%elem_of_app; eexists|done| | |done].
  - intros g. rewrite fmap_app, elem_of_app, B1. unfold tables_cells. rewrite exists_app, <- C2, S2. apply or_iff_compat_r. split.
    + intros ([g' v] & -> & ([k row] & [= -> ->] & [Hsel Hin]%list_elem_of_filter)%list_elem_of_fmap)%list_elem_of_fmap. apply elem_of_map_to_list in Hin. cbn [fst] in Hsel.
      rewrite (cell_selected_class _ _ hour) in Hsel by done. apply andb_true_iff in Hsel as [Ho Hm]. exists k. split_and!; [by eexists|done|].
      unfold chosen_class. rewrite Hm. by apply bool_decide_eq_true_2.
    + intros (k & [row Hk] & Ho & Hc). unfold chosen_class in Hc. apply andb_true_iff in Hc as [Hm Hg%bool_decide_eq_true]. apply list_elem_of_fmap. eexists (_, _). split; [|apply list_elem_of_fmap; exists (k, row); split; [done|]].
      * cbn [fst]. by rewrite cell_group_class.
      * apply list_elem_of_filter. split; [|by apply elem_of_map_to_list]. cbn [fst]. rewrite (cell_selected_class _ _ hour) by done. by rewrite Ho, Hm.
  - intros fld psi. unfold tables_cells. rewrite cells_sum_app, <- B2, <- C1. unfold gsum. rewrite list_sum_app. apply eq64_add; [|done].
    pose proof (S3 (col_of fld) psi ltac:(destruct fld; cbn; lia)) as Hs3. unfold gsum in Hs3. rewrite Hs3, list_sum_fmap, list_sum_filter. apply eq64_eq, list_sum_ext. intros [k row] _. cbn [fst snd].
    rewrite (cell_selected_class _ _ hour) by done. rewrite cell_group_class. unfold chosen_class. unfold sv_at at 1. rewrite Hmask. fold (sv_at (col_of fld) (sr_scalar row)).
    destruct (of_hour resolution hour k), (matches s (class_cell (key_class k))), (psi _); cbn [andb]; case_decide; done.
Qed.

(** ** Every path of a snapshot *)

(** Derived tables that are what their marks say. *)
Record derived_ok `{Sqlite} (m : SummaryFile) : Prop := {
  do_series : series_ok (su_file m);
  do_aligned : hourly_aligned (su_rollup m);
  do_complete hour h : ru_owner (su_rollup m) = Some (ru_uuid (su_rollup m)) -> ru_hours (su_rollup m) !! hour = Some h -> rh_state h = 2 ->
    forall sid, rolls (su_file m) hour sid (ru_hourly (su_rollup m) !! (hour, sid));
  do_summary hour c : summaryEligible m hour c = true -> summary_exact m hour windowSec /\ summary_exact m hour rollupHour;
}.

Lemma sources_tables f s by_ hourly : sources_cells f (history_sources f hourly s by_ false) = tables_cells f.
Proof. unfold sources_cells, history_sources, tables_cells. cbn [andb mbind list_bind snd]. by rewrite app_nil_r. Qed.

Section Snapshots.
Context `{Sqlite} `{SqlSum}.
Variable m : SummaryFile.
Hypothesis Hok : derived_ok m.

Lemma sums_of_answers s by_ trafficOnly rows hour : plain_selector s -> by_ <> 0 -> hourStart hour = hour -> hour <= sel_Start s -> sel_Start s < sel_End s <= hour + rollupHour ->
  sums_of m s by_ trafficOnly = fine rows -> answers (tables_cells (su_file m)) s by_ rows.
Proof.
  intros Hp Hby Ha H1 H2 E. unfold sums_of in E. apply ebind_Ok in E as ([part|] & Ep & E).
  - injection E as <-. by eapply (projection_answers m s by_ trafficOnly part hour); [apply Hok|..|intros c Hc; by apply (do_summary m Hok hour c)|].
  - apply history_answers in E; [|apply Hok|done|done]. by rewrite sources_tables in E.
Qed.

Lemma range_answers s by_ rows r : plain_selector s -> by_ <> 0 -> by_has by_ GroupByWindow = false -> iv_lo r < iv_hi r ->
  (iv_rolled r = true -> hour_rolled (su_rollup m) s false (iv_lo r) = true /\ iv_hi r = iv_lo r + rollupHour /\ hourStart (iv_lo r) = iv_lo r) ->
  range_sums m s by_ r = fine rows -> answers (tables_cells (su_file m)) (set_range s (iv_lo r) (iv_hi r)) by_ rows.
Proof.
  intros Hp Hby Hw Hlt Hr E. set (chunk := set_range s (iv_lo r) (iv_hi r)). assert (plain_selector chunk) as Hpc by (by destruct Hp).
  unfold range_sums in E. fold chunk in E. destruct (iv_rolled r) eqn:Er.
  - destruct (Hr eq_refl) as (Hroll & Hhi & Ha). assert (exact_hour chunk (iv_lo r)) as Hex by (split_and!; [done|by cbn|done]).
    apply ebind_Ok in E as ([part|] & Ep & E).
    + injection E as <-. eapply (projection_answers m chunk by_ false part (iv_lo r)); [apply Hok|done|done|done|cbn; lia|cbn; lia|intros c Hc; by apply (do_summary m Hok _ c)|done].
    + apply history_answers in E; [|apply Hok|done|done]. unfold history_sources in E. rewrite Hw in E.
      assert (sel_SketchOnly chunk = false) as Hso by apply Hpc. rewrite Hso in E. cbn [chunk sel_Start sel_End set_range negb andb] in E. rewrite Ha, Z.eqb_refl in E. cbn [andb] in E.
      replace (iv_hi r - iv_lo r) with rollupHour in E by lia. rewrite Z.eqb_refl in E. unfold sources_cells in E. cbn [mbind list_bind snd] in E. rewrite app_nil_r in E.
      unfold hour_rolled in Hroll. apply andb_true_iff in Hroll as [[[Hroll _]%andb_true_iff _]%andb_true_iff Hown%bool_decide_eq_true].
      destruct (ru_hours (su_rollup m) !! iv_lo r) as [h|] eqn:Eh; [|done]. apply andb_true_iff in Hroll as [Hst _]. z_bool.
      destruct (hourly_cells (su_rollup m) chunk by_ (iv_lo r) (do_aligned m Hok) Hex Hw (do_complete m Hok _ _ Hown Eh Hst)) as [C1 C2].
      apply (answers_same _ _ _ _ _ E).
      * intros fld psi. unfold tables_cells. rewrite !cells_sum_app. apply eq64_add; [apply C1|done].
      * intros g. unfold tables_cells. rewrite !exists_app. apply or_iff_compat_r, C2.
  - cbn [ebind fine] in E. apply history_answers in E; [|apply Hok|done|done]. by rewrite sources_tables in E.
Qed.

Lemma rollup_snapshot_answers s by_ rows : plain_selector s -> by_ <> 0 -> by_has by_ GroupByWindow = false -> sel_Start s < sel_End s ->
  sumRollupSnapshot m s by_ = fine rows -> answers (tables_cells (su_file m)) s by_ rows.
Proof.
  intros Hp Hby Hw Hlt E. unfold sumRollupSnapshot in E. apply ebind_Ok in E as (out & E & [= <-]).
  destruct (rollup_ranges_spans (su_rollup m) s false Hlt) as [Hs Hr]. destruct (join_spans _ _ _ _ [] (spans_nil _) Hs) as [Hj1 Hj2].
  set (ranges := foldl join_interval [] (rollup_ranges (su_rollup m) s false)) in *.
  assert (forall r, r ∈ ranges -> iv_rolled r = true -> hour_rolled (su_rollup m) s false (iv_lo r) = true /\ iv_hi r = iv_lo r + rollupHour /\ hourStart (iv_lo r) = iv_lo r) as Hrr.
  { intros r Hin Hrl. destruct (Hj2 r Hin Hrl) as [?%elem_of_nil|?]; [done|by apply Hr]. }
  assert (forall r, r ∈ ranges -> iv_lo r < iv_hi r) as Hll.
  { clear - Hj1. intros r Hin. induction Hj1 as [|r0 hi rest Hlt Hs IH]; [by apply elem_of_nil in Hin|]. apply elem_of_cons in Hin as [->|Hin]; [done|by apply IH]. }
  assert (exists results, out = foldl (fun acc part => foldl mergeSumRow acc part) ([], ∅) results /\
    Forall2 (fun r part => answers (tables_cells (su_file m)) (set_range s (iv_lo r) (iv_hi r)) by_ part) ranges results) as (results & -> & HF).
  { revert E. apply (exec_foldl_ind (fun done_ out => exists results, out = foldl (fun acc part => foldl mergeSumRow acc part) ([], ∅) results /\
      Forall2 (fun r part => answers (tables_cells (su_file m)) (set_range s (iv_lo r) (iv_hi r)) by_ part) done_ results)); [by exists []|].
    intros done_ r s1 s2 Hin (results & -> & HF) (part & Ep & [= <-])%ebind_Ok. exists (results ++ [part]). split; [by rewrite foldl_app|].
    apply Forall2_app; [done|]. constructor; [|constructor]. apply range_answers; auto. }
  pose proof (spans_gathers _ _ s _ _ _ Hj1 _ HF) as HG. assert (set_range s (sel_Start s) (sel_End s) = s) as Hself by (by destruct s). rewrite Hself in HG.
  rewrite <- foldl_mjoin. by apply gathers_merged.
Qed.

(** Chunks by the hour, one after the other. *)
Lemma window_chunks_chain s fuel : forall start, start < sel_End s -> sel_End s - hourStart start <= Z.of_nat fuel * rollupHour ->
  chain s start (sel_End s) (window_chunks fuel s start) /\
  (forall c, c ∈ window_chunks fuel s start -> exists hour, hourStart hour = hour /\ hour <= sel_Start c /\ sel_Start c < sel_End c <= hour + rollupHour).
Proof.
  induction fuel as [|fuel IH]; intros start Hlt Hf; [pose proof (hourStart_bounds start); lia|]. cbn [window_chunks].
  destruct (start <? sel_End s) eqn:E; z_bool; [|lia]. pose proof (hourStart_bounds start) as [Hb Hid]. destruct (rollupHour <? sel_End s - hourStart start) eqn:E2; z_bool.
  - assert (hourStart (hourStart start + rollupHour) = hourStart start + rollupHour) as Hn by (rewrite !hourStart_eq in *; change rollupHour with 3600 in *; zlia).
    destruct (IH (hourStart start + rollupHour)) as [I1 I2]; [lia|rewrite Hn; lia|]. split; [constructor; [lia|done]|].
    intros c [->|Hc]%elem_of_cons; [|by apply I2]. exists (hourStart start). cbn. split_and!; [done|lia|lia|lia].
  - assert (window_chunks fuel s (sel_End s) = []) as -> by (destruct fuel; [done|]; cbn; by rewrite Z.ltb_irrefl). split; [by constructor|].
    intros c [->|?%elem_of_nil]%elem_of_cons; [|done]. exists (hourStart start). cbn. split_and!; [done|lia|lia|lia].
Qed.

(** Rows of chunks that are grouped by window have distinct groups. *)
Lemma chain_distinct cells by_ s lo hi chunks : by_has by_ GroupByWindow = true -> chain s lo hi chunks -> forall results,
  Forall2 (fun chunk rows => answers cells chunk by_ rows) chunks results ->
  NoDup (sumGroupKey <$> mjoin results) /\ (forall r, r ∈ mjoin results -> lo <= sr_WindowStart r < hi).
Proof.
  intros Hw. assert (forall a b rows, answers cells (set_range s a b) by_ rows -> forall r, r ∈ rows -> a <= sr_WindowStart r < b) as Hwin.
  { intros a b rows [_ A2 _ _] r Hr. destruct (proj1 (A2 (sumGroupKey r)) ltac:(by apply list_elem_of_fmap_2)) as (x & _ & Hm & Hg).
    rewrite matches_range in Hm. apply andb_true_iff in Hm as [[E1 E2]%andb_true_iff _]. z_bool. unfold cell_group, sumGroupKey in Hg. rewrite Hw in Hg. injection Hg as Hg _ _ _. lia. }
  induction 1 as [lo hi Hlt|lo mid hi rest Hlt Hch IH]; intros results HF.
  - apply Forall2_cons_inv_l in HF as (rows & rest' & HA & HF & ->). apply Forall2_nil_inv_l in HF as ->. cbn [mjoin list_join]. rewrite app_nil_r.
    split; [apply HA|by apply Hwin].
  - apply Forall2_cons_inv_l in HF as (rows & rest' & HA & HF & ->). destruct (IH _ HF) as [I1 I2]. destruct (chain_gathers _ _ _ _ _ _ Hch _ HF) as [Hmh _].
    cbn [mjoin list_join]. fold (mjoin (M := list) (A := SumRow)). split.
    + rewrite fmap_app. apply NoDup_app. split_and!; [apply HA| |done]. intros g (r1 & -> & H1)%list_elem_of_fmap (r2 & He & H2)%list_elem_of_fmap.
      pose proof (Hwin _ _ _ HA r1 H1). pose proof (I2 r2 H2). unfold sumGroupKey in He. injection He as He _ _ _. lia.
    + intros r [Hr|Hr]%elem_of_app; [pose proof (Hwin _ _ _ HA r Hr); lia|pose proof (I2 r Hr); lia].
Qed.

Lemma window_snapshot_answers s by_ trafficOnly rows : plain_selector s -> by_ <> 0 -> by_has by_ GroupByWindow = true -> sel_Start s < sel_End s ->
  sumWindowSnapshotFor m s by_ trafficOnly = fine rows -> answers (tables_cells (su_file m)) s by_ rows.
Proof.
  intros Hp Hby Hw Hlt E. unfold sumWindowSnapshotFor, chunks_of in E. set (fuel := S _) in E.
  destruct (window_chunks_chain s fuel (sel_Start s) Hlt) as [Hch Hin].
  { unfold fuel. pose proof (hourStart_bounds (sel_Start s)) as [Hb _]. change rollupHour with 3600 in *. pose proof (Z.div_mod (sel_End s - sel_Start s) 3600 ltac:(lia)).
    pose proof (Z.mod_pos_bound (sel_End s - sel_Start s) 3600 ltac:(lia)). rewrite Nat2Z.inj_succ, Z2Nat.id by (pose proof (Z.div_pos (sel_End s - sel_Start s) 3600 ltac:(lia) ltac:(lia)); lia). lia. }
  pose proof (chain_plain _ _ _ _ Hp Hch) as Hpl. rewrite Forall_forall in Hpl.
  assert (exists results, rows = mjoin results /\ Forall2 (fun chunk rows => answers (tables_cells (su_file m)) chunk by_ rows) (window_chunks fuel s (sel_Start s)) results) as (results & -> & HF).
  { revert E. apply (exec_foldl_ind (fun done_ out => exists results, out = mjoin results /\ Forall2 (fun chunk rows => answers (tables_cells (su_file m)) chunk by_ rows) done_ results)); [by exists []|].
    intros done_ c s1 s2 Hc (results & -> & HF) (part & Ep & [= <-])%ebind_Ok. exists (results ++ [part]). split; [by rewrite join_app; cbn [mjoin list_join]; rewrite app_nil_r|].
    apply Forall2_app; [done|]. constructor; [|constructor]. destruct (Hin c Hc) as (hour & ? & ? & ?). eapply sums_of_answers; eauto. }
  destruct (chain_gathers _ _ _ _ _ _ Hch _ HF) as [_ [G1 G2 G3]]. assert (set_range s (sel_Start s) (sel_End s) = s) as Hself by (by destruct s). rewrite Hself in G1, G2.
  destruct (chain_distinct _ _ _ _ _ _ Hw Hch _ HF) as [Hd _]. by constructor.
Qed.

Lemma Validate_range s n : Validate s = fine n -> sel_Start s < sel_End s.
Proof.
  unfold Validate. destruct (_ && _ && _); [done|]. destruct ((sel_Start s <=? 0) || (sel_End s <=? 0) || (sel_End s <=? sel_Start s)) eqn:E; [done|].
  intros _. apply orb_false_iff in E as [_ E]. z_bool. lia.
Qed.

Lemma snapshot_sums s by_ rows : plain_selector s -> by_ <> 0 -> SumBuckets m s by_ = fine rows -> answers (tables_cells (su_file m)) s by_ rows.
Proof.
  intros Hp Hby E. unfold SumBuckets, sumSQLiteSnapshot in E. apply ebind_Ok in E as (n & Hv & E). rewrite Hv in E. cbn [ebind fine] in E.
  pose proof (Validate_range _ _ Hv) as Hlt. destruct Hp as [Hp1 Hp2]. rewrite Hp2 in E.
  destruct (by_has by_ GroupByWindow) eqn:Ew; [by apply (window_snapshot_answers s by_ false)|by apply rollup_snapshot_answers].
Qed.

End Snapshots.
