(* ===== verification/SummaryBuild.v ===== *)
(** * SummaryBuild: the worker that fills the service summaries ([internal/aggregate/service_summary.go])

    A build claims a complete hour under a token, deletes what an earlier build
    left, walks the series in the order of their identity index and appends the
    cells of each service as it is left behind; every slice reads one snapshot
    and writes one transaction.  Cleanup runs under tokens of its own. *)
From stdpp Require Import sorting strings.
From S2P Require Import Prelude Float64 SeriesKey Dict Registrar Identity Gc.
From S2P Require Import Sketch SketchCodec Histogram Delta Limiter Baseline Engine StoreRows StoreTables StoreReads Query Rollup ServiceSummary.
#[local] Open Scope Z_scope.

(** ** The series in the order of their identities *)

(** (a, b, ...) < (x, y, ...) *)
Fixpoint lex_lt (a b : list Z) : bool :=
  match a, b with
  | x :: a, y :: b => (x <? y) || (x =? y) && lex_lt a b
  | _, [] => false
  | [], _ => true
  end.

Definition id_le (a b : Z * list Z) : Prop := lex_lt b.2 a.2 = false.

#[global] Instance id_le_dec a b : Decision (id_le a b).
Proof. unfold id_le. apply _. Defined.

(** A row of the index: the series and its ten columns. *)
Abbreviation summaryIdentity := (Z * list Z)%type (only parsing).

Definition past (after : option (list Z)) (k : list Z) : bool := match after with None => true | Some a => lex_lt a k end.

(** The rows after the cursor. *)
(* internal/aggregate/service_summary.go:102-113 summaryIdentityQuery *)
Definition summaryIdentityQuery (f : StoreFile) (after : option (list Z)) : list summaryIdentity :=
  merge_sort id_le (filter (fun p : Z * list Z => past after p.2 = true) (map_to_list (sf_series f))).

(* internal/aggregate/service_summary.go:115-131 summaryIdentities *)
Definition summaryIdentities (f : StoreFile) (after : option (list Z)) (limit : nat) : list summaryIdentity := take limit (summaryIdentityQuery f after).

(** ** Scalars *)

(* internal/aggregate/service_summary.go:226-239 summaryScalar.add *)
Definition scalar_add (a b : summaryScalar) : exec summaryScalar :=
  let! counts := exec_foldl (fun out p => if (p.2 <? 0) || (MaxInt64 - p.2 <? p.1) then oops ErrSummaryInput else fine (out ++ [p.1 + p.2])) []
    (combine (sc_counts a) (sc_counts b)) in
  let sum := fadd (sc_sum a) (sc_sum b) in
  if f_is_nan sum || f_is_inf sum then oops ErrSummaryInput else fine (mkScalar counts sum true).

(** The values of a row; all its points when its identity is an overflow. *)
(* internal/aggregate/service_summary.go:240-246 scanSummaryScalar *)
Definition scanSummaryScalar (other : bool) (row : list sql_value) : summaryScalar :=
  let v := row_values row in
  mkScalar (sv_ints v ++ [if other then default 0 (sv_ints v !! 0%nat) else 0]) (sv_real v) true.

(** ** A service *)

(** The accumulators of the service the build is at; [None] between services. *)
(* internal/aggregate/service_summary.go:262-276 summaryBuild *)
Record service_acc := mkAcc {
  sa_tenant : Z; sa_service : Z; sa_name : Z;
  sa_windows : list summaryScalar;
  sa_trace : summaryScalar; sa_logs : summaryScalar; sa_edge : summaryScalar;
  sa_sketch : option Sketch;
  sa_unsafe : bool;
}.

Definition new_acc (tenant service name : Z) : service_acc :=
  mkAcc tenant service name (replicate 12 no_scalar) no_scalar no_scalar no_scalar None false.
Definition set_name (g : service_acc) (name : Z) : service_acc :=
  mkAcc (sa_tenant g) (sa_service g) name (sa_windows g) (sa_trace g) (sa_logs g) (sa_edge g) (sa_sketch g) (sa_unsafe g).
Definition set_windows_of (g : service_acc) (w : list summaryScalar) : service_acc :=
  mkAcc (sa_tenant g) (sa_service g) (sa_name g) w (sa_trace g) (sa_logs g) (sa_edge g) (sa_sketch g) (sa_unsafe g).
Definition set_scalars (g : service_acc) (trace logs edge : summaryScalar) : service_acc :=
  mkAcc (sa_tenant g) (sa_service g) (sa_name g) (sa_windows g) trace logs edge (sa_sketch g) (sa_unsafe g).
Definition set_sketch_of (g : service_acc) (s : option Sketch) (unsafe : bool) : service_acc :=
  mkAcc (sa_tenant g) (sa_service g) (sa_name g) (sa_windows g) (sa_trace g) (sa_logs g) (sa_edge g) s unsafe.

(** A row to insert. *)
Abbreviation summaryCell := (summary_key * summary_row)%type (only parsing).

(* internal/aggregate/service_summary.go:449-451 summaryBuild.cell *)
Definition build_cell (hour : Z) (g : service_acc) (signal resolution window name : Z) (a : summaryScalar) (sketch : Z * option bytes * option bytes) : summaryCell :=
  (mkSummaryKey hour resolution (sa_tenant g) signal (sa_service g) name window,
   mkSummaryRow (mkSumValues (sc_counts a) (sc_sum a)) sketch.1.1 sketch.1.2 sketch.2).

Definition no_sketch : Z * option bytes * option bytes := (0, None, None).

(** The cell of a scalar that is present. *)
Definition present_cell (hour : Z) (g : service_acc) (signal resolution window name : Z) (a : summaryScalar) (sketch : Z * option bytes * option bytes) : list summaryCell :=
  if sc_present a then [build_cell hour g signal resolution window name a sketch] else [].

(** The edge and its cell, flushed when the name changes. *)
(* internal/aggregate/service_summary.go:452-457 summaryBuild.flushEdge *)
Definition flushEdge (hour : Z) (g : service_acc) : service_acc * list summaryCell :=
  (set_scalars g (sa_trace g) (sa_logs g) no_scalar,
   present_cell hour g SignalServiceEdge rollupHour hour (sa_name g) (sa_edge g) no_sketch).

(** The state of the sketch: 2 unsafe, 1 stored, 0 none. *)
Definition sketch_state (g : service_acc) : option (Z * option bytes * option bytes) :=
  if sa_unsafe g then Some (2, None, None)
  else
    match sa_sketch g with
    | None => Some no_sketch
    | Some s => '(low, high, safe) ← encodeSummarySketch (Some s); Some (if (safe : bool) then 1 else 2, low, high)
    end.

(** Every cell of the service; the service is left. *)
(* internal/aggregate/service_summary.go:458-493 summaryBuild.flushService *)
Definition flushService (hour : Z) (g : option service_acc) : exec (list summaryCell) :=
  match g with
  | None => fine []
  | Some g =>
      let '(g, edge) := flushEdge hour g in
      let windows := mjoin (imap (fun i a => present_cell hour g SignalTraceOp windowSec (hour + Z.of_nat i * windowSec) 0 a no_sketch) (sa_windows g)) in
      let! sketch := (if sc_present (sa_trace g) then lift (sketch_state g) else fine no_sketch) in
      fine (edge ++ windows ++ present_cell hour g SignalTraceOp rollupHour hour 0 (sa_trace g) sketch ++
            present_cell hour g SignalLog rollupHour hour 0 (sa_logs g) no_sketch)
  end.

(** ** A series *)

(** The budgets of exact sums: those of the hourly rows and of the windows. *)
Record sum_budget := mkBudget { bu_hourly : Z; bu_window : Z; bu_unsafe : bool }.

Definition charge_hourly (b : sum_budget) (x : f64) : sum_budget :=
  match summaryExactSum (bu_hourly b) x with Some t => mkBudget t (bu_window b) (bu_unsafe b) | None => mkBudget (bu_hourly b) (bu_window b) true end.
Definition charge_window (b : sum_budget) (x : f64) : sum_budget :=
  match summaryExactSum (bu_window b) x with Some t => mkBudget (bu_hourly b) t (bu_unsafe b) | None => mkBudget (bu_hourly b) (bu_window b) true end.

(** The sketch of an hourly row merged into the service's. *)
(* internal/aggregate/service_summary.go:541-568 summaryBuild.consume *)
Definition take_sketch (g : service_acc) (safe : bool) (row : list sql_value) : exec service_acc :=
  let unsafe := sa_unsafe g || negb safe in
  match row !! 17%nat with
  | Some (VBlob blob) =>
      let! sk := decode_part blob in
      if unsafe || negb (summarySketchSafe (Some sk)) then fine (set_sketch_of g (sa_sketch g) true)
      else
        let s := default NewSketch (sa_sketch g) in
        if MaxUint64 - sk_count s <? sk_count sk then fine (set_sketch_of g (Some s) true)
        else let! m := lift (Merge s (Some sk)) in fine (set_sketch_of g (Some m) (negb (summarySketchSafe (Some m))))
  | _ => fine (set_sketch_of g (sa_sketch g) unsafe)
  end.

(** One bucket of a trace series in its window. *)
(* internal/aggregate/service_summary.go:574-594 summaryBuild.consume *)
Definition take_window (f : StoreFile) (hour sid : Z) (other : bool) (st : service_acc * sum_budget) (w : Z) : exec (service_acc * sum_budget) :=
  match sf_buckets f !! (w, sid) with
  | None => fine st
  | Some row =>
      if negb (Z.rem (w - hour) windowSec =? 0) then oops ErrSummaryInput
      else
        let a := scanSummaryScalar other row in
        let i := Z.to_nat (Z.quot (w - hour) windowSec) in
        match sa_windows st.1 !! i with
        | None => None
        | Some acc => let! acc := scalar_add acc a in fine (set_windows_of st.1 (<[i := acc]> (sa_windows st.1)), charge_window st.2 (sc_sum a))
        end
  end.

(** What the hourly row of a series, and its buckets, add to its service. *)
(* internal/aggregate/service_summary.go:504-545 summaryBuild.consume *)
Definition take_series (r : RollupFile) (hour : Z) (g : service_acc) (b : sum_budget) (id : summaryIdentity) : exec (service_acc * sum_budget) :=
  let f := ru_file r in
  let signal := series_col id.2 4 in
  if negb ((signal =? SignalTraceOp) || (signal =? SignalLog) || (signal =? SignalServiceEdge)) then fine (g, b)
  else
    match ru_hourly r !! (hour, id.1) with
    | None => fine (g, b)
    | Some row =>
        let other := other_identity f id.2 in
        let a := scanSummaryScalar other row in
        let b := charge_hourly b (sc_sum a) in
        if signal =? SignalLog then let! l := scalar_add (sa_logs g) a in fine (set_scalars g (sa_trace g) l (sa_edge g), b)
        else if signal =? SignalServiceEdge then let! e := scalar_add (sa_edge g) a in fine (set_scalars g (sa_trace g) (sa_logs g) e, b)
        else
          let! t := scalar_add (sa_trace g) a in
          let g := set_scalars g t (sa_logs g) (sa_edge g) in
          match ru_hours r !! hour with
          | None => oops ErrDriver
          | Some h =>
              let! g := take_sketch g (rh_safe h) row in
              exec_foldl (take_window f hour id.1 other) (g, b) (windows_of f hour id.1)
          end
    end.

(** The service of the series before, left when another one starts. *)
Definition enter (hour : Z) (g : option service_acc) (id : summaryIdentity) : exec (service_acc * list summaryCell) :=
  let tenant := series_col id.2 0 in let service := series_col id.2 1 in let name := series_col id.2 2 in
  match g with
  | Some a =>
      if negb (sa_tenant a =? tenant) || negb (sa_service a =? service) then
        let! cells := flushService hour g in fine (new_acc tenant service name, cells)
      else if negb (sa_name a =? name) then let '(a, cells) := flushEdge hour a in fine (set_name a name, cells)
      else fine (a, [])
  | None => fine (new_acc tenant service name, [])
  end.

(** ** A build *)

(* internal/aggregate/service_summary.go:262-276 summaryBuild *)
Record summaryBuild := mkBuild {
  sb_hour : Z;
  sb_uuid : string; sb_source : string; sb_token : string;
  sb_cleaning : bool; sb_done : bool; sb_failed : bool;
  sb_after : option (list Z);
  sb_group : option service_acc;
  sb_pending : list summaryCell;
  sb_budget : sum_budget;
}.

Definition with_flags (c : summaryBuild) (cleaning done_ failed : bool) : summaryBuild :=
  mkBuild (sb_hour c) (sb_uuid c) (sb_source c) (sb_token c) cleaning done_ failed (sb_after c) (sb_group c) (sb_pending c) (sb_budget c).
Definition with_walk (c : summaryBuild) after group pending budget : summaryBuild :=
  mkBuild (sb_hour c) (sb_uuid c) (sb_source c) (sb_token c) (sb_cleaning c) (sb_done c) (sb_failed c) after group pending budget.

(* internal/aggregate/service_summary.go:494-594 summaryBuild.consume *)
Definition consume (r : RollupFile) (c : summaryBuild) (id : summaryIdentity) : exec summaryBuild :=
  let! (g, cells) := enter (sb_hour c) (sb_group c) id in
  let! (g, b) := take_series r (sb_hour c) g (sb_budget c) id in
  fine (with_walk c (Some id.2) (Some g) (sb_pending c ++ cells) b).

(** The hour is complete under a current source, and not summarized yet. *)
(* internal/aggregate/service_summary.go:278-311 SQLiteStore.claimSummaryBuild *)
Definition claimSummaryBuild (m : SummaryFile) (uuid : string) (hour : Z) (token : string) : exec (SummaryFile * summaryBuild) :=
  if negb (String.eqb (ru_uuid (su_rollup m)) uuid) then oops ErrRollupInvalidated
  else
    match ru_hours (su_rollup m) !! hour with
    | Some h =>
        if negb (rh_state h =? 2) then oops ErrRollupInvalidated
        else if summaryEligible m hour true then oops ErrRollupInvalidated
        else fine (set_su_hours m (<[hour := mkSummaryHour 1 token (rh_build h)]> (su_hours m)),
                   mkBuild hour uuid (rh_build h) token true false false None None [] (mkBudget 0 0 false))
    | None => oops ErrRollupInvalidated
    end.

(** Both marks are the build's and everything belongs to its store. *)
Definition build_current (m : SummaryFile) (c : summaryBuild) : bool :=
  match su_hours m !! sb_hour c, ru_hours (su_rollup m) !! sb_hour c with
  | Some mh, Some rh =>
      (mh_state mh =? 1) && String.eqb (mh_build mh) (sb_token c) && String.eqb (mh_source mh) (sb_source c) && (rh_state rh =? 2) && String.eqb (rh_build rh) (sb_source c)
  | _, _ => false
  end && String.eqb (ru_uuid (su_rollup m)) (sb_uuid c) && bool_decide (ru_owner (su_rollup m) = Some (sb_uuid c)) && bool_decide (su_owner m = Some (sb_uuid c)).

(* internal/aggregate/service_summary.go:312-323 checkSummaryBuild *)
Definition checkSummaryBuild (m : SummaryFile) (c : summaryBuild) : exec unit := if build_current m c then fine tt else oops ErrRollupInvalidated.

(** The rows of an hour, at most [limit] of them, and how many; which ones a
    LIMIT takes is not specified. *)
(* internal/aggregate/service_summary.go:327-333 deleteSummaryBatch *)
Definition deleteSummaryBatch (m : SummaryFile) (hour : Z) (limit : Z) : SummaryFile * Z :=
  let keys := take (Z.to_nat limit) (filter (fun k => ck_hour k = hour) (elements (dom (su_cells m)))) in
  (set_su_cells m (foldl (fun t k => delete k t) (su_cells m) keys), Z.of_nat (length keys)).

Definition in_allowance (allowance : Z) : Z := if (allowance <? 1) || (rollupBatch <? allowance) then rollupBatch else allowance.

(** The transaction of a cleaning slice. *)
(* internal/aggregate/service_summary.go:353-368 SQLiteStore.summaryBuildSlice *)
Definition summary_clean (m : SummaryFile) (c : summaryBuild) (allowance : Z) : exec (SummaryFile * summaryBuild) :=
  let! _ := checkSummaryBuild m c in
  let '(m, n) := deleteSummaryBatch m (sb_hour c) allowance in
  fine (m, with_flags c (n =? allowance) (sb_done c) (sb_failed c)).

(** A bucket of the hour off the grid of windows. *)
(* internal/aggregate/service_summary.go:377-390 SQLiteStore.summaryBuildSlice *)
Definition off_grid (f : StoreFile) (hour : Z) : bool :=
  existsb (fun k => existsb (fun i => (hour + Z.of_nat i * windowSec <? k.1) && (k.1 <? hour + Z.of_nat i * windowSec + windowSec)) (seq 0 12)) (elements (dom (sf_buckets f))).

(** [clock]: how many series are consumed before the slice is out of time. *)
(* internal/aggregate/service_summary.go:396-405 SQLiteStore.summaryBuildSlice *)
Fixpoint consume_all (r : RollupFile) (clock : nat) (c : summaryBuild) (ids : list summaryIdentity) : exec summaryBuild :=
  match ids, clock with
  | id :: ids, S clock =>
      if rollupBatch - 16 <? Z.of_nat (length (sb_pending c)) then fine c
      else let! c := consume r c id in consume_all r clock c ids
  | _, _ => fine c
  end.

(** The snapshot of a slice: the series consumed, and whether none was left. *)
(* internal/aggregate/service_summary.go:370-411 SQLiteStore.summaryBuildSlice *)
Definition summary_read (m : SummaryFile) (c : summaryBuild) (allowance : Z) (clock : nat) : exec (summaryBuild * bool) :=
  let! _ := checkSummaryBuild m c in
  let f := ru_file (su_rollup m) in
  if match sb_after c with None => off_grid f (sb_hour c) | Some _ => false end then oops ErrSummaryInput
  else
    let ids := summaryIdentities f (sb_after c) (Z.to_nat allowance) in
    let! c := consume_all (su_rollup m) clock c ids in
    match ids with
    | [] => let! cells := flushService (sb_hour c) (sb_group c) in fine (with_walk c (sb_after c) None (sb_pending c ++ cells) (sb_budget c), true)
    | _ => fine (c, false)
    end.

(** INSERT of one cell *)
Definition insert_cell (t : gmap summary_key summary_row) (p : summaryCell) : exec (gmap summary_key summary_row) :=
  if bool_decide (is_Some (t !! p.1)) then oops ErrConstraint else fine (<[p.1 := p.2]> t).

(** The transaction of a slice. *)
(* internal/aggregate/service_summary.go:415-440 SQLiteStore.summaryBuildSlice *)
Definition summary_write (m : SummaryFile) (c : summaryBuild) (done_ : bool) : exec SummaryFile :=
  let! _ := checkSummaryBuild m c in
  let! cells := exec_foldl insert_cell (su_cells m) (sb_pending c) in
  let hours := if done_ then <[sb_hour c := mkSummaryHour (if bu_unsafe (sb_budget c) then summaryArithmeticFallback else 2) (sb_token c) (sb_source c)]> (su_hours m) else su_hours m in
  fine (set_su_hours (set_su_cells m cells) hours).

(** The build after a transaction that was committed. *)
Definition written (c : summaryBuild) (done_ : bool) : summaryBuild :=
  with_flags (with_walk c (sb_after c) (sb_group c) [] (sb_budget c)) (sb_cleaning c) done_ (sb_failed c).

(** A slice with nothing in between; an error poisons the build. *)
(* internal/aggregate/service_summary.go:338-447 SQLiteStore.summaryBuildSlice *)
Definition summaryBuildSlice (m : SummaryFile) (c : summaryBuild) (allowance : Z) (clock : nat)
    : option (SummaryFile * summaryBuild * result store_error bool) :=
  if sb_failed c || sb_done c then Some (m, c, Err ErrRollupInvalidated)
  else
    let allowance := in_allowance allowance in
    let poisoned e := Some (m, with_flags c (sb_cleaning c) (sb_done c) true, Err e) in
    if sb_cleaning c then
      match summary_clean m c allowance with
      | Some (Ok (m, c)) => Some (m, c, Ok false)
      | Some (Err e) => poisoned e
      | None => None
      end
    else
      match (let! (c, done_) := summary_read m c allowance clock in let! m := summary_write m c done_ in fine (m, written c done_, done_)) with
      | Some (Ok (m, c, done_)) => Some (m, c, Ok done_)
      | Some (Err e) => poisoned e
      | None => None
      end.

(** ** Cleanup *)

(* internal/aggregate/service_summary.go:598-601 summaryCleanup *)
Record summaryCleanup := mkCleanup { cl_hour : Z; cl_cutoff : Z; cl_token : string; cl_source : string; cl_uuid : string }.

(* internal/aggregate/service_summary.go:603-610 summarySourceToken *)
Definition summarySourceToken (m : SummaryFile) (hour : Z) : string :=
  match ru_hours (su_rollup m) !! hour with Some h => if rh_state h =? 2 then rh_build h else "" | None => "" end.

(* internal/aggregate/service_summary.go:611-638 summaryNeedsCleanup *)
Definition summaryNeedsCleanup (m : SummaryFile) (hour cutoff : Z) : bool :=
  match su_hours m !! hour with
  | None => true
  | Some mh =>
      let current := match ru_hours (su_rollup m) !! hour with Some h => (rh_state h =? 2) && String.eqb (rh_build h) (mh_source mh) | None => false end in
      if (mh_state mh =? 3) || negb current then true
      else if cutoff <=? hour then false
      else if (hour <=? MaxInt64 - rollupHour) && (hour + rollupHour <=? cutoff) then true
      else existsb (fun k => (hour <=? k.1) && (k.1 <? cutoff)) (elements (dom (sf_buckets (su_file m))))
  end.

(* internal/aggregate/service_summary.go:639-664 SQLiteStore.claimSummaryCleanup *)
Definition claimSummaryCleanup (m : SummaryFile) (uuid : string) (hour cutoff : Z) (token : string) : exec (SummaryFile * summaryCleanup) :=
  if negb (summaryNeedsCleanup m hour cutoff) then oops ErrRollupInvalidated
  else
    let source := summarySourceToken m hour in
    fine (set_su_hours m (<[hour := mkSummaryHour 3 token source]> (su_hours m)), mkCleanup hour cutoff token source uuid).

(** One transaction: the mark goes with the last rows. *)
(* internal/aggregate/service_summary.go:665-702 SQLiteStore.summaryCleanupSlice *)
Definition summaryCleanupSlice (m : SummaryFile) (c : summaryCleanup) (limit : Z) : exec (SummaryFile * bool) :=
  let limit := in_allowance limit in
  let mine := match su_hours m !! cl_hour c with
    | Some mh => (mh_state mh =? 3) && String.eqb (mh_build mh) (cl_token c) && String.eqb (mh_source mh) (cl_source c) && String.eqb (ru_uuid (su_rollup m)) (cl_uuid c)
    | None => false
    end in
  if negb mine || negb (String.eqb (summarySourceToken m (cl_hour c)) (cl_source c)) || negb (summaryNeedsCleanup m (cl_hour c) (cl_cutoff c))
  then oops ErrRollupInvalidated
  else
    let '(m, n) := deleteSummaryBatch m (cl_hour c) limit in
    let done_ := n <? limit in
    fine (if done_ then set_su_hours m (delete (cl_hour c) (su_hours m)) else m, done_).

(** The first hour from [after] on that has a cell or a mark. *)
Definition next_summary_hour (m : SummaryFile) (after : Z) : option Z :=
  head (sort_Z (filter (fun h => after <= h) (elements (set_map ck_hour (dom (su_cells m)) ∪ dom (su_hours m) : gset Z)))).

(** Slices of one cleanup until it is done, overtaken or out of budget. *)
Fixpoint cleanup_slices (budget : nat) (m : SummaryFile) (c : summaryCleanup) : SummaryFile * nat :=
  match budget with
  | O => (m, O)
  | S budget =>
      match summaryCleanupSlice m c rollupBatch with
      | Some (Ok (m, false)) => cleanup_slices budget m c
      | Some (Ok (m, true)) => (m, budget)
      | _ => (m, budget)
      end
  end.

(** [budget] is what the pass has left; every hour spends some of it. *)
(* internal/aggregate/service_summary.go:709-745 SQLiteStore.purgeServiceSummaries *)
Fixpoint purge_hours (budget : nat) (fuel : nat) (m : SummaryFile) (uuid : string) (token : Z -> string) (cutoff after : Z) : SummaryFile :=
  match fuel, budget with
  | S fuel, S left_ =>
      match next_summary_hour m after with
      | None => m
      | Some hour =>
          let '(m, budget) :=
            match claimSummaryCleanup m uuid hour cutoff (token hour) with
            | Some (Ok (m, c)) => cleanup_slices budget m c
            | _ => (m, left_)
            end in
          if MaxInt64 - rollupHour <? hour then m else purge_hours budget fuel m uuid token cutoff (hour + rollupHour)
      end
  | _, _ => m
  end.

(* internal/aggregate/service_summary.go:707-747 SQLiteStore.purgeServiceSummaries *)
Definition purgeServiceSummaries (m : SummaryFile) (uuid : string) (token : Z -> string) (cutoff : Z) : SummaryFile :=
  let budget := Z.to_nat purgeWindowsPerPass in purge_hours budget budget m uuid token cutoff (- 2 ^ 63).

(** ** The worker *)

(* internal/aggregate/service_summary.go:749-752 summaryWorker *)
Record summaryWorker := mkWorker { sw_sourceAfter : Z; sw_summaryAfter : Z; sw_build : option summaryBuild }.

(** The first hour from the cursor on that a rollup can be built of. *)
Definition next_source (r : RollupFile) (after cutoff : Z) : option Z :=
  head (sort_Z (filter (fun h => after <= h /\ h <= cutoff /\ rh_state (default (mkHour 2 "" false) (ru_hours r !! h)) <> 2) (elements (dom (ru_hours r))))).

(** A complete hour without a finished summary of its source. *)
Definition unsummarized (m : SummaryFile) (h : Z) : bool :=
  match ru_hours (su_rollup m) !! h with
  | Some r => (rh_state r =? 2) &&
      match su_hours m !! h with
      | Some mh => negb ((mh_state mh =? 2) || (mh_state mh =? summaryArithmeticFallback)) || negb (String.eqb (mh_source mh) (rh_build r))
      | None => true
      end
  | None => false
  end.

(* internal/aggregate/service_summary.go:773-774 SQLiteStore.summaryWorkerStep *)
Definition next_unsummarized (m : SummaryFile) (after : Z) : option Z :=
  head (sort_Z (filter (fun h => after <= h /\ unsummarized m h = true) (elements (dom (ru_hours (su_rollup m)))))).

(** The error of the source and that of the summary. *)
Definition worker_result : Type := SummaryFile * summaryWorker * bool * option store_error * option store_error.

(** A source attempt, then a claim when there is no build. *)
(* internal/aggregate/service_summary.go:760-768 SQLiteStore.summaryWorkerStep *)
Definition worker_source (m : SummaryFile) (w : summaryWorker) (now : time) (buildSource : SummaryFile -> Z -> option (SummaryFile * option store_error)) : option worker_result :=
  match next_source (su_rollup m) (sw_sourceAfter w) (t_Unix now - latenessSec - rollupHour) with
  | Some hour => '(m, e) ← buildSource m hour; Some (m, mkWorker (i64 (hour + rollupHour)) (sw_summaryAfter w) (sw_build w), true, e, None)
  | None => Some (m, w, false, None, None)
  end.

(* internal/aggregate/service_summary.go:772-783 SQLiteStore.summaryWorkerStep *)
Definition worker_claim (st : worker_result) (uuid : string) (token : Z -> string) : option worker_result :=
  let '(m, w, active, sourceErr, _) := st in
  match sw_build w with
  | Some _ => Some st
  | None =>
      match next_unsummarized m (sw_summaryAfter w) with
      | None => Some st
      | Some hour =>
          let w := mkWorker (sw_sourceAfter w) (i64 (hour + rollupHour)) None in
          match claimSummaryBuild m uuid hour (token hour) with
          | Some (Ok (m, c)) => Some (m, mkWorker (sw_sourceAfter w) (sw_summaryAfter w) (Some c), true, sourceErr, None)
          | Some (Err e) => Some (m, w, true, sourceErr, Some e)
          | None => None
          end
      end
  end.

(* internal/aggregate/service_summary.go:756-792 SQLiteStore.summaryWorkerStep *)
Definition summaryWorkerStep (m : SummaryFile) (w : summaryWorker) (uuid : string) (token : Z -> string) (now : time)
    (buildSource : SummaryFile -> Z -> option (SummaryFile * option store_error)) (clock : nat) : option worker_result :=
  st ← worker_source m w now buildSource;
  st ← worker_claim st uuid token;
  let '(m, w, active, sourceErr, summaryErr) := st in
  match sw_build w with
  | None => Some (m, w, active, sourceErr, summaryErr)
  | Some c =>
      '(m, c, res) ← summaryBuildSlice m c rollupBatch clock;
      let '(build, e) := match res with Ok false => (Some c, None) | Ok true => (None, None) | Err e => (None, Some e) end in
      Some (m, mkWorker (sw_sourceAfter w) (sw_summaryAfter w) build, true, sourceErr, e)
  end.
