(* ===== verification/SummaryFacts.v ===== *)
(** * SummaryFacts: what a build of a summary has accumulated

    The cells written, pending and still open of a build have, class by class,
    the counts and the groups of the buckets of the series it has walked; at
    the end of the walk that is every series, so the cells of the hour are
    exact. *)
From stdpp Require Import sorting strings.
From S2P Require Import Prelude Float64 SeriesKey Dict Registrar Identity Gc TopoIdentity.
From S2P Require Import Sketch SketchCodec Histogram Delta Limiter Baseline Engine EngineReads Topology TopologySnapshot.
From S2P Require Import StoreRows StoreTables StoreFacts StoreReads Query QueryFacts SumFacts Rollup RollupFacts ServiceSummary RollupReads RollupSums SummarySums SummaryBuild.
#[local] Open Scope Z_scope.

(** ** The order of the identity index *)

Lemma lex_lt_irrefl a : lex_lt a a = false.
Proof. induction a as [|x a IH]; [done|]. cbn. by rewrite Z.ltb_irrefl, Z.eqb_refl, IH. Qed.

Lemma lex_lt_cons x a y b : lex_lt (x :: a) (y :: b) = true <-> x < y \/ x = y /\ lex_lt a b = true.
Proof. cbn. rewrite orb_true_iff, andb_true_iff, Z.ltb_lt, Z.eqb_eq. done. Qed.

Lemma lex_lt_trans a : forall b c, lex_lt a b = true -> lex_lt b c = true -> lex_lt a c = true.
Proof.
  induction a as [|x a IH]; intros [|y b] [|z c]; try done. rewrite !lex_lt_cons. intros [?|[-> ?]] [?|[-> ?]]; [left; lia|by left|by left|right].
  split; [done|by eapply IH].
Qed.

Lemma lex_lt_total a : forall b, lex_lt a b = false -> lex_lt b a = false -> a = b.
Proof.
  induction a as [|x a IH]; intros [|y b]; try done. rewrite <- !not_true_iff_false, !lex_lt_cons. intros H1 H2. assert (x = y) as -> by lia.
  f_equal. apply IH; apply not_true_iff_false; intros ?; [apply H1|apply H2]; by right.
Qed.

#[local] Instance id_le_trans : Transitive id_le.
Proof.
  intros [i a] [j b] [k c] H1 H2. unfold id_le in *. cbn in *. apply not_true_iff_false. intros H3.
  destruct (lex_lt a b) eqn:E; [by rewrite (lex_lt_trans c a b) in H2|]. pose proof (lex_lt_total _ _ E H1). subst. by rewrite H3 in H2.
Qed.

#[local] Instance id_le_total : Total id_le.
Proof.
  intros [i a] [j b]. unfold id_le. cbn. destruct (lex_lt b a) eqn:E; [right|by left].
  apply not_true_iff_false. intros E2. pose proof (lex_lt_trans _ _ _ E E2) as E3. by rewrite lex_lt_irrefl in E3.
Qed.

Lemma lex_lt_past after a b : past after a = true -> lex_lt a b = true -> past after b = true.
Proof. destruct after; [apply lex_lt_trans|done]. Qed.

(** No two series have the same identity. *)
Definition series_unique (f : StoreFile) : Prop := forall i j args, sf_series f !! i = Some args -> sf_series f !! j = Some args -> i = j.

(** The next series past the cursor, in order and without a gap. *)
Record next_ids (f : StoreFile) (after : option (list Z)) (ids : list (Z * list Z)) : Prop := {
  ni_sorted : StronglySorted (fun a b => lex_lt a.2 b.2 = true) ids;
  ni_in id : id ∈ ids -> sf_series f !! id.1 = Some id.2 /\ past after id.2 = true;
  ni_next sid args : sf_series f !! sid = Some args -> past after args = true -> (sid, args) ∈ ids \/ forall id, id ∈ ids -> lex_lt id.2 args = true;
}.

Lemma ids_prefix f after l1 l2 : next_ids f after (l1 ++ l2) -> next_ids f after l1.
Proof.
  intros [N1 N2 N3]. constructor.
  - by eapply StronglySorted_app_1_l.
  - intros x Hx. apply N2, elem_of_app. by left.
  - intros sid args Hs Hp. destruct (N3 _ _ Hs Hp) as [[?|Hin]%elem_of_app|Hall]; [by left|right|right; intros x Hx; apply Hall, elem_of_app; by left].
    intros x Hx. by apply (StronglySorted_app_1_elem_of (fun a b : Z * list Z => lex_lt a.2 b.2 = true) l1 l2 x (sid, args) N1).
Qed.

Lemma sorted_strict f l : series_unique f -> (forall x, x ∈ l -> sf_series f !! x.1 = Some x.2) -> NoDup l -> StronglySorted id_le l ->
  StronglySorted (fun a b : Z * list Z => lex_lt a.2 b.2 = true) l.
Proof.
  intros Hu Hin Hnd Hs. induction Hs as [|x l Hs IH Hx]; [constructor|]. apply NoDup_cons in Hnd as [Hn Hnd]. constructor; [apply IH; [|done]; intros y Hy; apply Hin; by right|].
  rewrite Forall_forall in *. intros y Hy. specialize (Hx y Hy). unfold id_le in Hx. destruct (lex_lt x.2 y.2) eqn:E; [done|]. exfalso. apply Hn.
  pose proof (lex_lt_total _ _ E Hx) as He. assert (x = y) as ->; [|done]. destruct x as [i a], y as [j b]. cbn in He. subst b. f_equal.
  apply (Hu i j a); [apply (Hin (i, a)); by left|apply (Hin (j, a)); by right].
Qed.

Lemma identities_next f after limit : series_unique f -> next_ids f after (summaryIdentities f after limit).
Proof.
  intros Hu. unfold summaryIdentities. apply (ids_prefix _ _ _ (drop limit (summaryIdentityQuery f after))). rewrite take_drop. unfold summaryIdentityQuery.
  set (l := filter _ _).
  assert (forall x, x ∈ merge_sort id_le l <-> sf_series f !! x.1 = Some x.2 /\ past after x.2 = true) as Hin.
  { intros [sid args]. rewrite (merge_sort_Permutation id_le l). unfold l. rewrite list_elem_of_filter, elem_of_map_to_list. cbn. tauto. }
  assert (NoDup (merge_sort id_le l)) as Hnd by (rewrite merge_sort_Permutation; apply NoDup_filter, NoDup_map_to_list).
  pose proof (StronglySorted_merge_sort id_le l) as Hs. constructor; [|intros x; by apply Hin|intros sid args H1 H2; left; by apply Hin].
  apply (sorted_strict f); [done| |done|done]. intros x Hx. by apply Hin.
Qed.

Lemma next_ids_tail f after x ids : next_ids f after (x :: ids) -> next_ids f (Some x.2) ids.
Proof.
  intros [N1 N2 N3]. apply StronglySorted_inv in N1 as [N1 Hx]. rewrite Forall_forall in Hx. constructor; [done| |].
  - intros y Hy. split; [apply N2; by right|by apply Hx].
  - intros sid args Hs Hp. cbn in Hp. destruct (N3 sid args Hs (lex_lt_past _ x.2 _ (proj2 (N2 x ltac:(by left))) Hp)) as [[<-|Hin]%elem_of_cons|Hall].
    + cbn in Hp. by rewrite lex_lt_irrefl in Hp.
    + by left.
    + right. intros y Hy. apply Hall. by right.
Qed.

Lemma identities_none f after limit : series_unique f -> (0 < limit)%nat -> summaryIdentities f after limit = [] -> forall sid args, sf_series f !! sid = Some args -> past after args = false.
Proof.
  intros Hu Hl E sid args Hs. apply not_true_iff_false. intros Hp. unfold summaryIdentities, summaryIdentityQuery in E.
  assert ((sid, args) ∈ merge_sort id_le (filter (fun p : Z * list Z => past after p.2 = true) (map_to_list (sf_series f)))) as Hin
    by (rewrite merge_sort_Permutation, list_elem_of_filter, elem_of_map_to_list; done).
  destruct (merge_sort _ _); [by apply elem_of_nil in Hin|]. destruct limit; [lia|done].
Qed.

(** The series walked up to the cursor. *)
Definition walked (f : StoreFile) (after : option (list Z)) (sid : Z) : bool :=
  match sf_series f !! sid with Some args => negb (past after args) | None => false end.

Lemma walked_next f after x ids : series_unique f -> next_ids f after (x :: ids) -> forall sid, walked f (Some x.2) sid = walked f after sid || (sid =? x.1) /\ walked f after x.1 = false.
Proof.
  intros Hu [N1 N2 N3] sid. destruct (N2 x ltac:(by left)) as [Hx Hp]. unfold walked. rewrite Hx, Hp. split; [|done].
  destruct (sf_series f !! sid) as [args|] eqn:Es; cbn [past].
  - destruct (Z.eqb_spec sid x.1) as [->|Hne]; [rewrite Hx in Es; injection Es as <-; by rewrite lex_lt_irrefl, orb_true_r|]. rewrite orb_false_r. f_equal.
    destruct (past after args) eqn:Ep.
    + destruct (N3 _ _ Es Ep) as [[<-|Hin]%elem_of_cons|Hall]; [done| |apply (Hall x); by left].
      apply StronglySorted_inv in N1 as [_ Hf]. rewrite Forall_forall in Hf. by apply (Hf (sid, args)).
    + apply not_true_iff_false. intros Hl. by rewrite (lex_lt_past after x.2 args) in Ep.
  - destruct (Z.eqb_spec sid x.1) as [->|]; [by rewrite Hx in Es|done].
Qed.

(** ** Slots *)

(** The scalars of a service with the keys of their cells. *)
Definition slots (hour : Z) (g : service_acc) : list (summary_key * summaryScalar) :=
  (mkSummaryKey hour rollupHour (sa_tenant g) SignalServiceEdge (sa_service g) (sa_name g) hour, sa_edge g) ::
  (mkSummaryKey hour rollupHour (sa_tenant g) SignalTraceOp (sa_service g) 0 hour, sa_trace g) ::
  (mkSummaryKey hour rollupHour (sa_tenant g) SignalLog (sa_service g) 0 hour, sa_logs g) ::
  imap (fun i a => (mkSummaryKey hour windowSec (sa_tenant g) SignalTraceOp (sa_service g) 0 (hour + Z.of_nat i * windowSec), a)) (sa_windows g).

(** Keys with counts: of the scalars that are present, and of rows. *)
Abbreviation tallied := (list (summary_key * list Z)) (only parsing).
Definition of_slots (l : list (summary_key * summaryScalar)) : tallied := (fun p => (p.1, sc_counts p.2)) <$> filter (fun p => sc_present p.2 = true) l.
Definition of_rows (l : list summaryCell) : tallied := (fun p => (p.1, sv_ints (sr_scalar p.2))) <$> l.
Definition live (hour : Z) (g : option service_acc) : tallied := match g with Some g => of_slots (slots hour g) | None => [] end.

Lemma of_rows_app l1 l2 : of_rows (l1 ++ l2) = of_rows l1 ++ of_rows l2.
Proof. apply fmap_app. Qed.
Lemma of_slots_app l1 l2 : of_slots (l1 ++ l2) = of_slots l1 ++ of_slots l2.
Proof. unfold of_slots. by rewrite filter_app, fmap_app. Qed.

Definition of_class (resolution hour : Z) (c : summary_class) (k : summary_key) : bool := of_hour resolution hour k && bool_decide (key_class k = c).
Definition count_at (fld : sum_field) (counts : list Z) : Z := default 0 (counts !! col_of fld).
Definition tally_of (resolution hour : Z) (c : summary_class) (fld : sum_field) (l : tallied) : Z :=
  list_sum (fun p => if of_class resolution hour c p.1 then count_at fld p.2 else 0) l.
Definition occurs (resolution hour : Z) (c : summary_class) (l : tallied) : Prop := exists p, p ∈ l /\ of_class resolution hour c p.1 = true.

Lemma tally_of_app res hour c fld l1 l2 : tally_of res hour c fld (l1 ++ l2) = tally_of res hour c fld l1 + tally_of res hour c fld l2.
Proof. apply list_sum_app. Qed.
Lemma occurs_app res hour c l1 l2 : occurs res hour c (l1 ++ l2) <-> occurs res hour c l1 \/ occurs res hour c l2.
Proof.
  unfold occurs. split; [intros (p & [?|?]%elem_of_app & ?); [left|right]; by exists p|]. intros [(p & ? & ?)|(p & ? & ?)]; exists p; (split; [apply elem_of_app; by (left + right)|done]).
Qed.
Lemma occurs_perm res hour c l1 l2 : l1 ≡ₚ l2 -> occurs res hour c l1 <-> occurs res hour c l2.
Proof. intros Hp. unfold occurs. split; intros (p & Hin & ?); exists p; (split; [by rewrite Hp in * || rewrite <- Hp in *|done]). Qed.

(** A scalar that is absent is zero. *)
Definition good_scalar (a : summaryScalar) : Prop := length (sc_counts a) = 7%nat /\ (sc_present a = false -> sc_counts a = replicate 7 0).
Record acc_ok (g : service_acc) : Prop := {
  ao_edge : good_scalar (sa_edge g); ao_trace : good_scalar (sa_trace g); ao_logs : good_scalar (sa_logs g);
  ao_windows : Forall good_scalar (sa_windows g); ao_twelve : length (sa_windows g) = 12%nat;
}.

Lemma no_scalar_good : good_scalar no_scalar.
Proof. done. Qed.

Lemma new_acc_ok t s n : acc_ok (new_acc t s n).
Proof. constructor; try done. apply Forall_replicate, no_scalar_good. Qed.

Lemma add_counts_zip l : forall l' acc counts,
  exec_foldl (fun out (p : Z * Z) => if (p.2 <? 0) || (MaxInt64 - p.2 <? p.1) then oops ErrSummaryInput else fine (out ++ [p.1 + p.2])) acc (combine l l') = fine counts ->
  counts = acc ++ zip_with Z.add l l'.
Proof.
  induction l as [|n l IH]; intros [|m l'] acc counts E; cbn [combine zip_with] in *; [injection E as <-; by rewrite app_nil_r..|].
  rewrite exec_foldl_cons in E. cbn [fst snd] in E. destruct (_ || _); [done|]. cbn [ebind fine] in E. rewrite (IH _ _ _ E). by rewrite <- app_assoc.
Qed.

Lemma scalar_add_spec a x a' : scalar_add a x = fine a' -> length (sc_counts a) = 7%nat -> length (sc_counts x) = 7%nat ->
  sc_present a' = true /\ length (sc_counts a') = 7%nat /\ forall i, default 0 (sc_counts a' !! i) = default 0 (sc_counts a !! i) + default 0 (sc_counts x !! i).
Proof.
  unfold scalar_add. intros (counts & E & Ea)%ebind_Ok Ha Hx. destruct (f_is_nan _ || f_is_inf _); [done|]. injection Ea as <-. cbn [sc_present sc_counts]. split; [done|].
  apply add_counts_zip in E. cbn [app] in E. subst counts.
  rewrite length_zip_with, Ha, Hx. split; [done|]. intros i. rewrite lookup_zip_with. destruct (sc_counts a !! i) as [n|] eqn:En; cbn.
  - apply lookup_lt_Some in En. destruct (lookup_lt_is_Some_2 (sc_counts x) i ltac:(lia)) as [m ->]. done.
  - apply lookup_ge_None in En. rewrite (lookup_ge_None_2 (sc_counts x)) by lia. done.
Qed.

(** A slot that is added to. *)
Lemma slot_add L1 k a x a' L2 res hour c : good_scalar a -> length (sc_counts x) = 7%nat -> scalar_add a x = fine a' ->
  good_scalar a' /\
  (forall fld, tally_of res hour c fld (of_slots (L1 ++ (k, a') :: L2)) =
     tally_of res hour c fld (of_slots (L1 ++ (k, a) :: L2)) + if of_class res hour c k then count_at fld (sc_counts x) else 0) /\
  (occurs res hour c (of_slots (L1 ++ (k, a') :: L2)) <-> occurs res hour c (of_slots (L1 ++ (k, a) :: L2)) \/ of_class res hour c k = true).
Proof.
  intros [Ga1 Ga2] Hx E. destruct (scalar_add_spec _ _ _ E Ga1 Hx) as (S1 & S2 & S3). split; [split; [done|by rewrite S1]|].
  assert (forall b, of_slots (L1 ++ (k, b) :: L2) = of_slots L1 ++ (if sc_present b then [(k, sc_counts b)] else []) ++ of_slots L2) as HS.
  { intros b. rewrite of_slots_app. f_equal. unfold of_slots. rewrite filter_cons. cbn [fst snd]. destruct (sc_present b); [rewrite decide_True by done|rewrite decide_False by done]; done. }
  rewrite !HS, S1. split.
  - intros fld. rewrite !tally_of_app. enough (tally_of res hour c fld [(k, sc_counts a')] = tally_of res hour c fld (if sc_present a then [(k, sc_counts a)] else []) +
      (if of_class res hour c k then count_at fld (sc_counts x) else 0)) by lia. unfold tally_of, list_sum. cbn [foldr fst snd].
    destruct (of_class res hour c k) eqn:Ec; [|destruct (sc_present a); cbn; rewrite ?Ec; lia]. unfold count_at. rewrite S3. destruct (sc_present a) eqn:Ep; cbn [foldr fst snd]; rewrite ?Ec; [lia|].
    rewrite (Ga2 eq_refl). destruct fld; cbn; lia.
  - rewrite !occurs_app. assert (forall b, occurs res hour c [(k, b)] <-> of_class res hour c k = true) as HO.
    { intros b. unfold occurs. split; [by intros (p & ->%list_elem_of_singleton & ?)|intros ?; exists (k, b); split; [by left|done]]. }
    rewrite HO. destruct (sc_present a); [rewrite HO; tauto|]. assert (~ occurs res hour c []) by (by intros (p & ?%elem_of_nil & _)). tauto.
Qed.

(** ** Flushing *)

Lemma flushEdge_spec hour g g' cells : flushEdge hour g = (g', cells) -> of_rows cells ++ of_slots (slots hour g') = of_slots (slots hour g) /\ sc_present (sa_edge g') = false /\
  (sa_tenant g' = sa_tenant g /\ sa_service g' = sa_service g) /\ (acc_ok g -> acc_ok g').
Proof.
  intros [= <- <-]. split_and!; try done; [|intros []; by constructor]. unfold slots, of_slots, present_cell, set_scalars. rewrite !filter_cons. cbn [fst snd sa_edge sa_trace sa_logs sa_windows sa_tenant sa_service sa_name].
  rewrite (decide_False (P := sc_present no_scalar = true)) by done. destruct (sc_present (sa_edge g)); [rewrite (decide_True (P := true = true)) by done|rewrite (decide_False (P := false = true)) by done]; done.
Qed.

Lemma slots_name hour g n : sc_present (sa_edge g) = false -> of_slots (slots hour (set_name g n)) = of_slots (slots hour g).
Proof. intros He. unfold slots, of_slots, set_name. rewrite !filter_cons. cbn [fst snd sa_edge]. by rewrite He. Qed.

Lemma present_rows hour g signal res window name a sk : of_rows (present_cell hour g signal res window name a sk) =
  of_slots [(mkSummaryKey hour res (sa_tenant g) signal (sa_service g) name window, a)].
Proof. unfold present_cell, of_slots. rewrite filter_cons. cbn [snd]. destruct (sc_present a); [rewrite decide_True by done|rewrite decide_False by done]; done. Qed.

Lemma window_rows hour g (l : list summaryScalar) : forall w : nat -> Z,
  of_rows (mjoin (imap (fun i a => present_cell hour g SignalTraceOp windowSec (w i) 0 a no_sketch) l)) =
  of_slots (imap (fun i a => (mkSummaryKey hour windowSec (sa_tenant g) SignalTraceOp (sa_service g) 0 (w i), a)) l).
Proof.
  induction l as [|a l IH]; intros w; [done|]. rewrite !imap_cons. change (mjoin (?x :: ?y)) with (x ++ mjoin y). rewrite of_rows_app, present_rows.
  change (?x :: imap ?f ?m) with ([x] ++ imap f m). rewrite of_slots_app. f_equal. apply (IH (fun i => w (S i))).
Qed.

Lemma flushService_spec hour g cells : flushService hour g = fine cells -> of_rows cells ≡ₚ live hour g.
Proof.
  destruct g as [g|]; cbn [flushService live]; [|by intros [= <-]]. destruct (flushEdge hour g) as [g' edge] eqn:Ee. destruct (flushEdge_spec _ _ _ _ Ee) as (<- & He & _ & _).
  intros (sk & _ & [= <-])%ebind_Ok. rewrite !of_rows_app. apply Permutation_app_head. rewrite !present_rows.
  assert (of_slots (slots hour g') = of_slots (drop 1 (slots hour g'))) as -> by (unfold slots, of_slots; cbn [drop]; rewrite filter_cons; cbn [snd]; by rewrite He).
  cbn [drop slots]. rewrite (of_slots_app [_] (_ :: _) : of_slots (_ :: _ :: _) = _), (of_slots_app [_] (imap _ _) : of_slots (_ :: imap _ _) = _).
  rewrite window_rows. clear. by rewrite Permutation_app_comm, <- app_assoc.
Qed.

(** ** What a series adds *)

(** The row of a bucket that counts for a class. *)
Definition entry (f : StoreFile) (resolution hour : Z) (c : summary_class) (p : (Z * Z) * list sql_value) : bool :=
  match cell_of f p with Some x => summarized resolution hour x && bool_decide (cell_class resolution hour x = c) | None => false end.

Definition sid_sum (f : StoreFile) (resolution hour : Z) (c : summary_class) (fld : sum_field) (sid : Z) : Z :=
  list_sum (fun p => if (p.1.2 =? sid) && entry f resolution hour c p then row_count p.2 fld else 0) (map_to_list (sf_buckets f)).
Definition sid_occurs (f : StoreFile) (resolution hour : Z) (c : summary_class) (sid : Z) : Prop :=
  exists w row, sf_buckets f !! (w, sid) = Some row /\ entry f resolution hour c ((w, sid), row) = true.

Lemma sid_rows_sum f hour sid (h : Z -> list sql_value -> Z) :
  list_sum (fun p => if in_hour hour p.1 && (p.1.2 =? sid) then h p.1.1 p.2 else 0) (map_to_list (sf_buckets f)) =
  list_sum (fun w => from_option (h w) 0 (sf_buckets f !! (w, sid))) (windows_of f hour sid).
Proof.
  unfold windows_of. rewrite list_sum_fmap, list_sum_filter, (list_sum_perm _ _ _ (ordered_perm _)), list_sum_fmap.
  apply list_sum_ext. intros [[w s] row] Hin. cbn [fst snd]. apply elem_of_map_to_list in Hin. unfold in_hour. cbn [fst snd].
  destruct (Z.leb_spec hour w), (Z.ltb_spec w (hour + rollupHour)), (Z.eqb_spec s sid); cbn [andb]; case_decide as Hd; try done; try (exfalso; lia).
  subst s. by rewrite Hin.
Qed.

Definition hour_signal (k : SeriesKey) : bool := (KSignal k =? SignalTraceOp) || (KSignal k =? SignalLog) || (KSignal k =? SignalServiceEdge).
Definition hour_class (hour : Z) (k : SeriesKey) : summary_class := (TenantID k, KSignal k, ServiceID k, if KSignal k =? SignalServiceEdge then NameID k else 0, hour).

Lemma entry_hour f hour c w sid row k : stored_key f sid = Some k ->
  entry f rollupHour hour c ((w, sid), row) = in_hour hour (w, sid) && (hour_signal k && bool_decide (hour_class hour k = c)).
Proof. intros Hk. unfold entry, cell_of. cbn [fst snd]. rewrite Hk. cbn. by rewrite andb_assoc. Qed.

Lemma entry_window f hour c w sid row k : stored_key f sid = Some k ->
  entry f windowSec hour c ((w, sid), row) = in_hour hour (w, sid) && ((KSignal k =? SignalTraceOp) && bool_decide ((TenantID k, KSignal k, ServiceID k, 0, w) = c)).
Proof. intros Hk. unfold entry, cell_of. cbn [fst snd]. rewrite Hk. cbn. by rewrite andb_assoc. Qed.

Section Series.
Context `{Sqlite}.
Variables (r : RollupFile) (hour sid : Z) (k : SeriesKey).
Hypothesis Hk : stored_key (ru_file r) sid = Some k.
Hypothesis Hrolls : rolls (ru_file r) hour sid (ru_hourly r !! (hour, sid)).
Let f := ru_file r.

Lemma sid_sum_hour c fld : eq64 (sid_sum f rollupHour hour c fld sid)
  (if hour_signal k && bool_decide (hour_class hour k = c) then from_option (fun row => row_count row fld) 0 (ru_hourly r !! (hour, sid)) else 0).
Proof.
  assert (sid_sum f rollupHour hour c fld sid = if hour_signal k && bool_decide (hour_class hour k = c) then list_sum (fun row => row_count row fld) (series_rows f hour sid) else 0) as ->.
  { unfold f. rewrite series_rows_sum. unfold sid_sum. destruct (hour_signal k && bool_decide (hour_class hour k = c)) eqn:Ec; [apply list_sum_ext|apply list_sum_zero]; intros [[w s] row] _; cbn [fst snd].
    - destruct (Z.eqb_spec s sid) as [->|]; [|by rewrite andb_false_r]. by rewrite (entry_hour _ _ _ _ _ _ k Hk), Ec, !andb_true_r.
    - destruct (Z.eqb_spec s sid) as [->|]; [|done]. by rewrite (entry_hour _ _ _ _ _ _ k Hk), Ec, andb_false_r. }
  destruct (_ && _); [|done]. symmetry. apply (rolls_count _ _ _ _ fld Hrolls).
Qed.

Lemma hourly_windows : ru_hourly r !! (hour, sid) = None <-> windows_of f hour sid = [].
Proof.
  unfold f. pose proof Hrolls as Hr. assert (series_rows (ru_file r) hour sid = [] <-> windows_of (ru_file r) hour sid = []) as Hsw.
  { unfold series_rows. split; [|by intros ->]. destruct (windows_of (ru_file r) hour sid) as [|w ws] eqn:Ew; [done|]. cbn. assert (w ∈ windows_of (ru_file r) hour sid) as [_ [row Hs]]%elem_of_windows_of by (rewrite Ew; by left). by rewrite Hs. }
  rewrite <- Hsw. destruct (ru_hourly r !! (hour, sid)) as [row|]; cbn in Hr; [|done]. split; [done|]. intros Hn. destruct Hr as (d & _ & Hd & _). by rewrite Hn in Hd.
Qed.

Lemma sid_occurs_hour c : sid_occurs f rollupHour hour c sid <-> is_Some (ru_hourly r !! (hour, sid)) /\ hour_signal k && bool_decide (hour_class hour k = c) = true.
Proof.
  rewrite <- not_eq_None_Some, hourly_windows. unfold sid_occurs, f. split.
  - intros (w & row & Hrow & He). rewrite (entry_hour _ _ _ _ _ _ k Hk) in He. apply andb_true_iff in He as [Hi He]. split; [|done]. intros Hn.
    assert (w ∈ windows_of (ru_file r) hour sid) as Hw; [|rewrite Hn in Hw; by apply elem_of_nil in Hw]. apply elem_of_windows_of. unfold in_hour in Hi. cbn in Hi. apply andb_true_iff in Hi as [H1 H2]. z_bool. split; [lia|by eexists].
  - intros [Hn He]. destruct (windows_of (ru_file r) hour sid) as [|w ws] eqn:Ew; [done|]. assert (w ∈ windows_of (ru_file r) hour sid) as [Hin [row Hrow]]%elem_of_windows_of by (rewrite Ew; by left).
    exists w, row. split; [done|]. rewrite (entry_hour _ _ _ _ _ _ k Hk), He, andb_true_r. unfold in_hour. cbn. apply andb_true_iff. rewrite Z.leb_le, Z.ltb_lt. done.
Qed.

Definition window_class (w : Z) : summary_class := (TenantID k, SignalTraceOp, ServiceID k, 0, w).

Lemma sid_sum_windows c fld : KSignal k = SignalTraceOp -> sid_sum f windowSec hour c fld sid =
  list_sum (fun w => if bool_decide (window_class w = c) then from_option (fun row => row_count row fld) 0 (sf_buckets f !! (w, sid)) else 0) (windows_of f hour sid).
Proof.
  intros Hs. rewrite (list_sum_ext _ (fun w => from_option ((fun w row => if bool_decide (window_class w = c) then row_count row fld else 0) w) 0 (sf_buckets f !! (w, sid)))).
  2: { intros w _. destruct (sf_buckets f !! (w, sid)); cbn; by case_bool_decide. }
  rewrite <- sid_rows_sum. apply list_sum_ext. intros [[w s] row] _. cbn [fst snd]. destruct (Z.eqb_spec s sid) as [->|]; [|by rewrite andb_false_r].
  unfold f. rewrite (entry_window _ _ _ _ _ _ k Hk), Hs, Z.eqb_refl. cbn [andb]. rewrite andb_true_r. by destruct (in_hour hour (w, sid)).
Qed.

Lemma sid_occurs_windows c : KSignal k = SignalTraceOp -> sid_occurs f windowSec hour c sid <-> exists w, w ∈ windows_of f hour sid /\ window_class w = c.
Proof.
  intros Hs. unfold sid_occurs, f. split.
  - intros (w & row & Hrow & He). rewrite (entry_window _ _ _ _ _ _ k Hk), Hs in He. apply andb_true_iff in He as [Hi He]. cbn [andb] in He. apply bool_decide_eq_true in He.
    exists w. split; [|done]. apply elem_of_windows_of. unfold in_hour in Hi. cbn in Hi. apply andb_true_iff in Hi as [H1 H2]. z_bool. split; [lia|by eexists].
  - intros (w & [Hin [row Hrow]]%elem_of_windows_of & Hc). exists w, row. split; [done|]. rewrite (entry_window _ _ _ _ _ _ k Hk), Hs, Z.eqb_refl. cbn [andb]. apply andb_true_iff. split; [|by apply bool_decide_eq_true].
    unfold in_hour. cbn. apply andb_true_iff. rewrite Z.leb_le, Z.ltb_lt. done.
Qed.

Lemma sid_window_none c fld : KSignal k <> SignalTraceOp -> sid_sum f windowSec hour c fld sid = 0 /\ ~ sid_occurs f windowSec hour c sid.
Proof.
  intros Hs. assert (forall w row, entry f windowSec hour c ((w, sid), row) = false) as He.
  { intros w row. unfold f. rewrite (entry_window _ _ _ _ _ _ k Hk). destruct (Z.eqb_spec (KSignal k) SignalTraceOp); [done|]. cbn. by rewrite andb_false_r. }
  split; [|intros (w & row & _ & Hn); by rewrite He in Hn]. apply list_sum_zero. intros [[w s] row] _. cbn [fst snd]. destruct (Z.eqb_spec s sid) as [->|]; [|done]. by rewrite He.
Qed.

(** The accumulators after a series: its part is added to them. *)
Record added (g g' : service_acc) : Prop := {
  ad_ok : acc_ok g';
  ad_service : sa_tenant g' = sa_tenant g /\ sa_service g' = sa_service g /\ sa_name g' = sa_name g;
  ad_sums res c fld : res = windowSec \/ res = rollupHour ->
    eq64 (tally_of res hour c fld (of_slots (slots hour g'))) (tally_of res hour c fld (of_slots (slots hour g)) + sid_sum f res hour c fld sid);
  ad_occurs res c : res = windowSec \/ res = rollupHour -> occurs res hour c (of_slots (slots hour g')) <-> occurs res hour c (of_slots (slots hour g)) \/ sid_occurs f res hour c sid;
}.

Lemma scan_length other row : length (sc_counts (scanSummaryScalar other row)) = 7%nat.
Proof. done. Qed.

Lemma scan_count_at other row fld : eq64 (count_at fld (sc_counts (scanSummaryScalar other row))) (row_count row fld).
Proof. unfold row_count. rewrite u64_eq64. apply eq64_eq. by destruct fld. Qed.

(** The slot of an hourly cell. *)
Lemma hour_key_class res signal name t sv c : res = windowSec \/ res = rollupHour ->
  of_class res hour c (mkSummaryKey hour rollupHour t signal sv name hour) = (res =? rollupHour) && bool_decide ((t, signal, sv, name, hour) = c).
Proof. intros [-> | ->]; unfold of_class, of_hour; cbn [ck_hour ck_resolution]; rewrite Z.eqb_refl; done. Qed.

Lemma window_key_class res t sv w c : res = windowSec \/ res = rollupHour ->
  of_class res hour c (mkSummaryKey hour windowSec t SignalTraceOp sv 0 w) = (res =? windowSec) && bool_decide ((t, SignalTraceOp, sv, 0, w) = c).
Proof. intros [-> | ->]; unfold of_class, of_hour; cbn [ck_hour ck_resolution]; rewrite Z.eqb_refl; done. Qed.

(** An hourly row in its slot is the hour's part of the series. *)
Lemma add_hourly g g' L1 L2 signal name a a' row other : acc_ok g -> good_scalar a -> ru_hourly r !! (hour, sid) = Some row ->
  slots hour g = L1 ++ (mkSummaryKey hour rollupHour (TenantID k) signal (ServiceID k) name hour, a) :: L2 ->
  slots hour g' = L1 ++ (mkSummaryKey hour rollupHour (TenantID k) signal (ServiceID k) name hour, a') :: L2 ->
  scalar_add a (scanSummaryScalar other row) = fine a' -> hour_signal k = true -> hour_class hour k = (TenantID k, signal, ServiceID k, name, hour) ->
  good_scalar a' /\ forall res c, res = windowSec \/ res = rollupHour ->
    (forall fld, eq64 (tally_of res hour c fld (of_slots (slots hour g')))
       (tally_of res hour c fld (of_slots (slots hour g)) + if res =? rollupHour then sid_sum f rollupHour hour c fld sid else 0)) /\
    (occurs res hour c (of_slots (slots hour g')) <-> occurs res hour c (of_slots (slots hour g)) \/ (res = rollupHour /\ sid_occurs f rollupHour hour c sid)).
Proof.
  intros Hg Ha Hrow -> -> E Hsig Hcl. split; [apply (slot_add L1 (mkSummaryKey hour rollupHour (TenantID k) signal (ServiceID k) name hour) a (scanSummaryScalar other row) a' L2 rollupHour hour (0, 0, 0, 0, 0)); [done|apply scan_length|done]|]. intros res c Hres.
  destruct (slot_add L1 (mkSummaryKey hour rollupHour (TenantID k) signal (ServiceID k) name hour) a _ a' L2 res hour c Ha (scan_length other row) E) as (_ & S1 & S2).
  rewrite (hour_key_class res) in S1, S2 by done. split.
  - intros fld. rewrite S1. apply eq64_add; [done|]. destruct (Z.eqb_spec res rollupHour); [|done]. rewrite (sid_sum_hour c fld), Hsig, Hcl, Hrow. cbn [andb from_option]. case_bool_decide; [apply scan_count_at|done].
  - rewrite S2. apply or_iff_compat_l. destruct (Z.eqb_spec res rollupHour); [|split; [done|by intros []]]. rewrite (sid_occurs_hour c), Hsig, Hcl, Hrow. cbn [andb]. rewrite bool_decide_eq_true. split; [intros ->|by intros (_ & _ & ?)]. split; [done|]. split; [by eexists|done].
Qed.

Lemma slots_window g i a a' : sa_windows g !! i = Some a -> exists L1 L2,
  slots hour g = L1 ++ (mkSummaryKey hour windowSec (sa_tenant g) SignalTraceOp (sa_service g) 0 (hour + Z.of_nat i * windowSec), a) :: L2 /\
  slots hour (set_windows_of g (<[i := a']> (sa_windows g))) = L1 ++ (mkSummaryKey hour windowSec (sa_tenant g) SignalTraceOp (sa_service g) 0 (hour + Z.of_nat i * windowSec), a') :: L2.
Proof.
  intros Hi. pose proof (lookup_lt_Some _ _ _ Hi) as Hlt. set (key := fun i : nat => mkSummaryKey hour windowSec (sa_tenant g) SignalTraceOp (sa_service g) 0 (hour + Z.of_nat i * windowSec)).
  exists (take 3 (slots hour g) ++ imap (fun j b => (key j, b)) (take i (sa_windows g))), (imap (fun j b => (key (i + S j)%nat, b)) (drop (S i) (sa_windows g))).
  assert (forall b, imap (fun j b => (key j, b)) (take i (sa_windows g) ++ b :: drop (S i) (sa_windows g)) =
    imap (fun j b => (key j, b)) (take i (sa_windows g)) ++ (key i, b) :: imap (fun j b => (key (i + S j)%nat, b)) (drop (S i) (sa_windows g))) as HI.
  { intros b. rewrite imap_app, imap_cons, length_take, Nat.min_l by lia. rewrite Nat.add_0_r. done. }
  split; rewrite <- app_assoc.
  - unfold slots at 1. fold key. rewrite <- (take_drop_middle _ _ _ Hi) at 1. by rewrite HI.
  - unfold slots at 1. cbn [sa_windows set_windows_of sa_tenant sa_service sa_name sa_edge sa_trace sa_logs]. fold key. rewrite insert_take_drop by done. by rewrite HI.
Qed.

(** The windows of a trace series. *)
Lemma summed_windows other ws : forall g b g' b', (forall w, w ∈ ws -> w ∈ windows_of f hour sid) -> acc_ok g -> sa_tenant g = TenantID k -> sa_service g = ServiceID k ->
  exec_foldl (take_window f hour sid other) (g, b) ws = fine (g', b') ->
  acc_ok g' /\ (sa_tenant g' = sa_tenant g /\ sa_service g' = sa_service g /\ sa_name g' = sa_name g) /\
  forall res c, res = windowSec \/ res = rollupHour ->
    (forall fld, eq64 (tally_of res hour c fld (of_slots (slots hour g')))
       (tally_of res hour c fld (of_slots (slots hour g)) + if res =? windowSec then list_sum (fun w => if bool_decide (window_class w = c) then from_option (fun row => row_count row fld) 0 (sf_buckets f !! (w, sid)) else 0) ws else 0)) /\
    (occurs res hour c (of_slots (slots hour g')) <-> occurs res hour c (of_slots (slots hour g)) \/ (res = windowSec /\ exists w, w ∈ ws /\ window_class w = c)).
Proof.
  induction ws as [|w ws IH]; intros g b g' b' Hin Hg Ht Hs E.
  { injection E as <- <-. split_and!; try done. intros res c Hres. split; [intros fld; apply eq64_eq; destruct (res =? windowSec); cbn; lia|]. split; [by left|]. intros [?|(_ & w & Hw & _)]; [done|by apply elem_of_nil in Hw]. }
  rewrite exec_foldl_cons in E. apply ebind_Ok in E as ([g1 b1] & E1 & E). unfold take_window in E1.
  assert (w ∈ windows_of f hour sid) as [Hrange [row Hrow]]%elem_of_windows_of by (apply Hin; by left). rewrite Hrow in E1. destruct (negb _) eqn:Er; [done|]. apply negb_false_iff in Er. z_bool.
  cbn [fst snd] in E1. set (i := Z.to_nat (Z.quot (w - hour) windowSec)) in *. destruct (sa_windows g !! i) as [a|] eqn:Ea; [|done]. apply ebind_Ok in E1 as (a' & Ead & [= <- <-]).
  assert (hour + Z.of_nat i * windowSec = w) as Hw. { unfold i. change windowSec with 300 in *. rewrite Z2Nat.id by (apply Z.quot_pos; lia). pose proof (Z.quot_rem' (w - hour) 300). lia. }
  destruct (slots_window g i a a' Ea) as (L1 & L2 & HL & HL'). rewrite Hw, Ht, Hs in HL, HL'.
  assert (good_scalar a) as Ha by (pose proof (ao_windows g Hg) as HF; rewrite Forall_forall in HF; apply HF; by eapply list_elem_of_lookup_2).
  set (g1 := set_windows_of g (<[i := a']> (sa_windows g))) in *.
  assert (good_scalar a') as Ha' by (apply (slot_add L1 (mkSummaryKey hour windowSec (TenantID k) SignalTraceOp (ServiceID k) 0 w) a (scanSummaryScalar other row) a' L2 windowSec hour (0, 0, 0, 0, 0)); [done|apply scan_length|done]).
  assert (acc_ok g1) as Hg1 by (destruct Hg as [G1 G2 G3 G4 G5]; constructor; cbn; [done..|by apply Forall_insert|by rewrite length_insert]).
  destruct (IH g1 (charge_window b (sc_sum (scanSummaryScalar other row))) g' b') as (I1 & I2 & I3); [intros w' Hw'; apply Hin; by right|done|done|done|done|]. split_and!; [done|apply I2..|].
  intros res c Hres. destruct (I3 res c Hres) as [J1 J2]. destruct (slot_add L1 (mkSummaryKey hour windowSec (TenantID k) SignalTraceOp (ServiceID k) 0 w) a _ a' L2 res hour c Ha (scan_length other row) Ead) as (_ & S1 & S2).
  rewrite <- HL, <- HL' in S1, S2. rewrite (window_key_class res) in S1, S2 by done. fold (window_class w) in S1, S2. split.
  - intros fld. rewrite J1, S1. destruct (res =? windowSec); cbn [andb]; [|apply eq64_eq; lia]. rewrite list_sum_cons, Hrow. cbn [from_option]. rewrite <- Z.add_assoc. apply eq64_add; [done|]. apply eq64_add; [|done].
    case_bool_decide; [apply scan_count_at|done].
  - rewrite J2, S2. destruct (Z.eqb_spec res windowSec) as [->|Hne]; cbn [andb]; [|split; [intros [[?|?]|[? _]]|intros [?|[? _]]]; try done; [by left|left; by left]]. rewrite bool_decide_eq_true. split.
    + intros [[?|Hc]|(_ & w' & Hw' & Hc)]; [by left|right; split; [done|]; exists w; split; [by left|done]|right; split; [done|]; exists w'; split; [by right|done]].
    + intros [?|(_ & w' & [->|Hw']%elem_of_cons & Hc)]; [left; by left|left; by right|right; split; [done|by exists w']].
Qed.

Lemma take_sketch_slots g safe row g' : take_sketch g safe row = fine g' -> slots hour g' = slots hour g /\ (acc_ok g -> acc_ok g') /\
  (sa_tenant g' = sa_tenant g /\ sa_service g' = sa_service g /\ sa_name g' = sa_name g).
Proof.
  assert (forall s u, slots hour (set_sketch_of g s u) = slots hour g /\ (acc_ok g -> acc_ok (set_sketch_of g s u)) /\
    (sa_tenant (set_sketch_of g s u) = sa_tenant g /\ sa_service (set_sketch_of g s u) = sa_service g /\ sa_name (set_sketch_of g s u) = sa_name g)) as HS
    by (intros s u; split_and!; try done; intros []; by constructor).
  unfold take_sketch. destruct (row !! 17%nat) as [[]|]; try (intros [= <-]; apply HS). intros (sk & _ & E)%ebind_Ok. destruct (_ || _); [injection E as <-; apply HS|].
  destruct (_ <? _); [injection E as <-; apply HS|]. apply ebind_Ok in E as (m & _ & [= <-]). apply HS.
Qed.

Lemma nothing_added g : acc_ok g -> (forall res c fld, res = windowSec \/ res = rollupHour -> eq64 (sid_sum f res hour c fld sid) 0) ->
  (forall res c, res = windowSec \/ res = rollupHour -> ~ sid_occurs f res hour c sid) -> added g g.
Proof.
  intros Hg Hz Hn. constructor; [done|done| |].
  - intros res c fld Hres. rewrite (Hz res c fld Hres). apply eq64_eq. lia.
  - intros res c Hres. specialize (Hn res c Hres). tauto.
Qed.

Lemma trace_class : KSignal k = SignalTraceOp -> hour_signal k = true /\ hour_class hour k = (TenantID k, SignalTraceOp, ServiceID k, 0, hour).
Proof. intros Hs. unfold hour_signal, hour_class. rewrite Hs. done. Qed.

Lemma take_series_added g b g' b' : acc_ok g -> sa_tenant g = TenantID k -> sa_service g = ServiceID k -> sa_name g = NameID k ->
  take_series r hour g b (sid, seriesArgs k) = fine (g', b') -> added g g'.
Proof.
  intros Hg Ht Hs Hn E. unfold take_series in E. cbn [fst snd] in E.
  assert (series_col (seriesArgs k) 4 = KSignal k) as Hsig by (unfold seriesArgs; by destruct (splitStatus k)). rewrite Hsig in E.
  fold (hour_signal k) in E. destruct (hour_signal k) eqn:Esig; cbn [negb] in E.
  2: { injection E as <- <-. assert (KSignal k <> SignalTraceOp) as Htr by (intros Htr; by rewrite (proj1 (trace_class Htr)) in Esig). apply nothing_added; [done| |].
    - intros res c fld [-> | ->]; [|by rewrite sid_sum_hour, Esig]. apply eq64_eq. by apply sid_window_none.
    - intros res c [-> | ->]; [by apply (proj2 (sid_window_none c FCount Htr))|]. rewrite sid_occurs_hour, Esig. by intros [_ ?]. }
  assert ((exists row, ru_hourly r !! (hour, sid) = Some row) \/ ru_hourly r !! (hour, sid) = None) as [[row Erow]|Erow] by (clear; destruct (ru_hourly r !! (hour, sid)) as [row|]; [left; by exists row|by right]);
    rewrite Erow in E.
  2: { injection E as <- <-. pose proof (proj1 hourly_windows Erow) as Hw. apply nothing_added; [done| |].
    - intros res c fld [-> | ->]; [|rewrite sid_sum_hour, Erow; by destruct (_ && _)]. destruct (Z.eq_dec (KSignal k) SignalTraceOp) as [Htr|Htr]; [by rewrite sid_sum_windows, Hw|by rewrite (proj1 (sid_window_none c fld Htr))].
    - intros res c [-> | ->]; [|rewrite sid_occurs_hour, Erow; by intros [[? [=]] _]]. destruct (Z.eq_dec (KSignal k) SignalTraceOp) as [Htr|Htr]; [|by apply (sid_window_none c FCount Htr)].
      rewrite sid_occurs_windows, Hw by done. by intros (w & ?%elem_of_nil & _). }
  set (other := other_identity (ru_file r) (seriesArgs k)) in *. set (b1 := charge_hourly b _) in E.
  assert (forall g1 name signal L1 L2 a a', acc_ok g1 -> sa_tenant g1 = sa_tenant g /\ sa_service g1 = sa_service g /\ sa_name g1 = sa_name g -> good_scalar a ->
    slots hour g = L1 ++ (mkSummaryKey hour rollupHour (TenantID k) signal (ServiceID k) name hour, a) :: L2 ->
    slots hour g1 = L1 ++ (mkSummaryKey hour rollupHour (TenantID k) signal (ServiceID k) name hour, a') :: L2 ->
    scalar_add a (scanSummaryScalar other row) = fine a' -> hour_class hour k = (TenantID k, signal, ServiceID k, name, hour) -> KSignal k <> SignalTraceOp -> added g g1) as HA.
  { intros g1 name signal L1 L2 a a' Hg1 Hsame Ha HL HL' Ead Hcl Htr. destruct (add_hourly g g1 L1 L2 signal name a a' row other Hg Ha Erow HL HL' Ead Esig Hcl) as [_ HC].
    constructor; [done|done| |]; intros res c.
    - intros fld Hres. destruct (HC res c Hres) as [H1 _]. rewrite H1. apply eq64_add; [done|]. destruct Hres as [-> | ->]; [|done]. by rewrite (proj1 (sid_window_none c fld Htr)).
    - intros Hres. destruct (HC res c Hres) as [_ ->]. apply or_iff_compat_l. destruct Hres as [-> | ->]; [|tauto]. split; [by intros []|by intros ?%(sid_window_none c FCount Htr)]. }
  destruct (Z.eqb_spec (KSignal k) SignalLog) as [El|El].
  { apply ebind_Ok in E as (l & Ead & [= <- <-]). apply (HA _ 0 SignalLog (take 2 (slots hour g)) (drop 3 (slots hour g)) (sa_logs g) l); try done.
    - destruct Hg as [G1 G2 G3 G4 G5]. constructor; try done. cbn. destruct (scalar_add_spec _ _ _ Ead (proj1 G3) (scan_length other row)) as (P1 & P2 & _). split; [done|by rewrite P1].
    - apply Hg.
    - unfold slots. cbn [take drop app]. by rewrite Ht, Hs.
    - unfold slots. cbn. by rewrite Ht, Hs.
    - unfold hour_class. by rewrite El.
    - by rewrite El. }
  destruct (Z.eqb_spec (KSignal k) SignalServiceEdge) as [Ee|Ee].
  { apply ebind_Ok in E as (l & Ead & [= <- <-]). apply (HA _ (NameID k) SignalServiceEdge [] (drop 1 (slots hour g)) (sa_edge g) l); try done.
    - destruct Hg as [G1 G2 G3 G4 G5]. constructor; try done. cbn. destruct (scalar_add_spec _ _ _ Ead (proj1 G1) (scan_length other row)) as (P1 & P2 & _). split; [done|by rewrite P1].
    - apply Hg.
    - unfold slots. cbn [take drop app]. by rewrite Ht, Hs, Hn.
    - unfold slots. cbn. by rewrite Ht, Hs, Hn.
    - unfold hour_class. by rewrite Ee.
    - by rewrite Ee. }
  assert (KSignal k = SignalTraceOp) as Htr by (unfold hour_signal in Esig; rewrite !orb_true_iff, !Z.eqb_eq in Esig; tauto). destruct (trace_class Htr) as [_ Hcl].
  apply ebind_Ok in E as (t & Ead & E). destruct (ru_hours r !! hour) as [h|]; [|done]. apply ebind_Ok in E as (g2 & Esk & E).
  set (g1 := set_scalars g t (sa_logs g) (sa_edge g)) in *. destruct (take_sketch_slots _ _ _ _ Esk) as (K1 & K2 & K3).
  destruct (add_hourly g g1 (take 1 (slots hour g)) (drop 2 (slots hour g)) SignalTraceOp 0 (sa_trace g) t row other Hg (ao_trace g Hg) Erow) as [Ht' HC]; try done.
  { unfold slots. cbn [take drop app]. by rewrite Ht, Hs. }
  { unfold slots. cbn. by rewrite Ht, Hs. }
  assert (acc_ok g1) as Hg1 by (destruct Hg as [G1 G2 G3 G4 G5]; constructor; done). specialize (K2 Hg1). destruct K3 as (T1 & T2 & T3).
  destruct (summed_windows other (windows_of (ru_file r) hour sid) g2 b1 g' b') as (W1 & (W2 & W3 & W4) & W5); [done|done|by rewrite T1|by rewrite T2|done|].
  constructor; [done|by rewrite W2, W3, W4, T1, T2, T3| |]; intros res c.
  - intros fld Hres. destruct (W5 res c Hres) as [-> _]. rewrite K1. destruct (HC res c Hres) as [-> _]. rewrite <- Z.add_assoc. apply eq64_add; [done|].
    destruct Hres as [-> | ->]; [|change (rollupHour =? rollupHour) with true; change (rollupHour =? windowSec) with false; cbn iota; apply eq64_eq; lia].
    change (windowSec =? rollupHour) with false. rewrite Z.eqb_refl. cbn iota. by rewrite (sid_sum_windows c fld Htr).
  - intros Hres. destruct (W5 res c Hres) as [_ ->]. rewrite K1. destruct (HC res c Hres) as [_ ->]. destruct Hres as [-> | ->].
    + rewrite (sid_occurs_windows c Htr). split; [intros [[?|[? _]]|[_ ?]]; [by left|done|by right]|intros [?|?]; [left; by left|right; by split]].
    + split; [intros [[?|[_ ?]]|[? _]]; [by left|by right|done]|intros [?|?]; left; [by left|right; by split]].
Qed.

End Series.

(** ** The walk *)

(** Over the series in [W]. *)
Definition walk_sum (f : StoreFile) (resolution hour : Z) (c : summary_class) (fld : sum_field) (W : Z -> bool) : Z :=
  list_sum (fun p => if W p.1.2 && entry f resolution hour c p then row_count p.2 fld else 0) (map_to_list (sf_buckets f)).
Definition walk_occurs (f : StoreFile) (resolution hour : Z) (c : summary_class) (W : Z -> bool) : Prop :=
  exists w sid row, sf_buckets f !! (w, sid) = Some row /\ W sid = true /\ entry f resolution hour c ((w, sid), row) = true.

(** Cells and accumulators hold what the series in [W] have. *)
Record walk_ok (f : StoreFile) (hour : Z) (W : Z -> bool) (all : tallied) : Prop := {
  wk_sums res c fld : res = windowSec \/ res = rollupHour -> eq64 (tally_of res hour c fld all) (walk_sum f res hour c fld W);
  wk_occurs res c : res = windowSec \/ res = rollupHour -> occurs res hour c all <-> walk_occurs f res hour c W;
}.

Lemma walk_perm f hour W all all' : all ≡ₚ all' -> walk_ok f hour W all -> walk_ok f hour W all'.
Proof.
  intros Hp [W1 W2]. constructor.
  - intros res c fld Hr. rewrite <- (W1 res c fld Hr). apply eq64_eq. unfold tally_of. by apply list_sum_perm.
  - intros res c Hr. rewrite <- (W2 res c Hr). by apply occurs_perm.
Qed.

Lemma walk_start f hour : walk_ok f hour (walked f None) [].
Proof.
  assert (forall sid, walked f None sid = false) as Hw by (intros sid; unfold walked; by destruct (sf_series f !! sid)). constructor.
  - intros res c fld _. apply eq64_eq. symmetry. apply list_sum_zero. intros p _. by rewrite Hw.
  - intros res c _. split; [by intros (p & ?%elem_of_nil & _)|]. intros (w & sid & row & _ & Hn & _). by rewrite Hw in Hn.
Qed.

Lemma walk_step f hour after x ids l l' : series_unique f -> next_ids f after (x :: ids) -> walk_ok f hour (walked f after) l ->
  (forall res c fld, res = windowSec \/ res = rollupHour -> eq64 (tally_of res hour c fld l') (tally_of res hour c fld l + sid_sum f res hour c fld x.1)) ->
  (forall res c, res = windowSec \/ res = rollupHour -> occurs res hour c l' <-> occurs res hour c l \/ sid_occurs f res hour c x.1) ->
  walk_ok f hour (walked f (Some x.2)) l'.
Proof.
  intros Hu Hn [W1 W2] A1 A2. pose proof (walked_next f after x ids Hu Hn) as HW. constructor.
  - intros res c fld Hr. rewrite A1, W1 by done. apply eq64_eq. unfold walk_sum, sid_sum. rewrite <- list_sum_plus. apply list_sum_ext. intros p _. destruct (HW p.1.2) as [-> Hx].
    destruct (Z.eqb_spec p.1.2 x.1) as [He|_]; [rewrite He, Hx; cbn; by destruct (entry _ _ _ _ _)|]. rewrite orb_false_r. cbn [andb]. destruct (_ && _); lia.
  - intros res c Hr. rewrite A2, W2 by done. unfold walk_occurs, sid_occurs. split.
    + intros [(w & sid & row & H1 & H2 & H3)|(w & row & H1 & H2)].
      * exists w, sid, row. split_and!; [done| |done]. destruct (HW sid) as [-> _]. by rewrite H2.
      * exists w, x.1, row. split_and!; [done| |done]. destruct (HW x.1) as [-> _]. by rewrite Z.eqb_refl, orb_true_r.
    + intros (w & sid & row & H1 & H2 & H3). destruct (HW sid) as [E _]. rewrite E in H2. apply orb_true_iff in H2 as [H2|H2]; [left; by exists w, sid, row|right]. z_bool. subst sid. by exists w, row.
Qed.

(** ** A build *)

Section Build.
Context `{Sqlite}.

Definition group_ok (g : option service_acc) : Prop := forall a, g = Some a -> acc_ok a.

Lemma enter_spec hour g id g' cells : group_ok g -> enter hour g id = fine (g', cells) ->
  acc_ok g' /\ (sa_tenant g' = series_col id.2 0 /\ sa_service g' = series_col id.2 1 /\ sa_name g' = series_col id.2 2) /\ of_rows cells ++ live hour (Some g') ≡ₚ live hour g.
Proof.
  intros Hg E. unfold enter in E. assert (forall t s n, live hour (Some (new_acc t s n)) = []) as Hnew by done. destruct g as [a|]; [|injection E as <- <-; split_and!; [apply new_acc_ok|done..]].
  specialize (Hg a eq_refl). destruct (negb (sa_tenant a =? _) || _) eqn:E1.
  - apply ebind_Ok in E as (cs & Ec & [= <- <-]). split_and!; [apply new_acc_ok|done..|]. rewrite Hnew, app_nil_r. by apply flushService_spec.
  - apply orb_false_iff in E1 as [E1%negb_false_iff E2%negb_false_iff]. z_bool. destruct (negb (sa_name a =? _)) eqn:E3.
    + destruct (flushEdge hour a) as [a' cs] eqn:Ef. injection E as <- <-. destruct (flushEdge_spec _ _ _ _ Ef) as (F1 & F2 & [F3 F4] & F5). split_and!; [|cbn; congruence..|].
      * destruct (F5 Hg). by constructor.
      * cbn [live]. rewrite slots_name by done. by rewrite F1.
    + apply negb_false_iff in E3. z_bool. injection E as <- <-. done.
Qed.

(** Everything a build has: the cells of its hour, pending and open. *)
Definition stored_tally (m : SummaryFile) (hour : Z) : tallied := of_rows (filter (fun p => ck_hour p.1 = hour) (map_to_list (su_cells m))).
Definition build_tally (c : summaryBuild) : tallied := of_rows (sb_pending c) ++ live (sb_hour c) (sb_group c).

(** The build is the same but for its walk. *)
Definition same_build (c c' : summaryBuild) : Prop :=
  sb_hour c' = sb_hour c /\ sb_uuid c' = sb_uuid c /\ sb_source c' = sb_source c /\ sb_token c' = sb_token c /\ sb_cleaning c' = sb_cleaning c.

Variables (r : RollupFile) (hour : Z) (stored : tallied).
Hypothesis Hser : series_ok (ru_file r).
Hypothesis Huniq : series_unique (ru_file r).
Hypothesis Hrolls : forall sid, rolls (ru_file r) hour sid (ru_hourly r !! (hour, sid)).

Record build_walk (c : summaryBuild) : Prop := {
  bw_hour : sb_hour c = hour;
  bw_group : group_ok (sb_group c);
  bw_keys k row : (k, row) ∈ sb_pending c -> ck_hour k = hour;
  bw_walk : walk_ok (ru_file r) hour (walked (ru_file r) (sb_after c)) (stored ++ build_tally c);
}.

Lemma live_hour g p : p ∈ live hour g -> ck_hour p.1 = hour.
Proof.
  destruct g as [g|]; [|by intros ?%elem_of_nil]. cbn [live]. unfold of_slots, slots. intros (q & -> & [_ Hq]%list_elem_of_filter)%list_elem_of_fmap. cbn [fst].
  rewrite !elem_of_cons in Hq. destruct Hq as [->|[->|[->|Hq]]]; try done. apply elem_of_lookup_imap in Hq as (i & a & -> & _). done.
Qed.

Lemma flushed_hour cells l g k row : of_rows cells ++ l ≡ₚ live hour g -> (k, row) ∈ cells -> ck_hour k = hour.
Proof.
  intros Hp Hin. apply (live_hour g (k, sv_ints (sr_scalar row))). rewrite <- Hp. apply elem_of_app. left. by apply (list_elem_of_fmap_2 (fun p : summaryCell => (p.1, sv_ints (sr_scalar p.2))) _ (k, row)).
Qed.

Lemma consume_walk c id ids c' : build_walk c -> next_ids (ru_file r) (sb_after c) (id :: ids) -> consume r c id = fine c' ->
  build_walk c' /\ sb_after c' = Some id.2 /\ same_build c c'.
Proof.
  intros [B1 B2 B3 B4] Hn E. unfold consume in E. rewrite B1 in E. apply ebind_Ok in E as ([g1 cells] & Ee & E). apply ebind_Ok in E as ([g2 b2] & Et & [= <-]).
  destruct (enter_spec _ _ _ _ _ B2 Ee) as (E1 & (E2 & E3 & E4) & E5). destruct (ni_in _ _ _ Hn id ltac:(by left)) as [Hid _]. destruct (Hser _ _ Hid) as (k & Hk & Ha).
  destruct id as [sid args]. cbn [fst snd] in *. subst args. assert (stored_key (ru_file r) sid = Some k) as Hsk by (unfold stored_key; by rewrite Hid, (series_roundtrip _ _ Hk)).
  assert (series_col (seriesArgs k) 0 = TenantID k /\ series_col (seriesArgs k) 1 = ServiceID k /\ series_col (seriesArgs k) 2 = NameID k) as (C1 & C2 & C3) by (unfold seriesArgs; by destruct (splitStatus k)).
  destruct (take_series_added r hour sid k Hsk (Hrolls sid) g1 (sb_budget c) g2 b2 E1) as [A1 A2 A3 A4]; [congruence..|done|].
  split; [|done]. constructor; cbn [sb_hour sb_group sb_pending sb_after with_walk]; [done|by intros a [= <-]| |].
  - intros k' row [Hin|Hin]%elem_of_app; [by eapply B3|]. by eapply flushed_hour.
  - unfold build_tally in *. cbn [sb_hour sb_group sb_pending with_walk]. rewrite B1 in *. apply (walk_step (ru_file r) hour (sb_after c) (sid, seriesArgs k) ids (stored ++ of_rows (sb_pending c) ++ live hour (sb_group c))); try done; cbn [fst].
    + intros res c0 fld Hr. rewrite of_rows_app, !tally_of_app. assert (tally_of res hour c0 fld (live hour (sb_group c)) = tally_of res hour c0 fld (of_rows cells) + tally_of res hour c0 fld (live hour (Some g1))) as ->
        by (rewrite <- tally_of_app; unfold tally_of; by apply list_sum_perm). cbn [live]. rewrite (A3 res c0 fld Hr). apply eq64_eq. lia.
    + intros res c0 Hr. rewrite of_rows_app, !occurs_app, <- (occurs_perm _ _ _ _ _ E5), occurs_app. cbn [live]. rewrite (A4 res c0 Hr). tauto.
Qed.

Lemma consume_all_walk clock : forall c ids c', build_walk c -> next_ids (ru_file r) (sb_after c) ids -> consume_all r clock c ids = fine c' -> build_walk c' /\ same_build c c'.
Proof.
  induction clock as [|clock IH]; intros c ids c' Hb Hn E; [destruct ids; injection E as <-; by split|]. destruct ids as [|id ids]; [injection E as <-; by split|]. cbn [consume_all] in E.
  destruct (_ <? _); [injection E as <-; by split|]. apply ebind_Ok in E as (c1 & E1 & E). destruct (consume_walk _ _ _ _ Hb Hn E1) as (Hb1 & Ha & S1 & S2 & S3 & S4 & S5).
  destruct (IH c1 ids c' Hb1) as [Hb' (T1 & T2 & T3 & T4 & T5)]; [rewrite Ha; by apply (next_ids_tail _ _ _ _ Hn)|done|]. split; [done|]. unfold same_build. split_and!; congruence.
Qed.

End Build.

(** A slice: the walk goes on, and is over when nothing is left. *)
Lemma summary_read_walk `{Sqlite} m c allowance clock c' done_ stored : series_ok (su_file m) -> series_unique (su_file m) ->
  (forall sid, rolls (su_file m) (sb_hour c) sid (ru_hourly (su_rollup m) !! (sb_hour c, sid))) -> 0 < allowance ->
  build_walk (su_rollup m) (sb_hour c) stored c -> summary_read m c allowance clock = fine (c', done_) ->
  build_walk (su_rollup m) (sb_hour c) stored c' /\ same_build c c' /\
  (done_ = true -> sb_group c' = None /\ forall sid args, sf_series (su_file m) !! sid = Some args -> walked (su_file m) (sb_after c') sid = true).
Proof.
  intros Hser Hu Hrolls Hal Hb E. unfold summary_read in E. apply ebind_Ok in E as ([] & _ & E). destruct (match sb_after c with Some _ => _ | None => _ end); [done|].
  pose proof (identities_next (su_file m) (sb_after c) (Z.to_nat allowance) Hu) as Hn. apply ebind_Ok in E as (c1 & E1 & E).
  destruct (consume_all_walk (su_rollup m) (sb_hour c) stored Hser Hu Hrolls clock c _ c1 Hb Hn E1) as [Hb1 Hs].
  fold (su_file m) in *. destruct (summaryIdentities (su_file m) (sb_after c) (Z.to_nat allowance)) as [|id ids] eqn:Ei; [|injection E as <- <-; split_and!; try done; apply Hs].
  assert (c1 = c) as -> by (destruct clock; by injection E1 as <-). apply ebind_Ok in E as (cells & Ec & [= <- <-]). apply flushService_spec in Ec. destruct Hb as [B1 B2 B3 B4]. split_and!; [|done..|].
  - constructor; cbn [sb_hour sb_group sb_pending sb_after with_walk]; [done|done| |].
    + intros k row [Hin|Hin]%elem_of_app; [by eapply B3|]. apply (flushed_hour (sb_hour c) cells [] (sb_group c) k row); [by rewrite app_nil_r|done].
    + unfold build_tally in *. cbn [sb_hour sb_group sb_pending with_walk live]. eapply walk_perm, B4. rewrite of_rows_app, app_nil_r, Ec. done.
  - intros _. cbn [sb_group with_walk sb_after]. split; [done|]. intros sid args Hs'. unfold walked. rewrite Hs'. rewrite (identities_none (su_file m) (sb_after c) (Z.to_nat allowance) Hu ltac:(lia) Ei sid args Hs'). done.
Qed.

(** ** Exact cells *)

Lemma tally_stored m hour res c fld : tally_of res hour c fld (stored_tally m hour) =
  list_sum (fun p => if decide (key_class p.1 = c) then (if of_hour res hour p.1 then sv_at (col_of fld) (sr_scalar p.2) else 0) else 0) (map_to_list (su_cells m)).
Proof.
  unfold tally_of, stored_tally, of_rows. rewrite list_sum_fmap, list_sum_filter. apply list_sum_ext. intros [k row] _. cbn [fst snd]. unfold of_class, of_hour.
  destruct (Z.eqb_spec (ck_hour k) hour) as [->|Hne]; cbn [andb]; [|rewrite decide_False by done; destruct (decide (key_class k = c)); done]. rewrite decide_True by done. destruct (ck_resolution k =? res); cbn [andb]; [case_bool_decide|]; case_decide; done.
Qed.

Lemma stored_occurs m hour res c : occurs res hour c (stored_tally m hour) <-> exists k, is_Some (su_cells m !! k) /\ of_hour res hour k = true /\ key_class k = c.
Proof.
  unfold occurs, stored_tally, of_rows, of_class. split.
  - intros (p & (q & -> & [_ Hq]%list_elem_of_filter)%list_elem_of_fmap & [H1 H2%bool_decide_eq_true]%andb_true_iff). destruct q as [k row]. apply elem_of_map_to_list in Hq. exists k. split_and!; [by eexists|done|done].
  - intros (k & [row Hk] & H1 & H2). eexists. split; [apply list_elem_of_fmap_2; apply (proj2 (list_elem_of_filter (fun p : summary_key * summary_row => ck_hour p.1 = hour) _ (k, row))); split; [|by apply elem_of_map_to_list]|]; cbn [fst]; [|by rewrite H1, H2, bool_decide_true].
    unfold of_hour in H1. apply andb_true_iff in H1 as [H1 _]. by z_bool.
Qed.

Lemma walk_sum_map f res hour c fld W : walk_sum f res hour c fld W =
  map_sum (fun k row => if W k.2 && entry f res hour c (k, row) then row_count row fld else 0) (sf_buckets f).
Proof. rewrite map_sum_list. by apply list_sum_ext; intros [k row] _. Qed.

(** A file with the same buckets of the hour and all its series. *)
Lemma walk_frame f f' hour W W' all : owned f -> sf_series f ⊆ sf_series f' -> same_hour f f' hour ->
  (forall sid, is_Some (sf_series f !! sid) -> W' sid = W sid) -> walk_ok f hour W all -> walk_ok f' hour W' all.
Proof.
  intros [_ Ho] Hsub Hsame HW [W1 W2].
  assert (forall w sid, hour <= w < hour + rollupHour -> sf_buckets f' !! (w, sid) = sf_buckets f !! (w, sid)) as Hb by (intros w sid Hw; symmetry; by apply Hsame).
  assert (forall res c w sid row, sf_buckets f !! (w, sid) = Some row -> entry f' res hour c ((w, sid), row) = entry f res hour c ((w, sid), row)) as He.
  { intros res c w sid row Hrow. destruct (Ho (w, sid) ltac:(by rewrite Hrow)) as [[args Hs] _]. cbn in Hs. unfold entry, cell_of, stored_key. cbn [fst snd]. by rewrite Hs, (lookup_weaken _ _ _ _ Hs Hsub). }
  assert (forall g res c w sid row, entry g res hour c ((w, sid), row) = true -> hour <= w < hour + rollupHour) as Hin.
  { intros g res c w sid row. unfold entry, cell_of. cbn [fst snd]. destruct (stored_key g sid); [|done]. cbn. unfold summarized, in_hour. cbn. intros [[[E1 E2]%andb_true_iff _]%andb_true_iff _]%andb_true_iff. z_bool. lia. }
  constructor.
  - intros res c fld Hr. rewrite (W1 res c fld Hr). apply eq64_eq. rewrite !walk_sum_map. apply map_sum_agree. intros [w sid]. destruct (decide (hour <= w < hour + rollupHour)) as [Hw|Hw].
    + rewrite Hb by done. destruct (sf_buckets f !! (w, sid)) as [row|] eqn:Erow; [|done]. cbn [from_option snd]. rewrite He by done. rewrite HW; [done|]. by apply (Ho (w, sid)).
    + assert (forall g W0 row, (if W0 sid && entry g res hour c ((w, sid), row) then row_count row fld else 0) = 0) as Hz.
      { intros g W0 row. destruct (entry g res hour c ((w, sid), row)) eqn:E; [by apply Hin in E|]. by rewrite andb_false_r. }
      destruct (sf_buckets f !! (w, sid)), (sf_buckets f' !! (w, sid)); cbn [from_option snd]; by rewrite ?Hz.
  - intros res c Hr. rewrite (W2 res c Hr). unfold walk_occurs. split; intros (w & sid & row & H1 & H2 & H3); exists w, sid, row; pose proof (Hin _ _ _ _ _ _ H3) as Hw.
    + rewrite Hb, He, HW by (done || apply (Ho (w, sid)); by rewrite H1). done.
    + rewrite Hb in H1 by done. rewrite He in H3 by done. rewrite HW in H2 by (apply (Ho (w, sid)); by rewrite H1). done.
Qed.

(** The end of a walk: the cells of the hour are exact. *)
Lemma walked_exact m hour : walk_ok (su_file m) hour (fun _ => true) (stored_tally m hour) -> summary_exact m hour windowSec /\ summary_exact m hour rollupHour.
Proof.
  intros [W1 W2]. assert (forall res, res = windowSec \/ res = rollupHour -> summary_exact m hour res) as HE; [|split; apply HE; by (left + right)]. intros res Hr. constructor.
  - intros fld c. rewrite <- tally_stored, (W1 res c fld Hr). apply eq64_eq. unfold walk_sum, table_cells. rewrite list_sum_omap. apply list_sum_ext. intros p _. unfold entry. cbn [andb].
    assert (forall x, cell_of (su_file m) p = Some x -> ce_count x fld = row_count p.2 fld) as Hc by (unfold cell_of; intros x (k & _ & [= <-])%bind_Some; done).
    destruct (cell_of (su_file m) p) as [x|]; cbn [from_option]; [|done]. rewrite (Hc x eq_refl). destruct (summarized res hour x); cbn [andb]; [case_bool_decide|]; case_decide; done.
  - intros c. rewrite <- stored_occurs, (W2 res c Hr). unfold walk_occurs, entry, table_cells. split.
    + intros (w & sid & row & H1 & _ & H2). destruct (cell_of (su_file m) ((w, sid), row)) as [x|] eqn:Ex; [|done]. apply andb_true_iff in H2 as [H2 H3%bool_decide_eq_true]. exists x. split_and!; [|done|done].
      apply list_elem_of_omap. exists ((w, sid), row). split; [by apply elem_of_map_to_list|done].
    + intros (x & ([[w sid] row] & H1%elem_of_map_to_list & Hx)%list_elem_of_omap & H2 & H3). exists w, sid, row. rewrite Hx, H2. split_and!; [done..|]. by apply bool_decide_eq_true.
Qed.
