(* ===== verification/SummarySystem.v ===== *)
(** * SummarySystem: summaries under every interleaving

    The rollup's system with the summaries on top: group commits, finalization,
    retention and rollup builds, and any number of summary builds, cleanups and
    openings between their transactions.  While a summary is current its cells
    have the counts of the buckets, so whatever source a read chooses, every
    sum the store answers is the sum of its rows. *)
From stdpp Require Import sorting strings.
From S2P Require Import Prelude Float64 SeriesKey Dict Registrar Identity Gc TopoIdentity.
From S2P Require Import Sketch SketchCodec Histogram Delta Limiter Baseline Engine EngineReads Topology TopologySnapshot.
From S2P Require Import StoreRows StoreTables StoreFacts StoreReads Query QueryFacts SumFacts Rollup RollupFacts ServiceSummary RollupReads RollupSums SummarySums SummaryBuild SummaryFacts.
#[local] Open Scope Z_scope.

Section System.
Context `{Sqlite} `{SqlSum}.

(** ** Steps *)

(** The database, the rollup builds and the summary builds by token, each idle
    or with a slice read and not written yet, and every token minted. *)
Record ssys := mkSsys {
  y_sum : SummaryFile;
  y_rollups : gmap string (Z * phase);
  y_builds : gmap string (summaryBuild * option bool);
  y_used : gset string;
}.

Definition with_rollup (m : SummaryFile) (r : RollupFile) : SummaryFile := mkSummary r (su_version m) (su_owner m) (su_hours m) (su_cells m).

(** A step of the rollup's system registers well-formed keys only.  A slice
    may be written without its process learning of it. *)
Inductive sstep : ssys -> ssys -> Prop :=
| ss_rollup m rb bs used r' rb' used' : rstep (mkSys (su_rollup m) rb used) (mkSys r' rb' used') -> series_ok (ru_file r') ->
    sstep (mkSsys m rb bs used) (mkSsys (with_rollup m r') rb' bs used')
| ss_open m rb bs used existed m' : ensureServiceSummarySchema existed m = fine m' -> sstep (mkSsys m rb bs used) (mkSsys m' rb bs used)
| ss_claim m rb bs used uuid hour token m' c : token ∉ used -> claimSummaryBuild m uuid hour token = fine (m', c) ->
    sstep (mkSsys m rb bs used) (mkSsys m' rb (<[token := (c, None)]> bs) ({[token]} ∪ used))
| ss_clean m rb bs used token c allowance m' c' : bs !! token = Some (c, None) -> sb_cleaning c = true -> 0 < allowance ->
    summary_clean m c allowance = fine (m', c') -> sstep (mkSsys m rb bs used) (mkSsys m' rb (<[token := (c', None)]> bs) used)
| ss_read m rb bs used token c allowance clock c' done_ : bs !! token = Some (c, None) -> sb_cleaning c = false -> 0 < allowance ->
    summary_read m c allowance clock = fine (c', done_) -> sstep (mkSsys m rb bs used) (mkSsys m rb (<[token := (c', Some done_)]> bs) used)
| ss_write m rb bs used token c done_ m' : bs !! token = Some (c, Some done_) -> summary_write m c done_ = fine m' ->
    sstep (mkSsys m rb bs used) (mkSsys m' rb (if done_ then delete token bs else <[token := (written c done_, None)]> bs) used)
| ss_lost m rb bs used token c done_ m' : bs !! token = Some (c, Some done_) -> summary_write m c done_ = fine m' ->
    sstep (mkSsys m rb bs used) (mkSsys m' rb (delete token bs) used)
| ss_stop m rb bs used token : sstep (mkSsys m rb bs used) (mkSsys m rb (delete token bs) used)
| ss_cleanup m rb bs used uuid hour cutoff token m' cl : claimSummaryCleanup m uuid hour cutoff token = fine (m', cl) -> sstep (mkSsys m rb bs used) (mkSsys m' rb bs used)
| ss_sweep m rb bs used cl limit m' done_ : summaryCleanupSlice m cl limit = fine (m', done_) -> sstep (mkSsys m rb bs used) (mkSsys m' rb bs used).

Inductive sreach (y0 : ssys) : ssys -> Prop :=
| sr_init : sreach y0 y0
| sr_step y y' : sreach y0 y -> sstep y y' -> sreach y0 y'.

(** ** Invariant *)

(** A source that was published: its token will not be again. *)
Definition src_ok (r : RollupFile) (used : gset string) (hour : Z) (src : string) : Prop :=
  src ∈ used /\ forall h, ru_hours r !! hour = Some h -> rh_state h = 1 -> rh_build h <> src.

Definition active (state : Z) : Prop := state = 1 \/ state = 2 \/ state = summaryArithmeticFallback.

(** What is known of a build while it is current: nothing walked before the
    cells of the hour are gone; then its cells have the walked series; and
    when its walk is over, every series. *)
Definition build_inv (m : SummaryFile) (c : summaryBuild) (ph : option bool) : Prop :=
  if sb_cleaning c then sb_after c = None /\ sb_group c = None /\ sb_pending c = []
  else build_walk (su_rollup m) (sb_hour c) (stored_tally m (sb_hour c)) c /\
    (ph = Some true -> sb_group c = None /\ walk_ok (su_file m) (sb_hour c) (fun _ => true) (stored_tally m (sb_hour c) ++ build_tally c)).

Record entry_ok (m : SummaryFile) (used : gset string) (token : string) (c : summaryBuild) (ph : option bool) : Prop := {
  en_token : sb_token c = token;
  en_used : token ∈ used;
  en_src : src_ok (su_rollup m) used (sb_hour c) (sb_source c);
  en_phase : ph <> None -> sb_cleaning c = false;
  en_inv : build_current m c = true -> build_inv m c ph;
}.

Record ssys_ok (y : ssys) : Prop := {
  so_rollup : rsys_ok (mkSys (su_rollup (y_sum y)) (y_rollups y) (y_used y));
  so_series : series_ok (su_file (y_sum y));
  so_unique : series_unique (su_file (y_sum y));
  so_built hour h : ru_hours (su_rollup (y_sum y)) !! hour = Some h -> rh_state h = 2 -> rh_build h ∈ y_used y;
  so_marks hour mh : su_hours (y_sum y) !! hour = Some mh -> active (mh_state mh) -> mh_build mh ∈ y_used y /\ src_ok (su_rollup (y_sum y)) (y_used y) hour (mh_source mh);
  so_builds token c ph : y_builds y !! token = Some (c, ph) -> entry_ok (y_sum y) (y_used y) token c ph;
  so_done hour : summaryEligible (y_sum y) hour true = true -> walk_ok (su_file (y_sum y)) hour (fun _ => true) (stored_tally (y_sum y) hour);
}.

(** ** Steps of the rollup *)

(** The hour is read from the same rows. *)
Record same_source (r r' : RollupFile) (hour : Z) : Prop := {
  sm_series : sf_series (ru_file r) ⊆ sf_series (ru_file r');
  sm_hour : same_hour (ru_file r) (ru_file r') hour;
  sm_hourly sid : ru_hourly r' !! (hour, sid) = ru_hourly r !! (hour, sid);
}.

Lemma same_source_refl r hour : same_source r r hour.
Proof. constructor; [done|by intros w sid _|done]. Qed.

(** What any step of the rollup does to the marks of an hour. *)
Record rollup_frame (r : RollupFile) (used : gset string) (r' : RollupFile) (used' : gset string) : Prop := {
  rf_used : used ⊆ used';
  rf_unique : series_unique (ru_file r) -> series_unique (ru_file r');
  rf_building hour h' : ru_hours r' !! hour = Some h' -> rh_state h' = 1 ->
    rh_build h' ∉ used \/ exists h, ru_hours r !! hour = Some h /\ rh_state h = 1 /\ rh_build h = rh_build h';
  rf_complete hour h' : ru_hours r' !! hour = Some h' -> rh_state h' = 2 -> current r hour (rh_build h') \/
    ru_hours r !! hour = Some h' /\ (ru_owner r' = Some (ru_uuid r') -> ru_owner r = Some (ru_uuid r) /\ ru_uuid r' = ru_uuid r /\ same_source r r' hour);
}.

Lemma inserted_series rows : forall db db', insertSeries db rows = fine db' -> db ⊆ db' /\
  ((forall i j args, db !! i = Some args -> db !! j = Some args -> i = j) -> forall i j args, db' !! i = Some args -> db' !! j = Some args -> i = j).
Proof.
  induction rows as [|row rows IH]; intros db db' E; [by injection E as <-|]. unfold insertSeries in E. rewrite exec_foldl_cons in E. apply ebind_Ok in E as (db1 & E1 & E).
  destruct (bool_decide _ || _) eqn:Ec; [done|]. injection E1 as <-. apply orb_false_iff in Ec as [Ec1%bool_decide_eq_false Ec2]. apply eq_None_not_Some in Ec1.
  destruct (IH _ _ E) as [I1 I2]. split; [etrans; [by apply insert_subseteq|done]|]. intros Hu. apply I2.
  assert (forall i args, db !! i = Some args -> args <> seriesArgs (si_Key row)) as Hne.
  { intros i args Hi ->. rewrite <- not_true_iff_false, existsb_exists in Ec2. apply Ec2. exists (i, seriesArgs (si_Key row)). split; [by apply list_elem_of_In, elem_of_map_to_list|]. by apply bool_decide_eq_true. }
  intros i j args. rewrite !lookup_insert. repeat case_decide; subst; try done; [| |by apply Hu].
  - intros [= <-] Hj. by destruct (Hne j _ Hj).
  - intros Hi [= <-]. by destruct (Hne i _ Hi).
Qed.

(** The marks do not change but are taken away, the hourly rows stay. *)
Lemma frame_marks r used r' : ru_hourly r' = ru_hourly r -> ru_hours r' ⊆ ru_hours r -> ru_uuid r' = ru_uuid r -> ru_owner r' = ru_owner r ->
  sf_series (ru_file r) ⊆ sf_series (ru_file r') -> (series_unique (ru_file r) -> series_unique (ru_file r')) ->
  (forall hour, is_Some (ru_hours r' !! hour) -> same_hour (ru_file r) (ru_file r') hour) -> rollup_frame r used r' used.
Proof.
  intros Eh Hsub Eu Eo Hser Hu Hsame. constructor; [done|done| |].
  - intros hour h' Hh Hs. right. exists h'. split; [by eapply lookup_weaken|done].
  - intros hour h' Hh Hs. right. split; [by eapply lookup_weaken|]. rewrite Eu, Eo. intros Ho. split_and!; [done|done|]. constructor; [done|by apply Hsame; rewrite Hh|by rewrite Eh].
Qed.

Lemma frame_write r used r' w rows : (forall hour h, ru_hours r !! hour = Some h -> hourStart hour = hour) -> sf_series (ru_file r') = sf_series (ru_file r) -> writes_window r r' w rows -> rollup_frame r used r' used.
Proof.
  intros Ha Es (Eu & Eo & Eh & Ehs & Hother & Hnone & _). apply frame_marks; try done; [|by rewrite Es|unfold series_unique; by rewrite Es|].
  - rewrite Ehs. unfold fire_triggers. destruct (0 <? rows); [apply delete_subseteq|done].
  - intros hour [h Hh] w' sid Hw. rewrite Ehs in Hh. unfold fire_triggers in Hh. destruct (0 <? rows) eqn:Er; z_bool.
    + apply lookup_delete_Some in Hh as [Hne Hh]. symmetry. apply Hother. cbn. intros ->. apply Hne. apply hourStart_in; [by eapply Ha|done].
    + by rewrite Hnone.
Qed.

(** New marks are of state 0 or 1. *)
Lemma frame_hours r used used' hours : used ⊆ used' ->
  (forall hour h', hours !! hour = Some h' -> rh_state h' = 1 -> rh_build h' ∉ used \/ exists h, ru_hours r !! hour = Some h /\ rh_state h = 1 /\ rh_build h = rh_build h') ->
  (forall hour h', hours !! hour = Some h' -> rh_state h' = 2 -> current r hour (rh_build h') \/ ru_hours r !! hour = Some h') -> rollup_frame r used (set_hours r hours) used'.
Proof.
  intros Hu H1 H2. constructor; [done|done|done|]. intros hour h' Hh Hs. destruct (H2 _ _ Hh Hs) as [?|?]; [by left|right]. split; [done|]. cbn. intros Ho. split_and!; [done..|]. constructor; [done|by intros w sid _|done].
Qed.

(** Hourly rows of an hour that is being built. *)
Lemma frame_hourly r used hour token hourly : (forall key, key.1 <> hour -> hourly !! key = ru_hourly r !! key) -> (hourly = ru_hourly r \/ current r hour token) ->
  rollup_frame r used (set_hourly r hourly) used.
Proof.
  intros Hother Hc. constructor; [done|done| |].
  - intros hr h' Hh Hs. right. by exists h'.
  - intros hr h' Hh Hs. right. split; [done|]. cbn. intros Ho. split_and!; [done..|]. constructor; [done|by intros w sid _|]. intros sid. cbn. destruct Hc as [->|(h & Hh' & Hs' & _)]; [done|].
    apply Hother. cbn. intros ->. cbn in Hh. rewrite Hh in Hh'. injection Hh' as <-. lia.
Qed.

Lemma discover_frame r used : rollup_frame r used (discoverRollupHours r) used.
Proof.
  assert (forall hs r0, exists hours, foldl discover_one r0 hs = set_hours r0 hours /\ forall hr h, hours !! hr = Some h -> rh_state h <> 0 -> ru_hours r0 !! hr = Some h) as HD.
  { induction hs as [|hour hs IH]; intros r0; [exists (ru_hours r0); split; [by destruct r0|done]|]. cbn [foldl]. destruct (IH (discover_one r0 hour)) as (hours & -> & Hh).
    unfold discover_one in *. destruct (ru_hours r0 !! hour) eqn:Eh; exists hours; (split; [done|]); [done|]. intros hr h Hl Hs. specialize (Hh hr h Hl Hs). cbn in Hh. rewrite lookup_insert in Hh. case_decide; [by injection Hh as <-|done]. }
  unfold discoverRollupHours. destruct (HD (discover_from (S (size (sf_buckets (ru_file r)))) (sf_buckets (ru_file r)) (- 2 ^ 63) ++ discover_from (S (size (ru_hourly r))) (ru_hourly r) (- 2 ^ 63)) r) as (hours & -> & Hh).
  apply frame_hours; [done| |]; intros hour h' Hl Hs; right; [exists h'; split; [|done]|]; apply Hh; try done; lia.
Qed.

Lemma finalize_series io r w r' : rollup_finalize io r w = fine r' -> sf_series (ru_file r') = sf_series (ru_file r).
Proof.
  unfold rollup_finalize. intros ([f stats] & E & [= <-])%ebind_Ok. cbn. unfold finalizeWindow in E. apply ebind_Ok in E as ([b st] & _ & E). destruct (_ =? 0), io; try done; by injection E as <- <-.
Qed.

Lemma committed_frame io f b f' n : commitGroup io f b = fine (f', n) -> sf_buckets f' = sf_buckets f /\ sf_series f ⊆ sf_series f' /\ (series_unique f -> series_unique f').
Proof.
  unfold commitGroup. intros (dict & _ & E)%ebind_Ok. apply ebind_Ok in E as (series & Es & E). apply ebind_Ok in E as ([log k] & _ & E). apply ebind_Ok in E as (bl & _ & E). destruct io; [done|]. injection E as <- <-. cbn.
  destruct (inserted_series _ _ _ Es) as [I1 I2]. done.
Qed.

Lemma rstep_frame r rb used r' rb' used' : rsys_ok (mkSys r rb used) -> rstep (mkSys r rb used) (mkSys r' rb' used') -> rollup_frame r used r' used'.
Proof.
  intros Hok Hs. pose proof (ro_aligned _ Hok) as Ha. cbn [ry_file] in Ha. inversion Hs; subst; clear Hs.
  - match goal with E : commitGroup _ _ _ = _ |- _ => destruct (committed_frame _ _ _ _ _ E) as (C1 & C2 & C3) end. apply frame_marks; try done. intros hour _ w sid _. cbn. by rewrite C1.
  - match goal with E : rollup_finalize _ _ _ = _ |- _ => pose proof (finalize_series _ _ _ _ E) as Es; destruct (finalize_writes _ _ _ _ E) as (rows & Hw) end. by eapply frame_write.
  - destruct (purge_writes r w) as (rows & Hw). by eapply frame_write.
  - constructor; cbn; [done|intros _ i j args Hi; cbn in Hi; by rewrite lookup_empty in Hi| |]; intros hour h' Hh Hst; right; [by exists h'|]. by split.
  - match goal with E : ensureRollupSchema _ _ _ = _ |- _ => unfold ensureRollupSchema in E; destruct (match ru_version r with Some v => _ | None => false end); [done|]; injection E as <- end.
    destruct (negb hourlyExists || negb (String.eqb (default "" (ru_owner r)) (ru_uuid r)) || negb intact) eqn:Ei.
    + assert (forall hour h', ((fun _ : RollupHour => mkHour 0 "" false) <$> ru_hours r) !! hour = Some h' -> rh_state h' = 0) as Hz by (intros hour h'; rewrite lookup_fmap; destruct (ru_hours r !! hour); [by intros [= <-]|done]).
      constructor; cbn; [done|done| |]; intros hour h' Hh Hst; rewrite (Hz _ _ Hh) in Hst; done.
    + apply orb_false_iff in Ei as [[Ee%negb_false_iff Eo%negb_false_iff]%orb_false_iff _]. subst hourlyExists. apply String.eqb_eq in Eo.
      assert (ru_owner r = Some (ru_uuid r)) as Hown by (destruct (ru_owner r); cbn in Eo; [by f_equal|]; by destruct (ro_uuid _ Hok)). by apply frame_marks.
  - apply discover_frame.
  - match goal with E : claim _ _ _ = _ |- _ => assert (r' = set_hours r (<[hour := mkHour 1 token false]> (ru_hours r))) as -> by (unfold claim in E; destruct (ru_hours r !! hour) as [h|]; [destruct (_ =? 2); [done|]|]; by injection E as <-) end.
    apply frame_hours; [set_solver| |]; intros hr h'; rewrite lookup_insert.
    + case_decide; [intros [= <-] _; by left|intros Hh Hst; right; by exists h'].
    + case_decide; [by intros [= <-]|by right].
  - match goal with E : clean_batch _ _ _ = _ |- _ => destruct (clean_batch_spec _ _ _ _ _ E) as (Hc & hourly & -> & H1 & _) end. eapply frame_hourly; [done|by right].
  - constructor; [done|done|intros hour0 h' Hh Hst; right; by exists h'|]. intros hour0 h' Hh Hst. right. split; [done|]. intros Ho. split_and!; [done..|apply same_source_refl].
  - match goal with E : roll_batch _ _ _ _ _ = _ |- _ => destruct (roll_batch_ok _ _ _ _ _ _ _ E) as (hourly & -> & H1 & Hc & _) end. by eapply frame_hourly.
  - match goal with E : publish _ _ _ _ = _ |- _ => unfold publish in E; apply ebind_Ok in E as ([] & Ec%check_current & [= <-]) end.
    assert (forall hr h, (if rp_total p =? 0 then delete hour (ru_hours r) else <[hour := mkHour 2 token (rp_safe p)]> (ru_hours r)) !! hr = Some h -> ru_hours r !! hr = Some h \/ hr = hour /\ h = mkHour 2 token (rp_safe p)) as Hh.
    { intros hr h. destruct (_ =? 0); [intros [_ ?]%lookup_delete_Some; by left|]. rewrite lookup_insert. case_decide; [intros [= <-]; by right|by left]. }
    apply frame_hours; [done| |]; intros hr h' [Hl|[-> ->]]%Hh Hst.
    + right. by exists h'.
    + done.
    + by right.
    + by left.
  - constructor; [done|done|intros hour0 h' Hh Hst; right; by exists h'|]. intros hour0 h' Hh Hst. right. split; [done|]. intros Ho. split_and!; [done..|apply same_source_refl].
Qed.

Lemma src_frame r used r' used' hour src : rollup_frame r used r' used' -> src_ok r used hour src -> src_ok r' used' hour src.
Proof.
  intros [F1 _ F3 _] [S1 S2]. split; [set_solver|]. intros h' Hh Hs He. destruct (F3 _ _ Hh Hs) as [Hn|(h & Hh' & Hs' & Hb)]; [by rewrite He in Hn|]. apply (S2 h Hh' Hs'). congruence.
Qed.

Lemma src_more r used used' hour src : used ⊆ used' -> src_ok r used hour src -> src_ok r used' hour src.
Proof. intros Hu [S1 S2]. split; [set_solver|done]. Qed.

Lemma build_current_spec m c : build_current m c = true <->
  su_hours m !! sb_hour c = Some (mkSummaryHour 1 (sb_token c) (sb_source c)) /\
  (exists h, ru_hours (su_rollup m) !! sb_hour c = Some h /\ rh_state h = 2 /\ rh_build h = sb_source c) /\
  ru_uuid (su_rollup m) = sb_uuid c /\ ru_owner (su_rollup m) = Some (sb_uuid c) /\ su_owner m = Some (sb_uuid c).
Proof.
  unfold build_current. rewrite !andb_true_iff, !bool_decide_eq_true, String.eqb_eq. split.
  - intros [[[Hm Hu] Ho] Hs]. destruct (su_hours m !! sb_hour c) as [[st b src]|]; [|done]. destruct (ru_hours (su_rollup m) !! sb_hour c) as [h|]; [|done].
    rewrite !andb_true_iff, !String.eqb_eq in Hm. destruct Hm as [[[[H1 H2] H3] H4] H5]. z_bool. cbn in *. subst. split_and!; try done. by exists h.
  - intros (Hm & (h & Hh & H1 & H2) & Hu & Ho & Hs). rewrite Hm, Hh. cbn. rewrite H1, H2, !String.eqb_refl. done.
Qed.

Lemma eligible_spec m hour : summaryEligible m hour true = true <->
  exists mh h, su_hours m !! hour = Some mh /\ (mh_state mh = 2 \/ mh_state mh = summaryArithmeticFallback) /\
    ru_hours (su_rollup m) !! hour = Some h /\ rh_state h = 2 /\ mh_source mh = rh_build h /\
    su_owner m = Some (ru_uuid (su_rollup m)) /\ ru_owner (su_rollup m) = Some (ru_uuid (su_rollup m)).
Proof.
  unfold summaryEligible, summary_current, ready_state. split.
  - destruct (su_hours m !! hour) as [mh|]; [|done]. intros [Hst Hc]%andb_true_iff. rewrite !andb_true_iff, !bool_decide_eq_true in Hc. destruct Hc as [[Hc Ho] Hr].
    destruct (ru_hours (su_rollup m) !! hour) as [h|]; [|done]. apply andb_true_iff in Hc as [H1 H2%String.eqb_eq]. z_bool. exists mh, h. split_and!; try done. destruct Hst as [?|Hst]; [by left|right]. cbn [andb] in Hst. by z_bool.
  - intros (mh & h & -> & Hst & -> & H1 & H2 & Ho & Hr). rewrite H1, H2, String.eqb_refl, !bool_decide_true by done. destruct Hst as [-> | ->]; done.
Qed.

Lemma eligible_any m hour c : summaryEligible m hour c = true -> summaryEligible m hour true = true.
Proof.
  unfold summaryEligible, ready_state. destruct (su_hours m !! hour) as [mh|]; [|done]. intros [H1 ->]%andb_true_iff. rewrite andb_true_r. destruct (mh_state mh =? 2); [done|]. cbn in *. apply andb_true_iff in H1 as [_ ->]. done.
Qed.

Lemma walked_same f f' after sid : sf_series f ⊆ sf_series f' -> is_Some (sf_series f !! sid) -> walked f' after sid = walked f after sid.
Proof. intros Hsub [args Hs]. unfold walked. by rewrite Hs, (lookup_weaken _ _ _ _ Hs Hsub). Qed.

Lemma walk_source r r' hour W W' all : owned (ru_file r) -> same_source r r' hour -> (forall sid, is_Some (sf_series (ru_file r) !! sid) -> W' sid = W sid) ->
  walk_ok (ru_file r) hour W all -> walk_ok (ru_file r') hour W' all.
Proof. intros Ho [S1 S2 _]. by apply walk_frame. Qed.

Lemma build_inv_source m r' c ph : owned (su_file m) -> same_source (su_rollup m) r' (sb_hour c) -> build_inv m c ph -> build_inv (with_rollup m r') c ph.
Proof.
  intros Ho Hs. unfold build_inv. destruct (sb_cleaning c); [done|]. intros [[B1 B2 B3 B4] HF]. split.
  - constructor; try done. eapply (walk_source (su_rollup m)); [done|done| |exact B4]. intros sid. apply walked_same, Hs.
  - intros Hp. destruct (HF Hp) as [Hg Hw]. split; [done|]. by eapply (walk_source (su_rollup m)).
Qed.

(** A step of the rollup keeps everything. *)
Lemma rollup_keeps m rb bs used r' rb' used' : ssys_ok (mkSsys m rb bs used) -> rstep (mkSys (su_rollup m) rb used) (mkSys r' rb' used') -> series_ok (ru_file r') ->
  ssys_ok (mkSsys (with_rollup m r') rb' bs used').
Proof.
  intros [Hr Hser Hu Hbuilt Hmarks Hbs Hdone] Hs Hser'. cbn [y_sum y_rollups y_builds y_used] in *. pose proof (rstep_frame _ _ _ _ _ _ Hr Hs) as HF. pose proof (ro_owned _ Hr) as Ho. cbn [ry_file] in Ho.
  pose proof HF as [F1 F2 F3 F4].
  constructor; cbn [y_sum y_rollups y_builds y_used with_rollup su_rollup su_hours]; [by apply (rstep_keeps _ _ Hs)|done|by apply F2| | | |].
  - intros hour h Hh Hst. destruct (F4 _ _ Hh Hst) as [(h0 & H1 & H2 & H3)|[Hh' _]]; apply F1; [rewrite <- H3; by apply (ro_used_hours _ Hr hour h0)|by eapply Hbuilt].
  - intros hour mh Hm Ha. destruct (Hmarks _ _ Hm Ha) as [H1 H2]. split; [by apply F1|by eapply src_frame].
  - intros token c ph Hb. destruct (Hbs _ _ _ Hb) as [E1 E2 E3 E5 E4]. constructor; [done|by apply F1|by eapply src_frame|done|]. intros (Hm & (h & Hh & H1 & H2) & Hid & Hown & Hsown)%build_current_spec. cbn in *.
    destruct (F4 _ _ Hh H1) as [(h0 & C1 & C2 & C3)|[Hh' Hsame]]; [by destruct (proj2 E3 h0 C1 C2); congruence|]. destruct Hsame as (O1 & O2 & O3); [congruence|].
    apply build_inv_source; [done|done|]. apply E4, build_current_spec. split_and!; [done|by exists h|congruence|congruence|done].
  - intros hour (mh & h & Hm & Hst & Hh & H1 & H2 & H3 & H4)%eligible_spec. cbn in *. assert (active (mh_state mh)) as Ha by (unfold active; tauto). destruct (Hmarks _ _ Hm Ha) as [_ [_ Hns]].
    destruct (F4 _ _ Hh H1) as [(h0 & C1 & C2 & C3)|[Hh' Hsame]]; [by destruct (Hns h0 C1 C2); congruence|]. destruct (Hsame H4) as (O1 & O2 & O3).
    eapply (walk_source (su_rollup m)); [done|exact O3|done|]. apply Hdone, eligible_spec. exists mh, h. split_and!; try done; congruence.
Qed.

(** ** Steps of the summaries *)

(** What changes is one hour's. *)
Record local_change (m m' : SummaryFile) (hour : Z) : Prop := {
  lc_rollup : su_rollup m' = su_rollup m;
  lc_owner : su_owner m' = su_owner m;
  lc_hours h : h <> hour -> su_hours m' !! h = su_hours m !! h;
  lc_cells k : ck_hour k <> hour -> su_cells m' !! k = su_cells m !! k;
}.

Lemma stored_agree m m' hour : (forall k, ck_hour k = hour -> su_cells m' !! k = su_cells m !! k) -> stored_tally m' hour ≡ₚ stored_tally m hour.
Proof.
  intros Hk. unfold stored_tally, of_rows. apply fmap_Permutation, NoDup_Permutation; [apply NoDup_filter, NoDup_map_to_list..|]. intros [k row]. rewrite !list_elem_of_filter, !elem_of_map_to_list. cbn.
  split; intros [H1 H2]; (split; [done|]); [rewrite <- Hk by done|rewrite Hk by done]; done.
Qed.

Lemma build_inv_stored m m' c ph : su_rollup m' = su_rollup m -> stored_tally m' (sb_hour c) ≡ₚ stored_tally m (sb_hour c) -> build_inv m c ph -> build_inv m' c ph.
Proof.
  intros Hr Hp. unfold build_inv. destruct (sb_cleaning c); [done|]. unfold su_file. rewrite Hr. intros [[B1 B2 B3 B4] HF]. split.
  - constructor; try done. eapply walk_perm, B4. by rewrite Hp.
  - intros Hph. destruct (HF Hph) as [Hg Hw]. split; [done|]. eapply walk_perm, Hw. by rewrite Hp.
Qed.

Lemma local_keeps m m' rb bs bs' used used' hour : ssys_ok (mkSsys m rb bs used) -> used ⊆ used' -> local_change m m' hour ->
  (forall mh, su_hours m' !! hour = Some mh -> active (mh_state mh) -> mh_build mh ∈ used' /\ src_ok (su_rollup m) used' hour (mh_source mh)) ->
  (forall token c ph, bs' !! token = Some (c, ph) -> (bs !! token = Some (c, ph) /\ sb_hour c <> hour) \/ entry_ok m' used' token c ph) ->
  (summaryEligible m' hour true = true -> walk_ok (su_file m) hour (fun _ => true) (stored_tally m' hour)) ->
  ssys_ok (mkSsys m' rb bs' used').
Proof.
  intros [Hr Hser Hu Hbuilt Hmarks Hbs Hdone] Hused [L1 L2 L3 L4] H1 H2 H3. cbn [y_sum y_rollups y_builds y_used] in *. unfold su_file in *.
  constructor; cbn [y_sum y_rollups y_builds y_used]; unfold su_file; rewrite ?L1; [|done|done| | | |].
  - destruct Hr as [K1 K2 K3 K4 K5 K6 K9 K7 K8]. constructor; cbn [ry_file ry_builds ry_used] in *; try done.
    + intros token b Hb. by apply Hused, (K5 token b).
    + intros hr h Hh Hs. by apply Hused, (K6 hr h).
  - intros hr h Hh Hs. by apply Hused, (Hbuilt hr h).
  - intros hr mh Hm Ha. destruct (decide (hr = hour)) as [->|Hne]; [by apply H1|]. rewrite L3 in Hm by done. destruct (Hmarks _ _ Hm Ha) as [M1 M2]. split; [by apply Hused|by eapply src_more].
  - intros token c ph Hb. destruct (H2 _ _ _ Hb) as [[Hb' Hne]|?]; [|done]. destruct (Hbs _ _ _ Hb') as [E1 E2 E3 E5 E4]. constructor; [done|by apply Hused|rewrite L1; by eapply src_more|done|].
    intros Hc. apply (build_inv_stored m); [done|apply stored_agree; intros k Hk; apply L4; congruence|]. apply E4. rewrite build_current_spec in *. by rewrite L1, L2, L3 in Hc.
  - intros hr He. destruct (decide (hr = hour)) as [->|Hne]; [by apply H3|]. eapply walk_perm; [symmetry; apply stored_agree; intros k Hk; apply L4; congruence|]. apply Hdone.
    rewrite eligible_spec in *. by rewrite L1, L2, L3 in He.
Qed.

(** A build whose token is not the mark's is not current. *)
Lemma stale_entry m used used' m' token c ph : entry_ok m used token c ph -> used ⊆ used' -> su_rollup m' = su_rollup m ->
  (forall mh, su_hours m' !! sb_hour c = Some mh -> mh_state mh = 1 -> mh_build mh <> token) -> entry_ok m' used' token c ph.
Proof.
  intros [E1 E2 E3 E5 E4] Hu Hr Hn. constructor; [done|by apply Hu|rewrite Hr; by eapply src_more|done|]. intros (Hm & _)%build_current_spec. by destruct (Hn _ Hm eq_refl).
Qed.

Lemma stored_nil m hour : (forall k, ck_hour k = hour -> su_cells m !! k = None) -> stored_tally m hour = [].
Proof.
  intros Hn. unfold stored_tally, of_rows. destruct (filter _ _) as [|[k row] l] eqn:El; [done|]. exfalso. assert ((k, row) ∈ (k, row) :: l) as Hin by (by left). rewrite <- El in Hin.
  apply list_elem_of_filter in Hin as [Hk Hin%elem_of_map_to_list]. cbn in Hk. by rewrite Hn in Hin.
Qed.

Lemma deleted_spec m hour limit m' n : 0 <= limit -> deleteSummaryBatch m hour limit = (m', n) ->
  su_rollup m' = su_rollup m /\ su_owner m' = su_owner m /\ su_hours m' = su_hours m /\ (forall k, ck_hour k <> hour -> su_cells m' !! k = su_cells m !! k) /\
  n <= limit /\ (n <> limit -> stored_tally m' hour = []).
Proof.
  intros Hl. unfold deleteSummaryBatch. set (keys := take _ _). intros [= <- <-]. cbn.
  assert (forall l (t : gmap summary_key summary_row) k, foldl (fun t k => delete k t) t l !! k = if bool_decide (k ∈ l) then None else t !! k) as HD.
  { induction l as [|x l IH]; intros t k; cbn [foldl]; [by rewrite bool_decide_false by apply not_elem_of_nil|]. rewrite IH, lookup_delete. destruct (decide (k ∈ l)) as [Hk|Hk].
    - rewrite !bool_decide_true; [done|by right|done].
    - rewrite (bool_decide_false _ Hk). case_decide as Hx; [subst; rewrite bool_decide_true; [done|by left]|]. rewrite bool_decide_false; [done|]. by intros [->|?]%elem_of_cons. }
  split_and!; try done.
  - intros k Hk. rewrite HD, bool_decide_false; [done|]. intros Hin. unfold keys in Hin. apply elem_of_take in Hin as (i & Hi & _). apply list_elem_of_lookup_2, list_elem_of_filter in Hi. by destruct Hi.
  - unfold keys. rewrite length_take. lia.
  - intros Hn. apply stored_nil. intros k Hk. cbn. rewrite HD. case_bool_decide as Hd; [done|]. apply eq_None_not_Some. intros Hs. apply Hd. unfold keys in *. rewrite length_take in Hn.
    rewrite take_ge by lia. apply list_elem_of_filter. split; [done|]. by apply elem_of_elements, elem_of_dom.
Qed.

Lemma inserted_spec hour l : forall t t', exec_foldl insert_cell t l = fine t' -> (forall k row, (k, row) ∈ l -> ck_hour k = hour) ->
  (forall k, ck_hour k <> hour -> t' !! k = t !! k) /\ filter (fun p : summary_key * summary_row => ck_hour p.1 = hour) (map_to_list t') ≡ₚ filter (fun p => ck_hour p.1 = hour) (map_to_list t) ++ l.
Proof.
  induction l as [|[k row] l IH]; intros t t' E Hin; [injection E as <-; by rewrite app_nil_r|]. rewrite exec_foldl_cons in E. apply ebind_Ok in E as (t1 & E1 & E). unfold insert_cell in E1.
  destruct (bool_decide _) eqn:Eb; [done|]. apply bool_decide_eq_false, eq_None_not_Some in Eb. injection E1 as <-. cbn [fst snd] in *. destruct (IH _ _ E) as [I1 I2]; [intros; eapply Hin; by right|].
  assert (ck_hour k = hour) as Hk by (eapply Hin; by left). split.
  - intros k' Hk'. rewrite I1 by done. apply lookup_insert_ne. congruence.
  - rewrite I2, (map_to_list_insert _ _ _ Eb), filter_cons, decide_True by done. by rewrite <- Permutation_middle.
Qed.

Lemma check_build m c : checkSummaryBuild m c = fine tt -> build_current m c = true.
Proof. unfold checkSummaryBuild. by destruct (build_current m c). Qed.

(** The mark of a current build, and that no other build is current. *)
Lemma current_mark m c : build_current m c = true -> su_hours m !! sb_hour c = Some (mkSummaryHour 1 (sb_token c) (sb_source c)).
Proof. by intros [Hm _]%build_current_spec. Qed.

Lemma not_eligible m hour : (forall mh, su_hours m !! hour = Some mh -> mh_state mh <> 2 /\ mh_state mh <> summaryArithmeticFallback) -> summaryEligible m hour true = true -> False.
Proof. intros Hn (mh & h & Hm & Hst & _)%eligible_spec. destruct (Hn _ Hm). tauto. Qed.

Lemma open_keeps_summary m rb bs used existed m' : ssys_ok (mkSsys m rb bs used) -> ensureServiceSummarySchema existed m = fine m' -> ssys_ok (mkSsys m' rb bs used).
Proof.
  intros [Hr Hser Hu Hbuilt Hmarks Hbs Hdone] E. cbn [y_sum y_rollups y_builds y_used] in *. unfold ensureServiceSummarySchema in E. destruct (match su_version m with Some v => _ | None => false end); [done|]. injection E as <-.
  destruct (negb existed || negb (String.eqb (default "" (su_owner m)) (ru_uuid (su_rollup m)))) eqn:Ev.
  - assert (forall hour mh, ((fun _ : SummaryHour => mkSummaryHour 0 "" "") <$> su_hours m) !! hour = Some mh -> mh = mkSummaryHour 0 "" "") as Hz by (intros hour mh; rewrite lookup_fmap; destruct (su_hours m !! hour); [by intros [= <-]|done]).
    constructor; cbn [y_sum y_rollups y_builds y_used su_rollup su_hours]; try done.
    + intros hour mh ->%Hz [?|[?|?]]; done.
    + intros token c ph Hb. apply (stale_entry m used); [by apply Hbs|done|done|]. by intros mh ->%Hz.
    + intros hour He. exfalso. eapply not_eligible; [|exact He]. by intros mh ->%Hz.
  - apply orb_false_iff in Ev as [Ee%negb_false_iff Eo%negb_false_iff]. subst existed. apply String.eqb_eq in Eo.
    assert (su_owner m = Some (ru_uuid (su_rollup m))) as Hown by (destruct (su_owner m); cbn in Eo; [by f_equal|]; by destruct (ro_uuid _ Hr)).
    constructor; cbn [y_sum y_rollups y_builds y_used su_rollup su_hours]; try done.
    + intros token c ph Hb. destruct (Hbs _ _ _ Hb) as [E1 E2 E3 E5 E4]. constructor; try done. intros Hc. apply E4. rewrite build_current_spec in *. cbn in Hc. by rewrite Hown.
    + intros hour He. apply Hdone. rewrite eligible_spec in *. cbn in He. by rewrite Hown.
Qed.

Lemma claim_keeps_summary m rb bs used uuid hour token m' c : ssys_ok (mkSsys m rb bs used) -> token ∉ used -> claimSummaryBuild m uuid hour token = fine (m', c) ->
  ssys_ok (mkSsys m' rb (<[token := (c, None)]> bs) ({[token]} ∪ used)).
Proof.
  intros Hok Hf E. unfold claimSummaryBuild in E. destruct (negb _); [done|]. destruct (ru_hours (su_rollup m) !! hour) as [h|] eqn:Eh; [|done]. destruct (negb (rh_state h =? 2)) eqn:Es; [done|].
  apply negb_false_iff in Es. z_bool. destruct (summaryEligible m hour true); [done|]. injection E as <- <-.
  assert (src_ok (su_rollup m) ({[token]} ∪ used) hour (rh_build h)) as Hsrc.
  { split; [pose proof (so_built _ Hok hour h Eh Es); cbn in *; set_solver|]. intros h' Hh' Hs'. rewrite Eh in Hh'. injection Hh' as <-. lia. }
  apply (local_keeps m _ rb bs _ used _ hour Hok); [set_solver| | | |].
  - constructor; try done. intros h' Hne. cbn. by rewrite lookup_insert_ne.
  - intros mh. cbn. rewrite lookup_insert_eq. intros [= <-] _. split; [cbn; set_solver|done].
  - intros t c ph. rewrite lookup_insert. case_decide as Ht; [intros [= <- <-]; right; subst t; constructor; [done|set_solver|done|done|done]|]. intros Hb.
    destruct (decide (sb_hour c = hour)) as [Hh|Hne]; [right|by left]. pose proof (so_builds _ Hok _ _ _ Hb) as He. apply (stale_entry m used); [done|set_solver|done|].
    cbn. rewrite Hh, lookup_insert_eq. by intros mh [= <-] _.
  - intros He. exfalso. eapply not_eligible; [|exact He]. cbn. rewrite lookup_insert_eq. by intros mh [= <-].
Qed.

Lemma clean_keeps m rb bs used token c allowance m' c' : ssys_ok (mkSsys m rb bs used) -> bs !! token = Some (c, None) -> sb_cleaning c = true -> 0 < allowance ->
  summary_clean m c allowance = fine (m', c') -> ssys_ok (mkSsys m' rb (<[token := (c', None)]> bs) used).
Proof.
  intros Hok Hb Hcl Hal E. unfold summary_clean in E. apply ebind_Ok in E as ([] & Hcur%check_build & E). destruct (deleteSummaryBatch m (sb_hour c) allowance) as [m1 n] eqn:Ed. injection E as <- <-.
  destruct (deleted_spec m (sb_hour c) allowance m1 n ltac:(lia) Ed) as (D1 & D2 & D3 & D4 & D5 & D6). pose proof (current_mark _ _ Hcur) as Hm.
  pose proof (so_builds _ Hok _ _ _ Hb) as [E1 E2 E3 E5 E4]. cbn [y_sum y_used] in *.
  apply (local_keeps m _ rb bs _ used _ (sb_hour c) Hok); [done|by constructor; rewrite ?D3| | |].
  - intros mh. rewrite D3. by apply (so_marks _ Hok).
  - intros t c2 ph. rewrite lookup_insert. case_decide as Ht.
    + intros [= <- <-]. right. subst t. constructor; cbn [sb_token sb_source sb_hour with_flags]; [done|done|by rewrite D1|done|]. intros _. specialize (E4 Hcur). unfold build_inv in E4. rewrite Hcl in E4.
      destruct E4 as (P1 & P2 & P3). unfold build_inv, with_flags. cbn [sb_cleaning sb_after sb_group sb_pending sb_hour]. destruct (Z.eqb_spec n allowance); [done|].
      split; [|done]. constructor; cbn [sb_hour sb_group sb_pending sb_after]; [done|rewrite P2; by intros a [=]|rewrite P3; by intros k row ?%elem_of_nil|].
      rewrite D6 by done. unfold build_tally. cbn [sb_pending sb_group sb_hour]. rewrite P1, P2, P3. apply walk_start.
    + intros Hb'. destruct (decide (sb_hour c2 = sb_hour c)) as [Hh|Hne]; [right|by left]. apply (stale_entry m used); [by apply (so_builds _ Hok)|done|done|]. rewrite D3, Hh, Hm. intros mh [= <-] _. cbn. congruence.
  - intros He. exfalso. eapply not_eligible; [|exact He]. rewrite D3, Hm. by intros mh [= <-].
Qed.

Lemma same_current m c c' : same_build c c' -> build_current m c' = build_current m c.
Proof. intros (S1 & S2 & S3 & S4 & _). unfold build_current. by rewrite S1, S2, S3, S4. Qed.

Lemma read_keeps m rb bs used token c allowance clock c' done_ : ssys_ok (mkSsys m rb bs used) -> bs !! token = Some (c, None) -> sb_cleaning c = false -> 0 < allowance ->
  summary_read m c allowance clock = fine (c', done_) -> ssys_ok (mkSsys m rb (<[token := (c', Some done_)]> bs) used).
Proof.
  intros Hok Hb Hcl Hal E. pose proof (so_builds _ Hok _ _ _ Hb) as [E1 E2 E3 E5 E4]. cbn [y_sum y_used] in *.
  assert (build_current m c = true) as Hcur by (unfold summary_read in E; apply ebind_Ok in E as ([] & Hcur & _); by apply check_build).
  specialize (E4 Hcur). unfold build_inv in E4. rewrite Hcl in E4. destruct E4 as [Hw _]. pose proof Hcur as (_ & (h & Hh & Hst & Hbd) & Hu & Ho & _)%build_current_spec.
  assert (forall sid, rolls (su_file m) (sb_hour c) sid (ru_hourly (su_rollup m) !! (sb_hour c, sid))) as Hrolls by (apply (ro_complete _ (so_rollup _ Hok) (sb_hour c) h); [cbn; congruence|done|done]).
  destruct (summary_read_walk m c allowance clock c' done_ (stored_tally m (sb_hour c)) (so_series _ Hok) (so_unique _ Hok) Hrolls Hal Hw E) as (R1 & R2 & R3).
  pose proof R2 as (S1 & S2 & S3 & S4 & S5).
  apply (local_keeps m m rb bs _ used used (sb_hour c) Hok); [done|done| | |].
  - intros mh. apply (so_marks _ Hok).
  - intros t c2 ph. rewrite lookup_insert. case_decide as Ht; [intros [= <- <-]|intros Hb'; right; by apply (so_builds _ Hok)]. right. subst t.
    constructor; [congruence|done|by rewrite S1, S3|by rewrite S5|]. intros _. unfold build_inv. rewrite S5, Hcl, S1. split; [done|]. intros [= ->]. destruct (R3 eq_refl) as [Hg Hall]. split; [done|].
    eapply (walk_frame (su_file m)); [apply (ro_owned _ (so_rollup _ Hok))|done|by intros w sid _| |apply R1]. intros sid [args Hs]. symmetry. by eapply Hall.
  - intros He. apply (so_done _ Hok _ He).
Qed.

(** A slice that is written; its build may go on, or not. *)
Lemma write_keeps m rb bs used token c done_ m' bs' : ssys_ok (mkSsys m rb bs used) -> bs !! token = Some (c, Some done_) -> summary_write m c done_ = fine m' ->
  (forall t c2 ph, bs' !! t = Some (c2, ph) -> (t <> token /\ bs !! t = Some (c2, ph)) \/ (t = token /\ done_ = false /\ c2 = written c done_ /\ ph = None)) ->
  ssys_ok (mkSsys m' rb bs' used).
Proof.
  intros Hok Hb E Hbs. pose proof (so_builds _ Hok _ _ _ Hb) as [E1 E2 E3 E5 E4]. cbn [y_sum y_used] in *. unfold summary_write in E.
  apply ebind_Ok in E as ([] & Hcur%check_build & E). apply ebind_Ok in E as (cells & Ec & [= <-]). specialize (E4 Hcur). unfold build_inv in E4. rewrite E5 in E4 by done. destruct E4 as [[B1 B2 B3 B4] HF].
  destruct (inserted_spec (sb_hour c) _ _ _ Ec B3) as [I1 I2]. pose proof (current_mark _ _ Hcur) as Hm.
  set (m' := set_su_hours (set_su_cells m cells) _). assert (stored_tally m' (sb_hour c) ≡ₚ stored_tally m (sb_hour c) ++ of_rows (sb_pending c)) as Hst.
  { unfold stored_tally. rewrite <- of_rows_app. unfold of_rows. by apply fmap_Permutation. }
  assert (forall mh, su_hours m' !! sb_hour c = Some mh -> mh = if done_ then mkSummaryHour (if bu_unsafe (sb_budget c) then summaryArithmeticFallback else 2) (sb_token c) (sb_source c) else mkSummaryHour 1 (sb_token c) (sb_source c)) as Hmark.
  { unfold m'. cbn. intros mh. destruct done_; [rewrite lookup_insert_eq|rewrite Hm]; by intros [= <-]. }
  apply (local_keeps m m' rb bs bs' used used (sb_hour c) Hok); [done| | | |].
  - constructor; try done. intros h Hne. unfold m'. cbn. destruct done_; [by rewrite lookup_insert_ne|done].
  - intros mh Hmh Ha. rewrite (Hmark _ Hmh). destruct done_; cbn [mh_build mh_source]; rewrite E1; done.
  - intros t c2 ph Hl. destruct (Hbs _ _ _ Hl) as [[Hne Hb']|(-> & -> & -> & ->)].
    + destruct (decide (sb_hour c2 = sb_hour c)) as [Hh|Hn]; [right|by left]. apply (stale_entry m used); [by apply (so_builds _ Hok)|done|done|]. rewrite Hh. intros mh Hmh Hs. rewrite (Hmark _ Hmh) in *.
      destruct done_; cbn [mh_build] in *; congruence.
    + right. constructor; [done|done|done|done|]. intros _. unfold build_inv, written. cbn [sb_cleaning with_flags with_walk sb_hour]. rewrite E5 by done. split; [|done].
      constructor; cbn [sb_hour sb_group sb_pending sb_after with_flags with_walk]; [done|done|by intros k row ?%elem_of_nil|]. unfold su_file. cbn [su_rollup m' set_su_hours set_su_cells].
      eapply walk_perm, B4. rewrite Hst. unfold build_tally. cbn [sb_pending sb_group sb_hour with_flags with_walk]. by rewrite <- app_assoc.
  - intros He. destruct done_; [|exfalso; eapply not_eligible; [|exact He]; intros mh Hmh; by rewrite (Hmark _ Hmh)].
    destruct (HF eq_refl) as [Hg Hw]. eapply walk_perm, Hw. rewrite Hst. unfold build_tally. rewrite Hg. cbn [live]. by rewrite app_nil_r.
Qed.

Lemma cleanup_keeps m m' rb bs used hour : ssys_ok (mkSsys m rb bs used) -> local_change m m' hour -> (forall mh, su_hours m' !! hour = Some mh -> mh_state mh = 3) -> ssys_ok (mkSsys m' rb bs used).
Proof.
  intros Hok Hl Hm. apply (local_keeps m m' rb bs bs used used hour Hok); [done|done| | |].
  - intros mh Hmh. rewrite (Hm _ Hmh). by intros [?|[?|?]].
  - intros t c ph Hb. destruct (decide (sb_hour c = hour)) as [Hh|Hne]; [right|by left]. apply (stale_entry m used); [by apply (so_builds _ Hok)|done|apply Hl|]. rewrite Hh. intros mh Hmh. rewrite (Hm _ Hmh). done.
  - intros He. exfalso. eapply not_eligible; [|exact He]. intros mh Hmh. by rewrite (Hm _ Hmh).
Qed.

Lemma sstep_keeps y y' : sstep y y' -> ssys_ok y -> ssys_ok y'.
Proof.
  intros Hs Hok. destruct Hs as [m rb bs used r' rb' used' Hr Hser|m rb bs used existed m' E|m rb bs used uuid hour token m' c Hf E|m rb bs used token c allowance m' c' Hb Hcl Hal E|m rb bs used token c allowance clock c' done_ Hb Hcl Hal E
    |m rb bs used token c done_ m' Hb E|m rb bs used token c done_ m' Hb E|m rb bs used token|m rb bs used uuid hour cutoff token m' cl E|m rb bs used cl limit m' done_ E].
  - by eapply rollup_keeps.
  - by eapply open_keeps_summary.
  - by eapply claim_keeps_summary.
  - by eapply clean_keeps.
  - by eapply read_keeps.
  - eapply write_keeps; [done|done|done|]. intros t c2 ph. destruct done_; [intros [Hne Hl]%lookup_delete_Some; left; by split|]. rewrite lookup_insert. case_decide as Ht; [intros [= <- <-]; right; by subst|by left].
  - eapply write_keeps; [done|done|done|]. intros t c2 ph [Hne Hl]%lookup_delete_Some. left. by split.
  - destruct Hok as [Hr Hser Hu Hbuilt Hmarks Hbs Hdone]. constructor; try done. cbn. intros t c ph [_ Hl]%lookup_delete_Some. by apply Hbs.
  - unfold claimSummaryCleanup in E. destruct (negb _); [done|]. injection E as <- _. apply (cleanup_keeps m _ rb bs used hour Hok).
    + constructor; try done. intros h Hne. cbn. by rewrite lookup_insert_ne.
    + intros mh. cbn. rewrite lookup_insert_eq. by intros [= <-].
  - unfold summaryCleanupSlice in E. set (mine := match su_hours m !! cl_hour cl with Some _ => _ | None => false end) in E. destruct mine eqn:Em; [|done]. cbn [negb orb] in E. destruct (_ || _); [done|].
    destruct (deleteSummaryBatch m (cl_hour cl) (in_allowance limit)) as [m1 n] eqn:Ed. injection E as <- _. unfold mine in Em.
    assert (0 <= in_allowance limit) as Hl by (unfold in_allowance; change rollupBatch with 128; destruct (_ || _) eqn:Eo; [lia|]; apply orb_false_iff in Eo as [? _]; z_bool; lia).
    destruct (deleted_spec _ _ _ _ _ Hl Ed) as (D1 & D2 & D3 & D4 & _). destruct (su_hours m !! cl_hour cl) as [mh0|] eqn:Emh; [|done]. rewrite !andb_true_iff in Em. destruct Em as [[[Em _] _] _]. z_bool.
    apply (cleanup_keeps m _ rb bs used (cl_hour cl) Hok).
    + destruct (n <? in_allowance limit); [|by constructor; rewrite ?D3]. constructor; cbn; [done|done| |done]. intros h Hne. rewrite lookup_delete_ne by done. by rewrite D3.
    + intros mh. destruct (n <? in_allowance limit); cbn; [by rewrite lookup_delete_eq|]. rewrite D3, Emh. by intros [= <-].
Qed.

Lemma sreach_keeps y0 y : sreach y0 y -> ssys_ok y0 -> ssys_ok y.
Proof. intros Hr Hy0. induction Hr as [|y y' Hr IH Hs]; [done|by eapply sstep_keeps]. Qed.

(** The derived tables of a reachable system are what their marks say. *)
Lemma system_derived y : ssys_ok y -> derived_ok (y_sum y).
Proof.
  intros Hok. pose proof (so_rollup _ Hok) as Hr. constructor; [apply Hok|exact (ro_hourly _ Hr)| |].
  - intros hour h Ho Hh Hs. by apply (ro_complete _ Hr hour h Ho Hh Hs).
  - intros hour c He. apply walked_exact, (so_done _ Hok), (eligible_any _ _ _ He).
Qed.

(** C9: every sum the store answers is the sum of its rows, whatever happened
    before.  From any consistent state, after any interleaving of group
    commits, finalizations, retention, rebuilds, openings and rollup builds
    with any number of summary builds, their cleanups and their interrupted or
    uncertain slices: a successful SumBuckets by tenant, range, signals and
    services has one row per group that occurs among the bucket and delta rows
    in the file now, each with the counts of all rows of its group (modulo
    2^64). *)
Theorem system_sums_exact (y0 y : ssys) s by_ rows : ssys_ok y0 -> sreach y0 y -> plain_selector s -> by_ <> 0 ->
  SumBuckets (y_sum y) s by_ = fine rows -> answers (tables_cells (su_file (y_sum y))) s by_ rows.
Proof. intros Hy0 Hr Hp Hby E. by apply (snapshot_sums _ (system_derived _ (sreach_keeps _ _ Hr Hy0))). Qed.

End System.
