(* ===== verification/StoreContract.v ===== *)
(** * StoreContract: the SQLite store keeps the contract of the queries

    A file whose derived tables are what their marks say, and whose dictionary
    names the services of its series, is a store of the query facade that keeps
    its laws.  With it the theorems about
    queries hold of the SQLite store; concrete queries at the end. *)
From stdpp Require Import sorting strings.
From S2P Require Import Prelude Float64 SeriesKey Dict Registrar Identity Gc TopoIdentity.
From S2P Require Import Sketch SketchCodec Histogram Delta Limiter Baseline Engine EngineTotals EngineReads Topology TopologySnapshot.
From S2P Require Import StoreRows StoreTables StoreFacts StoreReads Query QueryFacts SumFacts Rollup RollupFacts ServiceSummary RollupReads RollupSums SummarySums SummaryBuild SummaryFacts SummarySystem.
#[local] Open Scope Z_scope.

(** ** The dictionary of a snapshot *)

(** The scope index allows one row at most. *)
(* internal/aggregate/query.go:1347-1347 beginEndpointSnapshot *)
Definition service_id (f : StoreFile) (tenant : Z) (value : string) : option Z :=
  p ← head (filter (fun p : Z * DictEntry => de_Tenant p.2 = tenant /\ de_Kind p.2 = KindService /\ de_Value p.2 = value) (map_to_list (sf_dict f)));
  Some p.1.

(* internal/aggregate/query.go:1381-1386 endpointSnapshot.name *)
Definition value_of (f : StoreFile) (sid : Z) : string := default "" (de_Value <$> sf_dict f !! sid).

(** The dictionary is one to one in a scope, and has the services of the
    registered series under their tenants. *)
Record dict_ok (f : StoreFile) : Prop := {
  dk_unique i j a b : sf_dict f !! i = Some a -> sf_dict f !! j = Some b -> de_scope a = de_scope b -> de_Value a = de_Value b -> i = j;
  dk_service sid k e : stored_key f sid = Some k -> sf_dict f !! ServiceID k = Some e -> de_Tenant e = TenantID k /\ de_Kind e = KindService;
}.

Lemma service_id_found f tenant sid e : dict_ok f -> sf_dict f !! sid = Some e -> de_Tenant e = tenant -> de_Kind e = KindService ->
  service_id f tenant (de_Value e) = Some sid.
Proof.
  intros Hd He Ht Hk. unfold service_id.
  assert ((sid, e) ∈ filter (fun p : Z * DictEntry => de_Tenant p.2 = tenant /\ de_Kind p.2 = KindService /\ de_Value p.2 = de_Value e) (map_to_list (sf_dict f))) as Hin
    by (apply list_elem_of_filter; split; [done|by apply elem_of_map_to_list]).
  destruct (filter _ _) as [|[sid' e'] l] eqn:El; [by apply elem_of_nil in Hin|].
  assert ((sid', e') ∈ filter (fun p : Z * DictEntry => de_Tenant p.2 = tenant /\ de_Kind p.2 = KindService /\ de_Value p.2 = de_Value e) (map_to_list (sf_dict f))) as Hin'
    by (rewrite El; by left). apply list_elem_of_filter in Hin' as [(Ht' & Hk' & Hv') He'%elem_of_map_to_list]. cbn in *. f_equal.
  apply (dk_unique f Hd sid' sid e' e); [done..| |done]. unfold de_scope. congruence.
Qed.

Lemma cells_stored f x : x ∈ tables_cells f -> exists sid, stored_key f sid = Some (ce_key x).
Proof.
  unfold tables_cells, table_cells. intros [H|H]%elem_of_app; apply list_elem_of_omap in H as ([[w sid] row] & _ & H);
    unfold cell_of in H; cbn [fst snd] in H; apply bind_Some in H as (k & Hk & [= <-]); by exists sid.
Qed.

(** ** The store *)

(** A file of which the queries' theorems hold. *)
Record GoodFile `{Sqlite} := mkGood {
  gf_file : SummaryFile;
  gf_derived : derived_ok gf_file;
  gf_dict : dict_ok (su_file gf_file);
}.

#[export] Instance SQLiteStore `{Sqlite} `{SqlSum} : QueryStore GoodFile := {|
  qs_sqlite := true;
  qs_SumBuckets m := SumBuckets (gf_file m);
  qs_traffic m s by_ := sumWindowSnapshotFor (gf_file m) s by_ true;
  qs_VisitSketches m := VisitSketches (gf_file m);
  qs_service m := service_id (su_file (gf_file m));
  qs_name m := value_of (su_file (gf_file m));
|}.

(** Nothing is in an empty range. *)
Lemma matches_empty s x : sel_End s <= sel_Start s -> matches s x = false.
Proof. intros Hle. unfold matches. destruct (Z.leb_spec (sel_Start s) (ce_window x)), (Z.ltb_spec (ce_window x) (sel_End s)); try lia; cbn; by rewrite ?andb_false_r. Qed.

Lemma empty_answers cells s by_ : sel_End s <= sel_Start s -> answers cells s by_ [].
Proof.
  intros Hle. constructor; [by apply NoDup_nil_2| | |].
  - intros g. split; [by intros ?%elem_of_nil|]. intros (x & _ & Hm & _). by rewrite matches_empty in Hm.
  - intros fld psi. apply eq64_eq. unfold cells_sum. rewrite list_sum_zero; [done|]. intros x _. by rewrite matches_empty.
  - intros fld r Hr. by apply elem_of_nil in Hr.
Qed.

#[export] Program Instance SQLiteStore_laws `{Sqlite} `{SqlSum} : QueryStoreLaws GoodFile := {|
  qs_cells m := tables_cells (su_file (gf_file m));
|}.
Next Obligation. intros ? ? m s by_ rows Hby H1 H2 E. by apply (snapshot_sums (gf_file m) (gf_derived m)). Qed.
Next Obligation.
  intros ? ? m s by_ rows Hw H1 H2 E. destruct (Z.leb_spec (sel_End s) (sel_Start s)) as [Hle|Hlt].
  - cbn in E. unfold sumWindowSnapshotFor, chunks_of in E. cbn [window_chunks] in E. rewrite (proj2 (Z.ltb_ge _ _)) in E by done. injection E as <-. by apply empty_answers.
  - eapply (window_snapshot_answers (gf_file m) (gf_derived m)); [done| |done|done|exact E]. by intros ->.
Qed.
Next Obligation.
  intros ? ? m x v Hx Hv Hn. cbn in *. apply cells_stored in Hx as [sid Hk]. unfold value_of in Hn.
  destruct (sf_dict _ !! _) as [e|] eqn:Ee; cbn in Hn; [|by subst]. subst v. destruct (dk_service _ (gf_dict m) _ _ _ Hk Ee) as [Ht Hkd]. by apply service_id_found; [apply m|..].
Qed.

(** ** A store of cells *)

(** The contract as a store: cells in a list, grouped as they come.  It is not
    SQLite, so a query reads it in chunks. *)
Record CellStore := mkCells { cs_cells : list stored_cell }.

Definition row_of_cell (by_ : Z) (x : stored_cell) : SumRow :=
  let '(w, sv, nm, sg) := cell_group by_ x in
  let n fld := u64 (ce_count x fld) in
  mkSumRow w sv nm sg (n FCount) (n FErrors) (n FRequests) (n FErrRequests) (n FDurations) f_zero (n FLogs) 0.

Definition cell_sums (st : CellStore) (s : Selector) (by_ : Z) : exec (list SumRow) :=
  fine (foldl mergeSumRow ([], ∅) (row_of_cell by_ <$> filter (fun x => matches s x = true) (cs_cells st))).1.

#[export] Instance CellStore_store : QueryStore CellStore := {|
  qs_sqlite := false;
  qs_SumBuckets := cell_sums;
  qs_traffic := cell_sums;
  qs_VisitSketches _ _ := fine [];
  qs_service _ _ _ := None;
  qs_name _ _ := "";
|}.

Lemma row_of_cell_group by_ x : sumGroupKey (row_of_cell by_ x) = cell_group by_ x.
Proof. unfold row_of_cell. by destruct (cell_group by_ x) as [[[w sv] nm] sg]. Qed.

Lemma row_of_cell_field by_ x fld : row_field fld (row_of_cell by_ x) = u64 (ce_count x fld).
Proof. unfold row_of_cell. destruct (cell_group by_ x) as [[[w sv] nm] sg]. by destruct fld. Qed.

Lemma cell_sums_answers st s by_ rows : cell_sums st s by_ = fine rows -> answers (cs_cells st) s by_ rows.
Proof.
  intros [= <-]. destruct (merge_rows (row_of_cell by_ <$> filter (fun x => matches s x = true) (cs_cells st))) as [_ M2 M3 M4 M5].
  constructor; [done| | |].
  - intros g. rewrite M3. split.
    + intros (r & -> & (x & -> & [Hm Hx]%list_elem_of_filter)%list_elem_of_fmap)%list_elem_of_fmap. exists x. by rewrite row_of_cell_group.
    + intros (x & Hx & Hm & <-). apply list_elem_of_fmap. exists (row_of_cell by_ x). rewrite row_of_cell_group. split; [done|]. by apply list_elem_of_fmap_2, list_elem_of_filter.
  - intros fld psi. rewrite M4. unfold rows_sum, cells_sum. rewrite list_sum_fmap, list_sum_filter. apply list_sum_eq64. intros x _.
    rewrite row_of_cell_group, row_of_cell_field. destruct (matches s x); cbn [andb]; case_decide; try done. destruct (psi _); [apply u64_eq64|done].
  - intros fld r. apply M5. intros fld' r' (x & -> & _)%list_elem_of_fmap. rewrite row_of_cell_field. unfold wrapu. apply Z.mod_pos_bound. lia.
Qed.

#[export] Program Instance CellStore_laws : QueryStoreLaws CellStore := {| qs_cells := cs_cells |}.
Next Obligation. intros. by apply cell_sums_answers. Qed.
Next Obligation. intros. by apply cell_sums_answers. Qed.
Next Obligation. intros st x v _ Hv <-. done. Qed.

(** ** Concrete queries *)

#[local] Existing Instance flat_math.
#[local] Instance demo_sum : SqlSum := {| sum_real l := foldr fadd f_zero l |}.

(** The run of a rollup with a summary of its hour on top: opened, claimed,
    cleaned, walked and published, one delta of the next hour in the log. *)
Definition demo_fresh : SummaryFile := mkSummary demo_rollup None None ∅ ∅.
Definition demo_start : ssys := mkSsys demo_fresh ∅ ∅ ∅.
Definition demo_phases : gmap string (Z * phase) :=
  delete "t" (<["t" := (3600, PReading demo_store demo_progress)]> (<["t" := (3600, PReading demo_store (mkProgress 0 0 true))]> (<["t" := (3600, PReady)]> (<["t" := (3600, PCleaning)]> ∅)))).
Definition demo_rolled : SummaryFile := with_rollup demo_fresh demo_published.

Lemma demo_series_ok : series_ok demo_store.
Proof. intros sid args. cbn [sf_series demo_store]. intros [_ <-]%lookup_singleton_Some. exists demo_span_key. split; [apply (bool_decide_unpack _); vm_compute; exact I|done]. Qed.

Lemma demo_start_ok : ssys_ok demo_start.
Proof.
  constructor; cbn [y_sum y_rollups y_builds y_used demo_start demo_fresh su_rollup su_hours].
  - exact demo_sys_ok.
  - exact demo_series_ok.
  - intros i j args. cbn. by intros [<- _]%lookup_singleton_Some [<- _]%lookup_singleton_Some.
  - intros hour h [_ ->]%demo_hours Hs. discriminate Hs.
  - intros hour mh Hm. discriminate Hm.
  - intros token c ph Hb. discriminate Hb.
  - intros hour He. discriminate He.
Qed.

Lemma demo_rolled_reach : sreach demo_start (mkSsys demo_rolled demo_phases ∅ ({["t"]} ∪ ∅)).
Proof.
  eapply sr_step; [|apply (ss_rollup (with_rollup demo_fresh demo_batched)); [apply (rs_publish demo_batched _ _ 3600 "t" demo_store demo_progress); [apply lookup_insert_eq|vm_compute; reflexivity|vm_compute; reflexivity]|exact demo_series_ok]].
  eapply sr_step; [|apply (ss_rollup (with_rollup demo_fresh demo_claimed)); [apply (rs_batch demo_claimed _ _ 3600 "t" demo_store (mkProgress 0 0 true)); [apply lookup_insert_eq|vm_compute; reflexivity]|exact demo_series_ok]].
  eapply sr_step; [|apply (ss_rollup (with_rollup demo_fresh demo_claimed)); [apply (rs_snapshot demo_claimed _ _ 3600 "t"); apply lookup_insert_eq|exact demo_series_ok]].
  eapply sr_step; [|apply (ss_rollup (with_rollup demo_fresh demo_claimed)); [apply (rs_clean demo_claimed _ _ 3600 "t" demo_claimed 0); [apply lookup_insert_eq|vm_compute; reflexivity]|exact demo_series_ok]].
  eapply sr_step; [constructor|]. apply (ss_rollup demo_fresh); [apply rs_claim; [set_solver|done|vm_compute; reflexivity]|exact demo_series_ok].
Qed.

Definition demo_open : SummaryFile := ok_or demo_rolled (ensureServiceSummarySchema false demo_rolled).
Definition demo_none : summaryBuild := mkBuild 0 "" "" "" false false false None None [] (mkBudget 0 0 false).
Definition demo_claim : SummaryFile * summaryBuild := ok_or (demo_open, demo_none) (claimSummaryBuild demo_open "u" 3600 "s").
Definition demo_clean : SummaryFile * summaryBuild := ok_or demo_claim (summary_clean demo_claim.1 demo_claim.2 128).
Definition demo_walk : summaryBuild * bool := ok_or (demo_none, false) (summary_read demo_clean.1 demo_clean.2 128 100).
Definition demo_written : SummaryFile := ok_or demo_rolled (summary_write demo_clean.1 demo_walk.1 demo_walk.2).
Definition demo_end : summaryBuild * bool := ok_or (demo_none, false) (summary_read demo_written (written demo_walk.1 demo_walk.2) 128 100).
Definition demo_summary : SummaryFile := ok_or demo_rolled (summary_write demo_written demo_end.1 demo_end.2).

Definition demo_summary_builds : gmap string (summaryBuild * option bool) :=
  delete "s" (<["s" := (demo_end.1, Some true)]> (<["s" := (written demo_walk.1 false, None)]> (<["s" := (demo_walk.1, Some false)]> (<["s" := (demo_clean.2, None)]> (<["s" := (demo_claim.2, None)]> ∅))))).

Lemma demo_summary_reach : sreach demo_start (mkSsys demo_summary demo_phases demo_summary_builds ({["s"]} ∪ ({["t"]} ∪ ∅))).
Proof.
  eapply sr_step; [|apply (ss_write demo_written _ _ _ "s" demo_end.1 true); [apply lookup_insert_eq|vm_compute; reflexivity]].
  eapply sr_step; [|apply (ss_read demo_written _ _ _ "s" (written demo_walk.1 false) 128 100); [apply lookup_insert_eq|vm_compute; reflexivity|lia|vm_compute; reflexivity]].
  eapply sr_step; [|apply (ss_write demo_clean.1 _ _ _ "s" demo_walk.1 false); [apply lookup_insert_eq|vm_compute; reflexivity]].
  eapply sr_step; [|apply (ss_read demo_clean.1 _ _ _ "s" demo_clean.2 128 100); [apply lookup_insert_eq|vm_compute; reflexivity|lia|vm_compute; reflexivity]].
  eapply sr_step; [|apply (ss_clean demo_claim.1 _ _ _ "s" demo_claim.2 128); [apply lookup_insert_eq|vm_compute; reflexivity|lia|vm_compute; reflexivity]].
  eapply sr_step; [|apply (ss_claim demo_open _ _ _ "u" 3600 "s"); [set_solver|vm_compute; reflexivity]].
  eapply sr_step; [exact demo_rolled_reach|]. apply (ss_open demo_rolled _ _ _ false). vm_compute. reflexivity.
Qed.

Definition demo_select : Selector := mkSelector 1 3600 7500 SignalTraceOp [] [] [] 0 (mkCursor 0 0 SourceFinalized) false.

Lemma demo_derived : derived_ok demo_summary.
Proof. apply (system_derived _ (sreach_keeps _ _ demo_summary_reach demo_start_ok)). Qed.

(** The windows of the hour come from its three cells, that of the next from
    the log. *)
Lemma system_sums_exact_witness :
  summaryEligible demo_summary 3600 false = true /\ size (su_cells demo_summary) = 3%nat /\
  exists rows, SumBuckets demo_summary demo_select GroupByWindow = fine rows /\ answers (tables_cells demo_store) demo_select GroupByWindow rows /\
    (fun r => (sr_WindowStart r, sr_Count r)) <$> rows = [(3900, 3); (3600, 2); (7200, 4)].
Proof.
  split; [vm_compute; reflexivity|]. split; [vm_compute; reflexivity|]. eexists. split; [vm_compute; reflexivity|]. split; [|reflexivity].
  apply (system_sums_exact _ _ demo_select GroupByWindow _ demo_start_ok demo_summary_reach); [by split|done|vm_compute; reflexivity].
Defined.

Lemma demo_dict : dict_ok (su_file demo_summary).
Proof.
  change (su_file demo_summary) with demo_store. constructor.
  - intros i j a b Ha Hb. assert (map_Forall (fun i a => map_Forall (fun j b => de_scope a = de_scope b /\ de_Value a = de_Value b -> i = j) (sf_dict demo_store)) (sf_dict demo_store)) as HF
      by (apply (bool_decide_unpack _); vm_compute; exact I). intros Hs Hv. by apply (HF i a Ha j b Hb).
  - intros sid k e Hk He. unfold stored_key in Hk. cbn [sf_series demo_store] in Hk. destruct (decide (sid = 7)) as [->|D]; [|by rewrite lookup_singleton_ne in Hk].
    vm_compute in Hk. injection Hk as <-. vm_compute in He. injection He as <-. done.
Qed.

(** Twelve windows of a store of cells are read in two chunks. *)
Definition demo_cells : CellStore := mkCells ((fun w => mkCell w demo_span_key (fun _ => w)) <$> [3600; 5100; 5400; 6900]).

Lemma sumStoreFrom_answers_witness :
  exists rows, sumStoreFrom (Some demo_cells) (set_range demo_select 3600 7200) GroupByService = fine rows /\
    answers (qs_cells demo_cells) (set_range demo_select 3600 7200) GroupByService rows /\
    length (historySelectors (St := CellStore) (set_range demo_select 3600 7200)) = 2%nat /\ sr_Count <$> rows = [21000].
Proof.
  eexists. split; [vm_compute; reflexivity|]. split; [|by split].
  apply (sumStoreFrom_answers demo_cells (set_range demo_select 3600 7200) GroupByService); [done|by split|done|vm_compute; reflexivity].
Defined.

(** An engine with a live window behind a durable store of three. *)
Definition demo_live_batch : DeltaMap := [(demo_span_key, 7500, demo_points 6)].
Definition demo_live_plan : Engine * AdmissionPlan :=
  default (demo_engine, mkPlan ∅ []) (PlanAdmission demo_engine demo_live_batch (t_of_unix 7600) (t_of_unix 7600)).
Definition demo_live_commit : Engine * Z := default (demo_engine, 0) (CommitAdmission demo_live_plan.1 demo_live_plan.2).
Definition demo_live : Engine := demo_live_commit.1.

Lemma demo_live_plans : PlanAdmission demo_engine demo_live_batch (t_of_unix 7600) (t_of_unix 7600) = Some (demo_live_plan.1, demo_live_plan.2).
Proof. rewrite <- surjective_pairing. apply default_holds. vm_compute. reflexivity. Qed.

Lemma demo_live_commits : CommitAdmission demo_live_plan.1 demo_live_plan.2 = Some (demo_live, demo_live_commit.2).
Proof. unfold demo_live. rewrite <- surjective_pairing. apply default_holds. vm_compute. reflexivity. Qed.

Lemma demo_live_run : engine_run false demo_other demo_engine_cfg (demo_live, None).
Proof.
  eapply run_step; [|eapply step_commit, demo_live_commits].
  eapply run_step; [|eapply step_plan, demo_live_plans]. apply run_new, demo_engine_new.
Qed.

Lemma demo_live_ok : engine_ok demo_live.
Proof. apply (run_keeps false _ _ _ demo_live_run). Qed.

Definition demo_good : GoodFile := mkGood _ demo_summary demo_derived demo_dict.
Definition demo_names : Cache MemRegistrar := NewCacheWithBounds (NewMemRegistrar ∅) (mkBounds 0 0 0 ∅ ∅).
Definition demo_query : Query := mkQuery "acme" (t_of_unix 3600) (t_of_unix 7800) [] SignalUnspecified.

Lemma demo_small fld : fld ∈ traffic_fields -> small_counts demo_live demo_good fld.
Proof.
  intros Hf. assert (qs_cells demo_good = tables_cells demo_store) as Hc by done. constructor.
  - intros kw d Hd. assert (map_Forall (fun _ d => Forall (fun fld => 0 <= delta_field fld d) traffic_fields) (memory demo_live)) as HF by (apply (bool_decide_unpack _); vm_compute; exact I).
    specialize (HF kw d Hd). rewrite Forall_forall in HF. by apply HF.
  - rewrite Hc. intros x Hx. assert (Forall (fun x => Forall (fun fld => 0 <= ce_count x fld) traffic_fields) (tables_cells demo_store)) as HF
      by (apply (bool_decide_unpack _); vm_compute; exact I). rewrite Forall_forall in HF. specialize (HF x Hx). rewrite Forall_forall in HF. by apply HF.
  - rewrite Hc. assert (Forall (fun fld => map_sum (fun _ d => delta_field fld d) (memory demo_live) + list_sum (fun x => ce_count x fld) (tables_cells demo_store) < 2 ^ 63) traffic_fields) as HF
      by (apply (bool_decide_unpack _); vm_compute; exact I). rewrite Forall_forall in HF. by apply HF.
Qed.

(** The points of a result, when it is one. *)
Definition points_of {A} (m : A * exec BucketsResult) : list TrafficPoint := match m.2 with Some (Ok r) => br_Points r | _ => [] end.

Lemma QueryBuckets_exact_witness :
  tp_RequestCount <$> points_of (QueryBuckets (R := MemRegistrar) demo_names demo_live (Some demo_good) demo_query) = [2; 3; 4; 6] /\
  StronglySorted (fun a b => tp_WindowStart a < tp_WindowStart b) (points_of (QueryBuckets (R := MemRegistrar) demo_names demo_live (Some demo_good) demo_query)).
Proof.
  split; [vm_compute; reflexivity|]. unfold points_of.
  assert (match (QueryBuckets (R := MemRegistrar) demo_names demo_live (Some demo_good) demo_query).2 with Some (Ok _) => true | _ => false end = true) as Hok by (vm_compute; reflexivity).
  destruct (QueryBuckets (R := MemRegistrar) demo_names demo_live (Some demo_good) demo_query) as [c' [[r|]|]] eqn:E; [|discriminate Hok..]. cbn [snd].
  destruct (QueryBuckets_exact (R := MemRegistrar) demo_names demo_live demo_good demo_query c' r demo_live_ok) as (tid & hi & _ & _ & Hs & _);
    [reflexivity|by apply not_elem_of_nil|apply demo_small|exact E|exact Hs].
Defined.

(** An edge of a window in which its caller has no span of its own: the graph
    has the edge and no node at all. *)
Definition demo_edge_key : SeriesKey := mkSeriesKey 1 2 3 0 SignalServiceEdge 0 0 0 0.
Definition demo_edge_plan : Engine * AdmissionPlan :=
  default (demo_engine, mkPlan ∅ []) (PlanAdmission demo_engine [(demo_edge_key, 7500, demo_points 6)] (t_of_unix 7600) (t_of_unix 7600)).
Definition demo_edge_engine : Engine := (default (demo_engine, 0) (CommitAdmission demo_edge_plan.1 demo_edge_plan.2)).1.

Definition graph_of {A} (m : A * exec TopologyResult) : option (list string * list (string * string)) :=
  match m.2 with
  | Some (Ok r) => Some (ss_Service <$> tr_Nodes r, (fun e => (te_Source e, te_Target e)) <$> tr_Edges r)
  | _ => None
  end.

Lemma edge_without_node :
  exists c, graph_of (QueryTopology (R := MemRegistrar) c demo_edge_engine (@None GoodFile) demo_query) = Some ([], [("api", "web")]).
Proof.
  exists (cop_run demo_names [CopTenant "acme"; CopIntern 1 KindService "api"; CopIntern 1 KindService "web"]).1. vm_compute. reflexivity.
Qed.
